(* ===== verification/_CoqProject ===== *)
-Q . S2P
Prelude.v
GoStrings.v
GoErrors.v
VolumeID.v
Dispatch.v
Config.v
Metrics.v
Exposition.v
Json.v
JsonText.v
Backend.v
Protocol.v
Server.v
Client.v
Inflight.v
Driver.v
Controller.v
Node.v
CSIAddons.v
Wiring.v
Sha256.v
Sha1.v
GoCrypto.v
Host.v
GoOs.v
GoPath.v
KMS.v
Fscrypt.v
KMSRest.v
KMSAws.v
KMSRegistry.v
KMSSteps.v
KMSSpec.v
RBD.v
RBDControl.v
RBDNode.v
RBDAddons.v
RBDBench.v
RBDTrace.v
RBDSafety.v
RBDStage.v
RBDMemory.v
GoFloat.v
CephFS.v
CephFSSafety.v
NFS.v
NFSExport.v
LVM.v
LVMHost.v
ISCSI.v
Targetd.v
ISCSIControl.v
ISCSINode.v
TargetdSafety.v
ISCSISessions.v
ISCSIBench.v
ISCSISafety.v
InCluster.v
Inspect.v
InspectCollect.v
InspectSafety.v
Main.v
GoUrl.v
Sockets.v
Serving.v
Process.v
Accounting.v
Runner.v
Entry.v
Conformance.v
ConformanceSafety.v
ConformanceBench.v
FakeRun.v
RBDConformance.v
Tools.v
