(* ===== verification/Prelude.v ===== *)
(** * bard-csi: a verification development

    bard-csi is a CSI driver: the container orchestrator asks it over gRPC to create,
    delete, attach and mount volumes, and it forwards each request to the plugin of the
    storage backend concerned, over a unix socket.  This library models the driver core, the
    plugin contract, the five plugins (LVM, NFS, Ceph RBD, CephFS, iSCSI), the key-management
    providers they share and the consistency scanner, and proves what makes them correct.

    ** The core and the files that model it

    - Volume ids (src/internal/volumeid): VolumeID.v.  [Handle], [Validate], [Handle_String],
      [Parse].
    - Dispatch (src/internal/dispatch): Dispatch.v.  [New] builds the zone index, [Resolve]
      picks the instance; [Placement] is the specification it refines.
    - Configuration (src/internal/config): Config.v.  [validate], [Load] after YAML decoding,
      [FromBackendClusters], and the watch loop [WatchFromAPI] as a function of what the API
      server answers round by round.
    - Metrics (src/internal/metrics): Metrics.v.  The collector and its recording functions,
      as a state the rest of the core threads.  Exposition.v: the text the endpoint serves,
      and a reader of it.
    - Backend interface and registry (src/internal/backend): Backend.v.  [World] is the state
      a call moves: the metrics, and the environment the plugins live in.  [backend.Backend]
      is the interface as a record of operations, [BackendLaws] what the core relies on.
    - The plugin contract (src/pkg/bardplugin): Json.v (JSON values, encoding/json's rules,
      the codec class [Wire] with its laws), JsonText.v (the text of a document, printed and
      parsed), Protocol.v (version, routes, every message with its codec, the plugin
      interfaces), Server.v (the SDK's server).
    - The plugin client (src/internal/backend/plugin): Client.v.  [call] with its accounting,
      every operation behind its capability gate, [Dial] with its retry loop.  The transport
      is a parameter; [sdk_transport] connects the client to the server of Server.v.
    - The driver (src/internal/driver): Inflight.v (claims on objects, and concurrent calls
      as a step relation), Driver.v (its state, [with_claim], what handlers leave alone),
      Controller.v, Node.v (with the identity service) and CSIAddons.v (reclaim-space,
      fencing, replication, key rotation, volume groups): one definition per RPC handler.
    - Process wiring (src/cmd/bard-csi/main.go): Wiring.v ([build], [reload], [start]),
      Main.v ([main] between its flags and the serving driver) and Process.v ([main] as a
      whole).
    - Serving (src/internal/driver/driver.go, the SDK's [Serve], the metrics endpoint):
      Sockets.v (listening sockets, what Unix does, a machine), GoUrl.v (url.Parse), Serving.v
      ([parseEndpoint], [listen], [Run] and [runCSIAddons] as functions and as interleaved
      threads, [Serve], the interceptors) and Accounting.v (what the handlers leave in the
      metrics of RPCs).
    - In-cluster API access (src/internal/incluster) and the scanner (src/internal/inspect):
      InCluster.v, Inspect.v (every check, the report), InspectCollect.v (what is compared,
      and the [--inspect] mode), InspectSafety.v (what a report means); Tools.v is the kubectl
      plugin around it (src/cmd/kubectl-bard).
    - The conformance suite (src/internal/conformance): Conformance.v (every check in its order,
      and the tool), ConformanceSafety.v (what a run leaves), ConformanceBench.v (a plugin in
      memory and the LVM plugin under the suite).  FakeRun.v is the repository's simulated
      cluster (src/internal/fakerun), and RBDConformance.v runs the RBD plugin on it under the
      suite, node plane included.

    ** The plugins

    A plugin reaches its storage through commands and a few system calls.  The host is a
    parameter: Host.v has the commands and traces of them, GoOs.v package os, GoPath.v
    path/filepath, and the classes [Env], [Clock], [FsCrypt], [Network], [NodeFiles] the rest
    of the surroundings.  Statements hold for any host, or for any host with the documented
    behaviour of a tool, which is then a class of laws ([LVMHost], [TargetdServer],
    [Initiator], the laws of KMSSpec.v) with a concrete instance that runs the examples.

    - The entry points (main.go under src/cmd/bard-plugin-...) and the command runners
      (runner.go of each plugin): Entry.v and Runner.v.
    - LVM (src/internal/lvmplugin): LVM.v, and LVMHost.v with what LVM does.
    - NFS (src/internal/nfsplugin): NFS.v, NFSExport.v.
    - Key management (src/internal/cephenc): GoCrypto.v (HMAC, HKDF, base64, AES-GCM), KMS.v,
      Fscrypt.v (down to the ioctls), KMSRest.v (Vault, Azure), KMSAws.v (signed down to the
      bytes), KMSRegistry.v (KMIP and the registry), KMSSteps.v (what a provider can do to its
      surroundings), KMSSpec.v (what every provider promises).
    - Ceph RBD (src/internal/cephplugin): RBD.v, RBDControl.v, RBDNode.v, RBDAddons.v;
      RBDBench.v is a host to run it on; RBDTrace.v, RBDSafety.v, RBDStage.v and RBDMemory.v
      hold its theorems.
    - CephFS (src/internal/cephfsplugin): CephFS.v, CephFSSafety.v, with GoFloat.v for the one
      float it reads.
    - iSCSI (src/internal/iscsiplugin): ISCSI.v, Targetd.v (the JSON-RPC client),
      ISCSIControl.v, ISCSINode.v; TargetdSafety.v, ISCSISessions.v, ISCSISafety.v hold its
      theorems, ISCSIBench.v a node to run it on.
    - Sha256.v and Sha1.v are the hashes names are derived with, written out; GoStrings.v and
      GoErrors.v model what is used of Go's strings, strconv, sort and errors packages.

    ** Conventions

    A Go function that returns an error is a function into [res]; a handler is a computation
    in [M], state passing with errors, which keeps the state reached when it fails.  A Go map
    is a [gmap]; where the source ranges over one, the order is an instance of [MapIter] and
    theorems quantify over it, and likewise [SortSlice] for the order [sort.Slice] gives equal
    keys.  Machine integers are [Z] with their bounds and wrap-around written where they
    matter.  Errors and statuses keep what the program looks at (sentinels, codes, and the
    text where it is searched) and the format string of the call that built them; logging is
    left out.

    ** What the theorems show

    - Ids and placement: [Parse] and [Handle_String] are exact inverses; [Resolve] refines
      [Placement]; a created volume is in the placed instance, a source elsewhere is refused
      before any backend is called, and the id leads back to its backend.
    - Exclusion: claims exclude concurrent operations on one object in every interleaving;
      every handler releases what it claimed, on every path.
    - Contract: a capability is advertised exactly when its routes are wired, a call over the
      SDK's server is the plugin's method, a plugin's error code reaches the orchestrator;
      [Dial] terminates and admits only compatible versions; reloads only ever install
      consistent pairs of registry and dispatcher.
    - Processes: the driver's process ends or serves, with the services of its flags and on the
      socket of its endpoint; its two sockets come up in every interleaving without one taking the
      other's; a plugin that starts has a private socket and core can connect to it.
    - LVM: what is created, that creating is idempotent, that snapshots keep their source,
      that no device with a filesystem is formatted.  NFS: the export is mounted for an
      operation, changed only where it should be, and unmounted whatever happens.
    - Keys: a volume always yields the passphrase it is kept under, a rotation leaves a key
      that opens it, a clone's key is its own; a directory set up for fscrypt is under the
      key of the volume's passphrase.
    - RBD: no key is left on disk, destructive steps come after the checks that allow them, a
      device is forgotten only when it is gone, background work is tracked.  CephFS: a clone is
      handed out only when complete.
    - iSCSI: a volume is handed out only masked and removed only after its export, LUNs never
      collide and are the lowest free, unstaging never ends a session another volume uses,
      CHAP passwords stay out of errors.
    - Conformance: a run without failure or warning leaves nothing it created, for any plugin
      whose answers mean what the contract says; the modelled LVM and RBD plugins pass.
    - Metrics: every call of every handler is counted once under the code it ends with and is
      not in flight afterwards; the endpoint's text reads back to exactly what was recorded.
    - Scanner: a report without findings is true, a volume is reported gone exactly when it
      should be, and the zone check agrees with the dispatcher.

    ** Fuel

    [dial_loop] has fuel 32: its window is 30 seconds and each wait lasts a second at least;
    [info_loop] of the conformance suite has 22 for 10 seconds and half-second waits.
    The waits for a device have a deadline and a fixed interval: [wait_fuel] (68 polls of
    300 ms in 20 s) and [clone_fuel] (62 polls of 2 s in 2 min) cover them, and running out is
    a value of its own that the theorems on termination exclude.  [lowest_unused] has one more
    step than there are LUNs in use; the JSON parser as many as the text has bytes; flattening
    a chain of RBD clones as many as the deepest chain it follows.

    ** What is not modelled

    What a server does between a connection and a handler (gRPC, HTTP framing), shutdown on a
    signal, the parsing of command lines, logging, the float text of a histogram's sum (a
    parameter), YAML decoding, X.509, the limit on the nesting of JSON.  Which authorities
    url.Parse accepts differs between releases of Go and is a parameter. *)

From stdpp Require Export base tactics list gmap sets strings sorting pretty.
From Stdlib Require Export ZArith Lia.

(** ** Results

    A Go function that returns [(T, error)] is a function into [res]: the
    [error == nil] branch is [Ok], every other branch is [Err]. *)
Inductive res (E A : Type) : Type :=
  | Ok (a : A)
  | Err (e : E).
Arguments Ok {E A} _.
Arguments Err {E A} _.

Definition is_Ok {E A} (r : res E A) : bool :=
  match r with Ok _ => true | Err _ => false end.

#[export] Instance res_ret E : MRet (res E) := λ _ a, Ok a.
#[export] Instance res_bind E : MBind (res E) := λ _ _ f r,
  match r with Ok a => f a | Err e => Err e end.
#[export] Instance res_fmap E : FMap (res E) := λ _ _ f r,
  match r with Ok a => Ok (f a) | Err e => Err e end.

Definition map_err {E F A} (f : E → F) (r : res E A) : res F A :=
  match r with Ok a => Ok a | Err e => Err (f e) end.

#[export] Instance res_eq_dec {E A} `{EqDecision E, EqDecision A} :
  EqDecision (res E A).
Proof. solve_decision. Defined.

(** ** State passing with errors

    [M S E A] is a computation over a state [S] that returns an [A] or fails
    with an [E].  A failure keeps the state reached so far: Go has no rollback. *)
Definition M (S E A : Type) : Type := S → S * res E A.

#[export] Instance M_ret S E : MRet (M S E) := λ _ a s, (s, Ok a).
#[export] Instance M_bind S E : MBind (M S E) := λ _ _ f m s,
  match m s with
  | (s', Ok a) => f a s'
  | (s', Err e) => (s', Err e)
  end.

Definition fail {S E A} (e : E) : M S E A := λ s, (s, Err e).
Definition lift {S E A} (r : res E A) : M S E A := λ s, (s, r).
Definition gets {S E A} (f : S → A) : M S E A := λ s, (s, Ok (f s)).
Definition modify {S E} (f : S → S) : M S E unit := λ s, (f s, Ok tt).
(** [guard b e]: the early return [if !b { return nil, e }]. *)
Definition guard_ {S E} (b : bool) (e : E) : M S E unit :=
  λ s, (s, if b then Ok tt else Err e).
(** [catch m h] runs [m] and continues with [h] on its result, success or not:
    the shape of [x, err := m(); if err != nil ...] and of deferred calls. *)
Definition catch {S E F A B} (m : M S E A) (h : res E A → M S F B) : M S F B :=
  λ s, let '(s', r) := m s in h r s'.
Definition run_err {S E F A} (f : E → F) (m : M S E A) : M S F A :=
  λ s, let '(s', r) := m s in (s', map_err f r).

(** [wp m Q s]: running [m] from [s] ends in a state and a result related by
    [Q].  All computations of the model terminate, so this is total
    correctness. *)
Definition wp {S E A} (m : M S E A) (Q : S → res E A → Prop) (s : S) : Prop :=
  let '(s', r) := m s in Q s' r.

Section wp.
  Context {S E : Type}.
  Implicit Types s : S.

Lemma wp_ret {A} (a : A) (Q : S → res E A → Prop) s :
  Q s (Ok a) → wp (mret a) Q s.
Proof. done. Qed.
Lemma wp_fail {A} (e : E) (Q : S → res E A → Prop) s :
  Q s (Err e) → wp (fail e) Q s.
Proof. done. Qed.
Lemma wp_lift {A} (r : res E A) (Q : S → res E A → Prop) s :
  Q s r → wp (lift r) Q s.
Proof. done. Qed.
Lemma wp_gets {A} (f : S → A) (Q : S → res E A → Prop) s :
  Q s (Ok (f s)) → wp (gets f) Q s.
Proof. done. Qed.
Lemma wp_modify (f : S → S) (Q : S → res E unit → Prop) s :
  Q (f s) (Ok tt) → wp (modify f) Q s.
Proof. done. Qed.
Lemma wp_guard (b : bool) (e : E) (Q : S → res E unit → Prop) s :
  (b = true → Q s (Ok tt)) → (b = false → Q s (Err e)) → wp (guard_ b e) Q s.
Proof. destruct b; unfold wp, guard_; auto. Qed.
Lemma wp_bind {A B} (m : M S E A) (f : A → M S E B) (Q : S → res E B → Prop) s :
  wp m (λ s' r, match r with Ok a => wp (f a) Q s' | Err e => Q s' (Err e) end) s →
  wp (m ≫= f) Q s.
Proof. unfold wp, mbind, M_bind. by destruct (m s) as [s' [a|e]]. Qed.
Lemma wp_catch {E' A B} (m : M S E' A) (h : res E' A → M S E B)
    (Q : S → res E B → Prop) s :
  wp m (λ s' r, wp (h r) Q s') s → wp (catch m h) Q s.
Proof. unfold wp, catch. by destruct (m s) as [s' r]. Qed.
Lemma wp_run_err {E' A} (f : E' → E) (m : M S E' A) (Q : S → res E A → Prop) s :
  wp m (λ s' r, Q s' (map_err f r)) s → wp (run_err f m) Q s.
Proof. unfold wp, run_err. by destruct (m s) as [s' r]. Qed.
Lemma wp_mono {A} (m : M S E A) (Q Q' : S → res E A → Prop) s :
  wp m Q s → (∀ s' r, Q s' r → Q' s' r) → wp m Q' s.
Proof. unfold wp. destruct (m s) as [s' r]. auto. Qed.
Lemma wp_elim {A} (m : M S E A) (Q : S → res E A → Prop) s s' r :
  wp m Q s → m s = (s', r) → Q s' r.
Proof. unfold wp. intros Hw Heq. by rewrite Heq in Hw. Qed.
Lemma wp_intro {A} (m : M S E A) (Q : S → res E A → Prop) s :
  (∀ s' r, m s = (s', r) → Q s' r) → wp m Q s.
Proof. unfold wp. destruct (m s) as [s' r]. auto. Qed.
End wp.

(** [wp_step] takes one step of a handler; [wp_go] runs it to its exits. *)
Ltac wp_step :=
  lazymatch goal with
  | |- wp (mbind _ _) _ _ => apply wp_bind
  | |- wp (mret _) _ _ => apply wp_ret
  | |- wp (fail _) _ _ => apply wp_fail
  | |- wp (lift _) _ _ => apply wp_lift
  | |- wp (gets _) _ _ => apply wp_gets
  | |- wp (modify _) _ _ => apply wp_modify
  | |- wp (guard_ _ _) _ _ => apply wp_guard; intros ?
  | |- wp (catch _ _) _ _ => apply wp_catch
  | |- wp (run_err _ _) _ _ => apply wp_run_err
  | |- wp (match ?x with _ => _ end) _ _ => destruct x eqn:?
  end.
Ltac wp_go := repeat (wp_step; simpl).

(** ** Steps of a preorder

    [Pres R m]: however [m] ends, it has moved the state along [R]. *)
Definition Pres {S E A} (R : S → S → Prop) (m : M S E A) : Prop := ∀ s, R s (m s).1.

Section pres.
  Context {S : Type} (R : S → S → Prop) `{!PreOrder R}.

Lemma Pres_ret {E A} (a : A) : Pres R (mret a : M S E A).
Proof. intros s. simpl. reflexivity. Qed.
Lemma Pres_fail {E A} (e : E) : Pres R (fail e : M S E A).
Proof. intros s. simpl. reflexivity. Qed.
Lemma Pres_lift {E A} (r : res E A) : Pres R (lift r : M S E A).
Proof. intros s. simpl. reflexivity. Qed.
Lemma Pres_gets {E A} (f : S → A) : Pres R (gets f : M S E A).
Proof. intros s. simpl. reflexivity. Qed.
Lemma Pres_guard {E} b (e : E) : Pres R (guard_ b e).
Proof. intros s. simpl. reflexivity. Qed.
Lemma Pres_modify {E} (f : S → S) : (∀ s, R s (f s)) → Pres R (modify f : M S E unit).
Proof. intros Hf s. apply Hf. Qed.
Lemma Pres_bind {E A B} (m : M S E A) (f : A → M S E B) : Pres R m → (∀ a, Pres R (f a)) → Pres R (m ≫= f).
Proof.
  intros Hm Hf s. specialize (Hm s). unfold mbind, M_bind. destruct (m s) as [s' [a|e]]; [|done].
  etrans; [exact Hm|apply Hf].
Qed.
Lemma Pres_bind_guard {E B} b (e : E) (f : unit → M S E B) :
  (b = true → Pres R (f tt)) → Pres R (guard_ b e ≫= f).
Proof. intros Hf s. destruct b; [by apply Hf|]. simpl. reflexivity. Qed.
Lemma Pres_catch {E F A B} (m : M S E A) (f : res E A → M S F B) :
  Pres R m → (∀ r, Pres R (f r)) → Pres R (catch m f).
Proof.
  intros Hm Hf s. specialize (Hm s). unfold catch. destruct (m s) as [s' r]. etrans; [exact Hm|apply Hf].
Qed.
Lemma Pres_run_err {E F A} (f : E → F) (m : M S E A) : Pres R m → Pres R (run_err f m).
Proof. intros Hm s. specialize (Hm s). unfold run_err. by destruct (m s). Qed.
End pres.

(** [pres_step] follows a computation one step towards what moves the state. *)
Ltac pres_step :=
  lazymatch goal with
  | |- Pres _ (mbind _ (guard_ _ _)) => apply Pres_bind_guard; [apply _|]; intros
  | |- Pres _ (mbind _ _) => apply Pres_bind; [apply _|..]; intros
  | |- Pres _ (catch _ _) => apply Pres_catch; [apply _|..]; intros
  | |- Pres _ (mret _) => apply Pres_ret; apply _
  | |- Pres _ (fail _) => apply Pres_fail; apply _
  | |- Pres _ (lift _) => apply Pres_lift; apply _
  | |- Pres _ (gets _) => apply Pres_gets; apply _
  | |- Pres _ (guard_ _ _) => apply Pres_guard; apply _
  | |- Pres _ (run_err _ _) => apply Pres_run_err
  | |- Pres _ (let _ := _ in _) => cbv zeta
  | |- Pres _ (match ?x with _ => _ end) => destruct x eqn:?
  end.

(** ** Map iteration

    Go's [range] over a map visits every entry once, in an order the runtime
    chooses afresh.  A model that ranges over a map takes the order as an
    instance of [MapIter]; theorems quantify over it. *)
Class MapIter := {
  range : ∀ {V : Type}, gmap string V → list (string * V);
  range_perm : ∀ {V : Type} (m : gmap string V), range m ≡ₚ map_to_list m;
}.

#[export] Program Instance iter_default : MapIter | 100 :=
  {| range V m := map_to_list m |}.
Next Obligation. done. Qed.

(** The reverse order, to evaluate a model under two different orders. *)
Program Definition iter_reverse : MapIter :=
  {| range V m := reverse (map_to_list m) |}.
Next Obligation. intros V m. apply reverse_Permutation. Qed.

Section range.
  Context `{MapIter} {V : Type}.
  Implicit Types m : gmap string V.

Lemma elem_of_range m k v : (k, v) ∈ range m ↔ m !! k = Some v.
Proof. by rewrite range_perm, elem_of_map_to_list. Qed.
Lemma range_length m : length (range m) = size m.
Proof. rewrite range_perm. apply length_map_to_list. Qed.
Lemma range_NoDup_fst m : NoDup (range m).*1.
Proof. rewrite range_perm. apply NoDup_fst_map_to_list. Qed.
Lemma range_Forall m (P : string → V → Prop) :
  Forall (λ p, P p.1 p.2) (range m) ↔ ∀ k v, m !! k = Some v → P k v.
Proof.
  rewrite Forall_forall. split.
  - intros HF k v Hkv. apply (HF (k, v)). by apply elem_of_range.
  - intros HF [k v] Hkv. apply HF. by apply elem_of_range.
Qed.
Lemma range_to_map m : list_to_map (range m) = m.
Proof.
  etrans; [|apply list_to_map_to_list]. apply list_to_map_proper.
  - apply range_NoDup_fst.
  - apply range_perm.
Qed.
End range.

Lemma map_size_1 {V} (m : gmap string V) : size m = 1 → ∃ i x, m = {[ i := x ]}.
Proof.
  rewrite <-length_map_to_list. destruct (map_to_list m) as [|[i x] [|]] eqn:Hm; [done| |done].
  intros _. exists i, x. apply map_to_list_inj. by rewrite Hm, map_to_list_singleton.
Qed.

Abbreviation strmap := (gmap string string).

(** [m[k]] on a Go map of strings: the zero value when the key is absent. *)
Definition mget (m : strmap) (k : string) : string := default "" (m !! k).

(** The keys of a map, in the order of a [range] loop. *)
Definition range_keys `{MapIter} {V} (m : gmap string V) : list string := (range m).*1.

(** ** Machine integers *)
Definition int64_min : Z := -9223372036854775808.
Definition int64_max : Z := 9223372036854775807.
Definition int64_ok (z : Z) : Prop := (int64_min ≤ z ≤ int64_max)%Z.
#[export] Instance int64_ok_dec z : Decision (int64_ok z).
Proof. unfold int64_ok. apply _. Defined.

(** [uint64] increments and differences wrap, as do conversions to [int64] and
    products of [int64]. *)
Definition two64 : Z := 18446744073709551616.
Definition u64_succ (z : Z) : Z := ((z + 1) mod two64)%Z.
Definition u64_sub (a b : Z) : Z := ((a - b) mod two64)%Z.
Definition wrap64 (z : Z) : Z := ((z - int64_min) mod two64 + int64_min)%Z.

Lemma wrap64_id z : int64_ok z → wrap64 z = z.
Proof.
  unfold wrap64, int64_ok, int64_min, int64_max, two64. intros Hz. rewrite Z.mod_small; lia.
Qed.
Lemma u64_sub_id a b : (0 ≤ b ≤ a)%Z → (a < two64)%Z → u64_sub a b = (a - b)%Z.
Proof. unfold u64_sub. intros H1 H2. apply Z.mod_small. lia. Qed.

(** ** Automation shared by the components *)
Create HintDb bard.

Ltac inv_ok :=
  repeat match goal with
  | H : Ok _ = Ok _ |- _ => injection H as H
  | H : Err _ = Err _ |- _ => injection H as H
  | H : Ok _ = Err _ |- _ => discriminate H
  | H : Err _ = Ok _ |- _ => discriminate H
  | H : (_, _) = (_, _) |- _ => injection H as H
  end; simplify_eq.

(** Break a hypothesis [H : match ... end = v] down its branches. *)
Ltac break_match_in H :=
  repeat (lazymatch type of H with
  | context [match ?x with _ => _ end] =>
      lazymatch x with
      | context [match _ with _ => _ end] => fail
      | _ => destruct x eqn:?
      end
  end; simplify_eq/=).
