(* ===== verification/GoStrings.v ===== *)
(** * Go's [strings] and [strconv], as far as the driver uses them

    A Go string is a byte sequence; the model's [string] is a sequence of
    [ascii], which is a byte.  [TrimSpace], [ToLower] and [EqualFold] are
    modelled on ASCII, which is what the command output, option names and
    numbers they are applied to consist of. *)
From S2P Require Import Prelude.
From Stdlib Require Import Ascii String.
From stdpp Require Import numbers.

(** ** Substrings *)

(** [strings.Split(s, sep)] for a one-byte separator: never empty. *)
Fixpoint split_on (c : ascii) (s : string) : list string :=
  match s with
  | EmptyString => [EmptyString]
  | String a s' =>
      if decide (a = c) then EmptyString :: split_on c s'
      else match split_on c s' with
           | h :: t => String a h :: t
           | [] => [String a EmptyString]
           end
  end.

(** [strings.Join(elems, sep)]. *)
Fixpoint join (sep : string) (l : list string) : string :=
  match l with
  | [] => EmptyString
  | [x] => x
  | x :: l' => x +:+ sep +:+ join sep l'
  end.

(** [strings.Contains(s, c)] for a one-byte needle. *)
Fixpoint contains_char (c : ascii) (s : string) : bool :=
  match s with
  | EmptyString => false
  | String a s' => if decide (a = c) then true else contains_char c s'
  end.

(** [strings.HasPrefix], [strings.CutPrefix]. *)
Fixpoint cut_prefix (p s : string) : option string :=
  match p, s with
  | EmptyString, _ => Some s
  | String a p', String b s' => if decide (a = b) then cut_prefix p' s' else None
  | String _ _, EmptyString => None
  end.
Definition has_prefix (p s : string) : bool :=
  match cut_prefix p s with Some _ => true | None => false end.

(** [strings.Contains]. *)
Fixpoint contains (sub s : string) : bool :=
  has_prefix sub s ||
  match s with EmptyString => false | String _ s' => contains sub s' end.

Fixpoint string_rev_app (s acc : string) : string :=
  match s with EmptyString => acc | String a s' => string_rev_app s' (String a acc) end.
Definition string_rev (s : string) : string := string_rev_app s EmptyString.

(** [strings.HasSuffix], [strings.TrimSuffix]. *)
Definition has_suffix (suf s : string) : bool := has_prefix (string_rev suf) (string_rev s).
Definition trim_suffix (suf s : string) : string :=
  match cut_prefix (string_rev suf) (string_rev s) with
  | Some r => string_rev r
  | None => s
  end.

(** [strings.Cut(s, sep)] for a one-byte separator. *)
Fixpoint cut_on (c : ascii) (s : string) : option (string * string) :=
  match s with
  | EmptyString => None
  | String a s' =>
      if decide (a = c) then Some (EmptyString, s')
      else match cut_on c s' with
           | Some (l, r) => Some (String a l, r)
           | None => None
           end
  end.

Fixpoint trim_left (P : ascii → bool) (s : string) : string :=
  match s with
  | EmptyString => EmptyString
  | String a s' => if P a then trim_left P s' else s
  end.
Definition trim (P : ascii → bool) (s : string) : string :=
  string_rev (trim_left P (string_rev (trim_left P s))).
(** [strings.TrimSpace]; [strings.Trim(s, c)] for a one-byte cutset. *)
Definition trim_space (s : string) : string := trim Ascii.is_space s.
Definition trim_byte (c : ascii) (s : string) : string := trim (λ a, bool_decide (a = c)) s.

(** [strings.ToLower], [strings.EqualFold]. *)
Definition lower_ascii (a : ascii) : ascii :=
  let n := nat_of_ascii a in
  if decide (65 ≤ n ∧ n ≤ 90) then ascii_of_nat (n + 32) else a.
Fixpoint to_lower (s : string) : string :=
  match s with EmptyString => EmptyString | String a s' => String (lower_ascii a) (to_lower s') end.
Definition equal_fold (s t : string) : bool := bool_decide (to_lower s = to_lower t).

(** The text around the last [c] ([strings.LastIndex]). *)
Definition cut_last (c : ascii) (s : string) : option (string * string) :=
  match cut_on c (string_rev s) with
  | Some (a, b) => Some (string_rev b, string_rev a)
  | None => None
  end.
(** [strings.ContainsAny], [strings.Fields], [strings.ReplaceAll] of one byte by another. *)
Definition contains_any (chars : list ascii) (s : string) : bool := existsb (λ c, contains_char c s) chars.
Fixpoint fields_go (s word : string) : list string :=
  match s with
  | EmptyString => if decide (word = "") then [] else [word]
  | String a s' =>
      if Ascii.is_space a then if decide (word = "") then fields_go s' "" else word :: fields_go s' ""
      else fields_go s' (word +:+ String a "")
  end.
Definition fields (s : string) : list string := fields_go s "".
Fixpoint replace_byte (old new : ascii) (s : string) : string :=
  match s with
  | EmptyString => ""
  | String a s' => String (if decide (a = old) then new else a) (replace_byte old new s')
  end.

(** [strings.ReplaceAll] of a text that is not empty. *)
Fixpoint replace_go (old new s : string) (skip : nat) : string :=
  match s with
  | EmptyString => ""
  | String a s' =>
      match skip with
      | S k => replace_go old new s' k
      | O => if has_prefix old s then new +:+ replace_go old new s' (pred (String.length old))
             else String a (replace_go old new s' 0)
      end
  end.
Definition replace_all (old new s : string) : string := replace_go old new s 0.
Example replace_ex : replace_all "ab" "*" "aababb" = "a**b" ∧ replace_all "aa" "***" "aaa" = "***a".
Proof. done. Qed.

(** [net.SplitHostPort] and [net.JoinHostPort]. *)
Definition SplitHostPort (hostport : string) : option (string * string) :=
  match cut_last ":" hostport with
  | None => None
  | Some (before, port) =>
      if has_prefix "[" hostport then
        match cut_on "]" hostport with
        | Some (String _ host, after) =>
            if negb (bool_decide (after = ":" +:+ port)) || contains_char "[" host || contains_char "[" after ||
               contains_char "]" after
            then None else Some (host, port)
        | _ => None
        end
      else if contains_char ":" before || contains_char "[" hostport || contains_char "]" hostport then None
      else Some (before, port)
  end.
Definition JoinHostPort (host port : string) : string :=
  if contains_char ":" host || contains_char "%" host then "[" +:+ host +:+ "]:" +:+ port
  else host +:+ ":" +:+ port.

(** ** Decimal numbers *)

(** [strconv.Itoa], [strconv.FormatInt(n, 10)]. *)
Definition Itoa (n : Z) : string := pretty n.

Fixpoint digits_val (s : string) (acc : Z) : option Z :=
  match s with
  | EmptyString => Some acc
  | String a s' =>
      match Ascii.is_nat a with
      | Some d => digits_val s' (acc * 10 + Z.of_nat d)%Z
      | None => None
      end
  end.

(** The digits after the sign: at least one, and the signed value in range. *)
Definition signed_digits (digits : string) (sign : Z) : option Z :=
  if decide (digits = EmptyString) then None
  else v ← digits_val digits 0;
       if decide (int64_ok (sign * v)) then Some (sign * v)%Z else None.

(** [strconv.Atoi] on a 64-bit platform and [strconv.ParseInt(s, 10, 64)]: an
    optional sign, at least one digit, nothing else, and the value in range. *)
Definition Atoi (s : string) : option Z :=
  match s with
  | String a rest =>
      if decide (a = "-"%char) then signed_digits rest (-1)
      else if decide (a = "+"%char) then signed_digits rest 1
      else signed_digits s 1
  | EmptyString => None
  end.

(** ** Properties *)

Lemma append_cons (a : ascii) (s t : string) : String a s +:+ t = String a (s +:+ t).
Proof. done. Qed.

Lemma string_app_nil_r (s : string) : s +:+ "" = s.
Proof. induction s as [|a s IH]; [done|]. by rewrite append_cons, IH. Qed.

Lemma length_append (s t : string) :
  String.length (s +:+ t) = String.length s + String.length t.
Proof. induction s as [|a s IH]; [done|]. rewrite append_cons. simpl. by rewrite IH. Qed.

Lemma split_on_nonempty c s : split_on c s ≠ [].
Proof. destruct s; simpl; [done|]. case_decide; [done|]. by destruct (split_on c s). Qed.

Lemma split_on_none c s : contains_char c s = false → split_on c s = [s].
Proof.
  induction s as [|a s IH]; simpl; [done|].
  case_decide; [done|]. intros Hs. by rewrite IH.
Qed.

Lemma split_on_app c s t :
  contains_char c s = false → split_on c (s +:+ String c t) = s :: split_on c t.
Proof.
  induction s as [|a s IH]; intros Hs.
  - simpl. by rewrite decide_True.
  - rewrite append_cons. simpl in *. case_decide; [done|]. by rewrite IH.
Qed.

Lemma cut_on_none c s : contains_char c s = false → cut_on c s = None.
Proof. induction s as [|a s IH]; simpl; [done|]. case_decide; [done|]. intros Hs. by rewrite IH. Qed.
Lemma cut_on_app c s t : contains_char c s = false → cut_on c (s +:+ String c t) = Some (s, t).
Proof.
  induction s as [|a s IH]; simpl; intros Hs; [by rewrite decide_True|]. case_decide; [done|]. by rewrite IH.
Qed.
Lemma split_on_elem c s x : x ∈ split_on c s → contains_char c x = false.
Proof.
  revert x. induction s as [|a s IH]; simpl; intros x Hx.
  - apply list_elem_of_singleton in Hx. by subst.
  - case_decide.
    + apply elem_of_cons in Hx as [->|Hx]; [done|auto].
    + destruct (split_on c s) as [|h t] eqn:Hsp.
      { by destruct (split_on_nonempty c s). }
      apply elem_of_cons in Hx as [->|Hx].
      * simpl. rewrite decide_False by done. apply IH. left.
      * apply IH. by right.
Qed.

Lemma join_cons sep x y l : join sep (x :: y :: l) = x +:+ sep +:+ join sep (y :: l).
Proof. done. Qed.

(** [Split] undoes [Join] on separator-free pieces, and [Join] undoes [Split]. *)
Lemma split_join c l :
  l ≠ [] → Forall (λ x, contains_char c x = false) l →
  split_on c (join (String c EmptyString) l) = l.
Proof.
  intros Hne HF. induction HF as [|x l Hx HF IH]; [done|].
  destruct l as [|y l]; [by apply split_on_none|].
  rewrite join_cons. change (String c "" +:+ ?t) with (String c t).
  rewrite split_on_app by done. by rewrite IH.
Qed.

Lemma join_split c s : join (String c EmptyString) (split_on c s) = s.
Proof.
  induction s as [|a s IH]; simpl; [done|].
  pose proof (split_on_nonempty c s) as Hne. case_decide as Hac.
  - destruct (split_on c s) as [|h t] eqn:Hsp; [done|].
    rewrite join_cons, IH. by subst.
  - destruct (split_on c s) as [|h t] eqn:Hsp; [done|].
    destruct t as [|y t].
    + simpl in *. by rewrite IH.
    + rewrite join_cons in IH |- *. rewrite append_cons. by rewrite IH.
Qed.

Lemma contains_char_app c s t :
  contains_char c (s +:+ t) = contains_char c s || contains_char c t.
Proof.
  induction s as [|a s IH]; [done|]. rewrite append_cons. simpl. by case_decide.
Qed.

(** Two strings cut at the first occurrence of a byte that the left parts do
    not contain are cut at the same place. *)
Lemma append_char_inj c s1 s2 t1 t2 :
  contains_char c s1 = false → contains_char c s2 = false →
  s1 +:+ String c t1 = s2 +:+ String c t2 → s1 = s2 ∧ t1 = t2.
Proof.
  intros H1 H2 Heq. pose proof (split_on_app c s1 t1 H1) as E1.
  rewrite Heq, split_on_app in E1 by done. injection E1 as -> Hsp. split; [done|].
  rewrite <-(join_split c t1), <-(join_split c t2). by rewrite Hsp.
Qed.

Lemma digit_char (d : N) :
  (d < 10)%N → Ascii.is_nat (pretty_N_char d) = Some (N.to_nat d).
Proof.
  intros Hd. assert (Hc : d = 0%N ∨ d = 1%N ∨ d = 2%N ∨ d = 3%N ∨ d = 4%N ∨ d = 5%N
    ∨ d = 6%N ∨ d = 7%N ∨ d = 8%N ∨ d = 9%N) by lia.
  by repeat (destruct Hc as [->|Hc]; [done|]); subst.
Qed.

Lemma digits_val_pretty_go (x : N) s :
  digits_val (pretty_N_go x s) 0 = digits_val s (Z.of_N x).
Proof.
  revert s. induction (N.lt_wf_0 x) as [x _ IH]; intros s.
  destruct (decide (x = 0%N)) as [->|Hx]; [by rewrite pretty_N_go_0|].
  rewrite pretty_N_go_step by lia. rewrite IH by (apply N.div_lt; lia).
  assert (Hm : (x `mod` 10 < 10)%N) by (by apply N.mod_lt).
  simpl. rewrite digit_char, N_nat_Z by done. f_equal.
  pose proof (N.div_mod x 10 ltac:(done)) as Hdm. lia.
Qed.

Lemma pretty_go_head (x : N) s :
  (0 < x)%N → ∃ d r, pretty_N_go x s = String d r ∧ d ≠ "-"%char ∧ d ≠ "+"%char.
Proof.
  revert s. induction (N.lt_wf_0 x) as [x _ IH]; intros s Hx.
  rewrite pretty_N_go_step by done.
  destruct (decide (x `div` 10 = 0)%N) as [Hz|Hz].
  - rewrite Hz, pretty_N_go_0. eexists _, _. split; [done|].
    unfold pretty_N_char. by repeat case_match.
  - apply IH; [by apply N.div_lt|by apply N.neq_0_lt_0].
Qed.

(** [Atoi] reads back what [Itoa] prints, on the whole [int64] range. *)
Lemma Atoi_Itoa n : int64_ok n → Atoi (Itoa n) = Some n.
Proof.
  intros Hn. unfold Itoa. destruct n as [|p|p]; [done|..].
  - unfold pretty, pretty_Z, pretty, pretty_positive, pretty, pretty_N. simpl.
    destruct (pretty_go_head (Npos p) "") as (d & r & Heq & Hd1 & Hd2); [done|].
    pose proof (digits_val_pretty_go (Npos p) "") as Hv. rewrite Heq in Hv.
    rewrite Heq. unfold Atoi, signed_digits. rewrite !decide_False by done. rewrite Hv.
    cbn [mbind option_bind digits_val]. rewrite Z.mul_1_l. by rewrite decide_True.
  - unfold pretty, pretty_Z, pretty, pretty_positive, pretty, pretty_N.
    destruct (decide (N.pos p = 0%N)) as [?|_]; [done|].
    destruct (pretty_go_head (Npos p) "") as (d & r & Heq & Hd1 & Hd2); [done|].
    pose proof (digits_val_pretty_go (Npos p) "") as Hv. rewrite Heq in *.
    change ("-" +:+ String d r) with (String "-" (String d r)).
    unfold Atoi, signed_digits. rewrite decide_True, decide_False by done. rewrite Hv.
    cbn [mbind option_bind digits_val].
    replace (-1 * Z.of_N (N.pos p))%Z with (Z.neg p) by lia. by rewrite decide_True.
Qed.

Lemma signed_digits_range s sg n : signed_digits s sg = Some n → int64_ok n.
Proof.
  unfold signed_digits. case_decide; [done|].
  destruct (digits_val s 0) as [v|]; simpl; [|done]. case_decide; [|done].
  by intros [= <-].
Qed.

Lemma Atoi_range s n : Atoi s = Some n → int64_ok n.
Proof.
  unfold Atoi. destruct s as [|a s]; [done|].
  repeat case_decide; apply signed_digits_range.
Qed.

Lemma Itoa_nonempty n : Itoa n ≠ "".
Proof.
  unfold Itoa. destruct n as [|p|p]; [done| |done].
  unfold pretty, pretty_Z, pretty, pretty_positive, pretty, pretty_N. simpl.
  destruct (pretty_go_head (Npos p) "") as (d & r & -> & _); done.
Qed.

(** ** Trimming *)
Fixpoint all_chars (P : ascii → bool) (s : string) : bool :=
  match s with EmptyString => true | String a s' => P a && all_chars P s' end.

Lemma all_chars_app P s t : all_chars P (s +:+ t) = all_chars P s && all_chars P t.
Proof. induction s as [|a s IH]; [done|]. rewrite append_cons. simpl. rewrite IH. apply andb_assoc. Qed.
Lemma all_chars_impl (P Q : ascii → bool) s :
  (∀ a, P a = true → Q a = true) → all_chars P s = true → all_chars Q s = true.
Proof.
  intros HPQ. induction s as [|a s IH]; simpl; [done|]. intros [Ha Hs]%andb_true_iff.
  by rewrite (HPQ _ Ha), IH.
Qed.
(** A byte outside a class does not occur in a string over the class. *)
Lemma all_chars_free (P : ascii → bool) c s : P c = false → all_chars P s = true → contains_char c s = false.
Proof.
  intros Hc. induction s as [|a s IH]; simpl; [done|]. intros [Ha Hs]%andb_true_iff.
  case_decide; [by subst; rewrite Ha in Hc|auto].
Qed.

Lemma string_app_assoc (s t u : string) : (s +:+ t) +:+ u = s +:+ (t +:+ u).
Proof. induction s as [|a s IH]; [done|]. by rewrite !append_cons, IH. Qed.

Lemma string_rev_app_spec s acc : string_rev_app s acc = string_rev s +:+ acc.
Proof.
  unfold string_rev. revert acc. induction s as [|a s IH]; intros acc; [done|].
  simpl. rewrite IH, (IH (String a "")), string_app_assoc. done.
Qed.
Lemma string_rev_cons a s : string_rev (String a s) = string_rev s +:+ String a "".
Proof. unfold string_rev at 1. simpl. apply string_rev_app_spec. Qed.
Lemma string_rev_append s t : string_rev (s +:+ t) = string_rev t +:+ string_rev s.
Proof.
  induction s as [|a s IH]; [by rewrite string_app_nil_r|].
  by rewrite append_cons, !string_rev_cons, IH, string_app_assoc.
Qed.
Lemma string_rev_involutive s : string_rev (string_rev s) = s.
Proof.
  induction s as [|a s IH]; [done|]. by rewrite string_rev_cons, string_rev_append, IH.
Qed.
Lemma cut_prefix_app p s : cut_prefix p (p +:+ s) = Some s.
Proof. induction p as [|a p IH]; [done|]. rewrite append_cons. simpl. by rewrite decide_True. Qed.
Lemma cut_prefix_Some p s r : cut_prefix p s = Some r → s = p +:+ r.
Proof.
  revert s. induction p as [|a p IH]; intros s; simpl; [by intros [= ->]|].
  destruct s as [|b s]; [done|]. case_decide; [|done]. intros ->%IH. by subst.
Qed.
Lemma has_prefix_app p s : has_prefix p (p +:+ s) = true.
Proof. unfold has_prefix. by rewrite cut_prefix_app. Qed.
Lemma has_prefix_spec p s : has_prefix p s = true ↔ ∃ r, s = p +:+ r.
Proof.
  split; [|intros [r ->]; apply has_prefix_app]. unfold has_prefix.
  destruct (cut_prefix p s) as [r|] eqn:Hc; [|done]. intros _. exists r. by apply cut_prefix_Some.
Qed.
Lemma has_suffix_app suf s : has_suffix suf (s +:+ suf) = true.
Proof. unfold has_suffix. by rewrite string_rev_append, has_prefix_app. Qed.
Lemma trim_suffix_app suf s : trim_suffix suf (s +:+ suf) = s.
Proof. unfold trim_suffix. by rewrite string_rev_append, cut_prefix_app, string_rev_involutive. Qed.
Lemma all_chars_rev P s : all_chars P (string_rev s) = all_chars P s.
Proof.
  induction s as [|a s IH]; [done|]. rewrite string_rev_cons, all_chars_app, IH. simpl.
  rewrite andb_true_r. apply andb_comm.
Qed.

(** [bare_ends P s]: [s] neither begins nor ends with a byte of [P]. *)
Definition bare_head (P : ascii → bool) (s : string) : bool :=
  match s with EmptyString => true | String a _ => negb (P a) end.
Definition bare_ends (P : ascii → bool) (s : string) : bool := bare_head P s && bare_head P (string_rev s).

Lemma trim_left_app P l s : all_chars P l = true → trim_left P (l +:+ s) = trim_left P s.
Proof.
  induction l as [|a l IH]; [done|]. rewrite append_cons. simpl. intros [-> Hl]%andb_true_iff. auto.
Qed.
Lemma trim_left_bare P s : bare_head P s = true → trim_left P s = s.
Proof. destruct s as [|a s]; simpl; [done|]. by destruct (P a). Qed.

Lemma trim_spec P l s r :
  all_chars P l = true → all_chars P r = true → bare_ends P s = true → s ≠ "" → trim P (l +:+ s +:+ r) = s.
Proof.
  intros Hl Hr [Hh Ht]%andb_true_iff Hs. unfold trim. rewrite trim_left_app by done.
  rewrite (trim_left_bare P (s +:+ r)) by (by destruct s).
  rewrite string_rev_append, trim_left_app by (by rewrite all_chars_rev).
  rewrite (trim_left_bare P (string_rev s)) by done. apply string_rev_involutive.
Qed.

Lemma bare_head_none P s : all_chars (λ a, negb (P a)) s = true → bare_head P s = true.
Proof. destruct s as [|a s]; simpl; [done|]. by intros [-> _]%andb_true_iff. Qed.
Lemma bare_ends_none P s : all_chars (λ a, negb (P a)) s = true → bare_ends P s = true.
Proof.
  intros Hs. unfold bare_ends. apply andb_true_iff. split; apply bare_head_none; [done|by rewrite all_chars_rev].
Qed.
(** A string without a byte of the class is not trimmed. *)
Lemma trim_none P s : all_chars (λ a, negb (P a)) s = true → trim P s = s.
Proof.
  intros Hs. destruct (decide (s = "")) as [->|Hne]; [done|].
  pose proof (trim_spec P "" s "" eq_refl eq_refl (bare_ends_none P s Hs) Hne) as Ht.
  by rewrite string_app_nil_r in Ht.
Qed.
Lemma bare_ends_app P s t :
  s ≠ "" → t ≠ "" → bare_ends P s = true → bare_ends P t = true → ∀ m, bare_ends P (s +:+ m +:+ t) = true.
Proof.
  intros Hs Ht [Hs1 _]%andb_true_iff [_ Ht2]%andb_true_iff m. apply andb_true_iff. split.
  - by destruct s.
  - rewrite !string_rev_append, string_app_assoc.
    destruct (string_rev t) as [|a u] eqn:E; [|done].
    destruct Ht. by rewrite <-(string_rev_involutive t), E.
Qed.

(** ** Evaluation on concrete inputs *)
Example split_ex : split_on "|" "swsk|1|a||b" = ["swsk"; "1"; "a"; ""; "b"].
Proof. reflexivity. Qed.
Example atoi_ex :
  (Atoi "128", Atoi "-7", Atoi "1x", Atoi "", Atoi "9223372036854775808")
  = (Some 128%Z, Some (-7)%Z, None, None, None).
Proof. vm_compute. reflexivity. Qed.
Example trim_ex : trim_space (" 12 " +:+ String "010" "") = "12".
Proof. reflexivity. Qed.
Example suffix_ex :
  (trim_suffix ".tar.gz" "snap-1.tar.gz", contains "not mounted" "umount: /x: not mounted.")
  = ("snap-1", true).
Proof. reflexivity. Qed.

(** ** Sorting by a string key

    [sort.Slice] orders by the key and leaves entries of equal keys in an order
    of its own. *)
Definition key_le {A} (key : A → string) : relation A := λ x y, String.le (key x) (key y).
#[export] Instance key_le_dec {A} (key : A → string) : RelDecision (key_le key).
Proof. intros x y. unfold key_le. apply _. Defined.
#[export] Instance key_le_total {A} (key : A → string) : Total (key_le key).
Proof. intros x y. unfold key_le. apply String.le_total. Qed.
#[export] Instance key_le_trans {A} (key : A → string) : Transitive (key_le key).
Proof. intros x y z. unfold key_le. apply (transitivity (R := String.le)). Qed.

Class SortSlice := {
  sort_slice : ∀ {A : Type}, (A → string) → list A → list A;
  sort_slice_perm : ∀ {A : Type} (key : A → string) l, sort_slice key l ≡ₚ l;
  sort_slice_sorted : ∀ {A : Type} (key : A → string) l, StronglySorted (key_le key) (sort_slice key l);
}.
#[export] Program Instance sort_default : SortSlice | 100 :=
  {| sort_slice A key l := merge_sort (key_le key) l |}.
Next Obligation. intros A key l. apply merge_sort_Permutation. Qed.
Next Obligation. intros A key l. apply StronglySorted_merge_sort; apply _. Qed.

(** Lists with the same entries and distinct keys sort to the same list. *)
Lemma sort_slice_unique (s1 s2 : SortSlice) {A} (key : A → string) l1 l2 :
  l1 ≡ₚ l2 → NoDup (key <$> l1) → @sort_slice s1 A key l1 = @sort_slice s2 A key l2.
Proof.
  intros Hp Hnd. apply (StronglySorted_unique_strong (key_le key)).
  - intros x y Hx Hy Hxy Hyx. rewrite sort_slice_perm in Hx. rewrite sort_slice_perm, <-Hp in Hy.
    assert (key x = key y) as Heq by (by apply (anti_symm String.le)).
    apply list_elem_of_lookup in Hx as [i Hi]. apply list_elem_of_lookup in Hy as [j Hj].
    assert (i = j) as ->; [|congruence].
    apply (NoDup_lookup (key <$> l1) i j (key x)); [done|..]; rewrite list_lookup_fmap, ?Hi, ?Hj; simpl; congruence.
  - apply sort_slice_sorted.
  - apply sort_slice_sorted.
  - by rewrite !sort_slice_perm.
Qed.

(** ** Masking

    What a text is masked with cannot be part of it: after masking, the text is gone. *)
Definition mask : string := "***".
Definition maskable (p : string) : bool := negb (bool_decide (p = "")) && negb (contains_char "*" p).
Lemma mask_prefix old p s :
  contains_char "*" p = false → has_prefix p (replace_go old mask s 0) = true → has_prefix p s = true.
Proof.
  revert s. induction p as [|a p IH]; intros s; [by destruct s|]. simpl. intros Hc. case_decide as Hca; [done|].
  destruct s as [|b s]; [done|]. cbn [replace_go]. destruct (has_prefix old (String b s)).
  - unfold has_prefix. simpl. case_decide; [congruence|done].
  - unfold has_prefix. simpl. case_decide; [|done]. intros Hp. by apply (IH s).
Qed.
Lemma contains_star p s : maskable p = true → contains p (String "*" s) = contains p s.
Proof.
  unfold maskable. destruct p as [|a p]; [done|]. simpl. case_decide as Ha; [done|]. intros _.
  unfold has_prefix at 1. simpl. case_decide; [congruence|done].
Qed.
Lemma mask_clean old p s k :
  maskable p = true → (p = old ∨ contains p s = false) → contains p (replace_go old mask s k) = false.
Proof.
  intros Hp. assert (p ≠ "" ∧ contains_char "*" p = false) as [Hne Hc].
  { unfold maskable in Hp. destruct (bool_decide_reflect (p = "")); [done|]. split; [done|]. by destruct (contains_char "*" p). }
  revert k. induction s as [|a s IH]; intros k Hor.
  { by destruct p. }
  assert (p = old ∨ contains p s = false) as Hor'.
  { destruct Hor as [->|Hs]; [by left|right]. simpl in Hs. by apply orb_false_iff in Hs as [_ Hs]. }
  destruct k as [|k]; [|by apply IH]. cbn [replace_go]. destruct (has_prefix old (String a s)) eqn:Hold.
  { set (r := replace_go old mask s _). change (contains p (String "*" (String "*" (String "*" r))) = false).
    rewrite !contains_star by done. by apply IH. }
  cbn [contains]. rewrite IH by done. rewrite orb_false_r. apply not_true_is_false. intros Hpre.
  assert (has_prefix p (String a s) = true) as Hps.
  { apply (mask_prefix old); [done|]. cbn [replace_go]. by rewrite Hold. }
  destruct Hor as [->|Hs]; [congruence|]. simpl in Hs. by rewrite Hps in Hs.
Qed.
(** Masking a list of texts one after the other, the empty ones left out. *)
Definition mask_all (texts : list string) (msg : string) : string :=
  foldl (λ msg t, if bool_decide (t = "") then msg else replace_all t mask msg) msg texts.
Lemma mask_all_keeps p texts msg : maskable p = true → contains p msg = false → contains p (mask_all texts msg) = false.
Proof.
  intros Hp. unfold mask_all. revert msg. induction texts as [|t texts IH]; intros msg Hm; simpl; [done|].
  apply IH. case_bool_decide; [done|]. apply mask_clean; auto.
Qed.
Lemma mask_all_clean p texts msg : maskable p = true → p ∈ texts → contains p (mask_all texts msg) = false.
Proof.
  intros Hp. revert msg. induction texts as [|t texts IH]; intros msg; [by intros ?%not_elem_of_nil|].
  rewrite elem_of_cons. intros [<-|Hin]; [|by apply IH].
  unfold mask_all. simpl. rewrite bool_decide_eq_false_2 by (intros ->; done).
  apply (mask_all_keeps p); [done|]. apply mask_clean; auto.
Qed.
