(* ===== verification/GoErrors.v ===== *)
(** * Errors and gRPC statuses

    A Go error is modelled by the sentinel errors [errors.Is] finds in its
    chain, and by the format string of the call that built it: the site, with
    its arguments not rendered.  A gRPC status is its code and its format
    string, likewise. *)
From S2P Require Import Prelude.

(** The sentinels the core compares errors with: those of
    internal/backend/backend.go, volumeid's [errBadHandle], and the two context
    errors the plugin client classifies. *)
Inductive sentinel :=
  | ErrAlreadyExists
  | ErrNotFound
  | ErrUnsupported
  | ErrInvalidArgument
  | errBadHandle
  | DeadlineExceeded
  | Canceled.
#[export] Instance sentinel_eq_dec : EqDecision sentinel.
Proof. solve_decision. Defined.

Record error := mkError {
  err_chain : list sentinel;   (* what errors.Is finds *)
  err_fmt : string;            (* where the error was built *)
}.
#[export] Instance error_eq_dec : EqDecision error.
Proof. solve_decision. Defined.

Definition errors_Is (e : error) (s : sentinel) : bool := bool_decide (s ∈ err_chain e).

(** An error that wraps no sentinel. *)
Definition plain_error (fmt : string) : error := mkError [] fmt.
(** A bare sentinel, returned as it is. *)
Definition bare (s : sentinel) : error := mkError [s] "".

(** google.golang.org/grpc/codes, the codes the driver returns. *)
Module codes.
Inductive Code :=
  | InvalidArgument
  | NotFound
  | AlreadyExists
  | Aborted
  | Unimplemented
  | Internal.
#[global] Instance Code_eq_dec : EqDecision Code.
Proof. solve_decision. Defined.
End codes.

Record status := mkStatus { st_code : codes.Code; st_fmt : string }.
#[export] Instance status_eq_dec : EqDecision status.
Proof. solve_decision. Defined.

Lemma errors_Is_spec e s : errors_Is e s = true ↔ s ∈ err_chain e.
Proof. apply bool_decide_eq_true. Qed.
