(* ===== verification/VolumeID.v ===== *)
(** * The self-describing volume handle (internal/volumeid/volumeid.go)

    A CSI volume id is [swsk|1|backend|instance|location|name].  This file
    models [Handle], [Validate], [String] and [Parse], and proves that encoding
    and decoding are inverse on exactly the valid handles. *)
From S2P Require Import Prelude GoStrings GoErrors.
From Stdlib Require Import Ascii String.

Definition magic : string := "swsk".
Definition ver : string := "1".
Definition sep_byte : ascii := "|"%char.
Definition sep : string := String sep_byte EmptyString.
Definition MaxLength : nat := 128.

Record Handle := mkHandle {
  hBackend : string;
  hInstance : string;
  hLocation : string;
  hName : string;
}.
#[export] Instance Handle_eq_dec : EqDecision Handle.
Proof. solve_decision. Defined.
Definition zeroHandle : Handle := mkHandle "" "" "" "".

Definition handle_fields (h : Handle) : list string :=
  [hBackend h; hInstance h; hLocation h; hName h].

(** [Handle.String]. *)
Definition Handle_String (h : Handle) : string :=
  join sep [magic; ver; hBackend h; hInstance h; hLocation h; hName h].

(** [Handle.Validate]: the required fields, then the reserved separator, then
    the CSI length limit. *)
Definition Validate (h : Handle) : res error unit :=
  if bool_decide (hBackend h = "") || bool_decide (hInstance h = "") || bool_decide (hName h = "")
  then Err (mkError [errBadHandle] "%w: backend, instance and name are required")
  else if existsb (contains_char sep_byte) (handle_fields h)
  then Err (mkError [errBadHandle] "%w: field %q contains reserved separator %q")
  else if decide (MaxLength < String.length (Handle_String h))
  then Err (mkError [errBadHandle] "%w: encoded length %d exceeds CSI limit of %d bytes")
  else Ok tt.

(** [Parse]. *)
Definition Parse (s : string) : res error Handle :=
  match split_on sep_byte s with
  | [p0; p1; p2; p3; p4; p5] =>
      if bool_decide (p0 = magic) && bool_decide (p1 = ver) then
        let h := mkHandle p2 p3 p4 p5 in
        match Validate h with
        | Ok _ => Ok h
        | Err e => Err e
        end
      else Err (mkError [errBadHandle] "%w: %q")
  | _ => Err (mkError [errBadHandle] "%w: %q")
  end.

(** ** Helper lemmas *)

(** What [Validate] accepts. *)
Definition ValidHandle (h : Handle) : Prop :=
  hBackend h ≠ "" ∧ hInstance h ≠ "" ∧ hName h ≠ "" ∧
  Forall (λ f, contains_char sep_byte f = false) (handle_fields h) ∧
  String.length (Handle_String h) ≤ MaxLength.

Lemma existsb_false {A} (p : A → bool) l :
  existsb p l = false ↔ Forall (λ x, p x = false) l.
Proof.
  induction l as [|x l IH]; simpl; [by split|].
  rewrite orb_false_iff, IH, Forall_cons. done.
Qed.

Lemma Validate_ok h : Validate h = Ok tt ↔ ValidHandle h.
Proof.
  unfold Validate, ValidHandle. split.
  - intros H. repeat case_bool_decide; try discriminate.
    destruct (existsb _ _) eqn:He in H; [discriminate|]. case_decide; [discriminate|].
    apply existsb_false in He.
    split_and!; [done..|]. by apply Nat.nlt_ge.
  - intros (H1 & H2 & H3 & H4 & H5). apply existsb_false in H4. rewrite H4.
    rewrite !bool_decide_eq_false_2 by done. simpl.
    rewrite decide_False; [done|]. by apply Nat.nlt_ge.
Qed.

Lemma Validate_cases h : Validate h = Ok tt ∨ ∃ e, Validate h = Err e ∧ errors_Is e errBadHandle = true.
Proof.
  unfold Validate. destruct (_ || _); [right; eauto|]. destruct (existsb _ _); [right; eauto|].
  case_decide; [right; eauto|by left].
Qed.

Lemma Parse_fields h :
  Forall (λ f, contains_char sep_byte f = false) (handle_fields h) →
  split_on sep_byte (Handle_String h) = [magic; ver; hBackend h; hInstance h; hLocation h; hName h].
Proof.
  intros HF. unfold Handle_String, sep. apply split_join; [done|].
  repeat constructor; try done; by repeat (apply Forall_cons in HF as [? HF]).
Qed.

Lemma Parse_String h : Validate h = Ok tt → Parse (Handle_String h) = Ok h.
Proof.
  intros HV. assert (Hv := HV). apply Validate_ok in Hv as (_ & _ & _ & HF & _).
  unfold Parse. rewrite Parse_fields by done. destruct h. simpl in *. by rewrite HV.
Qed.

Lemma Parse_inv s h : Parse s = Ok h → Handle_String h = s ∧ Validate h = Ok tt.
Proof.
  unfold Parse. intros H.
  destruct (split_on sep_byte s) as [|p0 [|p1 [|p2 [|p3 [|p4 [|p5 [|]]]]]]] eqn:Hsp;
    try discriminate.
  destruct (bool_decide (p0 = magic)) eqn:E0; [|discriminate].
  destruct (bool_decide (p1 = ver)) eqn:E1; [|discriminate].
  apply bool_decide_eq_true in E0 as ->. apply bool_decide_eq_true in E1 as ->.
  simpl in H. destruct (Validate _) as [[]|] eqn:HV in H; inv_ok.
  split; [|done]. unfold Handle_String, sep. cbn [hBackend hInstance hLocation hName].
  rewrite <-Hsp. apply join_split.
Qed.

Lemma Parse_err_bad s e : Parse s = Err e → errors_Is e errBadHandle = true.
Proof.
  unfold Parse. intros H. repeat case_match; simplify_eq; try done.
  match goal with HV : Validate ?h = Err _ |- _ =>
    destruct (Validate_cases h) as [?|(? & ? & ?)]; congruence end.
Qed.

Lemma Parse_ok_length s h : Parse s = Ok h → String.length s ≤ MaxLength.
Proof. intros [<- HV]%Parse_inv. by apply Validate_ok in HV as (_ & _ & _ & _ & ?). Qed.

(** ** Properties *)

(** C4: Round trip and exactness of the handle encoding: [Parse] accepts a
    string with a handle precisely when the handle validates and encodes to that
    very string.  In particular every valid handle decodes to itself, every
    accepted id re-encodes to itself byte for byte, and no id decodes two ways. *)
Theorem Parse_String_exact (s : string) (h : Handle) :
  Parse s = Ok h ↔ Validate h = Ok tt ∧ Handle_String h = s.
Proof.
  split.
  - intros [? ?]%Parse_inv. by split.
  - intros [HV <-]. by apply Parse_String.
Qed.

(** The encoding is injective on valid handles, stays within the CSI limit
    of 128 bytes, and never emits an empty id: two volumes that differ in backend,
    instance, location or name have different ids. *)
Theorem Handle_String_injective (h1 h2 : Handle) :
  Validate h1 = Ok tt → Validate h2 = Ok tt →
  (Handle_String h1 = Handle_String h2 ↔ h1 = h2)
  ∧ String.length (Handle_String h1) ≤ 128 ∧ Handle_String h1 ≠ "".
Proof.
  intros H1 H2. split; [split; [|by intros ->]|split].
  - intros Heq. pose proof (Parse_String h1 H1) as P1. pose proof (Parse_String h2 H2) as P2.
    rewrite Heq in P1. congruence.
  - by apply Validate_ok in H1 as (_ & _ & _ & _ & ?).
  - by destruct h1.
Qed.

Definition ex_handle : Handle := mkHandle "ceph-rbd" "east" "replicapool" "csi-vol-9f3a".

Example ex_handle_string : Handle_String ex_handle = "swsk|1|ceph-rbd|east|replicapool|csi-vol-9f3a".
Proof. reflexivity. Qed.
Example ex_parse_bad :
  (is_Ok (Parse "swsk|1|ceph-rbd||p|n"), is_Ok (Parse "swsk|2|b|i|p|n"), is_Ok (Parse "x")) = (false, false, false).
Proof. reflexivity. Qed.

Lemma Handle_String_injective_witness :
  (Handle_String ex_handle = Handle_String (mkHandle "nfs" "west" "" "v") ↔ ex_handle = mkHandle "nfs" "west" "" "v")
  ∧ String.length (Handle_String ex_handle) ≤ 128 ∧ Handle_String ex_handle ≠ "".
Proof. apply Handle_String_injective; reflexivity. Defined.
