(* ===== verification/Dispatch.v ===== *)
(** * Topology dispatch (internal/dispatch/dispatch.go)

    [New] inverts the instance -> zone configuration of every backend type and
    refuses an ambiguous one; [Resolve] picks the instance of a CreateVolume
    request.  The specification [Placement] states the choice over the
    configuration alone, without the index, and [Resolve] is proved to implement
    it. *)
From S2P Require Import Prelude GoStrings GoErrors.

Definition TopologyKeyZone : string := "topology.csi.bard.io/zone".
Definition BackendParamKey : string := "backend".

(** [Config]. *)
Record DispatchConfig := mkDispatchConfig {
  Instances : gmap string (gmap string string);   (* backend type -> instance -> zone *)
  Defaults : gmap string string;                  (* backend type -> instance *)
}.

Record Dispatcher := mkDispatcher {
  disp_cfg : DispatchConfig;
  zoneIndex : gmap string (gmap string string);   (* backend type -> zone -> instance *)
}.

(** The inner loop of [New]: one backend type's instances, in range order. *)
Fixpoint index_instances (entries : list (string * string)) (zi : gmap string string)
    : res error (gmap string string) :=
  match entries with
  | [] => Ok zi
  | (inst, zone) :: rest =>
      match zi !! zone with
      | Some _ => Err (plain_error "backend %q: instances %q and %q both claim zone %q")
      | None => index_instances rest (<[zone := inst]> zi)
      end
  end.

(** The outer loop of [New]. *)
Fixpoint index_backends `{MapIter} (entries : list (string * gmap string string))
    (idx : gmap string (gmap string string)) : res error (gmap string (gmap string string)) :=
  match entries with
  | [] => Ok idx
  | (bt, instances) :: rest =>
      zi ← index_instances (range instances) ∅;
      index_backends rest (<[bt := zi]> idx)
  end.

(** [New]. *)
Definition New `{MapIter} (cfg : DispatchConfig) : res error Dispatcher :=
  idx ← index_backends (range (Instances cfg)) ∅;
  Ok (mkDispatcher cfg idx).

(** [Decision] and [Resolution]. *)
Inductive Decision :=
  | DecisionPreferred
  | DecisionRequisite
  | DecisionDefault
  | DecisionSingleInstance.
#[export] Instance Decision_eq_dec : EqDecision Decision.
Proof. solve_decision. Defined.
Definition Decision_string (d : Decision) : string :=
  match d with
  | DecisionPreferred => "preferred"
  | DecisionRequisite => "requisite"
  | DecisionDefault => "default"
  | DecisionSingleInstance => "single_instance"
  end.

Record Resolution := mkResolution {
  rBackend : string;
  rInstance : string;
  rZone : string;
  rDecision : Decision;
}.
#[export] Instance Resolution_eq_dec : EqDecision Resolution.
Proof. solve_decision. Defined.

(** [for _, zone := range zones { if inst, ok := zi[zone]; ok { ... } }]. *)
Fixpoint first_served (zi : gmap string string) (zones : list string) : option (string * string) :=
  match zones with
  | [] => None
  | zone :: rest =>
      match zi !! zone with
      | Some inst => Some (zone, inst)
      | None => first_served zi rest
      end
  end.

(** [Dispatcher.Resolve]. *)
Definition Resolve `{MapIter} (d : Dispatcher) (params : gmap string string)
    (preferred requisite : list string) : res error Resolution :=
  let bt := mget params BackendParamKey in
  if bool_decide (bt = "") then Err (plain_error "StorageClass parameter %q is required") else
  let zi := default ∅ (zoneIndex d !! bt) in
  if bool_decide (size zi = 0) then Err (plain_error "no instances configured for backend %q") else
  match first_served zi preferred with
  | Some (zone, inst) => Ok (mkResolution bt inst zone DecisionPreferred)
  | None =>
  match first_served zi requisite with
  | Some (zone, inst) => Ok (mkResolution bt inst zone DecisionRequisite)
  | None =>
  let inst := mget (Defaults (disp_cfg d)) bt in
  if negb (bool_decide (inst = "")) then
    let zone := mget (default ∅ (Instances (disp_cfg d) !! bt)) inst in
    Ok (mkResolution bt inst zone DecisionDefault)
  else
  let none := Err (plain_error "backend %q has %d instances but the request carried no matching topology and no default is set") in
  if bool_decide (size zi = 1) then
    match range zi with
    | (zone, inst) :: _ => Ok (mkResolution bt inst zone DecisionSingleInstance)
    | [] => none
    end
  else none
  end end.

(** [InstancesForBackend]: the configured instance ids, sorted. *)
Definition InstancesForBackend `{MapIter} (d : Dispatcher) (bt : string) : list string :=
  merge_sort String.le (range_keys (default ∅ (Instances (disp_cfg d) !! bt))).

(** ** Specification *)

(** Instance [i] of backend [bt] serves zone [z]. *)
Definition Serves (cfg : DispatchConfig) (bt z i : string) : Prop :=
  ∃ insts, Instances cfg !! bt = Some insts ∧ insts !! i = Some z.

(** No two instances of one backend type claim one zone. *)
Definition Unambiguous (cfg : DispatchConfig) : Prop :=
  ∀ bt z i1 i2, Serves cfg bt z i1 → Serves cfg bt z i2 → i1 = i2.

Definition Unserved (cfg : DispatchConfig) (bt : string) (zones : list string) : Prop :=
  ∀ z i, z ∈ zones → ¬ Serves cfg bt z i.

(** What a placement is, over the configuration alone: the first preferred zone
    that is served, else the first requisite one, else the default instance of a
    backend that has instances, else the only instance there is. *)
Inductive Placement (cfg : DispatchConfig) (bt : string) (pref req : list string) : Resolution → Prop :=
  | place_preferred l1 z l2 i :
      pref = l1 ++ z :: l2 → Unserved cfg bt l1 → Serves cfg bt z i →
      Placement cfg bt pref req (mkResolution bt i z DecisionPreferred)
  | place_requisite l1 z l2 i :
      Unserved cfg bt pref →
      req = l1 ++ z :: l2 → Unserved cfg bt l1 → Serves cfg bt z i →
      Placement cfg bt pref req (mkResolution bt i z DecisionRequisite)
  | place_default i z0 i0 :
      Unserved cfg bt pref → Unserved cfg bt req → Serves cfg bt z0 i0 →
      i ≠ "" → Defaults cfg !! bt = Some i →
      Placement cfg bt pref req
        (mkResolution bt i (mget (default ∅ (Instances cfg !! bt)) i) DecisionDefault)
  | place_single i z :
      Unserved cfg bt pref → Unserved cfg bt req →
      mget (Defaults cfg) bt = "" → Instances cfg !! bt = Some {[ i := z ]} →
      Placement cfg bt pref req (mkResolution bt i z DecisionSingleInstance).

(** ** The index *)

Section index.
  Context `{MapIter}.

Lemma index_instances_spec l zi :
  match index_instances l zi with
  | Ok zi' => NoDup l.*2 ∧ (∀ z, z ∈ l.*2 → zi !! z = None) ∧
      ∀ z i, zi' !! z = Some i ↔ zi !! z = Some i ∨ (i, z) ∈ l
  | Err _ => ¬ (NoDup l.*2 ∧ ∀ z, z ∈ l.*2 → zi !! z = None)
  end.
Proof.
  revert zi. induction l as [|[i z] l IH]; intros zi; simpl.
  { split_and!; [constructor|set_solver|]. intros. set_solver. }
  destruct (zi !! z) as [i'|] eqn:Hz.
  { intros [_ Hn]. specialize (Hn z ltac:(left)). congruence. }
  specialize (IH (<[z:=i]> zi)). destruct (index_instances l (<[z:=i]> zi)) as [zi'|].
  - destruct IH as (Hnd & Hfresh & Hlk). split_and!.
    + constructor; [|done]. intros Hin. specialize (Hfresh z Hin). by simplify_map_eq.
    + intros z' [->|Hin]%elem_of_cons; [done|].
      specialize (Hfresh z' Hin). rewrite lookup_insert in Hfresh. by case_decide.
    + intros z' i'. rewrite Hlk, lookup_insert, elem_of_cons.
      case_decide; subst; [|naive_solver]. rewrite Hz. split; [naive_solver|].
      intros [?|[?|Hin]]; [done|naive_solver|].
      exfalso. specialize (Hfresh z' (list_elem_of_fmap_2 snd _ _ Hin)). by simplify_map_eq.
  - intros [Hnd Hfresh]. apply IH. apply NoDup_cons in Hnd as [Hni Hnd]. split; [done|].
    intros z' Hin. rewrite lookup_insert_ne by (intros ->; done). apply Hfresh. by right.
Qed.

(** A zone index inverts a set of instances. *)
Definition Inverts (insts zi : gmap string string) : Prop :=
  ∀ z i, zi !! z = Some i ↔ insts !! i = Some z.

(** Two instances never share a zone. *)
Definition ZonesDistinct (insts : gmap string string) : Prop :=
  ∀ z i1 i2, insts !! i1 = Some z → insts !! i2 = Some z → i1 = i2.

Lemma range_zones_NoDup insts : ZonesDistinct insts → NoDup (range insts).*2.
Proof.
  intros Hd. apply NoDup_fmap_2_strong.
  - intros [i1 z1] [i2 z2] H1%elem_of_range H2%elem_of_range Heq. simpl in *. subst.
    f_equal. by eapply Hd.
  - eapply NoDup_fmap_1. apply range_NoDup_fst.
Qed.

Lemma Inverts_distinct insts zi : Inverts insts zi → ZonesDistinct insts.
Proof. intros Hi z i1 i2 H1%Hi H2%Hi. congruence. Qed.

Lemma Inverts_unique insts zi1 zi2 : Inverts insts zi1 → Inverts insts zi2 → zi1 = zi2.
Proof. intros H1 H2. apply map_eq. intros z. apply option_eq. intros i. by rewrite (H1 z i), (H2 z i). Qed.

Lemma Inverts_size insts zi : Inverts insts zi → size zi = size insts.
Proof.
  intros Hi. rewrite <-!range_length, <-(length_fmap fst (range zi)), <-(length_fmap snd (range insts)).
  apply Permutation_length, NoDup_Permutation.
  - apply range_NoDup_fst.
  - apply range_zones_NoDup. by eapply Inverts_distinct.
  - intros z. rewrite !list_elem_of_fmap. split.
    + intros [[z' i] [-> Hin]]. exists (i, z'). split; [done|].
      apply elem_of_range. apply elem_of_range in Hin. by apply Hi.
    + intros [[i z'] [-> Hin]]. exists (z', i). split; [done|].
      apply elem_of_range. apply elem_of_range in Hin. by apply Hi.
Qed.

Lemma index_instances_range insts :
  match index_instances (range insts) ∅ with
  | Ok zi => Inverts insts zi
  | Err _ => ¬ ZonesDistinct insts
  end.
Proof.
  pose proof (index_instances_spec (range insts) ∅) as Hs.
  destruct (index_instances _ _) as [zi|].
  - destruct Hs as (_ & _ & Hlk). intros z i. rewrite Hlk, elem_of_range, lookup_empty. naive_solver.
  - intros Hd. apply Hs. split; [by apply range_zones_NoDup|]. intros. apply lookup_empty.
Qed.

Lemma index_backends_spec l idx :
  NoDup l.*1 →
  match index_backends l idx with
  | Ok idx' => (∀ bt insts, (bt, insts) ∈ l → ∃ zi, idx' !! bt = Some zi ∧ Inverts insts zi) ∧
      (∀ bt, bt ∉ l.*1 → idx' !! bt = idx !! bt)
  | Err _ => ∃ bt insts, (bt, insts) ∈ l ∧ ¬ ZonesDistinct insts
  end.
Proof.
  revert idx. induction l as [|[bt insts] l IH]; intros idx Hnd; simpl.
  { split; [set_solver|done]. }
  apply NoDup_cons in Hnd as [Hni Hnd].
  pose proof (index_instances_range insts) as Hr.
  destruct (index_instances (range insts) ∅) as [zi|] eqn:Hidx; simpl.
  2: { exists bt, insts. split; [left|done]. }
  specialize (IH (<[bt:=zi]> idx) Hnd).
  destruct (index_backends l (<[bt:=zi]> idx)) as [idx'|].
  - destruct IH as [IH1 IH2]. split.
    + intros bt' insts' [[= -> ->]|Hin]%elem_of_cons; [|by apply IH1].
      exists zi. split; [|done]. rewrite IH2 by done. apply lookup_insert_eq.
    + intros bt' [Hne Hni']%not_elem_of_cons. rewrite IH2 by done. by apply lookup_insert_ne.
  - destruct IH as (bt' & insts' & ? & ?). exists bt', insts'. split; [by right|done].
Qed.

(** The index of a dispatcher built by [New]. *)
Definition Indexed (cfg : DispatchConfig) (d : Dispatcher) : Prop :=
  disp_cfg d = cfg ∧ ∀ bt,
    match Instances cfg !! bt with
    | Some insts => ∃ zi, zoneIndex d !! bt = Some zi ∧ Inverts insts zi
    | None => zoneIndex d !! bt = None
    end.

Lemma Unambiguous_alt cfg :
  Unambiguous cfg ↔ ∀ bt insts, Instances cfg !! bt = Some insts → ZonesDistinct insts.
Proof.
  split.
  - intros Hu bt insts Hbt z i1 i2 H1 H2. apply (Hu bt z); by exists insts.
  - intros Hd bt z i1 i2 (m1 & Hm1 & H1) (m2 & Hm2 & H2). simplify_eq. by eapply Hd.
Qed.

Lemma New_cases cfg :
  match New cfg with
  | Ok d => Indexed cfg d ∧ Unambiguous cfg
  | Err _ => ¬ Unambiguous cfg
  end.
Proof.
  unfold New. pose proof (index_backends_spec (range (Instances cfg)) ∅ (range_NoDup_fst _)) as Hs.
  destruct (index_backends _ _) as [idx|]; simpl.
  - destruct Hs as [H1 H2]. split.
    + split; [done|]. intros bt. simpl. destruct (Instances cfg !! bt) as [insts|] eqn:Hbt.
      * apply H1. by apply elem_of_range.
      * rewrite H2; [apply lookup_empty|]. intros ([bt' insts] & -> & Hin)%list_elem_of_fmap.
        apply elem_of_range in Hin. simpl in *. congruence.
    + apply Unambiguous_alt. intros bt insts Hbt.
      destruct (H1 bt insts) as (zi & _ & Hi); [by apply elem_of_range|].
      by eapply Inverts_distinct.
  - destruct Hs as (bt & insts & Hin & Hnd). rewrite Unambiguous_alt.
    intros Hd. apply Hnd. eapply Hd. by apply elem_of_range.
Qed.
End index.

(** ** Resolve against the specification *)

Section resolve.
  Context `{MapIter}.

Lemma first_served_Some zi zones z i :
  first_served zi zones = Some (z, i) ↔
  ∃ l1 l2, zones = l1 ++ z :: l2 ∧ (∀ z', z' ∈ l1 → zi !! z' = None) ∧ zi !! z = Some i.
Proof.
  induction zones as [|z0 zones IH]; simpl.
  { split; [done|]. by intros ([|] & ? & ? & _). }
  destruct (zi !! z0) as [i0|] eqn:Hz0.
  - split.
    + intros [= <- <-]. exists [], zones. set_solver.
    + intros ([|z1 l1] & l2 & Heq & Hl1 & Hz); simplify_eq/=; [done|].
      specialize (Hl1 z1 ltac:(left)). congruence.
  - rewrite IH. split.
    + intros (l1 & l2 & -> & Hl1 & Hz). exists (z0 :: l1), l2. set_solver.
    + intros ([|z1 l1] & l2 & Heq & Hl1 & Hz); simplify_eq/=.
      exists l1, l2. set_solver.
Qed.

Lemma first_served_None zi zones :
  first_served zi zones = None ↔ ∀ z, z ∈ zones → zi !! z = None.
Proof.
  induction zones as [|z0 zones IH]; simpl; [set_solver|].
  destruct (zi !! z0) eqn:Hz0; [|rewrite IH; set_solver].
  split; [done|]. intros Hz. specialize (Hz z0 ltac:(left)). congruence.
Qed.

Context (cfg : DispatchConfig) (d : Dispatcher) (Hd : Indexed cfg d).

Lemma zoneIndex_Serves bt z i :
  default ∅ (zoneIndex d !! bt) !! z = Some i ↔ Serves cfg bt z i.
Proof.
  destruct Hd as [_ Hidx]. specialize (Hidx bt). unfold Serves.
  destruct (Instances cfg !! bt) as [insts|].
  - destruct Hidx as (zi & -> & Hi). simpl. rewrite (Hi z i). naive_solver.
  - rewrite Hidx. simpl. rewrite lookup_empty. naive_solver.
Qed.

Lemma zoneIndex_Unserved bt zones :
  (∀ z, z ∈ zones → default ∅ (zoneIndex d !! bt) !! z = None) ↔ Unserved cfg bt zones.
Proof.
  unfold Unserved. split.
  - intros Hz z i Hin Hs%zoneIndex_Serves. by rewrite Hz in Hs.
  - intros Hu z Hin. apply eq_None_not_Some. intros [i Hi]. by eapply Hu, zoneIndex_Serves.
Qed.

Lemma zoneIndex_nonempty bt :
  size (default ∅ (zoneIndex d !! bt)) ≠ 0 ↔ ∃ z i, Serves cfg bt z i.
Proof.
  rewrite map_size_non_empty_iff. split.
  - intros (z & i & Hzi)%map_choose. exists z, i. by apply zoneIndex_Serves.
  - intros (z & i & Hs%zoneIndex_Serves) Heq. rewrite Heq in Hs. by rewrite lookup_empty in Hs.
Qed.

Lemma zoneIndex_single bt :
  size (default ∅ (zoneIndex d !! bt)) = 1 ↔ ∃ i z, Instances cfg !! bt = Some {[ i := z ]}.
Proof.
  destruct Hd as [_ Hidx]. specialize (Hidx bt). split.
  - destruct (Instances cfg !! bt) as [insts|].
    + destruct Hidx as (zi & -> & Hi). simpl. rewrite (Inverts_size _ _ Hi).
      intros (i & z & ->)%map_size_1. eauto.
    + rewrite Hidx. simpl. by rewrite map_size_empty.
  - intros (i & z & Hbt). rewrite Hbt in Hidx. destruct Hidx as (zi & -> & Hi). simpl.
    by rewrite (Inverts_size _ _ Hi), map_size_singleton.
Qed.

Lemma zoneIndex_range_single bt i z :
  Instances cfg !! bt = Some {[ i := z ]} →
  range (default ∅ (zoneIndex d !! bt)) = [(z, i)].
Proof.
  intros Hbt. assert (Hzi : default ∅ (zoneIndex d !! bt) = {[ z := i ]}).
  { apply map_eq. intros z'. apply option_eq. intros i'. rewrite zoneIndex_Serves.
    unfold Serves. rewrite Hbt, lookup_singleton_Some. split.
    - intros (insts & [= <-] & [-> ->]%lookup_singleton_Some). done.
    - intros [-> ->]. eexists. split; [done|]. apply lookup_singleton_eq. }
  rewrite Hzi. apply Permutation_singleton_r. by rewrite range_perm, map_to_list_singleton.
Qed.

Lemma Resolve_sound params pref req r :
  Resolve d params pref req = Ok r →
  mget params BackendParamKey ≠ "" ∧ Placement cfg (mget params BackendParamKey) pref req r.
Proof.
  unfold Resolve. set (bt := mget params BackendParamKey). intros Hr.
  case_bool_decide; [done|]. split; [done|].
  case_bool_decide as Hsz; [done|]. apply zoneIndex_nonempty in Hsz as (z0 & i0 & Hs0).
  destruct (first_served _ pref) as [[z i]|] eqn:Hp.
  { inv_ok. apply first_served_Some in Hp as (l1 & l2 & -> & Hl1%zoneIndex_Unserved & Hz%zoneIndex_Serves).
    by econstructor. }
  rewrite first_served_None, zoneIndex_Unserved in Hp.
  destruct (first_served _ req) as [[z i]|] eqn:Hq.
  { inv_ok. apply first_served_Some in Hq as (l1 & l2 & -> & Hl1%zoneIndex_Unserved & Hz%zoneIndex_Serves).
    by econstructor. }
  rewrite first_served_None, zoneIndex_Unserved in Hq.
  rewrite (proj1 Hd) in Hr. case_bool_decide as Hdef; simpl in Hr.
  - case_bool_decide as H1; [|done]. apply zoneIndex_single in H1 as (i & z & Hbt).
    rewrite (zoneIndex_range_single _ _ _ Hbt) in Hr. inv_ok. by constructor.
  - inv_ok. eapply place_default; try done.
    unfold mget in *. by destruct (Defaults cfg !! bt).
Qed.

Lemma Resolve_complete params pref req r :
  mget params BackendParamKey ≠ "" →
  Placement cfg (mget params BackendParamKey) pref req r → Resolve d params pref req = Ok r.
Proof.
  unfold Resolve. set (bt := mget params BackendParamKey). intros Hbt Hpl.
  rewrite (bool_decide_eq_false_2 (bt = "")) by done.
  assert (Hne : ∃ z i, Serves cfg bt z i).
  { destruct Hpl; eauto. exists z, i. exists {[ i := z ]}. split; [done|]. apply lookup_singleton_eq. }
  apply zoneIndex_nonempty in Hne. rewrite bool_decide_eq_false_2 by done.
  destruct Hpl as [l1 z l2 i Hpref Hl1 Hs|l1 z l2 i Hp Hreq Hl1 Hs|i z0 i0 Hp Hq Hs Hi Hdef|i z Hp Hq Hdef Hone].
  - rewrite (proj2 (first_served_Some _ pref z i)); [done|]. exists l1, l2.
    split; [done|]. by rewrite zoneIndex_Serves, zoneIndex_Unserved.
  - rewrite (proj2 (first_served_None _ pref)) by (by apply zoneIndex_Unserved).
    rewrite (proj2 (first_served_Some _ req z i)); [done|]. exists l1, l2.
    split; [done|]. by rewrite zoneIndex_Serves, zoneIndex_Unserved.
  - rewrite !(proj2 (first_served_None _ _)) by (by apply zoneIndex_Unserved).
    rewrite (proj1 Hd). replace (mget (Defaults cfg) bt) with i by (unfold mget; by rewrite Hdef).
    by rewrite bool_decide_eq_false_2.
  - rewrite !(proj2 (first_served_None _ _)) by (by apply zoneIndex_Unserved).
    rewrite (proj1 Hd), Hdef. simpl.
    rewrite bool_decide_eq_true_2 by (apply zoneIndex_single; eauto).
    by rewrite (zoneIndex_range_single _ _ _ Hone).
Qed.
End resolve.

(** ** Properties *)

(** [New] accepts a configuration exactly when no two instances of one
    backend type claim the same zone, whatever order Go iterates the maps in; the
    dispatcher it returns carries that configuration and an index that inverts it. *)
Theorem New_accepts_iff_unambiguous (o : MapIter) (cfg : DispatchConfig) :
  (is_Ok (New cfg) = true ↔ Unambiguous cfg) ∧
  ∀ d, New cfg = Ok d → disp_cfg d = cfg ∧
    ∀ bt z i, (zoneIndex d !! bt ≫= λ zi, zi !! z) = Some i ↔ Serves cfg bt z i.
Proof.
  pose proof (New_cases cfg) as Hc. destruct (New cfg) as [d|e]; simpl; split; try done.
  - naive_solver.
  - intros ? [= <-]. destruct Hc as [Hd _]. split; [by apply Hd|]. intros bt z i.
    rewrite <-(zoneIndex_Serves cfg d Hd). destruct (zoneIndex d !! bt); simpl; [done|].
    by rewrite lookup_empty.
Qed.

(** C3: [Resolve] refines the placement specification: on a dispatcher built by
    [New], and under any map iteration order, it returns a resolution exactly when
    the request names a backend and that resolution is the placement the
    configuration prescribes (first served preferred zone, then requisite zone, then
    default, then the only instance). *)
Theorem Resolve_refines_Placement (o : MapIter) (cfg : DispatchConfig) (d : Dispatcher)
    (params : gmap string string) (pref req : list string) (r : Resolution) :
  New cfg = Ok d →
  Resolve d params pref req = Ok r ↔
    mget params BackendParamKey ≠ "" ∧
    Placement cfg (mget params BackendParamKey) pref req r.
Proof.
  intros HN. pose proof (New_cases cfg) as Hc. rewrite HN in Hc. destruct Hc as [Hd _].
  split; [by apply Resolve_sound|]. intros [? ?]. by eapply Resolve_complete.
Qed.

(** Dispatch does not depend on Go's map iteration order: two orders build
    the same dispatcher from a configuration both accept or both refuse, and every
    request resolves the same way under both. *)
Theorem dispatch_order_independent (o1 o2 : MapIter) (cfg : DispatchConfig) (d : Dispatcher)
    (params : gmap string string) (pref req : list string) :
  @New o1 cfg = Ok d →
  @New o2 cfg = Ok d ∧
  ∀ r, @Resolve o1 d params pref req = Ok r ↔ @Resolve o2 d params pref req = Ok r.
Proof.
  intros H1. pose proof (@New_cases o1 cfg) as C1. pose proof (@New_cases o2 cfg) as C2.
  rewrite H1 in C1. destruct C1 as [D1 U1]. destruct (@New o2 cfg) as [d2|]; [|done].
  destruct C2 as [D2 _]. assert (d = d2) as <-.
  { destruct d as [c1 x1], d2 as [c2 x2], D1 as [E1 I1], D2 as [E2 I2]. simpl in *. subst.
    f_equal. apply map_eq. intros bt. specialize (I1 bt). specialize (I2 bt).
    destruct (Instances cfg !! bt); [|congruence].
    destruct I1 as (z1 & -> & V1), I2 as (z2 & -> & V2). f_equal. by eapply Inverts_unique. }
  split; [done|]. intros r. split; intros [? ?]%(Resolve_sound cfg); try done;
    by apply (Resolve_complete cfg).
Qed.

(** Two Ceph clusters, one default, and a single-instance NFS backend. *)
Definition ex_cfg : DispatchConfig :=
  mkDispatchConfig
    (<["ceph-rbd" := <["east" := "zone-e"]> {["west" := "zone-w"]}]> {["nfs" := {["main" := "zone-e"]}]})
    {["ceph-rbd" := "west"]}.
Definition ex_disp : Dispatcher :=
  match New ex_cfg with Ok d => d | Err _ => mkDispatcher ex_cfg ∅ end.

Example ex_resolve :
  (Resolve ex_disp {["backend" := "ceph-rbd"]} ["nowhere"; "zone-e"] ["zone-w"],
   Resolve ex_disp {["backend" := "ceph-rbd"]} [] [],
   Resolve ex_disp {["backend" := "nfs"]} ["zone-w"] [],
   is_Ok (Resolve ex_disp ∅ ["zone-e"] []))
  = (Ok (mkResolution "ceph-rbd" "east" "zone-e" DecisionPreferred),
     Ok (mkResolution "ceph-rbd" "west" "zone-w" DecisionDefault),
     Ok (mkResolution "nfs" "main" "zone-e" DecisionSingleInstance), false).
Proof. vm_compute. reflexivity. Qed.

Lemma Resolve_refines_Placement_witness :
  Resolve ex_disp {["backend" := "nfs"]} [] ["zone-e"] = Ok (mkResolution "nfs" "main" "zone-e" DecisionRequisite) ↔
    mget {["backend" := "nfs"]} BackendParamKey ≠ "" ∧
    Placement ex_cfg (mget {["backend" := "nfs"]} BackendParamKey) [] ["zone-e"]
      (mkResolution "nfs" "main" "zone-e" DecisionRequisite).
Proof. apply (Resolve_refines_Placement iter_default). vm_compute. reflexivity. Defined.

Lemma dispatch_order_independent_witness :
  @New iter_reverse ex_cfg = Ok ex_disp ∧
  ∀ r, @Resolve iter_default ex_disp {["backend" := "nfs"]} [] [] = Ok r ↔
       @Resolve iter_reverse ex_disp {["backend" := "nfs"]} [] [] = Ok r.
Proof. apply dispatch_order_independent. vm_compute. reflexivity. Defined.
