(* ===== verification/Config.v ===== *)
(** * Backend configuration (internal/config/config.go, internal/config/crd.go)

    A [Config] comes from a file or from BackendCluster custom resources.  The
    file models the validation, the fold of the custom resources into a [Config],
    and the watch loop that re-lists them; it proves what an accepted set of
    resources means. *)
From S2P Require Import Prelude GoStrings GoErrors.

Record PluginConfig := mkPluginConfig { Endpoint : string }.
Record InstanceConfig := mkInstanceConfig { Zone : string }.
Record BackendConfig := mkBackendConfig {
  Plugin : option PluginConfig;
  bcInstances : gmap string InstanceConfig;
}.
Record Config := mkConfig {
  Backends : gmap string BackendConfig;
  cfgDefaults : gmap string string;
}.

(** ** validate *)

Fixpoint validate_instances (entries : list (string * InstanceConfig)) : res error unit :=
  match entries with
  | [] => Ok tt
  | (_, ic) :: rest =>
      if bool_decide (Zone ic = "") then Err (plain_error "backend %q instance %q has no zone")
      else validate_instances rest
  end.

Fixpoint validate_backends `{MapIter} (entries : list (string * BackendConfig)) : res error unit :=
  match entries with
  | [] => Ok tt
  | (_, bc) :: rest =>
      if bool_decide (size (bcInstances bc) = 0) then Err (plain_error "backend %q has no instances")
      else _ ← validate_instances (range (bcInstances bc)); validate_backends rest
  end.

(** [Config.validate]. *)
Definition validate `{MapIter} (c : Config) : res error unit :=
  if bool_decide (size (Backends c) = 0) then Err (plain_error "no backends configured")
  else validate_backends (range (Backends c)).

(** [Load]: [read] is the outcome of [os.ReadFile], [unmarshal] the YAML decoder
    of sigs.k8s.io/yaml. *)
Definition Load `{MapIter} (read : res error string) (unmarshal : string → res error Config)
    : res error Config :=
  raw ← map_err (λ e, mkError (err_chain e) "read config %s: %w") read;
  c ← map_err (λ e, mkError (err_chain e) "parse config %s: %w") (unmarshal raw);
  _ ← map_err (λ e, mkError (err_chain e) "invalid config %s: %w") (validate c);
  Ok c.

(** ** BackendCluster custom resources *)

Record BackendClusterSpec := mkSpec {
  spec_BackendType : string;
  spec_Instance : string;
  spec_Zone : string;
  spec_Default : bool;
  spec_PluginEndpoint : string;
}.
Record BackendCluster := mkCluster { meta_Name : string; Spec : BackendClusterSpec }.

(** [BackendCluster.instanceID]. *)
Definition instanceID (c : BackendCluster) : string :=
  if bool_decide (spec_Instance (Spec c) = "") then meta_Name c else spec_Instance (Spec c).

(** The backend entry a resource goes into: the existing one, whose plugin
    endpoint must agree, or a new one. *)
Definition backend_for (cfg : Config) (bt ep : string) : res error BackendConfig :=
  match Backends cfg !! bt with
  | None => Ok (mkBackendConfig (Some (mkPluginConfig ep)) ∅)
  | Some bc =>
      if bool_decide (Endpoint <$> Plugin bc = Some ep) then Ok bc
      else Err (plain_error "backend %q: conflicting plugin endpoints %q and %q")
  end.

(** One iteration of the loop of [FromBackendClusters]. *)
Definition fold_cluster (cfg : Config) (c : BackendCluster) : res error Config :=
  let bt := spec_BackendType (Spec c) in
  let inst := instanceID c in
  let ep := spec_PluginEndpoint (Spec c) in
  if bool_decide (bt = "") then Err (plain_error "BackendCluster %q: empty backendType") else
  if bool_decide (ep = "") then Err (plain_error "BackendCluster %q: empty plugin.endpoint") else
  bc ← backend_for cfg bt ep;
  match bcInstances bc !! inst with
  | Some _ => Err (plain_error "backend %q: duplicate instance %q")
  | None =>
      let bc' := mkBackendConfig (Plugin bc)
                   (<[inst := mkInstanceConfig (spec_Zone (Spec c))]> (bcInstances bc)) in
      let backends := <[bt := bc']> (Backends cfg) in
      if spec_Default (Spec c) then
        match cfgDefaults cfg !! bt with
        | Some _ => Err (plain_error "backend %q: more than one default instance (%q and %q)")
        | None => Ok (mkConfig backends (<[bt := inst]> (cfgDefaults cfg)))
        end
      else Ok (mkConfig backends (cfgDefaults cfg))
  end.

Fixpoint fold_clusters (cfg : Config) (clusters : list BackendCluster) : res error Config :=
  match clusters with
  | [] => Ok cfg
  | c :: rest => cfg' ← fold_cluster cfg c; fold_clusters cfg' rest
  end.

(** [FromBackendClusters]. *)
Definition FromBackendClusters `{MapIter} (clusters : list BackendCluster) : res error Config :=
  cfg ← fold_clusters (mkConfig ∅ ∅) clusters;
  _ ← map_err (λ e, mkError (err_chain e) "invalid BackendCluster set: %w") (validate cfg);
  Ok cfg.

(** ** The watch loop *)

(** What the decoder of the watch stream yields: an event with, for an event that
    triggers a reload, the outcome of the list it performs; or an error, [clean]
    when it is EOF or the context is done. *)
Inductive stream_item :=
  | Decoded (typ rv : string) (reload : res error (list BackendCluster))
  | DecodeErr (clean : bool).

(** The loop of [watchCycle]: the last resource version seen, how the stream
    ended, and the configurations handed to [onChange], in order.  A stream with
    no more items ends with EOF. *)
Fixpoint watch_events `{MapIter} (last : string) (items : list stream_item)
    : string * res error unit * list Config :=
  match items with
  | [] => (last, Ok tt, [])
  | DecodeErr clean :: _ =>
      (last, if clean then Ok tt else Err (plain_error "decode"), [])
  | Decoded typ rv reload :: rest =>
      let last := if bool_decide (rv = "") then last else rv in
      if bool_decide (typ ∈ ["ADDED"; "MODIFIED"; "DELETED"]) then
        match reload ≫= FromBackendClusters with
        | Err _ => watch_events last rest
        | Ok cfg =>
            let '(last', r, out) := watch_events last rest in (last', r, cfg :: out)
        end
      else if bool_decide (typ = "ERROR") then
        (last, Err (plain_error "watch ERROR event (cursor %q likely expired)"), [])
      else watch_events last rest
  end.

(** [watchCycle]: [open] is the outcome of opening the stream. *)
Definition watchCycle `{MapIter} (rv : string) (open : res error (list stream_item))
    : string * res error unit * list Config :=
  match open with
  | Err e => (rv, Err e, [])
  | Ok items => watch_events rv items
  end.

Definition second : Z := 1000000000.
(** [grow]. *)
Definition grow (d : Z) : Z :=
  let d := (d * 2)%Z in if decide (30 * second < d)%Z then (30 * second)%Z else d.

(** The state of [WatchFromAPI]'s loop, and what its environment does in one
    iteration: the list (only looked at when the cursor is empty), the watch,
    whether the context ended during the watch, whether a sleep ran its course. *)
Record WatchState := mkWatch { w_backoff : Z; w_rv : string }.
Record WatchRound := mkRound {
  ro_list : res error (list BackendCluster * string);
  ro_open : res error (list stream_item);
  ro_done : bool;
  ro_slept : bool;
}.

(** [rv = ""] and [if sleep(ctx, backoff) { backoff = grow(backoff) }]: a sleep
    cut short means the context is done, which ends the loop. *)
Definition back_off (st : WatchState) (slept : bool) : option WatchState :=
  if slept then Some (mkWatch (grow (w_backoff st)) "") else None.

(** The second half of an iteration: watch from the cursor and act on how the
    watch ended. *)
Definition watch_from `{MapIter} (st : WatchState) (ro : WatchRound)
    : option WatchState * list Config :=
  let '(lastRV, r, out) := watchCycle (w_rv st) (ro_open ro) in
  if ro_done ro then (None, out) else
  match r with
  | Err _ => (back_off st (ro_slept ro), out)
  | Ok _ => (Some (mkWatch second lastRV), out)
  end.

(** One iteration of [WatchFromAPI]'s loop: the next state, [None] when the
    function returns, and the configurations passed to [onChange]. *)
Definition watch_round `{MapIter} (st : WatchState) (ro : WatchRound)
    : option WatchState * list Config :=
  if bool_decide (w_rv st = "") then
    match ro_list ro with
    | Err _ => (back_off st (ro_slept ro), [])
    | Ok (items, newRV) =>
        let now := match FromBackendClusters items with Ok cfg => [cfg] | Err _ => [] end in
        let '(st', out) := watch_from (mkWatch (w_backoff st) newRV) ro in (st', now ++ out)
    end
  else watch_from st ro.

(** [WatchFromAPI]: the environment's rounds, until the function returns or the
    context ends (the list of rounds is exhausted). *)
Fixpoint WatchFromAPI `{MapIter} (st : WatchState) (rounds : list WatchRound) : list Config :=
  match rounds with
  | [] => []
  | ro :: rest =>
      let '(st', out) := watch_round st ro in
      out ++ match st' with Some st' => WatchFromAPI st' rest | None => [] end
  end.
Definition watch_init : WatchState := mkWatch second "".

(** ** What an accepted set of resources means *)

Definition cl_bt (c : BackendCluster) : string := spec_BackendType (Spec c).
Definition cl_ep (c : BackendCluster) : string := spec_PluginEndpoint (Spec c).
Definition cl_key (c : BackendCluster) : string * string := (cl_bt c, instanceID c).
Definition cl_default (c : BackendCluster) : Prop := spec_Default (Spec c) = true.
#[export] Instance cl_default_dec c : Decision (cl_default c).
Proof. unfold cl_default. apply _. Defined.

(** The set is consistent: every resource names a backend type and an endpoint,
    one endpoint per type, no instance twice, at most one default per type. *)
Definition Consistent (l : list BackendCluster) : Prop :=
  (∀ c, c ∈ l → cl_bt c ≠ "" ∧ cl_ep c ≠ "") ∧
  (∀ c1 c2, c1 ∈ l → c2 ∈ l → cl_bt c1 = cl_bt c2 → cl_ep c1 = cl_ep c2) ∧
  NoDup (cl_key <$> l) ∧ NoDup (cl_bt <$> filter cl_default l).

(** [cfg] says of every backend type what the resources say. *)
Definition Describes (l : list BackendCluster) (cfg : Config) : Prop :=
  (∀ bt, match Backends cfg !! bt with
         | None => ∀ c, c ∈ l → cl_bt c ≠ bt
         | Some bc =>
             (∃ c, c ∈ l ∧ cl_bt c = bt) ∧
             (∀ c, c ∈ l → cl_bt c = bt → Plugin bc = Some (mkPluginConfig (cl_ep c))) ∧
             (∀ i ic, bcInstances bc !! i = Some ic ↔
                ∃ c, c ∈ l ∧ cl_key c = (bt, i) ∧ ic = mkInstanceConfig (spec_Zone (Spec c)))
         end) ∧
  (∀ bt i, cfgDefaults cfg !! bt = Some i ↔ ∃ c, c ∈ l ∧ cl_default c ∧ cl_key c = (bt, i)).

Lemma Consistent_prefix l1 l2 : Consistent (l1 ++ l2) → Consistent l1.
Proof.
  intros (H1 & H2 & H3 & H4). rewrite filter_app, fmap_app in H4. rewrite fmap_app in H3.
  apply NoDup_app in H3 as (? & _). apply NoDup_app in H4 as (? & _).
  split_and!; [set_solver..|done|done].
Qed.

Lemma Consistent_snoc l c :
  Consistent (l ++ [c]) ↔
  Consistent l ∧ cl_bt c ≠ "" ∧ cl_ep c ≠ "" ∧
  (∀ c', c' ∈ l → cl_bt c' = cl_bt c → cl_ep c' = cl_ep c) ∧
  (cl_key c ∉ cl_key <$> l) ∧
  (cl_default c → cl_bt c ∉ cl_bt <$> filter cl_default l).
Proof.
  unfold Consistent. rewrite filter_app, !fmap_app, !NoDup_app. simpl.
  rewrite filter_cons, filter_nil. split.
  - intros (H1 & H2 & (H3 & H4 & _) & (H5 & H6 & _)). split_and!; try done.
    + set_solver.
    + set_solver.
    + apply H1. set_solver.
    + apply H1. set_solver.
    + intros c' Hc' Heq. apply H2; set_solver.
    + intros Hin. apply (H4 _ Hin). left.
    + intros Hd Hin. apply (H6 _ Hin). rewrite decide_True by done. left.
  - intros ((H1 & H2 & H3 & H4) & Hb & He & Hc & Hk & Hd). split_and!; try done.
    + intros c' [?| ->%list_elem_of_singleton]%elem_of_app; auto.
    + intros c1 c2 [?| ->%list_elem_of_singleton]%elem_of_app
        [?| ->%list_elem_of_singleton]%elem_of_app Heq; auto. symmetry. auto.
    + intros k Hin ->%list_elem_of_singleton. done.
    + apply NoDup_singleton.
    + intros b Hin. case_decide; [|set_solver]. intros ->%list_elem_of_singleton. by apply Hd.
    + case_decide; [apply NoDup_singleton|constructor].
Qed.

Lemma backend_for_spec l cfg c :
  Describes l cfg →
  match backend_for cfg (cl_bt c) (cl_ep c) with
  | Ok bc => Plugin bc = Some (mkPluginConfig (cl_ep c)) ∧
      (∀ c', c' ∈ l → cl_bt c' = cl_bt c → cl_ep c' = cl_ep c) ∧
      (∀ i ic, bcInstances bc !! i = Some ic ↔
         ∃ c', c' ∈ l ∧ cl_key c' = (cl_bt c, i) ∧ ic = mkInstanceConfig (spec_Zone (Spec c')))
  | Err _ => ∃ c', c' ∈ l ∧ cl_bt c' = cl_bt c ∧ cl_ep c' ≠ cl_ep c
  end.
Proof.
  intros [Hb _]. specialize (Hb (cl_bt c)). unfold backend_for.
  destruct (Backends cfg !! cl_bt c) as [bc|].
  - destruct Hb as ((c0 & Hc0 & Hbt) & Hpl & Hin). rewrite (Hpl c0) by done. simpl.
    case_bool_decide as He; simplify_eq.
    + split_and!; [by rewrite (Hpl c0), He|..|done].
      intros c' Hc' Hb'. pose proof (Hpl c' Hc' Hb') as Hp. rewrite (Hpl c0) in Hp by done. congruence.
    + exists c0. split_and!; [done..|]. congruence.
  - split_and!; [done| |].
    + intros c' Hc' Hbt. by destruct (Hb c').
    + intros i ic. simpl. rewrite lookup_empty. split; [done|].
      intros (c' & Hc' & [= Hbt _] & _). by destruct (Hb c').
Qed.

(** Adding one resource to what a configuration describes. *)
Lemma Describes_snoc l cfg c bc defaults :
  Describes l cfg →
  Plugin bc = Some (mkPluginConfig (cl_ep c)) →
  (∀ c', c' ∈ l → cl_bt c' = cl_bt c → cl_ep c' = cl_ep c) →
  (∀ i ic, bcInstances bc !! i = Some ic ↔
     ∃ c', c' ∈ l ∧ cl_key c' = (cl_bt c, i) ∧ ic = mkInstanceConfig (spec_Zone (Spec c'))) →
  bcInstances bc !! instanceID c = None →
  (∀ bt i, defaults !! bt = Some i ↔
     cfgDefaults cfg !! bt = Some i ∨ (cl_default c ∧ cl_key c = (bt, i))) →
  Describes (l ++ [c])
    (mkConfig (<[cl_bt c := mkBackendConfig (Plugin bc)
                  (<[instanceID c := mkInstanceConfig (spec_Zone (Spec c))]> (bcInstances bc))]>
                (Backends cfg)) defaults).
Proof.
  intros [Hb Hd] Hpl Hep Hin Hfresh Hdef. split; simpl.
  - intros bt. rewrite lookup_insert. case_decide as Hbt.
    + subst bt. simpl. split_and!.
      * exists c. set_solver.
      * intros c' [Hc'| ->%list_elem_of_singleton]%elem_of_app Hb'; [|done].
        by rewrite (Hep c').
      * intros i ic. rewrite lookup_insert. case_decide as Hi.
        -- subst i. split.
           ++ intros [= <-]. exists c. set_solver.
           ++ intros (c' & [Hc'| ->%list_elem_of_singleton]%elem_of_app & Hk & ->); [|done].
              exfalso. assert (Hx : bcInstances bc !! instanceID c = Some (mkInstanceConfig (spec_Zone (Spec c')))).
              { apply Hin. eauto. } congruence.
        -- rewrite Hin. split.
           ++ intros (c' & ? & ? & ?). exists c'. set_solver.
           ++ intros (c' & [Hc'| ->%list_elem_of_singleton]%elem_of_app & Hk & ->); [by eauto|].
              by injection Hk.
    + specialize (Hb bt). destruct (Backends cfg !! bt) as [bc0|].
      * destruct Hb as ((c0 & ? & ?) & Hpl0 & Hin0). split_and!.
        -- exists c0. set_solver.
        -- intros c' [Hc'| ->%list_elem_of_singleton]%elem_of_app Hb'; [by apply Hpl0|done].
        -- intros i ic. rewrite Hin0. split.
           ++ intros (c' & ? & ? & ?). exists c'. set_solver.
           ++ intros (c' & [Hc'| ->%list_elem_of_singleton]%elem_of_app & Hk & ->); [by eauto|].
              by injection Hk.
      * intros c' [Hc'| ->%list_elem_of_singleton]%elem_of_app; [by apply Hb|done].
  - intros bt i. rewrite Hdef, Hd. split.
    + intros [(c' & ? & ? & ?)|[? ?]]; [exists c'|exists c]; set_solver.
    + intros (c' & [Hc'| ->%list_elem_of_singleton]%elem_of_app & ? & ?); [left|right]; eauto.
Qed.

Lemma fold_cluster_step l cfg c :
  Consistent l → Describes l cfg →
  match fold_cluster cfg c with
  | Ok cfg' => Consistent (l ++ [c]) ∧ Describes (l ++ [c]) cfg'
  | Err _ => ¬ Consistent (l ++ [c])
  end.
Proof.
  intros Hc Hd. pose proof (Consistent_snoc l c) as Hsn. unfold fold_cluster.
  change (spec_BackendType (Spec c)) with (cl_bt c).
  change (spec_PluginEndpoint (Spec c)) with (cl_ep c).
  case_bool_decide; [rewrite Hsn; naive_solver|]. case_bool_decide; [rewrite Hsn; naive_solver|].
  pose proof (backend_for_spec l cfg c Hd) as Hbc.
  destruct (backend_for cfg (cl_bt c) (cl_ep c)) as [bc|]; simpl.
  2: { rewrite Hsn. intros (_ & _ & _ & Hep & _). destruct Hbc as (c' & ? & ? & ?). auto. }
  destruct Hbc as (Hpl & Hep & Hin). destruct (bcInstances bc !! instanceID c) as [ic|] eqn:Hic.
  { apply Hin in Hic as (c' & Hc' & Hk & _). rewrite Hsn. intros (_ & _ & _ & _ & Hnk & _).
    apply Hnk. change (cl_bt c, instanceID c) with (cl_key c) in Hk. rewrite <-Hk.
    by apply list_elem_of_fmap_2. }
  assert (Hnk : cl_key c ∉ cl_key <$> l).
  { intros (c' & Hk & Hc')%list_elem_of_fmap.
    assert (Hx : bcInstances bc !! instanceID c = Some (mkInstanceConfig (spec_Zone (Spec c')))).
    { apply Hin. exists c'. by rewrite <-Hk. } congruence. }
  destruct (spec_Default (Spec c)) eqn:Hdf.
  - destruct (cfgDefaults cfg !! cl_bt c) as [i|] eqn:Hdi.
    + apply (proj2 Hd) in Hdi as (c' & Hc' & Hdc' & Hk). rewrite Hsn. intros (_ & _ & _ & _ & _ & Hnd).
      apply (Hnd Hdf). apply list_elem_of_fmap. exists c'. split; [by injection Hk|].
      by apply list_elem_of_filter.
    + rewrite Hsn. split.
      * split_and!; try done. intros _ (c' & Hb & [Hdc' Hc']%list_elem_of_filter)%list_elem_of_fmap.
        assert (Hx : cfgDefaults cfg !! cl_bt c = Some (instanceID c')).
        { apply (proj2 Hd). exists c'. unfold cl_key. by rewrite Hb. } congruence.
      * apply Describes_snoc; try done. intros bt i. rewrite lookup_insert.
        case_decide as Hbt; [subst bt|].
        -- split; [intros [= <-]; by right|].
           intros [Hx|[_ Hk]]; [congruence|]. by injection Hk as <-.
        -- split; [by left|]. intros [Hx|[_ Hk]]; [done|]. by injection Hk.
  - rewrite Hsn. split.
    + split_and!; try done. unfold cl_default. by rewrite Hdf.
    + apply Describes_snoc; try done. intros bt i. unfold cl_default.
      split; [by left|]. intros [?|[Hx _]]; [done|congruence].
Qed.

Lemma fold_clusters_spec l l' cfg :
  Consistent l → Describes l cfg →
  match fold_clusters cfg l' with
  | Ok cfg' => Consistent (l ++ l') ∧ Describes (l ++ l') cfg'
  | Err _ => ¬ Consistent (l ++ l')
  end.
Proof.
  revert l cfg. induction l' as [|c l' IH]; intros l cfg Hc Hd; simpl.
  { by rewrite app_nil_r. }
  pose proof (fold_cluster_step l cfg c Hc Hd) as Hs.
  replace (l ++ c :: l') with ((l ++ [c]) ++ l') by (by rewrite <-app_assoc).
  destruct (fold_cluster cfg c) as [cfg'|]; simpl.
  - destruct Hs. by apply IH.
  - intros ?%Consistent_prefix. done.
Qed.

Lemma Describes_nil : Describes [] (mkConfig ∅ ∅).
Proof.
  split; simpl.
  - intros bt. rewrite lookup_empty. set_solver.
  - intros bt i. rewrite lookup_empty. set_solver.
Qed.

Lemma Consistent_nil : Consistent [].
Proof. split_and!; [set_solver|set_solver|constructor|constructor]. Qed.

Lemma validate_instances_ok l :
  validate_instances l = Ok tt ↔ Forall (λ p, Zone p.2 ≠ "") l.
Proof.
  induction l as [|[i ic] l IH]; simpl; [by split|].
  rewrite Forall_cons, <-IH. case_bool_decide; naive_solver.
Qed.

Lemma validate_backends_ok `{MapIter} l :
  validate_backends l = Ok tt ↔
  Forall (λ p, size (bcInstances p.2) ≠ 0 ∧
               ∀ i ic, bcInstances p.2 !! i = Some ic → Zone ic ≠ "") l.
Proof.
  induction l as [|[bt bc] l IH]; simpl; [by split|]. rewrite Forall_cons, <-IH. simpl.
  case_bool_decide; [naive_solver|].
  rewrite <-(range_Forall _ (λ _ ic, Zone ic ≠ "")), <-validate_instances_ok.
  destruct (validate_instances _) as [[]|]; simpl; naive_solver.
Qed.

Lemma validate_ok `{MapIter} c :
  validate c = Ok tt ↔
  size (Backends c) ≠ 0 ∧
  ∀ bt bc, Backends c !! bt = Some bc →
    size (bcInstances bc) ≠ 0 ∧ ∀ i ic, bcInstances bc !! i = Some ic → Zone ic ≠ "".
Proof.
  unfold validate. case_bool_decide; [naive_solver|].
  rewrite validate_backends_ok,
    (range_Forall _ (λ _ bc, size (bcInstances bc) ≠ 0 ∧ ∀ i ic, bcInstances bc !! i = Some ic → Zone ic ≠ "")).
  naive_solver.
Qed.

(** [Describes] determines the configuration. *)
Lemma Describes_unique l cfg1 cfg2 :
  Describes l cfg1 → Describes l cfg2 → cfg1 = cfg2.
Proof.
  intros [B1 D1] [B2 D2]. destruct cfg1 as [b1 d1], cfg2 as [b2 d2]. simpl in *. f_equal.
  - apply map_eq. intros bt. specialize (B1 bt). specialize (B2 bt).
    destruct (b1 !! bt) as [[p1 i1]|], (b2 !! bt) as [[p2 i2]|]; simpl in *; [|naive_solver..].
    destruct B1 as ((c & Hc & Hb) & P1 & I1), B2 as (_ & P2 & I2).
    rewrite (P1 c Hc Hb), (P2 c Hc Hb). do 2 f_equal. apply map_eq. intros i.
    apply option_eq. intros ic. by rewrite I1, I2.
  - apply map_eq. intros bt. apply option_eq. intros i. by rewrite D1, D2.
Qed.

(** What [FromBackendClusters] requires of a list of resources. *)
Definition Acceptable (l : list BackendCluster) : Prop :=
  l ≠ [] ∧ Consistent l ∧ ∀ c, c ∈ l → spec_Zone (Spec c) ≠ "".

Lemma Describes_validate `{MapIter} l cfg :
  Describes l cfg →
  validate cfg = Ok tt ↔ l ≠ [] ∧ ∀ c, c ∈ l → spec_Zone (Spec c) ≠ "".
Proof.
  intros Hd. rewrite validate_ok. destruct Hd as [Hb _]. split.
  - intros [Hsz Hz]. split.
    + intros ->. apply map_size_non_empty_iff, map_choose in Hsz as (bt & bc & Hbc).
      specialize (Hb bt). rewrite Hbc in Hb. set_solver.
    + intros c Hc. specialize (Hb (cl_bt c)). specialize (Hz (cl_bt c)).
      destruct (Backends cfg !! cl_bt c) as [bc|]; [|by destruct (Hb c)].
      destruct Hb as (_ & _ & Hin). destruct (Hz _ eq_refl) as [_ Hz'].
      by apply (Hz' (instanceID c) (mkInstanceConfig (spec_Zone (Spec c)))), Hin; eauto.
  - intros [Hne Hz]. split.
    + destruct l as [|c l]; [done|]. specialize (Hb (cl_bt c)). intros Hsz.
      apply map_size_empty_inv in Hsz. rewrite Hsz, lookup_empty in Hb. by apply (Hb c); [left|].
    + intros bt bc Hbc. specialize (Hb bt). rewrite Hbc in Hb. destruct Hb as ((c & Hc & Hbt) & _ & Hin).
      split.
      * intros Hsz. apply map_size_empty_inv in Hsz.
        assert (Hx : bcInstances bc !! instanceID c = Some (mkInstanceConfig (spec_Zone (Spec c)))).
        { apply Hin. exists c. unfold cl_key. by rewrite Hbt. }
        by rewrite Hsz, lookup_empty in Hx.
      * intros i ic (c' & Hc' & _ & ->)%Hin. simpl. by apply Hz.
Qed.

Lemma FromBackendClusters_spec `{MapIter} l :
  match FromBackendClusters l with
  | Ok cfg => Acceptable l ∧ Describes l cfg ∧ validate cfg = Ok tt
  | Err _ => ¬ Acceptable l
  end.
Proof.
  unfold FromBackendClusters, Acceptable.
  pose proof (fold_clusters_spec [] l _ Consistent_nil Describes_nil) as Hs. simpl in Hs.
  destruct (fold_clusters _ l) as [cfg|]; simpl; [|by intros (_ & ? & _)].
  destruct Hs as [Hc Hd]. pose proof (Describes_validate l cfg Hd) as Hv.
  destruct (validate cfg) as [[]|] eqn:HV; simpl.
  - destruct (proj1 Hv eq_refl). by split_and!.
  - intros (H1 & _ & H3). by pose proof (proj2 Hv (conj H1 H3)).
Qed.

Lemma Consistent_perm l l' : l ≡ₚ l' → Consistent l → Consistent l'.
Proof.
  intros Hp (H1 & H2 & H3 & H4). split_and!.
  - intros c. rewrite <-Hp. auto.
  - intros c1 c2. rewrite <-Hp. auto.
  - by rewrite <-Hp.
  - by rewrite <-Hp.
Qed.

Lemma Acceptable_perm l l' : l ≡ₚ l' → Acceptable l → Acceptable l'.
Proof.
  intros Hp (H1 & H2 & H3). split_and!.
  - intros ->. apply H1, Permutation_nil. by symmetry.
  - by eapply Consistent_perm.
  - intros c. rewrite <-Hp. auto.
Qed.

Lemma Describes_perm l l' cfg : l ≡ₚ l' → Describes l cfg → Describes l' cfg.
Proof.
  intros Hp [Hb Hd]. assert (Hin : ∀ c, c ∈ l ↔ c ∈ l') by (intros; by rewrite Hp). split.
  - intros bt. specialize (Hb bt). destruct (Backends cfg !! bt) as [bc|].
    + destruct Hb as (H1 & H2 & H3). setoid_rewrite Hin in H1. setoid_rewrite Hin in H2.
      setoid_rewrite Hin in H3. done.
    + intros c Hc. apply Hb. by apply Hin.
  - intros bt i. rewrite Hd. by setoid_rewrite Hin.
Qed.

Lemma FromBackendClusters_ok `{MapIter} l cfg :
  FromBackendClusters l = Ok cfg ↔ Acceptable l ∧ Describes l cfg.
Proof.
  pose proof (FromBackendClusters_spec l) as Hs. destruct (FromBackendClusters l) as [cfg'|]; split.
  - intros [= ->]. naive_solver.
  - intros [_ Hd]. destruct Hs as (_ & Hd' & _). f_equal. by eapply Describes_unique.
  - done.
  - by intros [? _].
Qed.

(** ** The watch loop's invariant *)

(** A configuration the driver may be handed: it comes from some acceptable set
    of resources and passes validation. *)
Definition Usable `{MapIter} (cfg : Config) : Prop :=
  validate cfg = Ok tt ∧ ∃ l, Acceptable l ∧ Describes l cfg.

Definition BackoffOk (st : WatchState) : Prop := (second ≤ w_backoff st ≤ 30 * second)%Z.

Lemma grow_bounds d : (second ≤ d ≤ 30 * second)%Z → (second ≤ grow d ≤ 30 * second)%Z.
Proof. unfold grow, second. intros. case_decide; lia. Qed.

Section watch.
  Context `{MapIter}.

Lemma FromBackendClusters_usable l cfg : FromBackendClusters l = Ok cfg → Usable cfg.
Proof.
  intros Hf. pose proof (FromBackendClusters_spec l) as Hs. rewrite Hf in Hs.
  destruct Hs as (? & ? & ?). split; eauto.
Qed.

Lemma watch_events_usable last items : Forall Usable (watch_events last items).2.
Proof.
  revert last. induction items as [|[typ rv reload|clean] items IH]; intros last; simpl; [constructor| |constructor].
  case_bool_decide; [|case_bool_decide; [constructor|auto]].
  destruct (reload ≫= FromBackendClusters) as [cfg|] eqn:Hr; [|auto].
  specialize (IH (if bool_decide (rv = "") then last else rv)).
  destruct (watch_events _ items) as [[last' r] out]. constructor; [|done].
  destruct reload; [|done]. by eapply FromBackendClusters_usable.
Qed.

Lemma back_off_ok st sl st' : BackoffOk st → back_off st sl = Some st' → BackoffOk st'.
Proof. destruct sl; simpl; [|done]. intros ? [= <-]. by apply grow_bounds. Qed.

Lemma watch_from_inv st ro :
  BackoffOk st →
  Forall Usable (watch_from st ro).2 ∧ ∀ st', (watch_from st ro).1 = Some st' → BackoffOk st'.
Proof.
  intros Hb. unfold watch_from, watchCycle. destruct (ro_open ro) as [items|e].
  - pose proof (watch_events_usable (w_rv st) items) as Hu.
    destruct (watch_events _ items) as [[l r] out]. simpl in Hu.
    destruct (ro_done ro); [done|]. destruct r; simpl; split; try done; [|eauto using back_off_ok].
    intros ? [= <-]. unfold BackoffOk, second. simpl. lia.
  - destruct (ro_done ro); simpl; split; try done; eauto using back_off_ok.
Qed.

Lemma watch_round_inv st ro :
  BackoffOk st →
  Forall Usable (watch_round st ro).2 ∧ ∀ st', (watch_round st ro).1 = Some st' → BackoffOk st'.
Proof.
  intros Hb. unfold watch_round. case_bool_decide; [|by apply watch_from_inv].
  destruct (ro_list ro) as [[items newRV]|]; [|simpl; split; [constructor|eauto using back_off_ok]].
  destruct (watch_from_inv (mkWatch (w_backoff st) newRV) ro Hb) as [Hu Hs].
  destruct (watch_from (mkWatch (w_backoff st) newRV) ro) as [st' out]. simpl in *. split; [|done].
  apply Forall_app. split; [|done]. destruct (FromBackendClusters items) eqn:Hf; [|constructor].
  constructor; [by eapply FromBackendClusters_usable|constructor].
Qed.

Lemma WatchFromAPI_usable st rounds : BackoffOk st → Forall Usable (WatchFromAPI st rounds).
Proof.
  revert st. induction rounds as [|ro rounds IH]; intros st Hb; simpl; [constructor|].
  destruct (watch_round_inv st ro Hb) as [Hu Hs]. destruct (watch_round st ro) as [st' out].
  simpl in *. apply Forall_app. split; [done|]. destruct st'; [by apply IH, Hs|constructor].
Qed.
End watch.

(** ** Properties *)

(** [FromBackendClusters] accepts a list of BackendCluster resources exactly
    when it is non-empty, every resource names a type, an endpoint and a zone, the
    endpoints of a type agree, no instance is declared twice and no type has two
    defaults; and the configuration it returns holds the instances, zones, endpoints
    and defaults of the resources and nothing else.  The order of the resources and
    of Go's map iteration does not matter. *)
Theorem FromBackendClusters_exact (o o' : MapIter) (l l' : list BackendCluster) (cfg : Config) :
  (@FromBackendClusters o l = Ok cfg ↔ Acceptable l ∧ Describes l cfg) ∧
  (l ≡ₚ l' → @FromBackendClusters o l = Ok cfg ↔ @FromBackendClusters o' l' = Ok cfg).
Proof.
  split; [apply FromBackendClusters_ok|]. intros Hp. rewrite !FromBackendClusters_ok.
  split; intros [? ?]; split; eauto using Acceptable_perm, Describes_perm, Permutation_sym.
Qed.

(** The live-reload loop only ever hands the driver usable configurations:
    whatever the API server lists and streams (bad resource sets, expired cursors,
    broken streams), each configuration given to [onChange] passes validation and
    describes an acceptable set of resources, so a bad edit never replaces a good
    configuration; and the retry back-off stays between one and thirty seconds. *)
Theorem WatchFromAPI_only_usable (o : MapIter) (st : WatchState) (rounds : list WatchRound) :
  BackoffOk st →
  Forall Usable (WatchFromAPI st rounds) ∧
  ∀ ro st', (watch_round st ro).1 = Some st' → BackoffOk st'.
Proof.
  intros Hb. split; [by apply WatchFromAPI_usable|]. intros ro st'. by apply watch_round_inv.
Qed.

Definition ex_east : BackendCluster :=
  mkCluster "rbd-east" (mkSpec "ceph-rbd" "east" "zone-e" false "/p/rbd.sock").
Definition ex_west : BackendCluster :=
  mkCluster "west" (mkSpec "ceph-rbd" "" "zone-w" true "/p/rbd.sock").
Definition ex_broken : BackendCluster :=
  mkCluster "west2" (mkSpec "ceph-rbd" "west" "zone-x" false "/p/rbd.sock").

Example ex_config :
  (λ cfg, (mget (cfgDefaults cfg) "ceph-rbd", size (Backends cfg))) <$> FromBackendClusters [ex_east; ex_west]
  = Ok ("west", 1).
Proof. vm_compute. reflexivity. Qed.

(** A watch that first lists two clusters, then sees a bad edit followed by an
    expired cursor: one configuration reaches the driver, and the loop backs off. *)
Definition ex_rounds : list WatchRound :=
  [mkRound (Ok ([ex_east; ex_west], "7"))
     (Ok [Decoded "MODIFIED" "8" (Ok [ex_west; ex_broken]); Decoded "ERROR" "" (Ok [])]) false true].
Example ex_watch : length (WatchFromAPI watch_init ex_rounds) = 1.
Proof. vm_compute. reflexivity. Qed.

Lemma FromBackendClusters_exact_witness :
  (@FromBackendClusters iter_default [ex_east; ex_west] = Ok (mkConfig ∅ ∅) ↔
     Acceptable [ex_east; ex_west] ∧ Describes [ex_east; ex_west] (mkConfig ∅ ∅)) ∧
  ([ex_east; ex_west] ≡ₚ [ex_west; ex_east] →
   @FromBackendClusters iter_default [ex_east; ex_west] = Ok (mkConfig ∅ ∅) ↔
   @FromBackendClusters iter_reverse [ex_west; ex_east] = Ok (mkConfig ∅ ∅)).
Proof. apply FromBackendClusters_exact. Defined.

Lemma WatchFromAPI_only_usable_witness :
  BackoffOk watch_init ∧ Forall Usable (WatchFromAPI watch_init ex_rounds) ∧
  ∀ ro st', (watch_round watch_init ro).1 = Some st' → BackoffOk st'.
Proof.
  assert (Hb : BackoffOk watch_init) by (unfold BackoffOk, watch_init, second; simpl; lia).
  split; [exact Hb|]. apply (WatchFromAPI_only_usable iter_default). exact Hb.
Defined.
