(* ===== verification/Metrics.v ===== *)
(** * In-memory metrics (internal/metrics/metrics.go)

    The collector's maps and histograms and the operations that record into
    them.  Durations are nanoseconds; a histogram compares them with its bounds
    as the code does (every bound is a whole number of nanoseconds), and its sum
    is kept exactly where the code adds floats.  Label values are escaped here; the
    text they go into is in Exposition.v. *)
From S2P Require Import Prelude GoStrings.
From Stdlib Require Import Ascii.

Definition ms : Z := 1000000.
(** [bucketLe] and [pluginBucketLe]. *)
Definition bucketLe : list Z :=
  [5*ms; 10*ms; 25*ms; 50*ms; 100*ms; 250*ms; 500*ms; 1000*ms; 2500*ms; 5000*ms; 10000*ms]%Z.
Definition pluginBucketLe : list Z :=
  [5*ms; 25*ms; 100*ms; 250*ms; 500*ms; 1000*ms; 2500*ms; 5000*ms; 10000*ms; 30000*ms; 60000*ms;
   180000*ms; 600000*ms]%Z.

(** Plugin call outcomes and the fixed labels. *)
Definition ResultSuccess : string := "success".
Definition ResultNotFound : string := "not_found".
Definition ResultAlreadyExists : string := "already_exists".
Definition ResultInvalidArg : string := "invalid_argument".
Definition ResultUnsupported : string := "unsupported".
Definition ResultPluginError : string := "plugin_error".
Definition ResultTransport : string := "transport_error".
Definition ResultTimeout : string := "timeout".
Definition ResultCanceled : string := "canceled".
Definition ResultDecodeError : string := "decode_error".
Definition InstanceAll : string := "all".
Definition PlacementError : string := "error".
Definition PlacementDispatchError : string := "dispatch_error".
Definition DecisionUnresolved : string := "unresolved".
Definition InstanceNone : string := "none".
Definition ZoneNone : string := "none".
Definition BackendUnknown : string := "unknown".

Record histogram := mkHistogram {
  h_le : list Z;
  h_buckets : list Z;
  h_sum : Z;
  h_count : Z;
}.

(** [newHistogram], [histogram.observe], [histogram.clone]. *)
Definition newHistogram (le : list Z) : histogram := mkHistogram le (replicate (length le) 0%Z) 0 0.
Definition hist_observe (h : histogram) (d : Z) : histogram :=
  mkHistogram (h_le h)
    (zip_with (λ le b, if decide (d ≤ le)%Z then u64_succ b else b) (h_le h) (h_buckets h))
    (h_sum h + d) (u64_succ (h_count h)).
Definition hist_clone (h : histogram) : histogram :=
  mkHistogram (h_le h) (h_buckets h) (h_sum h) (h_count h).

Definition codeKey : Type := string * string.
Definition pluginKey : Type := string * string * string.
Definition pluginResultKey : Type := string * string * string * string.
Definition placementKey : Type := string * string * string * string * string.

Record collector := mkCollector {
  byMethod : gmap string histogram;
  byCode : gmap codeKey Z;
  pluginDur : gmap pluginKey histogram;
  pluginRes : gmap pluginResultKey Z;
  pluginInFlight : gmap string Z;
  placements : gmap placementKey Z;
  inFlight : Z;
}.
Definition newCollector : collector := mkCollector ∅ ∅ ∅ ∅ ∅ ∅ 0.

(** [m[k]++] on a map of uint64 counters, and on the int64 gauges. *)
Definition incr `{Countable K} (k : K) (m : gmap K Z) : gmap K Z :=
  <[k := u64_succ (default 0%Z (m !! k))]> m.
Definition add_gauge (n : Z) (k : string) (m : gmap string Z) : gmap string Z :=
  <[k := (default 0 (m !! k) + n)%Z]> m.
Definition counter `{Countable K} (k : K) (m : gmap K Z) : Z := default 0%Z (m !! k).

(** The histogram of a key, created on first use, with one more observation. *)
Definition observe_in `{Countable K} (le : list Z) (k : K) (d : Z) (m : gmap K histogram) : gmap K histogram :=
  <[k := hist_observe (default (newHistogram le) (m !! k)) d]> m.

(** [collector.observe]. *)
Definition observe (method code : string) (d : Z) (c : collector) : collector :=
  mkCollector (observe_in bucketLe method d (byMethod c)) (incr (method, code) (byCode c))
    (pluginDur c) (pluginRes c) (pluginInFlight c) (placements c) (inFlight c).

Definition or_label (s l : string) : string := if bool_decide (s = "") then l else s.

(** [ObservePluginCall]. *)
Definition ObservePluginCall (bt instance endpoint result : string) (d : Z) (c : collector) : collector :=
  let instance := or_label instance InstanceAll in
  mkCollector (byMethod c) (byCode c)
    (observe_in pluginBucketLe (bt, instance, endpoint) d (pluginDur c))
    (incr (bt, instance, endpoint, result) (pluginRes c)) (pluginInFlight c) (placements c) (inFlight c).

(** [PluginCallStarted], and the function it returns. *)
Definition PluginCallStarted (bt : string) (c : collector) : collector :=
  mkCollector (byMethod c) (byCode c) (pluginDur c) (pluginRes c)
    (add_gauge 1 bt (pluginInFlight c)) (placements c) (inFlight c).
Definition PluginCallDone (bt : string) (c : collector) : collector :=
  mkCollector (byMethod c) (byCode c) (pluginDur c) (pluginRes c)
    (add_gauge (-1) bt (pluginInFlight c)) (placements c) (inFlight c).

(** [ObservePlacement]. *)
Definition placement_key (bt instance zone decision result : string) : placementKey :=
  (bt, or_label instance InstanceNone, or_label zone ZoneNone, decision, result).
Definition ObservePlacement (bt instance zone decision result : string) (c : collector) : collector :=
  mkCollector (byMethod c) (byCode c) (pluginDur c) (pluginRes c) (pluginInFlight c)
    (incr (placement_key bt instance zone decision result) (placements c)) (inFlight c).

(** [Interceptor]: one RPC, run by [handler], between the two updates of the
    in-flight gauge.  [code_of] is [status.Code(err).String()]. *)
Definition add_inFlight (n : Z) (c : collector) : collector :=
  mkCollector (byMethod c) (byCode c) (pluginDur c) (pluginRes c) (pluginInFlight c) (placements c)
    (inFlight c + n).
Definition Interceptor {R} (method : string) (d : Z) (code_of : R → string)
    (handler : collector → collector * R) (c : collector) : collector * R :=
  let '(c', r) := handler (add_inFlight 1 c) in
  (add_inFlight (-1) (observe method (code_of r) d c'), r).

(** [escLabel]: backslash, double quote and line feed are escaped. *)
Definition esc_byte (a : ascii) : string :=
  if decide (a = ascii_of_nat 92) then String (ascii_of_nat 92) (String (ascii_of_nat 92) "")
  else if decide (a = ascii_of_nat 34) then String (ascii_of_nat 92) (String (ascii_of_nat 34) "")
  else if decide (a = ascii_of_nat 10) then String (ascii_of_nat 92) (String "n" "")
  else String a "".
Fixpoint escLabel (s : string) : string :=
  match s with EmptyString => "" | String a s' => esc_byte a +:+ escLabel s' end.

(** ** Histograms *)

Definition observe_all (h : histogram) (ds : list Z) : histogram := foldl hist_observe h ds.

(** How many of [ds] are at most [le]. *)
Definition at_most (le : Z) (ds : list Z) : Z := Z.of_nat (length (filter (λ d, d ≤ le)%Z ds)).


Lemma u64_succ_mod z : u64_succ (z mod two64) = ((z + 1) mod two64)%Z.
Proof. unfold u64_succ, two64. apply Z.add_mod_idemp_l. lia. Qed.

Lemma observe_all_le h ds : h_le (observe_all h ds) = h_le h.
Proof. revert h. induction ds as [|d ds IH]; intros h; [done|]. apply (IH (hist_observe h d)). Qed.

Lemma at_most_snoc le ds d :
  at_most le (ds ++ [d]) = (if decide (d ≤ le) then at_most le ds + 1 else at_most le ds)%Z.
Proof.
  unfold at_most. rewrite filter_app, length_app, filter_cons, filter_nil.
  case_decide; simpl; lia.
Qed.

Lemma observe_all_snoc h ds d : observe_all h (ds ++ [d]) = hist_observe (observe_all h ds) d.
Proof. unfold observe_all. by rewrite foldl_app. Qed.

Lemma observe_all_spec le ds :
  h_buckets (observe_all (newHistogram le) ds) = (λ b, at_most b ds mod two64)%Z <$> le ∧
  h_count (observe_all (newHistogram le) ds) = (Z.of_nat (length ds) mod two64)%Z.
Proof.
  induction ds as [|d ds [IH1 IH2]] using rev_ind.
  - split; [|done]. simpl. induction le as [|b le IH]; [done|]. simpl. by f_equal.
  - rewrite observe_all_snoc. unfold hist_observe. simpl. rewrite IH1, IH2, observe_all_le. split.
    + simpl. clear. induction le as [|b le IH]; [done|]. simpl. f_equal; [|done].
      rewrite at_most_snoc. case_decide; [apply u64_succ_mod|done].
    + rewrite u64_succ_mod, length_app. f_equal. simpl. lia.
Qed.

Lemma at_most_mono b1 b2 ds : (b1 ≤ b2)%Z → (at_most b1 ds ≤ at_most b2 ds)%Z.
Proof.
  intros Hb. induction ds as [|d ds IH] using rev_ind; [done|].
  rewrite !at_most_snoc. repeat case_decide; lia.
Qed.

Lemma at_most_length b ds : (0 ≤ at_most b ds ≤ Z.of_nat (length ds))%Z.
Proof. unfold at_most. pose proof (length_filter (λ d, d ≤ b)%Z ds). lia. Qed.

(** ** Escaping *)

(** The reader of the exposition format undoes the three escapes. *)
Fixpoint unescape (s : string) : string :=
  match s with
  | EmptyString => ""
  | String a rest =>
      if decide (a = ascii_of_nat 92) then
        match rest with
        | String b rest' => String (if decide (b = "n"%char) then ascii_of_nat 10 else b) (unescape rest')
        | EmptyString => String a ""
        end
      else String a (unescape rest)
  end.

Lemma unescape_escLabel s : unescape (escLabel s) = s.
Proof.
  induction s as [|a s IH]; [done|]. simpl. unfold esc_byte.
  repeat case_decide; subst; rewrite ?append_cons; simpl;
    change ("" +:+ escLabel s) with (escLabel s); rewrite ?IH; try done.
  by rewrite decide_False.
Qed.

Lemma escLabel_no_newline s : contains_char (ascii_of_nat 10) (escLabel s) = false.
Proof.
  induction s as [|a s IH]; [done|]. simpl. rewrite contains_char_app, IH, orb_false_r.
  unfold esc_byte. repeat case_decide; subst; simpl; try done. by rewrite decide_False.
Qed.

(** ** Properties *)

(** A latency histogram is cumulative: after fewer than 2^64 observations,
    bucket [i] holds exactly the number of observations that are at most its bound,
    the buckets never decrease from one bound to a larger one, and none exceeds the
    total count. *)
Theorem histogram_cumulative (le ds : list Z) (i j : nat) (b1 b2 : Z) :
  (Z.of_nat (length ds) < two64)%Z →
  le !! i = Some b1 → le !! j = Some b2 → (b1 ≤ b2)%Z →
  let h := observe_all (newHistogram le) ds in
  h_buckets h !! i = Some (at_most b1 ds) ∧
  h_buckets h !! j = Some (at_most b2 ds) ∧
  (at_most b1 ds ≤ at_most b2 ds ≤ h_count h)%Z ∧ h_count h = Z.of_nat (length ds).
Proof.
  intros Hlen Hi Hj Hb h. destruct (observe_all_spec le ds) as [Hbk Hct].
  pose proof (at_most_length b1 ds). pose proof (at_most_length b2 ds).
  unfold h. rewrite Hbk, Hct, !list_lookup_fmap, Hi, Hj. simpl.
  rewrite !Z.mod_small by lia. split_and!; try done; [by apply at_most_mono|lia].
Qed.

(** Label values cannot forge exposition lines: the escaped form of a label
    contains no line feed, and unescaping it gives the label back, so distinct labels
    stay distinct. *)
Theorem escLabel_roundtrip (s t : string) :
  unescape (escLabel s) = s ∧
  contains_char (ascii_of_nat 10) (escLabel s) = false ∧
  (escLabel s = escLabel t ↔ s = t).
Proof.
  split_and!; [apply unescape_escLabel|apply escLabel_no_newline|].
  split; [|by intros ->]. intros Heq. rewrite <-(unescape_escLabel s), <-(unescape_escLabel t).
  by rewrite Heq.
Qed.

Definition ex_durations : list Z := [3*ms; 12*ms; 12*ms; 20000*ms]%Z.
Example ex_histogram : h_buckets (observe_all (newHistogram bucketLe) ex_durations) = [1; 1; 3; 3; 3; 3; 3; 3; 3; 3; 3]%Z.
Proof. vm_compute. reflexivity. Qed.

Lemma histogram_cumulative_witness :
  let h := observe_all (newHistogram bucketLe) ex_durations in
  h_buckets h !! 1 = Some (at_most (10*ms) ex_durations) ∧
  h_buckets h !! 2 = Some (at_most (25*ms) ex_durations) ∧
  (at_most (10*ms) ex_durations ≤ at_most (25*ms) ex_durations ≤ h_count h)%Z ∧
  h_count h = Z.of_nat (length ex_durations).
Proof. apply (histogram_cumulative bucketLe ex_durations 1 2); [reflexivity|reflexivity|reflexivity|vm_compute; discriminate]. Defined.
