(* ===== verification/Exposition.v ===== *)
(** * The metrics endpoint's text (internal/metrics/metrics.go)

    The Prometheus text the collector is rendered to, and a reader of that format: a scrape
    gives back exactly what was recorded.  The text of a histogram's sum, a float the model
    does not compute, is a parameter. *)
From Stdlib Require Import Ascii.
From S2P Require Import Prelude GoStrings Metrics.

Module exposition.

(** A line: a comment, or a sample with its labels ([None]: no braces) and the text of its value. *)
Record sample := mkSample { sm_name : string; sm_labels : option (list (string * string)); sm_value : string }.
Inductive line := Comment (text : string) | Sample (s : sample).
Definition dq : ascii := ascii_of_nat 34.
Definition lf : ascii := ascii_of_nat 10.
Definition label_text (kv : string * string) : string := kv.1 +:+ "=" +:+ String dq (escLabel kv.2 +:+ String dq "").
Definition labels_text (ls : list (string * string)) : string := join "," (map label_text ls).
Definition sample_text (s : sample) : string :=
  sm_name s +:+ (match sm_labels s with None => "" | Some ls => "{" +:+ labels_text ls +:+ "}" end) +:+ " " +:+ sm_value s.
Definition line_text (l : line) : string := match l with Comment t => t | Sample s => sample_text s end.
Definition written (ls : list line) : string := String.concat "" (map (λ l, line_text l +:+ String lf "") ls).

(** Keys in the order of [sort.Slice]: field by field. *)
Fixpoint fields_le (a b : list string) : bool :=
  match a, b with
  | x :: a, y :: b => if bool_decide (x = y) then fields_le a b else bool_decide (String.le x y)
  | _, _ => true
  end.
Definition keys_le {K V} (key : K → list string) (x y : K * V) : Prop := fields_le (key x.1) (key y.1) = true.
#[export] Instance keys_le_dec {K V} (key : K → list string) : RelDecision (keys_le (V := V) key).
Proof. intros x y. unfold keys_le. apply _. Defined.
Definition sorted_by {K V} (key : K → list string) (l : list (K * V)) : list (K * V) := merge_sort (keys_le key) l.

(** [FormatFloat(le, 'g', -1, 64)] of a bound, which is a whole number of milliseconds and
    less than a million seconds. *)
Definition drop_zeros (s : string) : string := string_rev (trim_left (λ a, bool_decide (a = "0"%char)) (string_rev s)).
Definition pad3 (n : Z) : string := (if (n <? 10)%Z then "00" else if (n <? 100)%Z then "0" else "") +:+ Itoa n.
Definition bound_text (le : Z) : string :=
  let n := (le / ms)%Z in
  Itoa (n / 1000) +:+ (if bool_decide (n mod 1000 = 0)%Z then "" else "." +:+ drop_zeros (pad3 (n mod 1000))).
Example bound_texts : map bound_text pluginBucketLe =
  ["0.005"; "0.025"; "0.1"; "0.25"; "0.5"; "1"; "2.5"; "5"; "10"; "30"; "60"; "180"; "600"].
Proof. vm_compute. reflexivity. Qed.

Section format.
  Context (sum_text : Z → string).

(** [hist]. *)
Definition hist (name : string) (labels : list (string * string)) (h : histogram) : list line :=
  zip_with (λ le n, Sample (mkSample (name +:+ "_bucket") (Some (labels ++ [("le", bound_text le)])) (Itoa n))) (h_le h) (h_buckets h)
  ++ [Sample (mkSample (name +:+ "_bucket") (Some (labels ++ [("le", "+Inf")])) (Itoa (h_count h)));
      Sample (mkSample (name +:+ "_sum") (Some labels) (sum_text (h_sum h)));
      Sample (mkSample (name +:+ "_count") (Some labels) (Itoa (h_count h)))].

Definition code_fields (k : codeKey) : list string := [k.1; k.2].
Definition code_labels (k : codeKey) : list (string * string) := [("method", k.1); ("code", k.2)].
Definition plugin_fields (k : pluginKey) : list string := [k.1.1; k.1.2; k.2].
Definition plugin_labels (k : pluginKey) : list (string * string) := [("backend", k.1.1); ("instance", k.1.2); ("endpoint", k.2)].
Definition result_fields (k : pluginResultKey) : list string := [k.1.1.1; k.1.1.2; k.1.2; k.2].
Definition result_labels (k : pluginResultKey) : list (string * string) :=
  [("backend", k.1.1.1); ("instance", k.1.1.2); ("endpoint", k.1.2); ("result", k.2)].
Definition placement_fields (k : placementKey) : list string := [k.1.1.1.1; k.1.1.1.2; k.1.1.2; k.1.2; k.2].
Definition placement_labels (k : placementKey) : list (string * string) :=
  [("backend", k.1.1.1.1); ("instance", k.1.1.1.2); ("zone", k.1.1.2); ("decision", k.1.2); ("result", k.2)].
Definition single (s : string) : list string := [s].

(** One sample, or one histogram, per key of a map. *)
Definition counters {K} (name : string) (labels : K → list (string * string)) (l : list (K * Z)) : list line :=
  map (λ kv, Sample (mkSample name (Some (labels kv.1)) (Itoa kv.2))) l.
Definition histograms {K} (name : string) (labels : K → list (string * string)) (l : list (K * histogram)) : list line :=
  l ≫= λ kv, hist name (labels kv.1) kv.2.

(** [snapshot]: histograms are copied, everything else is a value. *)
Definition snapshot (c : collector) : collector :=
  mkCollector (hist_clone <$> byMethod c) (byCode c) (hist_clone <$> pluginDur c) (pluginRes c) (pluginInFlight c) (placements c) (inFlight c).

Definition formatGRPC (s : collector) : list line :=
  [Comment "# HELP bard_csi_grpc_requests_total Total gRPC requests by method and status code.";
   Comment "# TYPE bard_csi_grpc_requests_total counter"]
  ++ counters "bard_csi_grpc_requests_total" code_labels (sorted_by code_fields (map_to_list (byCode s)))
  ++ [Comment "# HELP bard_csi_grpc_request_duration_seconds gRPC handler latency.";
      Comment "# TYPE bard_csi_grpc_request_duration_seconds histogram"]
  ++ histograms "bard_csi_grpc_request_duration_seconds" (λ m, [("method", m)]) (sorted_by single (map_to_list (byMethod s)))
  ++ [Comment "# HELP bard_csi_grpc_requests_in_flight In-flight gRPC requests.";
      Comment "# TYPE bard_csi_grpc_requests_in_flight gauge";
      Sample (mkSample "bard_csi_grpc_requests_in_flight" None (Itoa (inFlight s)))].
Definition formatPlugin (s : collector) : list line :=
  [Comment "# HELP bard_csi_plugin_requests_total Total core->plugin socket calls by backend, instance, endpoint and outcome.";
   Comment "# TYPE bard_csi_plugin_requests_total counter"]
  ++ counters "bard_csi_plugin_requests_total" result_labels (sorted_by result_fields (map_to_list (pluginRes s)))
  ++ [Comment "# HELP bard_csi_plugin_request_duration_seconds Core->plugin socket round-trip latency (not the backend command inside the plugin).";
      Comment "# TYPE bard_csi_plugin_request_duration_seconds histogram"]
  ++ histograms "bard_csi_plugin_request_duration_seconds" plugin_labels (sorted_by plugin_fields (map_to_list (pluginDur s)))
  ++ [Comment "# HELP bard_csi_plugin_requests_in_flight In-flight core->plugin socket calls by backend.";
      Comment "# TYPE bard_csi_plugin_requests_in_flight gauge"]
  ++ counters "bard_csi_plugin_requests_in_flight" (λ b, [("backend", b)]) (sorted_by single (map_to_list (pluginInFlight s))).
Definition formatPlacements (s : collector) : list line :=
  [Comment "# HELP bard_csi_volume_placement_attempts_total CreateVolume attempts by backend, instance, zone and how dispatch chose it. Counts attempts (CSI creates are idempotent and retried), not distinct volumes.";
   Comment "# TYPE bard_csi_volume_placement_attempts_total counter"]
  ++ counters "bard_csi_volume_placement_attempts_total" placement_labels (sorted_by placement_fields (map_to_list (placements s))).
Definition format (s : collector) : list line := formatGRPC s ++ formatPlugin s ++ formatPlacements s.
(** [WriteTo], and what /metrics serves. *)
Definition WriteTo (c : collector) : string := written (format (snapshot c)).
End format.

(** ** A reader of the format *)
Fixpoint read_quoted (s : string) : option (string * string) :=
  match s with
  | EmptyString => None
  | String a rest =>
      if decide (a = dq) then Some ("", rest)
      else if decide (a = ascii_of_nat 92) then
        match rest with
        | String b rest' => prod_map (String (if decide (b = "n"%char) then lf else b)) id <$> read_quoted rest'
        | EmptyString => None
        end
      else prod_map (String a) id <$> read_quoted rest
  end.
Fixpoint read_labels (fuel : nat) (s : string) : option (list (string * string) * string) :=
  match fuel with
  | O => None
  | S fuel =>
      match cut_on "=" s with
      | Some (k, String q r) =>
          if decide (q = dq) then
            match read_quoted r with
            | Some (v, String c r) =>
                if decide (c = ","%char) then prod_map (cons (k, v)) id <$> read_labels fuel r
                else if decide (c = "}"%char) then Some ([(k, v)], r) else None
            | _ => None
            end
          else None
      | _ => None
      end
  end.
Definition name_char (a : ascii) : bool := negb (bool_decide (a ∈ [" "%char; "{"%char])).
Fixpoint read_name (s : string) : string * string :=
  match s with
  | EmptyString => ("", "")
  | String a r => if name_char a then prod_map (String a) id (read_name r) else ("", s)
  end.
Definition read_sample (s : string) : option sample :=
  match read_name s with
  | (n, String " " v) => Some (mkSample n None v)
  | (n, String "{" r) =>
      match read_labels (String.length s) r with
      | Some (ls, String " " v) => Some (mkSample n (Some ls) v)
      | _ => None
      end
  | _ => None
  end.
(** The samples of a document, in order: comments are skipped. *)
Definition scrape (text : string) : option (list sample) :=
  mapM read_sample (filter (λ l, l ≠ "" ∧ has_prefix "#" l = false) (split_on lf text)).

(** ** Reading back *)
Lemma read_escape b s : read_quoted (String (ascii_of_nat 92) (String b s)) =
  prod_map (String (if decide (b = "n"%char) then lf else b)) id <$> read_quoted s.
Proof. reflexivity. Qed.
Lemma read_plain a s : a ≠ dq → a ≠ ascii_of_nat 92 → read_quoted (String a s) = prod_map (String a) id <$> read_quoted s.
Proof. intros H1 H2. cbn [read_quoted]. by rewrite !decide_False. Qed.
Lemma read_quoted_esc v rest : read_quoted (escLabel v +:+ String dq rest) = Some (v, rest).
Proof.
  induction v as [|a v IH]; [reflexivity|]. cbn [escLabel]. rewrite string_app_assoc. unfold esc_byte.
  destruct (decide (a = ascii_of_nat 92)) as [->|H1]; [rewrite !append_cons, read_escape; change ("" +:+ ?x) with x; by rewrite IH|].
  destruct (decide (a = ascii_of_nat 34)) as [->|H2]; [rewrite !append_cons, read_escape; change ("" +:+ ?x) with x; by rewrite IH|].
  destruct (decide (a = ascii_of_nat 10)) as [->|H3]; [rewrite !append_cons, read_escape; change ("" +:+ ?x) with x; by rewrite IH|].
  rewrite !append_cons, read_plain by done. change ("" +:+ ?x) with x. by rewrite IH.
Qed.
Lemma read_labels_text ls rest fuel : ls ≠ [] → length ls ≤ fuel → Forall (λ kv, contains_char "=" kv.1 = false) ls →
  read_labels fuel (labels_text ls +:+ String "}" rest) = Some (ls, rest).
Proof.
  revert fuel. induction ls as [|[k v] ls IH]; intros fuel Hne Hf Hk; [done|]. apply Forall_cons in Hk as [Hk Hls].
  destruct fuel as [|fuel]; [simpl in Hf; lia|]. simpl in Hf.
  assert (∀ tail, cut_on "=" (label_text (k, v) +:+ tail) = Some (k, String dq (escLabel v +:+ String dq tail))) as Hcut.
  { intros tail. unfold label_text. rewrite !string_app_assoc. change ("=" +:+ ?x) with (String "=" x). cbn [fst snd].
    rewrite cut_on_app by done. by rewrite append_cons, string_app_assoc. }
  destruct ls as [|kv ls].
  - change (labels_text [(k, v)]) with (label_text (k, v)). cbn [read_labels]. rewrite Hcut. cbv iota beta.
    rewrite decide_True, read_quoted_esc by done. reflexivity.
  - unfold labels_text. cbn [map]. rewrite join_cons. rewrite !string_app_assoc. cbn [read_labels]. rewrite Hcut.
    rewrite decide_True, read_quoted_esc by done. change ("," +:+ ?x) with (String "," x). cbv iota. rewrite decide_True by done.
    change (join "," (label_text kv :: map label_text ls)) with (labels_text (kv :: ls)). rewrite IH; [done|done|simpl in *; lia|done].
Qed.

Definition no_lf (s : string) : Prop := contains_char lf s = false.
Lemma no_lf_app s t : no_lf (s +:+ t) ↔ no_lf s ∧ no_lf t.
Proof. unfold no_lf. rewrite contains_char_app. apply orb_false_iff. Qed.
(** A sample that survives a round trip: its name is one word, its keys are plain. *)
Definition readable (s : sample) : Prop :=
  all_chars name_char (sm_name s) = true ∧ sm_name s ≠ "" ∧ has_prefix "#" (sm_name s) = false ∧ no_lf (sm_name s) ∧ no_lf (sm_value s) ∧
  match sm_labels s with
  | None => True
  | Some ls => ls ≠ [] ∧ Forall (λ kv, contains_char "=" kv.1 = false ∧ no_lf kv.1) ls
  end.
Lemma read_name_app n rest : all_chars name_char n = true → (rest = "" ∨ ∃ a r, rest = String a r ∧ name_char a = false) →
  read_name (n +:+ rest) = (n, rest).
Proof.
  intros Hn Hr. induction n as [|a n IH].
  - change ("" +:+ rest) with rest. destruct Hr as [->|(a & r & -> & Ha)]; simpl; [done|by rewrite Ha].
  - cbn [all_chars] in Hn. apply andb_true_iff in Hn as [Ha Hn]. rewrite append_cons. cbn [read_name]. by rewrite Ha, IH.
Qed.
Lemma labels_length ls : length ls ≤ String.length (labels_text ls).
Proof.
  assert (∀ kv, 1 ≤ String.length (label_text kv)) as H1.
  { intros kv. unfold label_text. rewrite length_append. change (String.length ("=" +:+ ?x)) with (S (String.length x)). lia. }
  induction ls as [|kv [|kv' ls] IH]; [simpl; lia| |].
  - change (labels_text [kv]) with (label_text kv). apply H1.
  - unfold labels_text in *. cbn [map] in *. rewrite join_cons, !length_append. specialize (H1 kv). cbn [length] in *. lia.
Qed.
Lemma read_sample_text s : readable s → read_sample (sample_text s) = Some s.
Proof.
  destruct s as [n ls v]. intros (Hn & _ & _ & _ & _ & Hl). simpl in *. unfold read_sample, sample_text. simpl.
  destruct ls as [ls|].
  - destruct Hl as [Hne Hk]. rewrite (read_name_app n); [|done|right; rewrite string_app_assoc; by eexists _, _].
    rewrite !string_app_assoc. change ("{" +:+ ?x) with (String "{" x). change ("}" +:+ ?x) with (String "}" x). cbv iota beta.
    rewrite read_labels_text; [reflexivity|done| |eapply Forall_impl; [exact Hk|by intros ? [? ?]]].
    pose proof (labels_length ls) as Hlen. rewrite length_append. cbn [String.length]. rewrite length_append. lia.
  - change ("" +:+ " " +:+ v) with (String " " v). rewrite (read_name_app n); [done|done|right; by eexists _, _].
Qed.
Lemma escaped_no_lf kv : no_lf kv.1 → no_lf (label_text kv).
Proof.
  intros Hk. unfold label_text. rewrite !no_lf_app. split_and!; [done|reflexivity|].
  change (String dq ?x) with (String dq "" +:+ x). rewrite !no_lf_app. split_and!; [reflexivity|apply escLabel_no_newline|reflexivity].
Qed.
Lemma labels_no_lf ls : Forall (λ kv, no_lf kv.1) ls → no_lf (labels_text ls).
Proof.
  unfold labels_text. induction ls as [|kv [|kv' ls] IH]; intros Hall; [done| |].
  - apply Forall_cons in Hall as [Hk _]. by apply escaped_no_lf.
  - apply Forall_cons in Hall as [Hk Hall]. cbn [map] in *. rewrite join_cons, !no_lf_app. split_and!; [by apply escaped_no_lf|reflexivity|by apply IH].
Qed.
Lemma sample_no_lf s : readable s → no_lf (sample_text s).
Proof.
  intros (_ & _ & _ & Hn & Hv & Hl). unfold sample_text. rewrite !no_lf_app. split_and!; [done| |reflexivity|done].
  destruct (sm_labels s) as [ls|]; [|reflexivity]. destruct Hl as [_ Hk]. rewrite !no_lf_app. split_and!; [reflexivity| |reflexivity].
  apply labels_no_lf. eapply Forall_impl; [exact Hk|by intros ? [? ?]].
Qed.
Lemma sample_not_comment s : readable s → sample_text s ≠ "" ∧ has_prefix "#" (sample_text s) = false.
Proof.
  intros (_ & Hne & Hp & _). unfold sample_text. destruct (sm_name s) as [|a n]; [done|]. rewrite append_cons. split; [done|].
  unfold has_prefix in *. simpl in *. by destruct (decide _).
Qed.

(** Lines that a document can hold. *)
Definition good_line (l : line) : Prop :=
  match l with Comment t => has_prefix "#" t = true ∧ no_lf t | Sample s => readable s end.
Definition samples_of (ls : list line) : list sample := omap (λ l, match l with Sample s => Some s | Comment _ => None end) ls.
Lemma split_written ls : Forall good_line ls → split_on lf (written ls) = map line_text ls ++ [""].
Proof.
  unfold written. induction 1 as [|l ls Hl Hls IH]; [reflexivity|]. cbn [map]. rewrite <-app_comm_cons, <-IH.
  assert (no_lf (line_text l)) as Hn by (destruct l; [by destruct Hl|by apply sample_no_lf]).
  destruct (map (λ l, line_text l +:+ String lf "") ls) as [|x xs] eqn:Hm.
  - change (String.concat "" [?x]) with x. change (String.concat "" []) with "". by rewrite split_on_app.
  - change (String.concat "" ((line_text l +:+ String lf "") :: x :: xs)) with ((line_text l +:+ String lf "") +:+ "" +:+ String.concat "" (x :: xs)).
    change ("" +:+ ?z) with z. rewrite string_app_assoc, append_cons. change ("" +:+ ?z) with z. by rewrite split_on_app.
Qed.
Lemma scrape_written ls : Forall good_line ls → scrape (written ls) = Some (samples_of ls).
Proof.
  intros Hls. unfold scrape. rewrite split_written by done. rewrite filter_app. 
  rewrite (filter_cons_False _ ""), filter_nil, app_nil_r by (by intros [? _]).
  induction Hls as [|l ls Hl Hls IH]; [reflexivity|]. cbn [map]. destruct l as [t|s].
  - rewrite filter_cons_False; [exact IH|]. intros [_ Hp]. destruct Hl as [Ht _]. simpl in Hp. congruence.
  - rewrite filter_cons_True by (by apply sample_not_comment). cbn [mapM]. unfold samples_of in *. cbn [line_text omap list_omap].
    cbn. rewrite read_sample_text by done. simpl. by rewrite IH.
Qed.

(** ** The collector's lines *)
Lemma digit_no_lf d : (d < 10)%N → pretty_N_char d ≠ lf.
Proof.
  intros Hd. assert (Hc : d = 0%N ∨ d = 1%N ∨ d = 2%N ∨ d = 3%N ∨ d = 4%N ∨ d = 5%N
    ∨ d = 6%N ∨ d = 7%N ∨ d = 8%N ∨ d = 9%N) by lia.
  by repeat (destruct Hc as [->|Hc]; [done|]); subst.
Qed.
Lemma pretty_go_no_lf (x : N) s : no_lf s → no_lf (pretty_N_go x s).
Proof.
  unfold no_lf. revert s. induction (N.lt_wf_0 x) as [x _ IH]; intros s Hs.
  destruct (decide (x = 0%N)) as [->|Hx]; [by rewrite pretty_N_go_0|].
  rewrite pretty_N_go_step by lia. apply IH; [by apply N.div_lt; lia|]. cbn [contains_char]. rewrite Hs.
  by rewrite decide_False by (apply digit_no_lf; by apply N.mod_lt).
Qed.
Lemma Itoa_no_lf n : no_lf (Itoa n).
Proof.
  unfold Itoa, pretty, pretty_Z, pretty, pretty_positive, pretty, pretty_N. destruct n as [|p|p]; [done| |].
  - destruct (decide (N.pos p = 0%N)); [done|]. by apply pretty_go_no_lf.
  - apply no_lf_app. split; [done|]. destruct (decide (N.pos p = 0%N)); [done|]. by apply pretty_go_no_lf.
Qed.

Section exact.
  Context (sum_text : Z → string) (Hsum : ∀ z, no_lf (sum_text z)).

(** A name and keys as the code has them: no such character in them. *)
Definition plain_name (n : string) : bool :=
  all_chars name_char n && negb (bool_decide (n = "")) && negb (has_prefix "#" n) && negb (contains_char lf n).
Definition plain_keys (ls : list (string * string)) : Prop :=
  ls ≠ [] ∧ Forall (λ kv, contains_char "=" kv.1 = false ∧ no_lf kv.1) ls.
Lemma sample_good n ls v : plain_name n = true → plain_keys ls → no_lf v → good_line (Sample (mkSample n (Some ls) v)).
Proof.
  unfold plain_name. intros [[[H1 H2]%andb_true_iff H3]%andb_true_iff H4]%andb_true_iff Hl Hv.
  apply negb_true_iff in H2, H3, H4. apply bool_decide_eq_false in H2. split_and!; try done; apply Hl.
Qed.
Lemma counters_good {K} n (labels : K → list (string * string)) l : plain_name n = true → (∀ k, plain_keys (labels k)) →
  Forall good_line (counters n labels l).
Proof. intros Hn Hk. apply Forall_fmap, Forall_true. intros kv. apply sample_good; [done|done|apply Itoa_no_lf]. Qed.
Lemma plain_keys_app ls k v : plain_keys ls → contains_char "=" k = false → no_lf k → plain_keys (ls ++ [(k, v)]).
Proof. intros [Hne Hf] H1 H2. split; [by destruct ls|]. apply Forall_app. split; [done|]. by repeat constructor. Qed.
Lemma hist_good n ls h : plain_name (n +:+ "_bucket") = true → plain_name (n +:+ "_sum") = true → plain_name (n +:+ "_count") = true →
  plain_keys ls → Forall good_line (hist sum_text n ls h).
Proof.
  intros Hb Hs Hc Hl. unfold hist. apply Forall_app. split.
  - apply Forall_forall. intros l (le & c & -> & _)%elem_of_zip_with.
    apply sample_good; [done|by apply plain_keys_app|apply Itoa_no_lf].
  - do 3 (apply Forall_cons_2; [apply sample_good; [done| |first [apply Itoa_no_lf|apply Hsum]]; first [by apply plain_keys_app|done]|]). apply Forall_nil_2.
Qed.
Lemma histograms_good {K} n (labels : K → list (string * string)) l : plain_name (n +:+ "_bucket") = true → plain_name (n +:+ "_sum") = true →
  plain_name (n +:+ "_count") = true → (∀ k, plain_keys (labels k)) → Forall good_line (histograms sum_text n labels l).
Proof. intros Hb Hs Hc Hk. unfold histograms. apply Forall_bind, Forall_true. intros kv. by apply hist_good. Qed.
Lemma format_good s : Forall good_line (format sum_text s).
Proof.
  unfold format, formatGRPC, formatPlugin, formatPlacements.
  repeat first
  [ apply Forall_app; split
  | apply Forall_cons_2
  | apply Forall_nil_2
  | apply counters_good; [reflexivity|intros k; split; [done|by repeat constructor]]
  | apply histograms_good; [reflexivity..|intros k; split; [done|by repeat constructor]]
  | split; reflexivity ].
  split_and!; try done. apply Itoa_no_lf.
Qed.

Lemma elem_of_samples x ls : x ∈ samples_of ls ↔ Sample x ∈ ls.
Proof.
  unfold samples_of. rewrite list_elem_of_omap. split; [|by intros ?; exists (Sample x)]. intros ([t|y] & Hin & Heq); [done|]. by injection Heq as <-.
Qed.
Lemma elem_of_counters {K} `{Countable K} n (labels : K → list (string * string)) key (m : gmap K Z) x :
  Sample x ∈ counters n labels (sorted_by key (map_to_list m)) ↔ ∃ k v, m !! k = Some v ∧ x = mkSample n (Some (labels k)) (Itoa v).
Proof.
  unfold counters, sorted_by. rewrite list_elem_of_fmap. split.
  - intros ([k v] & Heq & Hin). rewrite merge_sort_Permutation, elem_of_map_to_list in Hin. injection Heq as ->. by exists k, v.
  - intros (k & v & Hm & ->). exists (k, v). split; [done|]. by rewrite merge_sort_Permutation, elem_of_map_to_list.
Qed.
(** The name of a histogram's sample has one of three endings. *)
Lemma elem_of_histograms {K} n (labels : K → list (string * string)) l x : Sample x ∈ histograms sum_text n labels l →
  sm_name x ∈ [n +:+ "_bucket"; n +:+ "_sum"; n +:+ "_count"].
Proof.
  unfold histograms, hist. rewrite list_elem_of_bind. intros (kv & Hx & _). apply elem_of_app in Hx as [Hx|Hx].
  - apply elem_of_zip_with in Hx as (le & c & Heq & _). injection Heq as ->. apply list_elem_of_here.
  - repeat (apply elem_of_cons in Hx as [[= ->]|Hx]; [simpl; set_solver|]). by apply elem_of_nil in Hx.
Qed.
Definition grpc_total : string := "bard_csi_grpc_requests_total".
Definition plugin_total : string := "bard_csi_plugin_requests_total".
Definition plugin_gauge : string := "bard_csi_plugin_requests_in_flight".
Definition placement_total : string := "bard_csi_volume_placement_attempts_total".
(** The samples of a counter are its map's entries. *)
Definition shows {K} `{Countable K} (ss : list sample) (n : string) (labels : K → list (string * string)) (m : gmap K Z) : Prop :=
  ∀ x, sm_name x = n → x ∈ ss ↔ ∃ k v, m !! k = Some v ∧ x = mkSample n (Some (labels k)) (Itoa v).
Lemma format_lines x s : Sample x ∈ format sum_text s ↔
  (Sample x ∈ counters grpc_total code_labels (sorted_by code_fields (map_to_list (byCode s)))
   ∨ Sample x ∈ histograms sum_text "bard_csi_grpc_request_duration_seconds" (λ m, [("method", m)]) (sorted_by single (map_to_list (byMethod s)))
   ∨ x = mkSample "bard_csi_grpc_requests_in_flight" None (Itoa (inFlight s)))
  ∨ (Sample x ∈ counters plugin_total result_labels (sorted_by result_fields (map_to_list (pluginRes s)))
   ∨ Sample x ∈ histograms sum_text "bard_csi_plugin_request_duration_seconds" plugin_labels (sorted_by plugin_fields (map_to_list (pluginDur s)))
   ∨ Sample x ∈ counters plugin_gauge (λ b, [("backend", b)]) (sorted_by single (map_to_list (pluginInFlight s))))
  ∨ Sample x ∈ counters placement_total placement_labels (sorted_by placement_fields (map_to_list (placements s))).
Proof.
  unfold format, formatGRPC, formatPlugin, formatPlacements. rewrite !elem_of_app, !elem_of_cons, !elem_of_nil.
  assert (∀ t, Sample x = Comment t ↔ False) as Hc by done. assert (∀ y, Sample x = Sample y ↔ x = y) as Hs by (split; congruence).
  rewrite !Hc, !Hs. unfold grpc_total, plugin_total, plugin_gauge, placement_total. tauto.
Qed.
Ltac other_name Hn :=
  match goal with
  | H : Sample _ ∈ histograms _ _ _ _ |- _ =>
      apply elem_of_histograms in H; rewrite Hn in H; apply (bool_decide_eq_true_2 _) in H; vm_compute in H; discriminate H
  | H : ∃ _ _, _ ∧ _ = mkSample _ _ _ |- _ => destruct H as (? & ? & _ & ->); discriminate Hn
  | H : _ = mkSample _ _ _ |- _ => rewrite H in Hn; discriminate Hn
  end.
Ltac shown :=
  intros x Hn; rewrite elem_of_samples, format_lines, !elem_of_counters; split;
  [intros [[Hx|[Hx|Hx]]|[[Hx|[Hx|Hx]]|Hx]]; first [exact Hx|other_name Hn]|tauto].
(** C33: a scrape is exact: whatever was recorded, and whatever characters the labels hold, the
    text of the metrics endpoint reads back, and its samples of request, plugin-call and
    placement counts and of calls in flight are the entries of the collector's maps, each under its key's
    labels and with its value, and no others. *)
Theorem scrape_exact c : ∃ ss, scrape (WriteTo sum_text c) = Some ss ∧
  shows ss grpc_total code_labels (byCode c) ∧ shows ss plugin_total result_labels (pluginRes c) ∧
  shows ss plugin_gauge (λ b, [("backend", b)]) (pluginInFlight c) ∧ shows ss placement_total placement_labels (placements c).
Proof.
  exists (samples_of (format sum_text (snapshot c))). split; [apply scrape_written, format_good|].
  split_and!; shown.
Qed.
End exact.

(** A collector with a label that tries to end its line. *)
Definition ex_collector : collector :=
  ObservePlacement "nfs" "east" (String lf "zone{}") "topology" "success" (ObservePluginCall "nfs" "" "/info" ResultSuccess 3000000 newCollector).
Lemma scrape_exact_witness : ∃ ss, scrape (WriteTo (λ _, "0.003") ex_collector) = Some ss ∧
  mkSample placement_total (Some [("backend", "nfs"); ("instance", "east"); ("zone", String lf "zone{}"); ("decision", "topology"); ("result", "success")]) "1" ∈ ss ∧
  length ss = 19.
Proof.
  destruct (scrape_exact (λ _, "0.003") ltac:(done) ex_collector) as (ss & Hs & _ & _ & _ & Hp). exists ss. split; [exact Hs|]. split.
  - apply Hp; [reflexivity|]. exists (placement_key "nfs" "east" (String lf "zone{}") "topology" "success"), 1%Z. split; reflexivity.
  - assert (Some (length ss) = Some 19) as Heq; [|by injection Heq]. transitivity (length <$> scrape (WriteTo (λ _, "0.003") ex_collector)); [by rewrite Hs|vm_compute; reflexivity].
Defined.
End exposition.
