(* ===== verification/Json.v ===== *)
(** * encoding/json, as the plugin wire uses it

    Go's [json.Marshal] and [json.Unmarshal] between Go values and JSON values:
    which fields are written ([omitempty] included), how a JSON value is stored
    into a Go value that already holds something (duplicate keys, [null], a type
    mismatch that is reported after the rest has been stored), the replacement of
    bytes that are not UTF-8, and the length of the text [Marshal] writes.  Go's
    nil and empty maps and slices are one value here; a nil slice is written as
    the empty array.  Key folding is that of ASCII. *)
From S2P Require Import Prelude GoStrings.
From Stdlib Require Import Ascii.

Inductive json :=
  | JNull
  | JBool (b : bool)
  | JNum (lit : string)                     (* the literal, as written *)
  | JStr (s : string)
  | JArr (l : list json)
  | JObj (o : list (string * json)).        (* in document order *)

(** ** Strings

    [json.Marshal] writes each byte that does not start a well-formed UTF-8
    sequence as U+FFFD. *)
Definition byte_in (lo hi : N) (a : ascii) : bool :=
  (lo <=? N_of_ascii a)%N && (N_of_ascii a <=? hi)%N.
Definition cont (a : ascii) : bool := byte_in 128 191 a.
Definition lead2 (a b : ascii) : bool := byte_in 194 223 a && cont b.
Definition lead3 (a b : ascii) : bool :=
  (byte_in 224 224 a && byte_in 160 191 b) || (byte_in 225 236 a && cont b) ||
  (byte_in 237 237 a && byte_in 128 159 b) || (byte_in 238 239 a && cont b).
Definition lead4 (a b : ascii) : bool :=
  (byte_in 240 240 a && byte_in 144 191 b) || (byte_in 241 243 a && cont b) ||
  (byte_in 244 244 a && byte_in 128 143 b).
Definition rune_error : string :=
  String (ascii_of_N 239) (String (ascii_of_N 191) (String (ascii_of_N 189) "")).

Fixpoint to_valid_utf8 (s : string) : string :=
  match s with
  | EmptyString => ""
  | String a s1 =>
      if byte_in 0 127 a then String a (to_valid_utf8 s1) else
      match s1 with
      | String b s2 =>
          if lead2 a b then String a (String b (to_valid_utf8 s2)) else
          match s2 with
          | String c s3 =>
              if lead3 a b && cont c then String a (String b (String c (to_valid_utf8 s3))) else
              match s3 with
              | String d s4 =>
                  if lead4 a b && cont c && cont d
                  then String a (String b (String c (String d (to_valid_utf8 s4))))
                  else rune_error +:+ to_valid_utf8 s1
              | EmptyString => rune_error +:+ to_valid_utf8 s1
              end
          | EmptyString => rune_error +:+ to_valid_utf8 s1
          end
      | EmptyString => rune_error +:+ to_valid_utf8 s1
      end
  end.
Definition utf8_ok (s : string) : Prop := to_valid_utf8 s = s.
#[export] Instance utf8_ok_dec s : Decision (utf8_ok s).
Proof. unfold utf8_ok. apply _. Defined.

(** The length of the text of a string literal: control characters, quotes,
    backslashes, and the characters HTML and JavaScript treat specially (less
    than, greater than, ampersand, U+2028, U+2029) are escaped. *)
Definition escaped_len (a : ascii) : Z :=
  let n := N_of_ascii a in
  if ((n =? 34) || (n =? 92) || (n =? 8) || (n =? 9) || (n =? 10) || (n =? 12) || (n =? 13))%N then 2
  else if ((n <? 32) || (n =? 60) || (n =? 62) || (n =? 38))%N then 6
  else 1.
Fixpoint string_body_len (s : string) : Z :=
  match s with
  | EmptyString => 0
  | String a s1 =>
      match s1 with
      | String b (String c s3) =>
          if byte_in 226 226 a && byte_in 128 128 b && byte_in 168 169 c
          then (6 + string_body_len s3)%Z
          else (escaped_len a + string_body_len s1)%Z
      | _ => (escaped_len a + string_body_len s1)%Z
      end
  end.
Definition string_lit_len (s : string) : Z := (2 + string_body_len s)%Z.
(** The length of a comma-separated sequence between two brackets. *)
Definition seq_len (ls : list Z) : Z :=
  (2 + foldr Z.add 0 ls + Z.of_nat (pred (length ls)))%Z.
Fixpoint json_len (j : json) : Z :=
  match j with
  | JNull => 4
  | JBool true => 4
  | JBool false => 5
  | JNum lit => Z.of_nat (String.length lit)
  | JStr s => string_lit_len s
  | JArr l => seq_len (map json_len l)
  | JObj o => seq_len (map (λ p, match p with (k, v) => string_lit_len k + 1 + json_len v end)%Z o)
  end.

(** ** The codec of a Go type

    [is_empty] is what [omitempty] tests, [enc] is [Marshal], [dec j x] is
    [Unmarshal] of [j] into a variable that holds [x]: the value stored and
    whether no error is reported. *)
Class Wire (A : Type) := {
  zero : A;
  is_empty : A → bool;
  enc : A → json;
  dec : json → A → A * bool;
  wire_ok : A → Prop;       (* the values JSON can carry *)
}.
Class WireLaws (A : Type) `{Wire A} : Prop := {
  is_empty_zero x : is_empty x = true → x = zero;
  dec_enc x : wire_ok x → dec (enc x) zero = (x, true);
}.

#[export] Instance wire_string : Wire string := {|
  zero := "";
  is_empty s := bool_decide (s = "");
  enc s := JStr (to_valid_utf8 s);
  dec j s := match j with JStr t => (t, true) | JNull => (s, true) | _ => (s, false) end;
  wire_ok s := utf8_ok s;
|}.
#[export] Instance wire_bool : Wire bool := {|
  zero := false;
  is_empty b := negb b;
  enc b := JBool b;
  dec j b := match j with JBool c => (c, true) | JNull => (b, true) | _ => (b, false) end;
  wire_ok _ := True;
|}.
(** [int64]. *)
#[export] Instance wire_Z : Wire Z := {|
  zero := 0%Z;
  is_empty n := bool_decide (n = 0%Z);
  enc n := JNum (Itoa n);
  dec j n := match j with
             | JNum lit => match Atoi lit with Some m => (m, true) | None => (n, false) end
             | JNull => (n, true)
             | _ => (n, false)
             end;
  wire_ok n := int64_ok n;
|}.

(** [map[string]string]: keys are written in increasing order. *)
Definition by_key {V} (m : gmap string V) : list (string * V) :=
  merge_sort (key_le fst) (map_to_list m).
Definition dec_entry (acc : gmap string string * bool) (p : string * json) : gmap string string * bool :=
  let '(v, ok) := dec p.2 "" in (<[p.1 := v]> acc.1, acc.2 && ok).
#[export] Instance wire_strmap : Wire (gmap string string) := {|
  zero := ∅;
  is_empty m := bool_decide (m = ∅);
  enc m := JObj ((λ p, (to_valid_utf8 p.1, enc p.2)) <$> by_key m);
  dec j m := match j with
             | JObj o => foldl dec_entry (m, true) o
             | JNull => (∅, true)
             | _ => (m, false)
             end;
  wire_ok m := map_Forall (λ k v, utf8_ok k ∧ utf8_ok v) m;
|}.

(** Slices and pointers. *)
Definition dec_item {A} `{Wire A} (acc : list A * bool) (j : json) : list A * bool :=
  let '(v, ok) := dec j zero in (acc.1 ++ [v], acc.2 && ok).
#[export] Instance wire_list {A} `{Wire A} : Wire (list A) := {|
  zero := [];
  is_empty l := match l with [] => true | _ => false end;
  enc l := JArr (map enc l);
  dec j l := match j with
             | JArr js => foldl dec_item ([], true) js
             | JNull => ([], true)
             | _ => (l, false)
             end;
  wire_ok l := Forall wire_ok l;
|}.
#[export] Instance wire_option {A} `{Wire A} : Wire (option A) := {|
  zero := None;
  is_empty o := match o with None => true | Some _ => false end;
  enc o := match o with None => JNull | Some x => enc x end;
  dec j o := match j with
             | JNull => (None, true)
             | _ => let '(x, ok) := dec j (default zero o) in (Some x, ok)
             end;
  wire_ok o := match o with None => True | Some x => wire_ok x end;
|}.

(** ** Structs

    A field is written under its tag, with [omitempty] only when not empty; it is
    read from every entry of the object whose key is the tag, in order. *)
Definition fld {A} `{Wire A} (n : string) (x : A) : string * option json := (n, Some (enc x)).
Definition fldo {A} `{Wire A} (n : string) (x : A) : string * option json :=
  (n, if is_empty x then None else Some (enc x)).
Definition emit (fs : list (string * option json)) : list (string * json) :=
  omap (λ p, pair p.1 <$> p.2) fs.
Fixpoint field_vals (n : string) (o : list (string * json)) : list json :=
  match o with
  | [] => []
  | (k, j) :: o' => if equal_fold k n then j :: field_vals n o' else field_vals n o'
  end.
Definition dec_vals {A} `{Wire A} (js : list json) (x : A) : A * bool :=
  foldl (λ acc j, let '(y, ok) := dec j acc.1 in (y, acc.2 && ok)) (x, true) js.
Definition dec_field {A} `{Wire A} (n : string) (o : list (string * json)) (x : A) : A * bool :=
  dec_vals (field_vals n o) x.
(** A struct is read from an object; [null] leaves it alone. *)
Definition dec_obj {A} (f : list (string * json) → A → A * bool) (j : json) (x : A) : A * bool :=
  match j with JObj o => f o x | JNull => (x, true) | _ => (x, false) end.

(** ** Laws *)

#[export] Instance wire_laws_string : WireLaws string.
Proof.
  split; simpl.
  - intros x. apply bool_decide_eq_true.
  - unfold utf8_ok. by intros x ->.
Qed.
#[export] Instance wire_laws_bool : WireLaws bool.
Proof. split; [by intros []|done]. Qed.
#[export] Instance wire_laws_Z : WireLaws Z.
Proof.
  split; simpl.
  - intros x. apply bool_decide_eq_true.
  - intros x Hx. by rewrite Atoi_Itoa.
Qed.

Lemma by_key_perm {V} (m : gmap string V) : by_key m ≡ₚ map_to_list m.
Proof. apply merge_sort_Permutation. Qed.
Lemma by_key_NoDup {V} (m : gmap string V) : NoDup (by_key m).*1.
Proof. rewrite by_key_perm. apply NoDup_fst_map_to_list. Qed.
Lemma by_key_to_map {V} (m : gmap string V) : list_to_map (by_key m) = m.
Proof.
  etrans; [|apply list_to_map_to_list].
  apply list_to_map_proper; [apply by_key_NoDup|apply by_key_perm].
Qed.

Lemma dec_entries (l : list (string * string)) m :
  NoDup l.*1 → Forall (λ p, utf8_ok p.1 ∧ utf8_ok p.2) l →
  foldl dec_entry (m, true) ((λ p, (to_valid_utf8 p.1, enc p.2)) <$> l) = (list_to_map l ∪ m, true).
Proof.
  revert m. induction l as [|[k v] l IH]; intros m; simpl; intros Hnd Hok.
  { by rewrite map_empty_union. }
  apply NoDup_cons in Hnd as [Hk Hnd]. apply Forall_cons in Hok as [[Hk' Hv] Hok].
  simpl in *. unfold dec_entry at 2. simpl. rewrite Hk', Hv, IH by done. f_equal.
  rewrite <-insert_union_r, insert_union_l; [done|]. by apply not_elem_of_list_to_map_1.
Qed.

#[export] Instance wire_laws_strmap : WireLaws (gmap string string).
Proof.
  split; simpl.
  - intros m. apply bool_decide_eq_true.
  - intros m Hm. rewrite dec_entries, by_key_to_map, map_union_empty; [done|apply by_key_NoDup|].
    rewrite by_key_perm. apply map_Forall_to_list in Hm. by eapply Forall_impl; [|intros []].
Qed.

#[export] Instance wire_laws_list {A} `{WireLaws A} : WireLaws (list A).
Proof.
  split; simpl.
  - by intros [].
  - intros l Hl. assert (∀ acc, foldl dec_item (acc, true) (map enc l) = (acc ++ l, true)) as ->; [|done].
    induction Hl as [|x l Hx _ IH]; intros acc; simpl; [by rewrite app_nil_r|].
    unfold dec_item at 2. rewrite dec_enc by done. simpl. by rewrite IH, <-app_assoc.
Qed.

(** A pointer is written as its target, which must then not be read back as nil. *)
Class WireStruct (A : Type) `{Wire A} : Prop := enc_not_null x : enc x ≠ JNull.
#[export] Instance wire_laws_option {A} `{WireLaws A} `{!WireStruct A} : WireLaws (option A).
Proof.
  split; simpl.
  - by intros [].
  - intros [x|] Hx; simpl; [|done]. rewrite dec_enc by done.
    by destruct (enc x) eqn:He; [destruct (enc_not_null x)|..].
Qed.

(** Tags that no two fields share, case folded. *)
Definition tags_ok (ks : list string) : bool := bool_decide (NoDup (to_lower <$> ks)).

Lemma field_vals_none n fs :
  to_lower n ∉ to_lower <$> fs.*1 → field_vals n (emit fs) = [].
Proof.
  induction fs as [|[k [j|]] fs IH]; simpl; [done|..]; rewrite not_elem_of_cons; intros [Hk Hn];
    [|by apply IH].
  unfold equal_fold. rewrite bool_decide_eq_false_2 by congruence. by apply IH.
Qed.

Lemma field_vals_emit n oj fs :
  tags_ok fs.*1 = true → (n, oj) ∈ fs → field_vals n (emit fs) = option_list oj.
Proof.
  intros Hnd%bool_decide_eq_true. induction fs as [|[k o] fs IH]; intros Hin.
  { by apply elem_of_nil in Hin. }
  simpl in Hnd. apply NoDup_cons in Hnd as [Hk Hnd].
  apply elem_of_cons in Hin as [[= -> ->]|Hin].
  - destruct o as [j|]; simpl; unfold equal_fold; [|by apply field_vals_none].
    by rewrite bool_decide_eq_true_2, field_vals_none.
  - assert (to_lower k ≠ to_lower n).
    { intros Heq. apply Hk. rewrite Heq. apply list_elem_of_fmap. exists n. split; [done|].
      apply list_elem_of_fmap. by exists (n, oj). }
    destruct o as [j|]; simpl; unfold equal_fold; rewrite ?bool_decide_eq_false_2 by done;
      by apply IH.
Qed.

Section fields.
  Context {A : Type} `{WireLaws A}.
  Implicit Types x : A.

Lemma dec_field_fld n x fs :
  tags_ok fs.*1 = true → fld n x ∈ fs → wire_ok x → dec_field n (emit fs) zero = (x, true).
Proof.
  intros Hnd Hin Hx. unfold dec_field. rewrite (field_vals_emit n (Some (enc x)) fs) by done.
  unfold dec_vals. simpl. by rewrite dec_enc.
Qed.
Lemma dec_field_fldo n x fs :
  tags_ok fs.*1 = true → fldo n x ∈ fs → wire_ok x → dec_field n (emit fs) zero = (x, true).
Proof.
  unfold fldo. destruct (is_empty x) eqn:He; [|by apply dec_field_fld].
  intros Hnd Hin Hx. unfold dec_field. rewrite (field_vals_emit n None fs) by done.
  apply is_empty_zero in He. by subst.
Qed.
End fields.

(** The codec of a struct from its parts. *)
Definition struct_wire {A} (z : A) (fields : A → list (string * option json))
    (read : list (string * json) → A → A * bool) (ok : A → Prop) : Wire A := {|
  zero := z;
  is_empty _ := false;
  enc x := JObj (emit (fields x));
  dec := dec_obj read;
  wire_ok := ok;
|}.

Lemma struct_laws {A} (z : A) fields read ok :
  (∀ x, ok x → read (emit (fields x)) z = (x, true)) → @WireLaws A (struct_wire z fields read ok).
Proof. intros Hrt. split; [done|]. exact Hrt. Qed.
Lemma struct_not_null {A} (z : A) fields read ok : @WireStruct A (struct_wire z fields read ok).
Proof. by intros x. Qed.

(** [wire_fields] reads a struct back field by field. *)
Ltac in_fields := first [apply list_elem_of_here | apply list_elem_of_further; in_fields].
Ltac wire_fields :=
  lazymatch goal with
  | |- context [emit ?fs] =>
      let Ht := fresh "Ht" in
      assert (tags_ok fs.*1 = true) as Ht by (vm_compute; reflexivity);
      intros Hx;
      repeat (first [erewrite dec_field_fld; [|exact Ht|in_fields|tauto]
                    |erewrite dec_field_fldo; [|exact Ht|in_fields|tauto]]; cbv beta iota);
      reflexivity
  end.
