(* ===== verification/JsonText.v ===== *)
(** * The text of a JSON document (encoding/json)

    [print] is what [json.Marshal] writes for a value: no spaces, HTML characters
    and line separators escaped.  [parse] is the syntax [json.Unmarshal] accepts,
    escapes and surrogate pairs included; the limit of 10 000 nested values is not
    modelled.  [parse_print] is the round trip between them. *)
From Stdlib Require Import Ascii.
From S2P Require Import Prelude GoStrings Json.

Definition byte (n : N) : ascii := ascii_of_N n.
Definition dquote : ascii := byte 34.
Definition backslash : ascii := byte 92.
Definition of_char (a : ascii) : string := String a "".

Module jsontext.

(** ** Writing *)
Definition hex_char (n : N) : ascii := if (n <? 10)%N then byte (48 + n) else byte (87 + n).
Definition u00 (a : ascii) : string :=
  String backslash ("u00" +:+ String (hex_char (N_of_ascii a / 16)) (of_char (hex_char (N_of_ascii a mod 16)))).
Definition escape (a : ascii) : string :=
  let n := N_of_ascii a in
  if ((n =? 34) || (n =? 92))%N then String backslash (of_char a)
  else if (n =? 8)%N then String backslash "b"
  else if (n =? 12)%N then String backslash "f"
  else if (n =? 10)%N then String backslash "n"
  else if (n =? 13)%N then String backslash "r"
  else if (n =? 9)%N then String backslash "t"
  else if ((n <? 32) || (n =? 60) || (n =? 62) || (n =? 38))%N then u00 a
  else of_char a.
(** U+2028 and U+2029. *)
Definition separator (a b c : ascii) : bool := byte_in 226 226 a && byte_in 128 128 b && byte_in 168 169 c.
Fixpoint quote_body (s : string) : string :=
  match s with
  | EmptyString => ""
  | String a s1 =>
      match s1 with
      | String b (String c s3) =>
          if separator a b c
          then String backslash ("u202" +:+ String (hex_char (N_of_ascii c - 160)) (quote_body s3))
          else escape a +:+ quote_body s1
      | _ => escape a +:+ quote_body s1
      end
  end.
Definition quote (s : string) : string := String dquote (quote_body s +:+ of_char dquote).
Fixpoint print (j : json) : string :=
  match j with
  | JNull => "null"
  | JBool b => if b then "true" else "false"
  | JNum lit => lit
  | JStr s => quote s
  | JArr l => "[" +:+ join "," (map print l) +:+ "]"
  | JObj o => "{" +:+ join "," (map (λ p, match p with (k, v) => quote k +:+ ":" +:+ print v end) o) +:+ "}"
  end.

(** ** Reading: strings *)
Definition hex_val (a : ascii) : option N :=
  let n := N_of_ascii a in
  if ((48 <=? n) && (n <=? 57))%N then Some (n - 48)%N
  else if ((97 <=? n) && (n <=? 102))%N then Some (n - 87)%N
  else if ((65 <=? n) && (n <=? 70))%N then Some (n - 55)%N
  else None.
Definition hex4 (a b c d : ascii) : option N :=
  match hex_val a, hex_val b, hex_val c, hex_val d with
  | Some x, Some y, Some z, Some w => Some (((x * 16 + y) * 16 + z) * 16 + w)%N
  | _, _, _, _ => None
  end.
Definition encode_rune (r : N) : string :=
  if (r <? 128)%N then of_char (byte r)
  else if (r <? 2048)%N then String (byte (192 + r / 64)) (of_char (byte (128 + r mod 64)))
  else if (r <? 65536)%N
  then String (byte (224 + r / 4096)) (String (byte (128 + r / 64 mod 64)) (of_char (byte (128 + r mod 64))))
  else String (byte (240 + r / 262144)) (String (byte (128 + r / 4096 mod 64))
         (String (byte (128 + r / 64 mod 64)) (of_char (byte (128 + r mod 64))))).
Definition surrogate (r : N) : bool := ((55296 <=? r) && (r <? 57344))%N.
(** [utf16.DecodeRune]. *)
Definition pair_rune (r r2 : N) : option N :=
  if ((r <? 56320) && (56320 <=? r2) && (r2 <? 57344))%N
  then Some ((r - 55296) * 1024 + (r2 - 56320) + 65536)%N else None.
Definition short_escape (a : ascii) : option ascii :=
  let n := N_of_ascii a in
  if ((n =? 34) || (n =? 92) || (n =? 47))%N then Some a
  else if (n =? 98)%N then Some (byte 8)
  else if (n =? 102)%N then Some (byte 12)
  else if (n =? 110)%N then Some (byte 10)
  else if (n =? 114)%N then Some (byte 13)
  else if (n =? 116)%N then Some (byte 9)
  else None.
(** The low half that follows a high surrogate, if there is one. *)
Definition low_half (r : N) (s : string) : option (N * string) :=
  match s with
  | String e (String u (String g1 (String g2 (String g3 (String g4 s'))))) =>
      if bool_decide (e = backslash) && bool_decide (u = "u"%char) then
        match hex4 g1 g2 g3 g4 with
        | Some r2 => (λ p, (p, s')) <$> pair_rune r r2
        | None => None
        end
      else None
  | _ => None
  end.
Definition prepend (p : string) (r : option (string * string)) : option (string * string) :=
  (λ q, (p +:+ q.1, q.2)) <$> r.
(** The contents of a literal up to its closing quote, and the rest. *)
Fixpoint unquote (s : string) : option (string * string) :=
  match s with
  | EmptyString => None
  | String a s1 =>
      if bool_decide (a = dquote) then Some ("", s1)
      else if bool_decide (a = backslash) then
        match s1 with
        | String b s2 =>
            if bool_decide (b = "u"%char) then
              match s2 with
              | String h1 (String h2 (String h3 (String h4 s6))) =>
                  match hex4 h1 h2 h3 h4 with
                  | None => None
                  | Some r =>
                      if surrogate r then
                        match low_half r s6 with
                        | Some (p, _) =>
                            match s6 with
                            | String _ (String _ (String _ (String _ (String _ (String _ s12))))) =>
                                prepend (encode_rune p) (unquote s12)
                            | _ => None
                            end
                        | None => prepend rune_error (unquote s6)
                        end
                      else prepend (encode_rune r) (unquote s6)
                  end
              | _ => None
              end
            else match short_escape b with
                 | Some c => prepend (of_char c) (unquote s2)
                 | None => None
                 end
        | EmptyString => None
        end
      else if (N_of_ascii a <? 32)%N then None
      else prepend (of_char a) (unquote s1)
  end.

(** ** Reading: numbers *)
Definition is_digit (a : ascii) : bool := byte_in 48 57 a.
Fixpoint digits (s : string) : string * string :=
  match s with
  | String a s' => if is_digit a then let '(d, r) := digits s' in (String a d, r) else ("", s)
  | EmptyString => ("", "")
  end.
Definition digits1 (s : string) : option (string * string) :=
  let '(d, r) := digits s in if bool_decide (d = "") then None else Some (d, r).
(** The integer part: [0], or digits that do not start with [0]. *)
Definition int_part (s : string) : option (string * string) :=
  match s with
  | String a s' =>
      if bool_decide (a = "0"%char) then Some ("0", s')
      else if is_digit a then Some (digits s) else None
  | EmptyString => None
  end.
Definition frac_part (s : string) : option (string * string) :=
  match s with
  | String a s' => if bool_decide (a = "."%char) then prepend "." (digits1 s') else Some ("", s)
  | EmptyString => Some ("", s)
  end.
Definition exp_part (s : string) : option (string * string) :=
  match s with
  | String a s' =>
      if bool_decide (a = "e"%char) || bool_decide (a = "E"%char) then
        match s' with
        | String b s'' =>
            if bool_decide (b = "+"%char) || bool_decide (b = "-"%char)
            then prepend (String a (of_char b)) (digits1 s'') else prepend (of_char a) (digits1 s')
        | EmptyString => None
        end
      else Some ("", s)
  | EmptyString => Some ("", s)
  end.
Definition seq_parts (p q : string → option (string * string)) (s : string) : option (string * string) :=
  match p s with Some (a, r) => prepend a (q r) | None => None end.
Definition unsigned : string → option (string * string) := seq_parts int_part (seq_parts frac_part exp_part).
Definition number (s : string) : option (string * string) :=
  match s with
  | String a s' => if bool_decide (a = "-"%char) then prepend "-" (unsigned s') else unsigned s
  | EmptyString => None
  end.

(** ** Reading: values *)
Definition is_ws (a : ascii) : bool :=
  let n := N_of_ascii a in ((n =? 32) || (n =? 9) || (n =? 10) || (n =? 13))%N.
Definition skip (s : string) : string := trim_left is_ws s.
Definition str_lit (s : string) : option (string * string) :=
  match s with
  | String a s' =>
      if bool_decide (a = dquote) then (λ q, (to_valid_utf8 q.1, q.2)) <$> unquote s' else None
  | EmptyString => None
  end.
Definition word (w : string) (j : json) (s : string) : option (json * string) :=
  match cut_prefix w s with Some r => Some (j, r) | None => None end.
Definition scalar (s : string) : option (json * string) :=
  match s with
  | String a _ =>
      if bool_decide (a = dquote) then (λ q, (JStr q.1, q.2)) <$> str_lit s
      else if bool_decide (a = "n"%char) then word "null" JNull s
      else if bool_decide (a = "t"%char) then word "true" (JBool true) s
      else if bool_decide (a = "f"%char) then word "false" (JBool false) s
      else (λ q, (JNum q.1, q.2)) <$> number s
  | EmptyString => None
  end.
Definition next (s : string) : option (ascii * string) :=
  match skip s with String a r => Some (a, r) | EmptyString => None end.

(** [elements] reads from the first element of an array that is not empty, [members]
    from the first key of an object; the fuel bounds the bytes read. *)
Fixpoint value (fuel : nat) (s : string) {struct fuel} : option (json * string) :=
  match fuel with
  | O => None
  | S fuel =>
      match next s with
      | Some (a, r) =>
          if bool_decide (a = "["%char) then
            match next r with
            | Some (b, r') => if bool_decide (b = "]"%char) then Some (JArr [], r')
                              else (λ q, (JArr q.1, q.2)) <$> elements fuel r
            | None => None
            end
          else if bool_decide (a = "{"%char) then
            match next r with
            | Some (b, r') => if bool_decide (b = "}"%char) then Some (JObj [], r')
                              else (λ q, (JObj q.1, q.2)) <$> members fuel r
            | None => None
            end
          else scalar (String a r)
      | None => None
      end
  end
with elements (fuel : nat) (s : string) {struct fuel} : option (list json * string) :=
  match fuel with
  | O => None
  | S fuel =>
      match value fuel s with
      | Some (j, r) =>
          match next r with
          | Some (b, r') =>
              if bool_decide (b = ","%char) then (λ q, (j :: q.1, q.2)) <$> elements fuel r'
              else if bool_decide (b = "]"%char) then Some ([j], r') else None
          | None => None
          end
      | None => None
      end
  end
with members (fuel : nat) (s : string) {struct fuel} : option (list (string * json) * string) :=
  match fuel with
  | O => None
  | S fuel =>
      match str_lit (skip s) with
      | Some (k, r0) =>
          match next r0 with
          | Some (c, r1) =>
              if bool_decide (c = ":"%char) then
                match value fuel r1 with
                | Some (j, r) =>
                    match next r with
                    | Some (b, r') =>
                        if bool_decide (b = ","%char) then (λ q, ((k, j) :: q.1, q.2)) <$> members fuel r'
                        else if bool_decide (b = "}"%char) then Some ([(k, j)], r') else None
                    | None => None
                    end
                | None => None
                end
              else None
          | None => None
          end
      | None => None
      end
  end.
Definition parse (s : string) : option json :=
  match value (S (String.length s)) s with
  | Some (j, r) => if bool_decide (skip r = "") then Some j else None
  | None => None
  end.

(** [json.Marshal] and [json.Unmarshal] of a variable that holds its zero value: what
    is stored, and whether no error is reported.  A syntax error stores nothing. *)
Definition Marshal {A} `{Wire A} (x : A) : string := print (enc x).
Definition Unmarshal {A} `{Wire A} (s : string) : A * bool :=
  match parse s with Some j => dec j zero | None => (zero, false) end.
(** [if err := json.Unmarshal(...); err != nil { return ... }]. *)
Definition unmarshal {A} `{Wire A} (s : string) : option A :=
  let '(x, ok) := Unmarshal s in if ok : bool then Some x else None.

(** ** Anonymous structs that are only read

    [one tag A] is [struct { X A `json:tag` }]; a pair has the fields of both. *)
Record one (tag : string) (A : Type) := One { the : A }.
Arguments One {tag A} _.
Arguments the {tag A} _.
Class Fields (A : Type) := {
  no_fields : A;
  read_fields : list (string * json) → A → A * bool;
}.
#[global] Instance fields_one tag {A} `{Wire A} : Fields (one tag A) := {|
  no_fields := One zero;
  read_fields o x := let '(y, ok) := dec_field tag o (the x) in (One y, ok);
|}.
#[global] Instance fields_pair {A B} `{Fields A} `{Fields B} : Fields (A * B) := {|
  no_fields := (no_fields, no_fields);
  read_fields o x :=
    let '(a, k) := read_fields o x.1 in let '(b, l) := read_fields o x.2 in ((a, b), k && l);
|}.
Definition reader {A} `{Fields A} : Wire A := struct_wire no_fields (λ _, []) read_fields (λ _, False).
#[global] Instance wire_one tag {A} `{Wire A} : Wire (one tag A) := reader.
#[global] Instance wire_pair {A B} `{Fields A} `{Fields B} : Wire (A * B) := reader.

(** ** The round trip *)

(** What a document can carry: strings of UTF-8, numbers as JSON writes them. *)
Fixpoint json_ok (j : json) : Prop :=
  match j with
  | JNull | JBool _ => True
  | JNum lit => number lit = Some (lit, "")
  | JStr s => utf8_ok s
  | JArr l => foldr (λ j P, json_ok j ∧ P) True l
  | JObj o => foldr (λ p P, match p with (k, v) => utf8_ok k ∧ json_ok v ∧ P end) True o
  end.

Lemma prepend_app p q r : prepend p (prepend q r) = prepend (p +:+ q) r.
Proof. destruct r as [[a b]|]; simpl; [|done]. by rewrite string_app_assoc. Qed.

Lemma unquote_escape a s : unquote (escape a +:+ s) = prepend (of_char a) (unquote s).
Proof.
  destruct a as [[] [] [] [] [] [] [] []]; cbn -[unquote prepend]; reflexivity.
Qed.
Lemma separator_inv a b c : separator a b c = true →
  a = byte 226 ∧ b = byte 128 ∧ (c = byte 168 ∨ c = byte 169).
Proof.
  unfold separator, byte_in. rewrite !andb_true_iff, !N.leb_le. intros [[[Ha1 Ha2] [Hb1 Hb2]] [Hc1 Hc2]].
  assert (∀ x n, N_of_ascii x = n → x = byte n) as Hinj.
  { intros x n <-. symmetry. apply ascii_N_embedding. }
  split; [apply Hinj; lia|]. split; [apply Hinj; lia|].
  destruct (decide (N_of_ascii c = 168%N)); [left|right]; apply Hinj; lia.
Qed.
Lemma unquote_separator c t : c = byte 168 ∨ c = byte 169 →
  unquote (String backslash ("u202" +:+ String (hex_char (N_of_ascii c - 160)) t)) =
  prepend (String (byte 226) (String (byte 128) (of_char c))) (unquote t).
Proof. intros [-> | ->]; reflexivity. Qed.
Lemma unquote_quote_body s rest :
  unquote (quote_body s +:+ String dquote rest) = Some (s, rest).
Proof.
  induction s as [s IH] using (induction_ltof1 _ String.length). unfold ltof in IH.
  destruct s as [|a s1]; [reflexivity|].
  assert (unquote ((escape a +:+ quote_body s1) +:+ String dquote rest) = Some (String a s1, rest)) as Hplain.
  { rewrite string_app_assoc, unquote_escape, IH by (simpl; lia). reflexivity. }
  destruct s1 as [|b s2]; [done|]. destruct s2 as [|c s3]; [done|].
  cbn [quote_body]. fold quote_body. destruct (separator a b c) eqn:Hsep; [|exact Hplain].
  specialize (IH s3 ltac:(simpl; lia)). clear Hplain.
  apply separator_inv in Hsep as (-> & -> & Hc).
  etrans; [apply (unquote_separator c (quote_body s3 +:+ String dquote rest) Hc)|]. by rewrite IH.
Qed.
Lemma str_lit_quote s rest : utf8_ok s → str_lit (quote s +:+ rest) = Some (s, rest).
Proof.
  intros Hs. unfold quote. rewrite append_cons. cbn [str_lit]. rewrite bool_decide_eq_true_2 by done.
  rewrite string_app_assoc. unfold of_char. rewrite append_cons. change ("" +:+ rest) with rest.
  rewrite unquote_quote_body. simpl. by rewrite Hs.
Qed.

(** A number ends where a byte no number contains starts. *)
Definition num_byte (a : ascii) : bool :=
  is_digit a || bool_decide (a ∈ ["."%char; "e"%char; "E"%char; "+"%char; "-"%char]).
Definition stops (s : string) : bool := match s with String a _ => negb (num_byte a) | EmptyString => true end.
Lemma stops_digit a s : stops (String a s) = true → is_digit a = false.
Proof. unfold stops, num_byte. by destruct (is_digit a). Qed.
Lemma stops_sym a s c : stops (String a s) = true →
  c ∈ ["."%char; "e"%char; "E"%char; "+"%char; "-"%char] → bool_decide (a = c) = false.
Proof.
  unfold stops, num_byte. intros Ha Hc. apply bool_decide_eq_false_2. intros ->.
  rewrite bool_decide_eq_true_2, orb_true_r in Ha by done. done.
Qed.

Lemma digits_app s d r rest : stops rest = true → digits s = (d, r) →
  digits (s +:+ rest) = (d, r +:+ rest).
Proof.
  intros Hrest. revert d r. induction s as [|a s IH]; intros d r; simpl.
  { intros [= <- <-]. destruct rest as [|b rest]; [done|]. simpl. by rewrite (stops_digit b rest). }
  destruct (is_digit a); [|by intros [= <- <-]].
  destruct (digits s) as [d' r']. intros [= <- <-]. by rewrite (IH d' r').
Qed.

(** [p] reads the same before [rest] as at the end of the text. *)
Definition local (p : string → option (string * string)) : Prop :=
  ∀ s a r rest, stops rest = true → p s = Some (a, r) → p (s +:+ rest) = Some (a, r +:+ rest).
Lemma local_digits1 : local digits1.
Proof.
  intros s a r rest Hrest. unfold digits1. destruct (digits s) as [d r'] eqn:Hd.
  rewrite (digits_app _ _ _ _ Hrest Hd). destruct (bool_decide (d = "")); [done|]. by intros [= <- <-].
Qed.
Lemma prepend_Some p q a r : prepend p q = Some (a, r) → ∃ a', q = Some (a', r) ∧ a = p +:+ a'.
Proof. destruct q as [[a' r']|]; simpl; [|done]. intros [= <- <-]. eauto. Qed.
Lemma local_int : local int_part.
Proof.
  intros [|c s] a r rest Hrest; simpl; [done|]. case_bool_decide; [by intros [= <- <-]|].
  destruct (is_digit c); [|done]. intros [= Hd]. destruct (digits s) as [d r'] eqn:Hs.
  rewrite (digits_app _ _ _ _ Hrest Hs). injection Hd as <- <-. reflexivity.
Qed.
Lemma local_frac : local frac_part.
Proof.
  intros [|c s] a r rest Hrest; simpl.
  { intros [= <- <-]. destruct rest as [|b rest]; [done|]. simpl.
    by rewrite (stops_sym b rest) by (done || set_solver). }
  case_bool_decide; [|by intros [= <- <-]].
  intros (d & Hd & ->)%prepend_Some. by rewrite (local_digits1 _ _ _ _ Hrest Hd).
Qed.
Lemma local_exp : local exp_part.
Proof.
  intros [|c s] a r rest Hrest; simpl.
  { intros [= <- <-]. destruct rest as [|b rest]; [done|]. simpl.
    by rewrite !(stops_sym b rest) by (done || set_solver). }
  destruct (_ || _) eqn:He; [|by intros [= <- <-]].
  destruct s as [|b s]; simpl; [done|].
  destruct (bool_decide (b = "+"%char) || _) eqn:Hb; intros (d & Hd & ->)%prepend_Some.
  - by rewrite (local_digits1 _ _ _ _ Hrest Hd).
  - pose proof (local_digits1 _ _ _ _ Hrest Hd) as Hd'. simpl in Hd'. by rewrite Hd'.
Qed.
Lemma local_seq p q : local p → local q → local (seq_parts p q).
Proof.
  intros Hp Hq s a r rest Hrest. unfold seq_parts. destruct (p s) as [[b r']|] eqn:Hps; [|done].
  rewrite (Hp _ _ _ _ Hrest Hps). intros (d & Hd & ->)%prepend_Some.
  by rewrite (Hq _ _ _ _ Hrest Hd).
Qed.
Lemma local_unsigned : local unsigned.
Proof. apply local_seq; [apply local_int|apply local_seq; [apply local_frac|apply local_exp]]. Qed.
Lemma local_number : local number.
Proof.
  intros [|c s] a r rest Hrest; [done|]. rewrite append_cons. cbn [number]. case_bool_decide.
  - intros (d & Hd & ->)%prepend_Some. by rewrite (local_unsigned _ _ _ _ Hrest Hd).
  - apply (local_unsigned (String c s) a r rest Hrest).
Qed.

Section json_ind.
  Context (P : json → Prop) (Hnull : P JNull) (Hbool : ∀ b, P (JBool b)) (Hnum : ∀ l, P (JNum l)) (Hstr : ∀ s, P (JStr s))
    (Harr : ∀ l, Forall P l → P (JArr l)) (Hobj : ∀ o, Forall (λ p, P p.2) o → P (JObj o)).
Fixpoint json_strong (j : json) : P j :=
  match j with
  | JNull => Hnull
  | JBool b => Hbool b
  | JNum l => Hnum l
  | JStr s => Hstr s
  | JArr l => Harr l ((fix go l := match l return Forall P l with
      | [] => List.Forall_nil _
      | j :: l => List.Forall_cons _ _ _ (json_strong j) (go l)
      end) l)
  | JObj o => Hobj o ((fix go o := match o return Forall (λ p, P p.2) o with
      | [] => List.Forall_nil _
      | p :: o => List.Forall_cons _ _ _ (json_strong p.2) (go o)
      end) o)
  end.
End json_ind.

Lemma stops_delim (a : ascii) (s : string) : a ∈ [","%char; "]"%char; "}"%char] → stops (String a s) = true.
Proof. rewrite !elem_of_cons, elem_of_nil. by intros [-> | [-> | [-> | []]]]. Qed.
(** A value's text starts with a byte that is neither space nor a closing bracket. *)
Definition starts (a : ascii) : bool :=
  negb (is_ws a) && negb (bool_decide (a ∈ ["]"%char; "}"%char; ","%char; ":"%char])).
Lemma number_starts lit r : number lit = Some r → ∃ a s, lit = String a s ∧ starts a = true ∧
  a ≠ "["%char ∧ a ≠ "{"%char ∧ a ≠ dquote ∧ a ≠ "n"%char ∧ a ≠ "t"%char ∧ a ≠ "f"%char.
Proof.
  destruct lit as [|a s]; simpl; [done|]. intros Hn. exists a, s. split; [done|].
  assert (a = "-"%char ∨ is_digit a = true) as Ha.
  { revert Hn. case_bool_decide; [by left|]. unfold unsigned, seq_parts, int_part.
    case_bool_decide; [subst; by right|]. destruct (is_digit a); [by right|done]. }
  clear Hn. destruct Ha as [-> |Ha]; [done|].
  destruct a as [[] [] [] [] [] [] [] []]; vm_compute in Ha; try discriminate Ha; done.
Qed.
Lemma print_starts j : json_ok j → ∃ a s, print j = String a s ∧ starts a = true.
Proof.
  destruct j as [|[]|lit|s|l|o]; simpl; intros Hj; try by eexists _, _.
  destruct (number_starts lit _ Hj) as (a & s & -> & Ha & _). by exists a, s.
Qed.
Lemma next_starts a s : starts a = true → next (String a s) = Some (a, s).
Proof. unfold starts, next, skip. simpl. by destruct (is_ws a). Qed.
Lemma starts_not a c : starts a = true → c ∈ ["]"%char; "}"%char; ","%char; ":"%char] → bool_decide (a = c) = false.
Proof.
  unfold starts. rewrite andb_true_iff, !negb_true_iff. intros [_ Ha%bool_decide_eq_false_1] Hc.
  apply bool_decide_eq_false_2. by intros ->.
Qed.
Lemma value_scalar fuel a r : is_ws a = false → a ≠ "["%char → a ≠ "{"%char →
  value (S fuel) (String a r) = scalar (String a r).
Proof.
  intros Hw H1 H2. cbn [value]. unfold next, skip. cbn [trim_left]. rewrite Hw.
  by rewrite !bool_decide_eq_false_2.
Qed.
Lemma scalar_number lit rest : number lit = Some (lit, "") → stops rest = true →
  ∀ fuel, value (S fuel) (lit +:+ rest) = Some (JNum lit, rest).
Proof.
  intros Hlit Hrest. destruct (number_starts lit _ Hlit) as (a & s & Heq & Ha & H1 & H2 & H3 & H4 & H5 & H6).
  pose proof (local_number _ _ _ _ Hrest Hlit) as Hn. subst lit. rewrite append_cons in *.
  intros fuel. rewrite value_scalar; [|unfold starts in Ha; by destruct (is_ws a)|done..]. unfold scalar.
  rewrite !bool_decide_eq_false_2 by done. by rewrite Hn.
Qed.

(** The text of a list of parts, and what is read back from it. *)
Lemma join_first {A} (f : A → string) x l :
  join "," (map f (x :: l)) = f x +:+ match l with [] => "" | _ => "," +:+ join "," (map f l) end.
Proof. destruct l; [by rewrite string_app_nil_r|done]. Qed.

Definition reads (j : json) : Prop := ∀ fuel rest, json_ok j → stops rest = true →
  String.length (print j) ≤ fuel → value fuel (print j +:+ rest) = Some (j, rest).

Lemma print_length j : json_ok j → 1 ≤ String.length (print j).
Proof. intros Hj. destruct (print_starts j Hj) as (a & s & -> & _). simpl. lia. Qed.

Lemma next_now a r : is_ws a = false → next (String a r) = Some (a, r).
Proof. unfold next, skip. simpl. by intros ->. Qed.
Lemma elements_step fuel s j b r :
  value fuel s = Some (j, String b r) → is_ws b = false →
  elements (S fuel) s = if bool_decide (b = ","%char) then (λ q, (j :: q.1, q.2)) <$> elements fuel r
                        else if bool_decide (b = "]"%char) then Some ([j], r) else None.
Proof.
  intros Hv Hb. change (elements (S fuel) s) with (match value fuel s with
    | Some (j, r) => match next r with
      | Some (b, r') => if bool_decide (b = ","%char) then (λ q, (j :: q.1, q.2)) <$> elements fuel r'
                        else if bool_decide (b = "]"%char) then Some ([j], r') else None
      | None => None end
    | None => None end). rewrite Hv, next_now by done. done.
Qed.
Lemma members_step fuel k s j b r : utf8_ok k →
  value fuel s = Some (j, String b r) → is_ws b = false →
  members (S fuel) (quote k +:+ String ":" s) =
    if bool_decide (b = ","%char) then (λ q, ((k, j) :: q.1, q.2)) <$> members fuel r
    else if bool_decide (b = "}"%char) then Some ([(k, j)], r) else None.
Proof.
  intros Hk Hv Hb. change (members (S fuel) (quote k +:+ String ":" s)) with
    (match str_lit (quote k +:+ String ":" s) with
     | Some (k, r0) => match next r0 with
       | Some (c, r1) => if bool_decide (c = ":"%char) then
           match value fuel r1 with
           | Some (j, r) => match next r with
             | Some (b, r') => if bool_decide (b = ","%char) then (λ q, ((k, j) :: q.1, q.2)) <$> members fuel r'
                               else if bool_decide (b = "}"%char) then Some ([(k, j)], r') else None
             | None => None end
           | None => None end else None
       | None => None end
     | None => None end).
  rewrite str_lit_quote, next_now by done. rewrite bool_decide_eq_true_2 by done. rewrite Hv, next_now by done. done.
Qed.

Lemma elements_print j l fuel rest :
  Forall reads (j :: l) → json_ok (JArr (j :: l)) →
  String.length (join "," (map print (j :: l))) < fuel →
  elements fuel (join "," (map print (j :: l)) +:+ String "]" rest) = Some (j :: l, rest).
Proof.
  revert j fuel. induction l as [|j' l IH]; intros j fuel HF Hok Hfuel;
    (destruct fuel as [|fuel]; [lia|]); apply Forall_cons in HF as [Hj HF]; destruct Hok as [Hok Hokl];
    pose proof (print_length _ Hok) as Hlen; rewrite join_first in *.
  - rewrite string_app_nil_r in *. by erewrite elements_step; [|apply Hj; [done|done|lia]|].
  - rewrite !length_append in Hfuel. simpl String.length in Hfuel at 2.
    rewrite !string_app_assoc. erewrite elements_step; [|apply Hj; [done|done|lia]|done].
    rewrite bool_decide_eq_true_2, IH by (done || lia). done.
Qed.
Definition member (p : string * json) : string := match p with (k, v) => quote k +:+ ":" +:+ print v end.
Lemma member_length k j : String.length (print j) < String.length (member (k, j)).
Proof. unfold member. rewrite !length_append. simpl. lia. Qed.
Lemma member_app k j rest : member (k, j) +:+ rest = quote k +:+ String ":" (print j +:+ rest).
Proof. unfold member. by rewrite !string_app_assoc. Qed.
Lemma members_print p o fuel rest :
  Forall (λ p, reads p.2) (p :: o) → json_ok (JObj (p :: o)) →
  String.length (join "," (map member (p :: o))) < fuel →
  members fuel (join "," (map member (p :: o)) +:+ String "}" rest) = Some (p :: o, rest).
Proof.
  revert p fuel. induction o as [|p' o IH]; intros [k j] fuel HF Hok Hfuel;
    (destruct fuel as [|fuel]; [lia|]); apply Forall_cons in HF as [Hj HF]; destruct Hok as (Hk & Hok & Hokl);
    pose proof (print_length _ Hok) as Hlen; pose proof (member_length k j) as Hm; change (reads j) in Hj; rewrite join_first in *.
  - rewrite string_app_nil_r in *. rewrite member_app.
    etrans; [by eapply members_step; [done|apply Hj; [done|done|lia]|]|done].
  - rewrite !length_append in Hfuel. simpl (String.length ",") in Hfuel.
    rewrite !string_app_assoc, member_app. etrans; [by eapply members_step; [done|apply Hj; [done|done|lia]|]|].
    rewrite bool_decide_eq_true_2, IH by (done || lia). done.
Qed.

Lemma value_array fuel a s : starts a = true →
  value (S fuel) (String "[" (String a s)) = (λ q, (JArr q.1, q.2)) <$> elements fuel (String a s).
Proof.
  intros Ha. change (value (S fuel) (String "[" (String a s))) with
    (match next (String a s) with
     | Some (b, r') => if bool_decide (b = "]"%char) then Some (JArr [], r')
                       else (λ q, (JArr q.1, q.2)) <$> elements fuel (String a s)
     | None => None end).
  rewrite next_starts by done. by rewrite (starts_not a) by (done || set_solver).
Qed.
Lemma value_object fuel a s : starts a = true →
  value (S fuel) (String "{" (String a s)) = (λ q, (JObj q.1, q.2)) <$> members fuel (String a s).
Proof.
  intros Ha. change (value (S fuel) (String "{" (String a s))) with
    (match next (String a s) with
     | Some (b, r') => if bool_decide (b = "}"%char) then Some (JObj [], r')
                       else (λ q, (JObj q.1, q.2)) <$> members fuel (String a s)
     | None => None end).
  rewrite next_starts by done. by rewrite (starts_not a) by (done || set_solver).
Qed.
Lemma value_print j : reads j.
Proof.
  induction j as [|b|lit|s|l HF|o HF] using json_strong; intros fuel rest Hok Hrest Hfuel;
    (destruct fuel as [|fuel]; [pose proof (print_length _ Hok); lia|]).
  - done.
  - by destruct b.
  - by apply scalar_number.
  - pose proof (str_lit_quote s rest Hok) as Hq.
    change (print (JStr s) +:+ rest) with (String dquote ((quote_body s +:+ of_char dquote) +:+ rest)).
    rewrite value_scalar by done. unfold scalar. rewrite bool_decide_eq_true_2 by done.
    change (String dquote _) with (quote s +:+ rest). by rewrite Hq.
  - destruct l as [|j l]; [done|]. cbn [print] in *. rewrite !length_append in Hfuel. change (String.length "[") with 1 in Hfuel.
    change (String.length "]") with 1 in Hfuel.
    pose proof (elements_print j l fuel rest HF Hok ltac:(lia)) as He.
    assert (∃ a s, join "," (map print (j :: l)) +:+ String "]" rest = String a s ∧ starts a = true) as (a & s & Hs & Ha).
    { destruct (print_starts j (proj1 Hok)) as (a & s & Hp & Ha). rewrite join_first, Hp. by eexists _, _. }
    rewrite !string_app_assoc. change ("[" +:+ _ +:+ "]" +:+ rest) with (String "[" (join "," (map print (j :: l)) +:+ String "]" rest)).
    rewrite Hs in *. by rewrite value_array, He.
  - destruct o as [|p o]; [done|].
    change (print (JObj (p :: o))) with ("{" +:+ join "," (map member (p :: o)) +:+ "}") in *. rewrite !length_append in Hfuel. change (String.length "{") with 1 in Hfuel.
    change (String.length "}") with 1 in Hfuel.
    pose proof (members_print p o fuel rest HF Hok ltac:(lia)) as He.
    assert (∃ a s, join "," (map member (p :: o)) +:+ String "}" rest = String a s ∧ starts a = true) as (a & s & Hs & Ha).
    { rewrite join_first. destruct p as [k v]. by eexists _, _. }
    rewrite !string_app_assoc. change ("{" +:+ _ +:+ "}" +:+ rest) with (String "{" (join "," (map member (p :: o)) +:+ String "}" rest)).
    rewrite Hs in *. by rewrite value_object, He.
Qed.

(** What [json.Marshal] writes, [json.Unmarshal] reads back. *)
Lemma parse_print j : json_ok j → parse (print j) = Some j.
Proof.
  intros Hj. unfold parse. pose proof (value_print j (S (String.length (print j))) "" Hj eq_refl ltac:(lia)) as Hv.
  rewrite string_app_nil_r in Hv. by rewrite Hv.
Qed.

(** A value the codec can carry survives the text. *)
Lemma unmarshal_Marshal {A} `{WireLaws A} (x : A) : wire_ok x → json_ok (enc x) → unmarshal (Marshal x) = Some x.
Proof. intros Hx Hj. unfold unmarshal, Unmarshal, Marshal. by rewrite parse_print, dec_enc. Qed.

(** [json.RawMessage]: a value kept as it is, to be decoded later. *)
Record RawMessage := mkRaw { raw_json : option json }.
#[global] Instance wire_raw : Wire RawMessage := {|
  zero := mkRaw None;
  is_empty x := match raw_json x with None => true | Some _ => false end;
  enc x := default JNull (raw_json x);
  dec j _ := (mkRaw (Some j), true);
  wire_ok x := is_Some (raw_json x);
|}.

(** Documents as the tools write them. *)
Definition qt (s : string) : string := String dquote (s +:+ of_char dquote).
Example reads_spaces : parse (" { " +:+ qt "a" +:+ " : [ 1 , -2.5e3 , null , true ] } ") =
  Some (JObj [("a", JArr [JNum "1"; JNum "-2.5e3"; JNull; JBool true])]).
Proof. vm_compute. reflexivity. Qed.
Example reads_surrogates : parse (qt ("\ud83d\ude00" +:+ "\ud800x")) =
  Some (JStr (encode_rune 128512 +:+ rune_error +:+ "x")).
Proof. vm_compute. reflexivity. Qed.
Example refuses : map parse ["01"; "1."; "[1,]"; "tru"; "1 2"; ""; qt "\x"] = replicate 7 None.
Proof. vm_compute. reflexivity. Qed.
Example reads_struct :
  unmarshal (A := list (one "name" string * one "size" Z)) ("[{" +:+ qt "Name" +:+ ":" +:+ qt "s" +:+ "," +:+ qt "size" +:+ ":7}]") =
  Some [(One "s", One 7%Z)].
Proof. vm_compute. reflexivity. Qed.

End jsontext.
