(* ===== verification/Backend.v ===== *)
(** * The backend abstraction (internal/backend/backend.go, internal/backend/registry.go)

    Every storage backend the core talks to is a [backend.Backend]: a record of
    operations over a [World], the state a call can change (the process-wide
    metrics and whatever environment [T] the backend lives in).  [BackendLaws]
    states what a backend promises the CSI layer; the driver's theorems are proved
    against it and the plugin client discharges it. *)
From S2P Require Import Prelude GoStrings GoErrors VolumeID Metrics.

Record World (T : Type) := mkWorld { w_metrics : collector; w_env : T }.
Arguments mkWorld {T} _ _.
Arguments w_metrics {T} _.
Arguments w_env {T} _.

Module backend.

(** [Capabilities]. *)
Record Capabilities := mkCapabilities {
  RequiresControllerPublish : bool;
  NodeLocal : bool;
  BlockDevice : bool;
  Snapshots : bool;
  Expand : bool;
  CapGetCapacity : bool;
  CapVolumeHealth : bool;
  CapModifyVolume : bool;
  CapReclaimSpace : bool;
  CapNodeReclaimSpace : bool;
  CapListVolumes : bool;
  CapListSnapshots : bool;
  CapNetworkFence : bool;
  CapReplication : bool;
  CapEncryptionKeyRotation : bool;
  CapVolumeGroup : bool;
}.

(** [CreateVolumeRequest]. *)
Record CreateVolumeRequest := mkCreateVolumeRequest {
  cv_Name : string;
  cv_CapacityBytes : Z;
  cv_Instance : string;
  cv_FsType : string;
  cv_Parameters : strmap;
  cv_MutableParams : strmap;
  cv_Secrets : strmap;
  cv_SourceSnapshot : option Handle;
  cv_SourceVolume : option Handle;
}.

(** [Volume]. *)
Record Volume := mkVolume {
  v_Handle : Handle;
  v_CapacityBytes : Z;
  v_Context : strmap;
  v_AccessibleTopology : strmap;
}.

(** [CreateSnapshotRequest], [VolumeHealth], [SpaceUsage], [Snapshot]. *)
Record CreateSnapshotRequest := mkCreateSnapshotRequest {
  cs_Name : string;
  cs_SourceVolume : Handle;
  cs_Parameters : strmap;
  cs_Secrets : strmap;
}.
Record VolumeHealth := mkVolumeHealth { Abnormal : bool; Message : string }.
Record SpaceUsage := mkSpaceUsage { PreUsageBytes : Z; PostUsageBytes : Z }.
Record Snapshot := mkSnapshot {
  s_Handle : Handle;
  s_SourceVolumeID : string;
  s_SizeBytes : Z;
  s_CreationTime : Z;         (* seconds since the epoch *)
  s_ReadyToUse : bool;
}.

(** [VolumeListEntry], [SnapshotListEntry]. *)
Record VolumeListEntry := mkVolumeListEntry { vl_Handle : Handle; vl_CapacityBytes : Z }.
Record SnapshotListEntry := mkSnapshotListEntry {
  sl_Handle : Handle;
  sl_SourceVolume : Handle;
  sl_SizeBytes : Z;
  sl_CreationTime : Z;
  sl_ReadyToUse : bool;
}.

(** [NodeStageRequest], [NodePublishRequest]. *)
Record NodeStageRequest := mkNodeStageRequest {
  ns_Handle : Handle;
  ns_StagingPath : string;
  ns_FsType : string;
  ns_MountFlags : list string;
  ns_Readonly : bool;
  ns_Block : bool;
  ns_Exclusive : bool;
  ns_Context : strmap;
  ns_PublishContext : strmap;
  ns_CrushLocation : string;
  ns_Secrets : strmap;
}.
Record NodePublishRequest := mkNodePublishRequest {
  np_Handle : Handle;
  np_StagingPath : string;
  np_TargetPath : string;
  np_FsType : string;
  np_MountFlags : list string;
  np_Readonly : bool;
  np_Block : bool;
  np_Context : strmap;
}.

(** [FenceClient], [VolumeGroup]. *)
Record FenceClient := mkFenceClient { fc_ID : string; fc_CIDRs : list string }.
Record VolumeGroup := mkVolumeGroup { vg_Group : Handle; vg_Members : list Handle }.

Section interface.
  Context {T : Type}.
  Abbreviation op A := (M (World T) error A).

(** The optional interfaces a backend may also implement. *)
Record NetworkFencer := mkNetworkFencer {
  FenceClusterNetwork : string → list string → strmap → strmap → op unit;
  UnfenceClusterNetwork : string → list string → strmap → strmap → op unit;
  ListClusterFence : string → strmap → strmap → op (list string);
  GetFenceClients : string → strmap → strmap → op (list FenceClient);
}.
Record VolumeReplicator := mkVolumeReplicator {
  EnableVolumeReplication : Handle → strmap → strmap → op unit;
  DisableVolumeReplication : Handle → strmap → strmap → op unit;
  PromoteVolume : Handle → bool → strmap → strmap → op unit;
  DemoteVolume : Handle → bool → strmap → strmap → op unit;
  ResyncVolume : Handle → bool → strmap → strmap → op bool;
  GetVolumeReplicationInfo : Handle → strmap → op (option Z);   (* None: the zero time *)
}.
Record EncryptionKeyRotator := mkEncryptionKeyRotator {
  RotateEncryptionKey : Handle → string → strmap → strmap → op unit;
}.
Record VolumeGrouper := mkVolumeGrouper {
  CreateVolumeGroup : string → string → string → list Handle → strmap → strmap → op VolumeGroup;
  ModifyVolumeGroup : Handle → list Handle → strmap → strmap → op VolumeGroup;
  DeleteVolumeGroup : Handle → strmap → op unit;
  GetVolumeGroup : Handle → strmap → op VolumeGroup;
  ListVolumeGroups : strmap → op (list VolumeGroup);
}.

(** [Backend]; the last four fields are what a type assertion to the optional
    interfaces finds. *)
Record Backend := mkBackend {
  Type_ : string;
  Caps : Capabilities;
  CreateVolume : CreateVolumeRequest → op Volume;
  DeleteVolume : Handle → strmap → op unit;
  ExpandVolume : Handle → Z → strmap → op (Z * bool);
  CreateSnapshot : CreateSnapshotRequest → op Snapshot;
  DeleteSnapshot : Handle → strmap → op unit;
  GetCapacity : string → strmap → op Z;
  GetVolumeHealth : Handle → strmap → op VolumeHealth;
  ModifyVolume : Handle → strmap → strmap → op unit;
  ReclaimSpace : Handle → strmap → op SpaceUsage;
  NodeReclaimSpace : Handle → string → string → bool → strmap → op SpaceUsage;
  ControllerPublish : Handle → string → bool → strmap → strmap → op strmap;
  ControllerUnpublish : Handle → string → strmap → op unit;
  ListVolumes : op (list VolumeListEntry);
  ListSnapshots : op (list SnapshotListEntry);
  NodeStage : NodeStageRequest → op unit;
  NodeUnstage : Handle → string → op unit;
  NodePublish : NodePublishRequest → op unit;
  NodeUnpublish : Handle → string → op unit;
  NodeExpand : Handle → string → op Z;
  as_NetworkFencer : option NetworkFencer;
  as_VolumeReplicator : option VolumeReplicator;
  as_EncryptionKeyRotator : option EncryptionKeyRotator;
  as_VolumeGrouper : option VolumeGrouper;
}.

(** What a backend promises the CSI layer. *)
Class BackendLaws (b : Backend) : Prop := {
  law_create req w w' v :
    CreateVolume b req w = (w', Ok v) →
    hBackend (v_Handle v) = Type_ b ∧ hInstance (v_Handle v) = cv_Instance req ∧
    Validate (v_Handle v) = Ok tt;
  law_create_metrics req w w' r :
    CreateVolume b req w = (w', r) → placements (w_metrics w') = placements (w_metrics w);
  law_snapshot req w w' s :
    CreateSnapshot b req w = (w', Ok s) →
    hBackend (s_Handle s) = Type_ b ∧ hInstance (s_Handle s) = hInstance (cs_SourceVolume req) ∧
    Validate (s_Handle s) = Ok tt ∧ s_SourceVolumeID s = Handle_String (cs_SourceVolume req);
  law_list w w' vs :
    ListVolumes b w = (w', Ok vs) →
    Forall (λ v, hBackend (vl_Handle v) = Type_ b ∧ Validate (vl_Handle v) = Ok tt) vs;
  law_list_snapshots w w' vs :
    ListSnapshots b w = (w', Ok vs) →
    Forall (λ s, (hBackend (sl_Handle s) = Type_ b ∧ Validate (sl_Handle s) = Ok tt) ∧
                 hBackend (sl_SourceVolume s) = Type_ b ∧ Validate (sl_SourceVolume s) = Ok tt) vs;
  law_capacity i p w :
    CapGetCapacity (Caps b) = false → GetCapacity b i p w = (w, Err (bare ErrUnsupported));
  law_publish h n ro ctx sec w :
    RequiresControllerPublish (Caps b) = false → ControllerPublish b h n ro ctx sec w = (w, Ok ∅);
}.
End interface.
Arguments NetworkFencer : clear implicits.
Arguments VolumeReplicator : clear implicits.
Arguments EncryptionKeyRotator : clear implicits.
Arguments VolumeGrouper : clear implicits.
Arguments Backend : clear implicits.

(** ** Registry *)

Record Registry (T : Type) := mkRegistry { backends : gmap string (Backend T) }.
Arguments mkRegistry {T} _.
Arguments backends {T} _.

Definition NewRegistry {T} : Registry T := mkRegistry ∅.

(** [Register]; [None] is the panic on a duplicate type. *)
Definition Register {T} (r : Registry T) (b : Backend T) : option (Registry T) :=
  match backends r !! Type_ b with
  | Some _ => None
  | None => Some (mkRegistry (<[Type_ b := b]> (backends r)))
  end.

(** [Get]. *)
Definition Get {T} (r : Registry T) (t : string) : res error (Backend T) :=
  match backends r !! t with
  | Some b => Ok b
  | None => Err (plain_error "no backend configured for type %q")
  end.

(** [Types]. *)
Definition Types {T} `{MapIter} (r : Registry T) : list string := range_keys (backends r).

(** A registry filled by [Register]: every backend under its own type, and every
    backend keeps its promises. *)
Definition RegistryOk {T} (r : Registry T) : Prop :=
  ∀ t b, backends r !! t = Some b → Type_ b = t ∧ BackendLaws b.

Lemma RegistryOk_New {T} : RegistryOk (@NewRegistry T).
Proof. intros t b. simpl. by rewrite lookup_empty. Qed.

Lemma RegistryOk_Register {T} (r r' : Registry T) b :
  RegistryOk r → BackendLaws b → Register r b = Some r' → RegistryOk r'.
Proof.
  intros Hr Hb. unfold Register. destruct (backends r !! Type_ b); [done|]. intros [= <-].
  intros t b'. simpl. rewrite lookup_insert. case_decide; [|by apply Hr]. by intros [= <-].
Qed.

Lemma Get_ok {T} (r : Registry T) t b : Get r t = Ok b ↔ backends r !! t = Some b.
Proof. unfold Get. destruct (backends r !! t); naive_solver. Qed.

Lemma elem_of_Types {T} `{MapIter} (r : Registry T) t : t ∈ Types r ↔ is_Some (backends r !! t).
Proof.
  unfold Types, range_keys. rewrite list_elem_of_fmap. split.
  - intros ([t' b] & -> & Hin%elem_of_range). by exists b.
  - intros [b Hb]. exists (t, b). split; [done|]. by apply elem_of_range.
Qed.

Lemma Types_perm {T} (o1 o2 : MapIter) (r : Registry T) : @Types T o1 r ≡ₚ @Types T o2 r.
Proof. unfold Types, range_keys. by rewrite !range_perm. Qed.

Lemma Types_NoDup {T} `{MapIter} (r : Registry T) : NoDup (Types r).
Proof. apply range_NoDup_fst. Qed.
End backend.
