(* ===== verification/Protocol.v ===== *)
(** * The plugin wire contract (pkg/bardplugin/protocol.go)

    The contract version, the routes, the error codes, every message with its
    JSON codec (one [Wire] instance per struct, from the struct's tags), and the
    interface a plugin implements: [Backend] with the optional interfaces as
    options, which is what a type assertion finds. *)
From Stdlib Require Import Ascii.
From S2P Require Import Prelude GoStrings GoErrors Json.

Module bardplugin.

(** ** Contract version *)
Definition ContractVersion : string := "1.1".
Definition ContractMajor : Z := 1.
Definition ContractMinor : Z := 1.

(** [ParseContractVersion]. *)
Definition ParseContractVersion (s : string) : res error (Z * Z) :=
  if bool_decide (s = "") then Ok (1, 0)%Z
  else match cut_on "." s with
  | None => Err (plain_error "contract version %q: want MAJOR.MINOR")
  | Some (majS, minS) =>
      match Atoi majS with
      | None => Err (plain_error "contract version %q: bad major")
      | Some major =>
          if bool_decide (major < 0)%Z then Err (plain_error "contract version %q: bad major")
          else match Atoi minS with
          | None => Err (plain_error "contract version %q: bad minor")
          | Some minor =>
              if bool_decide (minor < 0)%Z then Err (plain_error "contract version %q: bad minor")
              else Ok (major, minor)
          end
      end
  end.

(** ** Routes *)
Definition PathInfo : string := "/info".
Definition PathCreateVolume : string := "/volume/create".
Definition PathDeleteVolume : string := "/volume/delete".
Definition PathExpandVolume : string := "/volume/expand".
Definition PathCreateSnapshot : string := "/snapshot/create".
Definition PathDeleteSnapshot : string := "/snapshot/delete".
Definition PathControllerPublish : string := "/controller/publish".
Definition PathControllerUnpublish : string := "/controller/unpublish".
Definition PathListVolumes : string := "/volume/list".
Definition PathListSnapshots : string := "/snapshot/list".
Definition PathNodeStage : string := "/node/stage".
Definition PathNodeUnstage : string := "/node/unstage".
Definition PathNodePublish : string := "/node/publish".
Definition PathNodeUnpublish : string := "/node/unpublish".
Definition PathNodeExpand : string := "/node/expand".
Definition PathGetCapacity : string := "/capacity".
Definition PathVolumeHealth : string := "/volume/health".
Definition PathModifyVolume : string := "/volume/modify".
Definition PathReclaimSpace : string := "/volume/reclaimspace".
Definition PathNodeReclaimSpace : string := "/node/reclaimspace".
Definition PathFenceClusterNetwork : string := "/networkfence/fence".
Definition PathUnfenceClusterNetwork : string := "/networkfence/unfence".
Definition PathListClusterFence : string := "/networkfence/list".
Definition PathGetFenceClients : string := "/networkfence/clients".
Definition PathEnableReplication : string := "/replication/enable".
Definition PathDisableReplication : string := "/replication/disable".
Definition PathPromoteVolume : string := "/replication/promote".
Definition PathDemoteVolume : string := "/replication/demote".
Definition PathResyncVolume : string := "/replication/resync".
Definition PathReplicationInfo : string := "/replication/info".
Definition PathRotateEncryptionKey : string := "/node/rotate-key".
Definition PathCreateVolumeGroup : string := "/volumegroup/create".
Definition PathModifyVolumeGroup : string := "/volumegroup/modify".
Definition PathDeleteVolumeGroup : string := "/volumegroup/delete".
Definition PathGetVolumeGroup : string := "/volumegroup/get".
Definition PathListVolumeGroups : string := "/volumegroup/list".

(** ** Error codes *)
Abbreviation ErrorCode := string.
Definition CodeInternal : ErrorCode := "Internal".
Definition CodeNotFound : ErrorCode := "NotFound".
Definition CodeAlreadyExists : ErrorCode := "AlreadyExists".
Definition CodeInvalidArg : ErrorCode := "InvalidArgument".
Definition CodeUnsupported : ErrorCode := "Unsupported".

(** [StatusError].  A plugin's error is its text and what [errors.As] finds. *)
Record StatusError := mkStatusError { se_Code : ErrorCode; se_Message : string }.
Definition StatusError_Error (e : StatusError) : string := se_Code e +:+ ": " +:+ se_Message e.
Record perror := mkPerror { as_StatusError : option StatusError; perror_text : string }.
Definition status_error (e : StatusError) : perror := mkPerror (Some e) (StatusError_Error e).
(** [Errorf], its message already formatted. *)
Definition Errorf (code : ErrorCode) (message : string) : perror := status_error (mkStatusError code message).

(** ** Messages *)

(** [Error]. *)
Record Error := mkError {
  Error_Code : ErrorCode;
  Error_Message : string;
}.
Definition fields_Error (x : Error) : list (string * option json) :=
  [fld "code" (Error_Code x);
   fld "message" (Error_Message x)].
Definition read_Error (o : list (string * json)) (x : Error) : Error * bool :=
  let '(a0, k0) := dec_field "code" o (Error_Code x) in
  let '(a1, k1) := dec_field "message" o (Error_Message x) in
  (mkError a0 a1, k0 && k1).
#[global] Instance wire_Error : Wire Error :=
  struct_wire (mkError zero zero) fields_Error read_Error
    (λ x, wire_ok (Error_Code x) ∧ wire_ok (Error_Message x)).
#[global] Instance wire_laws_Error : WireLaws Error.
Proof.
  apply struct_laws. intros [].
  cbv beta iota delta [read_Error fields_Error Error_Code Error_Message].
  wire_fields.
Qed.
#[global] Instance wire_struct_Error : WireStruct Error.
Proof. apply struct_not_null. Qed.

(** [Capabilities]. *)
Record Capabilities := mkCapabilities {
  Capabilities_RequiresControllerPublish : bool;
  Capabilities_NodeLocal : bool;
  Capabilities_BlockDevice : bool;
  Capabilities_Snapshots : bool;
  Capabilities_Expand : bool;
  Capabilities_GetCapacity : bool;
  Capabilities_VolumeHealth : bool;
  Capabilities_ModifyVolume : bool;
  Capabilities_ReclaimSpace : bool;
  Capabilities_NodeReclaimSpace : bool;
  Capabilities_ListVolumes : bool;
  Capabilities_ListSnapshots : bool;
  Capabilities_NetworkFence : bool;
  Capabilities_Replication : bool;
  Capabilities_EncryptionKeyRotation : bool;
  Capabilities_VolumeGroup : bool;
}.
Definition fields_Capabilities (x : Capabilities) : list (string * option json) :=
  [fld "requiresControllerPublish" (Capabilities_RequiresControllerPublish x);
   fld "nodeLocal" (Capabilities_NodeLocal x);
   fld "blockDevice" (Capabilities_BlockDevice x);
   fld "snapshots" (Capabilities_Snapshots x);
   fld "expand" (Capabilities_Expand x);
   fldo "getCapacity" (Capabilities_GetCapacity x);
   fldo "volumeHealth" (Capabilities_VolumeHealth x);
   fldo "modifyVolume" (Capabilities_ModifyVolume x);
   fldo "reclaimSpace" (Capabilities_ReclaimSpace x);
   fldo "nodeReclaimSpace" (Capabilities_NodeReclaimSpace x);
   fldo "listVolumes" (Capabilities_ListVolumes x);
   fldo "listSnapshots" (Capabilities_ListSnapshots x);
   fldo "networkFence" (Capabilities_NetworkFence x);
   fldo "replication" (Capabilities_Replication x);
   fldo "encryptionKeyRotation" (Capabilities_EncryptionKeyRotation x);
   fldo "volumeGroup" (Capabilities_VolumeGroup x)].
Definition read_Capabilities (o : list (string * json)) (x : Capabilities) : Capabilities * bool :=
  let '(a0, k0) := dec_field "requiresControllerPublish" o (Capabilities_RequiresControllerPublish x) in
  let '(a1, k1) := dec_field "nodeLocal" o (Capabilities_NodeLocal x) in
  let '(a2, k2) := dec_field "blockDevice" o (Capabilities_BlockDevice x) in
  let '(a3, k3) := dec_field "snapshots" o (Capabilities_Snapshots x) in
  let '(a4, k4) := dec_field "expand" o (Capabilities_Expand x) in
  let '(a5, k5) := dec_field "getCapacity" o (Capabilities_GetCapacity x) in
  let '(a6, k6) := dec_field "volumeHealth" o (Capabilities_VolumeHealth x) in
  let '(a7, k7) := dec_field "modifyVolume" o (Capabilities_ModifyVolume x) in
  let '(a8, k8) := dec_field "reclaimSpace" o (Capabilities_ReclaimSpace x) in
  let '(a9, k9) := dec_field "nodeReclaimSpace" o (Capabilities_NodeReclaimSpace x) in
  let '(a10, k10) := dec_field "listVolumes" o (Capabilities_ListVolumes x) in
  let '(a11, k11) := dec_field "listSnapshots" o (Capabilities_ListSnapshots x) in
  let '(a12, k12) := dec_field "networkFence" o (Capabilities_NetworkFence x) in
  let '(a13, k13) := dec_field "replication" o (Capabilities_Replication x) in
  let '(a14, k14) := dec_field "encryptionKeyRotation" o (Capabilities_EncryptionKeyRotation x) in
  let '(a15, k15) := dec_field "volumeGroup" o (Capabilities_VolumeGroup x) in
  (mkCapabilities a0 a1 a2 a3 a4 a5 a6 a7 a8 a9 a10 a11 a12 a13 a14 a15, k0 && k1 && k2 && k3 && k4 && k5 && k6 && k7 && k8 && k9 && k10 && k11 && k12 && k13 && k14 && k15).
#[global] Instance wire_Capabilities : Wire Capabilities :=
  struct_wire (mkCapabilities zero zero zero zero zero zero zero zero zero zero zero zero zero zero zero zero) fields_Capabilities read_Capabilities
    (λ x, wire_ok (Capabilities_RequiresControllerPublish x) ∧ wire_ok (Capabilities_NodeLocal x) ∧ wire_ok (Capabilities_BlockDevice x) ∧ wire_ok (Capabilities_Snapshots x) ∧ wire_ok (Capabilities_Expand x) ∧ wire_ok (Capabilities_GetCapacity x) ∧ wire_ok (Capabilities_VolumeHealth x) ∧ wire_ok (Capabilities_ModifyVolume x) ∧ wire_ok (Capabilities_ReclaimSpace x) ∧ wire_ok (Capabilities_NodeReclaimSpace x) ∧ wire_ok (Capabilities_ListVolumes x) ∧ wire_ok (Capabilities_ListSnapshots x) ∧ wire_ok (Capabilities_NetworkFence x) ∧ wire_ok (Capabilities_Replication x) ∧ wire_ok (Capabilities_EncryptionKeyRotation x) ∧ wire_ok (Capabilities_VolumeGroup x)).
#[global] Instance wire_laws_Capabilities : WireLaws Capabilities.
Proof.
  apply struct_laws. intros [].
  cbv beta iota delta [read_Capabilities fields_Capabilities Capabilities_RequiresControllerPublish Capabilities_NodeLocal Capabilities_BlockDevice Capabilities_Snapshots Capabilities_Expand Capabilities_GetCapacity Capabilities_VolumeHealth Capabilities_ModifyVolume Capabilities_ReclaimSpace Capabilities_NodeReclaimSpace Capabilities_ListVolumes Capabilities_ListSnapshots Capabilities_NetworkFence Capabilities_Replication Capabilities_EncryptionKeyRotation Capabilities_VolumeGroup].
  wire_fields.
Qed.
#[global] Instance wire_struct_Capabilities : WireStruct Capabilities.
Proof. apply struct_not_null. Qed.

(** [Info]. *)
Record Info := mkInfo {
  Info_Type : string;
  Info_ContractVersion : string;
  Info_Capabilities : Capabilities;
}.
Definition fields_Info (x : Info) : list (string * option json) :=
  [fld "type" (Info_Type x);
   fldo "contractVersion" (Info_ContractVersion x);
   fld "capabilities" (Info_Capabilities x)].
Definition read_Info (o : list (string * json)) (x : Info) : Info * bool :=
  let '(a0, k0) := dec_field "type" o (Info_Type x) in
  let '(a1, k1) := dec_field "contractVersion" o (Info_ContractVersion x) in
  let '(a2, k2) := dec_field "capabilities" o (Info_Capabilities x) in
  (mkInfo a0 a1 a2, k0 && k1 && k2).
#[global] Instance wire_Info : Wire Info :=
  struct_wire (mkInfo zero zero zero) fields_Info read_Info
    (λ x, wire_ok (Info_Type x) ∧ wire_ok (Info_ContractVersion x) ∧ wire_ok (Info_Capabilities x)).
#[global] Instance wire_laws_Info : WireLaws Info.
Proof.
  apply struct_laws. intros [].
  cbv beta iota delta [read_Info fields_Info Info_Type Info_ContractVersion Info_Capabilities].
  wire_fields.
Qed.
#[global] Instance wire_struct_Info : WireStruct Info.
Proof. apply struct_not_null. Qed.

(** [VolumeRef]. *)
Record VolumeRef := mkVolumeRef {
  VolumeRef_Instance : string;
  VolumeRef_Location : string;
  VolumeRef_Name : string;
}.
Definition fields_VolumeRef (x : VolumeRef) : list (string * option json) :=
  [fld "instance" (VolumeRef_Instance x);
   fldo "location" (VolumeRef_Location x);
   fld "name" (VolumeRef_Name x)].
Definition read_VolumeRef (o : list (string * json)) (x : VolumeRef) : VolumeRef * bool :=
  let '(a0, k0) := dec_field "instance" o (VolumeRef_Instance x) in
  let '(a1, k1) := dec_field "location" o (VolumeRef_Location x) in
  let '(a2, k2) := dec_field "name" o (VolumeRef_Name x) in
  (mkVolumeRef a0 a1 a2, k0 && k1 && k2).
#[global] Instance wire_VolumeRef : Wire VolumeRef :=
  struct_wire (mkVolumeRef zero zero zero) fields_VolumeRef read_VolumeRef
    (λ x, wire_ok (VolumeRef_Instance x) ∧ wire_ok (VolumeRef_Location x) ∧ wire_ok (VolumeRef_Name x)).
#[global] Instance wire_laws_VolumeRef : WireLaws VolumeRef.
Proof.
  apply struct_laws. intros [].
  cbv beta iota delta [read_VolumeRef fields_VolumeRef VolumeRef_Instance VolumeRef_Location VolumeRef_Name].
  wire_fields.
Qed.
#[global] Instance wire_struct_VolumeRef : WireStruct VolumeRef.
Proof. apply struct_not_null. Qed.

(** [CreateVolumeRequest]. *)
Record CreateVolumeRequest := mkCreateVolumeRequest {
  CreateVolumeRequest_Name : string;
  CreateVolumeRequest_CapacityBytes : Z;
  CreateVolumeRequest_Instance : string;
  CreateVolumeRequest_FsType : string;
  CreateVolumeRequest_Parameters : strmap;
  CreateVolumeRequest_MutableParams : strmap;
  CreateVolumeRequest_Secrets : strmap;
  CreateVolumeRequest_SourceSnapshot : option VolumeRef;
  CreateVolumeRequest_SourceVolume : option VolumeRef;
}.
Definition fields_CreateVolumeRequest (x : CreateVolumeRequest) : list (string * option json) :=
  [fld "name" (CreateVolumeRequest_Name x);
   fld "capacityBytes" (CreateVolumeRequest_CapacityBytes x);
   fld "instance" (CreateVolumeRequest_Instance x);
   fldo "fsType" (CreateVolumeRequest_FsType x);
   fldo "parameters" (CreateVolumeRequest_Parameters x);
   fldo "mutableParams" (CreateVolumeRequest_MutableParams x);
   fldo "secrets" (CreateVolumeRequest_Secrets x);
   fldo "sourceSnapshot" (CreateVolumeRequest_SourceSnapshot x);
   fldo "sourceVolume" (CreateVolumeRequest_SourceVolume x)].
Definition read_CreateVolumeRequest (o : list (string * json)) (x : CreateVolumeRequest) : CreateVolumeRequest * bool :=
  let '(a0, k0) := dec_field "name" o (CreateVolumeRequest_Name x) in
  let '(a1, k1) := dec_field "capacityBytes" o (CreateVolumeRequest_CapacityBytes x) in
  let '(a2, k2) := dec_field "instance" o (CreateVolumeRequest_Instance x) in
  let '(a3, k3) := dec_field "fsType" o (CreateVolumeRequest_FsType x) in
  let '(a4, k4) := dec_field "parameters" o (CreateVolumeRequest_Parameters x) in
  let '(a5, k5) := dec_field "mutableParams" o (CreateVolumeRequest_MutableParams x) in
  let '(a6, k6) := dec_field "secrets" o (CreateVolumeRequest_Secrets x) in
  let '(a7, k7) := dec_field "sourceSnapshot" o (CreateVolumeRequest_SourceSnapshot x) in
  let '(a8, k8) := dec_field "sourceVolume" o (CreateVolumeRequest_SourceVolume x) in
  (mkCreateVolumeRequest a0 a1 a2 a3 a4 a5 a6 a7 a8, k0 && k1 && k2 && k3 && k4 && k5 && k6 && k7 && k8).
#[global] Instance wire_CreateVolumeRequest : Wire CreateVolumeRequest :=
  struct_wire (mkCreateVolumeRequest zero zero zero zero zero zero zero zero zero) fields_CreateVolumeRequest read_CreateVolumeRequest
    (λ x, wire_ok (CreateVolumeRequest_Name x) ∧ wire_ok (CreateVolumeRequest_CapacityBytes x) ∧ wire_ok (CreateVolumeRequest_Instance x) ∧ wire_ok (CreateVolumeRequest_FsType x) ∧ wire_ok (CreateVolumeRequest_Parameters x) ∧ wire_ok (CreateVolumeRequest_MutableParams x) ∧ wire_ok (CreateVolumeRequest_Secrets x) ∧ wire_ok (CreateVolumeRequest_SourceSnapshot x) ∧ wire_ok (CreateVolumeRequest_SourceVolume x)).
#[global] Instance wire_laws_CreateVolumeRequest : WireLaws CreateVolumeRequest.
Proof.
  apply struct_laws. intros [].
  cbv beta iota delta [read_CreateVolumeRequest fields_CreateVolumeRequest CreateVolumeRequest_Name CreateVolumeRequest_CapacityBytes CreateVolumeRequest_Instance CreateVolumeRequest_FsType CreateVolumeRequest_Parameters CreateVolumeRequest_MutableParams CreateVolumeRequest_Secrets CreateVolumeRequest_SourceSnapshot CreateVolumeRequest_SourceVolume].
  wire_fields.
Qed.
#[global] Instance wire_struct_CreateVolumeRequest : WireStruct CreateVolumeRequest.
Proof. apply struct_not_null. Qed.

(** [CreateVolumeResponse]. *)
Record CreateVolumeResponse := mkCreateVolumeResponse {
  CreateVolumeResponse_Location : string;
  CreateVolumeResponse_Name : string;
  CreateVolumeResponse_CapacityBytes : Z;
  CreateVolumeResponse_Context : strmap;
  CreateVolumeResponse_AccessibleTopology : strmap;
}.
Definition fields_CreateVolumeResponse (x : CreateVolumeResponse) : list (string * option json) :=
  [fldo "location" (CreateVolumeResponse_Location x);
   fld "name" (CreateVolumeResponse_Name x);
   fld "capacityBytes" (CreateVolumeResponse_CapacityBytes x);
   fldo "context" (CreateVolumeResponse_Context x);
   fldo "accessibleTopology" (CreateVolumeResponse_AccessibleTopology x)].
Definition read_CreateVolumeResponse (o : list (string * json)) (x : CreateVolumeResponse) : CreateVolumeResponse * bool :=
  let '(a0, k0) := dec_field "location" o (CreateVolumeResponse_Location x) in
  let '(a1, k1) := dec_field "name" o (CreateVolumeResponse_Name x) in
  let '(a2, k2) := dec_field "capacityBytes" o (CreateVolumeResponse_CapacityBytes x) in
  let '(a3, k3) := dec_field "context" o (CreateVolumeResponse_Context x) in
  let '(a4, k4) := dec_field "accessibleTopology" o (CreateVolumeResponse_AccessibleTopology x) in
  (mkCreateVolumeResponse a0 a1 a2 a3 a4, k0 && k1 && k2 && k3 && k4).
#[global] Instance wire_CreateVolumeResponse : Wire CreateVolumeResponse :=
  struct_wire (mkCreateVolumeResponse zero zero zero zero zero) fields_CreateVolumeResponse read_CreateVolumeResponse
    (λ x, wire_ok (CreateVolumeResponse_Location x) ∧ wire_ok (CreateVolumeResponse_Name x) ∧ wire_ok (CreateVolumeResponse_CapacityBytes x) ∧ wire_ok (CreateVolumeResponse_Context x) ∧ wire_ok (CreateVolumeResponse_AccessibleTopology x)).
#[global] Instance wire_laws_CreateVolumeResponse : WireLaws CreateVolumeResponse.
Proof.
  apply struct_laws. intros [].
  cbv beta iota delta [read_CreateVolumeResponse fields_CreateVolumeResponse CreateVolumeResponse_Location CreateVolumeResponse_Name CreateVolumeResponse_CapacityBytes CreateVolumeResponse_Context CreateVolumeResponse_AccessibleTopology].
  wire_fields.
Qed.
#[global] Instance wire_struct_CreateVolumeResponse : WireStruct CreateVolumeResponse.
Proof. apply struct_not_null. Qed.

(** [DeleteVolumeRequest]. *)
Record DeleteVolumeRequest := mkDeleteVolumeRequest {
  DeleteVolumeRequest_Volume : VolumeRef;
  DeleteVolumeRequest_Secrets : strmap;
}.
Definition fields_DeleteVolumeRequest (x : DeleteVolumeRequest) : list (string * option json) :=
  [fld "volume" (DeleteVolumeRequest_Volume x);
   fldo "secrets" (DeleteVolumeRequest_Secrets x)].
Definition read_DeleteVolumeRequest (o : list (string * json)) (x : DeleteVolumeRequest) : DeleteVolumeRequest * bool :=
  let '(a0, k0) := dec_field "volume" o (DeleteVolumeRequest_Volume x) in
  let '(a1, k1) := dec_field "secrets" o (DeleteVolumeRequest_Secrets x) in
  (mkDeleteVolumeRequest a0 a1, k0 && k1).
#[global] Instance wire_DeleteVolumeRequest : Wire DeleteVolumeRequest :=
  struct_wire (mkDeleteVolumeRequest zero zero) fields_DeleteVolumeRequest read_DeleteVolumeRequest
    (λ x, wire_ok (DeleteVolumeRequest_Volume x) ∧ wire_ok (DeleteVolumeRequest_Secrets x)).
#[global] Instance wire_laws_DeleteVolumeRequest : WireLaws DeleteVolumeRequest.
Proof.
  apply struct_laws. intros [].
  cbv beta iota delta [read_DeleteVolumeRequest fields_DeleteVolumeRequest DeleteVolumeRequest_Volume DeleteVolumeRequest_Secrets].
  wire_fields.
Qed.
#[global] Instance wire_struct_DeleteVolumeRequest : WireStruct DeleteVolumeRequest.
Proof. apply struct_not_null. Qed.

(** [ExpandVolumeRequest]. *)
Record ExpandVolumeRequest := mkExpandVolumeRequest {
  ExpandVolumeRequest_Volume : VolumeRef;
  ExpandVolumeRequest_NewSizeBytes : Z;
  ExpandVolumeRequest_Secrets : strmap;
}.
Definition fields_ExpandVolumeRequest (x : ExpandVolumeRequest) : list (string * option json) :=
  [fld "volume" (ExpandVolumeRequest_Volume x);
   fld "newSizeBytes" (ExpandVolumeRequest_NewSizeBytes x);
   fldo "secrets" (ExpandVolumeRequest_Secrets x)].
Definition read_ExpandVolumeRequest (o : list (string * json)) (x : ExpandVolumeRequest) : ExpandVolumeRequest * bool :=
  let '(a0, k0) := dec_field "volume" o (ExpandVolumeRequest_Volume x) in
  let '(a1, k1) := dec_field "newSizeBytes" o (ExpandVolumeRequest_NewSizeBytes x) in
  let '(a2, k2) := dec_field "secrets" o (ExpandVolumeRequest_Secrets x) in
  (mkExpandVolumeRequest a0 a1 a2, k0 && k1 && k2).
#[global] Instance wire_ExpandVolumeRequest : Wire ExpandVolumeRequest :=
  struct_wire (mkExpandVolumeRequest zero zero zero) fields_ExpandVolumeRequest read_ExpandVolumeRequest
    (λ x, wire_ok (ExpandVolumeRequest_Volume x) ∧ wire_ok (ExpandVolumeRequest_NewSizeBytes x) ∧ wire_ok (ExpandVolumeRequest_Secrets x)).
#[global] Instance wire_laws_ExpandVolumeRequest : WireLaws ExpandVolumeRequest.
Proof.
  apply struct_laws. intros [].
  cbv beta iota delta [read_ExpandVolumeRequest fields_ExpandVolumeRequest ExpandVolumeRequest_Volume ExpandVolumeRequest_NewSizeBytes ExpandVolumeRequest_Secrets].
  wire_fields.
Qed.
#[global] Instance wire_struct_ExpandVolumeRequest : WireStruct ExpandVolumeRequest.
Proof. apply struct_not_null. Qed.

(** [ExpandVolumeResponse]. *)
Record ExpandVolumeResponse := mkExpandVolumeResponse {
  ExpandVolumeResponse_CapacityBytes : Z;
  ExpandVolumeResponse_NodeExpansionRequired : bool;
}.
Definition fields_ExpandVolumeResponse (x : ExpandVolumeResponse) : list (string * option json) :=
  [fld "capacityBytes" (ExpandVolumeResponse_CapacityBytes x);
   fld "nodeExpansionRequired" (ExpandVolumeResponse_NodeExpansionRequired x)].
Definition read_ExpandVolumeResponse (o : list (string * json)) (x : ExpandVolumeResponse) : ExpandVolumeResponse * bool :=
  let '(a0, k0) := dec_field "capacityBytes" o (ExpandVolumeResponse_CapacityBytes x) in
  let '(a1, k1) := dec_field "nodeExpansionRequired" o (ExpandVolumeResponse_NodeExpansionRequired x) in
  (mkExpandVolumeResponse a0 a1, k0 && k1).
#[global] Instance wire_ExpandVolumeResponse : Wire ExpandVolumeResponse :=
  struct_wire (mkExpandVolumeResponse zero zero) fields_ExpandVolumeResponse read_ExpandVolumeResponse
    (λ x, wire_ok (ExpandVolumeResponse_CapacityBytes x) ∧ wire_ok (ExpandVolumeResponse_NodeExpansionRequired x)).
#[global] Instance wire_laws_ExpandVolumeResponse : WireLaws ExpandVolumeResponse.
Proof.
  apply struct_laws. intros [].
  cbv beta iota delta [read_ExpandVolumeResponse fields_ExpandVolumeResponse ExpandVolumeResponse_CapacityBytes ExpandVolumeResponse_NodeExpansionRequired].
  wire_fields.
Qed.
#[global] Instance wire_struct_ExpandVolumeResponse : WireStruct ExpandVolumeResponse.
Proof. apply struct_not_null. Qed.

(** [CreateSnapshotRequest]. *)
Record CreateSnapshotRequest := mkCreateSnapshotRequest {
  CreateSnapshotRequest_Name : string;
  CreateSnapshotRequest_SourceVolume : VolumeRef;
  CreateSnapshotRequest_Parameters : strmap;
  CreateSnapshotRequest_Secrets : strmap;
}.
Definition fields_CreateSnapshotRequest (x : CreateSnapshotRequest) : list (string * option json) :=
  [fld "name" (CreateSnapshotRequest_Name x);
   fld "sourceVolume" (CreateSnapshotRequest_SourceVolume x);
   fldo "parameters" (CreateSnapshotRequest_Parameters x);
   fldo "secrets" (CreateSnapshotRequest_Secrets x)].
Definition read_CreateSnapshotRequest (o : list (string * json)) (x : CreateSnapshotRequest) : CreateSnapshotRequest * bool :=
  let '(a0, k0) := dec_field "name" o (CreateSnapshotRequest_Name x) in
  let '(a1, k1) := dec_field "sourceVolume" o (CreateSnapshotRequest_SourceVolume x) in
  let '(a2, k2) := dec_field "parameters" o (CreateSnapshotRequest_Parameters x) in
  let '(a3, k3) := dec_field "secrets" o (CreateSnapshotRequest_Secrets x) in
  (mkCreateSnapshotRequest a0 a1 a2 a3, k0 && k1 && k2 && k3).
#[global] Instance wire_CreateSnapshotRequest : Wire CreateSnapshotRequest :=
  struct_wire (mkCreateSnapshotRequest zero zero zero zero) fields_CreateSnapshotRequest read_CreateSnapshotRequest
    (λ x, wire_ok (CreateSnapshotRequest_Name x) ∧ wire_ok (CreateSnapshotRequest_SourceVolume x) ∧ wire_ok (CreateSnapshotRequest_Parameters x) ∧ wire_ok (CreateSnapshotRequest_Secrets x)).
#[global] Instance wire_laws_CreateSnapshotRequest : WireLaws CreateSnapshotRequest.
Proof.
  apply struct_laws. intros [].
  cbv beta iota delta [read_CreateSnapshotRequest fields_CreateSnapshotRequest CreateSnapshotRequest_Name CreateSnapshotRequest_SourceVolume CreateSnapshotRequest_Parameters CreateSnapshotRequest_Secrets].
  wire_fields.
Qed.
#[global] Instance wire_struct_CreateSnapshotRequest : WireStruct CreateSnapshotRequest.
Proof. apply struct_not_null. Qed.

(** [CreateSnapshotResponse]. *)
Record CreateSnapshotResponse := mkCreateSnapshotResponse {
  CreateSnapshotResponse_Location : string;
  CreateSnapshotResponse_Name : string;
  CreateSnapshotResponse_SourceVolumeID : string;
  CreateSnapshotResponse_SizeBytes : Z;
  CreateSnapshotResponse_CreationTimeUnix : Z;
  CreateSnapshotResponse_ReadyToUse : bool;
}.
Definition fields_CreateSnapshotResponse (x : CreateSnapshotResponse) : list (string * option json) :=
  [fldo "location" (CreateSnapshotResponse_Location x);
   fld "name" (CreateSnapshotResponse_Name x);
   fld "sourceVolumeId" (CreateSnapshotResponse_SourceVolumeID x);
   fld "sizeBytes" (CreateSnapshotResponse_SizeBytes x);
   fld "creationTimeUnix" (CreateSnapshotResponse_CreationTimeUnix x);
   fld "readyToUse" (CreateSnapshotResponse_ReadyToUse x)].
Definition read_CreateSnapshotResponse (o : list (string * json)) (x : CreateSnapshotResponse) : CreateSnapshotResponse * bool :=
  let '(a0, k0) := dec_field "location" o (CreateSnapshotResponse_Location x) in
  let '(a1, k1) := dec_field "name" o (CreateSnapshotResponse_Name x) in
  let '(a2, k2) := dec_field "sourceVolumeId" o (CreateSnapshotResponse_SourceVolumeID x) in
  let '(a3, k3) := dec_field "sizeBytes" o (CreateSnapshotResponse_SizeBytes x) in
  let '(a4, k4) := dec_field "creationTimeUnix" o (CreateSnapshotResponse_CreationTimeUnix x) in
  let '(a5, k5) := dec_field "readyToUse" o (CreateSnapshotResponse_ReadyToUse x) in
  (mkCreateSnapshotResponse a0 a1 a2 a3 a4 a5, k0 && k1 && k2 && k3 && k4 && k5).
#[global] Instance wire_CreateSnapshotResponse : Wire CreateSnapshotResponse :=
  struct_wire (mkCreateSnapshotResponse zero zero zero zero zero zero) fields_CreateSnapshotResponse read_CreateSnapshotResponse
    (λ x, wire_ok (CreateSnapshotResponse_Location x) ∧ wire_ok (CreateSnapshotResponse_Name x) ∧ wire_ok (CreateSnapshotResponse_SourceVolumeID x) ∧ wire_ok (CreateSnapshotResponse_SizeBytes x) ∧ wire_ok (CreateSnapshotResponse_CreationTimeUnix x) ∧ wire_ok (CreateSnapshotResponse_ReadyToUse x)).
#[global] Instance wire_laws_CreateSnapshotResponse : WireLaws CreateSnapshotResponse.
Proof.
  apply struct_laws. intros [].
  cbv beta iota delta [read_CreateSnapshotResponse fields_CreateSnapshotResponse CreateSnapshotResponse_Location CreateSnapshotResponse_Name CreateSnapshotResponse_SourceVolumeID CreateSnapshotResponse_SizeBytes CreateSnapshotResponse_CreationTimeUnix CreateSnapshotResponse_ReadyToUse].
  wire_fields.
Qed.
#[global] Instance wire_struct_CreateSnapshotResponse : WireStruct CreateSnapshotResponse.
Proof. apply struct_not_null. Qed.

(** [DeleteSnapshotRequest]. *)
Record DeleteSnapshotRequest := mkDeleteSnapshotRequest {
  DeleteSnapshotRequest_Snapshot : VolumeRef;
  DeleteSnapshotRequest_Secrets : strmap;
}.
Definition fields_DeleteSnapshotRequest (x : DeleteSnapshotRequest) : list (string * option json) :=
  [fld "snapshot" (DeleteSnapshotRequest_Snapshot x);
   fldo "secrets" (DeleteSnapshotRequest_Secrets x)].
Definition read_DeleteSnapshotRequest (o : list (string * json)) (x : DeleteSnapshotRequest) : DeleteSnapshotRequest * bool :=
  let '(a0, k0) := dec_field "snapshot" o (DeleteSnapshotRequest_Snapshot x) in
  let '(a1, k1) := dec_field "secrets" o (DeleteSnapshotRequest_Secrets x) in
  (mkDeleteSnapshotRequest a0 a1, k0 && k1).
#[global] Instance wire_DeleteSnapshotRequest : Wire DeleteSnapshotRequest :=
  struct_wire (mkDeleteSnapshotRequest zero zero) fields_DeleteSnapshotRequest read_DeleteSnapshotRequest
    (λ x, wire_ok (DeleteSnapshotRequest_Snapshot x) ∧ wire_ok (DeleteSnapshotRequest_Secrets x)).
#[global] Instance wire_laws_DeleteSnapshotRequest : WireLaws DeleteSnapshotRequest.
Proof.
  apply struct_laws. intros [].
  cbv beta iota delta [read_DeleteSnapshotRequest fields_DeleteSnapshotRequest DeleteSnapshotRequest_Snapshot DeleteSnapshotRequest_Secrets].
  wire_fields.
Qed.
#[global] Instance wire_struct_DeleteSnapshotRequest : WireStruct DeleteSnapshotRequest.
Proof. apply struct_not_null. Qed.

(** [ControllerPublishRequest]. *)
Record ControllerPublishRequest := mkControllerPublishRequest {
  ControllerPublishRequest_Volume : VolumeRef;
  ControllerPublishRequest_NodeID : string;
  ControllerPublishRequest_Readonly : bool;
  ControllerPublishRequest_Context : strmap;
  ControllerPublishRequest_Secrets : strmap;
}.
Definition fields_ControllerPublishRequest (x : ControllerPublishRequest) : list (string * option json) :=
  [fld "volume" (ControllerPublishRequest_Volume x);
   fld "nodeId" (ControllerPublishRequest_NodeID x);
   fldo "readonly" (ControllerPublishRequest_Readonly x);
   fldo "context" (ControllerPublishRequest_Context x);
   fldo "secrets" (ControllerPublishRequest_Secrets x)].
Definition read_ControllerPublishRequest (o : list (string * json)) (x : ControllerPublishRequest) : ControllerPublishRequest * bool :=
  let '(a0, k0) := dec_field "volume" o (ControllerPublishRequest_Volume x) in
  let '(a1, k1) := dec_field "nodeId" o (ControllerPublishRequest_NodeID x) in
  let '(a2, k2) := dec_field "readonly" o (ControllerPublishRequest_Readonly x) in
  let '(a3, k3) := dec_field "context" o (ControllerPublishRequest_Context x) in
  let '(a4, k4) := dec_field "secrets" o (ControllerPublishRequest_Secrets x) in
  (mkControllerPublishRequest a0 a1 a2 a3 a4, k0 && k1 && k2 && k3 && k4).
#[global] Instance wire_ControllerPublishRequest : Wire ControllerPublishRequest :=
  struct_wire (mkControllerPublishRequest zero zero zero zero zero) fields_ControllerPublishRequest read_ControllerPublishRequest
    (λ x, wire_ok (ControllerPublishRequest_Volume x) ∧ wire_ok (ControllerPublishRequest_NodeID x) ∧ wire_ok (ControllerPublishRequest_Readonly x) ∧ wire_ok (ControllerPublishRequest_Context x) ∧ wire_ok (ControllerPublishRequest_Secrets x)).
#[global] Instance wire_laws_ControllerPublishRequest : WireLaws ControllerPublishRequest.
Proof.
  apply struct_laws. intros [].
  cbv beta iota delta [read_ControllerPublishRequest fields_ControllerPublishRequest ControllerPublishRequest_Volume ControllerPublishRequest_NodeID ControllerPublishRequest_Readonly ControllerPublishRequest_Context ControllerPublishRequest_Secrets].
  wire_fields.
Qed.
#[global] Instance wire_struct_ControllerPublishRequest : WireStruct ControllerPublishRequest.
Proof. apply struct_not_null. Qed.

(** [ControllerPublishResponse]. *)
Record ControllerPublishResponse := mkControllerPublishResponse {
  ControllerPublishResponse_PublishContext : strmap;
}.
Definition fields_ControllerPublishResponse (x : ControllerPublishResponse) : list (string * option json) :=
  [fldo "publishContext" (ControllerPublishResponse_PublishContext x)].
Definition read_ControllerPublishResponse (o : list (string * json)) (x : ControllerPublishResponse) : ControllerPublishResponse * bool :=
  let '(a0, k0) := dec_field "publishContext" o (ControllerPublishResponse_PublishContext x) in
  (mkControllerPublishResponse a0, k0).
#[global] Instance wire_ControllerPublishResponse : Wire ControllerPublishResponse :=
  struct_wire (mkControllerPublishResponse zero) fields_ControllerPublishResponse read_ControllerPublishResponse
    (λ x, wire_ok (ControllerPublishResponse_PublishContext x)).
#[global] Instance wire_laws_ControllerPublishResponse : WireLaws ControllerPublishResponse.
Proof.
  apply struct_laws. intros [].
  cbv beta iota delta [read_ControllerPublishResponse fields_ControllerPublishResponse ControllerPublishResponse_PublishContext].
  wire_fields.
Qed.
#[global] Instance wire_struct_ControllerPublishResponse : WireStruct ControllerPublishResponse.
Proof. apply struct_not_null. Qed.

(** [ControllerUnpublishRequest]. *)
Record ControllerUnpublishRequest := mkControllerUnpublishRequest {
  ControllerUnpublishRequest_Volume : VolumeRef;
  ControllerUnpublishRequest_NodeID : string;
  ControllerUnpublishRequest_Secrets : strmap;
}.
Definition fields_ControllerUnpublishRequest (x : ControllerUnpublishRequest) : list (string * option json) :=
  [fld "volume" (ControllerUnpublishRequest_Volume x);
   fld "nodeId" (ControllerUnpublishRequest_NodeID x);
   fldo "secrets" (ControllerUnpublishRequest_Secrets x)].
Definition read_ControllerUnpublishRequest (o : list (string * json)) (x : ControllerUnpublishRequest) : ControllerUnpublishRequest * bool :=
  let '(a0, k0) := dec_field "volume" o (ControllerUnpublishRequest_Volume x) in
  let '(a1, k1) := dec_field "nodeId" o (ControllerUnpublishRequest_NodeID x) in
  let '(a2, k2) := dec_field "secrets" o (ControllerUnpublishRequest_Secrets x) in
  (mkControllerUnpublishRequest a0 a1 a2, k0 && k1 && k2).
#[global] Instance wire_ControllerUnpublishRequest : Wire ControllerUnpublishRequest :=
  struct_wire (mkControllerUnpublishRequest zero zero zero) fields_ControllerUnpublishRequest read_ControllerUnpublishRequest
    (λ x, wire_ok (ControllerUnpublishRequest_Volume x) ∧ wire_ok (ControllerUnpublishRequest_NodeID x) ∧ wire_ok (ControllerUnpublishRequest_Secrets x)).
#[global] Instance wire_laws_ControllerUnpublishRequest : WireLaws ControllerUnpublishRequest.
Proof.
  apply struct_laws. intros [].
  cbv beta iota delta [read_ControllerUnpublishRequest fields_ControllerUnpublishRequest ControllerUnpublishRequest_Volume ControllerUnpublishRequest_NodeID ControllerUnpublishRequest_Secrets].
  wire_fields.
Qed.
#[global] Instance wire_struct_ControllerUnpublishRequest : WireStruct ControllerUnpublishRequest.
Proof. apply struct_not_null. Qed.

(** [NodeStageRequest]. *)
Record NodeStageRequest := mkNodeStageRequest {
  NodeStageRequest_Volume : VolumeRef;
  NodeStageRequest_StagingPath : string;
  NodeStageRequest_FsType : string;
  NodeStageRequest_MountFlags : list string;
  NodeStageRequest_Readonly : bool;
  NodeStageRequest_Block : bool;
  NodeStageRequest_PublishContext : strmap;
  NodeStageRequest_Exclusive : bool;
  NodeStageRequest_Context : strmap;
  NodeStageRequest_CrushLocation : string;
  NodeStageRequest_Secrets : strmap;
}.
Definition fields_NodeStageRequest (x : NodeStageRequest) : list (string * option json) :=
  [fld "volume" (NodeStageRequest_Volume x);
   fld "stagingPath" (NodeStageRequest_StagingPath x);
   fldo "fsType" (NodeStageRequest_FsType x);
   fldo "mountFlags" (NodeStageRequest_MountFlags x);
   fldo "readonly" (NodeStageRequest_Readonly x);
   fldo "block" (NodeStageRequest_Block x);
   fldo "publishContext" (NodeStageRequest_PublishContext x);
   fldo "exclusive" (NodeStageRequest_Exclusive x);
   fldo "context" (NodeStageRequest_Context x);
   fldo "crushLocation" (NodeStageRequest_CrushLocation x);
   fldo "secrets" (NodeStageRequest_Secrets x)].
Definition read_NodeStageRequest (o : list (string * json)) (x : NodeStageRequest) : NodeStageRequest * bool :=
  let '(a0, k0) := dec_field "volume" o (NodeStageRequest_Volume x) in
  let '(a1, k1) := dec_field "stagingPath" o (NodeStageRequest_StagingPath x) in
  let '(a2, k2) := dec_field "fsType" o (NodeStageRequest_FsType x) in
  let '(a3, k3) := dec_field "mountFlags" o (NodeStageRequest_MountFlags x) in
  let '(a4, k4) := dec_field "readonly" o (NodeStageRequest_Readonly x) in
  let '(a5, k5) := dec_field "block" o (NodeStageRequest_Block x) in
  let '(a6, k6) := dec_field "publishContext" o (NodeStageRequest_PublishContext x) in
  let '(a7, k7) := dec_field "exclusive" o (NodeStageRequest_Exclusive x) in
  let '(a8, k8) := dec_field "context" o (NodeStageRequest_Context x) in
  let '(a9, k9) := dec_field "crushLocation" o (NodeStageRequest_CrushLocation x) in
  let '(a10, k10) := dec_field "secrets" o (NodeStageRequest_Secrets x) in
  (mkNodeStageRequest a0 a1 a2 a3 a4 a5 a6 a7 a8 a9 a10, k0 && k1 && k2 && k3 && k4 && k5 && k6 && k7 && k8 && k9 && k10).
#[global] Instance wire_NodeStageRequest : Wire NodeStageRequest :=
  struct_wire (mkNodeStageRequest zero zero zero zero zero zero zero zero zero zero zero) fields_NodeStageRequest read_NodeStageRequest
    (λ x, wire_ok (NodeStageRequest_Volume x) ∧ wire_ok (NodeStageRequest_StagingPath x) ∧ wire_ok (NodeStageRequest_FsType x) ∧ wire_ok (NodeStageRequest_MountFlags x) ∧ wire_ok (NodeStageRequest_Readonly x) ∧ wire_ok (NodeStageRequest_Block x) ∧ wire_ok (NodeStageRequest_PublishContext x) ∧ wire_ok (NodeStageRequest_Exclusive x) ∧ wire_ok (NodeStageRequest_Context x) ∧ wire_ok (NodeStageRequest_CrushLocation x) ∧ wire_ok (NodeStageRequest_Secrets x)).
#[global] Instance wire_laws_NodeStageRequest : WireLaws NodeStageRequest.
Proof.
  apply struct_laws. intros [].
  cbv beta iota delta [read_NodeStageRequest fields_NodeStageRequest NodeStageRequest_Volume NodeStageRequest_StagingPath NodeStageRequest_FsType NodeStageRequest_MountFlags NodeStageRequest_Readonly NodeStageRequest_Block NodeStageRequest_PublishContext NodeStageRequest_Exclusive NodeStageRequest_Context NodeStageRequest_CrushLocation NodeStageRequest_Secrets].
  wire_fields.
Qed.
#[global] Instance wire_struct_NodeStageRequest : WireStruct NodeStageRequest.
Proof. apply struct_not_null. Qed.

(** [NodeUnstageRequest]. *)
Record NodeUnstageRequest := mkNodeUnstageRequest {
  NodeUnstageRequest_Volume : VolumeRef;
  NodeUnstageRequest_StagingPath : string;
}.
Definition fields_NodeUnstageRequest (x : NodeUnstageRequest) : list (string * option json) :=
  [fld "volume" (NodeUnstageRequest_Volume x);
   fld "stagingPath" (NodeUnstageRequest_StagingPath x)].
Definition read_NodeUnstageRequest (o : list (string * json)) (x : NodeUnstageRequest) : NodeUnstageRequest * bool :=
  let '(a0, k0) := dec_field "volume" o (NodeUnstageRequest_Volume x) in
  let '(a1, k1) := dec_field "stagingPath" o (NodeUnstageRequest_StagingPath x) in
  (mkNodeUnstageRequest a0 a1, k0 && k1).
#[global] Instance wire_NodeUnstageRequest : Wire NodeUnstageRequest :=
  struct_wire (mkNodeUnstageRequest zero zero) fields_NodeUnstageRequest read_NodeUnstageRequest
    (λ x, wire_ok (NodeUnstageRequest_Volume x) ∧ wire_ok (NodeUnstageRequest_StagingPath x)).
#[global] Instance wire_laws_NodeUnstageRequest : WireLaws NodeUnstageRequest.
Proof.
  apply struct_laws. intros [].
  cbv beta iota delta [read_NodeUnstageRequest fields_NodeUnstageRequest NodeUnstageRequest_Volume NodeUnstageRequest_StagingPath].
  wire_fields.
Qed.
#[global] Instance wire_struct_NodeUnstageRequest : WireStruct NodeUnstageRequest.
Proof. apply struct_not_null. Qed.

(** [NodePublishRequest]. *)
Record NodePublishRequest := mkNodePublishRequest {
  NodePublishRequest_Volume : VolumeRef;
  NodePublishRequest_StagingPath : string;
  NodePublishRequest_TargetPath : string;
  NodePublishRequest_FsType : string;
  NodePublishRequest_MountFlags : list string;
  NodePublishRequest_Readonly : bool;
  NodePublishRequest_Block : bool;
  NodePublishRequest_Context : strmap;
}.
Definition fields_NodePublishRequest (x : NodePublishRequest) : list (string * option json) :=
  [fld "volume" (NodePublishRequest_Volume x);
   fld "stagingPath" (NodePublishRequest_StagingPath x);
   fld "targetPath" (NodePublishRequest_TargetPath x);
   fldo "fsType" (NodePublishRequest_FsType x);
   fldo "mountFlags" (NodePublishRequest_MountFlags x);
   fldo "readonly" (NodePublishRequest_Readonly x);
   fldo "block" (NodePublishRequest_Block x);
   fldo "context" (NodePublishRequest_Context x)].
Definition read_NodePublishRequest (o : list (string * json)) (x : NodePublishRequest) : NodePublishRequest * bool :=
  let '(a0, k0) := dec_field "volume" o (NodePublishRequest_Volume x) in
  let '(a1, k1) := dec_field "stagingPath" o (NodePublishRequest_StagingPath x) in
  let '(a2, k2) := dec_field "targetPath" o (NodePublishRequest_TargetPath x) in
  let '(a3, k3) := dec_field "fsType" o (NodePublishRequest_FsType x) in
  let '(a4, k4) := dec_field "mountFlags" o (NodePublishRequest_MountFlags x) in
  let '(a5, k5) := dec_field "readonly" o (NodePublishRequest_Readonly x) in
  let '(a6, k6) := dec_field "block" o (NodePublishRequest_Block x) in
  let '(a7, k7) := dec_field "context" o (NodePublishRequest_Context x) in
  (mkNodePublishRequest a0 a1 a2 a3 a4 a5 a6 a7, k0 && k1 && k2 && k3 && k4 && k5 && k6 && k7).
#[global] Instance wire_NodePublishRequest : Wire NodePublishRequest :=
  struct_wire (mkNodePublishRequest zero zero zero zero zero zero zero zero) fields_NodePublishRequest read_NodePublishRequest
    (λ x, wire_ok (NodePublishRequest_Volume x) ∧ wire_ok (NodePublishRequest_StagingPath x) ∧ wire_ok (NodePublishRequest_TargetPath x) ∧ wire_ok (NodePublishRequest_FsType x) ∧ wire_ok (NodePublishRequest_MountFlags x) ∧ wire_ok (NodePublishRequest_Readonly x) ∧ wire_ok (NodePublishRequest_Block x) ∧ wire_ok (NodePublishRequest_Context x)).
#[global] Instance wire_laws_NodePublishRequest : WireLaws NodePublishRequest.
Proof.
  apply struct_laws. intros [].
  cbv beta iota delta [read_NodePublishRequest fields_NodePublishRequest NodePublishRequest_Volume NodePublishRequest_StagingPath NodePublishRequest_TargetPath NodePublishRequest_FsType NodePublishRequest_MountFlags NodePublishRequest_Readonly NodePublishRequest_Block NodePublishRequest_Context].
  wire_fields.
Qed.
#[global] Instance wire_struct_NodePublishRequest : WireStruct NodePublishRequest.
Proof. apply struct_not_null. Qed.

(** [NodeUnpublishRequest]. *)
Record NodeUnpublishRequest := mkNodeUnpublishRequest {
  NodeUnpublishRequest_Volume : VolumeRef;
  NodeUnpublishRequest_TargetPath : string;
}.
Definition fields_NodeUnpublishRequest (x : NodeUnpublishRequest) : list (string * option json) :=
  [fld "volume" (NodeUnpublishRequest_Volume x);
   fld "targetPath" (NodeUnpublishRequest_TargetPath x)].
Definition read_NodeUnpublishRequest (o : list (string * json)) (x : NodeUnpublishRequest) : NodeUnpublishRequest * bool :=
  let '(a0, k0) := dec_field "volume" o (NodeUnpublishRequest_Volume x) in
  let '(a1, k1) := dec_field "targetPath" o (NodeUnpublishRequest_TargetPath x) in
  (mkNodeUnpublishRequest a0 a1, k0 && k1).
#[global] Instance wire_NodeUnpublishRequest : Wire NodeUnpublishRequest :=
  struct_wire (mkNodeUnpublishRequest zero zero) fields_NodeUnpublishRequest read_NodeUnpublishRequest
    (λ x, wire_ok (NodeUnpublishRequest_Volume x) ∧ wire_ok (NodeUnpublishRequest_TargetPath x)).
#[global] Instance wire_laws_NodeUnpublishRequest : WireLaws NodeUnpublishRequest.
Proof.
  apply struct_laws. intros [].
  cbv beta iota delta [read_NodeUnpublishRequest fields_NodeUnpublishRequest NodeUnpublishRequest_Volume NodeUnpublishRequest_TargetPath].
  wire_fields.
Qed.
#[global] Instance wire_struct_NodeUnpublishRequest : WireStruct NodeUnpublishRequest.
Proof. apply struct_not_null. Qed.

(** [NodeExpandRequest]. *)
Record NodeExpandRequest := mkNodeExpandRequest {
  NodeExpandRequest_Volume : VolumeRef;
  NodeExpandRequest_VolumePath : string;
}.
Definition fields_NodeExpandRequest (x : NodeExpandRequest) : list (string * option json) :=
  [fld "volume" (NodeExpandRequest_Volume x);
   fld "volumePath" (NodeExpandRequest_VolumePath x)].
Definition read_NodeExpandRequest (o : list (string * json)) (x : NodeExpandRequest) : NodeExpandRequest * bool :=
  let '(a0, k0) := dec_field "volume" o (NodeExpandRequest_Volume x) in
  let '(a1, k1) := dec_field "volumePath" o (NodeExpandRequest_VolumePath x) in
  (mkNodeExpandRequest a0 a1, k0 && k1).
#[global] Instance wire_NodeExpandRequest : Wire NodeExpandRequest :=
  struct_wire (mkNodeExpandRequest zero zero) fields_NodeExpandRequest read_NodeExpandRequest
    (λ x, wire_ok (NodeExpandRequest_Volume x) ∧ wire_ok (NodeExpandRequest_VolumePath x)).
#[global] Instance wire_laws_NodeExpandRequest : WireLaws NodeExpandRequest.
Proof.
  apply struct_laws. intros [].
  cbv beta iota delta [read_NodeExpandRequest fields_NodeExpandRequest NodeExpandRequest_Volume NodeExpandRequest_VolumePath].
  wire_fields.
Qed.
#[global] Instance wire_struct_NodeExpandRequest : WireStruct NodeExpandRequest.
Proof. apply struct_not_null. Qed.

(** [NodeExpandResponse]. *)
Record NodeExpandResponse := mkNodeExpandResponse {
  NodeExpandResponse_CapacityBytes : Z;
}.
Definition fields_NodeExpandResponse (x : NodeExpandResponse) : list (string * option json) :=
  [fld "capacityBytes" (NodeExpandResponse_CapacityBytes x)].
Definition read_NodeExpandResponse (o : list (string * json)) (x : NodeExpandResponse) : NodeExpandResponse * bool :=
  let '(a0, k0) := dec_field "capacityBytes" o (NodeExpandResponse_CapacityBytes x) in
  (mkNodeExpandResponse a0, k0).
#[global] Instance wire_NodeExpandResponse : Wire NodeExpandResponse :=
  struct_wire (mkNodeExpandResponse zero) fields_NodeExpandResponse read_NodeExpandResponse
    (λ x, wire_ok (NodeExpandResponse_CapacityBytes x)).
#[global] Instance wire_laws_NodeExpandResponse : WireLaws NodeExpandResponse.
Proof.
  apply struct_laws. intros [].
  cbv beta iota delta [read_NodeExpandResponse fields_NodeExpandResponse NodeExpandResponse_CapacityBytes].
  wire_fields.
Qed.
#[global] Instance wire_struct_NodeExpandResponse : WireStruct NodeExpandResponse.
Proof. apply struct_not_null. Qed.

(** [GetCapacityRequest]. *)
Record GetCapacityRequest := mkGetCapacityRequest {
  GetCapacityRequest_Instance : string;
  GetCapacityRequest_Parameters : strmap;
}.
Definition fields_GetCapacityRequest (x : GetCapacityRequest) : list (string * option json) :=
  [fldo "instance" (GetCapacityRequest_Instance x);
   fldo "parameters" (GetCapacityRequest_Parameters x)].
Definition read_GetCapacityRequest (o : list (string * json)) (x : GetCapacityRequest) : GetCapacityRequest * bool :=
  let '(a0, k0) := dec_field "instance" o (GetCapacityRequest_Instance x) in
  let '(a1, k1) := dec_field "parameters" o (GetCapacityRequest_Parameters x) in
  (mkGetCapacityRequest a0 a1, k0 && k1).
#[global] Instance wire_GetCapacityRequest : Wire GetCapacityRequest :=
  struct_wire (mkGetCapacityRequest zero zero) fields_GetCapacityRequest read_GetCapacityRequest
    (λ x, wire_ok (GetCapacityRequest_Instance x) ∧ wire_ok (GetCapacityRequest_Parameters x)).
#[global] Instance wire_laws_GetCapacityRequest : WireLaws GetCapacityRequest.
Proof.
  apply struct_laws. intros [].
  cbv beta iota delta [read_GetCapacityRequest fields_GetCapacityRequest GetCapacityRequest_Instance GetCapacityRequest_Parameters].
  wire_fields.
Qed.
#[global] Instance wire_struct_GetCapacityRequest : WireStruct GetCapacityRequest.
Proof. apply struct_not_null. Qed.

(** [GetCapacityResponse]. *)
Record GetCapacityResponse := mkGetCapacityResponse {
  GetCapacityResponse_AvailableBytes : Z;
}.
Definition fields_GetCapacityResponse (x : GetCapacityResponse) : list (string * option json) :=
  [fld "availableBytes" (GetCapacityResponse_AvailableBytes x)].
Definition read_GetCapacityResponse (o : list (string * json)) (x : GetCapacityResponse) : GetCapacityResponse * bool :=
  let '(a0, k0) := dec_field "availableBytes" o (GetCapacityResponse_AvailableBytes x) in
  (mkGetCapacityResponse a0, k0).
#[global] Instance wire_GetCapacityResponse : Wire GetCapacityResponse :=
  struct_wire (mkGetCapacityResponse zero) fields_GetCapacityResponse read_GetCapacityResponse
    (λ x, wire_ok (GetCapacityResponse_AvailableBytes x)).
#[global] Instance wire_laws_GetCapacityResponse : WireLaws GetCapacityResponse.
Proof.
  apply struct_laws. intros [].
  cbv beta iota delta [read_GetCapacityResponse fields_GetCapacityResponse GetCapacityResponse_AvailableBytes].
  wire_fields.
Qed.
#[global] Instance wire_struct_GetCapacityResponse : WireStruct GetCapacityResponse.
Proof. apply struct_not_null. Qed.

(** [GetVolumeHealthRequest]. *)
Record GetVolumeHealthRequest := mkGetVolumeHealthRequest {
  GetVolumeHealthRequest_Volume : VolumeRef;
  GetVolumeHealthRequest_Secrets : strmap;
}.
Definition fields_GetVolumeHealthRequest (x : GetVolumeHealthRequest) : list (string * option json) :=
  [fld "volume" (GetVolumeHealthRequest_Volume x);
   fldo "secrets" (GetVolumeHealthRequest_Secrets x)].
Definition read_GetVolumeHealthRequest (o : list (string * json)) (x : GetVolumeHealthRequest) : GetVolumeHealthRequest * bool :=
  let '(a0, k0) := dec_field "volume" o (GetVolumeHealthRequest_Volume x) in
  let '(a1, k1) := dec_field "secrets" o (GetVolumeHealthRequest_Secrets x) in
  (mkGetVolumeHealthRequest a0 a1, k0 && k1).
#[global] Instance wire_GetVolumeHealthRequest : Wire GetVolumeHealthRequest :=
  struct_wire (mkGetVolumeHealthRequest zero zero) fields_GetVolumeHealthRequest read_GetVolumeHealthRequest
    (λ x, wire_ok (GetVolumeHealthRequest_Volume x) ∧ wire_ok (GetVolumeHealthRequest_Secrets x)).
#[global] Instance wire_laws_GetVolumeHealthRequest : WireLaws GetVolumeHealthRequest.
Proof.
  apply struct_laws. intros [].
  cbv beta iota delta [read_GetVolumeHealthRequest fields_GetVolumeHealthRequest GetVolumeHealthRequest_Volume GetVolumeHealthRequest_Secrets].
  wire_fields.
Qed.
#[global] Instance wire_struct_GetVolumeHealthRequest : WireStruct GetVolumeHealthRequest.
Proof. apply struct_not_null. Qed.

(** [ModifyVolumeRequest]. *)
Record ModifyVolumeRequest := mkModifyVolumeRequest {
  ModifyVolumeRequest_Volume : VolumeRef;
  ModifyVolumeRequest_MutableParams : strmap;
  ModifyVolumeRequest_Secrets : strmap;
}.
Definition fields_ModifyVolumeRequest (x : ModifyVolumeRequest) : list (string * option json) :=
  [fld "volume" (ModifyVolumeRequest_Volume x);
   fldo "mutableParams" (ModifyVolumeRequest_MutableParams x);
   fldo "secrets" (ModifyVolumeRequest_Secrets x)].
Definition read_ModifyVolumeRequest (o : list (string * json)) (x : ModifyVolumeRequest) : ModifyVolumeRequest * bool :=
  let '(a0, k0) := dec_field "volume" o (ModifyVolumeRequest_Volume x) in
  let '(a1, k1) := dec_field "mutableParams" o (ModifyVolumeRequest_MutableParams x) in
  let '(a2, k2) := dec_field "secrets" o (ModifyVolumeRequest_Secrets x) in
  (mkModifyVolumeRequest a0 a1 a2, k0 && k1 && k2).
#[global] Instance wire_ModifyVolumeRequest : Wire ModifyVolumeRequest :=
  struct_wire (mkModifyVolumeRequest zero zero zero) fields_ModifyVolumeRequest read_ModifyVolumeRequest
    (λ x, wire_ok (ModifyVolumeRequest_Volume x) ∧ wire_ok (ModifyVolumeRequest_MutableParams x) ∧ wire_ok (ModifyVolumeRequest_Secrets x)).
#[global] Instance wire_laws_ModifyVolumeRequest : WireLaws ModifyVolumeRequest.
Proof.
  apply struct_laws. intros [].
  cbv beta iota delta [read_ModifyVolumeRequest fields_ModifyVolumeRequest ModifyVolumeRequest_Volume ModifyVolumeRequest_MutableParams ModifyVolumeRequest_Secrets].
  wire_fields.
Qed.
#[global] Instance wire_struct_ModifyVolumeRequest : WireStruct ModifyVolumeRequest.
Proof. apply struct_not_null. Qed.

(** [ModifyVolumeResponse]. *)
Record ModifyVolumeResponse := mkModifyVolumeResponse {}.
#[global] Instance wire_ModifyVolumeResponse : Wire ModifyVolumeResponse :=
  struct_wire mkModifyVolumeResponse (λ _, []) (λ _ x, (x, true)) (λ _, True).
#[global] Instance wire_laws_ModifyVolumeResponse : WireLaws ModifyVolumeResponse.
Proof. apply struct_laws. by intros []. Qed.
#[global] Instance wire_struct_ModifyVolumeResponse : WireStruct ModifyVolumeResponse.
Proof. apply struct_not_null. Qed.

(** [GetVolumeHealthResponse]. *)
Record GetVolumeHealthResponse := mkGetVolumeHealthResponse {
  GetVolumeHealthResponse_Abnormal : bool;
  GetVolumeHealthResponse_Message : string;
}.
Definition fields_GetVolumeHealthResponse (x : GetVolumeHealthResponse) : list (string * option json) :=
  [fld "abnormal" (GetVolumeHealthResponse_Abnormal x);
   fldo "message" (GetVolumeHealthResponse_Message x)].
Definition read_GetVolumeHealthResponse (o : list (string * json)) (x : GetVolumeHealthResponse) : GetVolumeHealthResponse * bool :=
  let '(a0, k0) := dec_field "abnormal" o (GetVolumeHealthResponse_Abnormal x) in
  let '(a1, k1) := dec_field "message" o (GetVolumeHealthResponse_Message x) in
  (mkGetVolumeHealthResponse a0 a1, k0 && k1).
#[global] Instance wire_GetVolumeHealthResponse : Wire GetVolumeHealthResponse :=
  struct_wire (mkGetVolumeHealthResponse zero zero) fields_GetVolumeHealthResponse read_GetVolumeHealthResponse
    (λ x, wire_ok (GetVolumeHealthResponse_Abnormal x) ∧ wire_ok (GetVolumeHealthResponse_Message x)).
#[global] Instance wire_laws_GetVolumeHealthResponse : WireLaws GetVolumeHealthResponse.
Proof.
  apply struct_laws. intros [].
  cbv beta iota delta [read_GetVolumeHealthResponse fields_GetVolumeHealthResponse GetVolumeHealthResponse_Abnormal GetVolumeHealthResponse_Message].
  wire_fields.
Qed.
#[global] Instance wire_struct_GetVolumeHealthResponse : WireStruct GetVolumeHealthResponse.
Proof. apply struct_not_null. Qed.

(** [ListVolumesRequest]. *)
Record ListVolumesRequest := mkListVolumesRequest {}.
#[global] Instance wire_ListVolumesRequest : Wire ListVolumesRequest :=
  struct_wire mkListVolumesRequest (λ _, []) (λ _ x, (x, true)) (λ _, True).
#[global] Instance wire_laws_ListVolumesRequest : WireLaws ListVolumesRequest.
Proof. apply struct_laws. by intros []. Qed.
#[global] Instance wire_struct_ListVolumesRequest : WireStruct ListVolumesRequest.
Proof. apply struct_not_null. Qed.

(** [VolumeListEntry]. *)
Record VolumeListEntry := mkVolumeListEntry {
  VolumeListEntry_Volume : VolumeRef;
  VolumeListEntry_CapacityBytes : Z;
}.
Definition fields_VolumeListEntry (x : VolumeListEntry) : list (string * option json) :=
  [fld "volume" (VolumeListEntry_Volume x);
   fldo "capacityBytes" (VolumeListEntry_CapacityBytes x)].
Definition read_VolumeListEntry (o : list (string * json)) (x : VolumeListEntry) : VolumeListEntry * bool :=
  let '(a0, k0) := dec_field "volume" o (VolumeListEntry_Volume x) in
  let '(a1, k1) := dec_field "capacityBytes" o (VolumeListEntry_CapacityBytes x) in
  (mkVolumeListEntry a0 a1, k0 && k1).
#[global] Instance wire_VolumeListEntry : Wire VolumeListEntry :=
  struct_wire (mkVolumeListEntry zero zero) fields_VolumeListEntry read_VolumeListEntry
    (λ x, wire_ok (VolumeListEntry_Volume x) ∧ wire_ok (VolumeListEntry_CapacityBytes x)).
#[global] Instance wire_laws_VolumeListEntry : WireLaws VolumeListEntry.
Proof.
  apply struct_laws. intros [].
  cbv beta iota delta [read_VolumeListEntry fields_VolumeListEntry VolumeListEntry_Volume VolumeListEntry_CapacityBytes].
  wire_fields.
Qed.
#[global] Instance wire_struct_VolumeListEntry : WireStruct VolumeListEntry.
Proof. apply struct_not_null. Qed.

(** [ListVolumesResponse]. *)
Record ListVolumesResponse := mkListVolumesResponse {
  ListVolumesResponse_Entries : list VolumeListEntry;
}.
Definition fields_ListVolumesResponse (x : ListVolumesResponse) : list (string * option json) :=
  [fld "entries" (ListVolumesResponse_Entries x)].
Definition read_ListVolumesResponse (o : list (string * json)) (x : ListVolumesResponse) : ListVolumesResponse * bool :=
  let '(a0, k0) := dec_field "entries" o (ListVolumesResponse_Entries x) in
  (mkListVolumesResponse a0, k0).
#[global] Instance wire_ListVolumesResponse : Wire ListVolumesResponse :=
  struct_wire (mkListVolumesResponse zero) fields_ListVolumesResponse read_ListVolumesResponse
    (λ x, wire_ok (ListVolumesResponse_Entries x)).
#[global] Instance wire_laws_ListVolumesResponse : WireLaws ListVolumesResponse.
Proof.
  apply struct_laws. intros [].
  cbv beta iota delta [read_ListVolumesResponse fields_ListVolumesResponse ListVolumesResponse_Entries].
  wire_fields.
Qed.
#[global] Instance wire_struct_ListVolumesResponse : WireStruct ListVolumesResponse.
Proof. apply struct_not_null. Qed.

(** [ListSnapshotsRequest]. *)
Record ListSnapshotsRequest := mkListSnapshotsRequest {}.
#[global] Instance wire_ListSnapshotsRequest : Wire ListSnapshotsRequest :=
  struct_wire mkListSnapshotsRequest (λ _, []) (λ _ x, (x, true)) (λ _, True).
#[global] Instance wire_laws_ListSnapshotsRequest : WireLaws ListSnapshotsRequest.
Proof. apply struct_laws. by intros []. Qed.
#[global] Instance wire_struct_ListSnapshotsRequest : WireStruct ListSnapshotsRequest.
Proof. apply struct_not_null. Qed.

(** [SnapshotListEntry]. *)
Record SnapshotListEntry := mkSnapshotListEntry {
  SnapshotListEntry_Snapshot : VolumeRef;
  SnapshotListEntry_SourceVolume : VolumeRef;
  SnapshotListEntry_SizeBytes : Z;
  SnapshotListEntry_CreationTimeUnix : Z;
  SnapshotListEntry_ReadyToUse : bool;
}.
Definition fields_SnapshotListEntry (x : SnapshotListEntry) : list (string * option json) :=
  [fld "snapshot" (SnapshotListEntry_Snapshot x);
   fld "sourceVolume" (SnapshotListEntry_SourceVolume x);
   fldo "sizeBytes" (SnapshotListEntry_SizeBytes x);
   fldo "creationTimeUnix" (SnapshotListEntry_CreationTimeUnix x);
   fld "readyToUse" (SnapshotListEntry_ReadyToUse x)].
Definition read_SnapshotListEntry (o : list (string * json)) (x : SnapshotListEntry) : SnapshotListEntry * bool :=
  let '(a0, k0) := dec_field "snapshot" o (SnapshotListEntry_Snapshot x) in
  let '(a1, k1) := dec_field "sourceVolume" o (SnapshotListEntry_SourceVolume x) in
  let '(a2, k2) := dec_field "sizeBytes" o (SnapshotListEntry_SizeBytes x) in
  let '(a3, k3) := dec_field "creationTimeUnix" o (SnapshotListEntry_CreationTimeUnix x) in
  let '(a4, k4) := dec_field "readyToUse" o (SnapshotListEntry_ReadyToUse x) in
  (mkSnapshotListEntry a0 a1 a2 a3 a4, k0 && k1 && k2 && k3 && k4).
#[global] Instance wire_SnapshotListEntry : Wire SnapshotListEntry :=
  struct_wire (mkSnapshotListEntry zero zero zero zero zero) fields_SnapshotListEntry read_SnapshotListEntry
    (λ x, wire_ok (SnapshotListEntry_Snapshot x) ∧ wire_ok (SnapshotListEntry_SourceVolume x) ∧ wire_ok (SnapshotListEntry_SizeBytes x) ∧ wire_ok (SnapshotListEntry_CreationTimeUnix x) ∧ wire_ok (SnapshotListEntry_ReadyToUse x)).
#[global] Instance wire_laws_SnapshotListEntry : WireLaws SnapshotListEntry.
Proof.
  apply struct_laws. intros [].
  cbv beta iota delta [read_SnapshotListEntry fields_SnapshotListEntry SnapshotListEntry_Snapshot SnapshotListEntry_SourceVolume SnapshotListEntry_SizeBytes SnapshotListEntry_CreationTimeUnix SnapshotListEntry_ReadyToUse].
  wire_fields.
Qed.
#[global] Instance wire_struct_SnapshotListEntry : WireStruct SnapshotListEntry.
Proof. apply struct_not_null. Qed.

(** [ListSnapshotsResponse]. *)
Record ListSnapshotsResponse := mkListSnapshotsResponse {
  ListSnapshotsResponse_Entries : list SnapshotListEntry;
}.
Definition fields_ListSnapshotsResponse (x : ListSnapshotsResponse) : list (string * option json) :=
  [fld "entries" (ListSnapshotsResponse_Entries x)].
Definition read_ListSnapshotsResponse (o : list (string * json)) (x : ListSnapshotsResponse) : ListSnapshotsResponse * bool :=
  let '(a0, k0) := dec_field "entries" o (ListSnapshotsResponse_Entries x) in
  (mkListSnapshotsResponse a0, k0).
#[global] Instance wire_ListSnapshotsResponse : Wire ListSnapshotsResponse :=
  struct_wire (mkListSnapshotsResponse zero) fields_ListSnapshotsResponse read_ListSnapshotsResponse
    (λ x, wire_ok (ListSnapshotsResponse_Entries x)).
#[global] Instance wire_laws_ListSnapshotsResponse : WireLaws ListSnapshotsResponse.
Proof.
  apply struct_laws. intros [].
  cbv beta iota delta [read_ListSnapshotsResponse fields_ListSnapshotsResponse ListSnapshotsResponse_Entries].
  wire_fields.
Qed.
#[global] Instance wire_struct_ListSnapshotsResponse : WireStruct ListSnapshotsResponse.
Proof. apply struct_not_null. Qed.

(** [ReclaimSpaceRequest]. *)
Record ReclaimSpaceRequest := mkReclaimSpaceRequest {
  ReclaimSpaceRequest_Volume : VolumeRef;
  ReclaimSpaceRequest_Secrets : strmap;
}.
Definition fields_ReclaimSpaceRequest (x : ReclaimSpaceRequest) : list (string * option json) :=
  [fld "volume" (ReclaimSpaceRequest_Volume x);
   fldo "secrets" (ReclaimSpaceRequest_Secrets x)].
Definition read_ReclaimSpaceRequest (o : list (string * json)) (x : ReclaimSpaceRequest) : ReclaimSpaceRequest * bool :=
  let '(a0, k0) := dec_field "volume" o (ReclaimSpaceRequest_Volume x) in
  let '(a1, k1) := dec_field "secrets" o (ReclaimSpaceRequest_Secrets x) in
  (mkReclaimSpaceRequest a0 a1, k0 && k1).
#[global] Instance wire_ReclaimSpaceRequest : Wire ReclaimSpaceRequest :=
  struct_wire (mkReclaimSpaceRequest zero zero) fields_ReclaimSpaceRequest read_ReclaimSpaceRequest
    (λ x, wire_ok (ReclaimSpaceRequest_Volume x) ∧ wire_ok (ReclaimSpaceRequest_Secrets x)).
#[global] Instance wire_laws_ReclaimSpaceRequest : WireLaws ReclaimSpaceRequest.
Proof.
  apply struct_laws. intros [].
  cbv beta iota delta [read_ReclaimSpaceRequest fields_ReclaimSpaceRequest ReclaimSpaceRequest_Volume ReclaimSpaceRequest_Secrets].
  wire_fields.
Qed.
#[global] Instance wire_struct_ReclaimSpaceRequest : WireStruct ReclaimSpaceRequest.
Proof. apply struct_not_null. Qed.

(** [ReclaimSpaceResponse]. *)
Record ReclaimSpaceResponse := mkReclaimSpaceResponse {
  ReclaimSpaceResponse_PreUsageBytes : Z;
  ReclaimSpaceResponse_PostUsageBytes : Z;
}.
Definition fields_ReclaimSpaceResponse (x : ReclaimSpaceResponse) : list (string * option json) :=
  [fldo "preUsageBytes" (ReclaimSpaceResponse_PreUsageBytes x);
   fldo "postUsageBytes" (ReclaimSpaceResponse_PostUsageBytes x)].
Definition read_ReclaimSpaceResponse (o : list (string * json)) (x : ReclaimSpaceResponse) : ReclaimSpaceResponse * bool :=
  let '(a0, k0) := dec_field "preUsageBytes" o (ReclaimSpaceResponse_PreUsageBytes x) in
  let '(a1, k1) := dec_field "postUsageBytes" o (ReclaimSpaceResponse_PostUsageBytes x) in
  (mkReclaimSpaceResponse a0 a1, k0 && k1).
#[global] Instance wire_ReclaimSpaceResponse : Wire ReclaimSpaceResponse :=
  struct_wire (mkReclaimSpaceResponse zero zero) fields_ReclaimSpaceResponse read_ReclaimSpaceResponse
    (λ x, wire_ok (ReclaimSpaceResponse_PreUsageBytes x) ∧ wire_ok (ReclaimSpaceResponse_PostUsageBytes x)).
#[global] Instance wire_laws_ReclaimSpaceResponse : WireLaws ReclaimSpaceResponse.
Proof.
  apply struct_laws. intros [].
  cbv beta iota delta [read_ReclaimSpaceResponse fields_ReclaimSpaceResponse ReclaimSpaceResponse_PreUsageBytes ReclaimSpaceResponse_PostUsageBytes].
  wire_fields.
Qed.
#[global] Instance wire_struct_ReclaimSpaceResponse : WireStruct ReclaimSpaceResponse.
Proof. apply struct_not_null. Qed.

(** [NodeReclaimSpaceRequest]. *)
Record NodeReclaimSpaceRequest := mkNodeReclaimSpaceRequest {
  NodeReclaimSpaceRequest_Volume : VolumeRef;
  NodeReclaimSpaceRequest_VolumePath : string;
  NodeReclaimSpaceRequest_StagingPath : string;
  NodeReclaimSpaceRequest_Block : bool;
  NodeReclaimSpaceRequest_Secrets : strmap;
}.
Definition fields_NodeReclaimSpaceRequest (x : NodeReclaimSpaceRequest) : list (string * option json) :=
  [fld "volume" (NodeReclaimSpaceRequest_Volume x);
   fld "volumePath" (NodeReclaimSpaceRequest_VolumePath x);
   fldo "stagingPath" (NodeReclaimSpaceRequest_StagingPath x);
   fldo "block" (NodeReclaimSpaceRequest_Block x);
   fldo "secrets" (NodeReclaimSpaceRequest_Secrets x)].
Definition read_NodeReclaimSpaceRequest (o : list (string * json)) (x : NodeReclaimSpaceRequest) : NodeReclaimSpaceRequest * bool :=
  let '(a0, k0) := dec_field "volume" o (NodeReclaimSpaceRequest_Volume x) in
  let '(a1, k1) := dec_field "volumePath" o (NodeReclaimSpaceRequest_VolumePath x) in
  let '(a2, k2) := dec_field "stagingPath" o (NodeReclaimSpaceRequest_StagingPath x) in
  let '(a3, k3) := dec_field "block" o (NodeReclaimSpaceRequest_Block x) in
  let '(a4, k4) := dec_field "secrets" o (NodeReclaimSpaceRequest_Secrets x) in
  (mkNodeReclaimSpaceRequest a0 a1 a2 a3 a4, k0 && k1 && k2 && k3 && k4).
#[global] Instance wire_NodeReclaimSpaceRequest : Wire NodeReclaimSpaceRequest :=
  struct_wire (mkNodeReclaimSpaceRequest zero zero zero zero zero) fields_NodeReclaimSpaceRequest read_NodeReclaimSpaceRequest
    (λ x, wire_ok (NodeReclaimSpaceRequest_Volume x) ∧ wire_ok (NodeReclaimSpaceRequest_VolumePath x) ∧ wire_ok (NodeReclaimSpaceRequest_StagingPath x) ∧ wire_ok (NodeReclaimSpaceRequest_Block x) ∧ wire_ok (NodeReclaimSpaceRequest_Secrets x)).
#[global] Instance wire_laws_NodeReclaimSpaceRequest : WireLaws NodeReclaimSpaceRequest.
Proof.
  apply struct_laws. intros [].
  cbv beta iota delta [read_NodeReclaimSpaceRequest fields_NodeReclaimSpaceRequest NodeReclaimSpaceRequest_Volume NodeReclaimSpaceRequest_VolumePath NodeReclaimSpaceRequest_StagingPath NodeReclaimSpaceRequest_Block NodeReclaimSpaceRequest_Secrets].
  wire_fields.
Qed.
#[global] Instance wire_struct_NodeReclaimSpaceRequest : WireStruct NodeReclaimSpaceRequest.
Proof. apply struct_not_null. Qed.

(** [FenceClusterNetworkRequest]. *)
Record FenceClusterNetworkRequest := mkFenceClusterNetworkRequest {
  FenceClusterNetworkRequest_Instance : string;
  FenceClusterNetworkRequest_CIDRs : list string;
  FenceClusterNetworkRequest_Parameters : strmap;
  FenceClusterNetworkRequest_Secrets : strmap;
}.
Definition fields_FenceClusterNetworkRequest (x : FenceClusterNetworkRequest) : list (string * option json) :=
  [fldo "instance" (FenceClusterNetworkRequest_Instance x);
   fld "cidrs" (FenceClusterNetworkRequest_CIDRs x);
   fldo "parameters" (FenceClusterNetworkRequest_Parameters x);
   fldo "secrets" (FenceClusterNetworkRequest_Secrets x)].
Definition read_FenceClusterNetworkRequest (o : list (string * json)) (x : FenceClusterNetworkRequest) : FenceClusterNetworkRequest * bool :=
  let '(a0, k0) := dec_field "instance" o (FenceClusterNetworkRequest_Instance x) in
  let '(a1, k1) := dec_field "cidrs" o (FenceClusterNetworkRequest_CIDRs x) in
  let '(a2, k2) := dec_field "parameters" o (FenceClusterNetworkRequest_Parameters x) in
  let '(a3, k3) := dec_field "secrets" o (FenceClusterNetworkRequest_Secrets x) in
  (mkFenceClusterNetworkRequest a0 a1 a2 a3, k0 && k1 && k2 && k3).
#[global] Instance wire_FenceClusterNetworkRequest : Wire FenceClusterNetworkRequest :=
  struct_wire (mkFenceClusterNetworkRequest zero zero zero zero) fields_FenceClusterNetworkRequest read_FenceClusterNetworkRequest
    (λ x, wire_ok (FenceClusterNetworkRequest_Instance x) ∧ wire_ok (FenceClusterNetworkRequest_CIDRs x) ∧ wire_ok (FenceClusterNetworkRequest_Parameters x) ∧ wire_ok (FenceClusterNetworkRequest_Secrets x)).
#[global] Instance wire_laws_FenceClusterNetworkRequest : WireLaws FenceClusterNetworkRequest.
Proof.
  apply struct_laws. intros [].
  cbv beta iota delta [read_FenceClusterNetworkRequest fields_FenceClusterNetworkRequest FenceClusterNetworkRequest_Instance FenceClusterNetworkRequest_CIDRs FenceClusterNetworkRequest_Parameters FenceClusterNetworkRequest_Secrets].
  wire_fields.
Qed.
#[global] Instance wire_struct_FenceClusterNetworkRequest : WireStruct FenceClusterNetworkRequest.
Proof. apply struct_not_null. Qed.

(** [UnfenceClusterNetworkRequest]. *)
Record UnfenceClusterNetworkRequest := mkUnfenceClusterNetworkRequest {
  UnfenceClusterNetworkRequest_Instance : string;
  UnfenceClusterNetworkRequest_CIDRs : list string;
  UnfenceClusterNetworkRequest_Parameters : strmap;
  UnfenceClusterNetworkRequest_Secrets : strmap;
}.
Definition fields_UnfenceClusterNetworkRequest (x : UnfenceClusterNetworkRequest) : list (string * option json) :=
  [fldo "instance" (UnfenceClusterNetworkRequest_Instance x);
   fld "cidrs" (UnfenceClusterNetworkRequest_CIDRs x);
   fldo "parameters" (UnfenceClusterNetworkRequest_Parameters x);
   fldo "secrets" (UnfenceClusterNetworkRequest_Secrets x)].
Definition read_UnfenceClusterNetworkRequest (o : list (string * json)) (x : UnfenceClusterNetworkRequest) : UnfenceClusterNetworkRequest * bool :=
  let '(a0, k0) := dec_field "instance" o (UnfenceClusterNetworkRequest_Instance x) in
  let '(a1, k1) := dec_field "cidrs" o (UnfenceClusterNetworkRequest_CIDRs x) in
  let '(a2, k2) := dec_field "parameters" o (UnfenceClusterNetworkRequest_Parameters x) in
  let '(a3, k3) := dec_field "secrets" o (UnfenceClusterNetworkRequest_Secrets x) in
  (mkUnfenceClusterNetworkRequest a0 a1 a2 a3, k0 && k1 && k2 && k3).
#[global] Instance wire_UnfenceClusterNetworkRequest : Wire UnfenceClusterNetworkRequest :=
  struct_wire (mkUnfenceClusterNetworkRequest zero zero zero zero) fields_UnfenceClusterNetworkRequest read_UnfenceClusterNetworkRequest
    (λ x, wire_ok (UnfenceClusterNetworkRequest_Instance x) ∧ wire_ok (UnfenceClusterNetworkRequest_CIDRs x) ∧ wire_ok (UnfenceClusterNetworkRequest_Parameters x) ∧ wire_ok (UnfenceClusterNetworkRequest_Secrets x)).
#[global] Instance wire_laws_UnfenceClusterNetworkRequest : WireLaws UnfenceClusterNetworkRequest.
Proof.
  apply struct_laws. intros [].
  cbv beta iota delta [read_UnfenceClusterNetworkRequest fields_UnfenceClusterNetworkRequest UnfenceClusterNetworkRequest_Instance UnfenceClusterNetworkRequest_CIDRs UnfenceClusterNetworkRequest_Parameters UnfenceClusterNetworkRequest_Secrets].
  wire_fields.
Qed.
#[global] Instance wire_struct_UnfenceClusterNetworkRequest : WireStruct UnfenceClusterNetworkRequest.
Proof. apply struct_not_null. Qed.

(** [ListClusterFenceRequest]. *)
Record ListClusterFenceRequest := mkListClusterFenceRequest {
  ListClusterFenceRequest_Instance : string;
  ListClusterFenceRequest_Parameters : strmap;
  ListClusterFenceRequest_Secrets : strmap;
}.
Definition fields_ListClusterFenceRequest (x : ListClusterFenceRequest) : list (string * option json) :=
  [fldo "instance" (ListClusterFenceRequest_Instance x);
   fldo "parameters" (ListClusterFenceRequest_Parameters x);
   fldo "secrets" (ListClusterFenceRequest_Secrets x)].
Definition read_ListClusterFenceRequest (o : list (string * json)) (x : ListClusterFenceRequest) : ListClusterFenceRequest * bool :=
  let '(a0, k0) := dec_field "instance" o (ListClusterFenceRequest_Instance x) in
  let '(a1, k1) := dec_field "parameters" o (ListClusterFenceRequest_Parameters x) in
  let '(a2, k2) := dec_field "secrets" o (ListClusterFenceRequest_Secrets x) in
  (mkListClusterFenceRequest a0 a1 a2, k0 && k1 && k2).
#[global] Instance wire_ListClusterFenceRequest : Wire ListClusterFenceRequest :=
  struct_wire (mkListClusterFenceRequest zero zero zero) fields_ListClusterFenceRequest read_ListClusterFenceRequest
    (λ x, wire_ok (ListClusterFenceRequest_Instance x) ∧ wire_ok (ListClusterFenceRequest_Parameters x) ∧ wire_ok (ListClusterFenceRequest_Secrets x)).
#[global] Instance wire_laws_ListClusterFenceRequest : WireLaws ListClusterFenceRequest.
Proof.
  apply struct_laws. intros [].
  cbv beta iota delta [read_ListClusterFenceRequest fields_ListClusterFenceRequest ListClusterFenceRequest_Instance ListClusterFenceRequest_Parameters ListClusterFenceRequest_Secrets].
  wire_fields.
Qed.
#[global] Instance wire_struct_ListClusterFenceRequest : WireStruct ListClusterFenceRequest.
Proof. apply struct_not_null. Qed.

(** [ListClusterFenceResponse]. *)
Record ListClusterFenceResponse := mkListClusterFenceResponse {
  ListClusterFenceResponse_CIDRs : list string;
}.
Definition fields_ListClusterFenceResponse (x : ListClusterFenceResponse) : list (string * option json) :=
  [fld "cidrs" (ListClusterFenceResponse_CIDRs x)].
Definition read_ListClusterFenceResponse (o : list (string * json)) (x : ListClusterFenceResponse) : ListClusterFenceResponse * bool :=
  let '(a0, k0) := dec_field "cidrs" o (ListClusterFenceResponse_CIDRs x) in
  (mkListClusterFenceResponse a0, k0).
#[global] Instance wire_ListClusterFenceResponse : Wire ListClusterFenceResponse :=
  struct_wire (mkListClusterFenceResponse zero) fields_ListClusterFenceResponse read_ListClusterFenceResponse
    (λ x, wire_ok (ListClusterFenceResponse_CIDRs x)).
#[global] Instance wire_laws_ListClusterFenceResponse : WireLaws ListClusterFenceResponse.
Proof.
  apply struct_laws. intros [].
  cbv beta iota delta [read_ListClusterFenceResponse fields_ListClusterFenceResponse ListClusterFenceResponse_CIDRs].
  wire_fields.
Qed.
#[global] Instance wire_struct_ListClusterFenceResponse : WireStruct ListClusterFenceResponse.
Proof. apply struct_not_null. Qed.

(** [GetFenceClientsRequest]. *)
Record GetFenceClientsRequest := mkGetFenceClientsRequest {
  GetFenceClientsRequest_Instance : string;
  GetFenceClientsRequest_Parameters : strmap;
  GetFenceClientsRequest_Secrets : strmap;
}.
Definition fields_GetFenceClientsRequest (x : GetFenceClientsRequest) : list (string * option json) :=
  [fldo "instance" (GetFenceClientsRequest_Instance x);
   fldo "parameters" (GetFenceClientsRequest_Parameters x);
   fldo "secrets" (GetFenceClientsRequest_Secrets x)].
Definition read_GetFenceClientsRequest (o : list (string * json)) (x : GetFenceClientsRequest) : GetFenceClientsRequest * bool :=
  let '(a0, k0) := dec_field "instance" o (GetFenceClientsRequest_Instance x) in
  let '(a1, k1) := dec_field "parameters" o (GetFenceClientsRequest_Parameters x) in
  let '(a2, k2) := dec_field "secrets" o (GetFenceClientsRequest_Secrets x) in
  (mkGetFenceClientsRequest a0 a1 a2, k0 && k1 && k2).
#[global] Instance wire_GetFenceClientsRequest : Wire GetFenceClientsRequest :=
  struct_wire (mkGetFenceClientsRequest zero zero zero) fields_GetFenceClientsRequest read_GetFenceClientsRequest
    (λ x, wire_ok (GetFenceClientsRequest_Instance x) ∧ wire_ok (GetFenceClientsRequest_Parameters x) ∧ wire_ok (GetFenceClientsRequest_Secrets x)).
#[global] Instance wire_laws_GetFenceClientsRequest : WireLaws GetFenceClientsRequest.
Proof.
  apply struct_laws. intros [].
  cbv beta iota delta [read_GetFenceClientsRequest fields_GetFenceClientsRequest GetFenceClientsRequest_Instance GetFenceClientsRequest_Parameters GetFenceClientsRequest_Secrets].
  wire_fields.
Qed.
#[global] Instance wire_struct_GetFenceClientsRequest : WireStruct GetFenceClientsRequest.
Proof. apply struct_not_null. Qed.

(** [FenceClient]. *)
Record FenceClient := mkFenceClient {
  FenceClient_ID : string;
  FenceClient_CIDRs : list string;
}.
Definition fields_FenceClient (x : FenceClient) : list (string * option json) :=
  [fld "id" (FenceClient_ID x);
   fld "cidrs" (FenceClient_CIDRs x)].
Definition read_FenceClient (o : list (string * json)) (x : FenceClient) : FenceClient * bool :=
  let '(a0, k0) := dec_field "id" o (FenceClient_ID x) in
  let '(a1, k1) := dec_field "cidrs" o (FenceClient_CIDRs x) in
  (mkFenceClient a0 a1, k0 && k1).
#[global] Instance wire_FenceClient : Wire FenceClient :=
  struct_wire (mkFenceClient zero zero) fields_FenceClient read_FenceClient
    (λ x, wire_ok (FenceClient_ID x) ∧ wire_ok (FenceClient_CIDRs x)).
#[global] Instance wire_laws_FenceClient : WireLaws FenceClient.
Proof.
  apply struct_laws. intros [].
  cbv beta iota delta [read_FenceClient fields_FenceClient FenceClient_ID FenceClient_CIDRs].
  wire_fields.
Qed.
#[global] Instance wire_struct_FenceClient : WireStruct FenceClient.
Proof. apply struct_not_null. Qed.

(** [GetFenceClientsResponse]. *)
Record GetFenceClientsResponse := mkGetFenceClientsResponse {
  GetFenceClientsResponse_Clients : list FenceClient;
}.
Definition fields_GetFenceClientsResponse (x : GetFenceClientsResponse) : list (string * option json) :=
  [fld "clients" (GetFenceClientsResponse_Clients x)].
Definition read_GetFenceClientsResponse (o : list (string * json)) (x : GetFenceClientsResponse) : GetFenceClientsResponse * bool :=
  let '(a0, k0) := dec_field "clients" o (GetFenceClientsResponse_Clients x) in
  (mkGetFenceClientsResponse a0, k0).
#[global] Instance wire_GetFenceClientsResponse : Wire GetFenceClientsResponse :=
  struct_wire (mkGetFenceClientsResponse zero) fields_GetFenceClientsResponse read_GetFenceClientsResponse
    (λ x, wire_ok (GetFenceClientsResponse_Clients x)).
#[global] Instance wire_laws_GetFenceClientsResponse : WireLaws GetFenceClientsResponse.
Proof.
  apply struct_laws. intros [].
  cbv beta iota delta [read_GetFenceClientsResponse fields_GetFenceClientsResponse GetFenceClientsResponse_Clients].
  wire_fields.
Qed.
#[global] Instance wire_struct_GetFenceClientsResponse : WireStruct GetFenceClientsResponse.
Proof. apply struct_not_null. Qed.

(** [EnableReplicationRequest]. *)
Record EnableReplicationRequest := mkEnableReplicationRequest {
  EnableReplicationRequest_Volume : VolumeRef;
  EnableReplicationRequest_Parameters : strmap;
  EnableReplicationRequest_Secrets : strmap;
}.
Definition fields_EnableReplicationRequest (x : EnableReplicationRequest) : list (string * option json) :=
  [fld "volume" (EnableReplicationRequest_Volume x);
   fldo "parameters" (EnableReplicationRequest_Parameters x);
   fldo "secrets" (EnableReplicationRequest_Secrets x)].
Definition read_EnableReplicationRequest (o : list (string * json)) (x : EnableReplicationRequest) : EnableReplicationRequest * bool :=
  let '(a0, k0) := dec_field "volume" o (EnableReplicationRequest_Volume x) in
  let '(a1, k1) := dec_field "parameters" o (EnableReplicationRequest_Parameters x) in
  let '(a2, k2) := dec_field "secrets" o (EnableReplicationRequest_Secrets x) in
  (mkEnableReplicationRequest a0 a1 a2, k0 && k1 && k2).
#[global] Instance wire_EnableReplicationRequest : Wire EnableReplicationRequest :=
  struct_wire (mkEnableReplicationRequest zero zero zero) fields_EnableReplicationRequest read_EnableReplicationRequest
    (λ x, wire_ok (EnableReplicationRequest_Volume x) ∧ wire_ok (EnableReplicationRequest_Parameters x) ∧ wire_ok (EnableReplicationRequest_Secrets x)).
#[global] Instance wire_laws_EnableReplicationRequest : WireLaws EnableReplicationRequest.
Proof.
  apply struct_laws. intros [].
  cbv beta iota delta [read_EnableReplicationRequest fields_EnableReplicationRequest EnableReplicationRequest_Volume EnableReplicationRequest_Parameters EnableReplicationRequest_Secrets].
  wire_fields.
Qed.
#[global] Instance wire_struct_EnableReplicationRequest : WireStruct EnableReplicationRequest.
Proof. apply struct_not_null. Qed.

(** [DisableReplicationRequest]. *)
Record DisableReplicationRequest := mkDisableReplicationRequest {
  DisableReplicationRequest_Volume : VolumeRef;
  DisableReplicationRequest_Parameters : strmap;
  DisableReplicationRequest_Secrets : strmap;
}.
Definition fields_DisableReplicationRequest (x : DisableReplicationRequest) : list (string * option json) :=
  [fld "volume" (DisableReplicationRequest_Volume x);
   fldo "parameters" (DisableReplicationRequest_Parameters x);
   fldo "secrets" (DisableReplicationRequest_Secrets x)].
Definition read_DisableReplicationRequest (o : list (string * json)) (x : DisableReplicationRequest) : DisableReplicationRequest * bool :=
  let '(a0, k0) := dec_field "volume" o (DisableReplicationRequest_Volume x) in
  let '(a1, k1) := dec_field "parameters" o (DisableReplicationRequest_Parameters x) in
  let '(a2, k2) := dec_field "secrets" o (DisableReplicationRequest_Secrets x) in
  (mkDisableReplicationRequest a0 a1 a2, k0 && k1 && k2).
#[global] Instance wire_DisableReplicationRequest : Wire DisableReplicationRequest :=
  struct_wire (mkDisableReplicationRequest zero zero zero) fields_DisableReplicationRequest read_DisableReplicationRequest
    (λ x, wire_ok (DisableReplicationRequest_Volume x) ∧ wire_ok (DisableReplicationRequest_Parameters x) ∧ wire_ok (DisableReplicationRequest_Secrets x)).
#[global] Instance wire_laws_DisableReplicationRequest : WireLaws DisableReplicationRequest.
Proof.
  apply struct_laws. intros [].
  cbv beta iota delta [read_DisableReplicationRequest fields_DisableReplicationRequest DisableReplicationRequest_Volume DisableReplicationRequest_Parameters DisableReplicationRequest_Secrets].
  wire_fields.
Qed.
#[global] Instance wire_struct_DisableReplicationRequest : WireStruct DisableReplicationRequest.
Proof. apply struct_not_null. Qed.

(** [PromoteVolumeRequest]. *)
Record PromoteVolumeRequest := mkPromoteVolumeRequest {
  PromoteVolumeRequest_Volume : VolumeRef;
  PromoteVolumeRequest_Force : bool;
  PromoteVolumeRequest_Parameters : strmap;
  PromoteVolumeRequest_Secrets : strmap;
}.
Definition fields_PromoteVolumeRequest (x : PromoteVolumeRequest) : list (string * option json) :=
  [fld "volume" (PromoteVolumeRequest_Volume x);
   fldo "force" (PromoteVolumeRequest_Force x);
   fldo "parameters" (PromoteVolumeRequest_Parameters x);
   fldo "secrets" (PromoteVolumeRequest_Secrets x)].
Definition read_PromoteVolumeRequest (o : list (string * json)) (x : PromoteVolumeRequest) : PromoteVolumeRequest * bool :=
  let '(a0, k0) := dec_field "volume" o (PromoteVolumeRequest_Volume x) in
  let '(a1, k1) := dec_field "force" o (PromoteVolumeRequest_Force x) in
  let '(a2, k2) := dec_field "parameters" o (PromoteVolumeRequest_Parameters x) in
  let '(a3, k3) := dec_field "secrets" o (PromoteVolumeRequest_Secrets x) in
  (mkPromoteVolumeRequest a0 a1 a2 a3, k0 && k1 && k2 && k3).
#[global] Instance wire_PromoteVolumeRequest : Wire PromoteVolumeRequest :=
  struct_wire (mkPromoteVolumeRequest zero zero zero zero) fields_PromoteVolumeRequest read_PromoteVolumeRequest
    (λ x, wire_ok (PromoteVolumeRequest_Volume x) ∧ wire_ok (PromoteVolumeRequest_Force x) ∧ wire_ok (PromoteVolumeRequest_Parameters x) ∧ wire_ok (PromoteVolumeRequest_Secrets x)).
#[global] Instance wire_laws_PromoteVolumeRequest : WireLaws PromoteVolumeRequest.
Proof.
  apply struct_laws. intros [].
  cbv beta iota delta [read_PromoteVolumeRequest fields_PromoteVolumeRequest PromoteVolumeRequest_Volume PromoteVolumeRequest_Force PromoteVolumeRequest_Parameters PromoteVolumeRequest_Secrets].
  wire_fields.
Qed.
#[global] Instance wire_struct_PromoteVolumeRequest : WireStruct PromoteVolumeRequest.
Proof. apply struct_not_null. Qed.

(** [DemoteVolumeRequest]. *)
Record DemoteVolumeRequest := mkDemoteVolumeRequest {
  DemoteVolumeRequest_Volume : VolumeRef;
  DemoteVolumeRequest_Force : bool;
  DemoteVolumeRequest_Parameters : strmap;
  DemoteVolumeRequest_Secrets : strmap;
}.
Definition fields_DemoteVolumeRequest (x : DemoteVolumeRequest) : list (string * option json) :=
  [fld "volume" (DemoteVolumeRequest_Volume x);
   fldo "force" (DemoteVolumeRequest_Force x);
   fldo "parameters" (DemoteVolumeRequest_Parameters x);
   fldo "secrets" (DemoteVolumeRequest_Secrets x)].
Definition read_DemoteVolumeRequest (o : list (string * json)) (x : DemoteVolumeRequest) : DemoteVolumeRequest * bool :=
  let '(a0, k0) := dec_field "volume" o (DemoteVolumeRequest_Volume x) in
  let '(a1, k1) := dec_field "force" o (DemoteVolumeRequest_Force x) in
  let '(a2, k2) := dec_field "parameters" o (DemoteVolumeRequest_Parameters x) in
  let '(a3, k3) := dec_field "secrets" o (DemoteVolumeRequest_Secrets x) in
  (mkDemoteVolumeRequest a0 a1 a2 a3, k0 && k1 && k2 && k3).
#[global] Instance wire_DemoteVolumeRequest : Wire DemoteVolumeRequest :=
  struct_wire (mkDemoteVolumeRequest zero zero zero zero) fields_DemoteVolumeRequest read_DemoteVolumeRequest
    (λ x, wire_ok (DemoteVolumeRequest_Volume x) ∧ wire_ok (DemoteVolumeRequest_Force x) ∧ wire_ok (DemoteVolumeRequest_Parameters x) ∧ wire_ok (DemoteVolumeRequest_Secrets x)).
#[global] Instance wire_laws_DemoteVolumeRequest : WireLaws DemoteVolumeRequest.
Proof.
  apply struct_laws. intros [].
  cbv beta iota delta [read_DemoteVolumeRequest fields_DemoteVolumeRequest DemoteVolumeRequest_Volume DemoteVolumeRequest_Force DemoteVolumeRequest_Parameters DemoteVolumeRequest_Secrets].
  wire_fields.
Qed.
#[global] Instance wire_struct_DemoteVolumeRequest : WireStruct DemoteVolumeRequest.
Proof. apply struct_not_null. Qed.

(** [ResyncVolumeRequest]. *)
Record ResyncVolumeRequest := mkResyncVolumeRequest {
  ResyncVolumeRequest_Volume : VolumeRef;
  ResyncVolumeRequest_Force : bool;
  ResyncVolumeRequest_Parameters : strmap;
  ResyncVolumeRequest_Secrets : strmap;
}.
Definition fields_ResyncVolumeRequest (x : ResyncVolumeRequest) : list (string * option json) :=
  [fld "volume" (ResyncVolumeRequest_Volume x);
   fldo "force" (ResyncVolumeRequest_Force x);
   fldo "parameters" (ResyncVolumeRequest_Parameters x);
   fldo "secrets" (ResyncVolumeRequest_Secrets x)].
Definition read_ResyncVolumeRequest (o : list (string * json)) (x : ResyncVolumeRequest) : ResyncVolumeRequest * bool :=
  let '(a0, k0) := dec_field "volume" o (ResyncVolumeRequest_Volume x) in
  let '(a1, k1) := dec_field "force" o (ResyncVolumeRequest_Force x) in
  let '(a2, k2) := dec_field "parameters" o (ResyncVolumeRequest_Parameters x) in
  let '(a3, k3) := dec_field "secrets" o (ResyncVolumeRequest_Secrets x) in
  (mkResyncVolumeRequest a0 a1 a2 a3, k0 && k1 && k2 && k3).
#[global] Instance wire_ResyncVolumeRequest : Wire ResyncVolumeRequest :=
  struct_wire (mkResyncVolumeRequest zero zero zero zero) fields_ResyncVolumeRequest read_ResyncVolumeRequest
    (λ x, wire_ok (ResyncVolumeRequest_Volume x) ∧ wire_ok (ResyncVolumeRequest_Force x) ∧ wire_ok (ResyncVolumeRequest_Parameters x) ∧ wire_ok (ResyncVolumeRequest_Secrets x)).
#[global] Instance wire_laws_ResyncVolumeRequest : WireLaws ResyncVolumeRequest.
Proof.
  apply struct_laws. intros [].
  cbv beta iota delta [read_ResyncVolumeRequest fields_ResyncVolumeRequest ResyncVolumeRequest_Volume ResyncVolumeRequest_Force ResyncVolumeRequest_Parameters ResyncVolumeRequest_Secrets].
  wire_fields.
Qed.
#[global] Instance wire_struct_ResyncVolumeRequest : WireStruct ResyncVolumeRequest.
Proof. apply struct_not_null. Qed.

(** [ResyncVolumeResponse]. *)
Record ResyncVolumeResponse := mkResyncVolumeResponse {
  ResyncVolumeResponse_Ready : bool;
}.
Definition fields_ResyncVolumeResponse (x : ResyncVolumeResponse) : list (string * option json) :=
  [fld "ready" (ResyncVolumeResponse_Ready x)].
Definition read_ResyncVolumeResponse (o : list (string * json)) (x : ResyncVolumeResponse) : ResyncVolumeResponse * bool :=
  let '(a0, k0) := dec_field "ready" o (ResyncVolumeResponse_Ready x) in
  (mkResyncVolumeResponse a0, k0).
#[global] Instance wire_ResyncVolumeResponse : Wire ResyncVolumeResponse :=
  struct_wire (mkResyncVolumeResponse zero) fields_ResyncVolumeResponse read_ResyncVolumeResponse
    (λ x, wire_ok (ResyncVolumeResponse_Ready x)).
#[global] Instance wire_laws_ResyncVolumeResponse : WireLaws ResyncVolumeResponse.
Proof.
  apply struct_laws. intros [].
  cbv beta iota delta [read_ResyncVolumeResponse fields_ResyncVolumeResponse ResyncVolumeResponse_Ready].
  wire_fields.
Qed.
#[global] Instance wire_struct_ResyncVolumeResponse : WireStruct ResyncVolumeResponse.
Proof. apply struct_not_null. Qed.

(** [ReplicationInfoRequest]. *)
Record ReplicationInfoRequest := mkReplicationInfoRequest {
  ReplicationInfoRequest_Volume : VolumeRef;
  ReplicationInfoRequest_Secrets : strmap;
}.
Definition fields_ReplicationInfoRequest (x : ReplicationInfoRequest) : list (string * option json) :=
  [fld "volume" (ReplicationInfoRequest_Volume x);
   fldo "secrets" (ReplicationInfoRequest_Secrets x)].
Definition read_ReplicationInfoRequest (o : list (string * json)) (x : ReplicationInfoRequest) : ReplicationInfoRequest * bool :=
  let '(a0, k0) := dec_field "volume" o (ReplicationInfoRequest_Volume x) in
  let '(a1, k1) := dec_field "secrets" o (ReplicationInfoRequest_Secrets x) in
  (mkReplicationInfoRequest a0 a1, k0 && k1).
#[global] Instance wire_ReplicationInfoRequest : Wire ReplicationInfoRequest :=
  struct_wire (mkReplicationInfoRequest zero zero) fields_ReplicationInfoRequest read_ReplicationInfoRequest
    (λ x, wire_ok (ReplicationInfoRequest_Volume x) ∧ wire_ok (ReplicationInfoRequest_Secrets x)).
#[global] Instance wire_laws_ReplicationInfoRequest : WireLaws ReplicationInfoRequest.
Proof.
  apply struct_laws. intros [].
  cbv beta iota delta [read_ReplicationInfoRequest fields_ReplicationInfoRequest ReplicationInfoRequest_Volume ReplicationInfoRequest_Secrets].
  wire_fields.
Qed.
#[global] Instance wire_struct_ReplicationInfoRequest : WireStruct ReplicationInfoRequest.
Proof. apply struct_not_null. Qed.

(** [ReplicationInfoResponse]. *)
Record ReplicationInfoResponse := mkReplicationInfoResponse {
  ReplicationInfoResponse_LastSyncTimeUnix : Z;
}.
Definition fields_ReplicationInfoResponse (x : ReplicationInfoResponse) : list (string * option json) :=
  [fldo "lastSyncTimeUnix" (ReplicationInfoResponse_LastSyncTimeUnix x)].
Definition read_ReplicationInfoResponse (o : list (string * json)) (x : ReplicationInfoResponse) : ReplicationInfoResponse * bool :=
  let '(a0, k0) := dec_field "lastSyncTimeUnix" o (ReplicationInfoResponse_LastSyncTimeUnix x) in
  (mkReplicationInfoResponse a0, k0).
#[global] Instance wire_ReplicationInfoResponse : Wire ReplicationInfoResponse :=
  struct_wire (mkReplicationInfoResponse zero) fields_ReplicationInfoResponse read_ReplicationInfoResponse
    (λ x, wire_ok (ReplicationInfoResponse_LastSyncTimeUnix x)).
#[global] Instance wire_laws_ReplicationInfoResponse : WireLaws ReplicationInfoResponse.
Proof.
  apply struct_laws. intros [].
  cbv beta iota delta [read_ReplicationInfoResponse fields_ReplicationInfoResponse ReplicationInfoResponse_LastSyncTimeUnix].
  wire_fields.
Qed.
#[global] Instance wire_struct_ReplicationInfoResponse : WireStruct ReplicationInfoResponse.
Proof. apply struct_not_null. Qed.

(** [CreateVolumeGroupRequest]. *)
Record CreateVolumeGroupRequest := mkCreateVolumeGroupRequest {
  CreateVolumeGroupRequest_Instance : string;
  CreateVolumeGroupRequest_Pool : string;
  CreateVolumeGroupRequest_Name : string;
  CreateVolumeGroupRequest_Volumes : list VolumeRef;
  CreateVolumeGroupRequest_Parameters : strmap;
  CreateVolumeGroupRequest_Secrets : strmap;
}.
Definition fields_CreateVolumeGroupRequest (x : CreateVolumeGroupRequest) : list (string * option json) :=
  [fld "instance" (CreateVolumeGroupRequest_Instance x);
   fld "pool" (CreateVolumeGroupRequest_Pool x);
   fld "name" (CreateVolumeGroupRequest_Name x);
   fldo "volumes" (CreateVolumeGroupRequest_Volumes x);
   fldo "parameters" (CreateVolumeGroupRequest_Parameters x);
   fldo "secrets" (CreateVolumeGroupRequest_Secrets x)].
Definition read_CreateVolumeGroupRequest (o : list (string * json)) (x : CreateVolumeGroupRequest) : CreateVolumeGroupRequest * bool :=
  let '(a0, k0) := dec_field "instance" o (CreateVolumeGroupRequest_Instance x) in
  let '(a1, k1) := dec_field "pool" o (CreateVolumeGroupRequest_Pool x) in
  let '(a2, k2) := dec_field "name" o (CreateVolumeGroupRequest_Name x) in
  let '(a3, k3) := dec_field "volumes" o (CreateVolumeGroupRequest_Volumes x) in
  let '(a4, k4) := dec_field "parameters" o (CreateVolumeGroupRequest_Parameters x) in
  let '(a5, k5) := dec_field "secrets" o (CreateVolumeGroupRequest_Secrets x) in
  (mkCreateVolumeGroupRequest a0 a1 a2 a3 a4 a5, k0 && k1 && k2 && k3 && k4 && k5).
#[global] Instance wire_CreateVolumeGroupRequest : Wire CreateVolumeGroupRequest :=
  struct_wire (mkCreateVolumeGroupRequest zero zero zero zero zero zero) fields_CreateVolumeGroupRequest read_CreateVolumeGroupRequest
    (λ x, wire_ok (CreateVolumeGroupRequest_Instance x) ∧ wire_ok (CreateVolumeGroupRequest_Pool x) ∧ wire_ok (CreateVolumeGroupRequest_Name x) ∧ wire_ok (CreateVolumeGroupRequest_Volumes x) ∧ wire_ok (CreateVolumeGroupRequest_Parameters x) ∧ wire_ok (CreateVolumeGroupRequest_Secrets x)).
#[global] Instance wire_laws_CreateVolumeGroupRequest : WireLaws CreateVolumeGroupRequest.
Proof.
  apply struct_laws. intros [].
  cbv beta iota delta [read_CreateVolumeGroupRequest fields_CreateVolumeGroupRequest CreateVolumeGroupRequest_Instance CreateVolumeGroupRequest_Pool CreateVolumeGroupRequest_Name CreateVolumeGroupRequest_Volumes CreateVolumeGroupRequest_Parameters CreateVolumeGroupRequest_Secrets].
  wire_fields.
Qed.
#[global] Instance wire_struct_CreateVolumeGroupRequest : WireStruct CreateVolumeGroupRequest.
Proof. apply struct_not_null. Qed.

(** [VolumeGroupResponse]. *)
Record VolumeGroupResponse := mkVolumeGroupResponse {
  VolumeGroupResponse_Group : VolumeRef;
  VolumeGroupResponse_Volumes : list VolumeRef;
}.
Definition fields_VolumeGroupResponse (x : VolumeGroupResponse) : list (string * option json) :=
  [fld "group" (VolumeGroupResponse_Group x);
   fldo "volumes" (VolumeGroupResponse_Volumes x)].
Definition read_VolumeGroupResponse (o : list (string * json)) (x : VolumeGroupResponse) : VolumeGroupResponse * bool :=
  let '(a0, k0) := dec_field "group" o (VolumeGroupResponse_Group x) in
  let '(a1, k1) := dec_field "volumes" o (VolumeGroupResponse_Volumes x) in
  (mkVolumeGroupResponse a0 a1, k0 && k1).
#[global] Instance wire_VolumeGroupResponse : Wire VolumeGroupResponse :=
  struct_wire (mkVolumeGroupResponse zero zero) fields_VolumeGroupResponse read_VolumeGroupResponse
    (λ x, wire_ok (VolumeGroupResponse_Group x) ∧ wire_ok (VolumeGroupResponse_Volumes x)).
#[global] Instance wire_laws_VolumeGroupResponse : WireLaws VolumeGroupResponse.
Proof.
  apply struct_laws. intros [].
  cbv beta iota delta [read_VolumeGroupResponse fields_VolumeGroupResponse VolumeGroupResponse_Group VolumeGroupResponse_Volumes].
  wire_fields.
Qed.
#[global] Instance wire_struct_VolumeGroupResponse : WireStruct VolumeGroupResponse.
Proof. apply struct_not_null. Qed.

(** [ModifyVolumeGroupRequest]. *)
Record ModifyVolumeGroupRequest := mkModifyVolumeGroupRequest {
  ModifyVolumeGroupRequest_Group : VolumeRef;
  ModifyVolumeGroupRequest_Volumes : list VolumeRef;
  ModifyVolumeGroupRequest_Parameters : strmap;
  ModifyVolumeGroupRequest_Secrets : strmap;
}.
Definition fields_ModifyVolumeGroupRequest (x : ModifyVolumeGroupRequest) : list (string * option json) :=
  [fld "group" (ModifyVolumeGroupRequest_Group x);
   fldo "volumes" (ModifyVolumeGroupRequest_Volumes x);
   fldo "parameters" (ModifyVolumeGroupRequest_Parameters x);
   fldo "secrets" (ModifyVolumeGroupRequest_Secrets x)].
Definition read_ModifyVolumeGroupRequest (o : list (string * json)) (x : ModifyVolumeGroupRequest) : ModifyVolumeGroupRequest * bool :=
  let '(a0, k0) := dec_field "group" o (ModifyVolumeGroupRequest_Group x) in
  let '(a1, k1) := dec_field "volumes" o (ModifyVolumeGroupRequest_Volumes x) in
  let '(a2, k2) := dec_field "parameters" o (ModifyVolumeGroupRequest_Parameters x) in
  let '(a3, k3) := dec_field "secrets" o (ModifyVolumeGroupRequest_Secrets x) in
  (mkModifyVolumeGroupRequest a0 a1 a2 a3, k0 && k1 && k2 && k3).
#[global] Instance wire_ModifyVolumeGroupRequest : Wire ModifyVolumeGroupRequest :=
  struct_wire (mkModifyVolumeGroupRequest zero zero zero zero) fields_ModifyVolumeGroupRequest read_ModifyVolumeGroupRequest
    (λ x, wire_ok (ModifyVolumeGroupRequest_Group x) ∧ wire_ok (ModifyVolumeGroupRequest_Volumes x) ∧ wire_ok (ModifyVolumeGroupRequest_Parameters x) ∧ wire_ok (ModifyVolumeGroupRequest_Secrets x)).
#[global] Instance wire_laws_ModifyVolumeGroupRequest : WireLaws ModifyVolumeGroupRequest.
Proof.
  apply struct_laws. intros [].
  cbv beta iota delta [read_ModifyVolumeGroupRequest fields_ModifyVolumeGroupRequest ModifyVolumeGroupRequest_Group ModifyVolumeGroupRequest_Volumes ModifyVolumeGroupRequest_Parameters ModifyVolumeGroupRequest_Secrets].
  wire_fields.
Qed.
#[global] Instance wire_struct_ModifyVolumeGroupRequest : WireStruct ModifyVolumeGroupRequest.
Proof. apply struct_not_null. Qed.

(** [DeleteVolumeGroupRequest]. *)
Record DeleteVolumeGroupRequest := mkDeleteVolumeGroupRequest {
  DeleteVolumeGroupRequest_Group : VolumeRef;
  DeleteVolumeGroupRequest_Secrets : strmap;
}.
Definition fields_DeleteVolumeGroupRequest (x : DeleteVolumeGroupRequest) : list (string * option json) :=
  [fld "group" (DeleteVolumeGroupRequest_Group x);
   fldo "secrets" (DeleteVolumeGroupRequest_Secrets x)].
Definition read_DeleteVolumeGroupRequest (o : list (string * json)) (x : DeleteVolumeGroupRequest) : DeleteVolumeGroupRequest * bool :=
  let '(a0, k0) := dec_field "group" o (DeleteVolumeGroupRequest_Group x) in
  let '(a1, k1) := dec_field "secrets" o (DeleteVolumeGroupRequest_Secrets x) in
  (mkDeleteVolumeGroupRequest a0 a1, k0 && k1).
#[global] Instance wire_DeleteVolumeGroupRequest : Wire DeleteVolumeGroupRequest :=
  struct_wire (mkDeleteVolumeGroupRequest zero zero) fields_DeleteVolumeGroupRequest read_DeleteVolumeGroupRequest
    (λ x, wire_ok (DeleteVolumeGroupRequest_Group x) ∧ wire_ok (DeleteVolumeGroupRequest_Secrets x)).
#[global] Instance wire_laws_DeleteVolumeGroupRequest : WireLaws DeleteVolumeGroupRequest.
Proof.
  apply struct_laws. intros [].
  cbv beta iota delta [read_DeleteVolumeGroupRequest fields_DeleteVolumeGroupRequest DeleteVolumeGroupRequest_Group DeleteVolumeGroupRequest_Secrets].
  wire_fields.
Qed.
#[global] Instance wire_struct_DeleteVolumeGroupRequest : WireStruct DeleteVolumeGroupRequest.
Proof. apply struct_not_null. Qed.

(** [GetVolumeGroupRequest]. *)
Record GetVolumeGroupRequest := mkGetVolumeGroupRequest {
  GetVolumeGroupRequest_Group : VolumeRef;
  GetVolumeGroupRequest_Secrets : strmap;
}.
Definition fields_GetVolumeGroupRequest (x : GetVolumeGroupRequest) : list (string * option json) :=
  [fld "group" (GetVolumeGroupRequest_Group x);
   fldo "secrets" (GetVolumeGroupRequest_Secrets x)].
Definition read_GetVolumeGroupRequest (o : list (string * json)) (x : GetVolumeGroupRequest) : GetVolumeGroupRequest * bool :=
  let '(a0, k0) := dec_field "group" o (GetVolumeGroupRequest_Group x) in
  let '(a1, k1) := dec_field "secrets" o (GetVolumeGroupRequest_Secrets x) in
  (mkGetVolumeGroupRequest a0 a1, k0 && k1).
#[global] Instance wire_GetVolumeGroupRequest : Wire GetVolumeGroupRequest :=
  struct_wire (mkGetVolumeGroupRequest zero zero) fields_GetVolumeGroupRequest read_GetVolumeGroupRequest
    (λ x, wire_ok (GetVolumeGroupRequest_Group x) ∧ wire_ok (GetVolumeGroupRequest_Secrets x)).
#[global] Instance wire_laws_GetVolumeGroupRequest : WireLaws GetVolumeGroupRequest.
Proof.
  apply struct_laws. intros [].
  cbv beta iota delta [read_GetVolumeGroupRequest fields_GetVolumeGroupRequest GetVolumeGroupRequest_Group GetVolumeGroupRequest_Secrets].
  wire_fields.
Qed.
#[global] Instance wire_struct_GetVolumeGroupRequest : WireStruct GetVolumeGroupRequest.
Proof. apply struct_not_null. Qed.

(** [ListVolumeGroupsRequest]. *)
Record ListVolumeGroupsRequest := mkListVolumeGroupsRequest {
  ListVolumeGroupsRequest_Secrets : strmap;
}.
Definition fields_ListVolumeGroupsRequest (x : ListVolumeGroupsRequest) : list (string * option json) :=
  [fldo "secrets" (ListVolumeGroupsRequest_Secrets x)].
Definition read_ListVolumeGroupsRequest (o : list (string * json)) (x : ListVolumeGroupsRequest) : ListVolumeGroupsRequest * bool :=
  let '(a0, k0) := dec_field "secrets" o (ListVolumeGroupsRequest_Secrets x) in
  (mkListVolumeGroupsRequest a0, k0).
#[global] Instance wire_ListVolumeGroupsRequest : Wire ListVolumeGroupsRequest :=
  struct_wire (mkListVolumeGroupsRequest zero) fields_ListVolumeGroupsRequest read_ListVolumeGroupsRequest
    (λ x, wire_ok (ListVolumeGroupsRequest_Secrets x)).
#[global] Instance wire_laws_ListVolumeGroupsRequest : WireLaws ListVolumeGroupsRequest.
Proof.
  apply struct_laws. intros [].
  cbv beta iota delta [read_ListVolumeGroupsRequest fields_ListVolumeGroupsRequest ListVolumeGroupsRequest_Secrets].
  wire_fields.
Qed.
#[global] Instance wire_struct_ListVolumeGroupsRequest : WireStruct ListVolumeGroupsRequest.
Proof. apply struct_not_null. Qed.

(** [ListVolumeGroupsResponse]. *)
Record ListVolumeGroupsResponse := mkListVolumeGroupsResponse {
  ListVolumeGroupsResponse_Groups : list VolumeGroupResponse;
}.
Definition fields_ListVolumeGroupsResponse (x : ListVolumeGroupsResponse) : list (string * option json) :=
  [fld "groups" (ListVolumeGroupsResponse_Groups x)].
Definition read_ListVolumeGroupsResponse (o : list (string * json)) (x : ListVolumeGroupsResponse) : ListVolumeGroupsResponse * bool :=
  let '(a0, k0) := dec_field "groups" o (ListVolumeGroupsResponse_Groups x) in
  (mkListVolumeGroupsResponse a0, k0).
#[global] Instance wire_ListVolumeGroupsResponse : Wire ListVolumeGroupsResponse :=
  struct_wire (mkListVolumeGroupsResponse zero) fields_ListVolumeGroupsResponse read_ListVolumeGroupsResponse
    (λ x, wire_ok (ListVolumeGroupsResponse_Groups x)).
#[global] Instance wire_laws_ListVolumeGroupsResponse : WireLaws ListVolumeGroupsResponse.
Proof.
  apply struct_laws. intros [].
  cbv beta iota delta [read_ListVolumeGroupsResponse fields_ListVolumeGroupsResponse ListVolumeGroupsResponse_Groups].
  wire_fields.
Qed.
#[global] Instance wire_struct_ListVolumeGroupsResponse : WireStruct ListVolumeGroupsResponse.
Proof. apply struct_not_null. Qed.

(** [RotateEncryptionKeyRequest]. *)
Record RotateEncryptionKeyRequest := mkRotateEncryptionKeyRequest {
  RotateEncryptionKeyRequest_Volume : VolumeRef;
  RotateEncryptionKeyRequest_VolumePath : string;
  RotateEncryptionKeyRequest_Parameters : strmap;
  RotateEncryptionKeyRequest_Secrets : strmap;
}.
Definition fields_RotateEncryptionKeyRequest (x : RotateEncryptionKeyRequest) : list (string * option json) :=
  [fld "volume" (RotateEncryptionKeyRequest_Volume x);
   fld "volumePath" (RotateEncryptionKeyRequest_VolumePath x);
   fldo "parameters" (RotateEncryptionKeyRequest_Parameters x);
   fldo "secrets" (RotateEncryptionKeyRequest_Secrets x)].
Definition read_RotateEncryptionKeyRequest (o : list (string * json)) (x : RotateEncryptionKeyRequest) : RotateEncryptionKeyRequest * bool :=
  let '(a0, k0) := dec_field "volume" o (RotateEncryptionKeyRequest_Volume x) in
  let '(a1, k1) := dec_field "volumePath" o (RotateEncryptionKeyRequest_VolumePath x) in
  let '(a2, k2) := dec_field "parameters" o (RotateEncryptionKeyRequest_Parameters x) in
  let '(a3, k3) := dec_field "secrets" o (RotateEncryptionKeyRequest_Secrets x) in
  (mkRotateEncryptionKeyRequest a0 a1 a2 a3, k0 && k1 && k2 && k3).
#[global] Instance wire_RotateEncryptionKeyRequest : Wire RotateEncryptionKeyRequest :=
  struct_wire (mkRotateEncryptionKeyRequest zero zero zero zero) fields_RotateEncryptionKeyRequest read_RotateEncryptionKeyRequest
    (λ x, wire_ok (RotateEncryptionKeyRequest_Volume x) ∧ wire_ok (RotateEncryptionKeyRequest_VolumePath x) ∧ wire_ok (RotateEncryptionKeyRequest_Parameters x) ∧ wire_ok (RotateEncryptionKeyRequest_Secrets x)).
#[global] Instance wire_laws_RotateEncryptionKeyRequest : WireLaws RotateEncryptionKeyRequest.
Proof.
  apply struct_laws. intros [].
  cbv beta iota delta [read_RotateEncryptionKeyRequest fields_RotateEncryptionKeyRequest RotateEncryptionKeyRequest_Volume RotateEncryptionKeyRequest_VolumePath RotateEncryptionKeyRequest_Parameters RotateEncryptionKeyRequest_Secrets].
  wire_fields.
Qed.
#[global] Instance wire_struct_RotateEncryptionKeyRequest : WireStruct RotateEncryptionKeyRequest.
Proof. apply struct_not_null. Qed.
(** The [struct{}] that routes with no result return. *)
#[global] Instance wire_unit : Wire unit :=
  struct_wire tt (λ _, []) (λ _ x, (x, true)) (λ _, True).
#[global] Instance wire_laws_unit : WireLaws unit.
Proof. apply struct_laws. by intros []. Qed.

(** ** The interface a plugin implements

    Over the state [P] of the plugin. *)
Section interface.
  Context {P : Type}.
  Abbreviation op A := (M P perror A).

(** [CapacityReporter]. *)
Record CapacityReporter := mkCapacityReporter {
  GetCapacity : GetCapacityRequest → op GetCapacityResponse;
}.
(** [HealthReporter]. *)
Record HealthReporter := mkHealthReporter {
  GetVolumeHealth : GetVolumeHealthRequest → op GetVolumeHealthResponse;
}.
(** [VolumeModifier]. *)
Record VolumeModifier := mkVolumeModifier {
  ModifyVolume : ModifyVolumeRequest → op ModifyVolumeResponse;
}.
(** [ControllerPublisher]. *)
Record ControllerPublisher := mkControllerPublisher {
  ControllerPublish : ControllerPublishRequest → op ControllerPublishResponse;
  ControllerUnpublish : ControllerUnpublishRequest → op unit;
}.
(** [VolumeLister]. *)
Record VolumeLister := mkVolumeLister {
  ListVolumes : ListVolumesRequest → op ListVolumesResponse;
}.
(** [SnapshotLister]. *)
Record SnapshotLister := mkSnapshotLister {
  ListSnapshots : ListSnapshotsRequest → op ListSnapshotsResponse;
}.
(** [SpaceReclaimer]. *)
Record SpaceReclaimer := mkSpaceReclaimer {
  ReclaimSpace : ReclaimSpaceRequest → op ReclaimSpaceResponse;
}.
(** [NodeSpaceReclaimer]. *)
Record NodeSpaceReclaimer := mkNodeSpaceReclaimer {
  NodeReclaimSpace : NodeReclaimSpaceRequest → op ReclaimSpaceResponse;
}.
(** [NetworkFencer]. *)
Record NetworkFencer := mkNetworkFencer {
  FenceClusterNetwork : FenceClusterNetworkRequest → op unit;
  UnfenceClusterNetwork : UnfenceClusterNetworkRequest → op unit;
  ListClusterFence : ListClusterFenceRequest → op ListClusterFenceResponse;
  GetFenceClients : GetFenceClientsRequest → op GetFenceClientsResponse;
}.
(** [VolumeReplicator]. *)
Record VolumeReplicator := mkVolumeReplicator {
  EnableVolumeReplication : EnableReplicationRequest → op unit;
  DisableVolumeReplication : DisableReplicationRequest → op unit;
  PromoteVolume : PromoteVolumeRequest → op unit;
  DemoteVolume : DemoteVolumeRequest → op unit;
  ResyncVolume : ResyncVolumeRequest → op ResyncVolumeResponse;
  GetVolumeReplicationInfo : ReplicationInfoRequest → op ReplicationInfoResponse;
}.
(** [VolumeGrouper]. *)
Record VolumeGrouper := mkVolumeGrouper {
  CreateVolumeGroup : CreateVolumeGroupRequest → op VolumeGroupResponse;
  ModifyVolumeGroup : ModifyVolumeGroupRequest → op VolumeGroupResponse;
  DeleteVolumeGroup : DeleteVolumeGroupRequest → op unit;
  GetVolumeGroup : GetVolumeGroupRequest → op VolumeGroupResponse;
  ListVolumeGroups : ListVolumeGroupsRequest → op ListVolumeGroupsResponse;
}.
(** [EncryptionKeyRotator]. *)
Record EncryptionKeyRotator := mkEncryptionKeyRotator {
  RotateEncryptionKey : RotateEncryptionKeyRequest → op unit;
}.

(** [Backend], with the optional interfaces it may also implement. *)
Record Backend := mkBackend {
  Info_ : Info;
  CreateVolume : CreateVolumeRequest → op CreateVolumeResponse;
  DeleteVolume : DeleteVolumeRequest → op unit;
  ExpandVolume : ExpandVolumeRequest → op ExpandVolumeResponse;
  CreateSnapshot : CreateSnapshotRequest → op CreateSnapshotResponse;
  DeleteSnapshot : DeleteSnapshotRequest → op unit;
  NodeStage : NodeStageRequest → op unit;
  NodeUnstage : NodeUnstageRequest → op unit;
  NodePublish : NodePublishRequest → op unit;
  NodeUnpublish : NodeUnpublishRequest → op unit;
  NodeExpand : NodeExpandRequest → op NodeExpandResponse;
  as_CapacityReporter : option CapacityReporter;
  as_HealthReporter : option HealthReporter;
  as_VolumeModifier : option VolumeModifier;
  as_ControllerPublisher : option ControllerPublisher;
  as_VolumeLister : option VolumeLister;
  as_SnapshotLister : option SnapshotLister;
  as_SpaceReclaimer : option SpaceReclaimer;
  as_NodeSpaceReclaimer : option NodeSpaceReclaimer;
  as_NetworkFencer : option NetworkFencer;
  as_VolumeReplicator : option VolumeReplicator;
  as_VolumeGrouper : option VolumeGrouper;
  as_EncryptionKeyRotator : option EncryptionKeyRotator;
}.
End interface.
Arguments Backend : clear implicits.
Arguments CapacityReporter : clear implicits.
Arguments HealthReporter : clear implicits.
Arguments VolumeModifier : clear implicits.
Arguments ControllerPublisher : clear implicits.
Arguments VolumeLister : clear implicits.
Arguments SnapshotLister : clear implicits.
Arguments SpaceReclaimer : clear implicits.
Arguments NodeSpaceReclaimer : clear implicits.
Arguments NetworkFencer : clear implicits.
Arguments VolumeReplicator : clear implicits.
Arguments VolumeGrouper : clear implicits.
Arguments EncryptionKeyRotator : clear implicits.
End bardplugin.
