(* ===== verification/Server.v ===== *)
(** * The SDK's plugin server (pkg/bardplugin/server.go)

    [newMux] as a table of routes, each a handler over the plugin's state that
    decodes a request, runs the plugin's method and writes its result or a
    structured error.  [Serve], which sets its socket up, is in Serving.v. *)
From S2P Require Import Prelude GoStrings GoErrors Json Protocol.

Module server.
Import bardplugin.

(** A request body: the length of its JSON text and the value the text denotes,
    [None] when it is not JSON.  A response likewise, with its status. *)
Record body := mkBody { b_len : Z; b_json : option json }.
Record response := mkResponse { r_status : Z; r_body : option json }.
Definition StatusOK : Z := 200.

Definition maxRequestBody : Z := 1048576.

(** [writeJSON] and [writeErr]. *)
Definition writeJSON {A} `{Wire A} (v : A) : response := mkResponse StatusOK (Some (enc v)).
Definition error_body (e : perror) : Error :=
  match as_StatusError e with
  | Some se => mkError (se_Code se) (se_Message se)
  | None => mkError CodeInternal (perror_text e)
  end.
Definition status_of_code (c : ErrorCode) : Z :=
  if decide (c = CodeNotFound) then 404
  else if decide (c = CodeAlreadyExists) then 409
  else if decide (c = CodeInvalidArg) then 400
  else if decide (c = CodeUnsupported) then 501
  else 500.
Definition writeErr (e : perror) : response :=
  mkResponse (status_of_code (Error_Code (error_body e))) (Some (enc (error_body e))).

Section server.
  Context {P : Type}.

Definition handler : Type := option body → P → P * response.
Definition mux : Type := list (string * handler).

(** Decoding a request: at most [maxRequestBody] bytes are read. *)
Definition decode_request {A} `{Wire A} (b : option body) : option A :=
  match b with
  | None => Some zero
  | Some b =>
      if bool_decide (b_len b > maxRequestBody)%Z then None
      else match b_json b with
      | None => None
      | Some j => let '(req, ok) := dec j zero in if ok : bool then Some req else None
      end
  end.

(** [handle]. *)
Definition handle {Req Resp} `{Wire Req, Wire Resp} (fn : Req → M P perror Resp) : handler := λ b p,
  match decode_request b with
  | None => (p, writeErr (status_error (mkStatusError CodeInvalidArg "decode request: ")))
  | Some req =>
      match fn req p with
      | (p', Ok resp) => (p', writeJSON resp)
      | (p', Err e) => (p', writeErr e)
      end
  end.

(** What /info answers. *)
Definition implements {I} (o : option I) : bool := match o with Some _ => true | None => false end.
Definition info (b : Backend P) : Info :=
  let i := Info_ b in
  let c := Info_Capabilities i in
  mkInfo (Info_Type i)
    (if bool_decide (Info_ContractVersion i = "") then ContractVersion else Info_ContractVersion i)
    (mkCapabilities
      (implements (as_ControllerPublisher b) || Capabilities_RequiresControllerPublish c)
      (Capabilities_NodeLocal c)
      (Capabilities_BlockDevice c)
      (Capabilities_Snapshots c)
      (Capabilities_Expand c)
      (implements (as_CapacityReporter b) || Capabilities_GetCapacity c)
      (implements (as_HealthReporter b) || Capabilities_VolumeHealth c)
      (implements (as_VolumeModifier b) || Capabilities_ModifyVolume c)
      (implements (as_SpaceReclaimer b) || Capabilities_ReclaimSpace c)
      (implements (as_NodeSpaceReclaimer b) || Capabilities_NodeReclaimSpace c)
      (implements (as_VolumeLister b) || Capabilities_ListVolumes c)
      (implements (as_SnapshotLister b) || Capabilities_ListSnapshots c)
      (implements (as_NetworkFencer b) || Capabilities_NetworkFence c)
      (implements (as_VolumeReplicator b) || Capabilities_Replication c)
      (implements (as_EncryptionKeyRotator b) || Capabilities_EncryptionKeyRotation c)
      (implements (as_VolumeGrouper b) || Capabilities_VolumeGroup c)).

Definition info_handler (b : Backend P) : handler := λ _ p, (p, writeJSON (info b)).

(** [newMux]: the routes every plugin has, then those of each optional interface
    the plugin implements. *)
Definition required_routes (b : Backend P) : mux :=
  [(PathInfo, info_handler b);
   (PathCreateVolume, handle (CreateVolume b));
   (PathDeleteVolume, handle (DeleteVolume b));
   (PathExpandVolume, handle (ExpandVolume b));
   (PathCreateSnapshot, handle (CreateSnapshot b));
   (PathDeleteSnapshot, handle (DeleteSnapshot b));
   (PathNodeStage, handle (NodeStage b));
   (PathNodeUnstage, handle (NodeUnstage b));
   (PathNodePublish, handle (NodePublish b));
   (PathNodeUnpublish, handle (NodeUnpublish b));
   (PathNodeExpand, handle (NodeExpand b))].
Definition when {I} (o : option I) (routes : I → mux) : mux :=
  match o with Some i => routes i | None => [] end.
Definition newMux (b : Backend P) : mux :=
  required_routes b ++
  when (as_CapacityReporter b) (λ cr, [(PathGetCapacity, handle (GetCapacity cr))]) ++
  when (as_HealthReporter b) (λ hr, [(PathVolumeHealth, handle (GetVolumeHealth hr))]) ++
  when (as_VolumeModifier b) (λ vm, [(PathModifyVolume, handle (ModifyVolume vm))]) ++
  when (as_SpaceReclaimer b) (λ sr, [(PathReclaimSpace, handle (ReclaimSpace sr))]) ++
  when (as_NodeSpaceReclaimer b) (λ nsr, [(PathNodeReclaimSpace, handle (NodeReclaimSpace nsr))]) ++
  when (as_ControllerPublisher b) (λ cp, [(PathControllerPublish, handle (ControllerPublish cp));
    (PathControllerUnpublish, handle (ControllerUnpublish cp))]) ++
  when (as_VolumeLister b) (λ vl, [(PathListVolumes, handle (ListVolumes vl))]) ++
  when (as_SnapshotLister b) (λ sl, [(PathListSnapshots, handle (ListSnapshots sl))]) ++
  when (as_NetworkFencer b) (λ nf, [(PathFenceClusterNetwork, handle (FenceClusterNetwork nf));
    (PathUnfenceClusterNetwork, handle (UnfenceClusterNetwork nf));
    (PathListClusterFence, handle (ListClusterFence nf));
    (PathGetFenceClients, handle (GetFenceClients nf))]) ++
  when (as_VolumeReplicator b) (λ vr, [(PathEnableReplication, handle (EnableVolumeReplication vr));
    (PathDisableReplication, handle (DisableVolumeReplication vr));
    (PathPromoteVolume, handle (PromoteVolume vr));
    (PathDemoteVolume, handle (DemoteVolume vr));
    (PathResyncVolume, handle (ResyncVolume vr));
    (PathReplicationInfo, handle (GetVolumeReplicationInfo vr))]) ++
  when (as_EncryptionKeyRotator b) (λ kr, [(PathRotateEncryptionKey, handle (RotateEncryptionKey kr))]) ++
  when (as_VolumeGrouper b) (λ vg, [(PathCreateVolumeGroup, handle (CreateVolumeGroup vg));
    (PathModifyVolumeGroup, handle (ModifyVolumeGroup vg));
    (PathDeleteVolumeGroup, handle (DeleteVolumeGroup vg));
    (PathGetVolumeGroup, handle (GetVolumeGroup vg));
    (PathListVolumeGroups, handle (ListVolumeGroups vg))]).

(** [ServeMux]: the handler of the exact path, or a 404 in plain text. *)
Fixpoint route (m : mux) (path : string) : option handler :=
  match m with
  | [] => None
  | (k, h) :: m' => if bool_decide (k = path) then Some h else route m' path
  end.
Definition serve (m : mux) (path : string) (b : option body) (p : P) : P * response :=
  match route m path with
  | Some h => h b p
  | None => (p, mkResponse 404 None)
  end.

(** A request moves the plugin's state only as the methods behind the routes do. *)
Section steps.
  Context (R : P → P → Prop) `{!PreOrder R}.
Definition respects (kh : string * handler) : Prop := ∀ b p, R p (kh.2 b p).1.
Lemma handle_respects {Req Resp} `{Wire Req, Wire Resp} k (fn : Req → M P perror Resp) :
  (∀ req, Pres R (fn req)) → respects (k, handle fn).
Proof.
  intros Hfn b p. unfold handle. simpl. destruct (decode_request b) as [req|]; [|reflexivity].
  specialize (Hfn req p). by destruct (fn req p) as [p' [r|e]].
Qed.
Lemma serve_respects m path b p : Forall respects m → R p (serve m path b p).1.
Proof.
  intros Hm. unfold serve. induction Hm as [|[k h] m Hh Hm IH]; simpl; [reflexivity|].
  destruct (bool_decide (k = path)); [apply Hh|apply IH].
Qed.
End steps.
End server.
Arguments handler : clear implicits.
Arguments mux : clear implicits.

(** ** Capabilities and routes

    The contract's table: which capability flag announces which routes. *)
Definition contract : list ((Capabilities → bool) * list string) :=
  [(Capabilities_GetCapacity, [PathGetCapacity]);
   (Capabilities_VolumeHealth, [PathVolumeHealth]);
   (Capabilities_ModifyVolume, [PathModifyVolume]);
   (Capabilities_ReclaimSpace, [PathReclaimSpace]);
   (Capabilities_NodeReclaimSpace, [PathNodeReclaimSpace]);
   (Capabilities_RequiresControllerPublish, [PathControllerPublish; PathControllerUnpublish]);
   (Capabilities_ListVolumes, [PathListVolumes]);
   (Capabilities_ListSnapshots, [PathListSnapshots]);
   (Capabilities_NetworkFence, [PathFenceClusterNetwork; PathUnfenceClusterNetwork; PathListClusterFence; PathGetFenceClients]);
   (Capabilities_Replication, [PathEnableReplication; PathDisableReplication; PathPromoteVolume; PathDemoteVolume; PathResyncVolume; PathReplicationInfo]);
   (Capabilities_EncryptionKeyRotation, [PathRotateEncryptionKey]);
   (Capabilities_VolumeGroup, [PathCreateVolumeGroup; PathModifyVolumeGroup; PathDeleteVolumeGroup; PathGetVolumeGroup; PathListVolumeGroups])].

Definition required_paths : list string :=
  [PathInfo; PathCreateVolume; PathDeleteVolume; PathExpandVolume; PathCreateSnapshot;
   PathDeleteSnapshot; PathNodeStage; PathNodeUnstage; PathNodePublish; PathNodeUnpublish; PathNodeExpand].

Section routes.
  Context {P : Type}.
  Implicit Types (b : Backend P) (m : mux P).

(** For each line of the contract, whether the plugin implements its interface. *)
Definition implemented b : list bool :=
  [implements (as_CapacityReporter b); implements (as_HealthReporter b);
   implements (as_VolumeModifier b); implements (as_SpaceReclaimer b);
   implements (as_NodeSpaceReclaimer b); implements (as_ControllerPublisher b);
   implements (as_VolumeLister b); implements (as_SnapshotLister b);
   implements (as_NetworkFencer b); implements (as_VolumeReplicator b);
   implements (as_EncryptionKeyRotator b); implements (as_VolumeGrouper b)].

(** The groups of [kss] that [cs] selects. *)
Definition select (cs : list bool) (kss : list (list string)) : list string :=
  concat (zip_with (λ (c : bool) ks, if c then ks else []) cs kss).

Lemma route_is_Some m path : is_Some (route m path) ↔ path ∈ m.*1.
Proof.
  induction m as [|[k h] m IH]; simpl.
  - rewrite elem_of_nil. by split; [intros []|].
  - rewrite elem_of_cons. case_bool_decide; naive_solver.
Qed.

Lemma route_elem m path h : NoDup m.*1 → (path, h) ∈ m → route m path = Some h.
Proof.
  induction m as [|[k h'] m IH]; simpl; intros Hnd Hin.
  - by apply elem_of_nil in Hin.
  - apply NoDup_cons in Hnd as [Hk Hnd]. apply elem_of_cons in Hin as [[= -> ->]|Hin].
    + by rewrite bool_decide_eq_true_2.
    + rewrite bool_decide_eq_false_2; [by apply IH|]. intros ->. apply Hk.
      apply list_elem_of_fmap. by exists (path, h).
Qed.

Lemma when_paths {I} (o : option I) (f : I → mux P) ks :
  (∀ i, (f i).*1 = ks) → (when o f).*1 = if implements o then ks else [].
Proof. intros Hf. by destruct o; simpl. Qed.

Lemma newMux_paths b : (newMux b).*1 = required_paths ++ select (implemented b) contract.*2.
Proof.
  unfold newMux, select. rewrite !fmap_app.
  do 12 (erewrite when_paths by (intros; cbn; reflexivity)). cbn [implemented contract fmap list_fmap snd zip_with concat].
  by rewrite app_nil_r.
Qed.

Lemma select_sublist cs kss : sublist (select cs kss) (concat kss).
Proof.
  revert kss. induction cs as [|c cs IH]; intros [|ks kss]; simpl; try apply sublist_nil_l.
  apply sublist_app; [|apply IH]. destruct c; [done|apply sublist_nil_l].
Qed.

Lemma elem_of_concat_lookup (kss : list (list string)) i ks path :
  kss !! i = Some ks → path ∈ ks → path ∈ concat kss.
Proof.
  intros Hi Hp. apply list_elem_of_In, in_concat. exists ks. split; apply list_elem_of_In; [|done].
  by eapply list_elem_of_lookup_2.
Qed.

Lemma select_elem cs kss i c ks path :
  NoDup (concat kss) → cs !! i = Some c → kss !! i = Some ks → path ∈ ks →
  path ∈ select cs kss ↔ c = true.
Proof.
  revert kss i. induction cs as [|c' cs IH]; intros [|ks' kss] [|i]; simpl; try done;
    intros (Hnd1 & Hdis & Hnd2)%NoDup_app Hc Hks Hp; unfold select; simpl;
    rewrite elem_of_app; fold (select cs kss).
  - simplify_eq. split; [|intros ->; by left]. intros [Hin|Hin].
    + destruct c; [done|]. by apply elem_of_nil in Hin.
    + destruct (Hdis path Hp). eapply elem_of_sublist; [done|apply select_sublist].
  - rewrite <-(IH kss i Hnd2 Hc Hks Hp). split; [|by right]. intros [Hin|Hin]; [|done].
    destruct c'; [|by apply elem_of_nil in Hin]. destruct (Hdis path Hin).
    by eapply elem_of_concat_lookup.
Qed.

Lemma all_paths_NoDup : NoDup (required_paths ++ concat contract.*2).
Proof. apply (bool_decide_unpack _). vm_compute. exact I. Qed.

Lemma newMux_NoDup b : NoDup (newMux b).*1.
Proof.
  rewrite newMux_paths. eapply sublist_NoDup; [apply all_paths_NoDup|].
  apply sublist_app; [done|apply select_sublist].
Qed.

(** Each flag of /info is the plugin's own flag or the interface. *)
Lemma advertised b i cap ks :
  contract !! i = Some (cap, ks) →
  ∃ c, implemented b !! i = Some c ∧
       cap (Info_Capabilities (info b)) = c || cap (Info_Capabilities (Info_ b)).
Proof. do 12 (destruct i as [|i]; [intros [= <- <-]; by eexists|]). done. Qed.

Lemma routed b i cap ks path c :
  contract !! i = Some (cap, ks) → path ∈ ks → implemented b !! i = Some c →
  is_Some (route (newMux b) path) ↔ c = true.
Proof.
  intros Hi Hp Hc. pose proof all_paths_NoDup as (_ & Hdis & Hnd)%NoDup_app.
  assert (contract.*2 !! i = Some ks) as Hks by (by rewrite list_lookup_fmap, Hi).
  rewrite route_is_Some, newMux_paths, elem_of_app, <-(select_elem _ _ i c ks path Hnd Hc Hks Hp).
  split; [|by right]. intros [Hreq|Hin]; [|done]. destruct (Hdis path Hreq).
  by eapply elem_of_concat_lookup.
Qed.

(** A flag the plugin sets itself stands for an interface it has. *)
Definition flags_backed b : Prop :=
  ∀ i cap ks, contract !! i = Some (cap, ks) → cap (Info_Capabilities (Info_ b)) = true → implemented b !! i = Some true.

(** A plugin that leaves the contract's optional flags to the SDK
    advertises a capability on /info exactly when the routes of that capability
    are wired, and answers every required route, whatever it implements. *)
Theorem advertised_iff_routed b :
  (∀ cap ks, (cap, ks) ∈ contract → cap (Info_Capabilities (Info_ b)) = false) →
  (∀ cap ks path, (cap, ks) ∈ contract → path ∈ ks →
     cap (Info_Capabilities (info b)) = true ↔ is_Some (route (newMux b) path)) ∧
  (∀ path, path ∈ required_paths → is_Some (route (newMux b) path)).
Proof.
  intros Hflags. split.
  - intros cap ks path Hin Hp. pose proof Hin as [i Hi]%list_elem_of_lookup.
    destruct (advertised b i cap ks Hi) as (c & Hc & ->). rewrite (Hflags cap ks Hin), orb_false_r.
    symmetry. by eapply routed.
  - intros path Hp. rewrite route_is_Some, newMux_paths. apply elem_of_app. by left.
Qed.
End routes.

(** A plugin with a lister and nothing else, over a counter of calls. *)
Definition ex_ops {Req Resp} `{Wire Resp} : Req → M nat perror Resp := λ _ n, (S n, Ok zero).
Definition ex_plugin : Backend nat :=
  mkBackend (mkInfo "nfs" "" zero) ex_ops ex_ops ex_ops ex_ops ex_ops ex_ops ex_ops ex_ops ex_ops ex_ops
    None None None None (Some (mkVolumeLister ex_ops)) None None None None None None None.

Lemma advertised_iff_routed_witness :
  is_Some (route (newMux ex_plugin) PathListVolumes) ∧
  ¬ is_Some (route (newMux ex_plugin) PathListSnapshots).
Proof.
  destruct (advertised_iff_routed ex_plugin) as [H _].
  { intros cap ks Hin. unfold contract in Hin.
    repeat (apply elem_of_cons in Hin as [[= -> ->]|Hin]; [reflexivity|]).
    by apply elem_of_nil in Hin. }
  split.
  - apply (H Capabilities_ListVolumes [PathListVolumes]); [|by apply list_elem_of_here|reflexivity].
    unfold contract. in_fields.
  - intros Hs. apply (H Capabilities_ListSnapshots [PathListSnapshots]) in Hs;
      [discriminate Hs|unfold contract; in_fields|by apply list_elem_of_here].
Defined.
End server.
