(* ===== verification/Client.v ===== *)
(** * The plugin client (internal/backend/plugin/client.go)

    A [backend.Backend] whose operations are HTTP calls to a plugin.  The HTTP
    transport and the clock are the environment: [transport path body] is what
    [http.Client.Do] and reading the response give, with the time they took.
    Each call classifies its outcome, records it, and maps the plugin's error
    code to a sentinel.  [json.Marshal] and [http.NewRequestWithContext] do not
    fail on the client's messages and fixed paths, so their error returns are
    not branches here. *)
From Stdlib Require Import Ascii.
From S2P Require Import Prelude GoStrings GoErrors VolumeID Metrics Backend Json Protocol Server.

Module plugin.

(** What a request comes back with: [Do] fails, the body cannot be read, or a
    status with a body ([None]: not JSON). *)
Inductive outcome :=
  | DoErr (e : error)
  | ReadErr (e : error)
  | Resp (status : Z) (body : option json).

(** The transport over an environment [T]: its answer and how long it took. *)
Class Transport (T : Type) :=
  transport : string → json → T → T * (Z * outcome).

(** [classify]. *)
Definition classify (err : error) : string :=
  if errors_Is err ErrNotFound then ResultNotFound
  else if errors_Is err ErrAlreadyExists then ResultAlreadyExists
  else if errors_Is err ErrInvalidArgument then ResultInvalidArg
  else if errors_Is err ErrUnsupported then ResultUnsupported
  else ResultPluginError.

(** [mapError]; what [Unmarshal] could store counts, its error does not. *)
Definition error_for (c : bardplugin.ErrorCode) : error :=
  if decide (c = bardplugin.CodeNotFound) then mkError [ErrNotFound] "%w: %s"
  else if decide (c = bardplugin.CodeAlreadyExists) then mkError [ErrAlreadyExists] "%w: %s"
  else if decide (c = bardplugin.CodeInvalidArg) then mkError [ErrInvalidArgument] "%w: %s"
  else if decide (c = bardplugin.CodeUnsupported) then mkError [ErrUnsupported] "%w: %s"
  else plain_error "plugin error: %s".
Definition mapError (body : option json) : error :=
  let e : bardplugin.Error := match body with Some j => (dec j zero).1 | None => zero end in
  error_for (bardplugin.Error_Code e).

(** The result of a failed [Do] or read. *)
Definition transport_result (err : error) : string :=
  if errors_Is err DeadlineExceeded then ResultTimeout
  else if errors_Is err Canceled then ResultCanceled
  else ResultTransport.

(** [json.Unmarshal] into a variable that holds [x]. *)
Definition unmarshal {R} `{Wire R} (body : option json) (x : R) : R * bool :=
  match body with Some j => dec j x | None => (x, false) end.

(** [do], after the request has been sent: the result label, the error, and
    what the response variable then holds; [None] is a nil [respOut]. *)
Definition do_outcome {R} `{Wire R} (o : outcome) (respOut : option R)
    : string * res error unit * option R :=
  match o with
  | DoErr err => (transport_result err, Err err, respOut)
  | ReadErr err => (transport_result err, Err err, respOut)
  | Resp status body =>
      if bool_decide (status = server.StatusOK) then
        match respOut with
        | None => (ResultSuccess, Ok tt, None)
        | Some x =>
            let '(y, ok) := unmarshal body x in
            if ok : bool then (ResultSuccess, Ok tt, Some y)
            else (ResultDecodeError, Err (plain_error "decode response: %w"), Some y)
        end
      else (classify (mapError body), Err (mapError body), respOut)
  end.

Record Client := mkClient { backendType : string; caps : backend.Capabilities }.

Section client.
  Context {T : Type} `{Transport T}.
  Implicit Types (w : World T) (c : Client).
  Abbreviation op A := (M (World T) error A).

Definition w_update (f : collector → collector) w : World T := mkWorld (f (w_metrics w)) (w_env w).

(** [call]: the gauge is raised, the request is made, its result and duration
    are recorded, and the gauge is lowered on the way out.  Returns the
    duration, the error and the response variable. *)
Definition call {Req R} `{Wire Req, Wire R} (bt path instance : string) (req : Req) (respOut : option R) w
    : World T * (Z * res error unit * option R) :=
  let w1 := w_update (PluginCallStarted bt) w in
  let '(env, (d, o)) := transport path (enc req) (w_env w1) in
  let '(result, err, out) := do_outcome o respOut in
  let m := ObservePluginCall bt instance path result d (w_metrics w1) in
  (mkWorld (PluginCallDone bt m) env, (d, err, out)).

(** A call with a response variable, declared just before it; and without. *)
Definition call_resp {Req} (R : Type) `{Wire Req, Wire R} c (path instance : string) (req : Req) : op R := λ w,
  let '(w', (_, err, out)) := call (backendType c) path instance req (Some (zero : R)) w in
  (w', match err with Ok _ => Ok (default zero out) | Err e => Err e end).
Definition call_none {Req} `{Wire Req} c (path instance : string) (req : Req) : op unit := λ w,
  let '(w', (_, err, _)) := call (backendType c) path instance req (None : option unit) w in
  (w', err).

(** [ref], [refPtr], [refs], [Client.handle], [Client.group]. *)
Definition ref (h : Handle) : bardplugin.VolumeRef :=
  bardplugin.mkVolumeRef (hInstance h) (hLocation h) (hName h).
Definition refPtr (h : option Handle) : option bardplugin.VolumeRef := ref <$> h.
Definition refs (hs : list Handle) : list bardplugin.VolumeRef := map ref hs.
Definition handle_of c (r : bardplugin.VolumeRef) : Handle :=
  mkHandle (backendType c) (bardplugin.VolumeRef_Instance r) (bardplugin.VolumeRef_Location r)
    (bardplugin.VolumeRef_Name r).
Definition group c (r : bardplugin.VolumeGroupResponse) : backend.VolumeGroup :=
  backend.mkVolumeGroup (handle_of c (bardplugin.VolumeGroupResponse_Group r))
    (map (handle_of c) (bardplugin.VolumeGroupResponse_Volumes r)).

(** An operation gated by a capability. *)
Definition gated {A} (cap : bool) (m : op A) : op A :=
  guard_ cap (bare ErrUnsupported);; m.

(** *** Control plane *)
Definition CreateVolume c (req : backend.CreateVolumeRequest) : op backend.Volume :=
  resp ← call_resp bardplugin.CreateVolumeResponse c bardplugin.PathCreateVolume (backend.cv_Instance req)
    (bardplugin.mkCreateVolumeRequest (backend.cv_Name req) (backend.cv_CapacityBytes req)
      (backend.cv_Instance req) (backend.cv_FsType req) (backend.cv_Parameters req)
      (backend.cv_MutableParams req) (backend.cv_Secrets req)
      (refPtr (backend.cv_SourceSnapshot req)) (refPtr (backend.cv_SourceVolume req)));
  let h := mkHandle (backendType c) (backend.cv_Instance req)
    (bardplugin.CreateVolumeResponse_Location resp) (bardplugin.CreateVolumeResponse_Name resp) in
  lift (Validate h);;
  mret (backend.mkVolume h (bardplugin.CreateVolumeResponse_CapacityBytes resp)
    (bardplugin.CreateVolumeResponse_Context resp)
    (bardplugin.CreateVolumeResponse_AccessibleTopology resp)).

Definition DeleteVolume c (h : Handle) (secrets : strmap) : op unit :=
  call_none c bardplugin.PathDeleteVolume (hInstance h) (bardplugin.mkDeleteVolumeRequest (ref h) secrets).

Definition GetCapacity c (instance : string) (params : strmap) : op Z :=
  gated (backend.CapGetCapacity (caps c)) (
    resp ← call_resp bardplugin.GetCapacityResponse c bardplugin.PathGetCapacity instance
      (bardplugin.mkGetCapacityRequest instance params);
    mret (bardplugin.GetCapacityResponse_AvailableBytes resp)).

Definition GetVolumeHealth c (h : Handle) (secrets : strmap) : op backend.VolumeHealth :=
  gated (backend.CapVolumeHealth (caps c)) (
    resp ← call_resp bardplugin.GetVolumeHealthResponse c bardplugin.PathVolumeHealth (hInstance h)
      (bardplugin.mkGetVolumeHealthRequest (ref h) secrets);
    mret (backend.mkVolumeHealth (bardplugin.GetVolumeHealthResponse_Abnormal resp)
      (bardplugin.GetVolumeHealthResponse_Message resp))).

Definition ModifyVolume c (h : Handle) (mutableParams secrets : strmap) : op unit :=
  gated (backend.CapModifyVolume (caps c)) (
    call_none c bardplugin.PathModifyVolume (hInstance h)
      (bardplugin.mkModifyVolumeRequest (ref h) mutableParams secrets)).

Definition space_usage (resp : bardplugin.ReclaimSpaceResponse) : backend.SpaceUsage :=
  backend.mkSpaceUsage (bardplugin.ReclaimSpaceResponse_PreUsageBytes resp)
    (bardplugin.ReclaimSpaceResponse_PostUsageBytes resp).

Definition ReclaimSpace c (h : Handle) (secrets : strmap) : op backend.SpaceUsage :=
  gated (backend.CapReclaimSpace (caps c)) (
    resp ← call_resp bardplugin.ReclaimSpaceResponse c bardplugin.PathReclaimSpace (hInstance h)
      (bardplugin.mkReclaimSpaceRequest (ref h) secrets);
    mret (space_usage resp)).

Definition NodeReclaimSpace c (h : Handle) (volumePath stagingPath : string) (block : bool) (secrets : strmap)
    : op backend.SpaceUsage :=
  gated (backend.CapNodeReclaimSpace (caps c)) (
    resp ← call_resp bardplugin.ReclaimSpaceResponse c bardplugin.PathNodeReclaimSpace (hInstance h)
      (bardplugin.mkNodeReclaimSpaceRequest (ref h) volumePath stagingPath block secrets);
    mret (space_usage resp)).

Definition ExpandVolume c (h : Handle) (newSizeBytes : Z) (secrets : strmap) : op (Z * bool) :=
  resp ← call_resp bardplugin.ExpandVolumeResponse c bardplugin.PathExpandVolume (hInstance h)
    (bardplugin.mkExpandVolumeRequest (ref h) newSizeBytes secrets);
  mret (bardplugin.ExpandVolumeResponse_CapacityBytes resp,
        bardplugin.ExpandVolumeResponse_NodeExpansionRequired resp).

Definition CreateSnapshot c (req : backend.CreateSnapshotRequest) : op backend.Snapshot :=
  let src := backend.cs_SourceVolume req in
  resp ← call_resp bardplugin.CreateSnapshotResponse c bardplugin.PathCreateSnapshot (hInstance src)
    (bardplugin.mkCreateSnapshotRequest (backend.cs_Name req) (ref src) (backend.cs_Parameters req)
      (backend.cs_Secrets req));
  let h := mkHandle (backendType c) (hInstance src) (bardplugin.CreateSnapshotResponse_Location resp)
    (bardplugin.CreateSnapshotResponse_Name resp) in
  lift (Validate h);;
  mret (backend.mkSnapshot h (Handle_String src) (bardplugin.CreateSnapshotResponse_SizeBytes resp)
    (bardplugin.CreateSnapshotResponse_CreationTimeUnix resp)
    (bardplugin.CreateSnapshotResponse_ReadyToUse resp)).

Definition DeleteSnapshot c (h : Handle) (secrets : strmap) : op unit :=
  call_none c bardplugin.PathDeleteSnapshot (hInstance h) (bardplugin.mkDeleteSnapshotRequest (ref h) secrets).

Definition ControllerPublish c (h : Handle) (nodeID : string) (readonly : bool) (volCtx secrets : strmap)
    : op strmap :=
  if backend.RequiresControllerPublish (caps c) then
    resp ← call_resp bardplugin.ControllerPublishResponse c bardplugin.PathControllerPublish (hInstance h)
      (bardplugin.mkControllerPublishRequest (ref h) nodeID readonly volCtx secrets);
    mret (bardplugin.ControllerPublishResponse_PublishContext resp)
  else mret ∅.

Definition ControllerUnpublish c (h : Handle) (nodeID : string) (secrets : strmap) : op unit :=
  if backend.RequiresControllerPublish (caps c) then
    call_none c bardplugin.PathControllerUnpublish (hInstance h)
      (bardplugin.mkControllerUnpublishRequest (ref h) nodeID secrets)
  else mret tt.

(** Entries whose handle is not a valid one are skipped. *)
Definition list_entry c (e : bardplugin.VolumeListEntry) : option backend.VolumeListEntry :=
  let h := handle_of c (bardplugin.VolumeListEntry_Volume e) in
  if is_Ok (Validate h)
  then Some (backend.mkVolumeListEntry h (bardplugin.VolumeListEntry_CapacityBytes e)) else None.
Definition ListVolumes c : op (list backend.VolumeListEntry) :=
  gated (backend.CapListVolumes (caps c)) (
    resp ← call_resp bardplugin.ListVolumesResponse c bardplugin.PathListVolumes InstanceAll
      bardplugin.mkListVolumesRequest;
    mret (omap (list_entry c) (bardplugin.ListVolumesResponse_Entries resp))).

Definition snapshot_entry c (e : bardplugin.SnapshotListEntry) : option backend.SnapshotListEntry :=
  let snap := handle_of c (bardplugin.SnapshotListEntry_Snapshot e) in
  let src := handle_of c (bardplugin.SnapshotListEntry_SourceVolume e) in
  if is_Ok (Validate snap) && is_Ok (Validate src)
  then Some (backend.mkSnapshotListEntry snap src (bardplugin.SnapshotListEntry_SizeBytes e)
               (bardplugin.SnapshotListEntry_CreationTimeUnix e) (bardplugin.SnapshotListEntry_ReadyToUse e))
  else None.
Definition ListSnapshots c : op (list backend.SnapshotListEntry) :=
  gated (backend.CapListSnapshots (caps c)) (
    resp ← call_resp bardplugin.ListSnapshotsResponse c bardplugin.PathListSnapshots InstanceAll
      bardplugin.mkListSnapshotsRequest;
    mret (omap (snapshot_entry c) (bardplugin.ListSnapshotsResponse_Entries resp))).

(** *** Network fencing *)
Definition FenceClusterNetwork c (instance : string) (cidrs : list string) (params secrets : strmap) : op unit :=
  gated (backend.CapNetworkFence (caps c)) (
    call_none c bardplugin.PathFenceClusterNetwork instance
      (bardplugin.mkFenceClusterNetworkRequest instance cidrs params secrets)).
Definition UnfenceClusterNetwork c (instance : string) (cidrs : list string) (params secrets : strmap) : op unit :=
  gated (backend.CapNetworkFence (caps c)) (
    call_none c bardplugin.PathUnfenceClusterNetwork instance
      (bardplugin.mkUnfenceClusterNetworkRequest instance cidrs params secrets)).
Definition ListClusterFence c (instance : string) (params secrets : strmap) : op (list string) :=
  gated (backend.CapNetworkFence (caps c)) (
    resp ← call_resp bardplugin.ListClusterFenceResponse c bardplugin.PathListClusterFence instance
      (bardplugin.mkListClusterFenceRequest instance params secrets);
    mret (bardplugin.ListClusterFenceResponse_CIDRs resp)).
Definition GetFenceClients c (instance : string) (params secrets : strmap) : op (list backend.FenceClient) :=
  gated (backend.CapNetworkFence (caps c)) (
    resp ← call_resp bardplugin.GetFenceClientsResponse c bardplugin.PathGetFenceClients instance
      (bardplugin.mkGetFenceClientsRequest instance params secrets);
    mret (map (λ cl, backend.mkFenceClient (bardplugin.FenceClient_ID cl) (bardplugin.FenceClient_CIDRs cl))
      (bardplugin.GetFenceClientsResponse_Clients resp))).

(** *** Replication *)
Definition EnableVolumeReplication c (h : Handle) (params secrets : strmap) : op unit :=
  gated (backend.CapReplication (caps c)) (
    call_none c bardplugin.PathEnableReplication (hInstance h)
      (bardplugin.mkEnableReplicationRequest (ref h) params secrets)).
Definition DisableVolumeReplication c (h : Handle) (params secrets : strmap) : op unit :=
  gated (backend.CapReplication (caps c)) (
    call_none c bardplugin.PathDisableReplication (hInstance h)
      (bardplugin.mkDisableReplicationRequest (ref h) params secrets)).
Definition PromoteVolume c (h : Handle) (force : bool) (params secrets : strmap) : op unit :=
  gated (backend.CapReplication (caps c)) (
    call_none c bardplugin.PathPromoteVolume (hInstance h)
      (bardplugin.mkPromoteVolumeRequest (ref h) force params secrets)).
Definition DemoteVolume c (h : Handle) (force : bool) (params secrets : strmap) : op unit :=
  gated (backend.CapReplication (caps c)) (
    call_none c bardplugin.PathDemoteVolume (hInstance h)
      (bardplugin.mkDemoteVolumeRequest (ref h) force params secrets)).
Definition ResyncVolume c (h : Handle) (force : bool) (params secrets : strmap) : op bool :=
  gated (backend.CapReplication (caps c)) (
    resp ← call_resp bardplugin.ResyncVolumeResponse c bardplugin.PathResyncVolume (hInstance h)
      (bardplugin.mkResyncVolumeRequest (ref h) force params secrets);
    mret (bardplugin.ResyncVolumeResponse_Ready resp)).
Definition GetVolumeReplicationInfo c (h : Handle) (secrets : strmap) : op (option Z) :=
  gated (backend.CapReplication (caps c)) (
    resp ← call_resp bardplugin.ReplicationInfoResponse c bardplugin.PathReplicationInfo (hInstance h)
      (bardplugin.mkReplicationInfoRequest (ref h) secrets);
    let t := bardplugin.ReplicationInfoResponse_LastSyncTimeUnix resp in
    mret (if bool_decide (t = 0)%Z then None else Some t)).

Definition RotateEncryptionKey c (h : Handle) (volumePath : string) (params secrets : strmap) : op unit :=
  gated (backend.CapEncryptionKeyRotation (caps c)) (
    call_none c bardplugin.PathRotateEncryptionKey (hInstance h)
      (bardplugin.mkRotateEncryptionKeyRequest (ref h) volumePath params secrets)).

(** *** Volume groups *)
Definition CreateVolumeGroup c (instance pool name : string) (members : list Handle) (params secrets : strmap)
    : op backend.VolumeGroup :=
  gated (backend.CapVolumeGroup (caps c)) (
    resp ← call_resp bardplugin.VolumeGroupResponse c bardplugin.PathCreateVolumeGroup instance
      (bardplugin.mkCreateVolumeGroupRequest instance pool name (refs members) params secrets);
    mret (group c resp)).
Definition ModifyVolumeGroup c (g : Handle) (members : list Handle) (params secrets : strmap)
    : op backend.VolumeGroup :=
  gated (backend.CapVolumeGroup (caps c)) (
    resp ← call_resp bardplugin.VolumeGroupResponse c bardplugin.PathModifyVolumeGroup (hInstance g)
      (bardplugin.mkModifyVolumeGroupRequest (ref g) (refs members) params secrets);
    mret (group c resp)).
Definition DeleteVolumeGroup c (g : Handle) (secrets : strmap) : op unit :=
  gated (backend.CapVolumeGroup (caps c)) (
    call_none c bardplugin.PathDeleteVolumeGroup (hInstance g)
      (bardplugin.mkDeleteVolumeGroupRequest (ref g) secrets)).
Definition GetVolumeGroup c (g : Handle) (secrets : strmap) : op backend.VolumeGroup :=
  gated (backend.CapVolumeGroup (caps c)) (
    resp ← call_resp bardplugin.VolumeGroupResponse c bardplugin.PathGetVolumeGroup (hInstance g)
      (bardplugin.mkGetVolumeGroupRequest (ref g) secrets);
    mret (group c resp)).
Definition ListVolumeGroups c (secrets : strmap) : op (list backend.VolumeGroup) :=
  gated (backend.CapVolumeGroup (caps c)) (
    resp ← call_resp bardplugin.ListVolumeGroupsResponse c bardplugin.PathListVolumeGroups InstanceAll
      (bardplugin.mkListVolumeGroupsRequest secrets);
    mret (map (group c) (bardplugin.ListVolumeGroupsResponse_Groups resp))).

(** *** Node plane *)
Definition NodeStage c (req : backend.NodeStageRequest) : op unit :=
  call_none c bardplugin.PathNodeStage (hInstance (backend.ns_Handle req))
    (bardplugin.mkNodeStageRequest (ref (backend.ns_Handle req)) (backend.ns_StagingPath req)
      (backend.ns_FsType req) (backend.ns_MountFlags req) (backend.ns_Readonly req) (backend.ns_Block req)
      (backend.ns_PublishContext req) (backend.ns_Exclusive req) (backend.ns_Context req)
      (backend.ns_CrushLocation req) (backend.ns_Secrets req)).
Definition NodeUnstage c (h : Handle) (stagingPath : string) : op unit :=
  call_none c bardplugin.PathNodeUnstage (hInstance h) (bardplugin.mkNodeUnstageRequest (ref h) stagingPath).
Definition NodePublish c (req : backend.NodePublishRequest) : op unit :=
  call_none c bardplugin.PathNodePublish (hInstance (backend.np_Handle req))
    (bardplugin.mkNodePublishRequest (ref (backend.np_Handle req)) (backend.np_StagingPath req)
      (backend.np_TargetPath req) (backend.np_FsType req) (backend.np_MountFlags req)
      (backend.np_Readonly req) (backend.np_Block req) (backend.np_Context req)).
Definition NodeUnpublish c (h : Handle) (targetPath : string) : op unit :=
  call_none c bardplugin.PathNodeUnpublish (hInstance h) (bardplugin.mkNodeUnpublishRequest (ref h) targetPath).
Definition NodeExpand c (h : Handle) (volumePath : string) : op Z :=
  resp ← call_resp bardplugin.NodeExpandResponse c bardplugin.PathNodeExpand (hInstance h)
    (bardplugin.mkNodeExpandRequest (ref h) volumePath);
  mret (bardplugin.NodeExpandResponse_CapacityBytes resp).

(** The client as a backend: it has the methods of every optional interface. *)
Definition client_backend c : backend.Backend T :=
  backend.mkBackend (backendType c) (caps c) (CreateVolume c) (DeleteVolume c) (ExpandVolume c)
    (CreateSnapshot c) (DeleteSnapshot c) (GetCapacity c) (GetVolumeHealth c) (ModifyVolume c)
    (ReclaimSpace c) (NodeReclaimSpace c) (ControllerPublish c) (ControllerUnpublish c)
    (ListVolumes c) (ListSnapshots c) (NodeStage c) (NodeUnstage c) (NodePublish c)
    (NodeUnpublish c) (NodeExpand c)
    (Some (backend.mkNetworkFencer (FenceClusterNetwork c) (UnfenceClusterNetwork c)
      (ListClusterFence c) (GetFenceClients c)))
    (Some (backend.mkVolumeReplicator (EnableVolumeReplication c) (DisableVolumeReplication c)
      (PromoteVolume c) (DemoteVolume c) (ResyncVolume c) (GetVolumeReplicationInfo c)))
    (Some (backend.mkEncryptionKeyRotator (RotateEncryptionKey c)))
    (Some (backend.mkVolumeGrouper (CreateVolumeGroup c) (ModifyVolumeGroup c) (DeleteVolumeGroup c)
      (GetVolumeGroup c) (ListVolumeGroups c))).

(** *** Dialling *)

(** [backend.Capabilities(info.Capabilities)], a positional conversion. *)
Definition caps_of (p : bardplugin.Capabilities) : backend.Capabilities :=
  let 'bardplugin.mkCapabilities c1 c2 c3 c4 c5 c6 c7 c8 c9 c10 c11 c12 c13 c14 c15 c16 := p in
  backend.mkCapabilities c1 c2 c3 c4 c5 c6 c7 c8 c9 c10 c11 c12 c13 c14 c15 c16.

(** The contract gate and the client it admits. *)
Definition admit_plugin (bt : string) (info : bardplugin.Info) : res error Client :=
  match bardplugin.ParseContractVersion (bardplugin.Info_ContractVersion info) with
  | Err e => Err (mkError (err_chain e) "plugin %q: invalid contractVersion: %w")
  | Ok (major, minor) =>
      if bool_decide (major ≠ bardplugin.ContractMajor)
      then Err (plain_error "plugin %q speaks wire-contract %q; this Bard supports v%d.x -- use a matching plugin or Bard release")
      else if bool_decide (minor > bardplugin.ContractMinor)%Z
      then Err (plain_error "plugin %q speaks wire-contract %q, newer than this Bard understands (v%d.%d) -- upgrade Bard to match the plugin")
      else Ok (mkClient bt (caps_of (bardplugin.Info_Capabilities info)))
  end.

(** What the select after a failed attempt waits for. *)
Inductive waited :=
  | CtxDone (e : error)
  | Timer (d : Z).

Definition second : Z := 1000000000.
Definition dial_window : Z := (30 * second)%Z.

(** The /info loop, [elapsed] nanoseconds after the deadline was set; the one
    [info] variable is decoded into at every attempt.  [None]: out of fuel. *)
Fixpoint dial_loop (fuel : nat) (wait : nat → waited) (k : nat) (bt : string) (info : bardplugin.Info)
    (elapsed : Z) w : option (World T * res error bardplugin.Info) :=
  match fuel with
  | O => None
  | S fuel =>
      let '(w', (d, err, out)) := call bt bardplugin.PathInfo InstanceAll tt (Some info) w in
      let info' := default info out in
      match err with
      | Ok _ => Some (w', Ok info')
      | Err e =>
          let now := (elapsed + d)%Z in
          if bool_decide (now > dial_window)%Z
          then Some (w', Err (mkError (err_chain e) "plugin %q: /info failed: %w"))
          else match wait k with
          | CtxDone e' => Some (w', Err (mkError (err_chain e ++ err_chain e') "plugin %q: /info failed: %w (%w)"))
          | Timer t => dial_loop fuel wait (S k) bt info' (now + t) w'
          end
      end
  end.

(** [Dial]. *)
Definition dial_fuel : nat := 32.
Definition Dial (wait : nat → waited) (bt : string) w : option (World T * res error Client) :=
  match dial_loop dial_fuel wait 0 bt zero 0 w with
  | None => None
  | Some (w', Err e) => Some (w', Err e)
  | Some (w', Ok info) => Some (w', admit_plugin bt info)
  end.

(** ** Metrics of a call *)

Lemma add_gauge_cancel k k' m :
  counter k' (add_gauge (-1) k (add_gauge 1 k m)) = counter k' m.
Proof.
  unfold counter, add_gauge. destruct (decide (k = k')) as [->|Hne].
  - rewrite !lookup_insert_eq. simpl. lia.
  - by rewrite !lookup_insert_ne.
Qed.

(** Whatever the transport does, a call is recorded exactly once, under the
    label its outcome has (with its instance, or all when it has none), its
    duration once, and the in-flight gauge, the placements and the RPC metrics
    end where they began. *)
Theorem call_accounts_once {Req R} `{Wire Req, Wire R} bt path instance (req : Req) (out : option R) w w' d err out' :
  call bt path instance req out w = (w', (d, err, out')) →
  let o := (transport path (enc req) (w_env w)).2.2 in
  let label := (do_outcome o out).1.1 in
  pluginRes (w_metrics w') = incr (bt, or_label instance InstanceAll, path, label) (pluginRes (w_metrics w)) ∧
  pluginDur (w_metrics w') =
    observe_in pluginBucketLe (bt, or_label instance InstanceAll, path) d (pluginDur (w_metrics w)) ∧
  (∀ k, counter k (pluginInFlight (w_metrics w')) = counter k (pluginInFlight (w_metrics w))) ∧
  placements (w_metrics w') = placements (w_metrics w) ∧
  byMethod (w_metrics w') = byMethod (w_metrics w) ∧ byCode (w_metrics w') = byCode (w_metrics w) ∧
  (label = ResultSuccess ↔ err = Ok tt).
Proof.
  unfold call, w_update. simpl. destruct (transport path (enc req) (w_env w)) as [env [d' o]].
  destruct (do_outcome o out) as [[label err'] out''] eqn:Hdo. intros [= <- <- <- <-]. simpl. rewrite Hdo. simpl.
  split_and!; [done|done|intros ?; apply add_gauge_cancel|done|done|done|].
  unfold do_outcome in Hdo.
  break_match_in Hdo; split; try done; unfold transport_result, classify; repeat case_match; done.
Qed.

(** ** The client keeps a backend's promises *)

Lemma call_resp_placements {Req R} `{Wire Req, Wire R} c path instance (req : Req) w w' (r : res error R) :
  call_resp R c path instance req w = (w', r) → placements (w_metrics w') = placements (w_metrics w).
Proof.
  unfold call_resp, call, w_update. simpl. destruct (transport _ _ _) as [env [d o]].
  by destruct (do_outcome o _) as [[label err] out]; intros [= <- _].
Qed.

#[global] Instance client_laws c : backend.BackendLaws (client_backend c).
Proof.
  split; simpl.
  - intros req w w' v. unfold CreateVolume, mbind, M_bind.
    destruct (call_resp _ _ _ _ _ w) as [w1 [resp|e]]; [|done]. unfold lift.
    destruct (Validate _) as [[]|] eqn:Hv; [|done]. by intros [= <- <-].
  - intros req w w' r. unfold CreateVolume, mbind, M_bind.
    destruct (call_resp _ _ _ _ _ w) as [w1 [resp|e]] eqn:Hc; apply call_resp_placements in Hc.
    + unfold lift. destruct (Validate _) as [[]|]; by intros [= <- <-].
    + by intros [= <- <-].
  - intros req w w' v. unfold CreateSnapshot, mbind, M_bind.
    destruct (call_resp _ _ _ _ _ w) as [w1 [resp|e]]; [|done]. unfold lift.
    destruct (Validate _) as [[]|] eqn:Hv; [|done]. by intros [= <- <-].
  - intros w w' vs. unfold ListVolumes, gated, guard_, mbind, M_bind.
    destruct (backend.CapListVolumes _); [|done].
    destruct (call_resp _ _ _ _ _ w) as [w1 [resp|e]]; [|done]. intros [= <- <-].
    apply Forall_forall. intros v (e & _ & He)%list_elem_of_omap. unfold list_entry in He.
    destruct (Validate _) as [[]|] eqn:Hv; simplify_eq/=. by rewrite Hv.
  - intros w w' vs. unfold ListSnapshots, gated, guard_, mbind, M_bind.
    destruct (backend.CapListSnapshots _); [|done].
    destruct (call_resp _ _ _ _ _ w) as [w1 [resp|e]]; [|done]. intros [= <- <-].
    apply Forall_forall. intros v (e & _ & He)%list_elem_of_omap. unfold snapshot_entry in He.
    destruct (Validate (handle_of c (bardplugin.SnapshotListEntry_Snapshot e))) as [[]|] eqn:Hv1; [|done].
    destruct (Validate (handle_of c (bardplugin.SnapshotListEntry_SourceVolume e))) as [[]|] eqn:Hv2;
      simplify_eq/=. by rewrite Hv1, Hv2.
  - intros i p w Hcap. unfold GetCapacity, gated. by rewrite Hcap.
  - intros h n ro ctx sec w Hcap. unfold ControllerPublish. by rewrite Hcap.
Qed.

(** ** Dialling terminates *)

(** A clock that does not run backwards. *)
Definition sane_clock (wait : nat → waited) : Prop :=
  (∀ path j env, 0 ≤ (transport path j env).2.1)%Z ∧
  (∀ k d, wait k = Timer d → second ≤ d)%Z.

Lemma call_duration {Req R} `{Wire Req, Wire R} bt path instance (req : Req) (out : option R) w :
  (call bt path instance req out w).2.1.1 = (transport path (enc req) (w_env w)).2.1.
Proof.
  unfold call, w_update. simpl. destruct (transport _ _ _) as [env [d o]].
  by destruct (do_outcome o _) as [[label err] r].
Qed.

Lemma dial_loop_returns wait n bt :
  sane_clock wait →
  ∀ k info elapsed w,
    (dial_window < elapsed + Z.of_nat n * second)%Z →
    is_Some (dial_loop (S n) wait k bt info elapsed w).
Proof.
  intros [Hd Hw]. induction n as [|n IH]; intros k info elapsed w Hel; cbn [dial_loop];
    destruct (call _ _ _ _ _ w) as [w' [[d err] out]] eqn:Hc;
    pose proof (call_duration bt bardplugin.PathInfo InstanceAll tt (Some info) w) as Hdur;
    rewrite Hc in Hdur; cbn [fst snd] in Hdur; pose proof (Hd bardplugin.PathInfo (enc tt) (w_env w));
    destruct err as [u|e]; try by eexists.
  - rewrite bool_decide_eq_true_2 by lia. by eexists.
  - case_bool_decide; [by eexists|]. destruct (wait k) as [e'|t] eqn:Hk; [by eexists|].
    apply Hw in Hk. apply IH. unfold second in *. lia.
Qed.

End client.

(** ** Which routes the client calls

    The same transport, with a log of the paths requested. *)
Definition logged {T} `{Transport T} : Transport (T * list string) := λ path j env,
  let '(env', o) := transport path j env.1 in ((env', env.2 ++ [path]), o).

(** Paths that may be requested of a plugin that advertised [pc]. *)
Definition allowed (pc : bardplugin.Capabilities) (path : string) : Prop :=
  path ∈ server.required_paths ∨
  ∃ cap ks, (cap, ks) ∈ server.contract ∧ path ∈ ks ∧ cap pc = true.

Section paths.
  Context {T : Type} {tr : Transport T} (bt : string) (pc : bardplugin.Capabilities).
  Existing Instance logged.
Let c := mkClient bt (caps_of pc).

(** [m] requests only allowed paths. *)
Definition requests_allowed {A} (m : M (World (T * list string)) error A) : Prop :=
  ∀ w, ∃ ps, (w_env (m w).1).2 = (w_env w).2 ++ ps ∧ Forall (allowed pc) ps.

Lemma allowed_ret {A} (a : A) : requests_allowed (mret a).
Proof. intros w. exists []. simpl. by rewrite app_nil_r. Qed.
Lemma allowed_lift {A} (r : res error A) : requests_allowed (lift r).
Proof. intros w. exists []. simpl. by rewrite app_nil_r. Qed.
Lemma allowed_bind {A B} (m : M (World (T * list string)) error A) (f : A → M (World (T * list string)) error B) :
  requests_allowed m → (∀ a, requests_allowed (f a)) → requests_allowed (m ≫= f).
Proof.
  intros Hm Hf w. destruct (Hm w) as (ps & Hps & Ha). unfold mbind, M_bind.
  destruct (m w) as [w' [a|e]]; simpl in *; [|by exists ps].
  destruct (Hf a w') as (ps' & Hps' & Ha'). exists (ps ++ ps').
  rewrite Hps', Hps, app_assoc. split; [done|]. by apply Forall_app.
Qed.
Lemma allowed_call_resp {Req R} `{Wire Req, Wire R} path instance (req : Req) :
  allowed pc path → requests_allowed (call_resp R c path instance req).
Proof.
  intros Hp w. exists [path]. unfold call_resp, call, transport, logged. simpl.
  destruct (transport _ _ _) as [env [d o]]. simpl. destruct (do_outcome o _) as [[??]?].
  split; [done|]. by apply Forall_singleton.
Qed.
Lemma allowed_call_none {Req} `{Wire Req} path instance (req : Req) :
  allowed pc path → requests_allowed (call_none c path instance req).
Proof.
  intros Hp w. exists [path]. unfold call_none, call, transport, logged. simpl.
  destruct (transport _ _ _) as [env [d o]]. simpl. destruct (do_outcome o _) as [[??]?].
  split; [done|]. by apply Forall_singleton.
Qed.
Lemma allowed_gated {A} (cap : bool) (m : M (World (T * list string)) error A) :
  (cap = true → requests_allowed m) → requests_allowed (gated cap m).
Proof.
  intros Hm. unfold gated, guard_. destruct cap; [|by apply (allowed_lift (Err _))].
  apply allowed_bind; [apply (allowed_lift (Ok tt))|]. by intros _; apply Hm.
Qed.
Lemma allowed_required path : path ∈ server.required_paths → allowed pc path.
Proof. by left. Qed.
Lemma allowed_optional cap ks path :
  cap pc = true → (cap, ks) ∈ server.contract → path ∈ ks → allowed pc path.
Proof. right. by exists cap, ks. Qed.

(** [op_ok] follows an operation to its calls and finds each path in the
    contract: among the required ones, or under a capability the gate tested. *)
Ltac in_contract := apply list_elem_of_here + (apply list_elem_of_further; in_contract).
Ltac path_ok :=
  first
    [ apply allowed_required; unfold server.required_paths; in_fields
    | match goal with
      | H : _ = true |- allowed pc _ =>
          once (eapply allowed_optional;
                [|unfold server.contract; in_contract|in_fields]; destruct pc; exact H)
      end ].
Ltac op_ok :=
  intros; repeat first
    [ apply allowed_gated; intros | apply allowed_bind; intros | apply allowed_ret | apply allowed_lift
    | apply allowed_call_resp | apply allowed_call_none ]; try path_ok.

(** A client that was admitted with the capabilities [pc] never requests an
    optional route the plugin did not advertise: every path any of its operations
    requests is a required one or one of a capability set in [pc]. *)
Theorem client_requests_only_advertised :
  (∀ r, requests_allowed (CreateVolume c r)) ∧
  (∀ h s, requests_allowed (DeleteVolume c h s)) ∧
  (∀ h n s, requests_allowed (ExpandVolume c h n s)) ∧
  (∀ r, requests_allowed (CreateSnapshot c r)) ∧
  (∀ h s, requests_allowed (DeleteSnapshot c h s)) ∧
  (∀ i p, requests_allowed (GetCapacity c i p)) ∧
  (∀ h s, requests_allowed (GetVolumeHealth c h s)) ∧
  (∀ h p s, requests_allowed (ModifyVolume c h p s)) ∧
  (∀ h s, requests_allowed (ReclaimSpace c h s)) ∧
  (∀ h v st bl s, requests_allowed (NodeReclaimSpace c h v st bl s)) ∧
  (∀ h n ro v s, requests_allowed (ControllerPublish c h n ro v s)) ∧
  (∀ h n s, requests_allowed (ControllerUnpublish c h n s)) ∧
  requests_allowed (ListVolumes c) ∧
  requests_allowed (ListSnapshots c) ∧
  (∀ i cidrs p s, requests_allowed (FenceClusterNetwork c i cidrs p s)) ∧
  (∀ i cidrs p s, requests_allowed (UnfenceClusterNetwork c i cidrs p s)) ∧
  (∀ i p s, requests_allowed (ListClusterFence c i p s)) ∧
  (∀ i p s, requests_allowed (GetFenceClients c i p s)) ∧
  (∀ h p s, requests_allowed (EnableVolumeReplication c h p s)) ∧
  (∀ h p s, requests_allowed (DisableVolumeReplication c h p s)) ∧
  (∀ h f p s, requests_allowed (PromoteVolume c h f p s)) ∧
  (∀ h f p s, requests_allowed (DemoteVolume c h f p s)) ∧
  (∀ h f p s, requests_allowed (ResyncVolume c h f p s)) ∧
  (∀ h s, requests_allowed (GetVolumeReplicationInfo c h s)) ∧
  (∀ h v p s, requests_allowed (RotateEncryptionKey c h v p s)) ∧
  (∀ i pool n ms p s, requests_allowed (CreateVolumeGroup c i pool n ms p s)) ∧
  (∀ g ms p s, requests_allowed (ModifyVolumeGroup c g ms p s)) ∧
  (∀ g s, requests_allowed (DeleteVolumeGroup c g s)) ∧
  (∀ g s, requests_allowed (GetVolumeGroup c g s)) ∧
  (∀ s, requests_allowed (ListVolumeGroups c s)) ∧
  (∀ r, requests_allowed (NodeStage c r)) ∧
  (∀ h p, requests_allowed (NodeUnstage c h p)) ∧
  (∀ r, requests_allowed (NodePublish c r)) ∧
  (∀ h p, requests_allowed (NodeUnpublish c h p)) ∧
  (∀ h p, requests_allowed (NodeExpand c h p)).
Proof.
  split_and!; intros; try solve [op_ok].
  - unfold ControllerPublish. destruct (backend.RequiresControllerPublish _) eqn:Hc; op_ok.
  - unfold ControllerUnpublish. destruct (backend.RequiresControllerPublish _) eqn:Hc; op_ok.
Qed.
End paths.

(** ** The client over the SDK's server

    A plugin served by the SDK, over its own state; [delay] is how long a call
    takes. *)
Section sdk.
  Context {P : Type} (b : bardplugin.Backend P) (delay : P → Z).

Definition sdk_transport : Transport P := λ path j p,
  let '(p', r) := server.serve (server.newMux b) path (Some (server.mkBody (json_len j) (Some j))) p in
  (p', (delay p, Resp (server.r_status r) (server.r_body r))).
Existing Instance sdk_transport.

(** What the client makes of a method's result. *)
Definition relayed {A} (r : res bardplugin.perror A) : res error A :=
  match r with
  | Ok a => Ok a
  | Err e => Err (error_for (bardplugin.Error_Code (server.error_body e)))
  end.

(** The request fits the body limit, and what the method answers is valid UTF-8
    with 64-bit numbers. *)
Definition carried {Req A} `{Wire Req, Wire A} (fn : Req → M P bardplugin.perror A) (req : Req) (p : P) : Prop :=
  wire_ok req ∧ (json_len (enc req) ≤ server.maxRequestBody)%Z ∧
  match (fn req p).2 with Ok a => wire_ok a | Err e => wire_ok (server.error_body e) end.

Lemma mapError_sent (e : bardplugin.Error) :
  wire_ok e → mapError (Some (enc e)) = error_for (bardplugin.Error_Code e).
Proof. intros He. unfold mapError. by rewrite dec_enc. Qed.

Lemma status_not_ok e : server.r_status (server.writeErr e) ≠ server.StatusOK.
Proof. unfold server.writeErr, server.status_of_code, server.StatusOK. simpl. by repeat case_decide. Qed.

(** The transport's answer when the path is [fn]'s route. *)
Lemma sdk_answer {Req A} `{WireLaws Req, WireLaws A} path (fn : Req → M P bardplugin.perror A) req p :
  server.route (server.newMux b) path = Some (server.handle fn) → carried fn req p →
  transport path (enc req) p =
    ((fn req p).1, (delay p,
      match (fn req p).2 with
      | Ok a => Resp server.StatusOK (Some (enc a))
      | Err e => Resp (server.r_status (server.writeErr e)) (Some (enc (server.error_body e)))
      end)).
Proof.
  intros Hroute (Hreq & Hlen & _). unfold transport, sdk_transport, server.serve. rewrite Hroute.
  unfold server.handle, server.decode_request. simpl. rewrite bool_decide_eq_false_2 by lia.
  rewrite dec_enc by done. by destruct (fn req p) as [p' [a|e]].
Qed.


Lemma allowed_routed path : server.flags_backed b →
  allowed (bardplugin.Info_Capabilities (server.info b)) path →
  is_Some (server.route (server.newMux b) path).
Proof.
  intros Hflags [Hreq|(cap & ks & Hin & Hp & Hcap)].
  - rewrite server.route_is_Some, server.newMux_paths. apply elem_of_app. by left.
  - pose proof Hin as [i Hi]%list_elem_of_lookup.
    destruct (server.advertised b i cap ks Hi) as (ci & Hc & Heq).
    apply (server.routed b i cap ks path ci); [done..|].
    destruct (cap (bardplugin.Info_Capabilities (bardplugin.Info_ b))) eqn:Hown; [pose proof (Hflags i cap ks Hi Hown); congruence|].
    rewrite orb_false_r in Heq. congruence.
Qed.

(** A plugin served by the SDK that sets no optional flag without its interface and
    speaks a version this Bard accepts is admitted on the first attempt, and every
    route that client may ever request is wired. *)
Theorem Dial_sdk_plugin wait bt minor w : server.flags_backed b →
  wire_ok (server.info b) →
  bardplugin.ParseContractVersion (bardplugin.Info_ContractVersion (server.info b)) = Ok (1, minor)%Z →
  (minor ≤ 1)%Z →
  let pc := bardplugin.Info_Capabilities (server.info b) in
  (∃ w', Dial wait bt w = Some (w', Ok (mkClient bt (caps_of pc))) ∧ w_env w' = w_env w) ∧
  ∀ path, allowed pc path → is_Some (server.route (server.newMux b) path).
Proof.
  intros Hflags Hwire Hver Hmin pc. split; [|by intros path; apply allowed_routed].
  unfold Dial, dial_fuel. cbn [dial_loop]. unfold call, w_update. cbn [w_env w_metrics].
  change (transport bardplugin.PathInfo (enc tt) (w_env w))
    with (w_env w, (delay (w_env w), Resp 200 (Some (enc (server.info b))))).
  cbv beta iota. unfold do_outcome, unmarshal. rewrite bool_decide_eq_true_2 by done.
  rewrite dec_enc by done. cbv beta iota. unfold admit_plugin. cbn [default].
  unfold default, id. rewrite Hver.
  rewrite bool_decide_eq_false_2 by (intros Hne; by apply Hne).
  rewrite bool_decide_eq_false_2 by (unfold bardplugin.ContractMinor; lia). by eexists.
Qed.
End sdk.

(** ** Examples *)

(** A transport that answers from a script, one millisecond each. *)
Definition scripted : Transport (list outcome) := λ _ _ env,
  match env with
  | [] => ([], (ms, DoErr (plain_error "connection refused")))
  | o :: env' => (env', (ms, o))
  end.
Definition ex_info (capabilities : list (string * json)) (type_ : json) : json :=
  JObj [("type", type_); ("contractVersion", JStr "1.1"); ("capabilities", JObj capabilities)].

Lemma call_accounts_once_witness :
  let '(w', (_, err, _)) := @call _ scripted _ unit _ _ "nfs" bardplugin.PathDeleteVolume "a"
    (bardplugin.mkDeleteVolumeRequest (bardplugin.mkVolumeRef "a" "" "v") ∅) None
    (mkWorld newCollector [Resp 404 (Some (JObj [("code", JStr "NotFound")]))]) in
  err = Err (mkError [ErrNotFound] "%w: %s") ∧
  counter ("nfs", "a", bardplugin.PathDeleteVolume, ResultNotFound) (pluginRes (w_metrics w')) = 1%Z.
Proof.
  destruct (call _ _ _ _ _ _) as [w' [[d err] out]] eqn:Hc.
  destruct (@call_accounts_once _ scripted _ unit _ _ _ _ _ _ _ _ _ _ _ _ Hc) as (Hres & _).
  rewrite Hres. split; [|reflexivity].
  apply (f_equal (λ x, x.2.1.2)) in Hc. symmetry. exact Hc.
Defined.


(** The [info] variable outlives a failed attempt: a capability of an /info
    answer that was rejected is still set after the next answer, which does not
    have it, is accepted. *)
Example Dial_keeps_rejected_capability :
  ∃ w' c, @Dial _ scripted (λ _, Timer second) "nfs"
    (mkWorld newCollector
      [Resp 200 (Some (ex_info [("networkFence", JBool true)] (JNum "5")));
       Resp 200 (Some (ex_info [] (JStr "nfs")))]) = Some (w', Ok c) ∧
    backend.CapNetworkFence (caps c) = true.
Proof. eexists _, _. split; reflexivity. Qed.


Lemma Dial_sdk_plugin_witness :
  is_Some (server.route (server.newMux server.ex_plugin) bardplugin.PathListVolumes).
Proof.
  destruct (Dial_sdk_plugin server.ex_plugin (λ _, ms) (λ _, Timer second) "nfs" 1 (mkWorld newCollector 0))
    as [_ Hr].
  - intros i cap ks Hi. do 12 (destruct i as [|i]; [by injection Hi as <- <-|]). done.
  - by repeat split.
  - reflexivity.
  - lia.
  - apply Hr. right. exists bardplugin.Capabilities_ListVolumes, [bardplugin.PathListVolumes].
    split_and!; [unfold server.contract; in_fields|by apply list_elem_of_here|reflexivity].
Defined.
End plugin.
