(* ===== verification/Inflight.v ===== *)
(** * In-flight operations (internal/driver/inflight.go)

    The set of claimed keys with its two operations, and the interleavings of the
    calls that use it: any number of calls, each claiming a key, running, and
    releasing it.  Each operation runs under the mutex, so a step of the system is
    one of them. *)
From Stdlib Require Import Ascii.
From S2P Require Import Prelude GoStrings GoErrors.

(** [inflight]: the keys with an operation in progress. *)
Definition inflight : Type := gset string.
Definition newInflight : inflight := ∅.

(** [tryLock]: whether the key was free, and the set with it claimed. *)
Definition tryLock (l : inflight) (key : string) : bool * inflight :=
  if bool_decide (key ∈ l) then (false, l) else (true, {[key]} ∪ l).
Definition unlock (l : inflight) (key : string) : inflight := l ∖ {[key]}.

(** The key [claim] locks, and its refusal. *)
Definition claim_key (kind key : string) : string := kind +:+ String ":" key.
Definition aborted : status := mkStatus codes.Aborted "an operation on %s is already in progress".

(** The kinds the driver claims under. *)
Definition claim_kinds : list string :=
  ["volume-name"; "volume"; "snapshot-name"; "snapshot"; "attach"; "node"].

Lemma claim_key_inj k1 k2 x1 x2 :
  k1 ∈ claim_kinds → k2 ∈ claim_kinds → claim_key k1 x1 = claim_key k2 x2 → k1 = k2 ∧ x1 = x2.
Proof.
  assert (∀ k, k ∈ claim_kinds → contains_char ":" k = false) as Hk.
  { intros k Hin. unfold claim_kinds in Hin. repeat (apply elem_of_cons in Hin as [->|Hin]; [done|]).
    by apply elem_of_nil in Hin. }
  intros H1 H2. apply append_char_inj; by apply Hk.
Qed.

Lemma tryLock_true l key l' : tryLock l key = (true, l') ↔ ¬ (key ∈ l) ∧ l' = {[key]} ∪ l.
Proof. unfold tryLock. case_bool_decide; naive_solver. Qed.
Lemma tryLock_false l key l' : tryLock l key = (false, l') ↔ key ∈ l ∧ l' = l.
Proof. unfold tryLock. case_bool_decide; naive_solver. Qed.
Lemma unlock_tryLock l key l' : tryLock l key = (true, l') → unlock l' key = l.
Proof. intros [Hk ->]%tryLock_true. unfold unlock. set_solver. Qed.

(** ** Concurrent calls

    A call is waiting to claim its key, running with the key claimed, or over. *)
Inductive phase := Waiting | Running | Refused | Finished.
Record sys := mkSys { s_locks : inflight; s_calls : gmap nat (string * phase) }.

Inductive step : sys → sys → Prop :=
  | step_arrive s t key :
      s_calls s !! t = None →
      step s (mkSys (s_locks s) (<[t := (key, Waiting)]> (s_calls s)))
  | step_claim s t key l' :
      s_calls s !! t = Some (key, Waiting) → tryLock (s_locks s) key = (true, l') →
      step s (mkSys l' (<[t := (key, Running)]> (s_calls s)))
  | step_refuse s t key l' :
      s_calls s !! t = Some (key, Waiting) → tryLock (s_locks s) key = (false, l') →
      step s (mkSys l' (<[t := (key, Refused)]> (s_calls s)))
  | step_release s t key :
      s_calls s !! t = Some (key, Running) →
      step s (mkSys (unlock (s_locks s) key) (<[t := (key, Finished)]> (s_calls s))).

Inductive reachable : sys → Prop :=
  | reach_init : reachable (mkSys newInflight ∅)
  | reach_step s s' : reachable s → step s s' → reachable s'.

(** The locks are the keys of the running calls, and no two of those agree. *)
Definition LocksExact (s : sys) : Prop :=
  (∀ key, key ∈ s_locks s ↔ ∃ t, s_calls s !! t = Some (key, Running)) ∧
  (∀ t1 t2 key, s_calls s !! t1 = Some (key, Running) → s_calls s !! t2 = Some (key, Running) → t1 = t2).

(** A call that is not running and does not become running keeps [LocksExact]. *)
Lemma LocksExact_idle s t key p :
  LocksExact s → p ≠ Running → (∀ key', s_calls s !! t ≠ Some (key', Running)) →
  LocksExact (mkSys (s_locks s) (<[t := (key, p)]> (s_calls s))).
Proof.
  intros [Hl Hu] Hp Ht. split; simpl.
  - intros k. rewrite Hl. split; intros [t' Ht']; exists t'.
    + rewrite lookup_insert_ne; [done|]. intros ->. by destruct (Ht k).
    + rewrite lookup_insert in Ht'. case_decide; naive_solver.
  - intros t1 t2 k. rewrite !lookup_insert. repeat case_decide; naive_solver.
Qed.

Lemma LocksExact_claim s t key :
  LocksExact s → s_calls s !! t = Some (key, Waiting) → key ∉ s_locks s →
  LocksExact (mkSys ({[key]} ∪ s_locks s) (<[t := (key, Running)]> (s_calls s))).
Proof.
  intros [Hl Hu] Ht Hk. split; simpl.
  - intros k. rewrite elem_of_union, elem_of_singleton, Hl. split.
    + intros [->|[t' Ht']]; [exists t; by rewrite lookup_insert_eq|].
      exists t'. rewrite lookup_insert_ne; [done|]. intros ->. congruence.
    + intros [t' Ht']. rewrite lookup_insert in Ht'. case_decide; [left; congruence|]. right. by exists t'.
  - intros t1 t2 k. rewrite !lookup_insert. repeat case_decide; subst; try done.
    + intros [= <-] H2. destruct Hk. apply Hl. by exists t2.
    + intros H1 [= <-]. destruct Hk. apply Hl. by exists t1.
    + apply Hu.
Qed.

Lemma LocksExact_release s t key :
  LocksExact s → s_calls s !! t = Some (key, Running) →
  LocksExact (mkSys (unlock (s_locks s) key) (<[t := (key, Finished)]> (s_calls s))).
Proof.
  intros [Hl Hu] Ht. split; simpl.
  - intros k. unfold unlock. rewrite elem_of_difference, elem_of_singleton, Hl. split.
    + intros [[t' Ht'] Hne]. exists t'. rewrite lookup_insert_ne; [done|]. intros ->. congruence.
    + intros [t' Ht']. rewrite lookup_insert in Ht'. case_decide; [congruence|].
      split; [by exists t'|]. intros ->. by destruct (Hu t t' key).
  - intros t1 t2 k. rewrite !lookup_insert. repeat case_decide; try done. apply Hu.
Qed.

Lemma reachable_consistent s : reachable s → LocksExact s.
Proof.
  induction 1 as [|s s' _ IH Hs].
  - split; simpl; [|set_solver]. intros k. split; [set_solver|]. intros [t Ht]. set_solver.
  - destruct Hs as [s t key Ht|s t key l' Ht Hl|s t key l' Ht Hl|s t key Ht].
    + apply LocksExact_idle; [done..|]. intros k. congruence.
    + apply tryLock_true in Hl as [Hk ->]. by apply LocksExact_claim.
    + apply tryLock_false in Hl as [Hk ->]. apply LocksExact_idle; [done..|]. intros k. congruence.
    + by apply LocksExact_release.
Qed.

(** C5: in every interleaving of calls, two calls on the same object never run
    at once; a call is refused only while another runs on its object, and the
    object is free again once that one is over, so nothing stays locked. *)
Theorem claims_exclude s :
  reachable s →
  (∀ t1 t2 key, s_calls s !! t1 = Some (key, Running) → s_calls s !! t2 = Some (key, Running) → t1 = t2) ∧
  (∀ key, (tryLock (s_locks s) key).1 = false ↔ ∃ t, s_calls s !! t = Some (key, Running)) ∧
  ((∀ t key, s_calls s !! t ≠ Some (key, Running)) → s_locks s = ∅).
Proof.
  intros Hr. apply reachable_consistent in Hr as [Hl Hu]. split_and!.
  - done.
  - intros key. rewrite <-Hl. unfold tryLock. by case_bool_decide.
  - intros Hn. apply set_eq. intros key. rewrite Hl. split; [|set_solver].
    intros [t Ht]. by destruct (Hn t key).
Qed.

(** Two calls on one volume: the second is refused while the first runs. *)
Definition ex_s0 : sys := mkSys newInflight ∅.
Definition ex_s1 : sys := mkSys (s_locks ex_s0) (<[0 := ("volume:v", Waiting)]> (s_calls ex_s0)).
Definition ex_s2 : sys :=
  mkSys (tryLock (s_locks ex_s1) "volume:v").2 (<[0 := ("volume:v", Running)]> (s_calls ex_s1)).
Definition ex_s3 : sys := mkSys (s_locks ex_s2) (<[1 := ("volume:v", Waiting)]> (s_calls ex_s2)).
Definition ex_s4 : sys :=
  mkSys (tryLock (s_locks ex_s3) "volume:v").2 (<[1 := ("volume:v", Refused)]> (s_calls ex_s3)).

Lemma claims_exclude_witness :
  reachable ex_s4 ∧ s_calls ex_s4 !! 1 = Some ("volume:v", Refused) ∧
  (tryLock (s_locks ex_s4) "volume:v").1 = false.
Proof.
  assert (reachable ex_s4) as Hr.
  { apply (reach_step ex_s3 ex_s4); [|exact (step_refuse ex_s3 1 "volume:v" _ eq_refl eq_refl)].
    apply (reach_step ex_s2 ex_s3); [|exact (step_arrive ex_s2 1 "volume:v" eq_refl)].
    apply (reach_step ex_s1 ex_s2); [|exact (step_claim ex_s1 0 "volume:v" _ eq_refl eq_refl)].
    apply (reach_step ex_s0 ex_s1); [|exact (step_arrive ex_s0 0 "volume:v" eq_refl)].
    apply reach_init. }
  split_and!; [exact Hr|reflexivity|].
  destruct (claims_exclude _ Hr) as (_ & H & _). apply H. exists 0. reflexivity.
Defined.
