(* ===== verification/Driver.v ===== *)
(** * The driver core (internal/driver/driver.go, toStatus and claim)

    The state every CSI service runs over: the hot-swappable registry and
    dispatcher, the in-flight claims, and the world the backends act on.  A
    handler is a computation over that state that answers or fails with a gRPC
    status.  The CSI messages are those fields of the CSI protocol the driver
    reads and writes. *)
From S2P Require Import Prelude GoStrings GoErrors VolumeID Dispatch Metrics Backend Inflight.

(** ** CSI messages *)
Module csi.

(** [VolumeCapability]: its access mode and its access type. *)
Inductive AccessMode :=
  | UNKNOWN
  | SINGLE_NODE_WRITER
  | SINGLE_NODE_READER_ONLY
  | MULTI_NODE_READER_ONLY
  | MULTI_NODE_SINGLE_WRITER
  | MULTI_NODE_MULTI_WRITER
  | SINGLE_NODE_SINGLE_WRITER
  | SINGLE_NODE_MULTI_WRITER.
#[global] Instance AccessMode_eq_dec : EqDecision AccessMode.
Proof. solve_decision. Defined.
Inductive AccessType :=
  | AccessUnset
  | AccessBlock
  | AccessMount (fsType : string) (mountFlags : list string).
Record VolumeCapability := mkVolumeCapability { Mode_ : AccessMode; Access : AccessType }.
Definition is_block (c : VolumeCapability) : bool :=
  match Access c with AccessBlock => true | _ => false end.
(** [c.GetBlock() != nil] on a capability that may be nil. *)
Definition opt_block (c : option VolumeCapability) : bool :=
  match c with Some c => is_block c | None => false end.

(** [VolumeContentSource]. *)
Inductive VolumeContentSource :=
  | SourceUnset
  | SourceSnapshot (snapshotId : string)
  | SourceVolume (volumeId : string).

(** [Topology]: its segments.  [TopologyRequirement]. *)
Definition Topology : Type := strmap.
Record TopologyRequirement := mkTopologyRequirement { Requisite : list Topology; Preferred : list Topology }.

Record CreateVolumeRequest := mkCreateVolumeRequest {
  cvr_Name : string;
  cvr_RequiredBytes : Z;                           (* 0 when there is no range *)
  cvr_VolumeCapabilities : list VolumeCapability;
  cvr_Parameters : strmap;
  cvr_Secrets : strmap;
  cvr_ContentSource : option VolumeContentSource;
  cvr_Accessibility : option TopologyRequirement;
  cvr_MutableParameters : strmap;
}.
Record Volume := mkVolume {
  VolumeId : string;
  CapacityBytes : Z;
  VolumeContext : strmap;
  ContentSource : option VolumeContentSource;
  AccessibleTopology : list Topology;
}.
Record Snapshot := mkSnapshot {
  SnapshotId : string;
  SourceVolumeId : string;
  SizeBytes : Z;
  CreationTime : Z;
  ReadyToUse : bool;
}.
End csi.

(** ** The driver *)

Record Mode := mkMode { Controller : bool; Node : bool }.

(** [backends]: the pair a reload swaps. *)
Record backends (T : Type) := mkBackends { registry : backend.Registry T; disp : Dispatcher }.
Arguments mkBackends {T} _ _.
Arguments registry {T} _.
Arguments disp {T} _.

(** [Driver], with the world its backends act on. *)
Record Driver (T : Type) := mkDriver {
  d_name : string;
  d_version : string;
  d_nodeID : string;
  d_zone : string;
  d_crushLocation : string;
  d_mode : Mode;
  d_maxVolumes : Z;
  d_state : backends T;
  d_ops : inflight;
  d_world : World T;
}.
Arguments mkDriver {T} _ _ _ _ _ _ _ _ _ _.
Arguments d_name {T} _.
Arguments d_version {T} _.
Arguments d_nodeID {T} _.
Arguments d_zone {T} _.
Arguments d_crushLocation {T} _.
Arguments d_mode {T} _.
Arguments d_maxVolumes {T} _.
Arguments d_state {T} _.
Arguments d_ops {T} _.
Arguments d_world {T} _.

Definition DriverName : string := "csi.bard.io".

(** [Options] and [New]. *)
Record Options (T : Type) := mkOptions {
  o_Version : string;
  o_NodeID : string;
  o_Zone : string;
  o_CrushLocation : string;
  o_Mode : Mode;
  o_Registry : backend.Registry T;
  o_Dispatch : Dispatcher;
  o_MaxVolumes : Z;
}.
Arguments o_Version {T} _.
Arguments o_NodeID {T} _.
Arguments o_Zone {T} _.
Arguments o_CrushLocation {T} _.
Arguments o_Mode {T} _.
Arguments o_Registry {T} _.
Arguments o_Dispatch {T} _.
Arguments o_MaxVolumes {T} _.
Definition NewDriver {T} (o : Options T) (w : World T) : Driver T :=
  mkDriver DriverName (o_Version o) (o_NodeID o) (o_Zone o) (o_CrushLocation o) (o_Mode o)
    (o_MaxVolumes o) (mkBackends (o_Registry o) (o_Dispatch o)) newInflight w.

Definition set_state {T} (b : backends T) (d : Driver T) : Driver T :=
  mkDriver (d_name d) (d_version d) (d_nodeID d) (d_zone d) (d_crushLocation d) (d_mode d) (d_maxVolumes d)
    b (d_ops d) (d_world d).
Definition set_ops {T} (o : inflight) (d : Driver T) : Driver T :=
  mkDriver (d_name d) (d_version d) (d_nodeID d) (d_zone d) (d_crushLocation d) (d_mode d) (d_maxVolumes d)
    (d_state d) o (d_world d).
Definition set_world {T} (w : World T) (d : Driver T) : Driver T :=
  mkDriver (d_name d) (d_version d) (d_nodeID d) (d_zone d) (d_crushLocation d) (d_mode d) (d_maxVolumes d)
    (d_state d) (d_ops d) w.

(** [SetBackends], [snapshot]. *)
Definition SetBackends {T} (r : backend.Registry T) (dp : Dispatcher) (d : Driver T) : Driver T :=
  set_state (mkBackends r dp) d.
Abbreviation snapshot := d_state.

(** [toStatus]. *)
Definition toStatus_code (err : error) : codes.Code :=
  if errors_Is err ErrAlreadyExists then codes.AlreadyExists
  else if errors_Is err ErrNotFound then codes.NotFound
  else if errors_Is err ErrInvalidArgument then codes.InvalidArgument
  else if errors_Is err ErrUnsupported then codes.Unimplemented
  else codes.Internal.
Definition toStatus (op : string) (err : error) : status := mkStatus (toStatus_code err) (op +:+ ": %v").

Definition invalid (fmt : string) : status := mkStatus codes.InvalidArgument fmt.
Definition not_found (fmt : string) : status := mkStatus codes.NotFound fmt.
Definition unimplemented (fmt : string) : status := mkStatus codes.Unimplemented fmt.

Section handlers.
  Context {T : Type}.
  Implicit Types d : Driver T.

(** A handler, and a backend call from one: on the world, its error mapped. *)
Definition Handler (A : Type) : Type := M (Driver T) status A.
Definition on_world {A} (m : M (World T) error A) : M (Driver T) error A := λ d,
  let '(w', r) := m (d_world d) in (set_world w' d, r).
Definition call_backend {A} (op : string) (m : M (World T) error A) : Handler A :=
  run_err (toStatus op) (on_world m).
Definition update_metrics (f : collector → collector) : Handler unit :=
  modify (λ d, set_world (mkWorld (f (w_metrics (d_world d))) (w_env (d_world d))) d).

(** [claim] with its deferred release: the body runs with the key claimed, and
    the key is released when it returns, whatever it returns. *)
Definition with_claim {A} (kind key : string) (body : Handler A) : Handler A := λ d,
  let k := claim_key kind key in
  match tryLock (d_ops d) k with
  | (false, _) => (d, Err aborted)
  | (true, ops) =>
      let '(d', r) := body (set_ops ops d) in
      (set_ops (unlock (d_ops d') k) d', r)
  end.

(** [registry.Get] with the status the caller gives its failure. *)
Definition get_from (bk : backends T) (on_err : status) (bt : string) : Handler (backend.Backend T) :=
  lift (map_err (λ _, on_err) (backend.Get (registry bk) bt)).
Definition get_backend (on_err : status) (bt : string) : Handler (backend.Backend T) :=
  bk ← gets snapshot;
  get_from bk on_err bt.
Definition parse_id (on_err : status) (id : string) : Handler Handle :=
  lift (map_err (λ _, on_err) (Parse id)).
Definition required (s : string) (msg : string) : Handler unit :=
  guard_ (negb (bool_decide (s = ""))) (invalid msg).
End handlers.
Arguments Handler : clear implicits.

(** ** What a handler leaves alone

    [frame d d']: the driver's configuration and its claims are as before; only
    the world may have changed. *)
Definition frame {T} (d d' : Driver T) : Prop :=
  ∃ w, d' = set_world w d.

Section frames.
  Context {T : Type}.
  Implicit Types d : Driver T.

Definition Frames {A} (m : Handler T A) : Prop := ∀ d, frame d (m d).1.

Lemma set_world_id d : set_world (d_world d) d = d.
Proof. by destruct d. Qed.
Lemma frame_refl d : frame d d.
Proof. exists (d_world d). by rewrite set_world_id. Qed.
Lemma frame_trans d1 d2 d3 : frame d1 d2 → frame d2 d3 → frame d1 d3.
Proof. intros [w1 ->] [w2 ->]. by exists w2. Qed.
Lemma frame_ops d d' : frame d d' → d_ops d' = d_ops d.
Proof. by intros [w ->]. Qed.
Lemma frame_state d d' : frame d d' → d_state d' = d_state d.
Proof. by intros [w ->]. Qed.

Lemma Frames_ret {A} (a : A) : Frames (mret a).
Proof. intros d. apply frame_refl. Qed.
Lemma Frames_fail {A} e : Frames (fail e : Handler T A).
Proof. intros d. apply frame_refl. Qed.
Lemma Frames_lift {A} (r : res status A) : Frames (lift r).
Proof. intros d. apply frame_refl. Qed.
Lemma Frames_gets {A} (f : Driver T → A) : Frames (gets f).
Proof. intros d. apply frame_refl. Qed.
Lemma Frames_guard b e : Frames (guard_ b e).
Proof. intros d. apply frame_refl. Qed.
Lemma Frames_required s msg : Frames (required s msg).
Proof. intros d. apply frame_refl. Qed.
Lemma Frames_parse e id : Frames (parse_id e id).
Proof. intros d. apply frame_refl. Qed.
Lemma Frames_get_from bk e bt : Frames (get_from bk e bt).
Proof. intros d. apply frame_refl. Qed.
Lemma Frames_get e bt : Frames (get_backend e bt).
Proof. intros d. apply frame_refl. Qed.
Lemma Frames_update f : Frames (update_metrics f).
Proof. intros d. by eexists. Qed.
Lemma Frames_bind {A B} (m : Handler T A) (f : A → Handler T B) :
  Frames m → (∀ a, Frames (f a)) → Frames (m ≫= f).
Proof.
  intros Hm Hf d. unfold mbind, M_bind. specialize (Hm d). destruct (m d) as [d' [a|e]]; [|done].
  eapply frame_trans; [done|apply Hf].
Qed.
Lemma Frames_on_world {A} (m : M (World T) error A) d : frame d (on_world m d).1.
Proof. unfold on_world. destruct (m (d_world d)) as [w' r]. by exists w'. Qed.
Lemma Frames_call {A} op (m : M (World T) error A) : Frames (call_backend op m).
Proof.
  intros d. unfold call_backend, run_err. pose proof (Frames_on_world m d) as Hf.
  by destruct (on_world m d) as [d' r].
Qed.
Lemma Frames_catch {A B} (m : M (World T) error A) (h : res error A → Handler T B) :
  (∀ r, Frames (h r)) → Frames (catch (on_world m) h).
Proof.
  intros Hh d. unfold catch. pose proof (Frames_on_world m d) as Hf.
  destruct (on_world m d) as [d' r]. eapply frame_trans; [done|apply Hh].
Qed.
Lemma Frames_finally {A B} (m : Handler T A) (h : res status A → Handler T B) :
  Frames m → (∀ r, Frames (h r)) → Frames (catch m h).
Proof.
  intros Hm Hh d. unfold catch. specialize (Hm d).
  destruct (m d) as [d' r]. eapply frame_trans; [done|apply Hh].
Qed.

(** A claim is released on every path: the claims end as they began. *)
Lemma Frames_claim {A} kind key (body : Handler T A) : Frames body → Frames (with_claim kind key body).
Proof.
  intros Hb d. unfold with_claim. destruct (tryLock (d_ops d) _) as [[] ops] eqn:Hl; [|apply frame_refl].
  destruct (Hb (set_ops ops d)) as [w Hw]. destruct (body (set_ops ops d)) as [d' r]. simpl in *. subst.
  exists w. simpl. rewrite (unlock_tryLock _ _ _ Hl). by destruct d.
Qed.

(** A claimed key refuses the call before anything is done. *)
Lemma with_claim_busy {A} kind key (body : Handler T A) d :
  claim_key kind key ∈ d_ops d → with_claim kind key body d = (d, Err aborted).
Proof. intros Hk. unfold with_claim, tryLock. by rewrite bool_decide_eq_true_2. Qed.

(** Running the body with the key claimed, seen from outside. *)
Lemma with_claim_free {A} kind key (body : Handler T A) d :
  claim_key kind key ∉ d_ops d → Frames body →
  let '(d1, r) := body (set_ops ({[claim_key kind key]} ∪ d_ops d) d) in
  with_claim kind key body d = (set_world (d_world d1) d, r).
Proof.
  intros Hk Hb. assert (tryLock (d_ops d) (claim_key kind key) = (true, {[claim_key kind key]} ∪ d_ops d)) as Hl.
  { unfold tryLock. by rewrite bool_decide_eq_false_2. }
  unfold with_claim. rewrite Hl. destruct (Hb (set_ops ({[claim_key kind key]} ∪ d_ops d) d)) as [w Hw].
  destruct (body _) as [d1 r]. simpl in *. subst. simpl.
  rewrite (unlock_tryLock _ _ _ Hl). by destruct d.
Qed.

Lemma with_claim_inv {A} kind key (body : Handler T A) d d' r :
  Frames body → with_claim kind key body d = (d', r) →
  (claim_key kind key ∈ d_ops d ∧ d' = d ∧ r = Err aborted) ∨
  (¬ (claim_key kind key ∈ d_ops d) ∧
   ∃ d1, body (set_ops ({[claim_key kind key]} ∪ d_ops d) d) = (d1, r) ∧ d' = set_world (d_world d1) d).
Proof.
  intros Hb Hc. destruct (decide (claim_key kind key ∈ d_ops d)) as [Hk|Hk].
  - rewrite with_claim_busy in Hc by done. left. by simplify_eq.
  - right. split; [done|]. pose proof (with_claim_free kind key body d Hk Hb) as Hf.
    destruct (body _) as [d1 r1] eqn:Hd1. rewrite Hf in Hc. simplify_eq. by exists d1.
Qed.
End frames.

(** A driver whose registry keeps its promises and whose dispatcher was built from
    the configuration [cfg]. *)
Definition DriverOk {T} `{MapIter} (cfg : DispatchConfig) (d : Driver T) : Prop :=
  backend.RegistryOk (registry (d_state d)) ∧ New cfg = Ok (disp (d_state d)).

#[export] Hint Resolve Frames_ret Frames_fail Frames_lift Frames_gets Frames_guard Frames_required
  Frames_parse Frames_get_from Frames_get Frames_update Frames_bind Frames_call Frames_claim : bard.
(** [frames] follows a handler to its leaves. *)
Ltac frames :=
  repeat first
    [ apply Frames_claim | apply Frames_bind; intros | apply Frames_ret | apply Frames_fail
    | apply Frames_lift | apply Frames_gets | apply Frames_guard | apply Frames_required
    | apply Frames_parse | apply Frames_get_from | apply Frames_get | apply Frames_update | apply Frames_call
    | apply Frames_catch; intros | apply Frames_finally; intros
    | progress cbv zeta
    | match goal with |- Frames (match ?x with _ => _ end) => destruct x end
    | match goal with |- Frames (let '(_, _) := ?x in _) => destruct x end ].
