(* ===== verification/Controller.v ===== *)
(** * The CSI controller service (internal/driver/controller.go)

    Every handler of [controllerServer], in the order of its checks, over the
    driver's state. *)
From S2P Require Import Prelude GoStrings GoErrors VolumeID Dispatch Metrics Backend Json Client Inflight Driver.

Module controller.
Section controller.
  Context {T : Type} `{MapIter} `{SortSlice}.
  Implicit Types d : Driver T.

(** ** Helpers *)

(** [zonesFrom]. *)
Definition zones_of (ts : list csi.Topology) : list string := omap (λ t, t !! TopologyKeyZone) ts.
Definition zonesFrom (tr : option csi.TopologyRequirement) : list string * list string :=
  match tr with
  | None => ([], [])
  | Some tr => (zones_of (csi.Preferred tr), zones_of (csi.Requisite tr))
  end.

(** [contentSource]: the source snapshot and the source volume. *)
Definition contentSource (cs : option csi.VolumeContentSource) : res status (option Handle * option Handle) :=
  match cs with
  | None => Ok (None, None)
  | Some csi.SourceUnset => Ok (None, None)
  | Some (csi.SourceSnapshot id) =>
      match Parse id with
      | Ok h => Ok (Some h, None)
      | Err _ => Err (not_found "source snapshot id: %v")
      end
  | Some (csi.SourceVolume id) =>
      match Parse id with
      | Ok h => Ok (None, Some h)
      | Err _ => Err (not_found "source volume id: %v")
      end
  end.

(** [validateContentSourceTarget]. *)
Definition check_source (r : Resolution) (src : option Handle) : res status unit :=
  match src with
  | None => Ok tt
  | Some h =>
      if bool_decide (hBackend h ≠ rBackend r)
      then Err (invalid "source %s backend %q does not match target backend %q")
      else if bool_decide (hInstance h ≠ rInstance r)
      then Err (invalid "source %s instance %q does not match target instance %q")
      else Ok tt
  end.
Definition validateContentSourceTarget (r : Resolution) (snap vol : option Handle) : res status unit :=
  _ ← check_source r snap;
  check_source r vol.

(** [accessModeSupported]. *)
Definition accessModeSupported (c : csi.VolumeCapability) (caps : backend.Capabilities) : bool :=
  match csi.Mode_ c with
  | csi.MULTI_NODE_READER_ONLY | csi.MULTI_NODE_SINGLE_WRITER | csi.MULTI_NODE_MULTI_WRITER =>
      csi.is_block c || negb (backend.BlockDevice caps)
  | _ => true
  end.

(** [paginate]. *)
Definition paginate {A} (entries : list A) (startingToken : string) (maxEntries : Z) : res status (list A * string) :=
  offset ← (if bool_decide (startingToken = "") then Ok 0%Z
            else match Atoi startingToken with
            | Some n => if bool_decide (n < 0)%Z then Err (mkStatus codes.Aborted "invalid starting_token %q") else Ok n
            | None => Err (mkStatus codes.Aborted "invalid starting_token %q")
            end);
  if bool_decide (offset > Z.of_nat (length entries))%Z
  then Err (mkStatus codes.Aborted "starting_token %q out of range")
  else
    let page := drop (Z.to_nat offset) entries in
    if bool_decide (maxEntries > 0)%Z && bool_decide (maxEntries < Z.of_nat (length page))%Z
    then Ok (take (Z.to_nat maxEntries) page, Itoa (offset + maxEntries))
    else Ok (page, "").

(** [anyBackend]. *)
Definition anyBackend (d : Driver T) (pred : backend.Capabilities → bool) : bool :=
  existsb (λ t, match backend.Get (registry (snapshot d)) t with
                | Ok be => pred (backend.Caps be)
                | Err _ => false
                end) (backend.Types (registry (snapshot d))).

(** ** CreateVolume *)

(** The part of [CreateVolume] after an instance was chosen. *)
Definition create_on (bk : backends T) (req : csi.CreateVolumeRequest) (r : Resolution) : Handler T csi.Volume :=
  be ← get_from bk (invalid "%v") (rBackend r);
  guard_ (forallb (λ c, accessModeSupported c (backend.Caps be)) (csi.cvr_VolumeCapabilities req))
    (invalid "backend %q cannot serve access mode %s for a filesystem volume (multi-node requires volumeMode: Block)");;
  src ← lift (contentSource (csi.cvr_ContentSource req));
  lift (validateContentSourceTarget r src.1 src.2);;
  out ← call_backend "create volume" (backend.CreateVolume be
    (backend.mkCreateVolumeRequest (csi.cvr_Name req) (csi.cvr_RequiredBytes req) (rInstance r)
      (mget (csi.cvr_Parameters req) "fsType") (csi.cvr_Parameters req) (csi.cvr_MutableParameters req)
      (csi.cvr_Secrets req) src.1 src.2));
  mret (csi.mkVolume (Handle_String (backend.v_Handle out)) (backend.v_CapacityBytes out)
    (backend.v_Context out) (csi.cvr_ContentSource req)
    (if bool_decide (rZone r = "") then [] else [{[TopologyKeyZone := rZone r]}])).

(** The deferred record of the placement. *)
Definition record_placement (r : Resolution) (result : string) : Handler T unit :=
  update_metrics (ObservePlacement (rBackend r) (rInstance r) (rZone r) (Decision_string (rDecision r)) result).
Definition placement_result {A} (r : res status A) : string :=
  match r with Ok _ => ResultSuccess | Err _ => PlacementError end.

(** The record of a request that did not resolve. *)
Definition record_unresolved (bk : backends T) (params : strmap) : Handler T unit :=
  let requested := mget params BackendParamKey in
  let label := match backend.Get (registry bk) requested with Ok _ => requested | Err _ => BackendUnknown end in
  update_metrics (ObservePlacement label InstanceNone ZoneNone DecisionUnresolved PlacementDispatchError).

(** The part that runs with the name claimed. *)
Definition create_claimed (req : csi.CreateVolumeRequest) : Handler T csi.Volume :=
  bk ← gets snapshot;
  let zones := zonesFrom (csi.cvr_Accessibility req) in
  match Resolve (disp bk) (csi.cvr_Parameters req) zones.1 zones.2 with
  | Err _ => record_unresolved bk (csi.cvr_Parameters req);; fail (invalid "dispatch: %v")
  | Ok r => catch (create_on bk req r) (λ out, record_placement r (placement_result out);; lift out)
  end.

Definition CreateVolume (req : csi.CreateVolumeRequest) : Handler T csi.Volume :=
  required (csi.cvr_Name req) "volume name is required";;
  guard_ (negb (bool_decide (csi.cvr_VolumeCapabilities req = []))) (invalid "volume capabilities are required");;
  with_claim "volume-name" (csi.cvr_Name req) (create_claimed req).

(** ** Volumes *)

(** [DeleteVolume]: an id that does not parse is nobody's volume. *)
Definition DeleteVolume (volumeId : string) (secrets : strmap) : Handler T unit :=
  required volumeId "volume id is required";;
  match Parse volumeId with
  | Err _ => mret tt
  | Ok h =>
      with_claim "volume" volumeId (
        be ← get_backend (invalid "%v") (hBackend h);
        call_backend "delete volume" (backend.DeleteVolume be h secrets))
  end.

(** [ControllerExpandVolume]; [None] for a nil capacity range. *)
Definition ControllerExpandVolume (volumeId : string) (range_ : option Z) (cap : option csi.VolumeCapability)
    (secrets : strmap) : Handler T (Z * bool) :=
  required volumeId "volume id is required";;
  match range_ with
  | None => fail (invalid "capacity range is required")
  | Some requiredBytes =>
      h ← parse_id (not_found "unknown volume id: %v") volumeId;
      with_claim "volume" volumeId (
        be ← get_backend (invalid "%v") (hBackend h);
        p ← call_backend "expand volume" (backend.ExpandVolume be h requiredBytes secrets);
        mret (p.1, if csi.opt_block cap then false else p.2))
  end.

Definition csi_snapshot (s : backend.Snapshot) : csi.Snapshot :=
  csi.mkSnapshot (Handle_String (backend.s_Handle s)) (backend.s_SourceVolumeID s) (backend.s_SizeBytes s)
    (backend.s_CreationTime s) (backend.s_ReadyToUse s).
Definition CreateSnapshot (name sourceVolumeId : string) (params secrets : strmap) : Handler T csi.Snapshot :=
  required name "snapshot name is required";;
  required sourceVolumeId "source volume id is required";;
  src ← parse_id (invalid "source volume id: %v") sourceVolumeId;
  with_claim "snapshot-name" name (
    be ← get_backend (invalid "%v") (hBackend src);
    s ← call_backend "create snapshot"
      (backend.CreateSnapshot be (backend.mkCreateSnapshotRequest name src params secrets));
    mret (csi_snapshot s)).

Definition DeleteSnapshot (snapshotId : string) (secrets : strmap) : Handler T unit :=
  required snapshotId "snapshot id is required";;
  match Parse snapshotId with
  | Err _ => mret tt
  | Ok h =>
      with_claim "snapshot" snapshotId (
        be ← get_backend (invalid "%v") (hBackend h);
        call_backend "delete snapshot" (backend.DeleteSnapshot be h secrets))
  end.

(** [ValidateVolumeCapabilities]: the confirmed set, or [None] with a message. *)
Definition ValidateVolumeCapabilities (volumeId : string) (vcs : list csi.VolumeCapability)
    : Handler T (option (list csi.VolumeCapability)) :=
  required volumeId "volume id is required";;
  guard_ (negb (bool_decide (vcs = []))) (invalid "volume capabilities are required");;
  h ← parse_id (not_found "unknown volume id: %v") volumeId;
  be ← get_backend (not_found "unknown volume id: %v") (hBackend h);
  mret (if forallb (λ c, accessModeSupported c (backend.Caps be)) vcs then Some vcs else None).

(** [ControllerGetCapabilities]. *)
Inductive RPC_Type :=
  | CREATE_DELETE_VOLUME | CREATE_DELETE_SNAPSHOT | EXPAND_VOLUME | CLONE_VOLUME | GET_CAPACITY
  | GET_VOLUME | VOLUME_CONDITION | MODIFY_VOLUME | PUBLISH_UNPUBLISH_VOLUME | LIST_VOLUMES | LIST_SNAPSHOTS.
Definition ControllerGetCapabilities : Handler T (list RPC_Type) :=
  gets (λ d,
    [CREATE_DELETE_VOLUME; CREATE_DELETE_SNAPSHOT; EXPAND_VOLUME; CLONE_VOLUME; GET_CAPACITY;
     GET_VOLUME; VOLUME_CONDITION; MODIFY_VOLUME] ++
    (if anyBackend d backend.RequiresControllerPublish then [PUBLISH_UNPUBLISH_VOLUME] else []) ++
    (if anyBackend d backend.CapListVolumes then [LIST_VOLUMES] else []) ++
    (if anyBackend d backend.CapListSnapshots then [LIST_SNAPSHOTS] else [])).

(** [GetCapacity]; [topology] is the segments of the accessible topology. *)
Definition unlimited : Z := int64_max.
Definition GetCapacity (topology : strmap) (params : strmap) : Handler T Z :=
  bk ← gets snapshot;
  let z := mget topology TopologyKeyZone in
  let preferred := if bool_decide (z = "") then [] else [z] in
  match Resolve (disp bk) params preferred [] with
  | Err _ => mret unlimited
  | Ok r =>
      match backend.Get (registry bk) (rBackend r) with
      | Err _ => mret unlimited
      | Ok be =>
          catch (on_world (backend.GetCapacity be (rInstance r) params)) (λ out,
            match out with
            | Ok avail => mret avail
            | Err e => if errors_Is e ErrUnsupported then mret unlimited
                       else fail (mkStatus codes.Internal "get capacity: %v")
            end)
      end
  end.

(** [ControllerGetVolume]: the id and the condition, when there is one. *)
Definition ControllerGetVolume (volumeId : string) : Handler T (string * option backend.VolumeHealth) :=
  required volumeId "volume id is required";;
  h ← parse_id (not_found "unknown volume id: %v") volumeId;
  be ← get_backend (invalid "%v") (hBackend h);
  catch (on_world (backend.GetVolumeHealth be h ∅)) (λ out,
    match out with
    | Ok health => mret (volumeId, Some health)
    | Err e => if errors_Is e ErrUnsupported then mret (volumeId, None) else fail (toStatus "get volume" e)
    end).

Definition ControllerModifyVolume (volumeId : string) (mutable secrets : strmap) : Handler T unit :=
  required volumeId "volume id is required";;
  h ← parse_id (not_found "unknown volume id: %v") volumeId;
  with_claim "volume" volumeId (
    be ← get_backend (invalid "%v") (hBackend h);
    call_backend "modify volume" (backend.ModifyVolume be h mutable secrets)).

Definition ControllerPublishVolume (volumeId nodeId : string) (cap : option csi.VolumeCapability)
    (readonly : bool) (volCtx secrets : strmap) : Handler T strmap :=
  required volumeId "volume id is required";;
  required nodeId "node id is required";;
  guard_ (match cap with Some _ => true | None => false end) (invalid "volume capability is required");;
  h ← parse_id (not_found "unknown volume id: %v") volumeId;
  with_claim "attach" (volumeId +:+ "@" +:+ nodeId) (
    be ← get_backend (invalid "%v") (hBackend h);
    call_backend "publish volume" (backend.ControllerPublish be h nodeId readonly volCtx secrets)).

Definition ControllerUnpublishVolume (volumeId nodeId : string) (secrets : strmap) : Handler T unit :=
  required volumeId "volume id is required";;
  match Parse volumeId with
  | Err _ => mret tt
  | Ok h =>
      with_claim "attach" (volumeId +:+ "@" +:+ nodeId) (
        be ← get_backend (invalid "%v") (hBackend h);
        call_backend "unpublish volume" (backend.ControllerUnpublish be h nodeId secrets))
  end.

(** ** Listing *)

(** The loop over the registered types: a type without listing is skipped, any
    other failure ends the call. *)
Fixpoint list_backends {E A} (bk : backends T) (op : string) (ls : backend.Backend T → M (World T) error (list E))
    (entry : E → option A) (types : list string) (entries : list A) : Handler T (list A) :=
  match types with
  | [] => mret entries
  | t :: types =>
      match backend.Get (registry bk) t with
      | Err _ => list_backends bk op ls entry types entries
      | Ok be =>
          catch (on_world (ls be)) (λ out,
            match out with
            | Ok vs => list_backends bk op ls entry types (entries ++ omap entry vs)
            | Err e => if errors_Is e ErrUnsupported then list_backends bk op ls entry types entries
                       else fail (toStatus op e)
            end)
      end
  end.

Definition volume_entry (v : backend.VolumeListEntry) : csi.Volume :=
  csi.mkVolume (Handle_String (backend.vl_Handle v)) (backend.vl_CapacityBytes v) ∅ None [].
Definition ListVolumes (startingToken : string) (maxEntries : Z) : Handler T (list csi.Volume * string) :=
  bk ← gets snapshot;
  entries ← list_backends bk "list volumes" backend.ListVolumes (Some ∘ volume_entry) (backend.Types (registry bk)) [];
  lift (paginate (sort_slice csi.VolumeId entries) startingToken maxEntries).

(** [ListSnapshots] keeps the entries the two filters let through. *)
Definition snapshot_entry (snapshotId sourceVolumeId : string) (s : backend.SnapshotListEntry) : option csi.Snapshot :=
  let sid := Handle_String (backend.sl_Handle s) in
  let srcID := Handle_String (backend.sl_SourceVolume s) in
  if negb (bool_decide (snapshotId = "")) && negb (bool_decide (snapshotId = sid)) then None
  else if negb (bool_decide (sourceVolumeId = "")) && negb (bool_decide (sourceVolumeId = srcID)) then None
  else Some (csi.mkSnapshot sid srcID (backend.sl_SizeBytes s) (backend.sl_CreationTime s) (backend.sl_ReadyToUse s)).
Definition ListSnapshots (snapshotId sourceVolumeId startingToken : string) (maxEntries : Z)
    : Handler T (list csi.Snapshot * string) :=
  bk ← gets snapshot;
  entries ← list_backends bk "list snapshots" backend.ListSnapshots (snapshot_entry snapshotId sourceVolumeId)
    (backend.Types (registry bk)) [];
  lift (paginate (sort_slice csi.SnapshotId entries) startingToken maxEntries).

End controller.

(** ** Pagination *)

(** The pages a client collects by following the tokens from [token]. *)
Inductive pages {A} (entries : list A) (maxEntries : Z) : string → list A → Prop :=
  | pages_last token page :
      paginate entries token maxEntries = Ok (page, "") → pages entries maxEntries token page
  | pages_more token page next rest :
      paginate entries token maxEntries = Ok (page, next) → next ≠ "" →
      pages entries maxEntries next rest → pages entries maxEntries token (page ++ rest).

Lemma paginate_token {A} (entries : list A) offset maxEntries :
  (offset ≤ length entries)%nat → int64_ok (Z.of_nat (length entries)) →
  paginate entries (Itoa (Z.of_nat offset)) maxEntries =
    let page := drop offset entries in
    if bool_decide (0 < maxEntries < Z.of_nat (length page))%Z
    then Ok (take (Z.to_nat maxEntries) page, Itoa (Z.of_nat offset + maxEntries)) else Ok (page, "").
Proof.
  intros Hoff Hlen. unfold paginate.
  rewrite (bool_decide_eq_false_2 (Itoa _ = "")) by apply Itoa_nonempty.
  rewrite Atoi_Itoa by (unfold int64_ok, int64_min in *; lia).
  rewrite (bool_decide_eq_false_2 (Z.of_nat offset < 0)%Z) by lia. cbn [mbind res_bind].
  rewrite (bool_decide_eq_false_2 (Z.of_nat offset > _)%Z) by lia. rewrite Nat2Z.id. cbv zeta.
  case_bool_decide; case_bool_decide; case_bool_decide; simpl; try done; lia.
Qed.

Lemma paginate_first {A} (entries : list A) maxEntries :
  paginate entries "" maxEntries = paginate entries (Itoa 0) maxEntries.
Proof. done. Qed.

Lemma pages_first {A} (entries : list A) maxEntries l :
  pages entries maxEntries (Itoa 0) l → pages entries maxEntries "" l.
Proof.
  inversion 1 as [? ? Hpg|? ? ? ? Hpg]; subst; rewrite <-paginate_first in Hpg.
  - by apply pages_last.
  - by eapply pages_more.
Qed.

Lemma pages_from {A} (entries : list A) maxEntries n :
  (0 < maxEntries)%Z → int64_ok (Z.of_nat (length entries)) →
  ∀ offset, (length entries - offset ≤ n)%nat → (offset ≤ length entries)%nat →
  pages entries maxEntries (Itoa (Z.of_nat offset)) (drop offset entries).
Proof.
  intros Hmax Hlen. induction n as [|n IH]; intros offset Hn Hoff.
  - apply pages_last. rewrite paginate_token by done. cbv zeta. rewrite length_drop.
    by rewrite bool_decide_eq_false_2 by lia.
  - destruct (decide (maxEntries < Z.of_nat (length (drop offset entries)))%Z) as [Hlt|Hge].
    + rewrite <-(take_drop (Z.to_nat maxEntries) (drop offset entries)).
      apply pages_more with (next := Itoa (Z.of_nat offset + maxEntries)).
      * rewrite paginate_token by done. cbv zeta. by rewrite bool_decide_eq_true_2.
      * apply Itoa_nonempty.
      * rewrite length_drop in Hlt. rewrite drop_drop.
        replace (Z.of_nat offset + maxEntries)%Z with (Z.of_nat (offset + Z.to_nat maxEntries)) by lia.
        apply IH; lia.
    + apply pages_last. rewrite paginate_token by done. cbv zeta.
      by rewrite bool_decide_eq_false_2 by lia.
Qed.

(** C40: a client that starts with an empty token and follows the returned tokens
    gets, in finitely many pages and without an error, every entry exactly once
    and in order, whatever positive page size it asks for. *)
Theorem pagination_complete {A} (entries : list A) maxEntries :
  (0 < maxEntries)%Z → int64_ok (Z.of_nat (length entries)) →
  pages entries maxEntries "" entries.
Proof.
  intros Hmax Hlen. pose proof (pages_from entries maxEntries (length entries) Hmax Hlen 0) as Hp.
  rewrite drop_0 in Hp. apply pages_first, Hp; lia.
Qed.

Lemma pagination_complete_witness : pages ["a"; "b"; "c"] 2 "" ["a"; "b"; "c"].
Proof. apply (pagination_complete ["a"; "b"; "c"] 2); [lia|by vm_compute]. Defined.

(** ** CreateVolume *)

Section create.
  Context {T : Type} `{MapIter}.
  Implicit Types d : Driver T.

Lemma Frames_create_on bk req r : Frames (T := T) (create_on bk req r).
Proof. unfold create_on. frames. Qed.
Lemma Frames_create_claimed req : Frames (T := T) (create_claimed req).
Proof.
  unfold create_claimed, record_unresolved, record_placement. frames.
Qed.

(** The backend request of a CSI request placed at [r]. *)
Definition backend_request (req : csi.CreateVolumeRequest) (r : Resolution) (src : option Handle * option Handle)
    : backend.CreateVolumeRequest :=
  backend.mkCreateVolumeRequest (csi.cvr_Name req) (csi.cvr_RequiredBytes req) (rInstance r)
    (mget (csi.cvr_Parameters req) "fsType") (csi.cvr_Parameters req) (csi.cvr_MutableParameters req)
    (csi.cvr_Secrets req) src.1 src.2.

Lemma create_on_inv bk req r d d' out :
  create_on bk req r d = (d', out) →
  (d' = d ∧ ∃ e, out = Err e) ∨
  ∃ be src w' o, backend.Get (registry bk) (rBackend r) = Ok be ∧
    contentSource (csi.cvr_ContentSource req) = Ok src ∧
    validateContentSourceTarget r src.1 src.2 = Ok tt ∧
    backend.CreateVolume be (backend_request req r src) (d_world d) = (w', o) ∧ d' = set_world w' d ∧
    out = match o with
          | Ok v => Ok (csi.mkVolume (Handle_String (backend.v_Handle v)) (backend.v_CapacityBytes v)
              (backend.v_Context v) (csi.cvr_ContentSource req)
              (if bool_decide (rZone r = "") then [] else [{[TopologyKeyZone := rZone r]}]))
          | Err e => Err (toStatus "create volume" e)
          end.
Proof.
  unfold create_on, get_from, guard_, lift, mbind, M_bind.
  destruct (backend.Get _ _) as [be|e]; simpl; [|intros [= <- <-]; left; eauto].
  destruct (forallb _ _); simpl; [|intros [= <- <-]; left; eauto].
  destruct (contentSource _) as [src|e] eqn:Hsrc; simpl; [|intros [= <- <-]; left; eauto].
  destruct (validateContentSourceTarget r src.1 src.2) as [[]|e] eqn:Hval; simpl;
    [|intros [= <- <-]; left; eauto].
  fold (backend_request req r src).
  unfold call_backend, run_err, on_world.
  destruct (backend.CreateVolume be (backend_request req r src) (d_world d)) as [w' o] eqn:Hcv.
  intros Heq. right. exists be, src, w', o.
  destruct o as [v|e]; simpl in Heq; injection Heq as <- <-; done.
Qed.

Lemma check_source_ok r h : check_source r (Some h) = Ok tt → hBackend h = rBackend r ∧ hInstance h = rInstance r.
Proof.
  simpl. case_bool_decide as H1; [done|]. case_bool_decide as H2; [done|]. intros _.
  split; apply dec_stable; naive_solver.
Qed.

Lemma validate_source_ok r snap vol h :
  validateContentSourceTarget r snap vol = Ok tt → snap = Some h ∨ vol = Some h →
  hBackend h = rBackend r ∧ hInstance h = rInstance r.
Proof.
  unfold validateContentSourceTarget. cbn [mbind res_bind].
  destruct (check_source r snap) as [[]|] eqn:H1; [|done]. intros H2 [->| ->]; by apply check_source_ok.
Qed.

Lemma Placement_backend cfg bt pref req r : Placement cfg bt pref req r → rBackend r = bt.
Proof. by destruct 1. Qed.

Lemma create_claimed_ok req d d' v :
  create_claimed req d = (d', Ok v) →
  ∃ r, Resolve (disp (d_state d)) (csi.cvr_Parameters req) (zonesFrom (csi.cvr_Accessibility req)).1
         (zonesFrom (csi.cvr_Accessibility req)).2 = Ok r ∧ (create_on (d_state d) req r d).2 = Ok v.
Proof.
  unfold create_claimed, gets, mbind, M_bind. cbv beta iota zeta.
  destruct (Resolve _ _ _ _) as [r|e]; [|done]. unfold catch.
  destruct (create_on _ req r d) as [d1 o] eqn:Hc. intros [= _ <-]. by exists r; rewrite Hc.
Qed.

Lemma CreateVolume_ok req d d' v :
  CreateVolume req d = (d', Ok v) →
  ∃ d1 d2, d_state d1 = d_state d ∧ create_claimed req d1 = (d2, Ok v).
Proof.
  unfold CreateVolume, required, guard_, mbind, M_bind. cbv beta iota.
  destruct (negb _); [|done]. destruct (negb _); [|done].
  intros [(_ & _ & ?)|(_ & d1 & Hb & _)]%with_claim_inv; [done| |apply Frames_create_claimed].
  by exists (set_ops ({[claim_key "volume-name" (csi.cvr_Name req)]} ∪ d_ops d) d), d1.
Qed.

(** C1: when [CreateVolume] succeeds, the volume is where the configuration's
    placement puts it: its id is well formed and names the requested backend and
    the placed instance, its topology is pinned to the placement's zone exactly
    when there is one, and a source it was made from lives in that instance. *)
Theorem CreateVolume_places cfg req d d' v :
  DriverOk cfg d → CreateVolume req d = (d', Ok v) →
  let zones := zonesFrom (csi.cvr_Accessibility req) in
  ∃ r h, Placement cfg (mget (csi.cvr_Parameters req) BackendParamKey) zones.1 zones.2 r ∧
    Parse (csi.VolumeId v) = Ok h ∧
    hBackend h = mget (csi.cvr_Parameters req) BackendParamKey ∧ hInstance h = rInstance r ∧
    csi.AccessibleTopology v = (if bool_decide (rZone r = "") then [] else [{[TopologyKeyZone := rZone r]}]) ∧
    csi.ContentSource v = csi.cvr_ContentSource req ∧
    (∀ snap vol src, contentSource (csi.cvr_ContentSource req) = Ok (snap, vol) →
       snap = Some src ∨ vol = Some src → hBackend src = hBackend h ∧ hInstance src = hInstance h).
Proof.
  intros [Hreg Hnew] Hcv zones. apply CreateVolume_ok in Hcv as (d1 & d2 & Hst & Hcl).
  apply create_claimed_ok in Hcl as (r & Hres & Hon). rewrite Hst in Hres, Hon.
  destruct (create_on (d_state d) req r d1) as [d3 o] eqn:Hc. simpl in Hon. subst.
  apply create_on_inv in Hc as [(_ & e & ?)|(be & src & w' & o & Hget & Hsrc & Hval & Hbe & _ & Hout)]; [done|].
  destruct o as [vol|e]; [|done]. injection Hout as ->. simpl.
  apply backend.Get_ok, Hreg in Hget as [Hty Hlaws]. apply backend.law_create in Hbe as (Hb & Hi & Hv).
  simpl in Hi. pose proof (New_cases cfg) as Hcs. rewrite Hnew in Hcs. destruct Hcs as [Hd _].
  destruct (Resolve_sound cfg _ Hd _ _ _ _ Hres) as [_ Hpl].
  pose proof (Placement_backend _ _ _ _ _ Hpl) as Hrb.
  exists r, (backend.v_Handle vol). split_and!; [done|by apply Parse_String|congruence|done|done|done|].
  intros snap vl s Hs Hor. rewrite Hsrc in Hs. injection Hs as ->.
  destruct (validate_source_ok r snap vl s Hval Hor) as [-> ->]. split; congruence.
Qed.

(** What a call to [CreateVolume] adds to the placements. *)
Definition placement_of (d : Driver T) (req : csi.CreateVolumeRequest) (out : res status csi.Volume)
    : gmap placementKey Z → gmap placementKey Z :=
  let params := csi.cvr_Parameters req in
  let zones := zonesFrom (csi.cvr_Accessibility req) in
  if bool_decide (csi.cvr_Name req = "") || bool_decide (csi.cvr_VolumeCapabilities req = []) ||
     bool_decide (claim_key "volume-name" (csi.cvr_Name req) ∈ d_ops d)
  then id
  else match Resolve (disp (d_state d)) params zones.1 zones.2 with
  | Err _ =>
      let bt := mget params BackendParamKey in
      incr (placement_key (if bool_decide (is_Some (backend.backends (registry (d_state d)) !! bt))
                           then bt else BackendUnknown)
              InstanceNone ZoneNone DecisionUnresolved PlacementDispatchError)
  | Ok r =>
      incr (placement_key (rBackend r) (rInstance r) (rZone r) (Decision_string (rDecision r))
              (placement_result out))
  end.

Lemma create_on_placements bk req r d d' out :
  backend.RegistryOk (registry bk) → create_on bk req r d = (d', out) →
  placements (w_metrics (d_world d')) = placements (w_metrics (d_world d)).
Proof.
  intros Hreg Hc. apply create_on_inv in Hc as [(-> & _)|(be & src & w' & o & Hget & _ & _ & Hbe & -> & _)]; [done|].
  apply backend.Get_ok, Hreg in Hget as [_ Hlaws]. simpl. by eapply backend.law_create_metrics.
Qed.

Lemma create_claimed_placements req d d1 out :
  backend.RegistryOk (registry (d_state d)) →
  csi.cvr_Name req ≠ "" → csi.cvr_VolumeCapabilities req ≠ [] →
  ¬ (claim_key "volume-name" (csi.cvr_Name req) ∈ d_ops d) →
  create_claimed req (set_ops ({[claim_key "volume-name" (csi.cvr_Name req)]} ∪ d_ops d) d) = (d1, out) →
  placements (w_metrics (d_world d1)) = placement_of d req out (placements (w_metrics (d_world d))).
Proof.
  intros Hreg Hname Hcaps Hfree. unfold placement_of.
  rewrite !bool_decide_eq_false_2 by done. cbn [orb].
  unfold create_claimed, gets, mbind, M_bind. cbv beta iota zeta. cbn [d_state set_ops].
  destruct (Resolve _ _ _ _) as [r|e].
  - unfold catch. destruct (create_on _ req r _) as [d2 o] eqn:Hc. intros [= <- <-].
    apply create_on_placements in Hc; [|done]. simpl. by rewrite Hc.
  - intros [= <- <-]. simpl. unfold backend.Get.
    destruct (backend.backends (registry (d_state d)) !! _) as [be|] eqn:Hl; cbn [is_Some];
      [rewrite bool_decide_eq_true_2 by eauto|rewrite bool_decide_eq_false_2 by (by intros [])]; done.
Qed.

(** Every create request that passes validation and claims its name is
    counted as exactly one placement, with the instance it was dispatched to and
    whether it then succeeded; refused and repeated requests are not counted. *)
Theorem CreateVolume_counts_once cfg req d d' out :
  DriverOk cfg d → CreateVolume req d = (d', out) →
  placements (w_metrics (d_world d')) = placement_of d req out (placements (w_metrics (d_world d))).
Proof.
  intros [Hreg _]. unfold CreateVolume, required, guard_, mbind, M_bind. cbv beta iota.
  case_bool_decide as Hname; cbn [negb].
  { intros [= <- <-]. unfold placement_of. by rewrite bool_decide_eq_true_2. }
  case_bool_decide as Hcaps; cbn [negb].
  { intros [= <- <-]. unfold placement_of. by rewrite (bool_decide_eq_true_2 (_ = [])), orb_true_r. }
  intros [(Hk & -> & ->)|(Hk & d1 & Hb & ->)]%with_claim_inv; [| |apply Frames_create_claimed].
  - unfold placement_of. by rewrite (bool_decide_eq_true_2 (_ ∈ _)), orb_true_r.
  - simpl. by apply create_claimed_placements.
Qed.

(** C2: a clone or restore whose source is in another backend or instance than
    the one the new volume is placed in is refused before any backend is called. *)
Theorem CreateVolume_refuses_foreign_source req d d' out r snap vol src :
  Resolve (disp (d_state d)) (csi.cvr_Parameters req) (zonesFrom (csi.cvr_Accessibility req)).1
    (zonesFrom (csi.cvr_Accessibility req)).2 = Ok r →
  contentSource (csi.cvr_ContentSource req) = Ok (snap, vol) →
  snap = Some src ∨ vol = Some src →
  hBackend src ≠ rBackend r ∨ hInstance src ≠ rInstance r →
  CreateVolume req d = (d', out) →
  w_env (d_world d') = w_env (d_world d) ∧
  ∃ e, out = Err e ∧ (st_code e = codes.InvalidArgument ∨ e = aborted).
Proof.
  intros Hres Hsrc Hor Hne. unfold CreateVolume, required, guard_, mbind, M_bind. cbv beta iota.
  case_bool_decide; cbn [negb]; [intros [= <- <-]; split; [done|]; eexists; by split; [|left]|].
  case_bool_decide; cbn [negb]; [intros [= <- <-]; split; [done|]; eexists; by split; [|left]|].
  intros [(_ & -> & ->)|(_ & d1 & Hb & ->)]%with_claim_inv; [| |apply Frames_create_claimed].
  { split; [done|]. eexists. by split; [|right]. }
  revert Hb. unfold create_claimed, gets, mbind, M_bind. cbv beta iota zeta. cbn [d_state set_ops].
  rewrite Hres. unfold catch. destruct (create_on _ req r _) as [d2 o] eqn:Hc. intros [= <- <-].
  assert (∃ e, (d2 = set_ops ({[claim_key "volume-name" (csi.cvr_Name req)]} ∪ d_ops d) d) ∧
               o = Err e ∧ st_code e = codes.InvalidArgument) as (e & -> & -> & He).
  { revert Hc. unfold create_on, get_from, lift, guard_, mbind, M_bind.
    destruct (backend.Get _ _) as [be|e]; simpl; [|intros [= <- <-]; by eexists].
    destruct (forallb _ _); simpl; [|intros [= <- <-]; by eexists]. rewrite Hsrc. simpl.
    destruct (validateContentSourceTarget r snap vol) as [[]|e] eqn:Hval; simpl.
    - exfalso. destruct (validate_source_ok r snap vol src Hval Hor). naive_solver.
    - intros [= <- <-]. eexists. split_and!; [done..|]. revert Hval.
      unfold validateContentSourceTarget, check_source. cbn [mbind res_bind].
      repeat case_match; cbn [res_bind]; repeat case_bool_decide; intros; by simplify_eq/=. }
  split; [done|]. eexists. by split; [|left].
Qed.

(** A call on one parsed and unclaimed id is one call of the backend. *)
Lemma claimed_backend_call {A} kind key op (m : backend.Backend T → M (World T) error A) bt be d :
  claim_key kind key ∉ d_ops d → backend.Get (registry (d_state d)) bt = Ok be →
  with_claim kind key (be ← get_backend (invalid "%v") bt; call_backend op (m be)) d =
    let '(w', r) := m be (d_world d) in (set_world w' d, map_err (toStatus op) r).
Proof.
  intros Hk Hget. destruct (m be (d_world d)) as [w' r] eqn:Hm.
  pose proof (with_claim_free kind key (be ← get_backend (invalid "%v") bt; call_backend op (m be)) d Hk) as Hf.
  assert ((be ← get_backend (invalid "%v") bt; call_backend op (m be))
            (set_ops ({[claim_key kind key]} ∪ d_ops d) d) =
          (set_world w' (set_ops ({[claim_key kind key]} ∪ d_ops d) d), map_err (toStatus op) r)) as Hb.
  { unfold get_backend, get_from, gets, lift, mbind, M_bind. cbn [d_state set_ops]. rewrite Hget.
    unfold call_backend, run_err, on_world. cbn [map_err d_world set_ops]. by rewrite Hm. }
  rewrite Hb in Hf. apply Hf. frames.
Qed.

(** A volume's id leads back to its backend: deleting a volume that
    [CreateVolume] returned, while no other operation holds it, is one call of
    [DeleteVolume] on the backend it was created in, with the handle that backend
    returned for it. *)
Theorem created_volume_deletes cfg req d d' v :
  DriverOk cfg d → CreateVolume req d = (d', Ok v) →
  ∃ be h, backend.Get (registry (d_state d)) (mget (csi.cvr_Parameters req) BackendParamKey) = Ok be ∧
    Handle_String h = csi.VolumeId v ∧
    ∀ d2 secrets, d_state d2 = d_state d → claim_key "volume" (csi.VolumeId v) ∉ d_ops d2 →
      DeleteVolume (csi.VolumeId v) secrets d2 =
        let '(w', r) := backend.DeleteVolume be h secrets (d_world d2) in
        (set_world w' d2, map_err (toStatus "delete volume") r).
Proof.
  intros [Hreg Hnew] Hcv. apply CreateVolume_ok in Hcv as (d1 & d0 & Hst & Hcl).
  apply create_claimed_ok in Hcl as (r & Hres & Hon). rewrite Hst in Hres, Hon.
  destruct (create_on (d_state d) req r d1) as [d3 o] eqn:Hc. simpl in Hon. subst.
  apply create_on_inv in Hc as [(_ & e & ?)|(be & src & w' & o & Hget & _ & _ & Hbe & _ & Hout)]; [done|].
  destruct o as [vol|e]; [|done]. injection Hout as ->. cbn [csi.VolumeId].
  pose proof Hget as Hget'. apply backend.Get_ok, Hreg in Hget' as [Hty Hlaws].
  apply backend.law_create in Hbe as (Hb & _ & Hv).
  pose proof (New_cases cfg) as Hcs. rewrite Hnew in Hcs. destruct Hcs as [Hd _].
  destruct (Resolve_sound cfg _ Hd _ _ _ _ Hres) as [_ Hpl]. apply Placement_backend in Hpl.
  exists be, (backend.v_Handle vol). split_and!; [congruence|done|].
  intros d2 secrets Hs2 Hfree. pose proof (Parse_String _ Hv) as Hparse.
  unfold DeleteVolume, required, guard_, mbind, M_bind. cbv beta iota.
  assert (Handle_String (backend.v_Handle vol) ≠ "") as Hne.
  { intros Heq. rewrite Heq in Hparse. discriminate Hparse. }
  rewrite bool_decide_eq_false_2 by done. cbn [negb]. rewrite Hparse.
  apply (claimed_backend_call "volume" _ "delete volume"
    (λ be, backend.DeleteVolume be (backend.v_Handle vol) secrets)); [done|]. by rewrite Hs2, Hb, Hty.
Qed.

(** [GetCapacity] answers what the backend the same request would be placed
    in reports; when the request does not resolve, its backend is not configured,
    or the backend does not report capacity, the answer is the largest 64-bit
    value, with no backend called in the first two cases; only a backend failure
    is an error, and it is Internal. *)
Theorem GetCapacity_answers topology params d :
  let z := mget topology TopologyKeyZone in
  let out := GetCapacity topology params d in
  match Resolve (disp (d_state d)) params (if bool_decide (z = "") then [] else [z]) [] with
  | Err _ => out = (d, Ok int64_max)
  | Ok r =>
      match backend.backends (registry (d_state d)) !! rBackend r with
      | None => out = (d, Ok int64_max)
      | Some be =>
          let '(w', rep) := backend.GetCapacity be (rInstance r) params (d_world d) in
          out.1 = set_world w' d ∧
          match rep with
          | Ok avail => out.2 = Ok avail
          | Err e => if errors_Is e ErrUnsupported then out.2 = Ok int64_max
                     else ∃ s, out.2 = Err s ∧ st_code s = codes.Internal
          end
      end
  end.
Proof.
  cbv zeta. unfold GetCapacity, gets, mbind, M_bind. cbv beta iota zeta.
  destruct (Resolve _ _ _ _) as [r|e]; [|done]. unfold backend.Get.
  destruct (backend.backends _ !! rBackend r) as [be|]; [|done]. unfold catch, on_world.
  destruct (backend.GetCapacity be _ _ _) as [w' [avail|e]]; [done|].
  destruct (errors_Is e ErrUnsupported); [done|]. by split; [|eexists].
Qed.
End create.

(** ** Listing *)

Section listing.
  Context {T : Type}.
  Implicit Types d : Driver T.

(** What a backend type contributes to a listing whose answers are [L]. *)
Definition listed {E A} (L : string → res error (list E)) (entry : E → option A) (t : string) : list A :=
  match L t with Ok vs => omap entry vs | Err _ => [] end.

(** A listing that answers, or is not supported. *)
Definition listable {E} (L : string → res error (list E)) (t : string) : Prop :=
  match L t with Ok _ => True | Err e => errors_Is e ErrUnsupported = true end.

Lemma list_backends_result {E A} bk op (ls : backend.Backend T → M (World T) error (list E))
    (entry : E → option A) L types acc d :
  (∀ t be w, backend.backends (registry bk) !! t = Some be → (ls be w).2 = L t) →
  Forall (λ t, is_Some (backend.backends (registry bk) !! t) ∧ listable L t) types →
  (list_backends bk op ls entry types acc d).2 = Ok (acc ++ (types ≫= listed L entry)).
Proof.
  intros Hst Hall. revert acc d. induction Hall as [|t types [[be Hbe] Hok] _ IH]; intros acc d; simpl.
  { by rewrite app_nil_r. }
  unfold backend.Get. rewrite Hbe. unfold catch, on_world. specialize (Hst t be (d_world d) Hbe).
  destruct (ls be (d_world d)) as [w' r]. simpl in Hst. subst r. unfold listable in Hok. unfold listed at 1.
  destruct (L t) as [vs|e].
  - by rewrite IH, <-app_assoc.
  - rewrite Hok. by rewrite IH.
Qed.

(** Ids within one backend's listing, and across two, are distinct. *)
Lemma listed_ids (reg : backend.Registry T) L t be :
  backend.RegistryOk reg → backend.backends reg !! t = Some be →
  (∀ w, (backend.ListVolumes be w).2 = L t) → inhabited (World T) →
  ∀ vs, L t = Ok vs →
  Forall (λ v, hBackend (backend.vl_Handle v) = t ∧ Validate (backend.vl_Handle v) = Ok tt) vs.
Proof.
  intros Hreg Hbe Hst [w] vs HL. apply Hreg in Hbe as [<- Hlaws]. specialize (Hst w).
  destruct (backend.ListVolumes be w) as [w' r] eqn:Hl. simpl in Hst. subst r. rewrite HL in Hl.
  by eapply backend.law_list.
Qed.

Lemma omap_Some {A B} (f : A → B) (l : list A) : omap (Some ∘ f) l = f <$> l.
Proof. induction l as [|x l IH]; [done|]. cbn. by f_equal. Qed.

Section all.
  Context (d : Driver T) (L : string → res error (list backend.VolumeListEntry)).
Let reg := registry (d_state d).
  Hypothesis Hreg : backend.RegistryOk reg.
  Hypothesis Hstable : ∀ t be w, backend.backends reg !! t = Some be → (backend.ListVolumes be w).2 = L t.
  Hypothesis Hlistable : ∀ t, is_Some (backend.backends reg !! t) → listable L t.
  Hypothesis Hdistinct : ∀ t vs, is_Some (backend.backends reg !! t) → L t = Ok vs →
    NoDup (backend.vl_Handle <$> vs).

Definition all_volumes `{MapIter} : list csi.Volume :=
  backend.Types reg ≫= listed L (Some ∘ volume_entry).

Lemma registered_ids t vs :
  is_Some (backend.backends reg !! t) → L t = Ok vs →
  Forall (λ v, hBackend (backend.vl_Handle v) = t ∧ Validate (backend.vl_Handle v) = Ok tt) vs.
Proof.
  intros [be Hbe] HL. apply (listed_ids reg L t be Hreg Hbe); [|by constructor; apply (d_world d)|done].
  intros w. by apply Hstable.
Qed.

Lemma listed_NoDup t :
  is_Some (backend.backends reg !! t) → NoDup (csi.VolumeId <$> listed L (Some ∘ volume_entry) t).
Proof.
  intros Ht. unfold listed. destruct (L t) as [vs|e] eqn:HL; [|constructor]. rewrite omap_Some.
  pose proof (registered_ids t vs Ht HL) as Hv.
  replace (csi.VolumeId <$> (volume_entry <$> vs)) with (Handle_String <$> (backend.vl_Handle <$> vs))
    by (by rewrite <-!list_fmap_compose).
  apply NoDup_fmap_2_strong; [|by eapply Hdistinct].
  intros h1 h2 (v1 & -> & H1)%list_elem_of_fmap (v2 & -> & H2)%list_elem_of_fmap Heq.
  rewrite Forall_forall in Hv. apply Hv in H1 as [_ H1%Parse_String]. apply Hv in H2 as [_ H2%Parse_String].
  congruence.
Qed.

Lemma listed_id_backend t id :
  is_Some (backend.backends reg !! t) → id ∈ csi.VolumeId <$> listed L (Some ∘ volume_entry) t →
  ∃ h, Parse id = Ok h ∧ hBackend h = t.
Proof.
  intros Ht. unfold listed. destruct (L t) as [vs|e] eqn:HL; [|by intros ?%elem_of_nil].
  rewrite omap_Some. intros (c & -> & (v & -> & Hin)%list_elem_of_fmap)%list_elem_of_fmap.
  pose proof (registered_ids t vs Ht HL) as Hv. rewrite Forall_forall in Hv.
  apply Hv in Hin as [Hb Hval%Parse_String]. by eexists.
Qed.

Lemma fmap_bind {A B C} (f : B → C) (g : A → list B) l : f <$> (l ≫= g) = l ≫= λ x, f <$> g x.
Proof. induction l as [|x l IH]; [done|]. cbn. by rewrite fmap_app, <-IH. Qed.

Lemma all_volumes_NoDup `{MapIter} : NoDup (csi.VolumeId <$> all_volumes).
Proof.
  unfold all_volumes. rewrite fmap_bind. apply NoDup_bind; [| |apply backend.Types_NoDup].
  - intros t1 t2 id H1%backend.elem_of_Types H2%backend.elem_of_Types Hi1 Hi2.
    apply listed_id_backend in Hi1 as (h1 & Hp1 & <-); [|done].
    apply listed_id_backend in Hi2 as (h2 & Hp2 & <-); [|done]. congruence.
  - intros t Ht%backend.elem_of_Types. by apply listed_NoDup.
Qed.

Lemma all_volumes_perm (o1 o2 : MapIter) : @all_volumes o1 ≡ₚ @all_volumes o2.
Proof. unfold all_volumes. by rewrite (backend.Types_perm o1 o2 reg). Qed.

Lemma elem_of_all_volumes `{MapIter} v :
  v ∈ all_volumes ↔ ∃ t vs e, is_Some (backend.backends reg !! t) ∧ L t = Ok vs ∧ e ∈ vs ∧ v = volume_entry e.
Proof.
  unfold all_volumes. rewrite list_elem_of_bind. split.
  - intros (t & Hin & Ht%backend.elem_of_Types). unfold listed in Hin.
    destruct (L t) as [vs|] eqn:HL; [|by apply elem_of_nil in Hin]. rewrite omap_Some in Hin.
    apply list_elem_of_fmap in Hin as (e & -> & Hin). by exists t, vs, e.
  - intros (t & vs & e & Ht & HL & He & ->). exists t. split; [|by apply backend.elem_of_Types].
    unfold listed. rewrite HL, omap_Some. apply list_elem_of_fmap. by exists e.
Qed.

(** When the listing backends answer (the same whenever they are asked) and
    none lists a volume twice, [ListVolumes] pages through one fixed list: sorted
    by id, no id twice, exactly the volumes the registered backends list, whatever
    order Go ranges over the registry in and however it sorts equal keys. *)
Theorem ListVolumes_exact :
  ∃ all, StronglySorted String.le (csi.VolumeId <$> all) ∧ NoDup (csi.VolumeId <$> all) ∧
    (∀ v, v ∈ all ↔
       ∃ t vs e, is_Some (backend.backends reg !! t) ∧ L t = Ok vs ∧ e ∈ vs ∧ v = volume_entry e) ∧
    ∀ (o : MapIter) (so : SortSlice) token maxEntries,
      (ListVolumes token maxEntries d).2 = paginate all token maxEntries.
Proof.
  exists (sort_slice csi.VolumeId all_volumes). split_and!.
  - pose proof (sort_slice_sorted csi.VolumeId all_volumes) as Hs.
    induction Hs as [|v l Hs IH Hle]; [constructor|]. simpl. constructor; [done|].
    by apply Forall_fmap.
  - rewrite sort_slice_perm. apply all_volumes_NoDup.
  - intros v. rewrite sort_slice_perm. apply elem_of_all_volumes.
  - intros o so token maxEntries.
    rewrite (sort_slice_unique sort_default so _ all_volumes (@all_volumes o)
      (all_volumes_perm _ _) all_volumes_NoDup).
    unfold ListVolumes, gets, mbind, M_bind. cbv beta iota.
    pose proof (list_backends_result (d_state d) "list volumes" backend.ListVolumes (Some ∘ volume_entry)
      L (backend.Types reg) [] d Hstable) as Hr.
    destruct (list_backends _ _ _ _ _ _ d) as [d1 r]. simpl in Hr. rewrite Hr; [done|].
    apply Forall_forall. intros t Ht%backend.elem_of_Types. split; [done|]. by apply Hlistable.
Qed.
End all.
End listing.

(** ** A driver over one plugin

    The plugin answers every route with the same document and logs the paths. *)
Definition ex_answer : json :=
  JObj [("name", JStr "vol-1"); ("capacityBytes", JNum "1073741824");
        ("availableBytes", JNum "5");
        ("entries", JArr [JObj [("volume", JObj [("instance", JStr "main"); ("name", JStr "vol-2")])];
                          JObj [("volume", JObj [("instance", JStr "main"); ("name", JStr "vol-1")])]])].
Definition ex_transport : plugin.Transport (list string) := λ path _ log,
  (log ++ [path], (ms, plugin.Resp 200 (Some ex_answer))).
Definition ex_caps : backend.Capabilities :=
  backend.mkCapabilities false false false false true true false false false false true false false false false false.
Definition ex_backend : backend.Backend (list string) :=
  @plugin.client_backend _ ex_transport (plugin.mkClient "nfs" ex_caps).
Definition ex_registry : backend.Registry (list string) :=
  default backend.NewRegistry (backend.Register backend.NewRegistry ex_backend).
Definition ex_world : World (list string) := mkWorld newCollector [].
Definition ex_driver : Driver (list string) :=
  NewDriver (mkOptions _ "v1" "node-1" "zone-e" "" (mkMode true true) ex_registry ex_disp 0) ex_world.
Definition ex_mount : csi.VolumeCapability := csi.mkVolumeCapability csi.SINGLE_NODE_WRITER (csi.AccessMount "ext4" []).
Definition ex_req (src : option csi.VolumeContentSource) : csi.CreateVolumeRequest :=
  csi.mkCreateVolumeRequest "pvc-1" 1073741824 [ex_mount] {["backend" := "nfs"]} ∅ src None ∅.

Lemma ex_driver_ok : DriverOk ex_cfg ex_driver.
Proof.
  split; [|reflexivity].
  apply (backend.RegistryOk_Register backend.NewRegistry ex_registry ex_backend backend.RegistryOk_New);
    [apply plugin.client_laws|reflexivity].
Qed.

Definition ex_id (out : res status csi.Volume) : option string :=
  match out with Ok v => Some (csi.VolumeId v) | Err _ => None end.
Lemma ex_created : ex_id (CreateVolume (ex_req None) ex_driver).2 = Some "swsk|1|nfs|main||vol-1".
Proof. vm_compute. reflexivity. Qed.

Lemma CreateVolume_places_witness :
  ∃ d' v h, CreateVolume (ex_req None) ex_driver = (d', Ok v) ∧ csi.VolumeId v = "swsk|1|nfs|main||vol-1" ∧
    Parse (csi.VolumeId v) = Ok h ∧ hInstance h = "main".
Proof.
  pose proof ex_created as Hex.
  destruct (CreateVolume (ex_req None) ex_driver) as [d' [v|e]] eqn:Hc; [|discriminate Hex].
  destruct (CreateVolume_places ex_cfg (ex_req None) ex_driver d' v ex_driver_ok Hc) as (r & h & _ & Hp & _).
  injection Hex as Hid. rewrite Hid in Hp.
  exists d', v, h. rewrite Hid. split_and!; [done..|]. by injection Hp as <-.
Defined.

Lemma CreateVolume_counts_once_witness :
  let '(d', _) := CreateVolume (ex_req None) ex_driver in
  counter ("nfs", "main", "zone-e", "single_instance", "success") (placements (w_metrics (d_world d'))) = 1%Z.
Proof.
  pose proof ex_created as Hex. destruct (CreateVolume (ex_req None) ex_driver) as [d' out] eqn:Hc.
  rewrite (CreateVolume_counts_once ex_cfg (ex_req None) ex_driver d' out ex_driver_ok Hc).
  destruct out as [v|e]; [vm_compute; reflexivity|discriminate Hex].
Defined.

Lemma CreateVolume_refuses_foreign_source_witness :
  let '(d', out) := CreateVolume (ex_req (Some (csi.SourceVolume "swsk|1|nfs|other||vol-9"))) ex_driver in
  w_env (d_world d') = [] ∧ is_Ok out = false.
Proof.
  destruct (CreateVolume _ ex_driver) as [d' out] eqn:Hc.
  destruct (CreateVolume_refuses_foreign_source (ex_req (Some (csi.SourceVolume "swsk|1|nfs|other||vol-9"))) ex_driver d' out
    (mkResolution "nfs" "main" "zone-e" DecisionSingleInstance) None (Some (mkHandle "nfs" "other" "" "vol-9"))
    (mkHandle "nfs" "other" "" "vol-9")) as (Henv & e & -> & _);
    [reflexivity|reflexivity|by right|by right|done|]. by split.
Defined.

Lemma created_volume_deletes_witness :
  ∃ d' v be h, CreateVolume (ex_req None) ex_driver = (d', Ok v) ∧
    DeleteVolume (csi.VolumeId v) ∅ ex_driver =
      (let '(w', r) := backend.DeleteVolume be h ∅ (d_world ex_driver) in
       (set_world w' ex_driver, map_err (toStatus "delete volume") r)).
Proof.
  pose proof ex_created as Hex.
  destruct (CreateVolume (ex_req None) ex_driver) as [d' [v|e]] eqn:Hc; [|discriminate Hex].
  destruct (created_volume_deletes ex_cfg (ex_req None) ex_driver d' v ex_driver_ok Hc) as (be & h & _ & _ & Hdel).
  exists d', v, be, h. split; [done|]. apply Hdel; [reflexivity|apply not_elem_of_empty].
Defined.

Definition ex_listing (t : string) : res error (list backend.VolumeListEntry) :=
  Ok [backend.mkVolumeListEntry (mkHandle "nfs" "main" "" "vol-2") 0;
      backend.mkVolumeListEntry (mkHandle "nfs" "main" "" "vol-1") 0].

Definition ex_ids (out : res status (list csi.Volume * string)) : list string :=
  match out with Ok (page, _) => csi.VolumeId <$> page | Err _ => [] end.
Lemma ex_listed :
  ex_ids (@ListVolumes _ iter_default sort_default "" 0 ex_driver).2 =
    ["swsk|1|nfs|main||vol-1"; "swsk|1|nfs|main||vol-2"].
Proof. vm_compute. reflexivity. Qed.

Lemma ListVolumes_exact_witness :
  ∃ all, csi.VolumeId <$> all = ["swsk|1|nfs|main||vol-1"; "swsk|1|nfs|main||vol-2"] ∧
    ∀ (o : MapIter) (so : SortSlice), (ListVolumes "" 0 ex_driver).2 = paginate all "" 0.
Proof.
  assert (∀ t be, backend.backends ex_registry !! t = Some be → be = ex_backend) as Honly.
  { intros t be. change (backend.backends ex_registry) with (<["nfs" := ex_backend]> (∅ : gmap string _)).
    rewrite lookup_insert_Some, lookup_empty. by intros [[_ ?]|[_ ?]]. }
  destruct (ListVolumes_exact ex_driver ex_listing) as (all & _ & _ & _ & Heq).
  - apply ex_driver_ok.
  - intros t be w ->%Honly. reflexivity.
  - done.
  - intros t vs _ [= <-]. apply (bool_decide_unpack _). by vm_compute.
  - exists all. split; [|intros o so; apply Heq].
    pose proof ex_listed as Hids. rewrite Heq in Hids.
    assert (paginate all "" 0 = Ok (all, "")) as Hpg; [|by rewrite Hpg in Hids].
    unfold paginate. rewrite (bool_decide_eq_true_2 ("" = "")) by done. cbn [mbind res_bind].
    by rewrite (bool_decide_eq_false_2 (0 > _)%Z) by lia.
Defined.
End controller.
