(* ===== verification/Node.v ===== *)
(** * The CSI node and identity services (internal/driver/node.go, identity.go)

    Every handler of [nodeServer] and [identityServer].  What [os.Stat], [Statfs]
    and the size of a device say about a path is the argument [probe] of
    [NodeGetVolumeStats]. *)
From S2P Require Import Prelude GoStrings GoErrors VolumeID Dispatch Metrics Backend Json Protocol Server Client Inflight Driver Controller.

Module node.
Section node.
  Context {T : Type}.
  Implicit Types d : Driver T.

(** [exclusiveAccess], [readOnlyAccess], [capabilityDetails]. *)
Definition exclusiveAccess (c : csi.VolumeCapability) : bool :=
  match csi.Mode_ c with
  | csi.SINGLE_NODE_WRITER | csi.SINGLE_NODE_SINGLE_WRITER | csi.SINGLE_NODE_MULTI_WRITER => true
  | _ => false
  end.
Definition readOnlyAccess (c : csi.VolumeCapability) : bool :=
  match csi.Mode_ c with
  | csi.MULTI_NODE_READER_ONLY | csi.SINGLE_NODE_READER_ONLY => true
  | _ => false
  end.
Definition capabilityDetails (c : option csi.VolumeCapability) : string * list string * bool :=
  match c with
  | None => ("", [], false)
  | Some c =>
      match csi.Access c with
      | csi.AccessBlock => ("", [], true)
      | csi.AccessMount fsType flags => (fsType, flags, false)
      | csi.AccessUnset => ("", [], false)
      end
  end.

(** [resolve]. *)
Definition resolve (volumeID : string) : Handler T (Handle * backend.Backend T) :=
  required volumeID "volume id is required";;
  h ← parse_id (not_found "unknown volume id: %v") volumeID;
  be ← get_backend (not_found "%v") (hBackend h);
  mret (h, be).

(** [NodeGetInfo]: the node, its volume cap (0: none) and its topology. *)
Definition NodeGetInfo : Handler T (string * Z * option csi.Topology) :=
  gets (λ d, (d_nodeID d,
              if bool_decide (d_maxVolumes d > 0)%Z then d_maxVolumes d else 0%Z,
              if bool_decide (d_zone d = "") then None else Some {[TopologyKeyZone := d_zone d]})).

Inductive NodeRPC := STAGE_UNSTAGE_VOLUME | NODE_EXPAND_VOLUME | GET_VOLUME_STATS | NODE_VOLUME_CONDITION
  | NODE_SINGLE_NODE_MULTI_WRITER.
Definition NodeGetCapabilities : Handler T (list NodeRPC) :=
  mret [STAGE_UNSTAGE_VOLUME; NODE_EXPAND_VOLUME; GET_VOLUME_STATS; NODE_VOLUME_CONDITION;
        NODE_SINGLE_NODE_MULTI_WRITER].

Definition NodeStageVolume (volumeId stagingPath : string) (cap : option csi.VolumeCapability)
    (volCtx pubCtx secrets : strmap) : Handler T unit :=
  required stagingPath "staging target path is required";;
  match cap with
  | None => fail (invalid "volume capability is required")
  | Some c =>
      hb ← resolve volumeId;
      with_claim "node" volumeId (
        crush ← gets d_crushLocation;
        let '(fsType, flags, block) := capabilityDetails (Some c) in
        call_backend "node stage" (backend.NodeStage hb.2
          (backend.mkNodeStageRequest hb.1 stagingPath fsType flags (readOnlyAccess c) block
            (exclusiveAccess c) volCtx pubCtx crush secrets)))
  end.

Definition NodeUnstageVolume (volumeId stagingPath : string) : Handler T unit :=
  required stagingPath "staging target path is required";;
  hb ← resolve volumeId;
  with_claim "node" volumeId (call_backend "node unstage" (backend.NodeUnstage hb.2 hb.1 stagingPath)).

Definition NodePublishVolume (volumeId stagingPath targetPath : string) (cap : option csi.VolumeCapability)
    (readonly : bool) (volCtx : strmap) : Handler T unit :=
  required targetPath "target path is required";;
  match cap with
  | None => fail (invalid "volume capability is required")
  | Some c =>
      hb ← resolve volumeId;
      with_claim "node" volumeId (
        let '(fsType, flags, block) := capabilityDetails (Some c) in
        call_backend "node publish" (backend.NodePublish hb.2
          (backend.mkNodePublishRequest hb.1 stagingPath targetPath fsType flags readonly block volCtx)))
  end.

Definition NodeUnpublishVolume (volumeId targetPath : string) : Handler T unit :=
  required targetPath "target path is required";;
  hb ← resolve volumeId;
  with_claim "node" volumeId (call_backend "node unpublish" (backend.NodeUnpublish hb.2 hb.1 targetPath)).

Definition NodeExpandVolume (volumeId volumePath : string) (cap : option csi.VolumeCapability) : Handler T Z :=
  required volumePath "volume path is required";;
  if csi.opt_block cap then mret 0%Z
  else
    hb ← resolve volumeId;
    with_claim "node" volumeId (call_backend "node expand" (backend.NodeExpand hb.2 hb.1 volumePath)).

(** ** Volume statistics *)

(** [Statfs_t]'s fields: unsigned, but for the block size. *)
Record Statfs := mkStatfs { Bsize : Z; Blocks : Z; Bfree : Z; Bavail : Z; Files : Z; Ffree : Z }.
(** What a path is: missing, not to be examined, something other than a
    directory (a device, with its size or 0), or a directory, whose [Statfs] may
    fail. *)
Inductive probed :=
  | NotExist
  | StatError
  | Other (size : Z)
  | Dir (st : option Statfs).

Inductive Unit_ := BYTES | INODES.
Record VolumeUsage := mkVolumeUsage { Unit__ : Unit_; Total : Z; Used : Z; Available : Z }.
Record VolumeStats := mkVolumeStats { Usage : list VolumeUsage; Abnormal_ : bool }.

Definition bytes_usage (st : Statfs) : VolumeUsage :=
  mkVolumeUsage BYTES (wrap64 (wrap64 (Blocks st) * Bsize st))
    (wrap64 (wrap64 (u64_sub (Blocks st) (Bfree st)) * Bsize st)) (wrap64 (wrap64 (Bavail st) * Bsize st)).
Definition inodes_usage (st : Statfs) : VolumeUsage :=
  mkVolumeUsage INODES (wrap64 (Files st)) (wrap64 (u64_sub (Files st) (Ffree st))) (wrap64 (Ffree st)).

Definition NodeGetVolumeStats (probe : string → probed) (volumeId volPath : string) : Handler T VolumeStats :=
  required volumeId "volume id is required";;
  required volPath "volume path is required";;
  match probe volPath with
  | NotExist => fail (not_found "volume path %q not found")
  | StatError => fail (mkStatus codes.Internal "stat %q: %v")
  | Other size => mret (mkVolumeStats [mkVolumeUsage BYTES size 0 0] false)
  | Dir None => mret (mkVolumeStats [] true)
  | Dir (Some st) => mret (mkVolumeStats [bytes_usage st; inodes_usage st] false)
  end.

(** ** Identity *)
Definition GetPluginInfo : Handler T (string * string) := gets (λ d, (d_name d, d_version d)).
Inductive PluginCapability := CONTROLLER_SERVICE | VOLUME_ACCESSIBILITY_CONSTRAINTS.
Definition GetPluginCapabilities : Handler T (list PluginCapability) :=
  mret [CONTROLLER_SERVICE; VOLUME_ACCESSIBILITY_CONSTRAINTS].
Definition Probe : Handler T bool := mret true.

(** ** Properties *)

(** A filesystem's counts make sense and its size is that of a 64-bit count. *)
Definition sane (st : Statfs) : Prop :=
  (0 ≤ Bavail st ≤ Bfree st ∧ Bfree st ≤ Blocks st ∧ 0 < Bsize st ∧ Blocks st * Bsize st ≤ int64_max ∧
   0 ≤ Ffree st ≤ Files st ∧ Files st ≤ int64_max)%Z.

(** On a filesystem whose counts are consistent and whose size in bytes
    fits 64 bits, the arithmetic of [NodeGetVolumeStats] never wraps: the figures
    reported are the exact byte and inode counts, used plus free is the total, and
    no more is available than is free. *)
Theorem stats_exact (st : Statfs) :
  sane st →
  let b := bytes_usage st in let i := inodes_usage st in
  Total b = (Blocks st * Bsize st)%Z ∧ (Used b + Bfree st * Bsize st = Total b)%Z ∧
  Available b = (Bavail st * Bsize st)%Z ∧ (0 ≤ Available b ∧ Used b + Available b ≤ Total b)%Z ∧
  Total i = Files st ∧ (Used i + Available i = Total i)%Z.
Proof.
  intros (Hav & Hfree & Hbs & Htot & Hff & Hfiles). cbn [Total Used Available bytes_usage inodes_usage].
  assert (0 ≤ Blocks st ≤ int64_max)%Z as Hb by nia.
  rewrite !u64_sub_id by (unfold two64, int64_max in *; lia).
  rewrite (wrap64_id (Blocks st)), (wrap64_id (Blocks st - Bfree st)), (wrap64_id (Bavail st)),
    (wrap64_id (Files st)), (wrap64_id (Files st - Ffree st)), (wrap64_id (Ffree st))
    by (unfold int64_ok, int64_min in *; lia).
  rewrite (wrap64_id (Blocks st * Bsize st)), (wrap64_id ((Blocks st - Bfree st) * Bsize st)),
    (wrap64_id (Bavail st * Bsize st)) by (unfold int64_ok, int64_min in *; nia).
  split_and!; nia.
Qed.

Lemma Frames_resolve id : Frames (T := T) (resolve id).
Proof. unfold resolve. frames. Qed.
End node.

Lemma stats_exact_witness :
  Total (bytes_usage (mkStatfs 4096 1000 400 300 50 20)) = 4096000%Z ∧
  Used (inodes_usage (mkStatfs 4096 1000 400 300 50 20)) = 30%Z.
Proof.
  destruct (stats_exact (mkStatfs 4096 1000 400 300 50 20)) as (Ht & _).
  { repeat split; simpl; unfold int64_max; lia. }
  by split; [rewrite Ht|].
Defined.

(** ** Every handler releases what it claims *)
Section services.
  Context {T : Type} `{MapIter} `{SortSlice}.

Lemma Frames_list_backends {E A} bk op (ls : backend.Backend T → M (World T) error (list E))
    (entry : E → option A) types acc : Frames (controller.list_backends bk op ls entry types acc).
Proof.
  revert acc. induction types as [|t types IH]; intros acc; simpl; [apply Frames_ret|].
  destruct (backend.Get _ _); [|apply IH]. apply Frames_catch. intros [vs|e]; [apply IH|].
  destruct (errors_Is _ _); [apply IH|apply Frames_fail].
Qed.

(** C7: no CSI handler leaves anything behind in the driver: on every path, of
    success or failure, the claims are those it found, so no object stays locked,
    and the configuration, the registry and the dispatcher are untouched. *)
Theorem handlers_restore_driver :
  (∀ r, Frames (T := T) (controller.CreateVolume r)) ∧
  (∀ v s, Frames (T := T) (controller.DeleteVolume v s)) ∧
  (∀ v r c s, Frames (T := T) (controller.ControllerExpandVolume v r c s)) ∧
  (∀ n v p s, Frames (T := T) (controller.CreateSnapshot n v p s)) ∧
  (∀ v s, Frames (T := T) (controller.DeleteSnapshot v s)) ∧
  (∀ v cs, Frames (T := T) (controller.ValidateVolumeCapabilities v cs)) ∧
  Frames (T := T) controller.ControllerGetCapabilities ∧
  (∀ t p, Frames (T := T) (controller.GetCapacity t p)) ∧
  (∀ v, Frames (T := T) (controller.ControllerGetVolume v)) ∧
  (∀ v m s, Frames (T := T) (controller.ControllerModifyVolume v m s)) ∧
  (∀ v n c ro x s, Frames (T := T) (controller.ControllerPublishVolume v n c ro x s)) ∧
  (∀ v n s, Frames (T := T) (controller.ControllerUnpublishVolume v n s)) ∧
  (∀ t n, Frames (T := T) (controller.ListVolumes t n)) ∧
  (∀ f v t n, Frames (T := T) (controller.ListSnapshots f v t n)) ∧
  (∀ v p c x y s, Frames (T := T) (NodeStageVolume v p c x y s)) ∧
  (∀ v p, Frames (T := T) (NodeUnstageVolume v p)) ∧
  (∀ v p t c ro x, Frames (T := T) (NodePublishVolume v p t c ro x)) ∧
  (∀ v p, Frames (T := T) (NodeUnpublishVolume v p)) ∧
  (∀ v p c, Frames (T := T) (NodeExpandVolume v p c)) ∧
  (∀ probe v p, Frames (T := T) (NodeGetVolumeStats probe v p)).
Proof.
  split_and!; intros; try solve [frames | unfold resolve; frames].
  - unfold controller.ListVolumes. frames. apply Frames_list_backends.
  - unfold controller.ListSnapshots. frames. apply Frames_list_backends.
Qed.

(** The handler does nothing while the key is claimed. *)
Definition Excluded {A} (kind key : string) (m : Handler T A) : Prop :=
  ∀ d, claim_key kind key ∈ d_ops d → (m d).1 = d.

(** A step that only reads. *)
Definition Reads {A} (m : Handler T A) : Prop := ∀ d, (m d).1 = d.
Lemma Reads_required s msg : Reads (required s msg).
Proof. done. Qed.
Lemma Reads_guard b e : Reads (guard_ b e).
Proof. done. Qed.
Lemma Reads_parse e id : Reads (parse_id e id).
Proof. done. Qed.
Lemma Reads_resolve id : Reads (resolve id).
Proof.
  intros d. unfold resolve, required, guard_, parse_id, get_backend, get_from, gets, lift, mbind, M_bind.
  destruct (negb _); [|done]. destruct (Parse id) as [h|]; [|done]. simpl.
  by destruct (backend.Get _ _).
Qed.
Lemma Excluded_bind {A B} kind key (m : Handler T A) (f : A → Handler T B) :
  Reads m → (∀ a, Excluded kind key (f a)) → Excluded kind key (m ≫= f).
Proof.
  intros Hm Hf d Hk. unfold mbind, M_bind. specialize (Hm d). destruct (m d) as [d' [a|e]]; simpl in Hm; subst;
    [by apply Hf|done].
Qed.
Lemma Excluded_claim {A} kind key (body : Handler T A) : Excluded kind key (with_claim kind key body).
Proof. intros d Hk. by rewrite with_claim_busy. Qed.
Lemma Excluded_ret {A} kind key (a : A) : Excluded kind key (mret a : Handler T A).
Proof. done. Qed.
Lemma Excluded_fail {A} kind key e : Excluded kind key (fail e : Handler T A).
Proof. done. Qed.
Ltac excluded :=
  repeat first
    [ apply Excluded_claim | apply Excluded_ret | apply Excluded_fail
    | apply Excluded_bind; [first [apply Reads_required|apply Reads_guard|apply Reads_parse|apply Reads_resolve]|intros]
    | match goal with |- Excluded _ _ (match ?x with _ => _ end) => destruct x end
    | match goal with |- Excluded _ _ (if ?x then _ else _) => destruct x end ].

(** C8: while an operation on an object runs, a second one on it, of any kind
    that claims the object, changes nothing: no backend is called, nothing is
    counted, and the claims stay as they are. *)
Theorem busy_object_untouched :
  (∀ r, Excluded "volume-name" (csi.cvr_Name r) (controller.CreateVolume r)) ∧
  (∀ v s, Excluded "volume" v (controller.DeleteVolume v s)) ∧
  (∀ v r c s, Excluded "volume" v (controller.ControllerExpandVolume v r c s)) ∧
  (∀ v m s, Excluded "volume" v (controller.ControllerModifyVolume v m s)) ∧
  (∀ n v p s, Excluded "snapshot-name" n (controller.CreateSnapshot n v p s)) ∧
  (∀ v s, Excluded "snapshot" v (controller.DeleteSnapshot v s)) ∧
  (∀ v n c ro x s, Excluded "attach" (v +:+ "@" +:+ n) (controller.ControllerPublishVolume v n c ro x s)) ∧
  (∀ v n s, Excluded "attach" (v +:+ "@" +:+ n) (controller.ControllerUnpublishVolume v n s)) ∧
  (∀ v p c x y s, Excluded "node" v (NodeStageVolume v p c x y s)) ∧
  (∀ v p, Excluded "node" v (NodeUnstageVolume v p)) ∧
  (∀ v p t c ro x, Excluded "node" v (NodePublishVolume v p t c ro x)) ∧
  (∀ v p, Excluded "node" v (NodeUnpublishVolume v p)) ∧
  (∀ v p c, Excluded "node" v (NodeExpandVolume v p c)).
Proof.
  unfold controller.CreateVolume, controller.DeleteVolume, controller.ControllerExpandVolume,
    controller.ControllerModifyVolume, controller.CreateSnapshot, controller.DeleteSnapshot,
    controller.ControllerPublishVolume, controller.ControllerUnpublishVolume, NodeStageVolume,
    NodeUnstageVolume, NodePublishVolume, NodeUnpublishVolume, NodeExpandVolume.
  split_and!; intros; excluded.
Qed.

(** C39: whatever error code a plugin raises, the container orchestrator sees the
    matching gRPC code, through the plugin server, the wire, the client and
    [toStatus]; every other code, and a plain error, is Internal. *)
Theorem plugin_code_reaches_orchestrator (e : bardplugin.perror) (op : string) :
  wire_ok (server.error_body e) →
  let r := server.writeErr e in
  let err := plugin.mapError (server.r_body r) in
  server.r_status r ≠ server.StatusOK ∧
  st_code (toStatus op err) =
    (if decide (bardplugin.Error_Code (server.error_body e) = bardplugin.CodeAlreadyExists) then codes.AlreadyExists
     else if decide (bardplugin.Error_Code (server.error_body e) = bardplugin.CodeNotFound) then codes.NotFound
     else if decide (bardplugin.Error_Code (server.error_body e) = bardplugin.CodeInvalidArg) then codes.InvalidArgument
     else if decide (bardplugin.Error_Code (server.error_body e) = bardplugin.CodeUnsupported) then codes.Unimplemented
     else codes.Internal).
Proof.
  intros Hw r err. split; [apply plugin.status_not_ok|]. unfold err, r. cbn [server.writeErr server.r_body].
  rewrite plugin.mapError_sent by done. unfold plugin.error_for, toStatus, toStatus_code. cbn [st_code].
  generalize (bardplugin.Error_Code (server.error_body e)). intros c.
  repeat case_decide; subst; done.
Qed.
End services.

Lemma plugin_code_reaches_orchestrator_witness :
  st_code (toStatus "delete volume" (plugin.mapError (server.r_body (server.writeErr
    (bardplugin.Errorf bardplugin.CodeNotFound "no such share"))))) = codes.NotFound.
Proof.
  destruct (plugin_code_reaches_orchestrator (bardplugin.Errorf bardplugin.CodeNotFound "no such share") "delete volume")
    as [_ H]; [by split|]. exact H.
Defined.
End node.
