(* ===== verification/CSIAddons.v ===== *)
(** * The csi-addons services (internal/driver/csiaddons.go, replication.go,
    encryptionrotation.go, volumegroup.go)

    Identity, ReclaimSpace, NetworkFence, VolumeReplication,
    EncryptionKeyRotation and VolumeGroup.  These handlers take no claim.  Log
    lines are left out. *)
From S2P Require Import Prelude GoStrings GoErrors VolumeID Dispatch Metrics Backend Json Client Inflight Driver Controller.

Module addons.
Section addons.
  Context {T : Type} `{MapIter}.
  Implicit Types d : Driver T.

(** [anyBackendCap]. *)
Definition anyBackendCap (d : Driver T) (pred : backend.Capabilities → bool) : bool :=
  existsb (λ t, match backend.Get (registry (snapshot d)) t with
                | Ok be => pred (backend.Caps be)
                | Err _ => false
                end) (backend.Types (registry (snapshot d))).

(** ** Identity *)
Inductive VolumeGroupCap := VOLUME_GROUP | MODIFY_VOLUME_GROUP | GET_VOLUME_GROUP
  | DO_NOT_ALLOW_VG_TO_DELETE_VOLUMES | LIMIT_VOLUME_TO_ONE_VOLUME_GROUP.
#[global] Instance VolumeGroupCap_eq_dec : EqDecision VolumeGroupCap.
Proof. solve_decision. Defined.
Inductive Capability :=
  | CONTROLLER_SERVICE | NODE_SERVICE
  | OFFLINE | ONLINE
  | NETWORK_FENCE | GET_CLIENTS_TO_FENCE
  | VOLUME_REPLICATION
  | VolumeGroupCapability (c : VolumeGroupCap)
  | ENCRYPTIONKEYROTATION.
#[global] Instance Capability_eq_dec : EqDecision Capability.
Proof. solve_decision. Defined.

Definition GetIdentity : Handler T (string * string) := gets (λ d, (d_name d, d_version d)).
Definition Probe : Handler T unit := mret tt.

Definition when (b : bool) {A} (l : list A) : list A := if b then l else [].
(** [GetCapabilities]. *)
Definition GetCapabilities : Handler T (list Capability) :=
  gets (λ d,
    when (Controller (d_mode d)) (
      [CONTROLLER_SERVICE; OFFLINE] ++
      when (anyBackendCap d backend.CapNetworkFence) [NETWORK_FENCE; GET_CLIENTS_TO_FENCE] ++
      when (anyBackendCap d backend.CapReplication) [VOLUME_REPLICATION] ++
      when (anyBackendCap d backend.CapVolumeGroup)
        [VolumeGroupCapability VOLUME_GROUP; VolumeGroupCapability MODIFY_VOLUME_GROUP;
         VolumeGroupCapability GET_VOLUME_GROUP; VolumeGroupCapability DO_NOT_ALLOW_VG_TO_DELETE_VOLUMES;
         VolumeGroupCapability LIMIT_VOLUME_TO_ONE_VOLUME_GROUP]) ++
    when (Node (d_mode d)) (
      [NODE_SERVICE; ONLINE] ++
      when (anyBackendCap d backend.CapEncryptionKeyRotation) [ENCRYPTIONKEYROTATION])).

(** [registerCSIAddons]: the services a process serves, by mode. *)
Inductive Service := IdentityService | ReclaimSpaceController | FenceController | ReplicationController
  | VolumeGroupController | ReclaimSpaceNode | EncryptionKeyRotationService.
Definition registerCSIAddons (d : Driver T) : list Service :=
  [IdentityService] ++
  when (Controller (d_mode d)) [ReclaimSpaceController; FenceController; ReplicationController; VolumeGroupController] ++
  when (Node (d_mode d)) [ReclaimSpaceNode; EncryptionKeyRotationService].

(** ** ReclaimSpace *)

(** [storageConsumption]: [None] when the figure is negative. *)
Definition storageConsumption (bytes : Z) : option Z := if bool_decide (bytes < 0)%Z then None else Some bytes.
Definition usage_report (u : backend.SpaceUsage) : option Z * option Z :=
  (storageConsumption (backend.PreUsageBytes u), storageConsumption (backend.PostUsageBytes u)).

(** The common preamble of the volume-scoped operations. *)
Definition volume_backend (volumeId : string) : Handler T (Handle * backend.Backend T) :=
  required volumeId "volume id is required";;
  h ← parse_id (not_found "unknown volume id: %v") volumeId;
  be ← get_backend (invalid "%v") (hBackend h);
  mret (h, be).

Definition ControllerReclaimSpace (volumeId : string) (secrets : strmap) : Handler T (option Z * option Z) :=
  hb ← volume_backend volumeId;
  u ← call_backend "reclaim space" (backend.ReclaimSpace hb.2 hb.1 secrets);
  mret (usage_report u).
Definition NodeReclaimSpace (volumeId volumePath stagingPath : string) (cap : option csi.VolumeCapability)
    (secrets : strmap) : Handler T (option Z * option Z) :=
  hb ← volume_backend volumeId;
  u ← call_backend "node reclaim space"
    (backend.NodeReclaimSpace hb.2 hb.1 volumePath stagingPath (csi.opt_block cap) secrets);
  mret (usage_report u).

(** ** NetworkFence *)

(** The loop of [resolveFencer]. *)
Fixpoint find_fencer (reg : backend.Registry T) (wantType : string) (types : list string)
    (found : option (backend.Backend T)) : res status (option (backend.Backend T)) :=
  match types with
  | [] => Ok found
  | t :: types =>
      match backend.Get reg t with
      | Err _ => find_fencer reg wantType types found
      | Ok be =>
          if negb (backend.CapNetworkFence (backend.Caps be)) then find_fencer reg wantType types found
          else if negb (bool_decide (wantType = "")) && negb (bool_decide (t = wantType))
          then find_fencer reg wantType types found
          else match found with
          | Some _ => Err (invalid "multiple backends can fence; set parameters.backend")
          | None => find_fencer reg wantType types (Some be)
          end
      end
  end.
(** The instance a cluster-scoped request names. *)
Definition fence_instance (params : strmap) : string :=
  let c := mget params "clusterID" in
  if bool_decide (c = "") then mget params "instance" else c.
Definition resolveFencer (d : Driver T) (params : strmap) : res status (backend.NetworkFencer T * string) :=
  let reg := registry (snapshot d) in
  found ← find_fencer reg (mget params "backend") (backend.Types reg) None;
  match found with
  | None => Err (unimplemented "no registered backend supports NetworkFence")
  | Some be =>
      match backend.as_NetworkFencer be with
      | None => Err (unimplemented "backend advertises NetworkFence but does not implement it")
      | Some fencer => Ok (fencer, fence_instance params)
      end
  end.
Definition with_fencer {A} (params : strmap) (f : backend.NetworkFencer T → string → Handler T A) : Handler T A := λ d,
  match resolveFencer d params with
  | Err e => (d, Err e)
  | Ok (fencer, instance) => f fencer instance d
  end.

(** [cidrStrings]. *)
Definition cidrStrings (cidrs : list string) : list string := filter (λ c, c ≠ "") cidrs.

Definition FenceClusterNetwork (params secrets : strmap) (cidrs : list string) : Handler T unit :=
  with_fencer params (λ fencer instance,
    call_backend "fence cluster network"
      (backend.FenceClusterNetwork fencer instance (cidrStrings cidrs) params secrets)).
Definition UnfenceClusterNetwork (params secrets : strmap) (cidrs : list string) : Handler T unit :=
  with_fencer params (λ fencer instance,
    call_backend "unfence cluster network"
      (backend.UnfenceClusterNetwork fencer instance (cidrStrings cidrs) params secrets)).
Definition ListClusterFence (params secrets : strmap) : Handler T (list string) :=
  with_fencer params (λ fencer instance,
    call_backend "list cluster fence" (backend.ListClusterFence fencer instance params secrets)).
Definition GetFenceClients (params secrets : strmap) : Handler T (list (string * list string)) :=
  with_fencer params (λ fencer instance,
    clients ← call_backend "get fence clients" (backend.GetFenceClients fencer instance params secrets);
    mret (map (λ cl, (backend.fc_ID cl, backend.fc_CIDRs cl)) clients)).

(** ** VolumeReplication *)

(** [srcVolumeID]; the id of the source's volume, empty when there is none. *)
Definition srcVolumeID (deprecated src : string) : string := if bool_decide (src = "") then deprecated else src.
(** [replicator]. *)
Definition replicator (volumeID : string) : Handler T (backend.VolumeReplicator T * Handle) :=
  hb ← volume_backend volumeID;
  match backend.as_VolumeReplicator hb.2 with
  | None => fail (unimplemented "backend %q does not support volume replication")
  | Some vr =>
      guard_ (backend.CapReplication (backend.Caps hb.2))
        (unimplemented "backend %q does not support volume replication");;
      mret (vr, hb.1)
  end.
Definition EnableVolumeReplication (volumeId src : string) (params secrets : strmap) : Handler T unit :=
  vh ← replicator (srcVolumeID volumeId src);
  call_backend "enable volume replication" (backend.EnableVolumeReplication vh.1 vh.2 params secrets).
Definition DisableVolumeReplication (volumeId src : string) (params secrets : strmap) : Handler T unit :=
  vh ← replicator (srcVolumeID volumeId src);
  call_backend "disable volume replication" (backend.DisableVolumeReplication vh.1 vh.2 params secrets).
Definition PromoteVolume (volumeId src : string) (force : bool) (params secrets : strmap) : Handler T unit :=
  vh ← replicator (srcVolumeID volumeId src);
  call_backend "promote volume" (backend.PromoteVolume vh.1 vh.2 force params secrets).
Definition DemoteVolume (volumeId src : string) (force : bool) (params secrets : strmap) : Handler T unit :=
  vh ← replicator (srcVolumeID volumeId src);
  call_backend "demote volume" (backend.DemoteVolume vh.1 vh.2 force params secrets).
Definition ResyncVolume (volumeId src : string) (force : bool) (params secrets : strmap) : Handler T bool :=
  vh ← replicator (srcVolumeID volumeId src);
  call_backend "resync volume" (backend.ResyncVolume vh.1 vh.2 force params secrets).
Definition GetVolumeReplicationInfo (volumeId src : string) (secrets : strmap) : Handler T (option Z) :=
  vh ← replicator (srcVolumeID volumeId src);
  call_backend "get volume replication info" (backend.GetVolumeReplicationInfo vh.1 vh.2 secrets).

(** ** EncryptionKeyRotation *)
Definition EncryptionKeyRotate (volumeId volumePath : string) (params secrets : strmap) : Handler T unit :=
  hb ← volume_backend volumeId;
  match backend.as_EncryptionKeyRotator hb.2 with
  | None => fail (unimplemented "backend %q does not support encryption key rotation")
  | Some kr =>
      guard_ (backend.CapEncryptionKeyRotation (backend.Caps hb.2))
        (unimplemented "backend %q does not support encryption key rotation");;
      call_backend "rotate encryption key" (backend.RotateEncryptionKey kr hb.1 volumePath params secrets)
  end.

(** ** VolumeGroup *)

(** The loop of [groupBackend] when the type is not known. *)
Fixpoint find_grouper (reg : backend.Registry T) (types : list string) (found : option (backend.VolumeGrouper T))
    : res status (option (backend.VolumeGrouper T)) :=
  match types with
  | [] => Ok found
  | t :: types =>
      match backend.Get reg t with
      | Err _ => find_grouper reg types found
      | Ok be =>
          if negb (backend.CapVolumeGroup (backend.Caps be)) then find_grouper reg types found
          else match backend.as_VolumeGrouper be with
          | None => find_grouper reg types found
          | Some vg =>
              match found with
              | Some _ => Err (invalid "multiple backends support volume groups; cannot infer")
              | None => find_grouper reg types (Some vg)
              end
          end
      end
  end.
(** [groupBackend]. *)
Definition groupBackend (d : Driver T) (backendType : string) : res status (backend.VolumeGrouper T) :=
  let reg := registry (snapshot d) in
  if negb (bool_decide (backendType = "")) then
    match backend.Get reg backendType with
    | Err _ => Err (invalid "%v")
    | Ok be =>
        match backend.as_VolumeGrouper be with
        | Some vg => if backend.CapVolumeGroup (backend.Caps be) then Ok vg
                     else Err (unimplemented "backend %q does not support volume groups")
        | None => Err (unimplemented "backend %q does not support volume groups")
        end
    end
  else
    found ← find_grouper reg (backend.Types reg) None;
    match found with
    | Some vg => Ok vg
    | None => Err (unimplemented "no registered backend supports volume groups")
    end.
Definition with_grouper {A} (backendType : string) (f : backend.VolumeGrouper T → Handler T A) : Handler T A := λ d,
  match groupBackend d backendType with
  | Err e => (d, Err e)
  | Ok vg => f vg d
  end.

(** [parseMembers]: the handles, with the backend type and instance they share. *)
Fixpoint parse_members (ids : list string) (backendType instance : string) (handles : list Handle)
    : res status (list Handle * string * string) :=
  match ids with
  | [] => Ok (handles, backendType, instance)
  | id :: ids =>
      match Parse id with
      | Err _ => Err (invalid "invalid volume id %q: %v")
      | Ok h =>
          if bool_decide (backendType = "") then
            parse_members ids (hBackend h) (hInstance h) (handles ++ [h])
          else if negb (bool_decide (hBackend h = backendType)) || negb (bool_decide (hInstance h = instance))
          then Err (invalid "all volumes in a group must be in the same backend instance (a group cannot span clusters)")
          else parse_members ids backendType instance (handles ++ [h])
      end
  end.
Definition parseMembers (ids : list string) : res status (list Handle * string * string) :=
  parse_members ids "" "" [].

(** [groupVolumes]: the members' ids.  A group is its id and its members' ids. *)
Definition groupVolumes (g : backend.VolumeGroup) : list string := map Handle_String (backend.vg_Members g).

Definition CreateVolumeGroup (name : string) (volumeIds : list string) (params secrets : strmap)
    : Handler T (string * list string) :=
  required name "volume group name is required";;
  m ← lift (parseMembers volumeIds);
  let '(members, backendType, instance) := m in
  let pool := match members with h :: _ => hLocation h | [] => "" end in
  let '(backendType, instance) :=
    if bool_decide (instance = "") then (mget params "backend", fence_instance params)
    else (backendType, instance) in
  with_grouper backendType (λ vg,
    g ← call_backend "create volume group" (backend.CreateVolumeGroup vg instance pool name members params secrets);
    mret (Handle_String (backend.vg_Group g), groupVolumes g)).

Definition ModifyVolumeGroupMembership (groupId : string) (volumeIds : list string) (params secrets : strmap)
    : Handler T (string * list string) :=
  gh ← parse_id (not_found "unknown volume group id: %v") groupId;
  m ← lift (parseMembers volumeIds);
  let '(members, _, instance) := m in
  guard_ (bool_decide (instance = "") || bool_decide (instance = hInstance gh))
    (invalid "group members must be in the same instance as the group");;
  with_grouper (hBackend gh) (λ vg,
    g ← call_backend "modify volume group membership" (backend.ModifyVolumeGroup vg gh members params secrets);
    mret (Handle_String gh, groupVolumes g)).

Definition DeleteVolumeGroup (groupId : string) (secrets : strmap) : Handler T unit :=
  match Parse groupId with
  | Err _ => mret tt
  | Ok gh => with_grouper (hBackend gh) (λ vg,
      call_backend "delete volume group" (backend.DeleteVolumeGroup vg gh secrets))
  end.

Definition ControllerGetVolumeGroup (groupId : string) (secrets : strmap) : Handler T (string * list string) :=
  gh ← parse_id (not_found "unknown volume group id: %v") groupId;
  with_grouper (hBackend gh) (λ vg,
    g ← call_backend "get volume group" (backend.GetVolumeGroup vg gh secrets);
    mret (Handle_String gh, groupVolumes g)).

Definition ListVolumeGroups (secrets : strmap) (startingToken : string) (maxEntries : Z)
    : Handler T (list (string * list string) * string) :=
  with_grouper "" (λ vg,
    groups ← call_backend "list volume groups" (backend.ListVolumeGroups vg secrets);
    lift (controller.paginate (map (λ g, (Handle_String (backend.vg_Group g), groupVolumes g)) groups)
      startingToken maxEntries)).
End addons.

(** ** Choosing the backend of a cluster-scoped operation *)

Section choice.
  Context {T : Type}.
  Implicit Types d : Driver T.

(** A registered backend that can fence and that the parameters do not exclude. *)
Definition FenceCandidate d (params : strmap) (t : string) (be : backend.Backend T) : Prop :=
  backend.backends (registry (snapshot d)) !! t = Some be ∧
  backend.CapNetworkFence (backend.Caps be) = true ∧
  (mget params "backend" = "" ∨ t = mget params "backend").

Definition candidate (reg : backend.Registry T) (want t : string) : option (backend.Backend T) :=
  match backend.backends reg !! t with
  | Some be =>
      if backend.CapNetworkFence (backend.Caps be) && (bool_decide (want = "") || bool_decide (t = want))
      then Some be else None
  | None => None
  end.

Lemma candidate_spec d params t be :
  candidate (registry (snapshot d)) (mget params "backend") t = Some be ↔ FenceCandidate d params t be.
Proof.
  unfold candidate, FenceCandidate. destruct (backend.backends _ !! t) as [be'|]; [|naive_solver].
  destruct (backend.CapNetworkFence _) eqn:Hc; simpl; [|naive_solver congruence].
  repeat case_bool_decide; simpl; naive_solver.
Qed.

Lemma find_fencer_step (reg : backend.Registry T) want t types found :
  find_fencer reg want (t :: types) found =
    match candidate reg want t with
    | None => find_fencer reg want types found
    | Some be => match found with
                 | Some _ => Err (invalid "multiple backends can fence; set parameters.backend")
                 | None => find_fencer reg want types (Some be)
                 end
    end.
Proof.
  simpl. unfold candidate, backend.Get. destruct (backend.backends reg !! t) as [be|]; [|done].
  destruct (backend.CapNetworkFence _); simpl; [|done]. by repeat case_bool_decide.
Qed.

(** The loop keeps the only candidate, and fails on a second one. *)
Lemma find_fencer_result (reg : backend.Registry T) want types found :
  find_fencer reg want types found =
    match option_list found ++ omap (candidate reg want) types with
    | [] => Ok None
    | [be] => Ok (Some be)
    | _ => Err (invalid "multiple backends can fence; set parameters.backend")
    end.
Proof.
  revert found. induction types as [|t types IH]; intros found; [by destruct found|].
  rewrite find_fencer_step. cbn [omap list_omap]. destruct (candidate reg want t) as [be|]; [|apply IH].
  destruct found as [be'|]; [done|]. by rewrite IH.
Qed.

(** A list without duplicates whose elements agree has at most one. *)
Lemma omap_singleton {A B} (f : A → option B) l x y :
  NoDup l → x ∈ l → f x = Some y → (∀ x', x' ∈ l → is_Some (f x') → x' = x) → omap f l = [y].
Proof.
  intros Hnd Hx Hfx Honly. induction l as [|a l IH]; [by apply elem_of_nil in Hx|].
  apply NoDup_cons in Hnd as [Ha Hnd]. cbn. apply elem_of_cons in Hx as [<-|Hx].
  - rewrite Hfx. f_equal. destruct (omap f l) as [|z zs] eqn:Ho; [done|].
    assert (z ∈ omap f l) as Hz by (rewrite Ho; apply list_elem_of_here).
    apply list_elem_of_omap in Hz as (x' & Hx' & Hf). destruct Ha.
    rewrite <-(Honly x'); [done|by apply list_elem_of_further|by exists z].
  - destruct (f a) as [b|] eqn:Hfa.
    + destruct Ha. rewrite (Honly a); [done|apply list_elem_of_here|by exists b].
    + apply IH; [done..|]. intros x' Hx' Hs. apply Honly; [by apply list_elem_of_further|done].
Qed.

Lemma find_fencer_unique (o : MapIter) d params be :
  find_fencer (registry (snapshot d)) (mget params "backend") (backend.Types (registry (snapshot d))) None = Ok (Some be) ↔
  ∃ t, FenceCandidate d params t be ∧ ∀ t' be', FenceCandidate d params t' be' → t' = t.
Proof.
  rewrite find_fencer_result. simpl. set (reg := registry (snapshot d)). set (want := mget params "backend").
  split.
  - intros Hl. destruct (omap (candidate reg want) (backend.Types reg)) as [|be0 [|]] eqn:Ho; try done.
    injection Hl as ->.
    assert (be ∈ omap (candidate reg want) (backend.Types reg)) as Hin by (rewrite Ho; apply list_elem_of_here).
    apply list_elem_of_omap in Hin as (t & Ht & Hc). exists t. split; [by apply candidate_spec|].
    intros t' be' Hc'%candidate_spec. destruct (decide (t' = t)) as [|Hne]; [done|]. exfalso.
    assert (t' ∈ backend.Types reg) as Ht'.
    { apply backend.elem_of_Types. apply candidate_spec in Hc' as [Hb _]. by exists be'. }
    apply list_elem_of_split in Ht as (l1 & l2 & Heq). rewrite Heq in Ho, Ht'.
    rewrite omap_app in Ho. cbn in Ho. rewrite Hc in Ho.
    assert (be' ∈ omap (candidate reg want) l1 ∨ be' ∈ omap (candidate reg want) l2) as [Hin|Hin].
    { apply elem_of_app in Ht' as [Hi|[?|Hi]%elem_of_cons]; [left|done|right];
        apply list_elem_of_omap; by exists t'. }
    + destruct (omap (candidate reg want) l1) as [|? [|]]; simpl in Ho; [by apply elem_of_nil in Hin|done|done].
    + destruct (omap (candidate reg want) l1) as [|? [|]]; simpl in Ho; try done.
      destruct (omap (candidate reg want) l2); [by apply elem_of_nil in Hin|done].
  - intros (t & Hc & Honly). erewrite (omap_singleton _ _ t be); [done|apply backend.Types_NoDup| | |].
    + apply backend.elem_of_Types. destruct Hc as [Hb _]. by exists be.
    + by apply candidate_spec.
    + intros t' _ [be' Hc'%candidate_spec]. by eapply Honly.
Qed.

Lemma find_fencer_perm (reg : backend.Registry T) want types1 types2 :
  types1 ≡ₚ types2 → find_fencer reg want types1 None = find_fencer reg want types2 None.
Proof.
  intros Hp. rewrite !find_fencer_result. simpl.
  assert (omap (candidate reg want) types1 ≡ₚ omap (candidate reg want) types2) as Ho by (by rewrite Hp).
  pose proof (Permutation_length Ho) as Hlen.
  destruct (omap _ types1) as [|b1 [|]], (omap _ types2) as [|b2 [|]]; try done.
  apply Permutation_singleton_inj in Ho. by subst.
Qed.

(** A fence request goes to a backend only when exactly one registered
    backend can fence (among those the parameters allow), to that one, with the
    instance the parameters name; and the choice, errors included, does not depend
    on the order Go ranges over the registry in. *)
Theorem fencer_is_the_only_candidate d params :
  (∀ (o : MapIter) fencer instance,
     resolveFencer d params = Ok (fencer, instance) ↔
       instance = fence_instance params ∧
       ∃ t be, FenceCandidate d params t be ∧ (∀ t' be', FenceCandidate d params t' be' → t' = t) ∧
               backend.as_NetworkFencer be = Some fencer) ∧
  (∀ o1 o2 : MapIter, @resolveFencer T o1 d params = @resolveFencer T o2 d params).
Proof.
  split.
  - intros o fencer instance. pose proof (find_fencer_unique o d params) as Hu.
    unfold resolveFencer, mbind, res_bind. cbv zeta. destruct (find_fencer _ _ _ None) as [[be|]|e]; split.
    + destruct (backend.as_NetworkFencer be) as [f|] eqn:Hf; [|done]. intros [= -> <-]. split; [done|].
      destruct (proj1 (Hu be) eq_refl) as (t & Hc & Honly). by exists t, be.
    + intros (-> & t & be' & Hc & Honly & Hf). pose proof (proj2 (Hu be') (ex_intro _ t (conj Hc Honly))) as Heq.
      injection Heq as ->. by rewrite Hf.
    + done.
    + intros (_ & t & be' & Hc & Honly & _). by pose proof (proj2 (Hu be') (ex_intro _ t (conj Hc Honly))).
    + done.
    + intros (_ & t & be' & Hc & Honly & _). by pose proof (proj2 (Hu be') (ex_intro _ t (conj Hc Honly))).
  - intros o1 o2. unfold resolveFencer. by rewrite (find_fencer_perm _ _ _ _ (backend.Types_perm o1 o2 _)).
Qed.

(** ** Capabilities *)

Lemma anyBackendCap_spec `{MapIter} d pred :
  anyBackendCap d pred = true ↔
  ∃ t be, backend.backends (registry (snapshot d)) !! t = Some be ∧ pred (backend.Caps be) = true.
Proof.
  unfold anyBackendCap. rewrite existsb_exists. split.
  - intros (t & _ & Hp). unfold backend.Get in Hp. destruct (backend.backends _ !! t) as [be|] eqn:Hb; [|done]. eauto.
  - intros (t & be & Hb & Hp). exists t. split.
    + apply list_elem_of_In, backend.elem_of_Types. by exists be.
    + unfold backend.Get. by rewrite Hb.
Qed.

(** Some registered backend has the capability. *)
Definition SomeBackend d (pred : backend.Capabilities → bool) : Prop :=
  ∃ t be, backend.backends (registry (snapshot d)) !! t = Some be ∧ pred (backend.Caps be) = true.

Lemma when_anyBackend `{MapIter} d pred {A} (l : list A) x :
  x ∈ when (anyBackendCap d pred) l ↔ SomeBackend d pred ∧ x ∈ l.
Proof.
  unfold SomeBackend. rewrite <-anyBackendCap_spec. unfold when.
  destruct (anyBackendCap d pred); [naive_solver|]. rewrite elem_of_nil. naive_solver.
Qed.
Lemma elem_of_when {A} (b : bool) (l : list A) x : x ∈ when b l ↔ b = true ∧ x ∈ l.
Proof. unfold when. destruct b; [naive_solver|]. rewrite elem_of_nil. naive_solver. Qed.

(** The csi-addons identity service advertises an operation exactly when the
    process runs in the mode that serves it and some registered backend can do it;
    the list has the same members under every iteration order. *)
Theorem addons_capabilities_exact `{MapIter} d :
  let caps := match (GetCapabilities d).2 with Ok l => l | Err _ => [] end in
  (NETWORK_FENCE ∈ caps ↔ Controller (d_mode d) = true ∧ SomeBackend d backend.CapNetworkFence) ∧
  (VOLUME_REPLICATION ∈ caps ↔ Controller (d_mode d) = true ∧ SomeBackend d backend.CapReplication) ∧
  (∀ c, VolumeGroupCapability c ∈ caps ↔ Controller (d_mode d) = true ∧ SomeBackend d backend.CapVolumeGroup) ∧
  (ENCRYPTIONKEYROTATION ∈ caps ↔ Node (d_mode d) = true ∧ SomeBackend d backend.CapEncryptionKeyRotation) ∧
  (OFFLINE ∈ caps ↔ Controller (d_mode d) = true) ∧ (ONLINE ∈ caps ↔ Node (d_mode d) = true).
Proof.
  cbn [GetCapabilities gets snd].
  split_and!; [| |intros []|..];
    rewrite elem_of_app, !elem_of_when, !elem_of_app, !when_anyBackend, !elem_of_cons, !elem_of_nil;
    naive_solver.
Qed.

(** An operation on a volume whose backend does not offer it is refused as
    Unimplemented before the backend is called: replication and key rotation. *)
Theorem unsupported_addon_refused d id volumeId src path params secrets h be :
  srcVolumeID volumeId src = id → Parse id = Ok h → backend.backends (registry (snapshot d)) !! hBackend h = Some be →
  (backend.CapReplication (backend.Caps be) = false →
     ∃ s, st_code s = codes.Unimplemented ∧
       EnableVolumeReplication volumeId src params secrets d = (d, Err s) ∧
       DisableVolumeReplication volumeId src params secrets d = (d, Err s) ∧
       (∀ force, PromoteVolume volumeId src force params secrets d = (d, Err s)) ∧
       (∀ force, DemoteVolume volumeId src force params secrets d = (d, Err s)) ∧
       (∀ force, ResyncVolume volumeId src force params secrets d = (d, Err s)) ∧
       GetVolumeReplicationInfo volumeId src secrets d = (d, Err s)) ∧
  (backend.CapEncryptionKeyRotation (backend.Caps be) = false →
     ∃ s, st_code s = codes.Unimplemented ∧ EncryptionKeyRotate id path params secrets d = (d, Err s)).
Proof.
  intros Hid Hp Hb.
  assert (volume_backend id d = (d, Ok (h, be))) as Hvb.
  { unfold volume_backend, required, guard_, parse_id, get_backend, get_from, gets, lift, mbind, M_bind.
    rewrite bool_decide_eq_false_2 by (by intros ->). cbn [negb]. rewrite Hp. cbn [map_err].
    unfold backend.Get. by rewrite Hb. }
  split; intros Hcap.
  - assert (replicator id d = (d, Err (unimplemented "backend %q does not support volume replication"))) as Hr.
    { unfold replicator, mbind, M_bind. rewrite Hvb. cbn [fst snd].
      destruct (backend.as_VolumeReplicator be); [|done]. unfold guard_. by rewrite Hcap. }
    exists (unimplemented "backend %q does not support volume replication"). split; [reflexivity|].
    unfold EnableVolumeReplication, DisableVolumeReplication, PromoteVolume, DemoteVolume, ResyncVolume,
      GetVolumeReplicationInfo, mbind, M_bind. rewrite Hid, Hr. done.
  - exists (unimplemented "backend %q does not support encryption key rotation").
    unfold EncryptionKeyRotate, mbind, M_bind. rewrite Hvb. cbn [fst snd].
    destruct (backend.as_EncryptionKeyRotator be); [|by split]. unfold guard_. rewrite Hcap. by split.
Qed.

(** ** Group members *)

Lemma parse_members_ok ids bt inst acc hs bt' inst' :
  parse_members ids bt inst acc = Ok (hs, bt', inst') →
  (bt = "" → acc = [] ∧ inst = "") →
  Forall (λ h, hBackend h = bt ∧ hInstance h = inst) acc →
  ∃ hs', hs = acc ++ hs' ∧ Forall2 (λ id h, Parse id = Ok h) ids hs' ∧
    Forall (λ h, hBackend h = bt' ∧ hInstance h = inst') hs ∧ (bt' = "" → hs = [] ∧ inst' = "").
Proof.
  revert bt inst acc. induction ids as [|id ids IH]; intros bt inst acc; simpl.
  { intros [= <- <- <-] Hbt Hacc. exists []. rewrite app_nil_r. split_and!; [done|constructor|done|done]. }
  destruct (Parse id) as [h|e] eqn:Hp; [|done]. intros Hm Hbt Hacc.
  assert (hBackend h ≠ "") as Hne by (by apply Parse_inv in Hp as [_ (? & _)%Validate_ok]).
  case_bool_decide as Hb.
  - destruct (Hbt Hb) as [-> ->]. apply IH in Hm as (hs' & -> & Hf2 & Hall & Hnil); [|done|by apply Forall_singleton].
    exists (h :: hs'). split_and!; [done|by constructor|done|done].
  - destruct (negb _ || negb _) eqn:Hc; [done|].
    apply orb_false_iff in Hc as [H1%negb_false_iff%bool_decide_eq_true H2%negb_false_iff%bool_decide_eq_true].
    apply IH in Hm as (hs' & -> & Hf2 & Hall & Hnil); [|done|apply Forall_app; by split; [|apply Forall_singleton]].
    exists (h :: hs'). rewrite <-app_assoc in *. split_and!; [done|by constructor|done|done].
Qed.

Lemma parse_members_complete ids bt inst acc hs :
  Forall2 (λ id h, Parse id = Ok h) ids hs → Forall (λ h, hBackend h = bt ∧ hInstance h = inst) hs → bt ≠ "" →
  parse_members ids bt inst acc = Ok (acc ++ hs, bt, inst).
Proof.
  intros Hf. revert acc. induction Hf as [|id h ids hs Hp Hf IH]; intros acc Hall Hbt; simpl.
  { by rewrite app_nil_r. }
  rewrite Hp. apply Forall_cons in Hall as [[<- <-] Hall]. rewrite bool_decide_eq_false_2 by done.
  rewrite !bool_decide_eq_true_2 by done. simpl. rewrite IH, <-app_assoc by done. done.
Qed.

(** [parseMembers] accepts a list of ids exactly when every id is a volume
    id and all of them are in one instance of one backend; it returns their handles
    in order, with that backend and instance. *)
Theorem parseMembers_exact ids hs bt inst :
  parseMembers ids = Ok (hs, bt, inst) ↔
    Forall2 (λ id h, Parse id = Ok h) ids hs ∧ Forall (λ h, hBackend h = bt ∧ hInstance h = inst) hs ∧
    (hs = [] → bt = "" ∧ inst = "").
Proof.
  unfold parseMembers. split.
  - intros Hm. pose proof Hm as Hm'. apply parse_members_ok in Hm as (hs' & -> & Hf & Hall & Hnil); [|done|constructor].
    split_and!; [done|done|]. simpl. intros ->. apply Forall2_nil_inv_r in Hf as ->. by injection Hm' as <- <-.
  - intros (Hf & Hall & Hnil). destruct Hf as [|id h ids hs Hp Hf]; [by destruct (Hnil eq_refl) as [-> ->]|].
    simpl. rewrite Hp. apply Forall_cons in Hall as [[<- <-] Hall].
    assert (hBackend h ≠ "") as Hne by (by apply Parse_inv in Hp as [_ (? & _)%Validate_ok]).
    by rewrite (parse_members_complete ids _ _ [h] hs).
Qed.

(** ** Effects *)

Lemma Frames_volume_backend id : Frames (T := T) (volume_backend id).
Proof. unfold volume_backend. frames. Qed.
Lemma Frames_replicator id : Frames (T := T) (replicator id).
Proof. unfold replicator. frames. Qed.
Lemma Frames_with_fencer `{MapIter} {A} params (f : backend.NetworkFencer T → string → Handler T A) :
  (∀ fencer i, Frames (f fencer i)) → Frames (with_fencer params f).
Proof.
  intros Hf d. unfold with_fencer. destruct (resolveFencer d params) as [[fencer i]|e]; [apply Hf|apply frame_refl].
Qed.
Lemma Frames_with_grouper `{MapIter} {A} bt (f : backend.VolumeGrouper T → Handler T A) :
  (∀ vg, Frames (f vg)) → Frames (with_grouper bt f).
Proof.
  intros Hf d. unfold with_grouper. destruct (groupBackend d bt) as [vg|e]; [apply Hf|apply frame_refl].
Qed.

(** The csi-addons handlers leave the driver's claims, configuration,
    registry and dispatcher as they found them, on every path. *)
Theorem addons_restore_driver `{MapIter} :
  (∀ v s, Frames (T := T) (ControllerReclaimSpace v s)) ∧
  (∀ v p st c s, Frames (T := T) (NodeReclaimSpace v p st c s)) ∧
  (∀ p s c, Frames (T := T) (FenceClusterNetwork p s c)) ∧
  (∀ p s c, Frames (T := T) (UnfenceClusterNetwork p s c)) ∧
  (∀ p s, Frames (T := T) (ListClusterFence p s)) ∧
  (∀ p s, Frames (T := T) (GetFenceClients p s)) ∧
  (∀ v src p s, Frames (T := T) (EnableVolumeReplication v src p s)) ∧
  (∀ v src p s, Frames (T := T) (DisableVolumeReplication v src p s)) ∧
  (∀ v src f p s, Frames (T := T) (PromoteVolume v src f p s)) ∧
  (∀ v src f p s, Frames (T := T) (DemoteVolume v src f p s)) ∧
  (∀ v src f p s, Frames (T := T) (ResyncVolume v src f p s)) ∧
  (∀ v src s, Frames (T := T) (GetVolumeReplicationInfo v src s)) ∧
  (∀ v pa p s, Frames (T := T) (EncryptionKeyRotate v pa p s)) ∧
  (∀ n vs p s, Frames (T := T) (CreateVolumeGroup n vs p s)) ∧
  (∀ g vs p s, Frames (T := T) (ModifyVolumeGroupMembership g vs p s)) ∧
  (∀ g s, Frames (T := T) (DeleteVolumeGroup g s)) ∧
  (∀ g s, Frames (T := T) (ControllerGetVolumeGroup g s)) ∧
  (∀ s t n, Frames (T := T) (ListVolumeGroups s t n)).
Proof.
  unfold DeleteVolumeGroup. split_and!; intros;
    repeat first [apply Frames_with_fencer; intros | apply Frames_with_grouper; intros
                 | apply Frames_volume_backend | apply Frames_replicator | progress frames].
Qed.
End choice.

(** ** Examples: one plugin that manages groups, with a log of its requests *)
Definition ex_log_transport : plugin.Transport (list (string * json)) := λ path j log,
  (log ++ [(path, j)], (ms, plugin.Resp 200 (Some controller.ex_answer))).
Definition ex_group_caps : backend.Capabilities :=
  backend.mkCapabilities false false false false true true false false false false true false false false false true.
Definition ex_group_backend : backend.Backend (list (string * json)) :=
  @plugin.client_backend _ ex_log_transport (plugin.mkClient "nfs" ex_group_caps).
Definition ex_group_driver : Driver (list (string * json)) :=
  NewDriver (mkOptions _ "v1" "node-1" "" "" (mkMode true false)
    (default backend.NewRegistry (backend.Register backend.NewRegistry ex_group_backend)) ex_disp 0)
    (mkWorld newCollector []).

(** A group's membership is compared with the group's instance, not with its
    backend: a volume of another backend whose instance has the same name is sent
    to the group's plugin, as if it were a volume of that plugin. *)
Example foreign_member_reaches_plugin :
  (λ p : Driver _ * res status _, (w_env (d_world p.1), is_Ok p.2))
    (ModifyVolumeGroupMembership "swsk|1|nfs|main||grp" ["swsk|1|lvm|main|vg0|vol-1"] ∅ ∅ ex_group_driver) =
  ([("/volumegroup/modify",
     JObj [("group", JObj [("instance", JStr "main"); ("name", JStr "grp")]);
           ("volumes", JArr [JObj [("instance", JStr "main"); ("location", JStr "vg0"); ("name", JStr "vol-1")]])])],
   true).
Proof. vm_compute. reflexivity. Qed.

Lemma unsupported_addon_refused_witness :
  ∃ s, st_code s = codes.Unimplemented ∧
    EnableVolumeReplication "swsk|1|nfs|main||vol-1" "" ∅ ∅ ex_group_driver = (ex_group_driver, Err s).
Proof.
  destruct (unsupported_addon_refused ex_group_driver "swsk|1|nfs|main||vol-1" "swsk|1|nfs|main||vol-1" "" "" ∅ ∅
    (mkHandle "nfs" "main" "" "vol-1") ex_group_backend) as [Hr _]; [reflexivity|reflexivity|reflexivity|].
  destruct (Hr eq_refl) as (s & Hs & He & _). exists s. split; [exact Hs|exact He].
Defined.
End addons.
