(* ===== verification/Wiring.v ===== *)
(** * Start-up and live reload (cmd/bard-csi/main.go)

    [build] makes a registry and a dispatcher out of a configuration by dialling
    every plugin, [reload] is the callback of the configuration watch, and
    [start] is what [main] hands the driver.  [connect] gives the transport of a
    plugin socket; [wait] is the clock of [Dial].  Flag parsing and signal handling
    are not modelled, the servers [main] starts are in Process.v. *)
From Stdlib Require Import Ascii.
From S2P Require Import Prelude GoStrings GoErrors VolumeID Dispatch Config Metrics Backend Json Protocol Server Client Inflight Driver Controller.

Module wiring.

(** [splitAndTrim], [envOr], [envInt]; the environment as a map. *)
Definition splitAndTrim (s : string) : list string :=
  filter (λ p, p ≠ "") (map trim_space (split_on "," s)).
Definition envOr (env : strmap) (key def : string) : string :=
  if bool_decide (mget env key = "") then def else mget env key.
Definition envInt (env : strmap) (key : string) (def : Z) : Z :=
  if bool_decide (mget env key = "") then def
  else match Atoi (mget env key) with Some n => n | None => def end.

Section wiring.
  Context {T : Type} `{MapIter}.
  Context (connect : string → plugin.Transport T) (wait : nat → plugin.waited).
  Implicit Types (w : World T) (d : Driver T).

(** The zones of a backend's instances. *)
Definition zones_of_backend (bc : BackendConfig) : gmap string string := Zone <$> bcInstances bc.

(** One iteration of [build]'s loop; [None] is out of fuel in [Dial]. *)
Definition dial_backend (bt : string) (bc : BackendConfig) w : option (World T * res error (backend.Backend T)) :=
  match Plugin bc with
  | None => Some (w, Err (plain_error "backend %q has no plugin endpoint"))
  | Some p =>
      let tr := connect (Endpoint p) in
      match @plugin.Dial T tr wait bt w with
      | None => None
      | Some (w', Err e) => Some (w', Err (mkError (err_chain e) "backend %q plugin: %w"))
      | Some (w', Ok c) => Some (w', Ok (@plugin.client_backend T tr c))
      end
  end.

(** The loop over the configured backends, with the registry and the dispatch
    configuration built so far.  [Register] panics on a type that is already
    there: the second [None]. *)
Fixpoint build_loop (entries : list (string * BackendConfig)) (reg : backend.Registry T)
    (instances : gmap string (gmap string string)) w
    : option (World T * res error (backend.Registry T * gmap string (gmap string string))) :=
  match entries with
  | [] => Some (w, Ok (reg, instances))
  | (bt, bc) :: rest =>
      let instances := <[bt := zones_of_backend bc]> instances in
      match dial_backend bt bc w with
      | None => None
      | Some (w', Err e) => Some (w', Err e)
      | Some (w', Ok be) =>
          match backend.Register reg be with
          | None => None
          | Some reg' => build_loop rest reg' instances w'
          end
      end
  end.

(** [build]. *)
Definition build (cfg : Config) w : option (World T * res error (backends T)) :=
  match build_loop (range (Backends cfg)) backend.NewRegistry ∅ w with
  | None => None
  | Some (w', Err e) => Some (w', Err e)
  | Some (w', Ok (reg, instances)) =>
      Some (w', dp ← New (mkDispatchConfig instances (cfgDefaults cfg)); Ok (mkBackends reg dp))
  end.

(** The watch's callback: a configuration that cannot be built is dropped. *)
Definition reload (cfg : Config) d : option (Driver T) :=
  match build cfg (d_world d) with
  | None => None
  | Some (w', Err _) => Some (set_world w' d)
  | Some (w', Ok bk) => Some (SetBackends (registry bk) (disp bk) (set_world w' d))
  end.

(** The driver [main] starts, from a configuration that was loaded. *)
Definition start (version nodeID zone crush : string) (m : Mode) (maxVolumes : Z) (cfg : Config) w
    : option (res error (Driver T)) :=
  match build cfg w with
  | None => None
  | Some (_, Err e) => Some (Err (mkError (err_chain e) "build driver: %v"))
  | Some (w', Ok bk) =>
      Some (Ok (NewDriver (mkOptions T version nodeID zone crush m (registry bk) (disp bk) maxVolumes) w'))
  end.

(** ** Properties *)

(** The dispatch configuration of a configuration. *)
Definition dispatch_config (cfg : Config) : DispatchConfig :=
  mkDispatchConfig (zones_of_backend <$> Backends cfg) (cfgDefaults cfg).

(** Every clock is sane. *)
Definition sane_clocks : Prop := ∀ ep, @plugin.sane_clock T (connect ep) wait.

Lemma dial_backend_returns bt bc w : sane_clocks → is_Some (dial_backend bt bc w).
Proof.
  intros Hs. unfold dial_backend. destruct (Plugin bc) as [p|]; [|by eexists].
  pose proof (@plugin.dial_loop_returns T (connect (Endpoint p)) wait 31 bt (Hs _) 0 zero 0 w) as Hd.
  unfold plugin.Dial, plugin.dial_fuel.
  destruct Hd as [[w' [i|e]] ->]; [vm_compute; reflexivity| |by eexists].
  destruct (plugin.admit_plugin bt i); by eexists.
Qed.

Lemma admit_plugin_type bt info c : plugin.admit_plugin bt info = Ok c → plugin.backendType c = bt.
Proof.
  unfold plugin.admit_plugin. destruct (bardplugin.ParseContractVersion _) as [[? ?]|]; [|done].
  repeat case_bool_decide; try done. by intros [= <-].
Qed.

Lemma dial_backend_ok bt bc w w' be :
  dial_backend bt bc w = Some (w', Ok be) → backend.Type_ be = bt ∧ backend.BackendLaws be.
Proof.
  unfold dial_backend. destruct (Plugin bc) as [p|]; [|done].
  destruct (@plugin.Dial _ (connect (Endpoint p)) wait bt w) as [[w1 [c|e]]|] eqn:Hd; try done.
  intros [= <- <-]. split; [|apply plugin.client_laws]. simpl. revert Hd.
  unfold plugin.Dial. destruct (plugin.dial_loop _ _ _ _ _ _ _) as [[w2 [i|e]]|]; try done.
  intros [= _ Hc]. by eapply admit_plugin_type.
Qed.

(** What the loop has built after the entries [done_]. *)
Definition Built (done_ : list (string * BackendConfig)) (reg : backend.Registry T)
    (instances : gmap string (gmap string string)) : Prop :=
  backend.RegistryOk reg ∧
  (∀ bt, is_Some (backend.backends reg !! bt) ↔ bt ∈ done_.*1) ∧
  instances = zones_of_backend <$> (list_to_map (reverse done_) : gmap string BackendConfig).

Lemma Built_nil : Built [] backend.NewRegistry ∅.
Proof.
  split_and!; [apply backend.RegistryOk_New| |done]. intros bt. rewrite elem_of_nil.
  cbn [backend.NewRegistry backend.backends]. rewrite lookup_empty. by split; [intros []|].
Qed.

Lemma Built_snoc done_ reg instances bt bc be reg' :
  Built done_ reg instances → backend.Type_ be = bt → backend.BackendLaws be →
  backend.Register reg be = Some reg' →
  Built (done_ ++ [(bt, bc)]) reg' (<[bt := zones_of_backend bc]> instances).
Proof.
  intros (Hok & Hdom & ->) Hty Hlaws Hreg. split_and!.
  - by eapply backend.RegistryOk_Register.
  - intros t. revert Hreg. unfold backend.Register. destruct (backend.backends reg !! backend.Type_ be); [done|].
    intros [= <-]. cbn [backend.backends]. rewrite lookup_insert_is_Some, Hdom, fmap_app, elem_of_app.
    cbn. rewrite list_elem_of_singleton, Hty. destruct (decide (bt = t)); naive_solver.
  - rewrite reverse_app. cbn. by rewrite fmap_insert.
Qed.

Lemma build_loop_ok entries done_ reg instances w :
  sane_clocks → Built done_ reg instances → NoDup (done_ ++ entries).*1 →
  ∃ w' r, build_loop entries reg instances w = Some (w', r) ∧
    ∀ reg' instances', r = Ok (reg', instances') → Built (done_ ++ entries) reg' instances'.
Proof.
  intros Hs. revert done_ reg instances w. induction entries as [|[bt bc] entries IH];
    intros done_ reg instances w Hb Hnd; cbn [build_loop].
  { exists w, (Ok (reg, instances)). split; [done|]. intros reg' i' [= <- <-]. by rewrite app_nil_r. }
  destruct (dial_backend_returns bt bc w Hs) as [[w1 [be|e]] Hd]; rewrite Hd; [|by eexists _, _].
  destruct (dial_backend_ok bt bc w w1 be Hd) as [Hty Hlaws].
  destruct (backend.Register reg be) as [reg1|] eqn:Hreg.
  - destruct (IH (done_ ++ [(bt, bc)]) reg1 (<[bt := zones_of_backend bc]> instances) w1) as (w' & r & Hl & Hr).
    + by eapply Built_snoc.
    + by rewrite <-app_assoc.
    + rewrite Hl. exists w', r. split; [done|]. intros reg' i' Hok. apply Hr in Hok. by rewrite <-app_assoc in Hok.
  - exfalso. revert Hreg. unfold backend.Register. rewrite Hty. destruct Hb as (_ & Hdom & _).
    destruct (backend.backends reg !! bt) as [b|] eqn:Hl; [|done]. intros _.
    rewrite fmap_app in Hnd. apply NoDup_app in Hnd as (_ & Hdis & _). apply (Hdis bt).
    + apply Hdom. by exists b.
    + apply list_elem_of_here.
Qed.

Lemma build_spec cfg w :
  sane_clocks →
  ∃ w' r, build cfg w = Some (w', r) ∧
    ∀ bk, r = Ok bk →
      backend.RegistryOk (registry bk) ∧ New (dispatch_config cfg) = Ok (disp bk) ∧
      ∀ bt, is_Some (backend.backends (registry bk) !! bt) ↔ is_Some (Backends cfg !! bt).
Proof.
  intros Hs. unfold build.
  destruct (build_loop_ok (range (Backends cfg)) [] backend.NewRegistry ∅ w Hs Built_nil (range_NoDup_fst _))
    as (w' & r & -> & Hr).
  destruct r as [[reg instances]|e]; [|by eexists _, _].
  destruct (Hr reg instances eq_refl) as (Hok & Hdom & ->). clear Hr.
  assert ((list_to_map (reverse (range (Backends cfg))) : gmap string BackendConfig) = Backends cfg) as Hmap.
  { etrans; [|apply range_to_map]. apply list_to_map_proper.
    - rewrite fmap_reverse, reverse_Permutation. apply range_NoDup_fst.
    - apply reverse_Permutation. }
  cbn [app] in *. rewrite Hmap. eexists _, _. split; [done|]. intros bk. fold (dispatch_config cfg).
  unfold mbind, res_bind. destruct (New (dispatch_config cfg)) as [dp|e]; [|done]. intros [= <-].
  split_and!; [done|done|]. intros bt. rewrite Hdom, list_elem_of_fmap. split.
  - intros ([t b] & -> & Hin%elem_of_range). by exists b.
  - intros [b Hb]. exists (bt, b). split; [done|]. by apply elem_of_range.
Qed.

(** [build] returns and never panics, and when it succeeds the registry
    holds exactly the configured backend types, each a backend that keeps its
    promises under its own type, and the dispatcher is that of the configuration's
    zones and defaults. *)
Theorem build_wires_config cfg w :
  sane_clocks →
  ∃ w' r, build cfg w = Some (w', r) ∧
    ∀ bk, r = Ok bk →
      (∀ bt, is_Some (backend.backends (registry bk) !! bt) ↔ is_Some (Backends cfg !! bt)) ∧
      (∀ bt be, backend.backends (registry bk) !! bt = Some be → backend.Type_ be = bt ∧ backend.BackendLaws be) ∧
      New (dispatch_config cfg) = Ok (disp bk).
Proof.
  intros Hs. destruct (build_spec cfg w Hs) as (w' & r & Hb & Hr). exists w', r. split; [done|].
  intros bk Hok. destruct (Hr bk Hok) as (H1 & H2 & H3). split_and!; [done|exact H1|done].
Qed.

Fixpoint reloads (cfgs : list Config) d : option (Driver T) :=
  match cfgs with
  | [] => Some d
  | cfg :: cfgs => match reload cfg d with Some d' => reloads cfgs d' | None => None end
  end.

Lemma reload_spec cfg d :
  sane_clocks →
  ∃ d', reload cfg d = Some d' ∧ d_ops d' = d_ops d ∧
    ((d_state d' = d_state d) ∨ DriverOk (dispatch_config cfg) d').
Proof.
  intros Hs. unfold reload. destruct (build_spec cfg (d_world d) Hs) as (w' & r & -> & Hr).
  destruct r as [bk|e].
  - eexists. split; [done|]. split; [done|]. right. destruct (Hr bk eq_refl) as (H1 & H2 & _). by split.
  - eexists. split; [done|]. split; [done|]. by left.
Qed.

End wiring.

(** ** Examples: every socket is answered by the example plugin *)
Definition ex_connect (ep : string) : plugin.Transport (list string) := controller.ex_transport.
Definition ex_wait (k : nat) : plugin.waited := plugin.Timer plugin.second.
Definition ex_config : Config :=
  mkConfig {["nfs" := mkBackendConfig (Some (mkPluginConfig "/plugins/nfs.sock")) {["main" := mkInstanceConfig "zone-e"]}]} ∅.
(** A configuration with a backend that has no plugin. *)
Definition ex_bad_config : Config := mkConfig {["lvm" := mkBackendConfig None ∅]} ∅.

Lemma ex_sane_clocks : sane_clocks ex_connect ex_wait.
Proof. intros ep. split; [by intros path j env|]. by intros k d [= <-]. Qed.

Definition built_ok (o : option (World (list string) * res error (backends (list string)))) : bool :=
  match o with Some (_, Ok _) => true | _ => false end.

Lemma build_wires_config_witness :
  ∃ w' bk, build ex_connect ex_wait ex_config controller.ex_world = Some (w', Ok bk) ∧
    is_Some (backend.backends (registry bk) !! "nfs").
Proof.
  destruct (build_wires_config ex_connect ex_wait ex_config controller.ex_world ex_sane_clocks) as (w' & r & Hb & Hr).
  assert (built_ok (build ex_connect ex_wait ex_config controller.ex_world) = true) as Hok by (vm_compute; reflexivity).
  rewrite Hb in Hok. destruct r as [bk|e]; [|discriminate Hok].
  destruct (Hr bk eq_refl) as (Hdom & _). exists w', bk. split; [exact Hb|]. apply Hdom. eexists. reflexivity.
Defined.

End wiring.
