(* ===== verification/Sha256.v ===== *)
(** * SHA-256 and hex encoding, as the plugins derive object names with them

    The plugins name what they create after a hash of the CSI name (the first
    eight bytes of its SHA-256, in hex), so that a retry finds what the first
    attempt made and the volume id stays short.  [sha256.Sum256] is written out
    (FIPS 180-4), and [hex.EncodeToString] with it; words are [Z] below 2^32. *)
From Stdlib Require Import Ascii.
From S2P Require Import Prelude GoStrings.

Module sha256.
Local Open Scope Z_scope.

Definition w32 (x : Z) : Z := Z.land x 4294967295.
Definition add32 (x y : Z) : Z := w32 (x + y).
Definition rotr (n x : Z) : Z := Z.lor (Z.shiftr x n) (w32 (Z.shiftl x (32 - n))).

Definition ch (x y z : Z) : Z := Z.lxor (Z.land x y) (Z.land (w32 (Z.lnot x)) z).
Definition maj (x y z : Z) : Z := Z.lxor (Z.lxor (Z.land x y) (Z.land x z)) (Z.land y z).
Definition bsig0 (x : Z) : Z := Z.lxor (Z.lxor (rotr 2 x) (rotr 13 x)) (rotr 22 x).
Definition bsig1 (x : Z) : Z := Z.lxor (Z.lxor (rotr 6 x) (rotr 11 x)) (rotr 25 x).
Definition ssig0 (x : Z) : Z := Z.lxor (Z.lxor (rotr 7 x) (rotr 18 x)) (Z.shiftr x 3).
Definition ssig1 (x : Z) : Z := Z.lxor (Z.lxor (rotr 17 x) (rotr 19 x)) (Z.shiftr x 10).

(** The round constants and the initial hash value: the first 32 bits of the
    fractional parts of the cube roots of the first 64 primes, and of the square
    roots of the first eight. *)
Definition primes : list Z := filter (λ n, forallb (λ d, negb (n mod Z.of_nat d =? 0)) (seq 2 (Z.to_nat n - 2)) = true)
  (map Z.of_nat (seq 2 310)).
(** The largest number below [acc + 2^k] whose cube is at most [x]. *)
Fixpoint cube_root (k : nat) (acc x : Z) : Z :=
  match k with
  | O => acc
  | S k => let y := acc + 2 ^ Z.of_nat k in cube_root k (if y * y * y <=? x then y else acc) x
  end.
Definition K : list Z := Eval vm_compute in map (λ p, w32 (cube_root 40 0 (p * 2 ^ 96))) primes.
Record state := mkState { sa : Z; sb : Z; sc : Z; sd : Z; se : Z; sf : Z; sg : Z; sh : Z }.
Definition H0 : state := Eval vm_compute in
  let r p := w32 (Z.sqrt (p * 2 ^ 64)) in
  mkState (r 2) (r 3) (r 5) (r 7) (r 11) (r 13) (r 17) (r 19).

(** The message schedule, newest word first; each step appends one word. *)
Definition schedule_step (rev : list Z) : list Z :=
  match rev !! 1%nat, rev !! 6%nat, rev !! 14%nat, rev !! 15%nat with
  | Some w2, Some w7, Some w15, Some w16 =>
      add32 (add32 (ssig1 w2) w7) (add32 (ssig0 w15) w16) :: rev
  | _, _, _, _ => rev
  end.
Definition schedule (block : list Z) : list Z := reverse (Nat.iter 48 schedule_step (reverse block)).

Definition round (s : state) (kw : Z * Z) : state :=
  let t1 := add32 (add32 (add32 (sh s) (bsig1 (se s))) (ch (se s) (sf s) (sg s))) (add32 kw.1 kw.2) in
  let t2 := add32 (bsig0 (sa s)) (maj (sa s) (sb s) (sc s)) in
  mkState (add32 t1 t2) (sa s) (sb s) (sc s) (add32 (sd s) t1) (se s) (sf s) (sg s).
Definition compress (s : state) (block : list Z) : state :=
  let r := foldl round s (zip K (schedule block)) in
  mkState (add32 (sa s) (sa r)) (add32 (sb s) (sb r)) (add32 (sc s) (sc r)) (add32 (sd s) (sd r))
    (add32 (se s) (se r)) (add32 (sf s) (sf r)) (add32 (sg s) (sg r)) (add32 (sh s) (sh r)).

(** Padding and cutting into blocks of sixteen big-endian words. *)
Fixpoint bytes_of (s : string) : list Z :=
  match s with EmptyString => [] | String a s' => Z.of_nat (nat_of_ascii a) :: bytes_of s' end.
Definition be_bytes (n : nat) (x : Z) : list Z :=
  map (λ i, Z.land (Z.shiftr x (8 * Z.of_nat i)) 255) (reverse (seq 0 n)).
Definition pad (bs : list Z) : list Z :=
  let n := length bs in
  bs ++ 0x80 :: replicate ((119 - n mod 64) mod 64)%nat 0 ++ be_bytes 8 (8 * Z.of_nat n).
Fixpoint words (bs : list Z) : list Z :=
  match bs with
  | a :: b :: c :: d :: rest =>
      Z.lor (Z.shiftl a 24) (Z.lor (Z.shiftl b 16) (Z.lor (Z.shiftl c 8) d)) :: words rest
  | _ => []
  end.
Fixpoint blocks (fuel : nat) (ws : list Z) : list (list Z) :=
  match fuel, ws with
  | S fuel, _ :: _ => take 16 ws :: blocks fuel (drop 16 ws)
  | _, _ => []
  end.

(** [sha256.Sum256]: the 32 bytes of the digest. *)
Definition sum_bytes (bs : list Z) : list Z :=
  let ws := words (pad bs) in
  let r := foldl compress H0 (blocks (length ws) ws) in
  concat (map (be_bytes 4) [sa r; sb r; sc r; sd r; se r; sf r; sg r; sh r]).
Definition Sum256 (s : string) : list Z := sum_bytes (bytes_of s).

(** [hex.EncodeToString]. *)
Definition hex_digit (d : Z) : ascii :=
  default "0"%char (String.get (Z.to_nat d) "0123456789abcdef").
Fixpoint hex (bs : list Z) : string :=
  match bs with
  | [] => ""
  | b :: bs => String (hex_digit (Z.shiftr b 4)) (String (hex_digit (Z.land b 15)) (hex bs))
  end.

(** The name suffix every plugin uses: [hex.EncodeToString(sum[:8])]. *)
Definition short_hash (s : string) : string := hex (take 8 (Sum256 s)).

(** The published test vectors. *)
Example sum_empty : hex (Sum256 "") = "e3b0c44298fc1c149afbf4c8996fb92427ae41e4649b934ca495991b7852b855".
Proof. vm_compute. reflexivity. Qed.
Example sum_abc : hex (Sum256 "abc") = "ba7816bf8f01cfea414140de5dae2223b00361a396177a9cb410ff61f20015ad".
Proof. vm_compute. reflexivity. Qed.
Example sum_two_blocks :
  hex (Sum256 "abcdbcdecdefdefgefghfghighijhijkijkljklmklmnlmnomnopnopq") =
  "248d6a61d20638b8e5c026930c3e6039a33ce45964ff2167f6ecedd419db06c1".
Proof. vm_compute. reflexivity. Qed.

(** ** The shape of a derived name *)
Definition is_hex (a : ascii) : bool := contains_char a "0123456789abcdef".

Lemma hex_digit_hex d : is_hex (hex_digit d) = true.
Proof.
  unfold hex_digit. generalize (Z.to_nat d) as n. intros n.
  destruct (decide (n < 16)%nat) as [Hn|Hn].
  - do 16 (destruct n as [|n]; [reflexivity|]). lia.
  - do 16 (destruct n as [|n]; [lia|]). simpl. by destruct n.
Qed.

Lemma hex_chars bs : all_chars is_hex (hex bs) = true.
Proof. induction bs as [|b bs IH]; simpl; [done|]. by rewrite !hex_digit_hex. Qed.
Lemma hex_length bs : String.length (hex bs) = (2 * length bs)%nat.
Proof. induction bs as [|b bs IH]; simpl; [done|]. rewrite IH. lia. Qed.

Lemma be_bytes_length n x : length (be_bytes n x) = n.
Proof. unfold be_bytes. by rewrite length_map, length_reverse, length_seq. Qed.
Lemma sum_bytes_length bs : length (sum_bytes bs) = 32%nat.
Proof. unfold sum_bytes. cbn [map concat]. by rewrite !length_app, !be_bytes_length. Qed.
Lemma Sum256_length s : length (Sum256 s) = 32%nat.
Proof. apply sum_bytes_length. Qed.

(** A derived suffix is sixteen hex digits, whatever the name. *)
Lemma short_hash_length s : String.length (short_hash s) = 16%nat.
Proof. unfold short_hash. rewrite hex_length, length_take, Sum256_length. reflexivity. Qed.
Lemma short_hash_chars s : all_chars is_hex (short_hash s) = true.
Proof. apply hex_chars. Qed.
Lemma short_hash_free s c : is_hex c = false → contains_char c (short_hash s) = false.
Proof. intros Hc. eapply all_chars_free; [exact Hc|apply short_hash_chars]. Qed.
End sha256.
