(* ===== verification/Sha1.v ===== *)
(** * SHA-1, as crypto/sha1 computes it

    On the padding, words and hexadecimal of [Sha256]; the plugins name lock files with it. *)
From S2P Require Import Prelude Sha256.
#[local] Open Scope Z_scope.

Module sha1.
Import sha256.

Definition rotl (n x : Z) : Z := Z.lor (w32 (Z.shiftl x n)) (Z.shiftr x (32 - n)).
Record state := mkState { a_ : Z; b_ : Z; c_ : Z; d_ : Z; e_ : Z }.
Definition H0 : state := mkState 0x67452301 0xEFCDAB89 0x98BADCFE 0x10325476 0xC3D2E1F0.

(** The eighty words of a block, the last first. *)
Definition schedule_step (rev : list Z) : list Z :=
  let w i := default 0 (rev !! i) in
  rotl 1 (Z.lxor (Z.lxor (w 2%nat) (w 7%nat)) (Z.lxor (w 13%nat) (w 15%nat))) :: rev.
Definition schedule (block : list Z) : list Z := reverse (Nat.iter 64 schedule_step (reverse block)).

Definition f (t : nat) (x y z : Z) : Z :=
  if (t <? 20)%nat then ch x y z else if (t <? 40)%nat then Z.lxor (Z.lxor x y) z
  else if (t <? 60)%nat then maj x y z else Z.lxor (Z.lxor x y) z.
Definition K (t : nat) : Z :=
  if (t <? 20)%nat then 0x5A827999 else if (t <? 40)%nat then 0x6ED9EBA1
  else if (t <? 60)%nat then 0x8F1BBCDC else 0xCA62C1D6.
Definition round (s : state) (tw : nat * Z) : state :=
  mkState
    (add32 (add32 (add32 (add32 (rotl 5 (a_ s)) (f tw.1 (b_ s) (c_ s) (d_ s))) (e_ s)) (K tw.1)) tw.2)
    (a_ s) (rotl 30 (b_ s)) (c_ s) (d_ s).
Definition compress (s : state) (block : list Z) : state :=
  let r := foldl round s (zip (seq 0 80) (schedule block)) in
  mkState (add32 (a_ s) (a_ r)) (add32 (b_ s) (b_ r)) (add32 (c_ s) (c_ r)) (add32 (d_ s) (d_ r)) (add32 (e_ s) (e_ r)).

(** [sha1.Sum]: the twenty bytes of the digest. *)
Definition Sum (s : string) : list Z :=
  let ws := words (pad (bytes_of s)) in
  let r := foldl compress H0 (blocks (length ws) ws) in
  concat (map (be_bytes 4) [a_ r; b_ r; c_ r; d_ r; e_ r]).

(** The published test vectors. *)
Example sha1_empty : hex (Sum "") = "da39a3ee5e6b4b0d3255bfef95601890afd80709".
Proof. vm_compute. reflexivity. Qed.
Example sha1_abc : hex (Sum "abc") = "a9993e364706816aba3e25717850c26c9cd0d89d".
Proof. vm_compute. reflexivity. Qed.
Example sha1_two_blocks :
  hex (Sum "abcdbcdecdefdefgefghfghighijhijkijkljklmklmnlmnomnopnopq") = "84983e441c3bd26ebaae4aa1f95129e5e54670f1".
Proof. vm_compute. reflexivity. Qed.
End sha1.
