(* ===== verification/GoCrypto.v ===== *)
(** * The cryptography of Go's standard library that the key providers use

    HMAC and HKDF over SHA-256, hexadecimal and base64 decoding, and AES-256 in
    Galois/counter mode without additional data, all executable, with published test
    vectors.  Bytes are [Z] below 256; secrets and random bytes are Go strings.  What
    the providers rely on is that [Open] undoes [Seal]. *)
From Stdlib Require Import Ascii.
From S2P Require Import Prelude GoStrings Sha256.

Module crypto.
Import sha256.
#[local] Open Scope Z_scope.

Definition byte (x : Z) : Z := Z.land x 255.
Fixpoint string_of (bs : list Z) : string :=
  match bs with [] => "" | b :: bs => String (ascii_of_nat (Z.to_nat b)) (string_of bs) end.
Definition is_byte (x : Z) : Prop := 0 ≤ x < 256.
(** The byte at a position, 0 past the end. *)
Definition at_ (bs : list Z) (i : nat) : Z := default 0 (bs !! i).

(** ** HMAC-SHA-256 and HKDF *)
Definition xor_pad (c : Z) (key : list Z) : list Z :=
  map (λ i, Z.lxor (at_ key i) c) (seq 0 64).
Definition hmacSHA256 (key data : list Z) : list Z :=
  let k := if bool_decide (64 < length key)%nat then sum_bytes key else key in
  sum_bytes (xor_pad 0x5c k ++ sum_bytes (xor_pad 0x36 k ++ data)).
Fixpoint hkdf_blocks (n : nat) (i : Z) (prk prev info : list Z) : list Z :=
  match n with
  | O => []
  | S n => let t := hmacSHA256 prk (prev ++ info ++ [i]) in t ++ hkdf_blocks n (i + 1) prk t info
  end.
(** [hkdf.Key(sha256.New, secret, nil, info, n)] for [n] at most 255 blocks. *)
Definition hkdf_Key (secret : list Z) (info : string) (n : nat) : list Z :=
  take n (hkdf_blocks (S (n / 32)) 1 (hmacSHA256 [] secret) [] (bytes_of info)).

(** ** [hex.DecodeString] *)
Definition hex_val (a : ascii) : option Z :=
  let n := Z.of_nat (nat_of_ascii a) in
  if (48 <=? n) && (n <=? 57) then Some (n - 48)
  else if (97 <=? n) && (n <=? 102) then Some (n - 87)
  else if (65 <=? n) && (n <=? 70) then Some (n - 55)
  else None.
Fixpoint unhex (s : string) : option (list Z) :=
  match s with
  | EmptyString => Some []
  | String a (String b s) =>
      match hex_val a, hex_val b, unhex s with
      | Some x, Some y, Some bs => Some (16 * x + y :: bs)
      | _, _, _ => None
      end
  | String _ EmptyString => None
  end.

(** ** [base64.StdEncoding.DecodeString]

    Line ends are skipped; groups of four characters, the last one padded. *)
Definition b64_val (a : ascii) : option Z :=
  let n := Z.of_nat (nat_of_ascii a) in
  if (65 <=? n) && (n <=? 90) then Some (n - 65)
  else if (97 <=? n) && (n <=? 122) then Some (n - 71)
  else if (48 <=? n) && (n <=? 57) then Some (n + 4)
  else if n =? 43 then Some 62 else if n =? 47 then Some 63 else None.
Fixpoint b64_clean (s : string) : string :=
  match s with
  | EmptyString => ""
  | String a s => if (Nat.eqb (nat_of_ascii a) 10) || (Nat.eqb (nat_of_ascii a) 13) then b64_clean s else String a (b64_clean s)
  end.
Definition b64_group (n : nat) (w x y z : Z) : list Z :=
  let v := Z.lor (Z.shiftl w 18) (Z.lor (Z.shiftl x 12) (Z.lor (Z.shiftl y 6) z)) in take n (be_bytes 3 v).
Fixpoint b64_groups (s : string) : option (list Z) :=
  match s with
  | EmptyString => Some []
  | String a (String b (String c (String d s))) =>
      match b64_val a, b64_val b, b64_val c, b64_val d with
      | Some w, Some x, Some y, Some z =>
          match b64_groups s with Some bs => Some (b64_group 3 w x y z ++ bs) | None => None end
      | Some w, Some x, Some y, None =>
          if bool_decide (String d s = "=") then Some (b64_group 2 w x y 0) else None
      | Some w, Some x, None, None =>
          if bool_decide (String c (String d s) = "==") then Some (b64_group 1 w x 0 0) else None
      | _, _, _, _ => None
      end
  | _ => None
  end.
Definition base64_decode (s : string) : option (list Z) := b64_groups (b64_clean s).
(** [base64.StdEncoding.EncodeToString]. *)
Definition b64_char (v : Z) : ascii :=
  default "="%char (String.get (Z.to_nat v) "ABCDEFGHIJKLMNOPQRSTUVWXYZabcdefghijklmnopqrstuvwxyz0123456789+/").
Definition b64_1 (a : Z) : ascii := b64_char (Z.shiftr a 2).
Definition b64_2 (a b : Z) : ascii := b64_char (Z.lor (Z.shiftl (Z.land a 3) 4) (Z.shiftr b 4)).
Definition b64_3 (b c : Z) : ascii := b64_char (Z.lor (Z.shiftl (Z.land b 15) 2) (Z.shiftr c 6)).
Definition b64_4 (c : Z) : ascii := b64_char (Z.land c 63).
Fixpoint base64_encode (bs : list Z) : string :=
  match bs with
  | a :: b :: c :: rest =>
      String (b64_1 a) (String (b64_2 a b) (String (b64_3 b c) (String (b64_4 c) (base64_encode rest))))
  | [a; b] => String (b64_1 a) (String (b64_2 a b) (String (b64_3 b 0) "="))
  | [a] => String (b64_1 a) (String (b64_2 a 0) "==")
  | [] => ""
  end.
Example base64_encode_ex :
  map (λ s, base64_encode (bytes_of s)) ["foobar"; "fooba"; "foob"; "user:pass"; ""] =
  ["Zm9vYmFy"; "Zm9vYmE="; "Zm9vYg=="; "dXNlcjpwYXNz"; ""].
Proof. vm_compute. reflexivity. Qed.
Example base64_ex :
  map base64_decode ["Zm9vYmFy"; "Zm9vYmE="; "Zm9vYg=="; "Zm9v="; "Zm 9"] =
  [Some (bytes_of "foobar"); Some (bytes_of "fooba"); Some (bytes_of "foob"); None; None].
Proof. vm_compute. reflexivity. Qed.

(** ** AES-256 *)
Definition xtime (b : Z) : Z := byte (Z.lxor (Z.shiftl b 1) (if Z.testbit b 7 then 0x1b else 0)).
Fixpoint gmul (n : nat) (a b : Z) : Z :=
  match n with
  | O => 0
  | S n => Z.lxor (if Z.testbit b 0 then a else 0) (gmul n (xtime a) (Z.shiftr b 1))
  end.
Definition gf (a b : Z) : Z := gmul 8 a b.
(** The inverse in GF(2^8) is the 254th power. *)
Definition ginv (x : Z) : Z :=
  let x2 := gf x x in let x4 := gf x2 x2 in let x8 := gf x4 x4 in let x16 := gf x8 x8 in
  let x32 := gf x16 x16 in let x64 := gf x32 x32 in let x128 := gf x64 x64 in
  gf x2 (gf x4 (gf x8 (gf x16 (gf x32 (gf x64 x128))))).
Definition rotl8 (x : Z) (k : Z) : Z := byte (Z.lor (Z.shiftl x k) (Z.shiftr x (8 - k))).
Definition sbox_of (x : Z) : Z :=
  let i := ginv x in
  Z.lxor 0x63 (Z.lxor i (Z.lxor (rotl8 i 1) (Z.lxor (rotl8 i 2) (Z.lxor (rotl8 i 3) (rotl8 i 4))))).
Definition sbox_table : list Z := Eval vm_compute in map (λ n, sbox_of (Z.of_nat n)) (seq 0 256).
Definition sbox (x : Z) : Z := at_ sbox_table (Z.to_nat x).

(** The 60 words of the key schedule, last one first. *)
Definition next_word (i : nat) (ws : list (list Z)) (rcon : Z) : list Z :=
  let prev := ws !!! 0%nat in
  let t :=
    if bool_decide (i mod 8 = 0)%nat then
      match map sbox (drop 1 prev ++ take 1 prev) with b :: bs => Z.lxor b rcon :: bs | [] => [] end
    else if bool_decide (i mod 8 = 4)%nat then map sbox prev else prev in
  zip_with Z.lxor (ws !!! 7%nat) t.
Fixpoint schedule (n i : nat) (rcon : Z) (ws : list (list Z)) : list (list Z) :=
  match n with
  | O => ws
  | S n => schedule n (S i) (if bool_decide (i mod 8 = 0)%nat then xtime rcon else rcon) (next_word i ws rcon :: ws)
  end.
Fixpoint chunks (k n : nat) (bs : list Z) : list (list Z) :=
  match n with O => [] | S n => take k bs :: chunks k n (drop k bs) end.
Definition round_keys (key : list Z) : list (list Z) :=
  chunks 16 15 (concat (reverse (schedule 52 8 1 (reverse (chunks 4 8 key))))).

Definition shift_rows (s : list Z) : list Z :=
  map (λ i, at_ s ((i + 4 * (i mod 4)) mod 16)%nat) (seq 0 16).
Definition mix_column (c : list Z) : list Z :=
  let a := at_ c 0 in let b := at_ c 1 in let d := at_ c 2 in let e := at_ c 3 in
  [Z.lxor (gf a 2) (Z.lxor (gf b 3) (Z.lxor d e)); Z.lxor a (Z.lxor (gf b 2) (Z.lxor (gf d 3) e));
   Z.lxor a (Z.lxor b (Z.lxor (gf d 2) (gf e 3))); Z.lxor (gf a 3) (Z.lxor b (Z.lxor d (gf e 2)))].
Definition mix_columns (s : list Z) : list Z := concat (map mix_column (chunks 4 4 s)).
Fixpoint rounds (s : list Z) (keys : list (list Z)) : list Z :=
  match keys with
  | [] => s
  | [k] => zip_with Z.lxor (shift_rows (map sbox s)) k
  | k :: keys => rounds (zip_with Z.lxor (mix_columns (shift_rows (map sbox s))) k) keys
  end.
Definition aes_block (keys : list (list Z)) (b : list Z) : list Z :=
  match keys with k :: keys => rounds (zip_with Z.lxor b k) keys | [] => b end.

(** ** Galois/counter mode, 12-byte nonces *)
Definition block_val (bs : list Z) : Z := foldl (λ acc b, Z.lor (Z.shiftl acc 8) b) 0 bs.
Fixpoint ghash_mul (n : nat) (x v acc : Z) : Z :=
  match n with
  | O => acc
  | S n =>
      ghash_mul n x (if Z.testbit v 0 then Z.lxor (Z.shiftr v 1) (Z.shiftl 0xe1 120) else Z.shiftr v 1)
        (if Z.testbit x (Z.of_nat n) then Z.lxor acc v else acc)
  end.
Definition pad16 (bs : list Z) : list Z := bs ++ replicate ((16 - length bs mod 16) mod 16)%nat 0.
Definition ghash (h : Z) (bs : list Z) : Z :=
  foldl (λ acc b, ghash_mul 128 (Z.lxor acc (block_val b)) h 0) 0 (chunks 16 (length bs / 16) bs).
Definition counter_block (nonce : list Z) (i : nat) : list Z := nonce ++ be_bytes 4 (Z.of_nat i).
Definition keystream (keys : list (list Z)) (nonce : list Z) (n : nat) : list Z :=
  concat (map (λ i, aes_block keys (counter_block nonce (2 + i))) (seq 0 (S (n / 16)))).
(** The text combined with the key stream, byte by byte. *)
Definition gcm_xor (keys : list (list Z)) (nonce text : list Z) : list Z :=
  let ks := keystream keys nonce (length text) in
  imap (λ i p, Z.lxor p (byte (at_ ks i))) text.
Definition gcm_tag (keys : list (list Z)) (nonce ct : list Z) : list Z :=
  let h := block_val (aes_block keys (replicate 16 0)) in
  let s := ghash h (pad16 ct ++ be_bytes 8 0 ++ be_bytes 8 (8 * Z.of_nat (length ct))) in
  be_bytes 16 (Z.lxor s (block_val (aes_block keys (counter_block nonce 1)))).

Definition NonceSize : nat := 12.
Definition Overhead : nat := 16.
(** [gcm.Seal(nil, nonce, text, nil)] and [gcm.Open(nil, nonce, text, nil)]. *)
Definition Seal (key nonce text : list Z) : list Z :=
  let keys := round_keys key in
  let ct := gcm_xor keys nonce text in ct ++ gcm_tag keys nonce ct.
Definition Open (key nonce text : list Z) : option (list Z) :=
  if bool_decide (length text < Overhead)%nat then None
  else
    let keys := round_keys key in
    let n := (length text - Overhead)%nat in
    let ct := take n text in
    if bool_decide (drop n text = gcm_tag keys nonce ct) then Some (gcm_xor keys nonce ct) else None.

(** ** Published vectors: RFC 4231, RFC 5869, FIPS 197 and the GCM specification *)
Example hmac_vector :
  hex (hmacSHA256 (bytes_of "Jefe") (bytes_of "what do ya want for nothing?")) =
  "5bdcc146bf60754e6a042426089575c75a003f089d2739839dec58b964ec3843".
Proof. vm_compute. reflexivity. Qed.
Example hkdf_vector :
  hex (hkdf_Key (replicate 22 0x0b) "" 42) =
  "8da4e775a563c18f715f802a063c5a31b8a11f5c5ee1879ec3454e5f3c738d2d9d201395faa4b61a96c8".
Proof. vm_compute. reflexivity. Qed.
Example aes_vector :
  hex (aes_block (round_keys (map Z.of_nat (seq 0 32))) (map (λ i, 17 * Z.of_nat i) (seq 0 16))) =
  "8ea2b7ca516745bfeafc49904b496089".
Proof. vm_compute. reflexivity. Qed.
Example gcm_vector :
  hex (Seal (replicate 32 0) (replicate 12 0) (replicate 16 0)) =
  "cea7403d4d606b6e074ec5d3baf39d18d0d1c8a799996bf0265b98b5d48ab919".
Proof. vm_compute. reflexivity. Qed.

(** ** What the providers rely on *)
Lemma string_of_bytes s : string_of (bytes_of s) = s.
Proof.
  induction s as [|a s IH]; simpl; [done|]. by rewrite IH, Nat2Z.id, ascii_nat_embedding.
Qed.
Lemma bytes_of_range s : Forall is_byte (bytes_of s).
Proof.
  induction s as [|a s IH]; simpl; constructor; [|done]. unfold is_byte. pose proof (nat_ascii_bounded a). lia.
Qed.
Lemma byte_range x : is_byte (byte x).
Proof.
  unfold is_byte, byte. change 255 with (Z.ones 8). rewrite Z.land_ones by lia. apply Z.mod_pos_bound. lia.
Qed.
Lemma be_bytes_range n x : Forall is_byte (be_bytes n x).
Proof. unfold be_bytes. apply Forall_forall. intros y [k [-> _]]%list_elem_of_fmap. apply byte_range. Qed.
Lemma lxor_range x y : is_byte x → is_byte y → is_byte (Z.lxor x y).
Proof.
  intros Hx Hy. assert (∀ z, is_byte z ↔ 0 ≤ z ∧ Z.land z 255 = z) as Hb.
  { intros z. unfold is_byte. change 255 with (Z.ones 8). rewrite Z.land_ones by lia. change (2 ^ 8) with 256.
    split; [intros ?; split; [lia|by apply Z.mod_small]|]. intros [Hz Hm]. pose proof (Z.mod_pos_bound z 256). lia. }
  apply Hb in Hx as [Hx0 Hx]. apply Hb in Hy as [Hy0 Hy]. apply Hb. split; [by apply Z.lxor_nonneg|].
  rewrite <-Hx, <-Hy. apply Z.bits_inj'. intros i _. rewrite !Z.land_spec, !Z.lxor_spec, !Z.land_spec.
  by destruct (Z.testbit x i), (Z.testbit y i), (Z.testbit 255 i).
Qed.

Lemma hex_val_digit d : 0 ≤ d < 16 → hex_val (hex_digit d) = Some d.
Proof.
  intros Hd. assert (∃ n, d = Z.of_nat n ∧ (n < 16)%nat) as (n & -> & Hn) by (exists (Z.to_nat d); lia).
  unfold hex_digit. rewrite Nat2Z.id. do 16 (destruct n as [|n]; [reflexivity|]). lia.
Qed.
Lemma unhex_hex bs : Forall is_byte bs → unhex (hex bs) = Some bs.
Proof.
  induction 1 as [|b bs Hb _ IH]; [done|]. unfold is_byte in Hb. simpl.
  change 15 with (Z.ones 4). rewrite Z.land_ones, Z.shiftr_div_pow2 by lia. change (2 ^ 4) with 16.
  pose proof (Z.mod_pos_bound b 16 ltac:(lia)). pose proof (Z.div_mod b 16 ltac:(lia)).
  rewrite !hex_val_digit, IH by (lia || (split; [apply Z.div_pos; lia|apply Z.div_lt_upper_bound; lia])).
  f_equal. f_equal. lia.
Qed.

Lemma gcm_xor_length keys nonce t : length (gcm_xor keys nonce t) = length t.
Proof. unfold gcm_xor. by rewrite length_imap. Qed.
Lemma gcm_xor_twice keys nonce t : gcm_xor keys nonce (gcm_xor keys nonce t) = t.
Proof.
  unfold gcm_xor at 1. rewrite gcm_xor_length. unfold gcm_xor. apply list_eq. intros i.
  rewrite !list_lookup_imap. destruct (t !! i) as [x|]; simpl; [|done].
  by rewrite Z.lxor_assoc, Z.lxor_nilpotent, Z.lxor_0_r.
Qed.
Lemma gcm_tag_length keys nonce ct : length (gcm_tag keys nonce ct) = Overhead.
Proof. apply be_bytes_length. Qed.
Lemma Open_Seal key nonce t : Open key nonce (Seal key nonce t) = Some t.
Proof.
  unfold Open, Seal. cbv zeta. rewrite length_app, gcm_tag_length, gcm_xor_length.
  rewrite bool_decide_eq_false_2 by lia. replace (length t + Overhead - Overhead)%nat with (length t) by lia.
  rewrite take_app_length', drop_app_length' by (by rewrite gcm_xor_length).
  rewrite bool_decide_eq_true_2 by done. by rewrite gcm_xor_twice.
Qed.
Lemma Seal_range key nonce t : Forall is_byte t → Forall is_byte (Seal key nonce t).
Proof.
  intros Ht. unfold Seal. apply Forall_app. split; [|apply be_bytes_range]. unfold gcm_xor.
  apply Forall_forall. intros x (i & y & -> & Hy)%elem_of_lookup_imap.
  apply lxor_range; [|apply byte_range]. by eapply Forall_lookup_1.
Qed.
End crypto.
