(* ===== verification/Host.v ===== *)
(** * The host a plugin runs on

    A plugin reaches its storage through commands ([Runner.Run]) and a few
    operating-system calls.  The host is a parameter of the plugin models: its
    state [H] is opaque, a command moves it and answers with its output and the
    text of its error, if any.  [traced_host] runs a plugin on the same host with every
    command written down, for statements about which commands are run. *)
From S2P Require Import Prelude GoStrings Protocol.

Record output := mkOutput { o_out : string; o_err : option string }.

Class Host (H : Type) := {
  Run : string → list string → H → H * output;
  MkdirAll : string → Z → H → H * option string;
  UnixNow : H → Z;
}.

Section host.
  Context {H : Type} `{Host H}.
  Abbreviation op A := (M H bardplugin.perror A).

(** [fmt.Errorf]: an error that is no [StatusError]. *)
Definition errorf (fmt : string) : bardplugin.perror := bardplugin.mkPerror None fmt.

(** [out, err := b.run.Run(...)], its error as the text the classifiers look at. *)
Definition run (name : string) (args : list string) : M H string string := λ h,
  let '(h', o) := Run name args h in
  (h', match o_err o with None => Ok (o_out o) | Some e => Err e end).
(** [if _, err := run; err != nil { return fmt.Errorf(fmt, ...) }]. *)
Definition run_or (fmt : string) (name : string) (args : list string) : op string :=
  run_err (λ _, errorf fmt) (run name args).
(** [if _, err := run; err != nil && !benign(err) { return fmt.Errorf(fmt, ...) }]. *)
Definition run_unless (benign : string → bool) (fmt : string) (name : string) (args : list string) : op unit :=
  catch (run name args) (λ r,
    match r with
    | Ok _ => mret tt
    | Err e => if benign e then mret tt else fail (errorf fmt)
    end).
(** [out, _ := run]: the error is dropped. *)
Definition run_out (name : string) (args : list string) : op string := λ h,
  let '(h', o) := Run name args h in (h', Ok (o_out o)).
(** [if err := os.MkdirAll(path, perm); err != nil { return fmt.Errorf(fmt, ...) }]. *)
Definition mkdir_all (fmt : string) (path : string) (perm : Z) : op unit := λ h,
  let '(h', e) := MkdirAll path perm h in
  (h', match e with None => Ok tt | Some _ => Err (errorf fmt) end).
End host.

(** ** Traces

    A host that writes down what is asked of it, in entries of a type [L]. *)
Class Recorder (L : Type) := {
  rec_run : string → list string → output → L;
  rec_mkdir : string → list L;
}.
Record command := mkCommand { c_name : string; c_args : list string; c_output : output }.
#[export] Instance command_recorder : Recorder command := {| rec_run := mkCommand; rec_mkdir _ := [] |}.

Section traced.
  Context {H L : Type} `{Host H} `{Recorder L}.

#[export] Instance traced_host : Host (H * list L) := {|
  Run name args h :=
    let '(h', o) := Run name args h.1 in ((h', h.2 ++ [rec_run name args o]), o);
  MkdirAll path perm h := let '(h', e) := MkdirAll path perm h.1 in ((h', h.2 ++ rec_mkdir path), e);
  UnixNow h := UnixNow h.1;
|}.

(** What a computation adds to the trace. *)
Abbreviation top A := (M (H * list L) bardplugin.perror A).
Definition trace {A} (m : top A) (h : H) : list L := (m (h, [])).1.2.

(** [Traces P m]: run on any host and after any trace, [m] appends entries that
    satisfy [P] as a sequence. *)
Definition Traces {E A} (P : list L → Prop) (m : M (H * list L) E A) : Prop :=
  ∀ h t, ∃ new, (m (h, t)).1.2 = t ++ new ∧ P new.

(** The same as a step of a preorder on recorded states. *)
Definition logged (P : list L → Prop) (h h' : H * list L) : Prop := ∃ new, h'.2 = h.2 ++ new ∧ P new.
Lemma Pres_logged {E A} P (m : M (H * list L) E A) : Pres (logged P) m ↔ Traces P m.
Proof. split; [intros Hm h t; apply (Hm (h, t))|intros Hm [h t]; apply Hm]. Qed.

Lemma Traces_trace {A} P (m : top A) h : Traces P m → P (trace m h).
Proof. intros Hm. destruct (Hm h []) as (new & Heq & HP). unfold trace. by rewrite Heq. Qed.

(** A property of traces that holds of the empty one and of two in sequence. *)
Class Closed (P : list L → Prop) := {
  closed_nil : P [];
  closed_app : ∀ t1 t2, P t1 → P t2 → P (t1 ++ t2);
}.
#[export] Instance logged_preorder P `{!Closed P} : PreOrder (logged P).
Proof.
  split.
  - intros h. exists []. rewrite app_nil_r. split; [done|apply closed_nil].
  - intros h1 h2 h3 (n1 & Hn1 & HP1) (n2 & Hn2 & HP2). exists (n1 ++ n2).
    rewrite Hn2, Hn1, app_assoc. split; [done|by apply closed_app].
Qed.
(** Every entry satisfies [Q]. *)
Definition Each (Q : L → Prop) : list L → Prop := Forall Q.
#[export] Instance Each_closed Q : Closed (Each Q).
Proof. split; [constructor|]. intros t1 t2. apply Forall_app_2. Qed.
Lemma Each_one (Q : L → Prop) e : Q e → Each Q [e].
Proof. intros HQ. by constructor. Qed.

Lemma Each_trace {A} Q (m : top A) h : Traces (Each Q) m → Forall Q (trace m h).
Proof. apply (Traces_trace (Each Q)). Qed.

Section closed.
  Context (P : list L → Prop) `{!Closed P}.

Lemma Closed_none {E A} (m : M (H * list L) E A) : (∀ h t, (m (h, t)).1.2 = t) → Traces P m.
Proof. intros Hm h t. exists []. rewrite app_nil_r. split; [apply Hm|apply closed_nil]. Qed.
Lemma Closed_ret {E A} (a : A) : Traces P (mret a : M _ E A).
Proof. by apply Closed_none. Qed.
Lemma Closed_fail {E A} (e : E) : Traces P (fail e : M _ E A).
Proof. by apply Closed_none. Qed.
Lemma Closed_lift {E A} (r : res E A) : Traces P (lift r : M _ E A).
Proof. by apply Closed_none. Qed.
Lemma Closed_gets {E A} (f : _ → A) : Traces P (gets f : M _ E A).
Proof. by apply Closed_none. Qed.
Lemma Closed_guard {E} b (e : E) : Traces P (guard_ b e).
Proof. by apply Closed_none. Qed.
Lemma Closed_bind {E A B} (m : M _ E A) (f : A → M _ E B) :
  Traces P m → (∀ a, Traces P (f a)) → Traces P (m ≫= f).
Proof.
  intros Hm Hf h t. destruct (Hm h t) as (n1 & Ht1 & HP1). unfold mbind, M_bind.
  destruct (m (h, t)) as [[h1 t1] [a|e]]; simpl in Ht1; subst; [|by exists n1].
  destruct (Hf a h1 (t ++ n1)) as (n2 & Ht2 & HP2). exists (n1 ++ n2).
  rewrite Ht2, app_assoc. split; [done|by apply closed_app].
Qed.
Lemma Closed_bind_guard {E B} b (e : E) (f : unit → M _ E B) :
  (b = true → Traces P (f tt)) → Traces P (guard_ b e ≫= f).
Proof. intros Hf. destruct b; [by apply Hf|]. by apply Closed_none. Qed.
Lemma Closed_catch {E F A B} (m : M _ E A) (f : res E A → M _ F B) :
  Traces P m → (∀ r, Traces P (f r)) → Traces P (catch m f).
Proof.
  intros Hm Hf h t. destruct (Hm h t) as (n1 & Ht1 & HP1). unfold catch.
  destruct (m (h, t)) as [[h1 t1] r]; simpl in Ht1; subst.
  destruct (Hf r h1 (t ++ n1)) as (n2 & Ht2 & HP2). exists (n1 ++ n2).
  rewrite Ht2, app_assoc. split; [done|by apply closed_app].
Qed.
Lemma Closed_run_err {E F A} (f : E → F) (m : M _ E A) : Traces P m → Traces P (run_err f m).
Proof. intros Hm h t. destruct (Hm h t) as (n & Hn & HP). unfold run_err. destruct (m (h, t)). by exists n. Qed.
Lemma Closed_run name args : (∀ o, P [rec_run name args o]) → Traces P (run name args).
Proof.
  intros HP h t. unfold run, Run, traced_host. simpl. destruct (Run name args h) as [h' o].
  by exists [rec_run name args o].
Qed.
Lemma Closed_run_or fmt name args : (∀ o, P [rec_run name args o]) → Traces P (run_or fmt name args).
Proof. intros HP. by apply Closed_run_err, Closed_run. Qed.
Lemma Closed_run_unless ben fmt name args :
  (∀ o, P [rec_run name args o]) → Traces P (run_unless ben fmt name args).
Proof.
  intros HP. apply Closed_catch; [by apply Closed_run|]. intros [a|e]; [apply Closed_ret|].
  destruct (ben e); [apply Closed_ret|apply Closed_fail].
Qed.
Lemma Closed_run_out name args : (∀ o, P [rec_run name args o]) → Traces P (run_out name args).
Proof.
  intros HP h t. unfold run_out, Run, traced_host. simpl. destruct (Run name args h) as [h' o].
  by exists [rec_run name args o].
Qed.
Lemma Closed_mkdir fmt path perm : P (rec_mkdir path) → Traces P (mkdir_all fmt path perm).
Proof.
  intros HP h t. unfold mkdir_all, MkdirAll, traced_host. simpl. destruct (MkdirAll path perm h) as [h' e].
  by exists (rec_mkdir path).
Qed.
End closed.

(** A computation with a property of its own, followed by entries that keep it. *)
Lemma Traces_bind {E A B} (P R : list L → Prop) (m : M (H * list L) E A) (f : A → M _ E B) :
  (∀ t1 t2, P t1 → R t2 → P (t1 ++ t2)) → Traces P m → (∀ a, Traces R (f a)) → Traces P (m ≫= f).
Proof.
  intros HP Hm Hf h t. destruct (Hm h t) as (n1 & Ht1 & HP1). unfold mbind, M_bind.
  destruct (m (h, t)) as [[h1 t1] [a|e]]; simpl in Ht1; subst; [|by exists n1].
  destruct (Hf a h1 (t ++ n1)) as (n2 & Ht2 & HR2). exists (n1 ++ n2).
  rewrite Ht2, app_assoc. split; [done|by apply HP].
Qed.
End traced.

(** [trace_step] follows a computation one step towards its entries; [traces] all
    the way, with the given tactic at what it does not know. *)
Ltac trace_step :=
  lazymatch goal with
  | |- Traces _ (mbind _ (guard_ _ _)) => apply Closed_bind_guard; [apply _|]; intros
  | |- Traces _ (mbind _ _) => apply Closed_bind; [apply _|..]; intros
  | |- Traces _ (catch _ _) => apply Closed_catch; [apply _|..]; intros
  | |- Traces _ (mret _) => apply Closed_ret; apply _
  | |- Traces _ (fail _) => apply Closed_fail; apply _
  | |- Traces _ (lift _) => apply Closed_lift; apply _
  | |- Traces _ (gets _) => apply Closed_gets; apply _
  | |- Traces _ (guard_ _ _) => apply Closed_guard; apply _
  | |- Traces _ (run_or _ _ _) => apply Closed_run_or; intros
  | |- Traces _ (run_unless _ _ _ _) => apply Closed_run_unless; [apply _|]; intros
  | |- Traces _ (run_out _ _) => apply Closed_run_out; intros
  | |- Traces _ (run _ _) => apply Closed_run; intros
  | |- Traces _ (run_err _ _) => apply Closed_run_err
  | |- Traces _ (mkdir_all _ _ _) => apply Closed_mkdir; try apply closed_nil
  | |- Traces _ (let _ := _ in _) => cbv zeta
  | |- Traces _ (match ?x with _ => _ end) => destruct x eqn:?
  | |- Each _ [_] => apply Each_one
  end.
Tactic Notation "traces" "with" tactic3(tac) := repeat trace_step; tac.
