(* ===== verification/GoOs.v ===== *)
(** * Go's os package, as the plugins use it

    One operation per call, on the opaque state of the host.  A temporary file is
    known by its path; [WriteString] appends to a file that [CreateTemp] made, and
    closing it is not a step.  [noted] records a call for statements about traces. *)
From S2P Require Import Prelude GoStrings Protocol Host.

Record os_error := mkOsError { not_exist : bool; os_text : string }.
(** A directory entry: its name, [IsDir], and the size [Info] answers, if it does. *)
Record dirent := mkDirent { de_name : string; de_dir : bool; de_size : option Z }.

Class Files (H : Type) := {
  MkdirTemp : string → string → H → H * res os_error string;
  Remove : string → H → H * option os_error;
  RemoveAll : string → H → H * option os_error;
  Rename : string → string → H → H * option os_error;
  ReadFile : string → H → H * res os_error string;
  WriteFile : string → string → Z → H → H * option os_error;
  Stat : string → H → H * res os_error Z;
  ReadDir : string → H → H * res os_error (list dirent);
  Chmod : string → Z → H → H * option os_error;
  Statfs : string → H → H * res os_error (Z * Z);
}.
(** Temporary files, and the calls around them: [IsDir] is whether [Stat] finds a
    directory, [OpenCreate] is [OpenFile] with [O_CREATE], closed at once. *)
Class TempFiles (H : Type) := {
  IsDir : string → H → H * bool;
  CreateTemp : string → string → H → H * res os_error string;
  WriteString : string → string → H → H * option os_error;
  OpenCreate : string → Z → H → H * option os_error;
}.

(** A call as a computation. *)
Definition os_unit {H} (f : H → H * option os_error) : M H os_error unit := λ h,
  let '(h', e) := f h in (h', match e with None => Ok tt | Some e => Err e end).
Definition os_get {H A} (f : H → H * res os_error A) : M H os_error A := f.
(** [if err := call; err != nil { return fmt.Errorf(fmt, ...) }]. *)
Definition os_or {H A} (fmt : string) (m : M H os_error A) : M H bardplugin.perror A :=
  run_err (λ _, errorf fmt) m.
(** [_ = call]. *)
Definition os_try {H} (f : H → H * option os_error) : M H bardplugin.perror unit := λ h, ((f h).1, Ok tt).

Section recorded.
  Context {H L : Type}.

(** A call on the host, its entry appended. *)
Definition noted {A} (f : H → H * A) (ev : A → L) (h : H * list L) : (H * list L) * A :=
  let '(h', a) := f h.1 in ((h', h.2 ++ [ev a]), a).
(** A call that leaves no entry. *)
Definition silent {A} (f : H → H * A) (h : H * list L) : (H * list L) * A :=
  let '(h', a) := f h.1 in ((h', h.2), a).

Lemma Traces_os_get {A} (P : list L → Prop) (f : H → H * res os_error A) ev g :
  g = noted f ev → (∀ a, P [ev a]) → Traces P (os_get g).
Proof. intros -> HP h t. unfold os_get, noted. simpl. destruct (f h) as [h' a]. by exists [ev a]. Qed.
Lemma Traces_os_unit (P : list L → Prop) (f : H → H * option os_error) ev g :
  g = noted f ev → (∀ a, P [ev a]) → Traces P (os_unit g).
Proof. intros -> HP h t. unfold os_unit, noted. simpl. destruct (f h) as [h' a]. by exists [ev a]. Qed.
Lemma Traces_os_try (P : list L → Prop) (f : H → H * option os_error) ev g :
  g = noted f ev → (∀ a, P [ev a]) → Traces P (os_try g).
Proof. intros -> HP h t. unfold os_try, noted. simpl. destruct (f h) as [h' a]. by exists [ev a]. Qed.
Lemma Traces_weaken {E A} (P Q : list L → Prop) (m : M (H * list L) E A) :
  (∀ t, P t → Q t) → Traces P m → Traces Q m.
Proof. intros HPQ Hm h t. destruct (Hm h t) as (new & Ht & HP). eauto. Qed.
End recorded.

(** Steps through the calls. *)
Ltac os_step :=
  first
  [ trace_step
  | lazymatch goal with
    | |- Traces _ (os_or _ _) => unfold os_or
    | |- Traces _ (os_unit _) => eapply Traces_os_unit; [reflexivity|]; intros
    | |- Traces _ (os_try _) => eapply Traces_os_try; [reflexivity|]; intros
    | |- Traces _ (os_get _) => eapply Traces_os_get; [reflexivity|]; intros
    end ].
