(* ===== verification/GoPath.v ===== *)
(** * Go's [path/filepath] on Unix, as far as the plugins use it

    [Clean], [Join], [Dir] and [Base] are purely lexical.  The lemmas say what they
    give on paths without empty, dot or dot-dot segments, which is what containment
    arguments need. *)
From Stdlib Require Import Ascii.
From S2P Require Import Prelude GoStrings.

Definition slash : ascii := "/".

(** One step of [Clean] on the segments: the stack holds the last one first. *)
Definition clean_step (rooted : bool) (stack : list string) (seg : string) : list string :=
  if bool_decide (seg = "") || bool_decide (seg = ".") then stack
  else if bool_decide (seg = "..") then
    match stack with
    | top :: rest => if bool_decide (top = "..") then seg :: stack else rest
    | [] => if rooted then [] else [seg]
    end
  else seg :: stack.
Definition is_rooted (p : string) : bool := has_prefix "/" p.
Definition clean_segs (p : string) : list string :=
  reverse (foldl (clean_step (is_rooted p)) [] (split_on slash p)).

(** [filepath.Clean]. *)
Definition Clean (p : string) : string :=
  let out := join "/" (clean_segs p) in
  if is_rooted p then "/" +:+ out
  else if bool_decide (out = "") then "." else out.

(** [filepath.Join]: empty elements are ignored. *)
Definition Join (elems : list string) : string :=
  match filter (λ e, e ≠ "") elems with
  | [] => ""
  | es => Clean (join "/" es)
  end.

(** [filepath.Dir], [filepath.Base]: around the last slash. *)
Definition last_slash (p : string) : option (string * string) :=
  match reverse (split_on slash p) with
  | b :: d :: ds => Some (join "/" (reverse (d :: ds)) +:+ "/", b)
  | _ => None
  end.
Definition Dir (p : string) : string :=
  match last_slash p with Some (d, _) => Clean d | None => "." end.
Definition strip_slashes (p : string) : string :=
  string_rev (trim_left (λ a, bool_decide (a = slash)) (string_rev p)).
Definition Base (p : string) : string :=
  if bool_decide (p = "") then "."
  else
    let q := strip_slashes p in
    let b := match last_slash q with Some (_, b) => b | None => q end in
    if bool_decide (b = "") then "/" else b.

Example clean_ex :
  map Clean [""; "/a/b/../c/."; "a//b/"; "../x"; "/.."; "a/.."; "./.snapshots"] =
  ["."; "/a/c"; "a/b"; "../x"; "/"; "."; ".snapshots"].
Proof. reflexivity. Qed.
Example join_ex :
  (Join ["/tmp/m"; "."], Join ["/tmp/m"; ""], Join ["/tmp/m"; "a/b"], Join [".snapshots"; "x.src"]) =
  ("/tmp/m", "/tmp/m", "/tmp/m/a/b", ".snapshots/x.src").
Proof. reflexivity. Qed.
Example dir_base_ex :
  (Dir "/tmp/m/a/b", Base "/tmp/m/a/b", Dir "/a", Base "/", Base "x/") = ("/tmp/m/a", "b", "/", "/", "x").
Proof. reflexivity. Qed.

(** ** Paths made of plain segments *)
Definition plain (s : string) : bool :=
  negb (bool_decide (s = "")) && negb (bool_decide (s = ".")) && negb (bool_decide (s = "..")) &&
  negb (contains_char slash s).
(** A relative path of plain segments, and an absolute one. *)
Definition plain_rel (p : string) : bool := forallb plain (split_on slash p).
Definition plain_abs (p : string) : bool :=
  match cut_prefix "/" p with Some q => plain_rel q | None => false end.

Lemma plain_facts s : plain s = true → s ≠ "" ∧ s ≠ "." ∧ s ≠ ".." ∧ contains_char slash s = false.
Proof.
  unfold plain. intros H. repeat (apply andb_true_iff in H as [H ?]).
  repeat match goal with H : negb _ = true |- _ => apply negb_true_iff in H end.
  repeat match goal with H : bool_decide _ = false |- _ => apply bool_decide_eq_false_1 in H end. done.
Qed.

Lemma clean_step_plain r stack s : plain s = true → clean_step r stack s = s :: stack.
Proof. intros (? & ? & ? & _)%plain_facts. unfold clean_step. by rewrite !bool_decide_eq_false_2. Qed.
Lemma clean_plain r segs stack :
  forallb plain segs = true → foldl (clean_step r) stack segs = reverse segs ++ stack.
Proof.
  revert stack. induction segs as [|s segs IH]; intros stack; simpl; [done|].
  intros [Hs Hr]%andb_true_iff. rewrite clean_step_plain, IH by done.
  by rewrite reverse_cons, <-app_assoc.
Qed.

Lemma plain_rel_nonempty p : plain_rel p = true → p ≠ "".
Proof. by intros Hp ->. Qed.
Lemma plain_rel_head p : plain_rel p = true → is_rooted p = false.
Proof.
  destruct p as [|a p]; [done|]. unfold plain_rel, is_rooted, has_prefix. simpl. case_decide as Ha.
  - simpl. subst. by intros ?.
  - by rewrite decide_False.
Qed.

Lemma Clean_plain_rel p : plain_rel p = true → Clean p = p.
Proof.
  intros Hp. unfold Clean, clean_segs. rewrite (plain_rel_head _ Hp), clean_plain by done.
  rewrite app_nil_r, reverse_involutive. unfold slash. rewrite join_split.
  by rewrite bool_decide_eq_false_2 by (by apply plain_rel_nonempty).
Qed.
Lemma Clean_plain_abs p : plain_abs p = true → Clean p = p.
Proof.
  unfold plain_abs. destruct (cut_prefix "/" p) as [q|] eqn:Hc; [|done]. intros Hq.
  destruct p as [|a p]; [done|]. simpl in Hc. case_decide as Ha; [|done]. injection Hc as ->. subst a.
  unfold Clean, clean_segs, is_rooted, has_prefix. simpl. rewrite clean_plain by done.
  rewrite app_nil_r, reverse_involutive. unfold slash. by rewrite join_split.
Qed.

Lemma split_on_sep c s t : split_on c (s +:+ String c t) = split_on c s ++ split_on c t.
Proof.
  induction s as [|a s IH].
  - simpl. by rewrite decide_True.
  - rewrite append_cons. simpl. case_decide; [by rewrite IH|]. rewrite IH.
    destruct (split_on c s) as [|h l] eqn:Hs; [by destruct (split_on_nonempty c s)|]. done.
Qed.
Lemma plain_rel_sub p q : plain_rel p = true → plain_rel q = true → plain_rel (p +:+ String slash q) = true.
Proof. intros Hp Hq. unfold plain_rel. rewrite split_on_sep, forallb_app. unfold plain_rel in *. by rewrite Hp, Hq. Qed.
Lemma plain_abs_sub p q : plain_abs p = true → plain_rel q = true → plain_abs (p +:+ String slash q) = true.
Proof.
  unfold plain_abs. destruct p as [|a p]; [done|]. rewrite append_cons. simpl. case_decide; [|done].
  apply plain_rel_sub.
Qed.

(** Below an absolute plain path, a plain relative path stays where it says. *)
Lemma Join_plain p q : plain_abs p = true → plain_rel q = true → Join [p; q] = p +:+ String slash q.
Proof.
  intros Hp Hq. unfold Join. rewrite filter_cons_True by (by intros ->).
  rewrite filter_cons_True by (by apply plain_rel_nonempty). rewrite filter_nil.
  apply Clean_plain_abs. by apply plain_abs_sub.
Qed.
Lemma Join_plain_rel p q : plain_rel p = true → plain_rel q = true → Join [p; q] = p +:+ String slash q.
Proof.
  intros Hp Hq. unfold Join. rewrite filter_cons_True by (by apply plain_rel_nonempty).
  rewrite filter_cons_True by (by apply plain_rel_nonempty). rewrite filter_nil.
  apply Clean_plain_rel. by apply plain_rel_sub.
Qed.

(** It is strictly below. *)
Lemma below_ne (p q : string) : p +:+ String slash q ≠ p.
Proof.
  intros Heq. apply (f_equal String.length) in Heq. rewrite length_append in Heq. simpl in Heq. lia.
Qed.

(** ** The last segment *)
Lemma plain_rel_one b : plain b = true → plain_rel b = true.
Proof.
  intros Hb. pose proof (plain_facts _ Hb) as (_ & _ & _ & Hs). unfold plain_rel. rewrite split_on_none by done.
  simpl. by rewrite Hb.
Qed.
Lemma plain_rel_last q :
  plain_rel q = true → ∃ b, plain b = true ∧ (q = b ∨ ∃ q', plain_rel q' = true ∧ q = q' +:+ String slash b).
Proof.
  intros Hq. unfold plain_rel in Hq. destruct (split_on slash q) as [|s segs] eqn:Hs using rev_ind.
  { by destruct (split_on_nonempty slash q). }
  clear IHsegs. rewrite forallb_app in Hq. apply andb_true_iff in Hq as [Hsegs Hb]. simpl in Hb.
  rewrite andb_true_r in Hb.
  assert (Hf : Forall (λ x, contains_char slash x = false) segs).
  { apply Forall_forall. intros x Hx. apply (split_on_elem slash q). rewrite Hs. apply elem_of_app. by left. }
  exists s. split; [done|]. destruct segs as [|x segs].
  - left. rewrite <-(join_split slash q), Hs. done.
  - right. exists (join (String slash "") (x :: segs)). split.
    + unfold plain_rel. rewrite split_join; [done|done|done].
    + assert (∀ y l, join (String slash "") ((y :: l) ++ [s]) = join (String slash "") (y :: l) +:+ String slash s) as Hj.
      { intros y l. revert y. induction l as [|z l IH]; intros y; [done|].
        change ((y :: z :: l) ++ [s]) with (y :: z :: (l ++ [s])). rewrite !join_cons.
        change (z :: l ++ [s]) with ((z :: l) ++ [s]). by rewrite IH, !string_app_assoc. }
      by rewrite <-Hj, <-Hs, join_split.
Qed.

Lemma last_slash_sep d b : contains_char slash b = false → last_slash (d +:+ String slash b) = Some (d +:+ "/", b).
Proof.
  intros Hb. unfold last_slash. rewrite split_on_sep, (split_on_none _ b), reverse_app by done. simpl.
  destruct (reverse (split_on slash d)) as [|x l] eqn:Hr.
  { apply (f_equal reverse) in Hr. rewrite reverse_involutive in Hr. by destruct (split_on_nonempty slash d). }
  rewrite <-Hr, reverse_involutive. unfold slash at 1. by rewrite join_split.
Qed.
Lemma Clean_trailing d : plain_abs d = true → Clean (d +:+ "/") = d.
Proof.
  intros Hd. etrans; [|by apply Clean_plain_abs]. unfold Clean, clean_segs.
  change (d +:+ "/") with (d +:+ String slash ""). rewrite split_on_sep, foldl_app.
  assert (is_rooted (d +:+ String slash "") = is_rooted d) as ->.
  { destruct d as [|a d]; [done|]. rewrite append_cons. unfold is_rooted, has_prefix. simpl. by case_decide. }
  simpl. by unfold clean_step at 1.
Qed.
Lemma Dir_below d b : plain_abs d = true → plain b = true → Dir (d +:+ String slash b) = d.
Proof.
  intros Hd (_ & _ & _ & Hb)%plain_facts. unfold Dir. rewrite last_slash_sep by done. by apply Clean_trailing.
Qed.
Lemma Base_below d b : plain b = true → Base (d +:+ String slash b) = b.
Proof.
  intros (Hne & _ & _ & Hb)%plain_facts. unfold Base. rewrite bool_decide_eq_false_2 by (by destruct d).
  assert (strip_slashes (d +:+ String slash b) = d +:+ String slash b) as ->.
  { unfold strip_slashes. rewrite string_rev_append, string_rev_cons.
    destruct (string_rev b) as [|c r] eqn:Hr.
    { destruct Hne. by rewrite <-(string_rev_involutive b), Hr. }
    rewrite append_cons. simpl. rewrite bool_decide_eq_false_2.
    - change (String c ((r +:+ String slash "") +:+ string_rev d)) with ((String c r +:+ String slash "") +:+ string_rev d).
      by rewrite <-Hr, <-string_rev_cons, <-string_rev_append, string_rev_involutive.
    - intros ->. assert (contains_char slash (string_rev b) = true) as Hc by (by rewrite Hr).
      assert (all_chars (λ a, negb (bool_decide (a = slash))) b = true) as Ha.
      { clear -Hb. induction b as [|a b IH]; simpl in *; [done|]. case_decide; [done|].
        rewrite bool_decide_eq_false_2 by done. auto. }
      rewrite <-all_chars_rev in Ha. eapply (all_chars_free _ slash) in Ha; [by rewrite Ha in Hc|].
      by rewrite bool_decide_eq_true_2. }
  rewrite last_slash_sep by done. by rewrite bool_decide_eq_false_2.
Qed.
