(* ===== verification/KMS.v ===== *)
(** * Key management for encrypted volumes: the common part (internal/cephenc)

    registry.go, the built-in providers of kms.go and fscrypt.go.  A provider runs
    over a state [S] that answers what the process asks of its surroundings ([Env]:
    files, environment, randomness, the clock, HTTP, KMIP, and the caches a provider
    object keeps) and, for the providers that store key material with the volume, over
    the backend's [KHost], the interface [Host] of registry.go. *)
From Stdlib Require Import Ascii.
From S2P Require Import Prelude GoStrings GoPath Json Protocol Sha256 GoCrypto Host GoOs.

(** ** Surroundings *)

(** A request body is JSON or a form; a reply body is what a decoder reads in it. *)
Inductive payload :=
  | BNone
  | BJson (j : json)
  | BForm (fields : list (string * string))
  | BCreds (accessKeyID secretAccessKey sessionToken : string) (expiration : option Z)
  | BText (s : string).
Record request := mkRequest {
  rq_method : string; rq_url : string; rq_headers : list (string * string); rq_body : payload }.
Record response := mkResponse { rs_status : Z; rs_body : payload }.

(** One KMIP exchange: how far it got, and the items of the answer. *)
Inductive kmip_request := KRegister (material : string) | KGet (uid : string) | KDestroy (uid : string).
Inductive key_material := MBytes (s : string) | MString (s : string) | MOther.
Inductive kmip_payload :=
  | KUid (uid : string)                             (* a register response *)
  | KSecret (material : option key_material)        (* a get response *)
  | KEmpty
  | KGarbled                                        (* not decodable as the response *)
  | KNotTTLV.
Record kmip_item := mkItem { ki_success : bool; ki_reason : string; ki_payload : kmip_payload }.
Inductive kmip_outcome :=
  | KDialFailed | KHandshakeFailed | KMarshalFailed | KWriteFailed | KReadFailed
  | KAnswered (items : list kmip_item).

Record awsCreds := mkCreds { accessKeyID : string; secretAccessKey : string; sessionToken : string }.

Class Env (S : Type) := {
  readFile : string → S → S * res string string;
  getenv : string → S → string;
  randRead : nat → S → S * res string string;
  now : S → Z;                                       (* nanoseconds since 1970, UTC *)
  httpDo : request → S → S * res string response;
  kmipExchange : string → kmip_request → S → S * kmip_outcome;
  pem_certs : string → bool;                         (* AppendCertsFromPEM *)
  key_pair : string → string → S → S * res string unit;   (* LoadX509KeyPair *)
  (* what a provider object keeps, by its id: a token or credentials, and their expiry *)
  get_token : string → S → string * Z;
  put_token : string → string * Z → S → S;
  get_creds : string → S → awsCreds * Z;
  put_creds : string → awsCreds * Z → S → S;
}.

Module cephenc.
Import bardplugin.

(** ** Secret files: on a memory file system when there is one *)
Definition SecretTemp {H} `{TempFiles H} (pattern : string) : M H os_error string := λ h,
  let '(h1, shm) := IsDir "/dev/shm" h in
  if shm : bool then
    match CreateTemp "/dev/shm" pattern h1 with
    | (h2, Ok f) => (h2, Ok f)
    | (h2, Err _) => CreateTemp "" pattern h2
    end
  else CreateTemp "" pattern h1.

(** ** Keys shared with the backends *)
Definition ParamEncrypted : string := "encrypted".
Definition ParamEncryptionKMSID : string := "encryptionKMSID".
Definition ParamEncryptionType : string := "encryptionType".
Definition EncryptionTypeFile : string := "file".
Definition SecretPassphrase : string := "encryptionPassphrase".
Definition CtxKeyID : string := "encryptionKeyID".
Definition MetaKMSID : string := "bard.encryptionKMSID".
Definition MetaKeyID : string := "bard.encryptionKeyID".
Definition MetaWrappedDEK : string := "bard.encryptionDEK".
Definition MetaKMIPUID : string := "bard.encryptionKMIPUID".
Definition MetaKMIPOwner : string := "bard.encryptionKMIPOwner".

Definition IsEncrypted (ctx : strmap) : bool := bool_decide (mget ctx ParamEncrypted = "true").
Definition IsFsCrypt (ctx : strmap) : bool :=
  IsEncrypted ctx && bool_decide (mget ctx ParamEncryptionType = EncryptionTypeFile).

(** [Host]: [conn] is [None] for a nil slice; [ConnFor] also gives the cleanup. *)
Abbreviation conn := (option (list string)).
Class KHost (S : Type) := {
  MasterKeyDir : string;
  ConnFor : conn → string → strmap → M S perror (conn * (S → S));
  MetaGet : conn → string → string → M S perror string;
  MetaSet : conn → string → string → string → M S perror unit;
}.
Arguments MasterKeyDir S {_}.

Record KMSConfig := mkKMSConfig {
  kc_Type : string; kc_Address : string; kc_KVMount : string; kc_PathPrefix : string; kc_AuthMethod : string;
  kc_Token : string; kc_TokenFile : string; kc_Role : string; kc_AuthMount : string; kc_SATokenFile : string;
  kc_Region : string; kc_KeyID : string; kc_Endpoint : string; kc_CredentialsFile : string;
  kc_AccessKeyID : string; kc_SecretAccessKey : string; kc_SessionToken : string;
  kc_RoleARN : string; kc_RoleSessionName : string; kc_WebIdentityTokenFile : string; kc_STSEndpoint : string;
  kc_VaultURL : string; kc_TenantID : string; kc_ClientID : string; kc_ClientSecret : string;
  kc_ClientSecretFile : string; kc_AADEndpoint : string; kc_SecretPrefix : string;
  kc_CAFile : string; kc_InsecureSkipVerify : bool;
  kc_KMIPEndpoint : string; kc_ClientCertFile : string; kc_ClientKeyFile : string; kc_ServerName : string }.

Definition orDefault (v def : string) : string := if bool_decide (v = "") then def else v.
Definition trim_right_byte (c : ascii) (s : string) : string :=
  string_rev (trim_left (λ a, bool_decide (a = c)) (string_rev s)).
Definition minute : Z := 60000000000.
Definition second_ns : Z := 1000000000.

(** [json.Unmarshal] of the one field a reply is read for, under nested structs. *)
Fixpoint dec_path {A} `{Wire A} (path : list string) (j : json) (x : A) : A * bool :=
  match path with
  | [] => dec j x
  | n :: path =>
      dec_obj (λ o x, foldl (λ acc j, let '(y, ok) := dec_path path j acc.1 in (y, acc.2 && ok)) (x, true)
        (field_vals n o)) j x
  end.
Definition unmarshal {A} `{Wire A} (path : list string) (b : payload) : option A :=
  match b with
  | BJson j => let '(x, ok) := dec_path path j zero in if ok : bool then Some x else None
  | _ => None
  end.

Section common.
  Context {S : Type} `{Env S} `{KHost S}.
  Abbreviation op A := (M S perror A).

Definition read_or (fmt : string) (path : string) : op string := run_err (λ _, errorf fmt) (readFile path).
Definition rand_or (fmt : string) (n : nat) : op string := run_err (λ _, errorf fmt) (randRead n).

(** [conn, cleanup, err := ConnFor(...); defer cleanup()]. *)
Definition with_conn {A} (c : conn) (instance : string) (secrets : strmap) (body : conn → op A) : op A :=
  cc ← ConnFor c instance secrets;
  λ s, let '(s', r) := body cc.1 s in (cc.2 s', r).

(** ** Master keys and the derived provider *)
Definition readMasterKey (keyDir instance : string) : op string :=
  guard_ (negb (bool_decide (keyDir = "")))
    (errorf "cephenc: volume is encrypted but no master key dir configured and no %s secret given");;
  data ← read_or "cephenc: read encryption master key for instance %q: %w" (Join [keyDir; instance]);
  let master := trim_space data in
  guard_ (negb (bool_decide (master = ""))) (errorf "cephenc: empty encryption master key for instance %q");;
  mret master.
Definition derive (master keyID : string) : string :=
  sha256.hex (crypto.hkdf_Key (sha256.bytes_of master) ("bard-luks:" +:+ keyID) 32).
Definition derived_passphrase (keyDir instance keyID : string) : op string :=
  master ← readMasterKey keyDir instance;
  mret (derive master keyID).

(** [randomPassphrase], and the same steps with another message. *)
Definition fresh_key (fmt : string) : op string :=
  raw ← rand_or fmt 32; mret (sha256.hex (sha256.bytes_of raw)).
Definition randomPassphrase : op string := fresh_key "cephenc: generate key: %w".

(** ** Wrapping a data key with the master key *)
Definition kekCipher (kek : string) : list Z := crypto.hkdf_Key (sha256.bytes_of kek) "bard-luks-kek" 32.
Definition wrap_with (kek nonce dek : string) : string :=
  let n := sha256.bytes_of nonce in
  sha256.hex (n ++ crypto.Seal (kekCipher kek) n (sha256.bytes_of dek)).
Definition wrapDEK (kek dek : string) : op string :=
  nonce ← rand_or "cephenc: nonce: %w" crypto.NonceSize;
  mret (wrap_with kek nonce dek).
Definition unwrapDEK (kek wrapped : string) : res perror string :=
  match crypto.unhex wrapped with
  | Some raw =>
      if bool_decide (length raw < crypto.NonceSize) then Err (errorf "cephenc: malformed wrapped DEK")
      else match crypto.Open (kekCipher kek) (take crypto.NonceSize raw) (drop crypto.NonceSize raw) with
           | Some pt => Ok (crypto.string_of pt)
           | None => Err (errorf "cephenc: unwrap DEK (wrong master key or corrupt metadata): %w")
           end
  | None => Err (errorf "cephenc: malformed wrapped DEK")
  end.

(** ** The secrets-metadata provider *)

(** [if w, _ := MetaGet(...)]: an error counts as an empty answer. *)
Definition meta_or_empty (c : conn) (spec key : string) : op string :=
  catch (MetaGet c spec key) (λ r, mret (match r with Ok w => w | Err _ => "" end)).
Definition secrets_passphrase (c : conn) (instance spec : string) (secrets : strmap) : op string :=
  kek ← readMasterKey (MasterKeyDir S) instance;
  with_conn c instance secrets (λ c,
    wrapped ← MetaGet c spec MetaWrappedDEK;
    if negb (bool_decide (wrapped = "")) then lift (unwrapDEK kek wrapped)
    else
      dek ← fresh_key "cephenc: generate DEK: %w";
      wrapped ← wrapDEK kek dek;
      catch (MetaSet c spec MetaWrappedDEK wrapped) (λ r,
        match r with
        | Ok _ => mret dek
        | Err e =>
            w ← meta_or_empty c spec MetaWrappedDEK;
            if negb (bool_decide (w = "")) then lift (unwrapDEK kek w) else fail e
        end)).
Definition secrets_rotate (c : conn) (instance spec : string) (secrets : strmap)
    (apply : string → op unit) : op unit :=
  kek ← readMasterKey (MasterKeyDir S) instance;
  with_conn c instance secrets (λ c,
    newDEK ← randomPassphrase;
    wrapped ← wrapDEK kek newDEK;
    apply newDEK;;
    MetaSet c spec MetaWrappedDEK wrapped).

(** ** TLS material of a provider's HTTP client *)
Definition ca_file (readfmt nofmt : string) (c : KMSConfig) : op unit :=
  if bool_decide (kc_CAFile c = "") then mret tt
  else
    pem ← read_or readfmt (kc_CAFile c);
    guard_ (pem_certs pem) (errorf nofmt).
Definition httpClientTLS (c : KMSConfig) : op unit :=
  ca_file "cephenc: read caFile: %w" "cephenc: caFile %s held no certificates" c.

(** [http.NewRequestWithContext] and [Do]; a request that cannot be built fails the
    same way. *)
Definition http_or (e : perror) (rq : request) : op response := run_err (λ _, e) (httpDo rq).

(** ** fscrypt.go *)
Definition FscryptDirName : string := "bard-fscrypt".
Definition FscryptDataDir (stagingPath : string) : string := Join [stagingPath; FscryptDirName].
Definition deriveFscryptKey (passphrase : string) : list Z :=
  crypto.hkdf_Key (sha256.bytes_of passphrase) "bard-fscrypt-master-key" 64.
End common.

(** The kernel's side of fscrypt: [fscryptAddKey] (the key's identifier) and [fscryptSetPolicy], which
    fail with the format of their error and are written out over ioctls in Fscrypt.v, and making
    a directory, whose error says whether it is EEXIST. *)
Class FsCrypt (S : Type) := {
  add_encryption_key : string → list Z → S → S * res string (list Z);
  mkdir : string → Z → S → S * option bool;
  set_encryption_policy : string → list Z → S → S * res string unit;
}.
Definition unless_exists {S} (fmt : string) (f : S → S * option bool) : M S perror unit := λ s,
  let '(s', e) := f s in (s', match e with Some false => Err (errorf fmt) | _ => Ok tt end).
Definition SetupFscrypt {S} `{FsCrypt S} (stagingPath passphrase : string) : M S perror unit :=
  id ← run_err errorf (add_encryption_key stagingPath (deriveFscryptKey passphrase));
  let dir := FscryptDataDir stagingPath in
  unless_exists "cephenc: fscrypt mkdir %s: %w" (mkdir dir 448);;
  run_err errorf (set_encryption_policy dir id).
End cephenc.
