(* ===== verification/Fscrypt.v ===== *)
(** * fscrypt over ioctls (internal/cephenc/fscrypt.go)

    [fscryptAddKey] and [fscryptSetPolicy] down to the bytes the kernel is handed, the [FsCrypt] they
    make, and what the kernel documents of the two requests: a key is known by an identifier the
    kernel derives from it, a policy is set on a directory that has none, setting the one it
    has is no error, and setting another one fails with EEXIST. *)
From Stdlib Require Import Ascii.
From S2P Require Import Prelude GoStrings GoPath Json JsonText Protocol Sha256 GoCrypto Host GoOs KMS.

Module fscrypt.
Import bardplugin cephenc.

Class Ioctl (S : Type) := {
  os_open : string → S → S * res string Z;
  os_close : Z → S → S;
  os_mkdir : string → Z → S → S * option bool;
  (* the argument as the kernel leaves it, and errno *)
  ioctl : Z → Z → list Z → S → S * (list Z * Z);
}.

Definition FS_IOC_ADD_ENCRYPTION_KEY : Z := 0xc0506617.
Definition FS_IOC_SET_ENCRYPTION_POLICY : Z := 0x800c6613.
Definition FSCRYPT_KEY_SPEC_TYPE_IDENTIFIER : Z := 2.
Definition FSCRYPT_KEY_IDENTIFIER_SIZE : nat := 16.
Definition FSCRYPT_POLICY_V2 : Z := 2.
Definition FSCRYPT_MODE_AES_256_XTS : Z := 1.
Definition FSCRYPT_MODE_AES_256_CTS : Z := 4.
Definition FSCRYPT_POLICY_FLAGS_PAD_16 : Z := 2.
Definition EEXIST : Z := 17.

(** A number in [n] bytes, the lowest first, and back. *)
Fixpoint le (n : nat) (v : Z) : list Z :=
  match n with 0 => [] | S n => (v `mod` 256)%Z :: le n (v / 256)%Z end.
Fixpoint of_le (l : list Z) : Z := match l with [] => 0%Z | b :: l => (b + 256 * of_le l)%Z end.
Definition zeros (n : nat) : list Z := replicate n 0%Z.

(** [FscryptAddKeyArg] and the key after it: the specifier (type, padding, 32 bytes), the size of the
    key, the rest of the header.  The size is a uint32. *)
Definition add_key_arg (key : list Z) : list Z :=
  le 4 FSCRYPT_KEY_SPEC_TYPE_IDENTIFIER ++ zeros 36 ++ le 4 (Z.of_nat (length key)) ++ zeros 36 ++ key.
(** [FscryptPolicyV2]: version, the two modes, flags, four bytes that are zero, the identifier. *)
Definition policy_v2 (identifier : list Z) : list Z :=
  [FSCRYPT_POLICY_V2; FSCRYPT_MODE_AES_256_XTS; FSCRYPT_MODE_AES_256_CTS; FSCRYPT_POLICY_FLAGS_PAD_16] ++ zeros 4 ++
  take FSCRYPT_KEY_IDENTIFIER_SIZE (identifier ++ zeros FSCRYPT_KEY_IDENTIFIER_SIZE).

Section ioctls.
  Context {S : Type} `{Ioctl S}.

Definition ioctlPtr (fd req : Z) (arg : list Z) : M S Z (list Z) := λ s,
  let '(s', (arg', errno)) := ioctl fd req arg s in (s', if decide (errno = 0%Z) then Ok arg' else Err errno).
(** [f, err := os.Open(path); defer f.Close()]. *)
Definition with_open {A} (path : string) (body : Z → M S string A) : M S string A := λ s,
  match os_open path s with
  | (s', Err _) => (s', Err "cephenc: fscrypt open %s: %w")
  | (s', Ok fd) => let '(s'', r) := body fd s' in (os_close fd s'', r)
  end.
Definition fscryptAddKey (path : string) (key : list Z) : M S string (list Z) :=
  with_open path (λ fd,
    arg ← run_err (λ _, "cephenc: fscrypt add key: %w") (ioctlPtr fd FS_IOC_ADD_ENCRYPTION_KEY (add_key_arg key));
    mret (take FSCRYPT_KEY_IDENTIFIER_SIZE (drop 8 arg))).
Definition fscryptSetPolicy (dir : string) (identifier : list Z) : M S string unit :=
  with_open dir (λ fd,
    catch (ioctlPtr fd FS_IOC_SET_ENCRYPTION_POLICY (policy_v2 identifier)) (λ r,
      match r with
      | Ok _ => mret tt
      | Err errno => if decide (errno = EEXIST) then mret tt else fail "cephenc: fscrypt set policy on %s: %w"
      end)).
#[global] Instance ioctl_fscrypt : FsCrypt S := {|
  add_encryption_key := fscryptAddKey; mkdir := os_mkdir; set_encryption_policy := fscryptSetPolicy |}.
End ioctls.

(** ** What the kernel does *)
Class Kernel (S : Type) `{Ioctl S} := {
  key_id : list Z → list Z;
  keyring : S → gset (list Z);
  policy : string → S → option (list Z);
  opened : Z → S → option string;
  key_id_size : ∀ k, length (key_id k) = FSCRYPT_KEY_IDENTIFIER_SIZE;
  open_opens : ∀ p s s' fd, os_open p s = (s', Ok fd) → opened fd s' = Some p;
  open_keeps : ∀ p s, keyring (os_open p s).1 = keyring s ∧ ∀ d, policy d (os_open p s).1 = policy d s;
  close_keeps : ∀ fd s, keyring (os_close fd s) = keyring s ∧ ∀ d, policy d (os_close fd s) = policy d s;
  mkdir_keeps : ∀ p m s, keyring (os_mkdir p m s).1 = keyring s ∧ ∀ d, policy d (os_mkdir p m s).1 = policy d s;
  (* the key is in the buffer after the header, of the size the header has *)
  add_key_adds : ∀ fd p arg s s' arg', opened fd s = Some p → ioctl fd FS_IOC_ADD_ENCRYPTION_KEY arg s = (s', (arg', 0%Z)) →
    of_le (take 4 arg) = FSCRYPT_KEY_SPEC_TYPE_IDENTIFIER →
    let id := key_id (take (Z.to_nat (of_le (take 4 (drop 40 arg)))) (drop 80 arg)) in
    take FSCRYPT_KEY_IDENTIFIER_SIZE (drop 8 arg') = id ∧ keyring s' = {[id]} ∪ keyring s;
  add_key_keeps : ∀ fd arg s d, policy d (ioctl fd FS_IOC_ADD_ENCRYPTION_KEY arg s).1 = policy d s;
  set_policy_sets : ∀ fd d pol s s' arg', opened fd s = Some d →
    ioctl fd FS_IOC_SET_ENCRYPTION_POLICY pol s = (s', (arg', 0%Z)) →
    policy d s' = Some pol ∧ (policy d s = None ∨ policy d s = Some pol);
  set_policy_exists : ∀ fd d pol s s' arg', opened fd s = Some d →
    ioctl fd FS_IOC_SET_ENCRYPTION_POLICY pol s = (s', (arg', EEXIST)) →
    policy d s' = policy d s ∧ ∃ q, policy d s = Some q ∧ q ≠ pol;
  set_policy_keeps : ∀ fd pol s, keyring (ioctl fd FS_IOC_SET_ENCRYPTION_POLICY pol s).1 = keyring s;
}.

(** ** The buffer *)
Lemma of_le_le n v : (0 ≤ v < 256 ^ Z.of_nat n)%Z → of_le (le n v) = v.
Proof.
  revert v. induction n as [|n IH]; intros v Hv; [simpl in *; lia|]. cbn [le of_le].
  rewrite IH; [pose proof (Z.div_mod v 256); lia|].
  replace (256 ^ Z.of_nat (S n))%Z with (256 * 256 ^ Z.of_nat n)%Z in Hv by (rewrite Nat2Z.inj_succ, Z.pow_succ_r by lia; lia).
  split; [apply Z.div_pos; lia|]. apply Z.div_lt_upper_bound; lia.
Qed.
Lemma length_le n v : length (le n v) = n.
Proof. revert v. induction n; intros; simpl; auto. Qed.
(** The kernel reads the type and the key back from where they were put. *)
Lemma add_key_layout key : (Z.of_nat (length key) < 256 ^ 4)%Z → let arg := add_key_arg key in
  of_le (take 4 arg) = FSCRYPT_KEY_SPEC_TYPE_IDENTIFIER ∧
  take (Z.to_nat (of_le (take 4 (drop 40 arg)))) (drop 80 arg) = key.
Proof.
  intros Hlen arg.
  assert (drop 40 arg = le 4 (Z.of_nat (length key)) ++ zeros 36 ++ key) as H40.
  { unfold arg, add_key_arg. rewrite (app_assoc (le 4 _) (zeros 36)). by apply drop_app_length'. }
  assert (drop 80 arg = key) as H80.
  { change (drop 80 arg) with (drop (40 + 40) arg). rewrite <- drop_drop, H40, app_assoc. apply drop_app_length'. by rewrite length_app, length_le. }
  split; [done|]. rewrite H40, H80, (take_app_length' (le 4 _)) by (by rewrite length_le).
  rewrite of_le_le by (simpl; lia). rewrite Nat2Z.id. by apply take_ge.
Qed.
Lemma policy_v2_inj i j : length i = FSCRYPT_KEY_IDENTIFIER_SIZE → length j = FSCRYPT_KEY_IDENTIFIER_SIZE → policy_v2 i = policy_v2 j → i = j.
Proof.
  intros Hi Hj Heq. unfold policy_v2 in Heq. rewrite !take_app_length' in Heq by done. by simplify_list_eq.
Qed.
Lemma fscrypt_key_size pass : (Z.of_nat (length (deriveFscryptKey pass)) < 256 ^ 4)%Z.
Proof. unfold deriveFscryptKey, crypto.hkdf_Key. rewrite length_take. lia. Qed.

Section kernel.
  Context {S : Type} `{Kernel S}.
  Implicit Types s : S.

Lemma with_open_Ok {A} p (body : Z → M S string A) s s' a : with_open p body s = (s', Ok a) →
  ∃ fd s1 s2, opened fd s1 = Some p ∧ keyring s1 = keyring s ∧ (∀ d, policy d s1 = policy d s) ∧
    body fd s1 = (s2, Ok a) ∧ keyring s' = keyring s2 ∧ ∀ d, policy d s' = policy d s2.
Proof.
  unfold with_open. pose proof (open_keeps p s) as [Hk Hp]. destruct (os_open p s) as [s1 [fd|e]] eqn:Ho; [|done]. simpl in *.
  destruct (body fd s1) as [s2 r] eqn:Hb. intros [= <- ->]. destruct (close_keeps fd s2). exists fd, s1, s2. split_and!; try done.
  by apply open_opens in Ho.
Qed.
Lemma ioctlPtr_Ok fd req arg s s' arg' : ioctlPtr fd req arg s = (s', Ok arg') → ioctl fd req arg s = (s', (arg', 0%Z)).
Proof. unfold ioctlPtr. destruct (ioctl fd req arg s) as [s1 [arg1 errno]]. case_decide; intros; by simplify_eq. Qed.

Lemma fscryptAddKey_adds p key s s' id : (Z.of_nat (length key) < 256 ^ 4)%Z → fscryptAddKey p key s = (s', Ok id) →
  id = key_id key ∧ id ∈ keyring s' ∧ ∀ d, policy d s' = policy d s.
Proof.
  intros Hlen (fd & s1 & s2 & Ho & _ & Hp1 & Hb & Hk2 & Hp2)%with_open_Ok. revert Hb.
  unfold run_err, mbind, M_bind. destruct (ioctlPtr fd _ _ s1) as [s3 [arg|e]] eqn:Hi; [|done]. simpl. intros [= <- <-].
  apply ioctlPtr_Ok in Hi. destruct (add_key_layout key Hlen) as [Hty Hkey].
  destruct (add_key_adds _ _ _ _ _ _ Ho Hi Hty) as [Hid Hring]. rewrite Hkey in Hid, Hring. rewrite Hid. split_and!; [done| |].
  - rewrite Hk2, Hring. set_solver.
  - intros d. rewrite Hp2, <- Hp1. generalize (add_key_keeps fd (add_key_arg key) s1 d). by rewrite Hi.
Qed.
Lemma fscryptSetPolicy_sets d id s s' : fscryptSetPolicy d id s = (s', Ok tt) →
  keyring s' = keyring s ∧ (policy d s = None → policy d s' = Some (policy_v2 id)) ∧ ∀ q, policy d s = Some q → policy d s' = Some q.
Proof.
  intros (fd & s1 & s2 & Ho & Hk1 & Hp1 & Hb & Hk2 & Hp2)%with_open_Ok. revert Hb. rewrite Hk2, Hp2, <- Hp1, <- Hk1.
  pose proof (set_policy_keeps fd (policy_v2 id) s1) as Hk. unfold catch, ioctlPtr.
  destruct (ioctl fd _ _ s1) as [s3 [arg errno]] eqn:Hi. simpl in Hk. destruct (decide (errno = 0%Z)) as [->|Hne].
  - intros [= <-]. apply (set_policy_sets _ _ _ _ _ _ Ho) in Hi as [-> [Hold|Hold]]; rewrite Hold; (split_and!; [done..|]); intros; by simplify_eq.
  - case_decide as He; [|done]. subst. intros [= <-]. apply (set_policy_exists _ _ _ _ _ _ Ho) in Hi as (-> & q & -> & _). split_and!; done.
Qed.

End kernel.

(** ** A kernel

    The keyring, the policies and the open files; an identifier is the first bytes of the key. *)
Record kernel := mkKernel { k_ring : gset (list Z); k_policies : gmap string (list Z); k_open : gmap Z string; k_dirs : gset string }.
Definition first_bytes (k : list Z) : list Z := take FSCRYPT_KEY_IDENTIFIER_SIZE (k ++ zeros FSCRYPT_KEY_IDENTIFIER_SIZE).
Definition fds (k : kernel) : Z := Z.of_nat (size (k_open k)).
Definition kernel_open (p : string) (k : kernel) : kernel * res string Z :=
  (mkKernel (k_ring k) (k_policies k) (<[fds k := p]> (k_open k)) (k_dirs k), Ok (fds k)).
Definition kernel_mkdir (p : string) (_ : Z) (k : kernel) : kernel * option bool :=
  if decide (p ∈ k_dirs k) then (k, Some true) else (mkKernel (k_ring k) (k_policies k) (k_open k) ({[p]} ∪ k_dirs k), None).
Definition kernel_ioctl (fd req : Z) (arg : list Z) (k : kernel) : kernel * (list Z * Z) :=
  match k_open k !! fd with
  | None => (k, (arg, 9%Z))
  | Some d =>
      if decide (req = FS_IOC_ADD_ENCRYPTION_KEY) then
        let id := first_bytes (take (Z.to_nat (of_le (take 4 (drop 40 arg)))) (drop 80 arg)) in
        (mkKernel ({[id]} ∪ k_ring k) (k_policies k) (k_open k) (k_dirs k), (take 8 (arg ++ zeros 8) ++ id ++ drop 24 arg, 0%Z))
      else match k_policies k !! d with
      | None => (mkKernel (k_ring k) (<[d := arg]> (k_policies k)) (k_open k) (k_dirs k), (arg, 0%Z))
      | Some q => (k, (arg, if decide (q = arg) then 0%Z else EEXIST))
      end
  end.
#[local] Instance kernel_ioctls : Ioctl kernel := {|
  os_open := kernel_open; os_close _ k := k; os_mkdir := kernel_mkdir; ioctl := kernel_ioctl |}.
#[local] Program Instance kernel_laws : Kernel kernel := {|
  key_id := first_bytes; keyring := k_ring; policy d k := k_policies k !! d; opened fd k := k_open k !! fd |}.
Next Obligation. intros k. unfold first_bytes. rewrite length_take, length_app. unfold zeros. rewrite length_replicate. lia. Qed.
Next Obligation. intros p k k' fd. simpl. unfold kernel_open. intros [= <- <-]. simpl. apply lookup_insert_eq. Qed.
Next Obligation. done. Qed.
Next Obligation. done. Qed.
Next Obligation. intros p m k. simpl. unfold kernel_mkdir. by case_decide. Qed.
Next Obligation.
  intros fd p arg k k' arg' Ho. simpl in *. unfold kernel_ioctl. rewrite Ho, decide_True by done. intros [= <- <-] _. simpl. split; [|done].
  rewrite drop_app_length' by (rewrite length_take, length_app; unfold zeros; rewrite length_replicate; lia). apply take_app_length'.
  unfold first_bytes. rewrite length_take, length_app. unfold zeros. rewrite length_replicate. lia.
Qed.
Next Obligation. intros fd arg k d. simpl. unfold kernel_ioctl. by destruct (k_open k !! fd). Qed.
Next Obligation.
  intros fd d pol k k' arg' Ho. simpl in *. unfold kernel_ioctl. rewrite Ho, decide_False by done. case_match eqn:Hp; intros [= <- <-]; simpl.
  - case_decide; [|done]. subst. auto.
  - rewrite lookup_insert_eq. auto.
Qed.
Next Obligation.
  intros fd d pol k k' arg' Ho. simpl in *. unfold kernel_ioctl. rewrite Ho, decide_False by done. case_match eqn:Hp; [|by intros [= <- <-]].
  case_decide; intros [= <- <-]. split; [done|]. eauto.
Qed.
Next Obligation.
  intros fd pol k. simpl. unfold kernel_ioctl. destruct (k_open k !! fd); [|done]. rewrite decide_False by done. by case_match.
Qed.

Definition fresh_kernel : kernel := mkKernel ∅ ∅ ∅ ∅.
Definition staged_with (passphrase : string) (k : kernel) : kernel * res perror unit := SetupFscrypt "/staging" passphrase k.
Definition data_policy (k : kernel) : option (list Z) := policy "/staging/bard-fscrypt" k.
Definition policy_of (passphrase : string) : list Z := policy_v2 (first_bytes (deriveFscryptKey passphrase)).
(** Staging a volume again is no change; staging it with another passphrase is no error either, and leaves
    the directory under the key it had: the kernel answers EEXIST for a policy that differs. *)
Example staged_again :
  let k := (staged_with "secret" fresh_kernel).1 in
  data_policy k = Some (policy_of "secret") ∧ (staged_with "secret" k).2 = Ok tt ∧ data_policy (staged_with "secret" k).1 = data_policy k.
Proof. vm_compute. done. Qed.
Example staged_with_another :
  let k := (staged_with "secret" fresh_kernel).1 in
  (staged_with "other" k).2 = Ok tt ∧ data_policy (staged_with "other" k).1 = Some (policy_of "secret") ∧ policy_of "other" ≠ policy_of "secret".
Proof. vm_compute. done. Qed.
End fscrypt.
