(* ===== verification/KMSRest.v ===== *)
(** * Key providers over REST: HashiCorp Vault and Azure Key Vault (internal/cephenc)

    The Vault provider of kms.go and kms_azure.go.  Both keep a passphrase per volume
    in an external store, under a name derived from the instance and the volume, and
    authenticate with a token that is static, read from a file, or obtained and cached. *)
From Stdlib Require Import Ascii.
From S2P Require Import Prelude GoStrings GoPath Json Protocol Sha256 GoCrypto Host KMS.

Module rest.
Import bardplugin cephenc.

(** A token with its lease: renewed 30 s early, and never sooner than in 30 s. *)
Definition token_ttl (seconds : Z) : Z :=
  let ttl := wrap64 (seconds * second_ns) in
  ((if (ttl <=? minute)%Z then minute else ttl) - 30 * second_ns)%Z.
(** [return fmt.Errorf(fmt, err)] on any error: a status inside stays visible. *)
Definition wrap_as {S A} (fmt : string) (m : M S perror A) : M S perror A :=
  run_err (λ e, mkPerror (as_StatusError e) fmt) m.
Definition text_map (l : list (string * string)) : payload :=
  BJson (JObj (map (λ p, (p.1, enc p.2)) l)).

(** ** Vault *)
Record vaultKeyService := mkVault {
  v_id : string;                       (* the object, as the key of its token cache *)
  v_addr : string; v_kvMount : string; v_pathPrefix : string;
  v_token : string; v_tokenFile : string;
  v_authMethod : string; v_role : string; v_k8sAuthMount : string; v_saTokenFile : string }.

Section vault.
  Context {S : Type} `{Env S} (v : vaultKeyService).
  Abbreviation op A := (M S perror A).

Definition vault_invalidate : op unit := modify (λ s, put_token (v_id v) ("", (get_token (v_id v) s).2) s).
Definition kubernetesToken : op string :=
  cached ← gets (get_token (v_id v));
  t0 ← gets now;
  if negb (bool_decide (cached.1 = "")) && (t0 <? cached.2)%Z then mret cached.1
  else
    jwt ← read_or "cephenc: read service account token: %w" (v_saTokenFile v);
    guard_ (negb (bool_decide (v_role v = ""))) (errorf "cephenc: vault kubernetes auth requires a role");;
    resp ← http_or (errorf "cephenc: vault k8s login: %w")
      (mkRequest "POST" (v_addr v +:+ "/v1/auth/" +:+ v_k8sAuthMount v +:+ "/login")
         [("Content-Type", "application/json")] (text_map [("jwt", trim_space jwt); ("role", v_role v)]));
    guard_ (rs_status resp =? 200)%Z (errorf "cephenc: vault k8s login: HTTP %d: %s");;
    match unmarshal ["auth"; "client_token"] (rs_body resp), unmarshal ["auth"; "lease_duration"] (rs_body resp) with
    | Some token, Some lease =>
        guard_ (negb (bool_decide (token = ""))) (errorf "cephenc: vault login returned no token");;
        t1 ← gets now;
        modify (put_token (v_id v) (token, t1 + token_ttl lease)%Z);;
        mret token
    | _, _ => fail (errorf "cephenc: parse vault login: %w")
    end.
Definition tok : op string :=
  if bool_decide (v_authMethod v = "kubernetes") then kubernetesToken
  else if negb (bool_decide (v_tokenFile v = "")) then
    b ← read_or "cephenc: read vault token file: %w" (v_tokenFile v); mret (trim_space b)
  else if negb (bool_decide (v_token v = "")) then mret (v_token v)
  else fail (errorf "cephenc: vault KMS has neither token nor tokenFile").

Definition vault_url (subPath : string) : string := v_addr v +:+ "/v1/" +:+ v_kvMount v +:+ "/" +:+ subPath.
Definition vault_doOnce (method subPath : string) (body : payload) : op response :=
  token ← tok;
  http_or (errorf "%w")
    (mkRequest method (vault_url subPath)
       (("X-Vault-Token", token) ::
        match body with BNone => [] | _ => [("Content-Type", "application/json")] end) body).
Definition vault_do (method subPath : string) (body : payload) : op response :=
  resp ← vault_doOnce method subPath body;
  if bool_decide (v_authMethod v = "kubernetes") && ((rs_status resp =? 403)%Z || (rs_status resp =? 401)%Z)
  then vault_invalidate;; vault_doOnce method subPath body
  else mret resp.

Definition secretPath (instance volumeKey : string) : string :=
  v_pathPrefix v +:+ "/" +:+ sha256.hex (take 16 (sha256.Sum256 (instance +:+ "|" +:+ volumeKey))).

(** [read]: the passphrase when one is stored. *)
Definition vault_read (path : string) : op (option string) :=
  resp ← wrap_as "cephenc: vault read: %w" (vault_do "GET" ("data/" +:+ path) BNone);
  if (rs_status resp =? 404)%Z then mret None
  else
    guard_ (rs_status resp =? 200)%Z (errorf "cephenc: vault read %s: HTTP %d: %s");;
    match unmarshal ["data"; "data"; "passphrase"] (rs_body resp) with
    | Some p => mret (if bool_decide (p = "") then None else Some p)
    | None => fail (errorf "cephenc: parse vault read: %w")
    end.
Definition vault_payload (pass : string) (createOnly : bool) : payload :=
  BJson (JObj (("data", JObj [("passphrase", enc pass)]) ::
    (if createOnly then [("options", JObj [("cas", JNum "0")])] else []))).
Definition vault_write (path pass : string) (createOnly : bool) : op unit :=
  resp ← wrap_as "cephenc: vault write: %w" (vault_do "POST" ("data/" +:+ path) (vault_payload pass createOnly));
  guard_ ((rs_status resp =? 200)%Z || (rs_status resp =? 204)%Z) (errorf "cephenc: vault write %s: HTTP %d: %s").

Definition vault_passphrase (instance spec : string) : op string :=
  let path := secretPath instance spec in
  existing ← vault_read path;
  match existing with
  | Some p => mret p
  | None =>
      pass ← fresh_key "cephenc: generate passphrase: %w";
      catch (vault_write path pass true) (λ r,
        match r with
        | Ok _ => mret pass
        | Err e =>
            catch (vault_read path) (λ r,
              match r with Ok (Some p) => mret p | _ => fail e end)
        end)
  end.
Definition vault_cloneKey (instance sourceSpec cloneSpec : string) : op unit :=
  found ← vault_read (secretPath instance sourceSpec);
  match found with
  | None => mret tt
  | Some pass =>
      let dst := secretPath instance cloneSpec in
      catch (vault_write dst pass true) (λ r,
        match r with
        | Ok _ => mret tt
        | Err e =>
            catch (vault_read dst) (λ r,
              match r with
              | Ok (Some existing) => if bool_decide (existing = pass) then mret tt else fail e
              | _ => fail e
              end)
        end)
  end.
Definition vault_rotateKey (instance spec : string) (apply : string → op unit) : op unit :=
  pass ← randomPassphrase;
  apply pass;;
  vault_write (secretPath instance spec) pass false.
Definition vault_deleteKey (instance volumeKey : string) : op unit :=
  resp ← wrap_as "cephenc: vault delete: %w" (vault_do "DELETE" ("metadata/" +:+ secretPath instance volumeKey) BNone);
  guard_ ((rs_status resp =? 204)%Z || (rs_status resp =? 200)%Z || (rs_status resp =? 404)%Z)
    (errorf "cephenc: vault delete %s: HTTP %d: %s").
End vault.

(** ** Azure Key Vault *)
Record azureTokenSource := mkAzureToken {
  at_id : string; at_method : string; at_token : string; at_tokenFile : string; at_aadEndpoint : string;
  at_tenantID : string; at_clientID : string; at_clientSecret : string; at_clientSecretFile : string }.
Record azureKVKeyService := mkAzure {
  az_vaultURL : string; az_apiVersion : string; az_secretPrefix : string; az_tok : azureTokenSource }.

Section azure.
  Context {S : Type} `{Env S}.
  Abbreviation op A := (M S perror A).

Definition azureHTTPClient (c : KMSConfig) : op unit :=
  ca_file "cephenc: azure-kv read caFile: %w" "cephenc: azure-kv caFile %s held no certificates" c.
Definition newAzureKVKeyService (id : string) (c : KMSConfig) : op azureKVKeyService :=
  guard_ (negb (bool_decide (kc_VaultURL c = ""))) (errorf "cephenc: azure-kv provider requires vaultUrl");;
  azureHTTPClient c;;
  mret (mkAzure (trim_right_byte slash (kc_VaultURL c)) "7.4" (orDefault (kc_SecretPrefix c) "bard-luks")
    (mkAzureToken id (orDefault (kc_AuthMethod c) "clientSecret") (kc_Token c) (kc_TokenFile c)
       (trim_right_byte slash (orDefault (kc_AADEndpoint c) "https://login.microsoftonline.com"))
       (kc_TenantID c) (kc_ClientID c) (kc_ClientSecret c) (kc_ClientSecretFile c))).

Section token.
  Context (t : azureTokenSource).
Definition azure_invalidate : op unit := modify (λ s, put_token (at_id t) ("", (get_token (at_id t) s).2) s).
Definition clientCredentials : op string :=
  cached ← gets (get_token (at_id t));
  t0 ← gets now;
  if negb (bool_decide (cached.1 = "")) && (t0 <? cached.2)%Z then mret cached.1
  else
    guard_ (negb (bool_decide (at_tenantID t = "") || bool_decide (at_clientID t = "")))
      (errorf "cephenc: azure-kv client-credentials auth requires tenantId and clientId");;
    secret ← (if bool_decide (at_clientSecretFile t = "") then mret (at_clientSecret t)
              else b ← read_or "cephenc: azure-kv read client secret file: %w" (at_clientSecretFile t);
                   mret (trim_space b));
    guard_ (negb (bool_decide (secret = ""))) (errorf "cephenc: azure-kv client-credentials auth has no clientSecret");;
    resp ← http_or (errorf "cephenc: azure-kv AAD token: %w")
      (mkRequest "POST" (at_aadEndpoint t +:+ "/" +:+ at_tenantID t +:+ "/oauth2/v2.0/token")
         [("Content-Type", "application/x-www-form-urlencoded")]
         (BForm [("client_id", at_clientID t); ("client_secret", secret); ("grant_type", "client_credentials");
                 ("scope", "https://vault.azure.net/.default")]));
    guard_ (rs_status resp =? 200)%Z (errorf "cephenc: azure-kv AAD token: HTTP %d: %s");;
    match unmarshal ["access_token"] (rs_body resp), unmarshal ["expires_in"] (rs_body resp) with
    | Some token, Some expires =>
        guard_ (negb (bool_decide (token = ""))) (errorf "cephenc: azure-kv AAD returned no token");;
        t1 ← gets now;
        modify (put_token (at_id t) (token, t1 + token_ttl expires)%Z);;
        mret token
    | _, _ => fail (errorf "cephenc: azure-kv parse AAD token: %w")
    end.
Definition azure_get_token : op string :=
  if bool_decide (at_method t = "token") then
    if negb (bool_decide (at_tokenFile t = "")) then
      b ← read_or "cephenc: azure-kv read token file: %w" (at_tokenFile t); mret (trim_space b)
    else if negb (bool_decide (at_token t = "")) then mret (at_token t)
    else fail (errorf "cephenc: azure-kv token auth has neither token nor tokenFile")
  else clientCredentials.
End token.

Context (a : azureKVKeyService).

Definition azure_url (path : string) : string := az_vaultURL a +:+ path +:+ "?api-version=" +:+ az_apiVersion a.
Definition azure_doOnce (method path : string) (body : payload) : op response :=
  token ← azure_get_token (az_tok a);
  http_or (errorf "%w")
    (mkRequest method (azure_url path)
       (("Authorization", "Bearer " +:+ token) ::
        match body with BNone => [] | _ => [("Content-Type", "application/json")] end) body).
Definition azure_do (method path : string) (body : payload) : op response :=
  resp ← azure_doOnce method path body;
  if (rs_status resp =? 401)%Z then azure_invalidate (az_tok a);; azure_doOnce method path body
  else mret resp.

Definition secretName (instance spec : string) : string :=
  az_secretPrefix a +:+ "-" +:+ sha256.hex (take 20 (sha256.Sum256 (instance +:+ "|" +:+ spec))).
Definition getSecret (name : string) : op (option string) :=
  resp ← wrap_as "cephenc: azure-kv get: %w" (azure_do "GET" ("/secrets/" +:+ name) BNone);
  if (rs_status resp =? 404)%Z then mret None
  else
    guard_ (rs_status resp =? 200)%Z (errorf "cephenc: azure-kv get %s: HTTP %d: %s");;
    match unmarshal ["value"] (rs_body resp) with
    | Some p => mret (if bool_decide (p = "") then None else Some p)
    | None => fail (errorf "cephenc: azure-kv parse get: %w")
    end.
Definition setSecret (name value : string) : op unit :=
  resp ← wrap_as "cephenc: azure-kv set: %w" (azure_do "PUT" ("/secrets/" +:+ name) (text_map [("value", value)]));
  guard_ (rs_status resp =? 200)%Z (errorf "cephenc: azure-kv set %s: HTTP %d: %s").
Definition azure_passphrase (instance spec : string) : op string :=
  let name := secretName instance spec in
  existing ← getSecret name;
  match existing with
  | Some p => mret p
  | None =>
      pass ← fresh_key "cephenc: azure-kv generate passphrase: %w";
      catch (setSecret name pass) (λ r,
        match r with
        | Ok _ => mret pass
        | Err e =>
            catch (getSecret name) (λ r,
              match r with Ok (Some p) => mret p | _ => fail e end)
        end)
  end.
Definition azure_cloneKey (instance sourceSpec cloneSpec : string) : op unit :=
  found ← getSecret (secretName instance sourceSpec);
  match found with
  | None => mret tt
  | Some p => setSecret (secretName instance cloneSpec) p
  end.
Definition azure_rotateKey (instance spec : string) (apply : string → op unit) : op unit :=
  pass ← randomPassphrase;
  apply pass;;
  setSecret (secretName instance spec) pass.
Definition azure_deleteKey (instance spec : string) : op unit :=
  resp ← wrap_as "cephenc: azure-kv delete: %w" (azure_do "DELETE" ("/secrets/" +:+ secretName instance spec) BNone);
  guard_ ((rs_status resp =? 200)%Z || (rs_status resp =? 204)%Z || (rs_status resp =? 404)%Z)
    (errorf "cephenc: azure-kv delete: HTTP %d: %s").
End azure.
End rest.
