(* ===== verification/KMSAws.v ===== *)
(** * Key providers over AWS KMS (internal/cephenc/kms_aws.go)

    Envelope encryption: KMS makes a data key and its encrypted form, which is kept in
    the volume's metadata.  Requests are signed with AWS Signature V4, modelled down to
    the bytes; credentials come from a file, the configuration, the environment, or an
    STS exchange whose result is cached. *)
From Stdlib Require Import Ascii.
From S2P Require Import Prelude GoStrings GoPath Json Protocol Sha256 GoCrypto Host KMS KMSRest.

Module aws.
Import bardplugin cephenc rest.

(** ** UTC dates, as [time.Format] prints them *)
Definition pad2 (n : Z) : string := if (n <? 10)%Z then "0" +:+ Itoa n else Itoa n.
(** The civil date of a day number since 1970-01-01. *)
Definition civil (days : Z) : Z * Z * Z :=
  let z := (days + 719468)%Z in
  let era := (z / 146097)%Z in
  let doe := (z mod 146097)%Z in
  let yoe := ((doe - doe / 1460 + doe / 36524 - doe / 146096) / 365)%Z in
  let doy := (doe - (365 * yoe + yoe / 4 - yoe / 100))%Z in
  let mp := ((5 * doy + 2) / 153)%Z in
  let d := (doy - (153 * mp + 2) / 5 + 1)%Z in
  let m := (if mp <? 10 then mp + 3 else mp - 9)%Z in
  let y := (yoe + era * 400 + (if m <=? 2 then 1 else 0))%Z in
  (y, m, d).
Definition pad4 (n : Z) : string :=
  (if (n <? 10)%Z then "000" else if (n <? 100)%Z then "00" else if (n <? 1000)%Z then "0" else "") +:+ Itoa n.
Definition dateStamp (ns : Z) : string :=
  let '(y, m, d) := civil (ns / second_ns / 86400) in pad4 y +:+ pad2 m +:+ pad2 d.
Definition amzDate (ns : Z) : string :=
  let t := ((ns / second_ns) mod 86400)%Z in
  dateStamp ns +:+ "T" +:+ pad2 (t / 3600) +:+ pad2 ((t mod 3600) / 60) +:+ pad2 (t mod 60) +:+ "Z".
Example amz_date_ex :
  map amzDate [0%Z; 1440938160000000000%Z; 1709164799000000000%Z; 1709251199000000000%Z] =
  ["19700101T000000Z"; "20150830T123600Z"; "20240228T235959Z"; "20240229T235959Z"].
Proof. vm_compute. reflexivity. Qed.

(** ** Signature V4 *)
Definition nl : string := String (ascii_of_nat 10) "".
Definition sha256Hex (s : string) : string := sha256.hex (sha256.Sum256 s).
Definition hmac (key : list Z) (data : string) : list Z := crypto.hmacSHA256 key (sha256.bytes_of data).
(** The host part of an endpoint's URL. *)
Definition url_host (u : string) : string :=
  match split_on slash u with
  | _ :: _ :: h :: _ => h
  | _ => ""
  end.
Definition sorted_headers (headers : strmap) : list (string * string) := by_key headers.
Definition canonical_headers (hs : list (string * string)) : string :=
  foldr (λ p acc, p.1 +:+ ":" +:+ p.2 +:+ nl +:+ acc) "" hs.
Definition signing_key (secret date region : string) : list Z :=
  hmac (hmac (hmac (hmac (sha256.bytes_of ("AWS4" +:+ secret)) date) region) "kms") "aws4_request".
Definition signed_headers (endpoint target : string) (payloadHash date : string) (creds : awsCreds) : strmap :=
  let headers : strmap :=
    <["content-type" := "application/x-amz-json-1.1"]> (<["host" := url_host endpoint]>
    (<["x-amz-content-sha256" := payloadHash]> (<["x-amz-date" := date]> {["x-amz-target" := target]}))) in
  if bool_decide (sessionToken creds = "") then headers
  else <["x-amz-security-token" := sessionToken creds]> headers.
(** The value of the Authorization header. *)
Definition authorization (region : string) (hs : list (string * string)) (payloadHash : string)
    (creds : awsCreds) (t : Z) : string :=
  let signedHeaders := join ";" hs.*1 in
  let canonicalRequest := join nl ["POST"; "/"; ""; canonical_headers hs; signedHeaders; payloadHash] in
  let scope := dateStamp t +:+ "/" +:+ region +:+ "/kms/aws4_request" in
  let stringToSign := join nl ["AWS4-HMAC-SHA256"; amzDate t; scope; sha256Hex canonicalRequest] in
  let signature := sha256.hex (hmac (signing_key (secretAccessKey creds) (dateStamp t) region) stringToSign) in
  "AWS4-HMAC-SHA256 Credential=" +:+ accessKeyID creds +:+ "/" +:+ scope +:+ ", SignedHeaders=" +:+ signedHeaders +:+
  ", Signature=" +:+ signature.
(** [signedRequest]; [text] is the body as [json.Marshal] writes it. *)
Definition signedRequest (endpoint region target : string) (body : payload) (text : string) (creds : awsCreds)
    (t : Z) : request :=
  let payloadHash := sha256Hex text in
  let hs := sorted_headers (signed_headers endpoint target payloadHash (amzDate t) creds) in
  mkRequest "POST" (endpoint +:+ "/") (hs ++ [("Authorization", authorization region hs payloadHash creds t)]) body.

(** ** Credentials *)

(** [parseAWSCredentials]: the first occurrence of each key. *)
Definition first_set (old new : string) : string := if bool_decide (old = "") then new else old.
Definition credential_line (c : awsCreds) (line : string) : awsCreds :=
  let line := trim_space line in
  if bool_decide (line = "") || has_prefix "#" line || has_prefix "[" line then c
  else match cut_on "=" line with
  | None => c
  | Some (k, v) =>
      let k := trim_space k in let v := trim_space v in
      if bool_decide (k = "aws_access_key_id") then mkCreds (first_set (accessKeyID c) v) (secretAccessKey c) (sessionToken c)
      else if bool_decide (k = "aws_secret_access_key") then mkCreds (accessKeyID c) (first_set (secretAccessKey c) v) (sessionToken c)
      else if bool_decide (k = "aws_session_token") then mkCreds (accessKeyID c) (secretAccessKey c) (first_set (sessionToken c) v)
      else c
  end.
Definition no_creds : awsCreds := mkCreds "" "" "".
Definition parseAWSCredentials (s : string) : awsCreds :=
  foldl credential_line no_creds (split_on (ascii_of_nat 10) s).

Record awsSTSCredsSource := mkSTS {
  sts_id : string; sts_endpoint : string; sts_region : string; sts_roleARN : string; sts_sessionName : string;
  sts_tokenFile : string }.
Inductive awsCredsResolver :=
  | awsCredsSource (file : string) (static : awsCreds)
  | STSSource (s : awsSTSCredsSource).
Record awsKMSKeyService := mkAws {
  aws_region : string; aws_keyID : string; aws_endpoint : string; aws_creds : awsCredsResolver }.

Definition newAWSKMSBase (c : KMSConfig) (creds : awsCredsResolver) : awsKMSKeyService :=
  let region := orDefault (kc_Region c) "us-east-1" in
  let ep := orDefault (kc_Endpoint c) ("https://kms." +:+ region +:+ ".amazonaws.com") in
  mkAws region (kc_KeyID c) (trim_right_byte slash ep) creds.
Definition newAWSKMSKeyService (c : KMSConfig) : awsKMSKeyService :=
  newAWSKMSBase c (awsCredsSource (kc_CredentialsFile c)
    (mkCreds (kc_AccessKeyID c) (kc_SecretAccessKey c) (kc_SessionToken c))).
(** [None] is the provider that fails every request for want of a role. *)
Definition newAWSSTSMetadataKeyService (id : string) (c : KMSConfig) : option awsKMSKeyService :=
  if bool_decide (kc_RoleARN c = "") then None
  else
    let region := orDefault (kc_Region c) "us-east-1" in
    Some (newAWSKMSBase c (STSSource (mkSTS id
      (trim_right_byte slash (orDefault (kc_STSEndpoint c) ("https://sts." +:+ region +:+ ".amazonaws.com")))
      region (kc_RoleARN c) (orDefault (kc_RoleSessionName c) "bard-csi-aws-sts-metadata")
      (orDefault (kc_WebIdentityTokenFile c) "/var/run/secrets/kubernetes.io/serviceaccount/token")))).

Section provider.
  (** [marshal]: the text [json.Marshal] gives for a value. *)
  Context {S : Type} `{Env S} `{KHost S} (marshal : json → string).
  Abbreviation op A := (M S perror A).

Definition assumeRole (s : awsSTSCredsSource) (token : string) : op (awsCreds * option Z) :=
  resp ← http_or (errorf "cephenc: aws-sts-metadata AssumeRoleWithWebIdentity: %w")
    (mkRequest "POST" (sts_endpoint s +:+ "/")
       [("Content-Type", "application/x-www-form-urlencoded"); ("Accept", "application/xml")]
       (BForm [("Action", "AssumeRoleWithWebIdentity"); ("RoleArn", sts_roleARN s);
               ("RoleSessionName", sts_sessionName s); ("Version", "2011-06-15"); ("WebIdentityToken", token)]));
  guard_ (rs_status resp =? 200)%Z (errorf "cephenc: aws-sts-metadata AssumeRoleWithWebIdentity: HTTP %d: %s");;
  match rs_body resp with
  | BCreds a k t exp =>
      guard_ (negb (bool_decide (a = "") || bool_decide (k = "")))
        (errorf "cephenc: aws-sts-metadata STS returned no credentials");;
      mret (mkCreds a k t, exp)
  | _ => fail (errorf "cephenc: aws-sts-metadata parse STS response: %w")
  end.
Definition sts_resolve (s : awsSTSCredsSource) : op awsCreds :=
  cached ← gets (get_creds (sts_id s));
  t0 ← gets now;
  if negb (bool_decide (accessKeyID cached.1 = "")) && (t0 <? cached.2)%Z then mret cached.1
  else
    token ← read_or "cephenc: aws-sts-metadata read web identity token %q: %w" (sts_tokenFile s);
    ce ← assumeRole s (trim_space token);
    t1 ← gets now;
    let exp := default (t1 + 15 * minute)%Z ce.2 in
    modify (put_creds (sts_id s) (ce.1, exp - 2 * minute)%Z);;
    mret ce.1.
Definition static_resolve (file : string) (static : awsCreds) : op awsCreds :=
  if negb (bool_decide (file = "")) then
    data ← read_or "cephenc: aws-kms read credentials file: %w" file;
    let c := parseAWSCredentials data in
    guard_ (negb (bool_decide (accessKeyID c = "") || bool_decide (secretAccessKey c = "")))
      (errorf "cephenc: aws-kms credentials file %s missing access/secret key");;
    mret c
  else if negb (bool_decide (accessKeyID static = "")) && negb (bool_decide (secretAccessKey static = ""))
  then mret static
  else
    id ← gets (getenv "AWS_ACCESS_KEY_ID");
    guard_ (negb (bool_decide (id = "")))
      (errorf "cephenc: aws-kms has no credentials (set credentialsFile, inline keys, or AWS_* env)");;
    sec ← gets (getenv "AWS_SECRET_ACCESS_KEY");
    ses ← gets (getenv "AWS_SESSION_TOKEN");
    mret (mkCreds id sec ses).
Definition resolve_creds (r : awsCredsResolver) : op awsCreds :=
  match r with
  | awsCredsSource file static => static_resolve file static
  | STSSource s => sts_resolve s
  end.

Context (a : awsKMSKeyService).

Definition aws_call (target : string) (body : json) : op payload :=
  creds ← resolve_creds (aws_creds a);
  t ← gets now;
  resp ← http_or (errorf "cephenc: aws-kms %s: %w")
    (signedRequest (aws_endpoint a) (aws_region a) target (BJson body) (marshal body) creds t);
  guard_ (rs_status resp =? 200)%Z (errorf "cephenc: aws-kms %s: HTTP %d: %s");;
  match rs_body resp with
  | BJson _ => mret (rs_body resp)
  | _ => fail (errorf "cephenc: aws-kms %s: parse response: %w")
  end.
(** A field of the answer, base64-decoded and not empty. *)
Definition decoded (text : string) : option string :=
  match crypto.base64_decode text with
  | Some (b :: bs) => Some (crypto.string_of (b :: bs))
  | _ => None
  end.
Definition generateDataKey : op (string * string) :=
  out ← aws_call "TrentService.GenerateDataKey" (JObj [("KeyId", enc (aws_keyID a)); ("KeySpec", JStr "AES_256")]);
  match unmarshal ["Plaintext"] out, unmarshal ["CiphertextBlob"] out with
  | Some plain, Some blob =>
      match decoded plain with
      | None => fail (errorf "cephenc: aws-kms GenerateDataKey returned no plaintext")
      | Some pt =>
          guard_ (negb (bool_decide (blob = ""))) (errorf "cephenc: aws-kms GenerateDataKey returned no ciphertext");;
          mret (pt, blob)
      end
  | _, _ => fail (errorf "cephenc: aws-kms %s: parse response: %w")
  end.
Definition decrypt (blob : string) : op string :=
  out ← aws_call "TrentService.Decrypt" (JObj [("CiphertextBlob", enc blob); ("KeyId", enc (aws_keyID a))]);
  match unmarshal ["Plaintext"] out with
  | Some plain =>
      match decoded plain with
      | None => fail (errorf "cephenc: aws-kms Decrypt returned no plaintext")
      | Some pt => mret pt
      end
  | None => fail (errorf "cephenc: aws-kms %s: parse response: %w")
  end.
Definition hex_string (s : string) : string := sha256.hex (sha256.bytes_of s).

Definition aws_passphrase (c : conn) (instance spec : string) (secrets : strmap) : op string :=
  guard_ (negb (bool_decide (aws_keyID a = ""))) (errorf "cephenc: aws-kms provider has no keyId configured");;
  with_conn c instance secrets (λ c,
    blob ← MetaGet c spec MetaWrappedDEK;
    if negb (bool_decide (blob = "")) then pt ← decrypt blob; mret (hex_string pt)
    else
      pb ← generateDataKey;
      catch (MetaSet c spec MetaWrappedDEK pb.2) (λ r,
        match r with
        | Ok _ => mret (hex_string pb.1)
        | Err e =>
            b ← meta_or_empty c spec MetaWrappedDEK;
            if negb (bool_decide (b = "")) then
              catch (decrypt b) (λ r, match r with Ok p => mret (hex_string p) | Err _ => fail e end)
            else fail e
        end)).
Definition aws_rotateKey (c : conn) (instance spec : string) (secrets : strmap) (apply : string → op unit) : op unit :=
  with_conn c instance secrets (λ c,
    pb ← generateDataKey;
    apply (hex_string pb.1);;
    MetaSet c spec MetaWrappedDEK pb.2).
End provider.
End aws.
