(* ===== verification/KMSRegistry.v ===== *)
(** * The KMIP provider and the registry of providers (internal/cephenc)

    kms_kmip.go, and Register and the operations of registry.go.  A KMIP passphrase is
    an object of the key manager whose identifier is kept in the volume's metadata, so
    it has to be destroyed and copied explicitly. *)
From Stdlib Require Import Ascii.
From S2P Require Import Prelude GoStrings GoPath Json Protocol Sha256 GoCrypto Host KMS KMSRest KMSAws.

Module kms.
Import bardplugin cephenc rest aws.

(** ** KMIP *)
Record kmipKeyService := mkKmip { km_endpoint : string; km_serverName : string }.
(** An error of an exchange: a failed operation carries its reason. *)
Record kmipError := mkKmipError { ke_reason : option string; ke_text : string }.
Definition isKMIPReason (e : kmipError) (reason : string) : bool := bool_decide (ke_reason e = Some reason).
Definition ItemNotFound : string := "ItemNotFound".

Section kmip.
  Context {S : Type} `{Env S} `{KHost S}.
  Abbreviation op A := (M S perror A).

(** The host of [host:port], empty when it is none ([net.SplitHostPort] fails). *)
Definition split_host (endpoint : string) : string :=
  match SplitHostPort endpoint with Some (host, _) => host | None => "" end.
Definition newKMIPKeyService (c : KMSConfig) : op kmipKeyService :=
  guard_ (negb (bool_decide (kc_KMIPEndpoint c = ""))) (errorf "cephenc: kmip provider requires kmipEndpoint");;
  let endpoint := if contains_char ":" (kc_KMIPEndpoint c) then kc_KMIPEndpoint c
                  else kc_KMIPEndpoint c +:+ ":5696" in
  (if bool_decide (kc_ClientCertFile c = "") && bool_decide (kc_ClientKeyFile c = "") then mret tt
   else run_err (λ _, errorf "cephenc: kmip load client cert: %w") (key_pair (kc_ClientCertFile c) (kc_ClientKeyFile c)));;
  ca_file "cephenc: kmip read caFile: %w" "cephenc: kmip caFile %s held no certificates" c;;
  mret (mkKmip endpoint (if bool_decide (kc_ServerName c = "") then split_host endpoint else kc_ServerName c)).

Context (k : kmipKeyService).
Abbreviation kop A := (M S kmipError A).

Definition plain_kmip (fmt : string) : kmipError := mkKmipError None fmt.
Definition send (rq : kmip_request) : kop kmip_payload := λ s,
  let '(s', o) := kmipExchange (km_endpoint k) rq s in
  (s', match o with
       | KDialFailed => Err (plain_kmip "cephenc: kmip dial %s: %w")
       | KHandshakeFailed => Err (plain_kmip "cephenc: kmip TLS handshake: %w")
       | KMarshalFailed => Err (plain_kmip "cephenc: kmip marshal request: %w")
       | KWriteFailed => Err (plain_kmip "cephenc: kmip write: %w")
       | KReadFailed => Err (plain_kmip "cephenc: kmip read response: %w")
       | KAnswered [] => Err (plain_kmip "cephenc: kmip empty response")
       | KAnswered (i :: _) =>
           if negb (ki_success i) then Err (mkKmipError (Some (ki_reason i)) "cephenc: kmip %v failed: %v: %s")
           else match ki_payload i with
                | KNotTTLV => Err (plain_kmip "cephenc: kmip %v: unexpected response payload %T")
                | p => Ok p
                end
       end).
Definition kmip_err (e : kmipError) : perror := errorf (ke_text e).
Definition register (pass : string) : op string :=
  pt ← run_err kmip_err (send (KRegister pass));
  match pt with
  | KUid uid =>
      guard_ (negb (bool_decide (uid = ""))) (errorf "cephenc: kmip register returned no UID");;
      mret uid
  | _ => fail (errorf "cephenc: kmip parse register response: %w")
  end.
Definition kmip_get (uid : string) : op string :=
  pt ← run_err kmip_err (send (KGet uid));
  match pt with
  | KSecret None => fail (errorf "cephenc: kmip get %s returned no secret material")
  | KSecret (Some (MBytes s)) | KSecret (Some (MString s)) => mret s
  | KSecret (Some MOther) => fail (errorf "cephenc: kmip get %s: unexpected key material type %T")
  | _ => fail (errorf "cephenc: kmip parse get response: %w")
  end.
Definition destroy (uid : string) : op unit :=
  catch (send (KDestroy uid)) (λ r,
    match r with
    | Ok _ => mret tt
    | Err e => if isKMIPReason e ItemNotFound then mret tt else fail (kmip_err e)
    end).
(** [_ = k.destroy(...)]. *)
Definition try_destroy (uid : string) : op unit := catch (destroy uid) (λ _, mret tt).

Definition kmip_passphrase (c : conn) (instance spec : string) (secrets : strmap) : op string :=
  with_conn c instance secrets (λ c,
    recorded ← MetaGet c spec MetaKMIPUID;
    if negb (bool_decide (recorded = "")) then kmip_get recorded
    else
      pass ← fresh_key "cephenc: kmip generate passphrase: %w";
      uid ← register pass;
      catch (MetaSet c spec MetaKMIPUID uid) (λ r,
        match r with
        | Ok _ => mret pass
        | Err e =>
            u ← meta_or_empty c spec MetaKMIPUID;
            if negb (bool_decide (u = "")) && negb (bool_decide (u = uid))
            then try_destroy uid;; kmip_get u
            else try_destroy uid;; fail e
        end)).
Definition kmip_cloneKey (c : conn) (instance sourceSpec cloneSpec : string) (secrets : strmap) : op unit :=
  with_conn c instance secrets (λ c,
    srcUID ← MetaGet c sourceSpec MetaKMIPUID;
    if bool_decide (srcUID = "") then mret tt
    else
      owner ← MetaGet c cloneSpec MetaKMIPOwner;
      if bool_decide (owner = cloneSpec) then mret tt
      else
        pass ← kmip_get srcUID;
        newUID ← register pass;
        MetaSet c cloneSpec MetaKMIPUID newUID;;
        MetaSet c cloneSpec MetaKMIPOwner cloneSpec).
Definition kmip_rotateKey (c : conn) (instance spec : string) (secrets : strmap) (apply : string → op unit) : op unit :=
  with_conn c instance secrets (λ c,
    oldUID ← MetaGet c spec MetaKMIPUID;
    pass ← randomPassphrase;
    newUID ← register pass;
    catch (apply pass) (λ r,
      match r with
      | Err e => try_destroy newUID;; fail e
      | Ok _ =>
          MetaSet c spec MetaKMIPUID newUID;;
          if bool_decide (oldUID = "") then mret tt else try_destroy oldUID
      end)).
Definition kmip_deleteKey (c : conn) (instance spec : string) : op unit :=
  with_conn c instance ∅ (λ c,
    uid ← MetaGet c spec MetaKMIPUID;
    if bool_decide (uid = "") then mret tt else destroy uid).
End kmip.

(** ** The registry *)
Inductive keyService :=
  | derivedKeyService (keyDir : string)
  | secretsMetadataKeyService
  | errKeyService (msg : string)
  | Vault (v : vaultKeyService)
  | AwsKMS (a : awsKMSKeyService)
  | AzureKV (a : azureKVKeyService)
  | Kmip (k : kmipKeyService).
Abbreviation Registry := (gmap string keyService).

Section registry.
  Context {S : Type} `{Env S} `{KHost S} (marshal : json → string).
  Abbreviation op A := (M S perror A).

Definition or_broken (m : op keyService) : op keyService :=
  catch m (λ r, match r with Ok ks => mret ks | Err e => mret (errKeyService (perror_text e)) end).
(** The provider of one configuration entry. *)
Definition provider_of (id : string) (c : KMSConfig) : op keyService :=
  let t := kc_Type c in
  if bool_decide (t = "vault") then
    or_broken (httpClientTLS c;;
      mret (Vault (mkVault id (trim_right_byte slash (kc_Address c)) (orDefault (kc_KVMount c) "secret")
        (orDefault (kc_PathPrefix c) "bard-luks") (kc_Token c) (kc_TokenFile c)
        (orDefault (kc_AuthMethod c) "token") (kc_Role c) (orDefault (kc_AuthMount c) "kubernetes")
        (orDefault (kc_SATokenFile c) "/var/run/secrets/kubernetes.io/serviceaccount/token"))))
  else if bool_decide (t = "aws-kms") then mret (AwsKMS (newAWSKMSKeyService c))
  else if bool_decide (t = "aws-sts-metadata") then
    mret (match newAWSSTSMetadataKeyService id c with
          | Some a => AwsKMS a
          | None => errKeyService "cephenc: aws-sts-metadata provider requires roleArn"
          end)
  else if bool_decide (t = "azure-kv") then or_broken (a ← newAzureKVKeyService id c; mret (AzureKV a))
  else if bool_decide (t = "kmip") then or_broken (k ← newKMIPKeyService c; mret (Kmip k))
  else if bool_decide (t = "secrets-metadata") || bool_decide (t = "kubernetes") then mret secretsMetadataKeyService
  else mret (errKeyService "cephenc: unknown KMS type %q for encryptionKMSID %q").
Fixpoint register_all (l : list (string * KMSConfig)) (r : Registry) : op Registry :=
  match l with
  | [] => mret r
  | (id, c) :: l => ks ← provider_of id c; register_all l (<[id := ks]> r)
  end.
Definition Register `{MapIter} (cfgs : gmap string KMSConfig) (r : Registry) : op Registry :=
  register_all (range cfgs) r.
Definition NewRegistry `{MapIter} (cfgs : gmap string KMSConfig) : op Registry := Register cfgs ∅.

Definition resolve (r : Registry) (kmsID : string) : res perror keyService :=
  if bool_decide (kmsID = "") then Ok (derivedKeyService (MasterKeyDir S))
  else match r !! kmsID with
       | Some ks => Ok ks
       | None => Err (Errorf CodeInvalidArg "cephenc: unknown encryptionKMSID %q")
       end.

(** The methods of a provider. *)
Definition passphrase (ks : keyService) (c : conn) (instance spec keyID : string) (secrets : strmap) : op string :=
  match ks with
  | derivedKeyService dir => derived_passphrase dir instance keyID
  | secretsMetadataKeyService => secrets_passphrase c instance spec secrets
  | errKeyService msg => fail (Errorf CodeInvalidArg msg)
  | Vault v => vault_passphrase v instance spec
  | AwsKMS a => aws_passphrase marshal a c instance spec secrets
  | AzureKV a => azure_passphrase a instance spec
  | Kmip k => kmip_passphrase k c instance spec secrets
  end.
Definition deleteKey (ks : keyService) (c : conn) (instance spec : string) : op unit :=
  match ks with
  | derivedKeyService _ | secretsMetadataKeyService | errKeyService _ | AwsKMS _ => mret tt
  | Vault v => vault_deleteKey v instance spec
  | AzureKV a => azure_deleteKey a instance spec
  | Kmip k => kmip_deleteKey k c instance spec
  end.
(** [keyCloner] and [keyRotator]: [None] for a provider that does not implement it. *)
Definition cloneKey (ks : keyService) : option (conn → string → string → string → strmap → op unit) :=
  match ks with
  | Vault v => Some (λ _ instance src dst _, vault_cloneKey v instance src dst)
  | AzureKV a => Some (λ _ instance src dst _, azure_cloneKey a instance src dst)
  | Kmip k => Some (kmip_cloneKey k)
  | _ => None
  end.
Definition rotateKey (ks : keyService) : option (conn → string → string → strmap → (string → op unit) → op unit) :=
  match ks with
  | secretsMetadataKeyService => Some secrets_rotate
  | Vault v => Some (λ _ instance spec _, vault_rotateKey v instance spec)
  | AwsKMS a => Some (aws_rotateKey marshal a)
  | AzureKV a => Some (λ _ instance spec _, azure_rotateKey a instance spec)
  | Kmip k => Some (kmip_rotateKey k)
  | _ => None
  end.

Definition Passphrase (r : Registry) (c : conn) (instance kmsID spec keyID : string) (secrets : strmap) : op string :=
  let p := mget secrets SecretPassphrase in
  if negb (bool_decide (p = "")) then mret p
  else ks ← lift (resolve r kmsID); passphrase ks c instance spec keyID secrets.
Definition DeleteKey (r : Registry) (c : conn) (instance kmsID spec : string) : op unit :=
  ks ← lift (resolve r kmsID); deleteKey ks c instance spec.
Definition CloneKey (r : Registry) (c : conn) (instance kmsID sourceSpec cloneSpec : string) (secrets : strmap) : op unit :=
  ks ← lift (resolve r kmsID);
  match cloneKey ks with
  | Some clone => clone c instance sourceSpec cloneSpec secrets
  | None => mret tt
  end.
Definition RotateKey (r : Registry) (c : conn) (instance kmsID spec : string) (secrets : strmap)
    (apply : string → op unit) : op unit :=
  guard_ (bool_decide (mget secrets SecretPassphrase = ""))
    (Errorf CodeInvalidArg "cephenc: cannot rotate an explicit encryptionPassphrase secret");;
  ks ← lift (resolve r kmsID);
  match rotateKey ks with
  | Some rotate => rotate c instance spec secrets apply
  | None => fail (Errorf CodeInvalidArg "cephenc: provider %q does not support key rotation (rotate the instance master key instead)")
  end.
End registry.
End kms.
