(* ===== verification/KMSSteps.v ===== *)
(** * What the key providers can do to their surroundings (internal/cephenc)

    If a preorder on states is respected by every call a provider can make (a file
    read, randomness, an HTTP or KMIP exchange, its caches, the metadata store), it is
    respected by looking a key up, deleting, cloning and rotating it, whatever is
    answered; what the metadata store is asked may depend on the connection being a
    [good] one.  A backend applies this to its own invariants. *)
From Stdlib Require Import Ascii.
From S2P Require Import Prelude GoStrings GoPath Json Protocol Sha256 GoCrypto Host GoOs KMS KMSRest KMSAws KMSRegistry.

Module kmssteps.
Import bardplugin cephenc rest aws kms.

Section steps.
  Context {S : Type} `{Env S} `{KHost S} (R : S → S → Prop) `{!PreOrder R} (marshal : json → string).
  Abbreviation op A := (M S perror A).
  Context (Hread : ∀ p, Pres R (readFile p)) (Hrand : ∀ n, Pres R (randRead n))
    (Hhttp : ∀ rq, Pres R (httpDo rq)) (Hkmip : ∀ ep rq s, R s (kmipExchange ep rq s).1)
    (Htoken : ∀ id x s, R s (put_token id x s)) (Hcreds : ∀ id x s, R s (put_creds id x s))
    (good : conn → Prop)
    (Hconn : ∀ A c i sec (body : conn → op A), good c → (∀ c', good c' → Pres R (body c')) → Pres R (with_conn c i sec body))
    (Hget : ∀ c spec key, good c → Pres R (MetaGet c spec key))
    (Hset : ∀ c spec key v, good c → Pres R (MetaSet c spec key v)).

(** One step; [lem] knows the provider's own operations. *)
Ltac step lem :=
  first
  [ pres_step
  | lazymatch goal with
    | |- Pres _ (read_or _ _) => unfold read_or
    | |- Pres _ (rand_or _ _) => unfold rand_or
    | |- Pres _ (http_or _ _) => unfold http_or
    | |- Pres _ (wrap_as _ _) => unfold wrap_as
    | |- Pres _ (fresh_key _) => unfold fresh_key
    | |- Pres _ randomPassphrase => unfold randomPassphrase
    | |- Pres _ (meta_or_empty _ _ _) => unfold meta_or_empty
    | |- Pres _ (with_conn _ _ _ _) => apply Hconn; [assumption|intros]
    | |- Pres _ (modify _) => apply Pres_modify; intros
    end
  | solve [apply Hread | apply Hrand | apply Hhttp | apply Hget; assumption | apply Hset; assumption | apply Htoken | apply Hcreds]
  | lem ].
Tactic Notation "steps" "with" tactic3(lem) := repeat (step lem).

Lemma master_pres dir i : Pres R (readMasterKey dir i).
Proof. unfold readMasterKey. steps with fail. Qed.
Lemma wrapDEK_pres kek dek : Pres R (wrapDEK kek dek).
Proof. unfold wrapDEK. steps with fail. Qed.
Lemma secrets_pres c i spec sec : good c → Pres R (secrets_passphrase c i spec sec).
Proof. intros Hc. unfold secrets_passphrase. steps with first [apply master_pres | apply wrapDEK_pres]. Qed.

Section vault.
  Context (v : vaultKeyService).
Lemma tok_pres : Pres R (tok v).
Proof. unfold tok, kubernetesToken. steps with fail. Qed.
Lemma vault_do_pres m p b : Pres R (vault_do v m p b).
Proof. unfold vault_do, vault_doOnce, vault_invalidate. steps with apply tok_pres. Qed.
Lemma vault_read_pres p : Pres R (vault_read v p).
Proof. unfold vault_read. steps with apply vault_do_pres. Qed.
Lemma vault_write_pres p x co : Pres R (vault_write v p x co).
Proof. unfold vault_write. steps with apply vault_do_pres. Qed.
Lemma vault_delete_pres i k : Pres R (vault_deleteKey v i k).
Proof. unfold vault_deleteKey. steps with apply vault_do_pres. Qed.
End vault.

Section azure.
  Context (a : azureKVKeyService).
Lemma azure_token_pres t : Pres R (azure_get_token t).
Proof. unfold azure_get_token, clientCredentials. steps with fail. Qed.
Lemma azure_do_pres m p b : Pres R (azure_do a m p b).
Proof. unfold azure_do, azure_doOnce, azure_invalidate. steps with apply azure_token_pres. Qed.
Lemma getSecret_pres n : Pres R (getSecret a n).
Proof. unfold getSecret. steps with apply azure_do_pres. Qed.
Lemma setSecret_pres n x : Pres R (setSecret a n x).
Proof. unfold setSecret. steps with apply azure_do_pres. Qed.
Lemma azure_delete_pres i k : Pres R (azure_deleteKey a i k).
Proof. unfold azure_deleteKey. steps with apply azure_do_pres. Qed.
End azure.

Section awskms.
  Context (a : awsKMSKeyService).
Lemma creds_pres r : Pres R (resolve_creds r).
Proof. unfold resolve_creds, static_resolve, sts_resolve, assumeRole. steps with fail. Qed.
Lemma aws_call_pres t b : Pres R (aws_call marshal a t b).
Proof. unfold aws_call. steps with apply creds_pres. Qed.
Lemma generate_pres : Pres R (generateDataKey marshal a).
Proof. unfold generateDataKey. steps with apply aws_call_pres. Qed.
Lemma decrypt_pres b : Pres R (decrypt marshal a b).
Proof. unfold decrypt. steps with apply aws_call_pres. Qed.
End awskms.

Section kmip.
  Context (k : kmipKeyService).
Lemma send_pres rq : Pres R (send k rq).
Proof. intros s. specialize (Hkmip (km_endpoint k) rq s). unfold send. by destruct (kmipExchange _ _ _). Qed.
Lemma register_pres p : Pres R (register k p).
Proof. unfold register. steps with apply send_pres. Qed.
Lemma kmip_get_pres u : Pres R (kmip_get k u).
Proof. unfold kmip_get. steps with apply send_pres. Qed.
Lemma destroy_pres u : Pres R (destroy k u).
Proof. unfold destroy. steps with apply send_pres. Qed.
Lemma try_destroy_pres u : Pres R (try_destroy k u).
Proof. unfold try_destroy. steps with apply destroy_pres. Qed.
End kmip.

Ltac provider := steps with first
  [ apply master_pres | apply wrapDEK_pres | apply secrets_pres; assumption | apply vault_read_pres | apply vault_write_pres
  | apply vault_delete_pres | apply getSecret_pres | apply setSecret_pres | apply azure_delete_pres
  | apply generate_pres | apply decrypt_pres | apply register_pres | apply kmip_get_pres | apply destroy_pres
  | apply try_destroy_pres | match goal with Ha : ∀ p, Pres R _ |- _ => solve [apply Ha] end ].

Lemma Passphrase_pres r c i kmsID spec keyID sec : good c → Pres R (Passphrase marshal r c i kmsID spec keyID sec).
Proof.
  intros Hc. unfold Passphrase. provider. unfold passphrase, derived_passphrase, vault_passphrase, aws_passphrase, azure_passphrase,
    kmip_passphrase. provider.
Qed.
Lemma DeleteKey_pres r c i kmsID spec : good c → Pres R (DeleteKey r c i kmsID spec).
Proof. intros Hc. unfold DeleteKey, deleteKey, kmip_deleteKey. provider. Qed.
Lemma CloneKey_pres r c i kmsID src dst sec : good c → Pres R (CloneKey r c i kmsID src dst sec).
Proof.
  intros Hg. unfold CloneKey. pres_step; [pres_step|]. destruct (cloneKey a) as [clone|] eqn:Hc; [|pres_step].
  destruct a; simplify_eq/=; unfold vault_cloneKey, azure_cloneKey, kmip_cloneKey; provider.
Qed.
Lemma RotateKey_pres r c i kmsID spec sec apply :
  good c → (∀ p, Pres R (apply p)) → Pres R (RotateKey marshal r c i kmsID spec sec apply).
Proof.
  intros Hc Ha. unfold RotateKey. pres_step. pres_step; [pres_step|].
  destruct (rotateKey marshal a) as [rotate|] eqn:Hr; [|pres_step].
  destruct a; simplify_eq/=; unfold secrets_rotate, vault_rotateKey, aws_rotateKey, azure_rotateKey, kmip_rotateKey; provider.
Qed.
End steps.
End kmssteps.
