(* ===== verification/KMSSpec.v ===== *)
(** * What a key provider promises (internal/cephenc)

    The contract of [keyService], [keyCloner] and [keyRotator] in registry.go, stated
    on what the key material's homes hold ([stores]) and proved for every provider:
    a volume always yields the passphrase it is kept under, a stored key is never
    replaced by a lookup, a rotation leaves a key that opens the volume whatever fails
    on the way, and a clone's key is a copy of its own.  The laws of the surroundings
    say what a metadata store, Vault, Key Vault, KMS and a KMIP server are documented
    to do, failures included: a call that fails may or may not have taken effect. *)
From Stdlib Require Import Ascii.
From S2P Require Import Prelude GoStrings GoPath Json Protocol Sha256 GoCrypto Host KMS KMSRest KMSAws KMSRegistry.

Module kmsspec.
Import bardplugin cephenc rest aws kms.

(** ** Where key material lives

    The volumes' metadata, the external secret stores by URL, the objects of the KMIP
    server, and the passphrases that open the volume at hand (its LUKS key slots). *)
Record stores := mkStores {
  st_meta : gmap (string * string) string;
  st_kv : gmap string string;
  st_objs : gmap string string;
  st_slots : gset string }.
Definition set_meta (spec key v : string) (t : stores) : stores :=
  mkStores (<[(spec, key) := v]> (st_meta t)) (st_kv t) (st_objs t) (st_slots t).
Definition set_kv (u p : string) (t : stores) : stores :=
  mkStores (st_meta t) (<[u := p]> (st_kv t)) (st_objs t) (st_slots t).
Definition del_kv (u : string) (t : stores) : stores :=
  mkStores (st_meta t) (delete u (st_kv t)) (st_objs t) (st_slots t).
Definition set_obj (u p : string) (t : stores) : stores :=
  mkStores (st_meta t) (st_kv t) (<[u := p]> (st_objs t)) (st_slots t).
Definition del_obj (u : string) (t : stores) : stores :=
  mkStores (st_meta t) (st_kv t) (delete u (st_objs t)) (st_slots t).
Definition get_meta (t : stores) (spec key : string) : string := default "" (st_meta t !! (spec, key)).
Definition get_kv (t : stores) (u : string) : option string :=
  match st_kv t !! u with Some p => if bool_decide (p = "") then None else Some p | None => None end.

(** ** The surroundings *)
Class Surroundings (S : Type) `{Env S} `{KHost S} := {
  view : S → stores;
  files : string → string;
  readFile_law p s : wp (readFile p) (λ s' r, view s' = view s ∧ ∀ d, r = Ok d → d = files p) s;
  randRead_law n s : wp (randRead n) (λ s' r, view s' = view s ∧ ∀ d, r = Ok d → String.length d = n) s;
  put_token_law id x s : view (put_token id x s) = view s;
  put_creds_law id x s : view (put_creds id x s) = view s;
  ConnFor_law c i sec s :
    wp (ConnFor c i sec) (λ s' r, view s' = view s ∧ ∀ cc, r = Ok cc → ∀ s1, view (cc.2 s1) = view s1) s;
  MetaGet_law c spec key s :
    wp (MetaGet c spec key) (λ s' r, view s' = view s ∧ ∀ v, r = Ok v → v = get_meta (view s) spec key) s;
  MetaSet_law c spec key v s :
    wp (MetaSet c spec key v) (λ s' r,
      view s' = set_meta spec key v (view s) ∨ (view s' = view s ∧ is_Ok r = false)) s;
}.

(** A secret store behind HTTP: [read] of a URL answers what it holds or fails,
    [write] replaces it, or with [createOnly] only when there is nothing, and a failed
    request may have been carried out; other requests of the provider (logins) change
    nothing.  A refused token (401, 403) means nothing was done. *)
Definition text (p : string) : Prop := to_valid_utf8 p = p.
Section servers.
  Context {S : Type} `{Surroundings S}.

Definition keeps_http (rq : request) : Prop := ∀ s, wp (httpDo rq) (λ s' _, view s' = view s) s.
Definition refused (r : res string response) : bool :=
  match r with Ok resp => (rs_status resp =? 401)%Z || (rs_status resp =? 403)%Z | Err _ => false end.

Class VaultServer (v : vaultKeyService) : Prop := {
  vault_login h b : keeps_http (mkRequest "POST" (v_addr v +:+ "/v1/auth/" +:+ v_k8sAuthMount v +:+ "/login") h b);
  vault_get path h s :
    wp (httpDo (mkRequest "GET" (vault_url v ("data/" +:+ path)) h BNone)) (λ s' r,
      view s' = view s ∧
      ∀ resp, r = Ok resp →
        (rs_status resp = 404%Z → get_kv (view s) path = None) ∧
        (rs_status resp = 200%Z → ∀ p, unmarshal ["data"; "data"; "passphrase"] (rs_body resp) = Some p →
          text p ∧ (if bool_decide (p = "") then None else Some p) = get_kv (view s) path)) s;
  vault_post path p co h s : text p → p ≠ "" →
    wp (httpDo (mkRequest "POST" (vault_url v ("data/" +:+ path)) h (vault_payload p co))) (λ s' r,
      (view s' = set_kv path p (view s) ∧ refused r = false ∧ (co = true → get_kv (view s) path = None)) ∨
      (view s' = view s ∧ ∀ resp, r = Ok resp → rs_status resp ≠ 200%Z ∧ rs_status resp ≠ 204%Z)) s;
  vault_delete path h s :
    wp (httpDo (mkRequest "DELETE" (vault_url v ("metadata/" +:+ path)) h BNone)) (λ s' r,
      (view s' = del_kv path (view s) ∧ refused r = false) ∨ view s' = view s) s;
}.
Class AzureServer (a : azureKVKeyService) : Prop := {
  azure_login h b :
    keeps_http (mkRequest "POST" (at_aadEndpoint (az_tok a) +:+ "/" +:+ at_tenantID (az_tok a) +:+ "/oauth2/v2.0/token") h b);
  azure_get name h s :
    wp (httpDo (mkRequest "GET" (azure_url a ("/secrets/" +:+ name)) h BNone)) (λ s' r,
      view s' = view s ∧
      ∀ resp, r = Ok resp →
        (rs_status resp = 404%Z → get_kv (view s) name = None) ∧
        (rs_status resp = 200%Z → ∀ p, unmarshal ["value"] (rs_body resp) = Some p →
          text p ∧ (if bool_decide (p = "") then None else Some p) = get_kv (view s) name)) s;
  azure_put name p h s : text p → p ≠ "" →
    wp (httpDo (mkRequest "PUT" (azure_url a ("/secrets/" +:+ name)) h (text_map [("value", p)]))) (λ s' r,
      (view s' = set_kv name p (view s) ∧ refused r = false) ∨
      (view s' = view s ∧ ∀ resp, r = Ok resp → rs_status resp ≠ 200%Z)) s;
  azure_delete name h s :
    wp (httpDo (mkRequest "DELETE" (azure_url a ("/secrets/" +:+ name)) h BNone)) (λ s' r,
      (view s' = del_kv name (view s) ∧ refused r = false) ∨ view s' = view s) s;
}.
(** AWS KMS: stateless; [Decrypt] recovers what [GenerateDataKey] encrypted. *)
Class AwsServer (marshal : json → string) (a : awsKMSKeyService) (kms_plain : string → option string) : Prop := {
  sts_post sts h b : aws_creds a = STSSource sts → keeps_http (mkRequest "POST" (sts_endpoint sts +:+ "/") h b);
  kms_post body h s :
    wp (httpDo (mkRequest "POST" (aws_endpoint a +:+ "/") h (BJson body))) (λ s' r,
      view s' = view s ∧
      ∀ resp, r = Ok resp → rs_status resp = 200%Z →
        (∀ blob, body = JObj [("CiphertextBlob", enc blob); ("KeyId", enc (aws_keyID a))] →
          ∀ plain pt, unmarshal ["Plaintext"] (rs_body resp) = Some plain → decoded plain = Some pt →
            kms_plain (to_valid_utf8 blob) = Some pt) ∧
        (body = JObj [("KeyId", enc (aws_keyID a)); ("KeySpec", JStr "AES_256")] →
          ∀ plain blob pt, unmarshal ["Plaintext"] (rs_body resp) = Some plain →
            unmarshal ["CiphertextBlob"] (rs_body resp) = Some blob → decoded plain = Some pt →
            kms_plain (to_valid_utf8 blob) = Some pt)) s;
}.
(** A KMIP server: identifiers are never reused, so a new one is in no volume's metadata. *)
Class KmipServer (k : kmipKeyService) : Prop := {
  kmip_register p s :
    wp (send k (KRegister p)) (λ s' r,
      (view s' = view s ∧ is_Ok r = false) ∨
      ∃ uid, view s' = set_obj uid p (view s) ∧ st_objs (view s) !! uid = None ∧
        (∀ spec, get_meta (view s) spec MetaKMIPUID ≠ uid) ∧ ∀ u, r = Ok (KUid u) → u = uid) s;
  kmip_fetch uid s :
    wp (send k (KGet uid)) (λ s' r, view s' = view s ∧
      ∀ m, r = Ok (KSecret (Some m)) → match m with
        | MBytes p | MString p => st_objs (view s) !! uid = Some p | MOther => True end) s;
  kmip_destroy uid s :
    wp (send k (KDestroy uid)) (λ s' r, view s' = del_obj uid (view s) ∨ view s' = view s) s;
}.
End servers.

(** ** Steps that leave the stores alone *)
Section steps.
  Context {S : Type} `{Surroundings S}.
  Abbreviation op A := (M S perror A).

Definition Keeps {E A} (m : M S E A) : Prop := ∀ s, wp m (λ s' _, view s' = view s) s.

Lemma Keeps_ret {E A} (a : A) : Keeps (mret a : M S E A).
Proof. by intros s. Qed.
Lemma Keeps_fail {E A} (e : E) : Keeps (fail e : M S E A).
Proof. by intros s. Qed.
Lemma Keeps_guard {E} b (e : E) : Keeps (guard_ b e).
Proof. by intros s. Qed.
Lemma Keeps_gets {E A} (f : S → A) : Keeps (gets f : M S E A).
Proof. by intros s. Qed.
Lemma Keeps_modify {E} (f : S → S) : (∀ s, view (f s) = view s) → Keeps (modify f : M S E unit).
Proof. intros Hf s. apply Hf. Qed.
Lemma Keeps_bind {E A B} (m : M S E A) (f : A → M S E B) : Keeps m → (∀ a, Keeps (f a)) → Keeps (m ≫= f).
Proof.
  intros Hm Hf s. apply wp_bind. eapply wp_mono; [apply Hm|]. intros s' [a|e] Hs; [|done].
  eapply wp_mono; [apply Hf|]. intros s2 r Hs2. simpl in *. congruence.
Qed.
Lemma Keeps_run_err {E F A} (f : E → F) (m : M S E A) : Keeps m → Keeps (run_err f m).
Proof. intros Hm s. apply wp_run_err. eapply wp_mono; [apply Hm|]. done. Qed.
Lemma Keeps_read fmt p : Keeps (read_or fmt p).
Proof. apply Keeps_run_err. intros s. eapply wp_mono; [apply readFile_law|]. by intros s' r [-> _]. Qed.
Lemma Keeps_http e rq : keeps_http rq → Keeps (http_or e rq).
Proof. intros Hk. by apply Keeps_run_err. Qed.

Lemma wp_read fmt p s : wp (read_or fmt p) (λ s' r, view s' = view s ∧ ∀ d, r = Ok d → d = files p) s.
Proof.
  apply wp_run_err. eapply wp_mono; [apply readFile_law|]. intros s' [d|e] [Hv Hd]; split; try done. intros ? [= <-]. by apply Hd.
Qed.
Definition master_of (dir instance : string) : string := trim_space (files (Join [dir; instance])).
Lemma wp_master dir instance s :
  wp (readMasterKey dir instance) (λ s' r, view s' = view s ∧ ∀ m, r = Ok m → m = master_of dir instance) s.
Proof.
  unfold readMasterKey. wp_step. wp_step; [|by split]. wp_step. eapply wp_mono; [apply wp_read|].
  intros s' [d|e] [Hv Hd]; [|by split]. rewrite (Hd d eq_refl). cbv zeta. wp_step. wp_step; [|by split].
  split; [done|]. by intros m [= <-].
Qed.

(** A fresh key is text and not empty. *)
Lemma hex_text bs : text (sha256.hex bs).
Proof.
  unfold text. pose proof (sha256.hex_chars bs) as Hh. revert Hh. generalize (sha256.hex bs) as s.
  induction s as [|a s IH]; [done|]. cbn [all_chars]. intros [Ha Hs]%andb_true_iff. cbn [to_valid_utf8].
  assert (byte_in 0 127 a = true) as ->; [|by rewrite IH].
  clear -Ha. destruct a as [[] [] [] [] [] [] [] []]; revert Ha; vm_compute; congruence.
Qed.
Lemma wp_fresh fmt s :
  wp (fresh_key fmt) (λ s' r, view s' = view s ∧ ∀ p, r = Ok p → text p ∧ p ≠ "") s.
Proof.
  unfold fresh_key, rand_or. wp_step. wp_step. eapply wp_mono; [apply randRead_law|].
  intros s' [raw|e] [Hv Hl]; simpl; [|by split]. split; [done|]. intros p [= <-]. split; [apply hex_text|].
  specialize (Hl raw eq_refl). by destruct raw.
Qed.

(** Unwrapping undoes wrapping, under the same master key. *)
Lemma unwrap_wrap kek nonce dek :
  String.length nonce = crypto.NonceSize → unwrapDEK kek (wrap_with kek nonce dek) = Ok dek.
Proof.
  intros Hn. assert (length (sha256.bytes_of nonce) = crypto.NonceSize) as Hl.
  { rewrite <-Hn. clear. induction nonce; simpl; [done|]. by f_equal. }
  unfold unwrapDEK, wrap_with. cbv zeta.
  rewrite crypto.unhex_hex by (apply Forall_app; split; [|apply crypto.Seal_range]; apply crypto.bytes_of_range).
  rewrite bool_decide_eq_false_2 by (rewrite length_app; lia).
  rewrite take_app_length', drop_app_length' by done. rewrite crypto.Open_Seal. by rewrite crypto.string_of_bytes.
Qed.
Lemma wrap_nonempty kek nonce dek : String.length nonce = crypto.NonceSize → wrap_with kek nonce dek ≠ "".
Proof. unfold wrap_with. by destruct nonce. Qed.
Lemma wp_wrap kek dek s :
  wp (wrapDEK kek dek) (λ s' r, view s' = view s ∧ ∀ w, r = Ok w → unwrapDEK kek w = Ok dek ∧ w ≠ "") s.
Proof.
  unfold wrapDEK, rand_or. wp_step. wp_step. eapply wp_mono; [apply randRead_law|].
  intros s' [nonce|e] [Hv Hl]; simpl; [|by split]. split; [done|]. intros w [= <-].
  split; [apply unwrap_wrap|apply wrap_nonempty]; by apply Hl.
Qed.

(** A postcondition that only looks at the stores survives the cleanup. *)
Lemma wp_conn {A} c instance sec (body : conn → op A) (Q : stores → res perror A → Prop) s :
  (∀ e, Q (view s) (Err e)) →
  (∀ c s', view s' = view s → wp (body c) (λ s2 r, Q (view s2) r) s') →
  wp (with_conn c instance sec body) (λ s' r, Q (view s') r) s.
Proof.
  intros He Hb. unfold with_conn. wp_step. eapply wp_mono; [apply ConnFor_law|].
  intros s' [cc|e] [Hv Hc]; [|by rewrite Hv]. specialize (Hb cc.1 s' Hv). unfold wp in *.
  destruct (body cc.1 s') as [s2 r]. by rewrite (Hc cc eq_refl).
Qed.
Lemma wp_meta_or_empty c spec key s :
  wp (meta_or_empty c spec key) (λ s' r, view s' = view s ∧ ∃ w, r = Ok w ∧ (w = "" ∨ w = get_meta (view s) spec key)) s.
Proof.
  unfold meta_or_empty. wp_step. eapply wp_mono; [apply MetaGet_law|]. intros s' [w|e] [Hv Hw].
  - split; [done|]. exists w. split; [done|]. right. by apply Hw.
  - split; [done|]. exists "". by split; [|left].
Qed.
Lemma get_set_meta t spec key v : get_meta (set_meta spec key v t) spec key = v.
Proof. unfold get_meta, set_meta. simpl. by rewrite lookup_insert_eq. Qed.
Lemma get_meta_del_obj u t : get_meta (del_obj u t) = get_meta t.
Proof. done. Qed.
Lemma get_set_meta_ne t spec key v spec' key' :
  (spec', key') ≠ (spec, key) → get_meta (set_meta spec key v t) spec' key' = get_meta t spec' key'.
Proof. intros Hne. unfold get_meta, set_meta. simpl. by rewrite lookup_insert_ne. Qed.
End steps.

(** [wp_use lem]: the next computation by what is known of it. *)
Ltac wp_use lem := eapply wp_mono; [apply lem|]; simpl.

(** ** What a provider holds for a volume

    [held] is the passphrase a volume is kept under, [present] whether something is
    stored for it at all. *)
Section held.
  Context {S : Type} `{Surroundings S} (marshal : json → string) (kms_plain : string → option string).
  Abbreviation op A := (M S perror A).

Definition isSome {A} (o : option A) : bool := match o with Some _ => true | None => false end.
Definition ok_option {A} (r : res perror A) : option A := match r with Ok a => Some a | Err _ => None end.
Definition held (t : stores) (ks : keyService) (instance spec keyID : string) : option string :=
  match ks with
  | derivedKeyService dir => Some (derive (master_of dir instance) keyID)
  | secretsMetadataKeyService =>
      ok_option (unwrapDEK (master_of (MasterKeyDir S) instance) (get_meta t spec MetaWrappedDEK))
  | errKeyService _ => None
  | Vault v => get_kv t (secretPath v instance spec)
  | AwsKMS _ => hex_string <$> kms_plain (to_valid_utf8 (get_meta t spec MetaWrappedDEK))
  | AzureKV a => get_kv t (secretName a instance spec)
  | Kmip _ => st_objs t !! get_meta t spec MetaKMIPUID
  end.
Definition present (t : stores) (ks : keyService) (instance spec : string) : bool :=
  match ks with
  | derivedKeyService _ => true
  | secretsMetadataKeyService | AwsKMS _ => negb (bool_decide (get_meta t spec MetaWrappedDEK = ""))
  | errKeyService _ => false
  | Vault v => isSome (get_kv t (secretPath v instance spec))
  | AzureKV a => isSome (get_kv t (secretName a instance spec))
  | Kmip _ => negb (bool_decide (get_meta t spec MetaKMIPUID = ""))
  end.
Definition Served (ks : keyService) : Prop :=
  match ks with
  | Vault v => VaultServer v
  | AzureKV a => AzureServer a
  | AwsKMS a => AwsServer marshal a kms_plain
  | Kmip k => KmipServer k
  | _ => True
  end.

(** Where a provider keeps a volume's entry. *)
Definition slot (ks : keyService) (instance spec : string) : string :=
  match ks with
  | Vault v => secretPath v instance spec
  | AzureKV a => secretName a instance spec
  | _ => spec
  end.
(** Nothing changed for the volumes kept elsewhere. *)
Definition elsewhere (ks : keyService) (instance spec : string) (t t' : stores) : Prop :=
  ∀ spec' keyID, slot ks instance spec' ≠ slot ks instance spec →
    held t' ks instance spec' keyID = held t ks instance spec' keyID.
(** The promise of a lookup that moves the stores from [t] to [t']. *)
Definition looked_up (ks : keyService) (instance spec keyID : string) (t t' : stores) (r : res perror string) : Prop :=
  (∀ p, r = Ok p → held t' ks instance spec keyID = Some p ∧ present t' ks instance spec = true) ∧
  (present t ks instance spec = true → t' = t) ∧
  elsewhere ks instance spec t t'.

Lemma elsewhere_refl ks instance spec t : elsewhere ks instance spec t t.
Proof. done. Qed.
Lemma looked_up_err ks instance spec keyID t e : looked_up ks instance spec keyID t t (Err e).
Proof. done. Qed.
Lemma looked_up_held ks instance spec keyID t r :
  (∀ p, r = Ok p → held t ks instance spec keyID = Some p ∧ present t ks instance spec = true) →
  looked_up ks instance spec keyID t t r.
Proof. done. Qed.

Lemma derived_looked_up dir instance spec keyID s :
  wp (derived_passphrase dir instance keyID) (λ s' r,
    looked_up (derivedKeyService dir) instance spec keyID (view s) (view s') r) s.
Proof.
  unfold derived_passphrase. wp_step. wp_use wp_master. intros s' [m|e] [Hv Hm]; [wp_step|]; rewrite Hv; [|done].
  apply looked_up_held. intros p [= <-]. by rewrite (Hm m eq_refl).
Qed.

(** An entry of the metadata that was written, or not, under an absent one. *)
Lemma set_meta_elsewhere ks instance spec v t :
  ks = secretsMetadataKeyService ∨ (∃ a, ks = AwsKMS a) →
  elsewhere ks instance spec t (set_meta spec MetaWrappedDEK v t).
Proof.
  intros Hks spec' keyID Hne.
  assert (get_meta (set_meta spec MetaWrappedDEK v t) spec' MetaWrappedDEK = get_meta t spec' MetaWrappedDEK) as Hg.
  { apply get_set_meta_ne. intros [= ->]. by destruct Hks as [->|[a ->]]. }
  destruct Hks as [->|[a ->]]; simpl; by rewrite Hg.
Qed.

Lemma secrets_looked_up c instance spec keyID sec s :
  wp (secrets_passphrase c instance spec sec) (λ s' r,
    looked_up secretsMetadataKeyService instance spec keyID (view s) (view s') r) s.
Proof.
  unfold secrets_passphrase. wp_step. wp_use wp_master. intros s1 [kek|e] [Hv1 Hkek]; rewrite <-?Hv1; [|done].
  rewrite (Hkek kek eq_refl). clear Hkek kek Hv1. apply (wp_conn _ _ _ _ (looked_up _ _ _ _ (view s1))); [done|].
  intros c' s2 Hv2. wp_step. wp_use MetaGet_law. intros s3 [w|e] [Hv3 Hw]; rewrite ?Hv3, ?Hv2; [|done].
  rewrite (Hw w eq_refl), Hv2. clear Hw w. destruct (bool_decide_reflect (get_meta (view s1) spec MetaWrappedDEK = "")) as [Hn|Hn]; simpl.
  2:{ apply wp_lift. rewrite Hv3, Hv2. apply looked_up_held. simpl. intros p ->. by rewrite bool_decide_eq_false_2. }
  wp_step. wp_use wp_fresh. intros s4 [dek|e] [Hv4 _]; [|by rewrite Hv4, Hv3, Hv2].
  wp_step. wp_use wp_wrap. intros s5 [w|e] [Hv5 Hw]; [|by rewrite Hv5, Hv4, Hv3, Hv2].
  destruct (Hw w eq_refl) as [Hun Hwn]. wp_step. wp_use MetaSet_law.
  rewrite Hv5, Hv4, Hv3, Hv2. clear Hv5 Hv4 Hv3 Hv2.
  assert (Hset : ∀ r, (∀ p, r = Ok p → p = dek) →
    looked_up secretsMetadataKeyService instance spec keyID (view s1) (set_meta spec MetaWrappedDEK w (view s1)) r).
  { intros r Hr. split; [|split; [|by apply set_meta_elsewhere; left]].
    - intros p ->. simpl. rewrite get_set_meta, Hun, (Hr p eq_refl). by rewrite bool_decide_eq_false_2.
    - simpl. by rewrite bool_decide_eq_true_2. }
  intros s6 [[]|e] [Hv6|[Hv6 Hr]]; try done.
  - wp_step. rewrite Hv6. apply Hset. by intros p [= <-].
  - wp_step. wp_use wp_meta_or_empty. intros s7 r [Hv7 (w' & -> & Hw')].
    destruct (bool_decide_reflect (w' = "")) as [->|Hn']; simpl; wp_step; rewrite Hv7, Hv6; apply Hset; [done|].
    destruct Hw' as [->| ->]; [done|]. rewrite Hv6, get_set_meta, Hun. by intros p [= <-].
  - wp_step. wp_use wp_meta_or_empty. intros s7 r [Hv7 (w' & -> & Hw')].
    destruct (bool_decide_reflect (w' = "")) as [->|Hn']; simpl; wp_step; rewrite Hv7, Hv6; [done|].
    destruct Hw' as [->| ->]; [done|]. rewrite Hv6 in Hn'. done.
Qed.

(** *** AWS KMS *)
Ltac keeps := repeat first
  [ apply Keeps_ret | apply Keeps_fail | apply Keeps_guard | apply Keeps_gets | apply Keeps_read
  | apply Keeps_bind; [|intros] | apply Keeps_run_err
  | lazymatch goal with |- Keeps (if ?b then _ else _) => destruct b | |- Keeps (match ?x with _ => _ end) => destruct x end ].

Section kms_aws.
  Context (a : awsKMSKeyService) (HA : AwsServer marshal a kms_plain).

Lemma creds_keep : Keeps (resolve_creds (aws_creds a)).
Proof.
  destruct (aws_creds a) as [file static|sts] eqn:Hc; unfold resolve_creds.
  - unfold static_resolve. cbv zeta. keeps.
  - unfold sts_resolve, assumeRole. keeps; [by eapply sts_post|].
    apply Keeps_modify. intros. apply put_creds_law.
Qed.
Lemma wp_aws_call target body s :
  wp (aws_call marshal a target body) (λ s' r, view s' = view s ∧ ∀ out, r = Ok out →
    (∀ blob, body = JObj [("CiphertextBlob", enc blob); ("KeyId", enc (aws_keyID a))] →
      ∀ plain pt, unmarshal ["Plaintext"] out = Some plain → decoded plain = Some pt →
        kms_plain (to_valid_utf8 blob) = Some pt) ∧
    (body = JObj [("KeyId", enc (aws_keyID a)); ("KeySpec", JStr "AES_256")] →
      ∀ plain blob pt, unmarshal ["Plaintext"] out = Some plain →
        unmarshal ["CiphertextBlob"] out = Some blob → decoded plain = Some pt →
        kms_plain (to_valid_utf8 blob) = Some pt)) s.
Proof.
  unfold aws_call. wp_step. wp_use creds_keep. intros s1 [creds|e] Hv1; [|by split].
  wp_step. wp_step. cbv beta iota. wp_step. unfold http_or, signedRequest. cbv zeta. wp_step. wp_use kms_post. intros s2 [resp|e] [Hv2 Hr]; cbn [map_err]; [|by split; [congruence|]].
  wp_step. wp_step; [|by split; [congruence|]]. apply Z.eqb_eq in H2.
  destruct (Hr resp eq_refl H2) as [Hd Hg].
  destruct (rs_body resp) eqn:Hb; wp_step; (split; [congruence|]); try done.
  intros out [= <-]. by split.
Qed.
Lemma wp_generate s :
  wp (generateDataKey marshal a) (λ s' r, view s' = view s ∧ ∀ pb, r = Ok pb →
    kms_plain (to_valid_utf8 pb.2) = Some pb.1 ∧ pb.2 ≠ "") s.
Proof.
  unfold generateDataKey. wp_step. wp_use wp_aws_call. intros s1 [out|e] [Hv Ho]; [|by split].
  destruct (Ho out eq_refl) as [_ Hg].
  destruct (unmarshal ["Plaintext"] out) as [plain|] eqn:Hp; [|by wp_step].
  destruct (unmarshal ["CiphertextBlob"] out) as [blob|] eqn:Hb; [|by wp_step].
  destruct (decoded plain) as [pt|] eqn:Hd; [|by wp_step].
  wp_step. wp_step; [|by split]. wp_step. split; [done|]. intros pb [= <-]. simpl.
  split; [by eapply Hg|]. intros ->. by rewrite bool_decide_eq_true_2 in H2.
Qed.
Lemma wp_decrypt blob s :
  wp (decrypt marshal a blob) (λ s' r, view s' = view s ∧ ∀ pt, r = Ok pt →
    kms_plain (to_valid_utf8 blob) = Some pt) s.
Proof.
  unfold decrypt. wp_step. wp_use wp_aws_call. intros s1 [out|e] [Hv Ho]; [|by split].
  destruct (Ho out eq_refl) as [Hg _].
  destruct (unmarshal ["Plaintext"] out) as [plain|] eqn:Hp; [|by wp_step].
  destruct (decoded plain) as [pt|] eqn:Hd; [|by wp_step].
  wp_step. split; [done|]. intros ? [= <-]. by eapply Hg.
Qed.
Lemma aws_looked_up c instance spec keyID sec s :
  wp (aws_passphrase marshal a c instance spec sec) (λ s' r,
    looked_up (AwsKMS a) instance spec keyID (view s) (view s') r) s.
Proof.
  unfold aws_passphrase. wp_step. wp_step; [|done]. apply (wp_conn _ _ _ _ (looked_up _ _ _ _ (view s))); [done|].
  intros c' s2 Hv2. wp_step. wp_use MetaGet_law. intros s3 [w|e] [Hv3 Hw]; rewrite ?Hv3, ?Hv2; [|done].
  rewrite (Hw w eq_refl), Hv2. clear Hw w. destruct (bool_decide_reflect (get_meta (view s) spec MetaWrappedDEK = "")) as [Hn|Hn]; simpl.
  2:{ wp_step. wp_use wp_decrypt. intros s4 [pt|e] [Hv4 Hpt]; [wp_step|]; rewrite Hv4, Hv3, Hv2; [|done].
      apply looked_up_held. intros p [= <-]. simpl. rewrite (Hpt pt eq_refl). by rewrite bool_decide_eq_false_2. }
  wp_step. wp_use wp_generate. intros s4 [pb|e] [Hv4 Hpb]; [|by rewrite Hv4, Hv3, Hv2].
  destruct (Hpb pb eq_refl) as [Hpl Hbn]. wp_step. wp_use MetaSet_law.
  rewrite Hv4, Hv3, Hv2. clear Hv4 Hv3 Hv2.
  assert (Hset : ∀ r, (∀ p, r = Ok p → p = hex_string pb.1) →
    looked_up (AwsKMS a) instance spec keyID (view s) (set_meta spec MetaWrappedDEK pb.2 (view s)) r).
  { intros r Hr. split; [|split; [|apply set_meta_elsewhere; right; by exists a]].
    - intros p ->. simpl. rewrite get_set_meta, Hpl, (Hr p eq_refl). by rewrite bool_decide_eq_false_2.
    - simpl. by rewrite bool_decide_eq_true_2. }
  intros s6 [[]|e] Hs6.
  { wp_step. destruct Hs6 as [Hv6|[_ Hf]]; [|done]. rewrite Hv6. apply Hset. by intros p [= <-]. }
  wp_step. wp_use wp_meta_or_empty. intros s7 r [Hv7 (w' & -> & Hw')].
  destruct (bool_decide_reflect (w' = "")) as [->|Hn']; simpl.
  - wp_step. rewrite Hv7. destruct Hs6 as [->|[-> _]]; [by apply Hset|done].
  - destruct Hw' as [->| ->]; [done|]. wp_step. wp_use wp_decrypt. intros s8 [pt|e'] [Hv8 Hpt]; wp_step;
      rewrite Hv8, Hv7; destruct Hs6 as [Hv6|[Hv6 _]]; rewrite Hv6 in *; try done; apply Hset; [|done].
    specialize (Hpt pt eq_refl). rewrite get_set_meta, Hpl in Hpt. injection Hpt as ->. by intros p [= <-].
Qed.
End kms_aws.

(** *** Secret stores

    What Vault and Key Vault have in common: reading and writing an entry. *)
Definition reads_store (read : string → op (option string)) : Prop := ∀ u s,
  wp (read u) (λ s' r, view s' = view s ∧ ∀ o, r = Ok o → o = get_kv (view s) u ∧ ∀ p, o = Some p → text p) s.
Definition writes_store (co : bool) (write : string → string → op unit) : Prop := ∀ u p s, text p → p ≠ "" →
  wp (write u p) (λ s' r,
    (view s' = set_kv u p (view s) ∧ (co = true → get_kv (view s) u = None)) ∨
    (view s' = view s ∧ is_Ok r = false)) s.
Lemma get_set_kv t u p : p ≠ "" → get_kv (set_kv u p t) u = Some p.
Proof. intros Hp. unfold get_kv, set_kv. simpl. rewrite lookup_insert_eq. by rewrite bool_decide_eq_false_2. Qed.
Lemma get_set_kv_ne t u p u' : u' ≠ u → get_kv (set_kv u p t) u' = get_kv t u'.
Proof. intros Hne. unfold get_kv, set_kv. simpl. by rewrite lookup_insert_ne. Qed.
Lemma get_kv_nonempty t u p : get_kv t u = Some p → p ≠ "".
Proof. unfold get_kv. destruct (st_kv t !! u); [|done]. case_bool_decide; [done|]. by intros [= <-]. Qed.

Definition store_passphrase (read : string → op (option string)) (write : string → string → op unit)
    (fmt u : string) : op string :=
  existing ← read u;
  match existing with
  | Some p => mret p
  | None =>
      pass ← fresh_key fmt;
      catch (write u pass) (λ r,
        match r with
        | Ok _ => mret pass
        | Err e => catch (read u) (λ r, match r with Ok (Some p) => mret p | _ => fail e end)
        end)
  end.
Lemma wp_store_passphrase co read write fmt u s :
  reads_store read → writes_store co write →
  wp (store_passphrase read write fmt u) (λ s' r,
    (∀ p, r = Ok p → get_kv (view s') u = Some p) ∧
    (isSome (get_kv (view s) u) = true → view s' = view s) ∧
    (∀ u', u' ≠ u → get_kv (view s') u' = get_kv (view s) u')) s.
Proof.
  intros Hread Hwrite. unfold store_passphrase. wp_step. wp_use Hread.
  intros s1 [o|e] [Hv1 Ho]; [|by rewrite Hv1]. destruct (Ho o eq_refl) as [Hu _].
  destruct o as [p|]; [wp_step; rewrite Hv1; split; [by intros ? [= <-]|done]|].
  wp_step. wp_use wp_fresh. intros s2 [pass|e] [Hv2 Hp]; [|by rewrite Hv2, Hv1].
  destruct (Hp pass eq_refl) as [Ht Hne]. wp_step. wp_use (Hwrite u pass s2 Ht Hne). rewrite Hv2, Hv1.
  assert (Hset : ∀ (r : res perror string), (∀ p, r = Ok p → p = pass) →
    (∀ p, r = Ok p → get_kv (set_kv u pass (view s)) u = Some p) ∧
    (isSome (get_kv (view s) u) = true → set_kv u pass (view s) = view s) ∧
    (∀ u', u' ≠ u → get_kv (set_kv u pass (view s)) u' = get_kv (view s) u')).
  { intros r Hr. split; [intros p ->; by rewrite get_set_kv, (Hr p eq_refl)|]. rewrite <-Hu.
    split; [done|]. intros u' Hu'. by apply get_set_kv_ne. }
  intros s3 [[]|e] Hs3.
  { wp_step. destruct Hs3 as [[-> _]|[_ Hf]]; [|done]. apply Hset. by intros p [= <-]. }
  wp_step. wp_use Hread. intros s4 [[p|]|e'] [Hv4 Hr]; wp_step; rewrite Hv4; destruct Hs3 as [[Hv3 _]|[Hv3 _]];
    rewrite Hv3 in *; try (by apply Hset); try done.
  - apply Hset. destruct (Hr (Some p) eq_refl) as [Hg _]. rewrite get_set_kv in Hg by done. injection Hg as ->. by intros ? [= <-].
  - destruct (Hr (Some p) eq_refl) as [Hg _]. congruence.
Qed.

Section kms_vault.
  Context (v : vaultKeyService) (HV : VaultServer v).

Lemma tok_keeps : Keeps (tok v).
Proof.
  unfold tok, kubernetesToken. keeps; [apply vault_login|]. apply Keeps_modify. intros. apply put_token_law.
Qed.
(** A request, possibly sent a second time after a refused token: if being refused
    means nothing was done, the answer is that of one request. *)
Lemma wp_vault_do method sub body (Q : stores → res perror response → Prop) t s :
  view s = t → (∀ e, Q t (Err e)) →
  (∀ h s1, view s1 = t → wp (httpDo (mkRequest method (vault_url v sub) h body)) (λ s' r,
    Q (view s') (map_err (λ _, errorf "%w") r) ∧ (refused r = true → view s' = t)) s1) →
  wp (vault_do v method sub body) (λ s' r, Q (view s') r) s.
Proof.
  intros Ht He Hq. unfold vault_do.
  assert (Honce : ∀ s, view s = t → wp (vault_doOnce v method sub body) (λ s' r,
    Q (view s') r ∧ ∀ resp, r = Ok resp → refused (Ok resp) = true → view s' = t) s).
  { intros s0 H0'. unfold vault_doOnce. wp_step. wp_use tok_keeps. intros s1 [token|e] Hv1; [|by split; [rewrite Hv1, H0'; apply He|]].
    unfold http_or. wp_step. wp_use Hq; [congruence|]. intros s2 [resp|e] [HQ Hr]; cbn [map_err]; (split; [done|]); [|done].
    by intros ? [= <-]. }
  wp_step. wp_use Honce; [done|]. intros s1 [resp|e] [HQ Hr]; [|done].
  destruct (bool_decide (v_authMethod v = "kubernetes") && _) eqn:Hb; [|by wp_step].
  apply andb_true_iff in Hb as [_ Hb]. rewrite orb_comm in Hb. specialize (Hr resp eq_refl Hb).
  wp_step. unfold vault_invalidate. wp_step. cbv beta iota. wp_use Honce; [by rewrite put_token_law|]. by intros s2 r [? _].
Qed.
Lemma vault_reads : reads_store (vault_read v).
Proof.
  intros path s. unfold vault_read, wrap_as. wp_step. wp_step. eapply wp_mono.
  { apply (wp_vault_do "GET" _ BNone (λ t r, t = view s ∧ ∀ resp, r = Ok resp →
        (rs_status resp = 404%Z → get_kv (view s) path = None) ∧
        (rs_status resp = 200%Z → ∀ p, unmarshal ["data"; "data"; "passphrase"] (rs_body resp) = Some p →
          text p ∧ (if bool_decide (p = "") then None else Some p) = get_kv (view s) path)) (view s)); [done|done|].
    intros h s1 Hv1. eapply wp_mono; [apply vault_get|]. rewrite Hv1. intros s2 [resp|e] [Hv Hr]; cbn [map_err]; (split; [|done]);
      (split; [done|]); [|done]. intros ? [= <-]. by apply Hr. }
  intros s1 [resp|e] [Hv Hr]; cbn [map_err]; [|by split]. destruct (Hr resp eq_refl) as [H404 H200].
  destruct (Z.eqb_spec (rs_status resp) 404) as [Heq|Hne].
  { wp_step. split; [done|]. intros o [= <-]. by rewrite (H404 Heq). }
  wp_step. wp_step; [|by split]. apply Z.eqb_eq in H2.
  destruct (unmarshal _ (rs_body resp)) as [p|] eqn:Hp; wp_step; (split; [done|]); [|done].
  destruct (H200 H2 p eq_refl) as [Ht Hg]. intros o [= <-]. split; [done|]. intros q. case_bool_decide; [done|]. by intros [= <-].
Qed.
Lemma vault_writes co : writes_store co (λ u p, vault_write v u p co).
Proof.
  intros path p s Ht Hne. unfold vault_write, wrap_as. wp_step. wp_step. eapply wp_mono.
  { apply (wp_vault_do "POST" _ (vault_payload p co) (λ t r,
      (t = set_kv path p (view s) ∧ (co = true → get_kv (view s) path = None)) ∨
      (t = view s ∧ ∀ resp, r = Ok resp → rs_status resp ≠ 200%Z ∧ rs_status resp ≠ 204%Z)) (view s)); [done|by right|].
    intros h s1 Hv1. eapply wp_mono; [by apply vault_post|]. rewrite Hv1.
    intros s2 r [(Hv & Hr & Hco)|[Hv Hr]]; rewrite Hv; (split; [|by try rewrite Hr]); [by left|].
    right. split; [done|]. destruct r; [|done]. by intros ? [= <-]; apply Hr. }
  intros s1 [resp|e] Hs; cbn [map_err]; [|destruct Hs as [Hs|[Hs _]]; [by left|by right]].
  wp_step; (destruct Hs as [Hs|[Hs Hst]]; [by left|]); right; [|done]. exfalso.
  destruct (Hst resp eq_refl). apply orb_true_iff in H2. rewrite !Z.eqb_eq in H2. tauto.
Qed.
Lemma vault_looked_up instance spec keyID s :
  wp (vault_passphrase v instance spec) (λ s' r,
    looked_up (Vault v) instance spec keyID (view s) (view s') r) s.
Proof.
  change (vault_passphrase v instance spec) with
    (store_passphrase (vault_read v) (λ u p, vault_write v u p true) "cephenc: generate passphrase: %w"
       (secretPath v instance spec)).
  eapply wp_mono; [by eapply wp_store_passphrase; [apply vault_reads|apply vault_writes]|].
  intros s' r (Hr & Hp & Hu). split; [intros p Heq; simpl; by rewrite (Hr p Heq)|]. split; [done|]. intros spec' keyID' Hne. by apply Hu.
Qed.
End kms_vault.

Section kms_azure.
  Context (a : azureKVKeyService) (HZ : AzureServer a).

Lemma azure_token_keeps : Keeps (azure_get_token (az_tok a)).
Proof.
  unfold azure_get_token, clientCredentials. keeps; [apply azure_login|].
  apply Keeps_modify. intros. apply put_token_law.
Qed.
Lemma wp_azure_do method path body (Q : stores → res perror response → Prop) t s :
  view s = t → (∀ e, Q t (Err e)) →
  (∀ h s1, view s1 = t → wp (httpDo (mkRequest method (azure_url a path) h body)) (λ s' r,
    Q (view s') (map_err (λ _, errorf "%w") r) ∧ (refused r = true → view s' = t)) s1) →
  wp (azure_do a method path body) (λ s' r, Q (view s') r) s.
Proof.
  intros Ht He Hq. unfold azure_do.
  assert (Honce : ∀ s, view s = t → wp (azure_doOnce a method path body) (λ s' r,
    Q (view s') r ∧ ∀ resp, r = Ok resp → refused (Ok resp) = true → view s' = t) s).
  { intros s0 H0'. unfold azure_doOnce. wp_step. wp_use azure_token_keeps.
    intros s1 [token|e] Hv1; [|by split; [rewrite Hv1, H0'; apply He|]].
    unfold http_or. wp_step. wp_use Hq; [congruence|]. intros s2 [resp|e] [HQ Hr]; cbn [map_err]; (split; [done|]); [|done].
    by intros ? [= <-]. }
  wp_step. wp_use Honce; [done|]. intros s1 [resp|e] [HQ Hr]; [|done].
  destruct (rs_status resp =? 401)%Z eqn:Hb; [|by wp_step].
  specialize (Hr resp eq_refl). simpl in Hr. rewrite Hb in Hr. specialize (Hr eq_refl).
  wp_step. unfold azure_invalidate. wp_step. cbv beta iota. wp_use Honce; [by rewrite put_token_law|]. by intros s2 r [? _].
Qed.
Lemma azure_reads : reads_store (getSecret a).
Proof.
  intros name s. unfold getSecret, wrap_as. wp_step. wp_step. eapply wp_mono.
  { apply (wp_azure_do "GET" _ BNone (λ t r, t = view s ∧ ∀ resp, r = Ok resp →
        (rs_status resp = 404%Z → get_kv (view s) name = None) ∧
        (rs_status resp = 200%Z → ∀ p, unmarshal ["value"] (rs_body resp) = Some p →
          text p ∧ (if bool_decide (p = "") then None else Some p) = get_kv (view s) name)) (view s)); [done|done|].
    intros h s1 Hv1. eapply wp_mono; [apply azure_get|]. rewrite Hv1. intros s2 [resp|e] [Hv Hr]; cbn [map_err]; (split; [|done]);
      (split; [done|]); [|done]. intros ? [= <-]. by apply Hr. }
  intros s1 [resp|e] [Hv Hr]; cbn [map_err]; [|by split]. destruct (Hr resp eq_refl) as [H404 H200].
  destruct (Z.eqb_spec (rs_status resp) 404) as [Heq|Hne].
  { wp_step. split; [done|]. intros o [= <-]. by rewrite (H404 Heq). }
  wp_step. wp_step; [|by split]. apply Z.eqb_eq in H2.
  destruct (unmarshal _ (rs_body resp)) as [p|] eqn:Hp; wp_step; (split; [done|]); [|done].
  destruct (H200 H2 p eq_refl) as [Ht Hg]. intros o [= <-]. split; [done|]. intros q. case_bool_decide; [done|]. by intros [= <-].
Qed.
Lemma azure_writes : writes_store false (setSecret a).
Proof.
  intros name p s Ht Hne. unfold setSecret, wrap_as. wp_step. wp_step. eapply wp_mono.
  { apply (wp_azure_do "PUT" _ (text_map [("value", p)]) (λ t r,
      t = set_kv name p (view s) ∨
      (t = view s ∧ ∀ resp, r = Ok resp → rs_status resp ≠ 200%Z)) (view s)); [done|by right|].
    intros h s1 Hv1. eapply wp_mono; [by apply azure_put|]. rewrite Hv1.
    intros s2 r [(Hv & Hr)|[Hv Hr]]; rewrite Hv; (split; [|by try rewrite Hr]); [by left|].
    right. split; [done|]. destruct r; [|done]. by intros ? [= <-]; apply Hr. }
  intros s1 [resp|e] Hs; cbn [map_err]; [|destruct Hs as [Hs|[Hs _]]; [by left|by right]].
  wp_step; (destruct Hs as [Hs|[Hs Hst]]; [by left|]); right; [|done]. exfalso.
  apply Z.eqb_eq in H2. by destruct (Hst resp eq_refl).
Qed.
Lemma azure_looked_up instance spec keyID s :
  wp (azure_passphrase a instance spec) (λ s' r,
    looked_up (AzureKV a) instance spec keyID (view s) (view s') r) s.
Proof.
  change (azure_passphrase a instance spec) with
    (store_passphrase (getSecret a) (setSecret a) "cephenc: azure-kv generate passphrase: %w"
       (secretName a instance spec)).
  eapply wp_mono; [by eapply wp_store_passphrase; [apply azure_reads|apply azure_writes]|].
  intros s' r (Hr & Hp & Hu). split; [intros p Heq; simpl; by rewrite (Hr p Heq)|]. split; [done|]. intros spec' keyID' Hne. by apply Hu.
Qed.
End kms_azure.

(** *** KMIP *)
Section kms_kmip.
  Context (k : kmipKeyService) (HK : KmipServer k).

Definition unused (t : stores) (uid : string) : Prop :=
  st_objs t !! uid = None ∧ ∀ spec, get_meta t spec MetaKMIPUID ≠ uid.
Lemma wp_register p s :
  wp (register k p) (λ s' r,
    (view s' = view s ∧ is_Ok r = false) ∨
    ∃ uid, view s' = set_obj uid p (view s) ∧ unused (view s) uid ∧ ∀ u, r = Ok u → u = uid ∧ u ≠ "") s.
Proof.
  unfold register. wp_step. wp_step. wp_use kmip_register.
  intros s1 [pt|e] [[Hv Hf]|(uid & Hv & Ho & Hm & Hu)]; cbn [map_err]; try done; [|by left|].
  2:{ right. by exists uid. }
  destruct pt; try (wp_step; right; by exists uid). wp_step. wp_step; [|right; by exists uid].
  wp_step. right. exists uid. split; [done|]. split; [done|]. intros u [= <-]. split; [by apply Hu|].
  intros ->. by rewrite bool_decide_eq_true_2 in H2.
Qed.
Lemma wp_kmip_get uid s :
  wp (kmip_get k uid) (λ s' r, view s' = view s ∧ ∀ p, r = Ok p → st_objs (view s) !! uid = Some p) s.
Proof.
  unfold kmip_get. wp_step. wp_step. wp_use kmip_fetch. intros s1 [pt|e] [Hv Hm]; cbn [map_err]; [|by split].
  destruct pt as [| [[]|] | | |]; wp_step; (split; [done|]); try done; intros ? [= <-]; by apply (Hm _ eq_refl).
Qed.
Lemma wp_destroy uid s : wp (destroy k uid) (λ s' _, view s' = del_obj uid (view s) ∨ view s' = view s) s.
Proof.
  unfold destroy. wp_step. wp_use kmip_destroy. intros s1 [pt|e] Hv; [by wp_step|]. by wp_go.
Qed.
Lemma wp_try_destroy uid s :
  wp (try_destroy k uid) (λ s' r, is_Ok r = true ∧ (view s' = del_obj uid (view s) ∨ view s' = view s)) s.
Proof. unfold try_destroy. wp_step. wp_use wp_destroy. intros s1 r Hv. by wp_step. Qed.

(** Only the volume's own identifier and an object no volume recorded changed. *)
Lemma kmip_elsewhere instance spec t t' uid :
  (∀ spec', spec' ≠ spec → get_meta t' spec' MetaKMIPUID = get_meta t spec' MetaKMIPUID) →
  (∀ u, u ≠ uid → st_objs t' !! u = st_objs t !! u) → (∀ spec', get_meta t spec' MetaKMIPUID ≠ uid) →
  elsewhere (Kmip k) instance spec t t'.
Proof. intros Hm Ho Hf spec' keyID Hne. simpl in *. rewrite Hm by done. by apply Ho. Qed.
Lemma set_meta_others spec v t spec' :
  spec' ≠ spec → get_meta (set_meta spec MetaKMIPUID v t) spec' MetaKMIPUID = get_meta t spec' MetaKMIPUID.
Proof. intros Hne. apply get_set_meta_ne. by intros [= ->]. Qed.

Lemma kmip_looked_up c instance spec keyID sec s :
  wp (kmip_passphrase k c instance spec sec) (λ s' r,
    looked_up (Kmip k) instance spec keyID (view s) (view s') r) s.
Proof.
  unfold kmip_passphrase. apply (wp_conn _ _ _ _ (looked_up _ _ _ _ (view s))); [done|].
  intros c' s2 Hv2. wp_step. wp_use MetaGet_law. intros s3 [w|e] [Hv3 Hw]; rewrite ?Hv3, ?Hv2; [|done].
  rewrite (Hw w eq_refl), Hv2. clear Hw w.
  destruct (bool_decide_reflect (get_meta (view s) spec MetaKMIPUID = "")) as [Hn|Hn]; simpl.
  2:{ wp_use wp_kmip_get. intros s4 r [Hv4 Hp]. rewrite Hv4, Hv3, Hv2 in *. apply looked_up_held. intros p Hr. simpl.
      rewrite (Hp p Hr). by rewrite bool_decide_eq_false_2. }
  wp_step. wp_use wp_fresh. intros s4 [pass|e] [Hv4 _]; [|by rewrite Hv4, Hv3, Hv2].
  wp_step. wp_use wp_register. rewrite Hv4, Hv3, Hv2. clear s2 s3 Hv2 Hv3 Hv4.
  assert (Herr : ∀ t' uid e, unused (view s) uid →
    (∀ spec', spec' ≠ spec → get_meta t' spec' MetaKMIPUID = get_meta (view s) spec' MetaKMIPUID) →
    (∀ u, u ≠ uid → st_objs t' !! u = st_objs (view s) !! u) →
    looked_up (Kmip k) instance spec keyID (view s) t' (Err e)).
  { intros t' uid e [_ Hf] Hm Ho. split; [done|]. split; [simpl; by rewrite bool_decide_eq_true_2|].
    by eapply kmip_elsewhere. }
  intros s5 [uid|e] [[Hv Hf]|(uid' & Hv & Hfr & Hu)]; try done.
  2:{ rewrite Hv. done. }
  2:{ rewrite Hv. apply (Herr _ uid'); [done|done|]. intros u Hne. simpl. by rewrite lookup_insert_ne. }
  destruct (Hu uid eq_refl) as [<- Hune]. wp_step. wp_use MetaSet_law. rewrite Hv.
  intros s6 [[]|e] Hs6.
  { wp_step. destruct Hs6 as [Hv6|[_ Hf]]; [|done]. rewrite Hv6. split; [|split].
    - intros p [= <-]. simpl. rewrite get_set_meta. by rewrite lookup_insert_eq, bool_decide_eq_false_2.
    - simpl. by rewrite bool_decide_eq_true_2.
    - eapply kmip_elsewhere; [by intros; rewrite set_meta_others| |apply Hfr]. intros u Hne. simpl. by rewrite lookup_insert_ne. }
  wp_step. wp_use wp_meta_or_empty. intros s7 r [Hv7 (w' & -> & Hw')]. cbv beta iota.
  assert (negb (bool_decide (w' = "")) && negb (bool_decide (w' = uid)) = false) as ->.
  { destruct Hw' as [->|Hw']; [by rewrite bool_decide_eq_true_2|]. destruct Hs6 as [Hv6|[Hv6 _]]; rewrite Hv6 in Hw'; subst w'.
    - rewrite get_set_meta, (bool_decide_eq_true_2 (uid = uid)) by done. by rewrite andb_false_r.
    - change (get_meta (set_obj uid pass (view s)) spec MetaKMIPUID) with (get_meta (view s) spec MetaKMIPUID).
      by rewrite bool_decide_eq_true_2. }
  wp_step. wp_use wp_try_destroy. intros s8 [[]|e'] [Hok Hv8]; [|done]. wp_step.
  apply (Herr _ uid); [done| |]; destruct Hv8 as [-> | ->]; rewrite Hv7; destruct Hs6 as [-> |[-> _]]; intros x Hne;
    try done; try (by rewrite set_meta_others); try (change (get_meta (del_obj uid ?t)) with (get_meta t); by rewrite set_meta_others); simpl; by rewrite ?lookup_delete_ne, ?lookup_insert_ne.
Qed.
End kms_kmip.

Lemma passphrase_looked_up ks c instance spec keyID sec s :
  Served ks →
  wp (passphrase marshal ks c instance spec keyID sec) (λ s' r,
    looked_up ks instance spec keyID (view s) (view s') r) s.
Proof.
  destruct ks; simpl; intros Hs.
  - apply derived_looked_up.
  - apply secrets_looked_up.
  - by wp_step.
  - by apply vault_looked_up.
  - by apply aws_looked_up.
  - by apply azure_looked_up.
  - by apply kmip_looked_up.
Qed.

(** ** Rotation

    [apply] adds a key slot to the volume with the passphrase it is given; when it
    fails it may have done so. *)
Definition add_slot (p : string) (t : stores) : stores :=
  mkStores (st_meta t) (st_kv t) (st_objs t) ({[p]} ∪ st_slots t).
Definition adds_slot (apply : string → op unit) : Prop := ∀ p s,
  wp (apply p) (λ s' r, view s' = add_slot p (view s) ∨ (view s' = view s ∧ is_Ok r = false)) s.
(** The passphrase the volume is kept under opens it. *)
Definition opens (t : stores) (ks : keyService) (instance spec keyID : string) : Prop :=
  ∃ key, held t ks instance spec keyID = Some key ∧ key ∈ st_slots t.
Definition rotated (ks : keyService) (instance spec keyID : string) (t t' : stores) (r : res perror unit) : Prop :=
  opens t ks instance spec keyID ∨ is_Ok r = true → opens t' ks instance spec keyID.

Lemma rotated_err ks instance spec keyID t e : rotated ks instance spec keyID t t (Err e).
Proof. by intros [?|?]. Qed.
Lemma rotated_slot ks instance spec keyID t p e : rotated ks instance spec keyID t (add_slot p t) (Err e).
Proof. intros [(key & Hh & Hk)|?]; [|done]. exists key. split; [by destruct ks|]. simpl. set_solver. Qed.
Lemma rotated_to ks instance spec keyID t t' p r :
  held t' ks instance spec keyID = Some p → p ∈ st_slots t' → rotated ks instance spec keyID t t' r.
Proof. intros Hh Hp _. by exists p. Qed.

(** After the new slot was added: the entry is replaced, or stays on a failure. *)
Lemma secrets_rotated c instance spec keyID sec apply s :
  adds_slot apply →
  wp (secrets_rotate c instance spec sec apply) (λ s' r,
    rotated secretsMetadataKeyService instance spec keyID (view s) (view s') r) s.
Proof.
  intros Ha. unfold secrets_rotate. wp_step. wp_use wp_master. intros s1 [kek|e] [Hv1 Hkek]; rewrite <-?Hv1; [|apply rotated_err].
  rewrite (Hkek kek eq_refl). apply (wp_conn _ _ _ _ (rotated _ _ _ _ (view s1))); [intros; apply rotated_err|].
  intros c' s2 Hv2. wp_step. wp_use wp_fresh. intros s3 [p|e] [Hv3 _]; [|rewrite Hv3, Hv2; apply rotated_err].
  wp_step. wp_use wp_wrap. intros s4 [w|e] [Hv4 Hw]; [|rewrite Hv4, Hv3, Hv2; apply rotated_err].
  destruct (Hw w eq_refl) as [Hun _]. wp_step. wp_use Ha. rewrite Hv4, Hv3, Hv2.
  intros s5 [[]|e] [Hv5|[Hv5 Hf]]; try done; rewrite ?Hv5; [|apply rotated_slot|apply rotated_err].
  wp_use MetaSet_law. intros s6 r [Hv6|[Hv6 Hf]]; rewrite Hv6, Hv5.
  - apply (rotated_to _ _ _ _ _ _ p); [|simpl; set_solver]. simpl. by rewrite get_set_meta, Hun.
  - destruct r; [done|]. apply rotated_slot.
Qed.
Lemma aws_rotated a c instance spec keyID sec apply s :
  AwsServer marshal a kms_plain → adds_slot apply →
  wp (aws_rotateKey marshal a c instance spec sec apply) (λ s' r,
    rotated (AwsKMS a) instance spec keyID (view s) (view s') r) s.
Proof.
  intros HA Ha. unfold aws_rotateKey. apply (wp_conn _ _ _ _ (rotated _ _ _ _ (view s))); [intros; apply rotated_err|].
  intros c' s2 Hv2. wp_step. wp_use (wp_generate a HA). intros s3 [pb|e] [Hv3 Hpb]; [|rewrite Hv3, Hv2; apply rotated_err].
  destruct (Hpb pb eq_refl) as [Hpl _]. wp_step. wp_use Ha. rewrite Hv3, Hv2.
  intros s5 [[]|e] [Hv5|[Hv5 Hf]]; try done; rewrite ?Hv5; [|apply rotated_slot|apply rotated_err].
  wp_use MetaSet_law. intros s6 r [Hv6|[Hv6 Hf]]; rewrite Hv6, Hv5.
  - apply (rotated_to _ _ _ _ _ _ (hex_string pb.1)); [|simpl; set_solver]. simpl. by rewrite get_set_meta, Hpl.
  - destruct r; [done|]. apply rotated_slot.
Qed.
Lemma wp_store_rotate co ks instance spec keyID write apply s :
  (∀ t, held t ks instance spec keyID = get_kv t (slot ks instance spec)) →
  writes_store co write → adds_slot apply →
  wp (pass ← randomPassphrase; apply pass;; write (slot ks instance spec) pass) (λ s' r,
    rotated ks instance spec keyID (view s) (view s') r) s.
Proof.
  intros Hh Hw Ha. wp_step. wp_use wp_fresh. intros s3 [p|e] [Hv3 Hp]; [|rewrite Hv3; apply rotated_err].
  destruct (Hp p eq_refl) as [Ht Hne]. wp_step. wp_use Ha. rewrite Hv3.
  intros s5 [[]|e] [Hv5|[Hv5 Hf]]; try done; rewrite ?Hv5; [|apply rotated_slot|apply rotated_err].
  wp_use (Hw (slot ks instance spec) p s5 Ht Hne). intros s6 r [[Hv6 _]|[Hv6 Hf]]; rewrite Hv6, Hv5.
  - apply (rotated_to _ _ _ _ _ _ p); [|simpl; set_solver]. rewrite Hh. by apply get_set_kv.
  - destruct r; [done|]. apply rotated_slot.
Qed.

Lemma kmip_rotated k c instance spec keyID sec apply s :
  KmipServer k → adds_slot apply →
  wp (kmip_rotateKey k c instance spec sec apply) (λ s' r,
    rotated (Kmip k) instance spec keyID (view s) (view s') r) s.
Proof.
  intros HK Ha. unfold kmip_rotateKey. apply (wp_conn _ _ _ _ (rotated _ _ _ _ (view s))); [intros; apply rotated_err|].
  intros c' s2 Hv2. wp_step. wp_use MetaGet_law. intros s3 [old|e] [Hv3 Hold]; [|rewrite Hv3, Hv2; apply rotated_err].
  rewrite (Hold old eq_refl), Hv2. clear Hold old.
  wp_step. wp_use wp_fresh. intros s4 [p|e] [Hv4 _]; [|rewrite Hv4, Hv3, Hv2; apply rotated_err].
  wp_step. wp_use (wp_register k HK). rewrite Hv4, Hv3, Hv2. clear s2 s3 Hv2 Hv3 Hv4.
  (* with the new object added or gone again, the recorded one still opens *)
  assert (Hkeep : ∀ t' uid e, unused (view s) uid → st_meta t' = st_meta (view s) →
    (∀ u, u ≠ uid → st_objs t' !! u = st_objs (view s) !! u) → st_slots (view s) ⊆ st_slots t' →
    rotated (Kmip k) instance spec keyID (view s) t' (Err e)).
  { intros t' uid e [_ Hm] Hmeta Ho Hsl [(key & Hh & Hk)|?]; [|done]. exists key. split; [|set_solver]. simpl in *.
    unfold get_meta. rewrite Hmeta. by rewrite Ho by (apply (Hm spec)). }
  intros s5 [uid|e] [[Hv Hf]|(uid' & Hv & Hfr & Hu)]; try done.
  2:{ rewrite Hv. apply rotated_err. }
  2:{ rewrite Hv. apply (Hkeep _ uid'); [done..| |done]. intros u Hne. simpl. by rewrite lookup_insert_ne. }
  destruct (Hu uid eq_refl) as [<- Hune]. clear Hu. wp_step. wp_use Ha. rewrite Hv.
  intros s6 [[]|e] Hs6.
  - destruct Hs6 as [Hv6|[_ Hf]]; [|done]. wp_step. wp_use MetaSet_law. rewrite Hv6.
    assert (Hnew : ∀ t' r, (∀ u, u ≠ get_meta (view s) spec MetaKMIPUID → st_objs t' !! u = <[uid:=p]> (st_objs (view s)) !! u) →
      get_meta t' spec MetaKMIPUID = uid → p ∈ st_slots t' → rotated (Kmip k) instance spec keyID (view s) t' r).
    { intros t' r Ho Hm Hp. apply (rotated_to _ _ _ _ _ _ p); [|done]. simpl. rewrite Hm, Ho by (symmetry; apply Hfr). by rewrite lookup_insert_eq. }
    intros s7 [[]|e] [Hv7|[Hv7 Hf]]; try done.
    + destruct (bool_decide _).
      * wp_step. rewrite Hv7. apply Hnew; [done|apply get_set_meta|simpl; set_solver].
      * wp_use (wp_try_destroy k HK). intros s8 r [_ Hv8]. destruct Hv8 as [Hv8|Hv8]; rewrite Hv8, Hv7.
        -- apply Hnew; [|by rewrite get_meta_del_obj, get_set_meta|simpl; set_solver].
           intros u Hne. simpl. by rewrite lookup_delete_ne.
        -- apply Hnew; [done|apply get_set_meta|simpl; set_solver].
    + rewrite Hv7. apply Hnew; [done|apply get_set_meta|simpl; set_solver].
    + rewrite Hv7. apply (Hkeep _ uid); [done..| |simpl; set_solver]. intros u Hne. simpl. by rewrite lookup_insert_ne.
  - wp_step. wp_use (wp_try_destroy k HK). intros s7 [[]|e'] [Hok Hv7]; [|done]. wp_step.
    apply (Hkeep _ uid); [done|..]; destruct Hv7 as [-> | ->]; destruct Hs6 as [-> |[-> _]];
      [done..| | | | | | | |]; try (simpl; clear; set_solver); intros u Hne; simpl; by rewrite ?lookup_delete_ne, ?lookup_insert_ne.
Qed.

(** ** Clones *)
Definition cloned (ks : keyService) (instance src dst keyID key : string) (t' : stores) : Prop :=
  held t' ks instance dst keyID = Some key ∧ held t' ks instance src keyID = Some key.

Lemma vault_cloned v instance src dst key s :
  VaultServer v → secretPath v instance src ≠ secretPath v instance dst →
  get_kv (view s) (secretPath v instance src) = Some key →
  wp (vault_cloneKey v instance src dst) (λ s' r, is_Ok r = true →
    get_kv (view s') (secretPath v instance dst) = Some key ∧ get_kv (view s') (secretPath v instance src) = Some key) s.
Proof.
  intros HV Hne Hk. pose proof (get_kv_nonempty _ _ _ Hk) as Hkn. unfold vault_cloneKey. cbv zeta.
  wp_step. wp_use (vault_reads v HV). intros s1 [o|e] [Hv1 Ho]; [|done]. destruct (Ho o eq_refl) as [Hu Ht].
  rewrite Hk in Hu. subst o. specialize (Ht key eq_refl).
  assert (Hset : ∀ t', t' = set_kv (secretPath v instance dst) key (view s) →
    get_kv t' (secretPath v instance dst) = Some key ∧ get_kv t' (secretPath v instance src) = Some key).
  { intros t' ->. split; [by apply get_set_kv|]. by rewrite get_set_kv_ne. }
  wp_step. wp_use (vault_writes v HV true (secretPath v instance dst) key s1 Ht Hkn). rewrite Hv1.
  intros s2 [[]|e] Hs2.
  { wp_step. intros _. apply Hset. by destruct Hs2 as [[-> _]|[_ ?]]. }
  wp_step. wp_use (vault_reads v HV). intros s3 [[q|]|e'] [Hv3 Hq]; try by wp_step.
  destruct (bool_decide_reflect (q = key)) as [->|]; wp_step; [|done]. intros _. rewrite Hv3.
  destruct Hs2 as [[Hv2 _]|[Hv2 _]]; [by apply Hset|]. destruct (Hq _ eq_refl) as [Hg _]. by rewrite Hv2 in *.
Qed.
Lemma azure_cloned a instance src dst key s :
  AzureServer a → secretName a instance src ≠ secretName a instance dst →
  get_kv (view s) (secretName a instance src) = Some key →
  wp (azure_cloneKey a instance src dst) (λ s' r, is_Ok r = true →
    get_kv (view s') (secretName a instance dst) = Some key ∧ get_kv (view s') (secretName a instance src) = Some key) s.
Proof.
  intros HZ Hne Hk. pose proof (get_kv_nonempty _ _ _ Hk) as Hkn. unfold azure_cloneKey.
  wp_step. wp_use (azure_reads a HZ). intros s1 [o|e] [Hv1 Ho]; [|done]. destruct (Ho o eq_refl) as [Hu Ht].
  rewrite Hk in Hu. subst o. wp_use (azure_writes a HZ (secretName a instance dst) key s1 (Ht key eq_refl) Hkn). rewrite Hv1.
  intros s2 r [[Hv2 _]|[_ Hf]] Hr; [|congruence]. rewrite Hv2. split; [by apply get_set_kv|]. by rewrite get_set_kv_ne.
Qed.
(** A KMIP clone that does not own an object yet gets a new one. *)
Lemma kmip_cloned k c instance src dst sec key s :
  KmipServer k → src ≠ dst → get_meta (view s) src MetaKMIPUID ≠ "" → get_meta (view s) dst MetaKMIPOwner ≠ dst →
  st_objs (view s) !! get_meta (view s) src MetaKMIPUID = Some key →
  wp (kmip_cloneKey k c instance src dst sec) (λ s' r, is_Ok r = true →
    st_objs (view s') !! get_meta (view s') dst MetaKMIPUID = Some key ∧
    st_objs (view s') !! get_meta (view s') src MetaKMIPUID = Some key ∧
    get_meta (view s') src MetaKMIPUID ≠ get_meta (view s') dst MetaKMIPUID) s.
Proof.
  intros HK Hne Hsrc How Hk. unfold kmip_cloneKey.
  apply (wp_conn _ _ _ _ (λ t r, is_Ok r = true →
    st_objs t !! get_meta t dst MetaKMIPUID = Some key ∧ st_objs t !! get_meta t src MetaKMIPUID = Some key ∧
    get_meta t src MetaKMIPUID ≠ get_meta t dst MetaKMIPUID)); [done|].
  intros c' s1 Hv1. wp_step. wp_use MetaGet_law. rewrite Hv1. intros s2 [u|e] [Hv2 Hu]; [|done]. rewrite (Hu u eq_refl). clear Hu u.
  rewrite bool_decide_eq_false_2 by done. wp_step. wp_use MetaGet_law. rewrite Hv2.
  intros s3 [o|e] [Hv3 Ho]; [|done]. rewrite (Ho o eq_refl). clear Ho o. rewrite bool_decide_eq_false_2 by done.
  wp_step. wp_use (wp_kmip_get k HK). rewrite Hv3. intros s4 [p|e] [Hv4 Hp]; [|done].
  specialize (Hp p eq_refl). rewrite Hk in Hp. injection Hp as <-. clear Hv1 Hv2 Hv3.
  wp_step. wp_use (wp_register k HK). rewrite Hv4. intros s5 [uid|e] [[_ Hf]|(uid' & Hv5 & Hfr & Hu)]; try done.
  destruct (Hu uid eq_refl) as [-> _]. wp_step. wp_use MetaSet_law. rewrite Hv5.
  intros s6 [[]|e] [Hv6|[_ Hf]]; try done. wp_use MetaSet_law. rewrite Hv6.
  intros s7 r [Hv7|[_ Hf]] Hr; [|congruence]. rewrite Hv7.
  assert (∀ x, get_meta (set_meta dst MetaKMIPOwner dst (set_meta dst MetaKMIPUID uid' (set_obj uid' key (view s)))) x MetaKMIPUID =
    get_meta (set_meta dst MetaKMIPUID uid' (view s)) x MetaKMIPUID) as Hx.
  { intros x. by rewrite get_set_meta_ne. }
  rewrite !Hx, get_set_meta, set_meta_others by done. simpl.
  rewrite lookup_insert_eq, lookup_insert_ne by (symmetry; apply Hfr). destruct Hfr as [_ Hfr]. done.
Qed.

Lemma delete_keeps ks c instance src dst keyID s :
  Served ks → slot ks instance src ≠ slot ks instance dst →
  (∀ k, ks = Kmip k → get_meta (view s) src MetaKMIPUID ≠ get_meta (view s) dst MetaKMIPUID) →
  wp (deleteKey ks c instance dst) (λ s' _, held (view s') ks instance src keyID = held (view s) ks instance src keyID) s.
Proof.
  assert (Hdel : ∀ t u u', u' ≠ u → get_kv (del_kv u t) u' = get_kv t u').
  { intros t u u' Hu. unfold get_kv, del_kv. simpl. by rewrite lookup_delete_ne. }
  destruct ks as [| | |v| |a|k]; simpl; intros Hs Hne Huid; try by wp_step.
  - unfold vault_deleteKey, wrap_as. wp_step. wp_step. eapply wp_mono.
    { apply (wp_vault_do v Hs "DELETE" _ BNone (λ t _, t = del_kv (secretPath v instance dst) (view s) ∨ t = view s) (view s));
        [done|by right|]. intros h s1 Hv1. eapply wp_mono; [apply vault_delete|]. rewrite Hv1.
      intros s2 r [[-> Hr]| ->]; (split; [|by rewrite ?Hr]); [by left|by right]. }
    intros s1 [resp|e] Hv; cbn [map_err]; [wp_step|]; destruct Hv as [-> | ->]; try done; by apply Hdel.
  - unfold azure_deleteKey, wrap_as. wp_step. wp_step. eapply wp_mono.
    { apply (wp_azure_do a Hs "DELETE" _ BNone (λ t _, t = del_kv (secretName a instance dst) (view s) ∨ t = view s) (view s));
        [done|by right|]. intros h s1 Hv1. eapply wp_mono; [apply azure_delete|]. rewrite Hv1.
      intros s2 r [[-> Hr]| ->]; (split; [|by rewrite ?Hr]); [by left|by right]. }
    intros s1 [resp|e] Hv; cbn [map_err]; [wp_step|]; destruct Hv as [-> | ->]; try done; by apply Hdel.
  - unfold kmip_deleteKey. apply (wp_conn _ _ _ _ (λ t _, st_objs t !! get_meta t src MetaKMIPUID = _)); [done|].
    intros c' s1 Hv1. wp_step. wp_use MetaGet_law. rewrite Hv1. intros s2 [u|e] [Hv2 Hu]; [|by rewrite Hv2].
    rewrite (Hu u eq_refl). destruct (bool_decide _); [wp_step; by rewrite Hv2|].
    wp_use (wp_destroy k Hs). rewrite Hv2. intros s3 r [-> | ->]; [|done]. simpl.
    rewrite get_meta_del_obj, lookup_delete_ne; [done|]. intros Heq. by apply (Huid k eq_refl).
Qed.

(** ** The claims *)
Abbreviation lookup_key r c instance kmsID spec keyID sec := (Passphrase marshal r c instance kmsID spec keyID sec).

Lemma Passphrase_provider r c instance kmsID spec keyID sec ks s :
  resolve r kmsID = Ok ks → mget sec SecretPassphrase = "" →
  lookup_key r c instance kmsID spec keyID sec s = passphrase marshal ks c instance spec keyID sec s.
Proof. intros Hks Hsec. unfold Passphrase. cbv zeta. rewrite Hsec, bool_decide_eq_true_2 by done. simpl. by rewrite Hks. Qed.


(** C31: key rotation is recoverable.  Whatever provider a volume uses and whatever fails
    on the way, including a write that fails after it took effect, the passphrase the
    volume is kept under after a rotation opens it if it did before, and after a
    rotation that succeeded it opens it in any case; a volume with an explicit secret or
    a derived key is refused with InvalidArgument and left alone. *)
Theorem rotation_recoverable r c instance kmsID spec keyID sec ks apply s :
  resolve r kmsID = Ok ks → Served ks → adds_slot apply →
  let '(s1, r1) := RotateKey marshal r c instance kmsID spec sec apply s in
  (opens (view s) ks instance spec keyID ∨ is_Ok r1 = true → opens (view s1) ks instance spec keyID) ∧
  (mget sec SecretPassphrase ≠ "" ∨ rotateKey marshal ks = None →
    s1 = s ∧ ∃ m, r1 = Err (Errorf CodeInvalidArg m)).
Proof.
  intros Hks Hserved Ha. unfold RotateKey, guard_, mbind, M_bind, lift. simpl. case_bool_decide as Hsec; simpl.
  2:{ split; [by intros [?|?]|]. intros _. split; [done|]. by eexists. }
  rewrite Hks. destruct (rotateKey marshal ks) as [rotate|] eqn:Hr.
  2:{ split; [by intros [?|?]|]. intros _. split; [done|]. by eexists. }
  assert (wp (rotate c instance spec sec apply) (λ s' r, rotated ks instance spec keyID (view s) (view s') r) s) as Hw.
  { destruct ks; try done; injection Hr as <-; simpl in Hserved.
    - by apply secrets_rotated.
    - by apply (wp_store_rotate false (Vault v) _ _ _ (λ u p, vault_write v u p false)); [|apply vault_writes|].
    - by apply aws_rotated.
    - by apply (wp_store_rotate false (AzureKV a) _ _ _ (setSecret a)); [|apply azure_writes|].
    - by apply kmip_rotated. }
  unfold wp in Hw. destruct (rotate c instance spec sec apply s) as [s1 r1]. split; [exact Hw|]. by intros [?|?].
Qed.

(** A clone owns its key.  When copying the key of a volume to its clone succeeds,
    under a provider that keeps keys outside the volume, the clone is kept under the
    source's passphrase, in an entry of its own: deleting the clone's key afterwards
    leaves the source's.  (For KMIP the clone carries no owner mark of its own yet,
    whatever metadata it inherited.) *)
Theorem clone_owns_key ks clone c c2 instance src dst sec keyID key s :
  cloneKey ks = Some clone → Served ks → slot ks instance src ≠ slot ks instance dst →
  present (view s) ks instance src = true → get_meta (view s) dst MetaKMIPOwner ≠ dst →
  held (view s) ks instance src keyID = Some key →
  wp (clone c instance src dst sec) (λ s1 r, is_Ok r = true →
    held (view s1) ks instance dst keyID = Some key ∧ held (view s1) ks instance src keyID = Some key ∧
    wp (deleteKey ks c2 instance dst) (λ s2 _, held (view s2) ks instance src keyID = Some key) s1) s.
Proof.
  intros Hc Hserved Hne Hp How Hk.
  assert (wp (clone c instance src dst sec) (λ s1 r, is_Ok r = true →
    held (view s1) ks instance dst keyID = Some key ∧ held (view s1) ks instance src keyID = Some key ∧
    ∀ k, ks = Kmip k → get_meta (view s1) src MetaKMIPUID ≠ get_meta (view s1) dst MetaKMIPUID) s) as Hw.
  { destruct ks as [| | |v| |a|k]; try done; injection Hc as <-; simpl in *.
    - wp_use vault_cloned; [done..|]. intros s1 r' Hr Hok. destruct (Hr Hok). done.
    - wp_use azure_cloned; [done..|]. intros s1 r' Hr Hok. destruct (Hr Hok). done.
    - apply negb_true_iff, bool_decide_eq_false_1 in Hp.
      wp_use kmip_cloned; [done..|]. intros s1 r' Hr Hok. destruct (Hr Hok) as (? & ? & ?). done. }
  eapply wp_mono; [exact Hw|]. intros s1 r' Hr Hok. destruct (Hr Hok) as (Hd & Hs & Hu).
  split; [done|]. split; [done|]. eapply wp_mono; [by eapply delete_keeps|]. intros s2 r2 ->. done.
Qed.
End held.

(** ** A world that keeps the laws

    The stores themselves as the state: metadata is a map, the KMIP server keeps its
    objects, the network is otherwise down. *)
Definition recorded_uids (t : stores) : gset string :=
  list_to_set (map_to_list (st_meta t)).*2 ∪ dom (st_objs t) ∪ {[""]}.
Definition world_kmip (rq : kmip_request) (t : stores) : stores * kmip_outcome :=
  match rq with
  | KRegister p =>
      let uid := stdpp.base.fresh (recorded_uids t) in
      (set_obj uid p t, KAnswered [mkItem true "" (KUid uid)])
  | KGet uid =>
      (t, KAnswered [match st_objs t !! uid with
                     | Some p => mkItem true "" (KSecret (Some (MBytes p)))
                     | None => mkItem false ItemNotFound KEmpty
                     end])
  | KDestroy uid => (del_obj uid t, KAnswered [mkItem true "" KEmpty])
  end.
Fixpoint zeros (n : nat) : string := match n with O => "" | S n => String "0" (zeros n) end.
#[local] Instance world_env : Env stores := {|
  readFile _ t := (t, Ok "master"); getenv _ _ := ""; randRead n t := (t, Ok (zeros n)); now _ := 0%Z;
  httpDo _ t := (t, Err "connection refused"); kmipExchange _ := world_kmip; pem_certs _ := true;
  key_pair _ _ t := (t, Ok tt); get_token _ _ := ("", 0%Z); put_token _ _ t := t;
  get_creds _ _ := (no_creds, 0%Z); put_creds _ _ t := t |}.
#[local] Instance world_host : KHost stores := {|
  MasterKeyDir := "/keys"; ConnFor c _ _ t := (t, Ok (c, λ t, t));
  MetaGet _ spec key t := (t, Ok (get_meta t spec key));
  MetaSet _ spec key v t := (set_meta spec key v t, Ok tt) |}.
#[local] Program Instance world_surroundings : Surroundings stores := {| view t := t; files _ := "master" |}.
Next Obligation. by intros p s; split; [|intros ? [= <-]]. Qed.
Next Obligation. intros n s. split; [done|]. intros d [= <-]. induction n; simpl; [done|]. by f_equal. Qed.
Next Obligation. done. Qed.
Next Obligation. done. Qed.
Next Obligation. intros c i sec s. split; [done|]. by intros cc [= <-]. Qed.
Next Obligation. intros c spec key s. split; [done|]. by intros v [= <-]. Qed.
Next Obligation. intros c spec key v s. by left. Qed.

Lemma recorded_uid t spec key : get_meta t spec key ∈ recorded_uids t.
Proof.
  unfold get_meta, recorded_uids. destruct (st_meta t !! (spec, key)) as [v|] eqn:Hv; simpl; [|set_solver].
  apply elem_of_union_l, elem_of_union_l, elem_of_list_to_set, list_elem_of_fmap. exists ((spec, key), v).
  split; [done|]. by apply elem_of_map_to_list.
Qed.
#[local] Instance world_kmip_server k : KmipServer k.
Proof.
  split.
  - intros p s. right. exists (stdpp.base.fresh (recorded_uids s)). pose proof (is_fresh (recorded_uids s)) as Hf.
    split; [done|]. split; [|split; [|by intros u [= <-]]].
    + apply not_elem_of_dom. intros Hin. apply Hf. unfold recorded_uids at 2. set_solver.
    + intros spec Heq. apply Hf. rewrite <-Heq. apply recorded_uid.
  - intros uid s. unfold wp, send. simpl. destruct (st_objs s !! uid) as [p|] eqn:Hp; simpl; (split; [done|]); [|done].
    intros m [= <-]. done.
  - intros uid s. by left.
Qed.

Definition ex_registry : Registry := {["local" := secretsMetadataKeyService]}.
Definition no_stores : stores := mkStores ∅ ∅ ∅ ∅.
Definition ex_marshal (_ : json) : string := "".
Definition ex_staged : stores := (Passphrase ex_marshal ex_registry None "east" "local" "rbd/vol" "rbd/vol" ∅ no_stores).1.
Definition ex_key : option string := held (λ _, None) ex_staged secretsMetadataKeyService "east" "rbd/vol" "rbd/vol".
(** The volume, formatted with its passphrase. *)
Definition ex_open : stores := match ex_key with Some p => add_slot p ex_staged | None => ex_staged end.
Definition ex_apply (p : string) : M stores perror unit := modify (add_slot p).

Lemma rotation_recoverable_witness :
  opens (λ _, None) (RotateKey ex_marshal ex_registry None "east" "local" "rbd/vol" ∅ ex_apply ex_open).1
    secretsMetadataKeyService "east" "rbd/vol" "rbd/vol".
Proof.
  pose proof (rotation_recoverable ex_marshal (λ _, None) ex_registry None "east" "local" "rbd/vol" "rbd/vol" ∅
    secretsMetadataKeyService ex_apply ex_open ltac:(reflexivity) I ltac:(by intros p s; left)) as Hr.
  destruct (RotateKey _ _ _ _ _ _ _ _ _) as [s1 r1]. destruct Hr as [Hr _]. apply Hr. left.
  exists (default "" ex_key). split; [vm_compute; reflexivity|]. refine (bool_decide_eq_true_1 (default "" ex_key ∈ st_slots ex_open) _). vm_compute. reflexivity.
Defined.

(** A staged KMIP volume and a clone that inherited its metadata. *)
Definition ex_kmip : keyService := Kmip (mkKmip "hsm:5696" "hsm").
Definition ex_kmip_staged : stores :=
  let t := (passphrase ex_marshal ex_kmip None "east" "rbd/src" "rbd/src" ∅ no_stores).1 in
  set_meta "rbd/clone" MetaKMIPUID (get_meta t "rbd/src" MetaKMIPUID) t.
Definition ex_kmip_key : string := default "" (held (λ _, None) ex_kmip_staged ex_kmip "east" "rbd/src" "").
Lemma clone_owns_key_witness :
  let t := (kmip_cloneKey (mkKmip "hsm:5696" "hsm") None "east" "rbd/src" "rbd/clone" ∅ ex_kmip_staged).1 in
  held (λ _, None) t ex_kmip "east" "rbd/clone" "" = Some ex_kmip_key ∧
  held (λ _, None) (deleteKey ex_kmip None "east" "rbd/clone" t).1 ex_kmip "east" "rbd/src" "" = Some ex_kmip_key.
Proof.
  pose proof (clone_owns_key ex_marshal (λ _, None) ex_kmip (kmip_cloneKey (mkKmip "hsm:5696" "hsm")) None None "east"
    "rbd/src" "rbd/clone" ∅ "" ex_kmip_key ex_kmip_staged eq_refl (world_kmip_server _) ltac:(done)
    ltac:(vm_compute; reflexivity) ltac:(vm_compute; discriminate) ltac:(vm_compute; reflexivity)) as Hw.
  unfold wp in Hw.
  destruct (kmip_cloneKey (mkKmip "hsm:5696" "hsm") None "east" "rbd/src" "rbd/clone" ∅ ex_kmip_staged) as [t r] eqn:Ht.
  assert (is_Ok r = true) as Hok by (replace r with ((t, r).2) by done; rewrite <-Ht; vm_compute; reflexivity).
  destruct (Hw Hok) as (Hd & _ & Hdel). cbv zeta. cbn [fst]. split; [exact Hd|].
  destruct (deleteKey ex_kmip None "east" "rbd/clone" t) as [t2 r2]. exact Hdel.
Defined.

(** ** Two nodes staging a volume for the first time at once

    A store in which another node's key appears right after this node found none. *)
Record raced := mkRaced { rc_kv : option string; rc_raced : bool }.
Definition race (rq : request) (t : raced) : raced * res string response :=
  let absent := mkResponse 404 BNone in
  if bool_decide (rq_method rq = "GET") then
    match rc_kv t with
    | Some p => (t, Ok (mkResponse 200 (BJson (JObj
        [("value", JStr p); ("data", JObj [("data", JObj [("passphrase", JStr p)])])]))))
    | None => (if rc_raced t then t else mkRaced (Some "other-node") true, Ok absent)
    end
  else
    match rq_body rq, rc_kv t with
    | BJson (JObj [("value", JStr p)]), _ => (mkRaced (Some p) (rc_raced t), Ok (mkResponse 200 BNone))
    | BJson (JObj (("data", JObj [(_, JStr p)]) :: _)), None => (mkRaced (Some p) (rc_raced t), Ok (mkResponse 200 BNone))
    | _, _ => (t, Ok (mkResponse 400 BNone))
    end.
#[local] Instance raced_env : Env raced := {|
  readFile _ t := (t, Ok "master"); getenv _ _ := ""; randRead n t := (t, Ok (zeros n)); now _ := 0%Z;
  httpDo := race; kmipExchange _ _ t := (t, KDialFailed); pem_certs _ := true; key_pair _ _ t := (t, Ok tt);
  get_token _ _ := ("", 0%Z); put_token _ _ t := t; get_creds _ _ := (no_creds, 0%Z); put_creds _ _ t := t |}.
Definition ex_vault : vaultKeyService := mkVault "v" "http://vault" "secret" "bard-luks" "t" "" "token" "" "" "".
Definition ex_azure : azureKVKeyService :=
  mkAzure "https://kv" "7.4" "bard-luks" (mkAzureToken "a" "token" "t" "" "" "" "" "" "").
(** Vault's create-only write loses, and the node takes the key that is stored. *)
Example vault_takes_the_stored_key :
  vault_passphrase ex_vault "east" "rbd/vol" (mkRaced None false) = (mkRaced (Some "other-node") true, Ok "other-node").
Proof. vm_compute. reflexivity. Qed.
(** Key Vault's write cannot lose: the other node's key is replaced. *)
Example azure_replaces_the_stored_key :
  let '(t, r) := azure_passphrase ex_azure "east" "rbd/vol" (mkRaced None false) in
  rc_kv t = Some (sha256.hex (replicate 32 48%Z)) ∧ r = Ok (sha256.hex (replicate 32 48%Z)).
Proof. vm_compute. split; reflexivity. Qed.

(** ** A KMIP identifier whose object is gone

    When recording the identifier fails after it took effect, the object is destroyed
    and the identifier stays: every later lookup fails. *)
#[local] Instance faulty_host : KHost stores := {|
  MasterKeyDir := "/keys"; ConnFor c _ _ t := (t, Ok (c, λ t, t));
  MetaGet _ spec key t := (t, Ok (get_meta t spec key));
  MetaSet _ spec key v t := (set_meta spec key v t, Err (errorf "timeout")) |}.
Example kmip_identifier_dangles :
  let t := (passphrase ex_marshal ex_kmip None "east" "rbd/vol" "rbd/vol" ∅ no_stores).1 in
  (present t ex_kmip "east" "rbd/vol", st_objs t, is_Ok (passphrase ex_marshal ex_kmip None "east" "rbd/vol" "rbd/vol" ∅ t).2) =
  (true, ∅, false).
Proof. vm_compute. reflexivity. Qed.
End kmsspec.
