(* ===== verification/RBD.v ===== *)
(** * The Ceph RBD plugin: common part (internal/cephplugin)

    Names, error classifiers, map options, the JSON the rbd and ceph tools answer with,
    the connection (a temporary keyfile, removed when the operation ends) and the
    metadata of an image, which is also where the key-management providers of
    internal/cephenc keep what they store: [rbd_khost] is their [Host].  The host is a
    parameter: commands, package os, and the surroundings of the providers. *)
From Stdlib Require Import Ascii.
From S2P Require Import Prelude GoStrings GoPath Json JsonText Protocol Sha256 Host GoOs KMS KMSRegistry.

Module cephrbd.
Import bardplugin cephenc kms jsontext.

(** ** Parameters and constants *)
Definition mib : Z := 1048576.
Definition defaultFsType : string := "ext4".
Definition paramPool : string := "pool".
Definition paramRadosNamespace : string := "radosNamespace".
Definition paramVolumeNamePrefix : string := "volumeNamePrefix".
Definition secretUserID : string := "userID".
Definition secretUserKey : string := "userKey".
Definition defaultUserID : string := "admin".
Definition paramImageFeatures : string := "imageFeatures".
Definition paramStripeUnit : string := "stripeUnit".
Definition paramStripeCount : string := "stripeCount".
Definition paramObjectSize : string := "objectSize".
Definition paramDataPool : string := "dataPool".
Definition paramMapOptions : string := "mapOptions".
Definition paramUnmapOptions : string := "unmapOptions".
Definition mounterNBD : string := "rbd-nbd".
Definition mounterKRBD : string := "krbd".
Definition paramTryOtherMounters : string := "tryOtherMounters".
Definition paramMkfsOptions : string := "mkfsOptions".
Definition paramSnapshotNamePrefix : string := "snapshotNamePrefix".
Definition paramCephLogDir : string := "cephLogDir".
Definition paramCephLogStrategy : string := "cephLogStrategy".
Definition tmpClonePrefix : string := "clonetmp-".
Definition volNamePrefix : string := "csi-vol-".
Definition snapNamePrefix : string := "csi-snap-".
Definition shortNameHashLen : nat := 16.
Definition imgMetaKMSID : string := MetaKMSID.
Definition imgMetaKeyID : string := MetaKeyID.
Definition imgMetaWrappedDEK : string := MetaWrappedDEK.
Definition imgMetaStatic : string := "bard.static".
Definition imgMetaClusterName : string := "csi.ceph.com/cluster/name".
Definition imgMetaSource : string := "bard.source".
Definition ownerMeta : strmap :=
  list_to_map [("csi.storage.k8s.io/pvc/name", "bard.pvcname");
               ("csi.storage.k8s.io/pvc/namespace", "bard.pvcnamespace");
               ("csi.storage.k8s.io/pv/name", "bard.pvname")].
Definition defaultCloneDepthLimit : Z := 4.

Record ClusterConfig := mkClusterConfig {
  cc_Monitors : list string; cc_Pool : string; cc_UserID : string; cc_Mounter : string;
  cc_RadosNamespace : string; cc_ReadAffinity : bool; cc_ClusterName : string }.

(** What [New] and the [With...] methods fix; the mutable fields are in [RBDControl]. *)
Record Config := mkConfig {
  clusters : gmap string ClusterConfig;
  keyDir : string;
  encKeyDir : string;
  stateDir : string;
  registry : Registry;
  cloneDepthLimit : Z;
  flattenAsync : bool }.

(** [New], and the methods that complete it. *)
Definition New (clusters : gmap string ClusterConfig) (keyDir stateDir : string) : Config :=
  mkConfig clusters keyDir "" stateDir ∅ defaultCloneDepthLimit true.
Definition WithCloneDepthLimit (n : Z) (b : Config) : Config :=
  mkConfig (clusters b) (keyDir b) (encKeyDir b) (stateDir b) (registry b) n (flattenAsync b).
Definition WithEncryption (dir : string) (b : Config) : Config :=
  mkConfig (clusters b) (keyDir b) dir (stateDir b) (registry b) (cloneDepthLimit b) (flattenAsync b).

(** A value, with a default when it is empty. *)
Definition or_else (v def : string) : string := if bool_decide (v = "") then def else v.

(** ** Error classifiers (runner.go) *)

(** The text of the error of [ExecRunner.Run]: the command line, the failure of the
    process and its standard error. *)
Definition exec_error (name : string) (args : list string) (err stderr : string) : string :=
  name +:+ " " +:+ join " " args +:+ ": " +:+ err +:+ ": " +:+ trim_space stderr.
Definition newline : ascii := ascii_of_N 10.
Definition errString (err : string) : string :=
  join (of_char newline) (filter (λ l, contains "ceph.conf" l = false) (split_on newline err)).
Definition isNotFound (err : string) : bool :=
  let s := to_lower (errString err) in
  contains "does not exist" s || contains "no such file" s || contains "not found" s.
Definition isAlreadyExists (err : string) : bool :=
  let s := to_lower (errString err) in contains "exists" s || contains "file exists" s.
Definition isNotMounted (err : string) : bool :=
  let s := to_lower (errString err) in contains "not mounted" s || contains "not currently mounted" s.
Definition errContains (err : string) (subs : list string) : bool :=
  let s := to_lower (errString err) in forallb (λ sub, contains (to_lower sub) s) subs.

(** ** Names *)
Definition shortName (prefix csiName : string) : string := prefix +:+ sha256.short_hash csiName.
Definition namePrefix (param value def : string) : res perror string :=
  if bool_decide (value = "") then Ok def
  else if contains_any ["/"%char; "@"%char; " "%char; ascii_of_N 9; newline] value
  then Err (Errorf CodeInvalidArg "ceph-rbd: invalid %s %q (no '/', '@', or whitespace)")
  else Ok value.
Definition volumeImagePrefix (p : string) : res perror string := namePrefix paramVolumeNamePrefix p volNamePrefix.
(** A name [shortName] can have made: a byte more than the hash, which ends it. *)
Definition hash_char (a : ascii) : bool := byte_in 48 57 a || byte_in 97 102 a.
Definition isBardImageName (name : string) : bool :=
  bool_decide (shortNameHashLen < String.length name) &&
  all_chars hash_char (String.substring (String.length name - shortNameHashLen) shortNameHashLen name).
Definition refKey (r : VolumeRef) : string :=
  VolumeRef_Instance r +:+ "|" +:+ VolumeRef_Location r +:+ "|" +:+ VolumeRef_Name r.
(** An image or snapshot as rbd addresses it. *)
Definition spec_of (r : VolumeRef) : string := VolumeRef_Location r +:+ "/" +:+ VolumeRef_Name r.
Definition locator (pool namespace : string) : string :=
  if bool_decide (namespace = "") then pool else pool +:+ "/" +:+ namespace.
Definition bytesToMiB (n : Z) : Z :=
  if bool_decide (n ≤ 0)%Z then 1 else Z.quot (wrap64 (n + mib - 1)) mib.
Definition sourceDesc (req : CreateVolumeRequest) : string :=
  match CreateVolumeRequest_SourceSnapshot req, CreateVolumeRequest_SourceVolume req with
  | Some s, _ => "snap:" +:+ spec_of s
  | None, Some v => "vol:" +:+ spec_of v
  | None, None => ""
  end.
Definition metaAddr (spec key : string) : string * string :=
  match cut_on "@" spec with
  | Some (img, snap) => (img, key +:+ "@" +:+ snap)
  | None => (spec, key)
  end.

(** ** Map options (mapoptions.go) *)
Definition after_prefix (p s : string) : string := default s (cut_prefix p s).
Fixpoint mounter_segments (want : string) (segs : list string) : list string :=
  match segs with
  | [] => []
  | seg :: segs =>
      let seg := trim_space seg in
      let rest := mounter_segments want segs in
      if bool_decide (seg = "") then rest
      else if has_prefix "krbd:" seg then
        if bool_decide (want = "krbd") then trim_space (after_prefix "krbd:" seg) :: rest else rest
      else if has_prefix "nbd:" seg then
        if bool_decide (want = "nbd") then trim_space (after_prefix "nbd:" seg) :: rest else rest
      else seg :: rest
  end.
Definition resolveMounterOptions (raw mounter : string) : string :=
  let raw := trim_space raw in
  if bool_decide (raw = "") then ""
  else
    let want := if bool_decide (mounter = mounterNBD) then "nbd" else "krbd" in
    join "," (mounter_segments want (split_on ";" raw)).
Definition readAffinityOptions (cc : ClusterConfig) (crushLocation : string) : string :=
  if negb (cc_ReadAffinity cc) || bool_decide (crushLocation = "") || bool_decide (cc_Mounter cc = mounterNBD)
  then "" else "read_from_replica=localize,crush_location=" +:+ crushLocation.
Definition combineOptions (opts : list string) : string := join "," (filter (λ o, o ≠ "") opts).

(** ** StorageClass parameters *)
Definition dataPoolArgs (p : strmap) : list string :=
  let v := mget p paramDataPool in if bool_decide (v = "") then [] else ["--data-pool"; v].
Definition flag_arg (flag v : string) : list string := if bool_decide (v = "") then [] else [flag; v].
Definition createParams (p : strmap) : list string :=
  flag_arg "--image-feature" (mget p paramImageFeatures) ++ flag_arg "--stripe-unit" (mget p paramStripeUnit) ++
  flag_arg "--stripe-count" (mget p paramStripeCount) ++ flag_arg "--object-size" (mget p paramObjectSize) ++
  dataPoolArgs p.
Definition rbdMutableParams : strmap :=
  list_to_map [("qosIopsLimit", "rbd_qos_iops_limit"); ("qosBpsLimit", "rbd_qos_bps_limit");
    ("qosReadIopsLimit", "rbd_qos_read_iops_limit"); ("qosWriteIopsLimit", "rbd_qos_write_iops_limit");
    ("qosReadBpsLimit", "rbd_qos_read_bps_limit"); ("qosWriteBpsLimit", "rbd_qos_write_bps_limit")].
Definition validateMutableParams `{MapIter} (p : strmap) : res perror unit :=
  if forallb (λ k, bool_decide (is_Some (rbdMutableParams !! k))) (range_keys p) then Ok tt
  else Err (Errorf CodeInvalidArg "ceph-rbd: unsupported mutable parameter %q").
Definition validateCephLogStrategy (p : strmap) : res perror unit :=
  if bool_decide (mget p paramCephLogStrategy ∈ [""; "remove"; "compress"; "preserve"]) then Ok tt
  else Err (Errorf CodeInvalidArg "ceph-rbd: invalid cephLogStrategy %q (remove|compress|preserve)").

(** LUKS tuning (encryption.go). *)
Definition paramEncryptedDiscards : string := "encryptedDiscards".
Definition paramEncryptionCipher : string := "encryptionCipher".
Definition paramEncryptionKeySize : string := "encryptionKeySize".
Definition paramEncryptionSectorSize : string := "encryptionSectorSize".
Definition paramEncryptionIntegrity : string := "integrityMode".
Definition luksMapperPrefix : string := "bard-luks-".
Definition luks_tuning : list string :=
  [paramEncryptionCipher; paramEncryptionKeySize; paramEncryptionSectorSize; paramEncryptionIntegrity].
(** [^[a-zA-Z0-9_:-]{1,64}$]. *)
Definition cipher_char (a : ascii) : bool :=
  byte_in 97 122 a || byte_in 65 90 a || byte_in 48 57 a || bool_decide (a ∈ ["_"%char; ":"%char; "-"%char]).
Definition luksCipherPattern (c : string) : bool :=
  all_chars cipher_char c && bool_decide (1 ≤ String.length c ≤ 64).
Definition luks_cipher_args (c : string) : res perror (list string) :=
  if bool_decide (c = "") then Ok []
  else if luksCipherPattern c then Ok ["--cipher"; c]
  else Err (Errorf CodeInvalidArg "ceph-rbd: invalid encryptionCipher %q").
Definition luks_keysize_args (k : string) : res perror (list string) :=
  if bool_decide (k = "") then Ok []
  else match Atoi k with
       | Some n => if bool_decide (n ≤ 0)%Z || negb (bool_decide (Z.rem n 8 = 0%Z))
                   then Err (Errorf CodeInvalidArg "ceph-rbd: invalid encryptionKeySize %q (want a positive multiple of 8, in bits)")
                   else Ok ["--key-size"; Itoa n]
       | None => Err (Errorf CodeInvalidArg "ceph-rbd: invalid encryptionKeySize %q (want a positive multiple of 8, in bits)")
       end.
Definition luks_choice_args (flag fmt : string) (allowed : list string) (v : string) : res perror (list string) :=
  if bool_decide (v = "") then Ok []
  else if bool_decide (v ∈ allowed) then Ok [flag; v] else Err (Errorf CodeInvalidArg fmt).
Definition luksFormatArgs (p : strmap) : res perror (list string) :=
  match luks_cipher_args (trim_space (mget p paramEncryptionCipher)) with Err e => Err e | Ok a =>
  match luks_keysize_args (trim_space (mget p paramEncryptionKeySize)) with Err e => Err e | Ok b =>
  match luks_choice_args "--sector-size" "ceph-rbd: invalid encryptionSectorSize %q (want 512, 1024, 2048, or 4096)"
    ["512"; "1024"; "2048"; "4096"] (trim_space (mget p paramEncryptionSectorSize)) with Err e => Err e | Ok c =>
  match luks_choice_args "--integrity" "ceph-rbd: invalid integrityMode %q (want hmac-sha256, hmac-sha512, or aead)"
    ["hmac-sha256"; "hmac-sha512"; "aead"] (trim_space (mget p paramEncryptionIntegrity)) with Err e => Err e | Ok d =>
  Ok (a ++ b ++ c ++ d) end end end end.
Definition validateLuksTuning (p : strmap) : res perror unit :=
  match luksFormatArgs p with
  | Err e => Err e
  | Ok _ =>
      if bool_decide (mget p ParamEncryptionType = EncryptionTypeFile) &&
         existsb (λ k, negb (bool_decide (mget p k = ""))) luks_tuning
      then Err (Errorf CodeInvalidArg "ceph-rbd: LUKS tuning is not supported with encryptionType=file (fscrypt)")
      else if negb (bool_decide (trim_space (mget p paramEncryptionIntegrity) = "")) &&
              bool_decide (mget p paramEncryptedDiscards = "true")
      then Err (Errorf CodeInvalidArg "ceph-rbd: integrityMode is incompatible with encryptedDiscards (dm-integrity does not support discard)")
      else Ok tt
  end.

(** ** What the tools answer, as the fields that are read *)
Abbreviation image_fields ns := (one "pool" string * one ns string * one "image" string)%type.
Definition fields_spec {ns} (f : image_fields ns) : string :=
  locator (the f.1.1) (the f.1.2) +:+ "/" +:+ the f.2.
Abbreviation parent_info := (one "parent" (option (image_fields "pool_namespace" * one "trash" bool))).
Abbreviation du_report := (one "total_used_size" (option Z) * one "images" (list (one "used_size" (option Z))))%type.
Abbreviation df_report := (one "pools" (list (one "name" string * one "stats" (one "max_avail" Z)))).
Abbreviation rbdSnap := (one "name" string * one "size" Z)%type.

Section plugin.
  Context {H : Type} `{Host H} `{Files H} `{TempFiles H} `{Env H} `{MapIter} (cfg : Config).
  Abbreviation op A := (M H perror A).

Definition cluster (instance : string) : res perror ClusterConfig :=
  match clusters cfg !! instance with
  | Some cc => Ok cc
  | None => Err (Errorf CodeInvalidArg "ceph-rbd: no cluster configured for instance %q")
  end.

(** ** The connection *)
Definition secret_key (instance : string) (secrets : strmap) : op string :=
  let k := mget secrets secretUserKey in
  if negb (bool_decide (k = "")) then mret k
  else if negb (bool_decide (keyDir cfg = ""))
  then fail (errorf "ceph-rbd: no cephx key for instance %q (no %s and no CSI secret)")
  else mret "".
Definition keyFor (instance : string) (secrets : strmap) : op string :=
  if negb (bool_decide (keyDir cfg = "")) then
    catch (os_get (ReadFile (Join [keyDir cfg; instance]))) (λ r,
      match r with
      | Ok data => mret (trim_space data)
      | Err e => if negb (not_exist e) then fail (errorf "ceph-rbd: read key for instance %q: %w")
                 else secret_key instance secrets
      end)
  else secret_key instance secrets.

Definition user_of (cc : ClusterConfig) (secrets : strmap) : string :=
  or_else (or_else (mget secrets secretUserID) (cc_UserID cc)) defaultUserID.
(** The arguments and the cleanup, which removes the keyfile. *)
Definition connArgs (cc : ClusterConfig) (instance : string) (secrets : strmap) : op (list string * (H → H)) :=
  let args := ["-c"; "/dev/null"; "-m"; join "," (cc_Monitors cc); "--id"; user_of cc secrets] in
  key ← keyFor instance secrets;
  if bool_decide (key = "") then mret (args, id)
  else
    f ← os_or "ceph-rbd: keyfile: %w" (SecretTemp "csi-ceph-key-");
    catch (os_unit (WriteString f key)) (λ r,
      match r with
      | Err _ => os_try (Remove f);; fail (errorf "ceph-rbd: keyfile: %w")
      | Ok _ => mret (args ++ ["--keyfile"; f], λ h, (Remove f h).1)
      end).
(** [defer cleanup()]. *)
Definition deferred {A} (cleanup : H → H) (m : op A) : op A := λ h, let '(h', r) := m h in (cleanup h', r).
(** [conn, cleanup, err := b.connArgs(...); defer cleanup()]. *)
Definition connected {A} (cc : ClusterConfig) (instance : string) (secrets : strmap)
    (body : list string → op A) : op A :=
  c ← connArgs cc instance secrets;
  deferred c.2 (body c.1).

(** The configuration file the Python tool needs; writing it is not checked. *)
Definition conf_text (monitors : list string) : string :=
  "[global]" +:+ of_char newline +:+ "mon_host = " +:+ join "," monitors +:+ of_char newline.
Definition remove_files (files : list string) : H → H := λ h, foldl (λ h f, (Remove f h).1) h files.
(** [cephCLIConn] and [cephFenceConn] (and the CephFS plugin's [cephConn]), which differ in
    where the key comes from and in the names of the temporary files. *)
Definition ceph_conn (confPat keyPat confErr keyErr : string) (monitors : list string) (user : string)
    (keyOf : op string) : op (list string * (H → H)) :=
  conf ← os_or confErr (os_get (CreateTemp "" confPat));
  os_try (WriteString conf (conf_text monitors));;
  let args := ["--conf"; conf; "--id"; user] in
  catch keyOf (λ r,
    match r with
    | Err e => modify (remove_files [conf]);; fail e
    | Ok key =>
        if bool_decide (key = "") then mret (args, remove_files [conf])
        else
          catch (SecretTemp keyPat) (λ r,
            match r with
            | Err _ => modify (remove_files [conf]);; fail (errorf keyErr)
            | Ok kf => os_try (WriteString kf key);; mret (args ++ ["--keyfile"; kf], remove_files [conf; kf])
            end)
    end).
Definition cephCLIConn (cc : ClusterConfig) (instance : string) (secrets : strmap) : op (list string * (H → H)) :=
  ceph_conn "csi-ceph-conf-" "csi-ceph-key-" "ceph-rbd: conf: %w" "ceph-rbd: keyfile: %w" (cc_Monitors cc) (user_of cc secrets)
    (keyFor instance secrets).
Definition fence_key (instance : string) (secrets : strmap) : op string :=
  let key := mget secrets secretUserKey in
  if bool_decide (key = "") then keyFor instance ∅ else mret key.
Definition cephFenceConn (cc : ClusterConfig) (instance : string) (secrets : strmap) : op (list string * (H → H)) :=
  ceph_conn "csi-fence-conf-" "csi-fence-key-" "ceph-rbd: fence conf: %w" "ceph-rbd: fence keyfile: %w" (cc_Monitors cc) (user_of cc secrets)
    (fence_key instance secrets).
(** [defer cleanup()] after either. *)
Definition connected_by {A} (c : op (list string * (H → H))) (body : list string → op A) : op A :=
  c ← c; deferred c.2 (body c.1).

(** ** Image metadata *)
Definition imageMetaSet (conn : list string) (spec key value : string) : op unit :=
  let '(img, k) := metaAddr spec key in
  run_or "ceph-rbd: image-meta set %s %s: %w" "rbd" (conn ++ ["image-meta"; "set"; img; k; value]);; mret tt.
Definition imageMetaGetChecked (conn : list string) (spec key : string) : op string :=
  let '(img, k) := metaAddr spec key in
  catch (run "rbd" (conn ++ ["image-meta"; "get"; img; k])) (λ r,
    match r with
    | Ok out => mret (trim_space out)
    | Err e => if isNotFound e then mret "" else fail (errorf "ceph-rbd: image-meta get %s %s: %w")
    end).
Definition imageMetaGet (conn : list string) (spec key : string) : op string :=
  catch (imageMetaGetChecked conn spec key) (λ r, mret (match r with Ok v => v | Err _ => "" end)).
Definition imageMetaRemove (conn : list string) (spec key : string) : op unit :=
  let '(img, k) := metaAddr spec key in
  run_unless isNotFound "ceph-rbd: image-meta remove %s %s: %w" "rbd" (conn ++ ["image-meta"; "remove"; img; k]).
Fixpoint owner_labels (conn : list string) (spec : string) (params : strmap) (l : list (string * string)) : op unit :=
  match l with
  | [] => mret tt
  | (src, key) :: l =>
      let v := mget params src in
      (if bool_decide (v = "") then mret tt else catch (imageMetaSet conn spec key v) (λ _, mret tt));;
      owner_labels conn spec params l
  end.
Definition setOwnerMetadata (conn : list string) (spec : string) (params : strmap) : op unit :=
  owner_labels conn spec params (range ownerMeta).

(** ** The providers' [Host] *)
Definition ConnFor_ (c : conn) (instance : string) (secrets : strmap) : op (conn * (H → H)) :=
  match c with
  | Some args => mret (Some args, id)
  | None =>
      cc ← lift (cluster instance);
      c ← connArgs cc instance secrets;
      mret (Some c.1, c.2)
  end.
(** A provider always passes on the connection [ConnFor] gave it. *)
Definition conn_args (c : conn) : list string := default [] c.
#[global] Instance rbd_khost : KHost H := {|
  MasterKeyDir := encKeyDir cfg;
  ConnFor := ConnFor_;
  MetaGet c := imageMetaGetChecked (conn_args c);
  MetaSet c := imageMetaSet (conn_args c);
|}.

Definition WithKMS (cfgs : gmap string KMSConfig) : op Config :=
  r ← Register cfgs (registry cfg);
  mret (mkConfig (clusters cfg) (keyDir cfg) (encKeyDir cfg) (stateDir cfg) r (cloneDepthLimit cfg) (flattenAsync cfg)).

(** ** Images *)

(** [imageInfo]: the size in MiB, [None] for [errImageNotFound]. *)
Definition imageInfo (conn : list string) (spec : string) : op (option Z) :=
  catch (run "rbd" (conn ++ ["info"; spec; "--format"; "json"])) (λ r,
    match r with
    | Err e => if isNotFound e then mret None else fail (errorf "ceph-rbd: info %s: %w")
    | Ok out =>
        match unmarshal (A := one "size" Z) out with
        | Some raw => mret (Some (Z.quot (the raw) mib))
        | None => fail (errorf "ceph-rbd: parse info %s: %w")
        end
    end).
Definition errImageNotFound : perror := errorf "ceph-rbd: image not found".
(** [imageInfo] where every error is returned. *)
Definition imageSize (conn : list string) (spec : string) : op Z :=
  i ← imageInfo conn spec; match i with Some n => mret n | None => fail errImageNotFound end.
(** [imageInfo] where the missing image is [NotFound]. *)
Definition image_exists (conn : list string) (spec : string) : op unit :=
  i ← imageInfo conn spec;
  match i with Some _ => mret tt | None => fail (Errorf CodeNotFound "ceph-rbd: image %s not found") end.

(** [imageParent]: the parent's spec, empty when there is none, and whether it is in
    the trash. *)
Definition imageParent (conn : list string) (spec : string) : op (string * bool) :=
  out ← run_or "ceph-rbd: info %s: %w" "rbd" (conn ++ ["info"; spec; "--format"; "json"]);
  match unmarshal (A := parent_info) out with
  | None => fail (errorf "ceph-rbd: parse info %s: %w")
  | Some raw =>
      match the raw with
      | Some (f, trash) => mret (if bool_decide (the f.2 = "") then ("", false) else (fields_spec f, the trash))
      | None => mret ("", false)
      end
  end.
(** [cloneDepth]: the loop runs while [depth <= 64], so [fuel] starts at 65. *)
Fixpoint cloneDepth_go (fuel : nat) (conn : list string) (cur : string) (depth : Z) : op (Z * bool) :=
  match fuel with
  | O => mret (depth, true)
  | S fuel =>
      p ← imageParent conn cur;
      if bool_decide (p.1 = "") then mret (depth, true)
      else if p.2 : bool then mret (depth + 1, false)%Z
      else cloneDepth_go fuel conn p.1 (depth + 1)
  end.
Definition cloneDepth (conn : list string) (spec : string) : op (Z * bool) := cloneDepth_go 65 conn spec 0.
Definition flattenIfDeep (conn : list string) (spec : string) : op unit :=
  if bool_decide (cloneDepthLimit cfg ≤ 0)%Z then mret tt
  else
    catch (cloneDepth conn spec) (λ d,
      let shallow := match d with
                     | Ok (depth, exact) => (exact && bool_decide (depth < cloneDepthLimit cfg)%Z) || bool_decide (depth = 0%Z)
                     | Err _ => false
                     end in
      if shallow then mret tt
      else run_or "ceph-rbd: flatten %s: %w" "rbd" (conn ++ ["flatten"; spec]);; mret tt).

Definition resizeImage (conn : list string) (spec : string) (sizeMiB : Z) : op unit :=
  run_or "ceph-rbd: resize %s: %w" "rbd" (conn ++ ["resize"; spec; "--size"; Itoa sizeMiB]);; mret tt.
Definition listImages (conn : list string) (pool namespace : string) : op (list string) :=
  let args := ["ls"; pool; "--format"; "json"] ++
    (if bool_decide (namespace = "") then [] else ["--namespace"; namespace]) in
  catch (run "rbd" (conn ++ args)) (λ r,
    match r with
    | Err e => if isNotFound e then mret [] else fail (errorf "ceph-rbd: rbd ls %s: %w")
    | Ok out => match unmarshal (A := list string) out with
                | Some names => mret names
                | None => fail (errorf "ceph-rbd: parse rbd ls %s: %w")
                end
    end).
Definition listSnaps (conn : list string) (spec : string) : op (list rbdSnap) :=
  catch (run "rbd" (conn ++ ["snap"; "ls"; spec; "--format"; "json"])) (λ r,
    match r with
    | Err e => if isNotFound e then mret [] else fail (errorf "ceph-rbd: rbd snap ls %s: %w")
    | Ok out => match unmarshal (A := list rbdSnap) out with
                | Some snaps => mret snaps
                | None => fail (errorf "ceph-rbd: parse rbd snap ls %s: %w")
                end
    end).
Definition ensureNamespace (conn : list string) (pool namespace : string) : op unit :=
  out ← run_or "ceph-rbd: rbd namespace ls %s: %w" "rbd" (conn ++ ["namespace"; "ls"; pool; "--format"; "json"]);
  match unmarshal (A := list (one "name" string)) out with
  | None => fail (errorf "ceph-rbd: parse rbd namespace ls %s: %w")
  | Some existing =>
      if existsb (λ n, bool_decide (the n = namespace)) existing then mret tt
      else
        run_or "ceph-rbd: rbd namespace create %s/%s: %w" "rbd"
          (conn ++ ["namespace"; "create"; pool +:+ "/" +:+ namespace]);; mret tt
  end.
End plugin.
End cephrbd.
