(* ===== verification/RBDControl.v ===== *)
(** * The Ceph RBD plugin: control plane (internal/cephplugin/cephplugin.go)

    The operations on images and snapshots.  The plugin's memory (the index of snapshot
    names, and the images being flattened in the background) is next to the host in
    [Backend_]: an operation of the host is lifted by [on_host] and leaves it alone.  A
    background flatten is a job that waits in [jobs] until [flatten_worker] runs it, as
    one step between operations. *)
From Stdlib Require Import Ascii.
From S2P Require Import Prelude GoStrings GoPath Json JsonText Protocol Sha256 Host GoOs KMS KMSRegistry RBD.

Module rbdcontrol.
Import bardplugin cephenc kms jsontext cephrbd.

Record flatten_job := mkJob { j_instance : string; j_secrets : strmap; j_spec : string; j_depthGated : bool }.
Record Backend_ (H : Type) := mkState {
  host : H;
  snapIndex : strmap;
  snapNames : strmap;
  flattenInFlight : gset string;
  jobs : list flatten_job }.
Arguments mkState {H}.
Arguments host {H}.
Arguments snapIndex {H}.
Arguments snapNames {H}.
Arguments flattenInFlight {H}.
Arguments jobs {H}.

Definition Info_ : Info :=
  mkInfo "ceph-rbd" "" (mkCapabilities false false true true true false false false false false false false
    false false false false).

Section control.
  Context {H : Type} `{Host H} `{Files H} `{TempFiles H} `{Env H} `{MapIter} (cfg : Config).
  Abbreviation hop A := (M H perror A).
  Abbreviation op A := (M (Backend_ H) perror A).
#[local] Instance khost : KHost H := rbd_khost cfg.

Definition with_host (h : H) (s : Backend_ H) : Backend_ H :=
  mkState h (snapIndex s) (snapNames s) (flattenInFlight s) (jobs s).
Definition on_host {E A} (m : M H E A) : M (Backend_ H) E A := λ s,
  let '(h, r) := m (host s) in (with_host h s, r).
(** [conn, cleanup, err := b.connArgs(...); defer cleanup()]. *)
Definition connected_ {A} (cc : ClusterConfig) (instance : string) (secrets : strmap)
    (body : list string → op A) : op A :=
  c ← on_host (connArgs cfg cc instance secrets);
  λ s, let '(s', r) := body c.1 s in (with_host (c.2 (host s')) s', r).
(** The same after [b.cluster]. *)
Definition on_cluster {A} (instance : string) (secrets : strmap)
    (body : ClusterConfig → list string → op A) : op A :=
  cc ← lift (cluster cfg instance);
  connected_ cc instance secrets (body cc).

(** ** Flattening in the background *)
Definition flatten_unlinked (conn : list string) (spec : string) : hop unit :=
  catch (imageParent conn spec) (λ p,
    match p with
    | Ok ("", _) => mret tt
    | _ => run_or "ceph-rbd: flatten %s: %w" "rbd" (conn ++ ["flatten"; spec]);; mret tt
    end).
(** The body of the goroutine; its error is only logged. *)
Definition flatten_run (j : flatten_job) : hop unit :=
  cc ← lift (cluster cfg (j_instance j));
  connected cfg cc (j_instance j) (j_secrets j) (λ conn,
    if j_depthGated j then flattenIfDeep cfg conn (j_spec j) else flatten_unlinked conn (j_spec j)).
Definition set_inflight (f : gset string → gset string) (s : Backend_ H) : Backend_ H :=
  mkState (host s) (snapIndex s) (snapNames s) (f (flattenInFlight s)) (jobs s).
Definition push_job (j : flatten_job) (s : Backend_ H) : Backend_ H :=
  mkState (host s) (snapIndex s) (snapNames s) (flattenInFlight s) (jobs s ++ [j]).
Definition flatten_and_release (j : flatten_job) : op unit :=
  catch (on_host (flatten_run j)) (λ _, modify (set_inflight (λ f, f ∖ {[ j_spec j ]}))).
Definition backgroundFlatten (instance : string) (secrets : strmap) (spec : string) (depthGated : bool) : op unit :=
  busy ← gets (λ s, bool_decide (spec ∈ flattenInFlight s));
  if busy : bool then mret tt
  else
    modify (set_inflight (λ f, {[ spec ]} ∪ f));;
    let j := mkJob instance secrets spec depthGated in
    if flattenAsync cfg then modify (push_job j) else flatten_and_release j.
(** The scheduler lets the [i]th waiting goroutine run. *)
Definition flatten_worker (i : nat) : op unit := λ s,
  match jobs s !! i with
  | Some j =>
      flatten_and_release j (mkState (host s) (snapIndex s) (snapNames s) (flattenInFlight s)
        (take i (jobs s) ++ drop (S i) (jobs s)))
  | None => (s, Ok tt)
  end.
Definition scheduleFlatten (instance : string) (secrets : strmap) (spec : string) : op unit :=
  if bool_decide (cloneDepthLimit cfg ≤ 0)%Z then mret tt else backgroundFlatten instance secrets spec true.
Definition flattenForMirror (instance : string) (secrets : strmap) (spec : string) : op unit :=
  backgroundFlatten instance secrets spec false.

(** ** Encryption of a clone *)
Definition cloneSourceImageSpec (req : CreateVolumeRequest) : string :=
  match CreateVolumeRequest_SourceSnapshot req, CreateVolumeRequest_SourceVolume req with
  | Some s, _ =>
      let name := match cut_on "@" (VolumeRef_Name s) with Some (img, _) => img | None => VolumeRef_Name s end in
      VolumeRef_Location s +:+ "/" +:+ name
  | None, Some v => spec_of v
  | None, None => ""          (* only called for a clone *)
  end.
Definition encryptionSourceSpec (conn : list string) (req : CreateVolumeRequest) : hop string :=
  match CreateVolumeRequest_SourceSnapshot req with
  | Some s =>
      kmsID ← imageMetaGetChecked conn (spec_of s) imgMetaKMSID;
      mret (if bool_decide (kmsID = "") then cloneSourceImageSpec req else spec_of s)
  | None => mret (cloneSourceImageSpec req)
  end.
(** [inherited]: [first]'s value, else [second]'s. *)
Definition inherited (conn : list string) (first second key : string) : hop string :=
  v ← imageMetaGetChecked conn first key;
  if bool_decide (v = "") then imageMetaGetChecked conn second key else mret v.
Definition inheritEncryption (conn : list string) (sourceSpec cloneSpec instance : string) (secrets : strmap) : hop string :=
  let first := if contains_char "@" sourceSpec then sourceSpec else cloneSpec in
  let second := if contains_char "@" sourceSpec then cloneSpec else sourceSpec in
  keyID ← inherited conn first second imgMetaKeyID;
  let keyID := or_else keyID sourceSpec in
  imageMetaSet conn cloneSpec imgMetaKeyID keyID;;
  kmsID ← inherited conn first second imgMetaKMSID;
  (if bool_decide (kmsID = "") then mret tt else imageMetaSet conn cloneSpec imgMetaKMSID kmsID);;
  dek ← inherited conn first second imgMetaWrappedDEK;
  (if bool_decide (dek = "") then mret tt else imageMetaSet conn cloneSpec imgMetaWrappedDEK dek);;
  (if bool_decide (kmsID = "") then mret tt
   else CloneKey (registry cfg) (Some conn) instance kmsID sourceSpec cloneSpec secrets);;
  mret keyID.

(** ** Creating *)
Definition clone_args (conn : list string) (parent spec : string) (params : strmap) : list string :=
  conn ++ ["clone"; parent; spec; "--rbd-default-clone-format"; "2"] ++ dataPoolArgs params.
Definition tmp_snap (v : VolumeRef) (name : string) : string :=
  spec_of v +:+ "@" +:+ shortName tmpClonePrefix name.
Definition provision (conn : list string) (spec : string) (sizeMiB : Z) (req : CreateVolumeRequest) : op unit :=
  let params := CreateVolumeRequest_Parameters req in
  match CreateVolumeRequest_SourceSnapshot req, CreateVolumeRequest_SourceVolume req with
  | Some s, _ =>
      on_host (run_or "ceph-rbd: clone: %w" "rbd" (clone_args conn (spec_of s) spec params));;
      on_host (imageMetaSet conn spec imgMetaSource (sourceDesc req));;
      scheduleFlatten (CreateVolumeRequest_Instance req) (CreateVolumeRequest_Secrets req) spec
  | None, Some v =>
      let tmpSnap := tmp_snap v (CreateVolumeRequest_Name req) in
      on_host (run_unless isAlreadyExists "ceph-rbd: temp snapshot %s: %w" "rbd" (conn ++ ["snap"; "create"; tmpSnap]));;
      on_host (run_unless isAlreadyExists "ceph-rbd: clone: %w" "rbd" (clone_args conn tmpSnap spec params));;
      on_host (imageMetaSet conn spec imgMetaSource (sourceDesc req))
  | None, None =>
      on_host (run_unless isAlreadyExists "ceph-rbd: create: %w" "rbd"
        (conn ++ ["create"; spec; "--size"; Itoa sizeMiB] ++ createParams params))
  end.

Fixpoint apply_params (conn : list string) (spec : string) (l : list (string * string)) : hop unit :=
  match l with
  | [] => mret tt
  | (k, v) :: l =>
      let rbdKey := mget rbdMutableParams k in
      (if bool_decide (v = "")
       then run_unless isNotFound "ceph-rbd: set %s=%q on %s: %w" "rbd" (conn ++ ["config"; "image"; "remove"; spec; rbdKey])
       else run_or "ceph-rbd: set %s=%q on %s: %w" "rbd" (conn ++ ["config"; "image"; "set"; spec; rbdKey; v]);; mret tt);;
      apply_params conn spec l
  end.
Definition applyMutableParams (conn : list string) (spec : string) (p : strmap) : hop unit :=
  apply_params conn spec (range p).

Definition is_clone (req : CreateVolumeRequest) : bool :=
  match CreateVolumeRequest_SourceSnapshot req, CreateVolumeRequest_SourceVolume req with
  | None, None => false
  | _, _ => true
  end.
(** The image is there: the size it ends up with. *)
Definition create_existing (conn : list string) (spec : string) (sizeMiB existingMiB : Z) (req : CreateVolumeRequest) : hop Z :=
  recorded ← imageMetaGet conn spec imgMetaSource;
  guard_ (bool_decide (recorded = "") || bool_decide (recorded = sourceDesc req))
    (Errorf CodeAlreadyExists "volume %q exists with a different content source (%s)");;
  if bool_decide (existingMiB = sizeMiB) then mret existingMiB
  else
    guard_ (is_clone req) (Errorf CodeAlreadyExists "volume %q exists at %dMiB, requested %dMiB");;
    if bool_decide (existingMiB < sizeMiB)%Z then resizeImage conn spec sizeMiB;; mret sizeMiB
    else mret existingMiB.
(** The image is not there. *)
Definition create_fresh (conn : list string) (spec : string) (sizeMiB : Z) (req : CreateVolumeRequest) : op Z :=
  provision conn spec sizeMiB req;;
  if is_clone req then
    cloneMiB ← on_host (imageSize conn spec);
    if bool_decide (cloneMiB < sizeMiB)%Z then on_host (resizeImage conn spec sizeMiB);; mret sizeMiB
    else mret cloneMiB
  else mret sizeMiB.
(** The end of the recipe for a clone of a volume. *)
Definition clone_tail (conn : list string) (spec : string) (req : CreateVolumeRequest) : op unit :=
  match CreateVolumeRequest_SourceVolume req with
  | None => mret tt
  | Some v =>
      on_host (run_unless isNotFound "ceph-rbd: temp snapshot rm %s: %w" "rbd"
        (conn ++ ["snap"; "rm"; tmp_snap v (CreateVolumeRequest_Name req)]));;
      backgroundFlatten (CreateVolumeRequest_Instance req) (CreateVolumeRequest_Secrets req) spec false
  end.
(** The key identity to advertise, empty for none. *)
Definition create_encryption (conn : list string) (spec : string) (req : CreateVolumeRequest) : hop string :=
  let params := CreateVolumeRequest_Parameters req in
  if negb (bool_decide (mget params ParamEncrypted = "true")) then mret ""
  else if is_clone req then
    src ← encryptionSourceSpec conn req;
    inheritEncryption conn src spec (CreateVolumeRequest_Instance req) (CreateVolumeRequest_Secrets req)
  else
    let id := mget params ParamEncryptionKMSID in
    (if bool_decide (id = "") then mret tt else imageMetaSet conn spec imgMetaKMSID id);;
    mret "".

Definition set_if (k v : string) (m : strmap) : strmap := if bool_decide (v = "") then m else <[k := v]> m.
Definition set_true (k v : string) (m : strmap) : strmap := if bool_decide (v = "true") then <[k := "true"]> m else m.
Definition carried (params : strmap) (keys : list string) (m : strmap) : strmap :=
  foldl (λ m k, set_if k (mget params k) m) m keys.
Definition volCtx (pool image encKeyID : string) (params : strmap) : strmap :=
  let m := <["imageName" := image]> {["pool" := pool]} in
  let m := carried params [paramMapOptions; paramUnmapOptions] m in
  let m := set_true paramTryOtherMounters (mget params paramTryOtherMounters) m in
  let m := carried params [paramMkfsOptions; paramCephLogDir; paramCephLogStrategy] m in
  if bool_decide (mget params ParamEncrypted = "true") then
    let m := <[ParamEncrypted := "true"]> m in
    let m := carried params [ParamEncryptionKMSID] m in
    let m := set_true paramEncryptedDiscards (mget params paramEncryptedDiscards) m in
    let m := carried params (ParamEncryptionType :: luks_tuning) m in
    set_if CtxKeyID encKeyID m
  else m.

Definition create_on (cc : ClusterConfig) (req : CreateVolumeRequest) (pool namespace image : string)
    (conn : list string) : op CreateVolumeResponse :=
  let params := CreateVolumeRequest_Parameters req in
  let location := locator pool namespace in
  let spec := location +:+ "/" +:+ image in
  let sizeMiB := bytesToMiB (CreateVolumeRequest_CapacityBytes req) in
  (if bool_decide (namespace = "") then mret tt else on_host (ensureNamespace conn pool namespace));;
  existing ← on_host (imageInfo conn spec);
  finalMiB ← match existing with
             | Some existingMiB => on_host (create_existing conn spec sizeMiB existingMiB req)
             | None => create_fresh conn spec sizeMiB req
             end;
  clone_tail conn spec req;;
  on_host (applyMutableParams conn spec (CreateVolumeRequest_MutableParams req));;
  encKeyID ← on_host (create_encryption conn spec req);
  on_host (setOwnerMetadata conn spec params);;
  (if bool_decide (cc_ClusterName cc = "") then mret tt
   else on_host (catch (imageMetaSet conn spec imgMetaClusterName (cc_ClusterName cc)) (λ _, mret tt)));;
  mret (mkCreateVolumeResponse location image (wrap64 (finalMiB * mib)) (volCtx pool image encKeyID params) ∅).
Definition CreateVolume (req : CreateVolumeRequest) : op CreateVolumeResponse :=
  let params := CreateVolumeRequest_Parameters req in
  cc ← lift (cluster cfg (CreateVolumeRequest_Instance req));
  lift (validateMutableParams (CreateVolumeRequest_MutableParams req));;
  lift (validateLuksTuning params);;
  lift (validateCephLogStrategy params);;
  let pool := or_else (mget params paramPool) (cc_Pool cc) in
  guard_ (negb (bool_decide (pool = ""))) (errorf "ceph-rbd: no pool given in parameters or cluster config");;
  let namespace := or_else (mget params paramRadosNamespace) (cc_RadosNamespace cc) in
  prefix ← lift (volumeImagePrefix (mget params paramVolumeNamePrefix));
  connected_ cc (CreateVolumeRequest_Instance req) (CreateVolumeRequest_Secrets req)
    (create_on cc req pool namespace (shortName prefix (CreateVolumeRequest_Name req))).

Definition ModifyVolume (req : ModifyVolumeRequest) : op ModifyVolumeResponse :=
  let v := ModifyVolumeRequest_Volume req in
  lift (validateMutableParams (ModifyVolumeRequest_MutableParams req));;
  on_cluster (VolumeRef_Instance v) (ModifyVolumeRequest_Secrets req) (λ _ conn, on_host (
    image_exists conn (spec_of v);;
    applyMutableParams conn (spec_of v) (ModifyVolumeRequest_MutableParams req);;
    mret mkModifyVolumeResponse)).

Definition usedBytes (conn : list string) (spec : string) : hop Z :=
  catch (run "rbd" (conn ++ ["du"; spec; "--format"; "json"])) (λ r, mret (
    match r with
    | Err _ => -1
    | Ok out =>
        match unmarshal (A := du_report) out with
        | None => -1
        | Some du =>
            match the du.1, the du.2 with
            | Some n, _ => n
            | None, [i] => default (-1)%Z (the i)
            | None, _ => -1
            end
        end
    end)%Z).
Definition ReclaimSpace (req : ReclaimSpaceRequest) : op ReclaimSpaceResponse :=
  let v := ReclaimSpaceRequest_Volume req in
  on_cluster (VolumeRef_Instance v) (ReclaimSpaceRequest_Secrets req) (λ _ conn, on_host (
    image_exists conn (spec_of v);;
    pre ← usedBytes conn (spec_of v);
    run_or "ceph-rbd: sparsify %s: %w" "rbd" (conn ++ ["sparsify"; spec_of v]);;
    post ← usedBytes conn (spec_of v);
    mret (mkReclaimSpaceResponse pre post))).

(** ** Deleting *)
Fixpoint flatten_all (instance : string) (secrets : strmap) (kids : list (image_fields "pool_namespace" * one "trash" bool)) : op unit :=
  match kids with
  | [] => mret tt
  | (f, trash) :: kids =>
      (if bool_decide (the f.2 = "") || the trash then mret tt
       else backgroundFlatten instance secrets (fields_spec f) false);;
      flatten_all instance secrets kids
  end.
Definition flattenChildren (conn : list string) (instance : string) (secrets : strmap) (spec : string) : op unit :=
  catch (on_host (run "rbd" (conn ++ ["children"; "--all"; spec; "--format"; "json"]))) (λ r,
    match r with
    | Err _ => mret tt
    | Ok out => match unmarshal out with
                | Some kids => flatten_all instance secrets kids
                | None => mret tt
                end
    end).
(** The stored key goes first, and only when no snapshot needs it. *)
Definition delete_key (conn : list string) (v : VolumeRef) : hop unit :=
  kmsID ← imageMetaGetChecked conn (spec_of v) imgMetaKMSID;
  if bool_decide (kmsID = "") then mret tt
  else
    snaps ← listSnaps conn (spec_of v);
    guard_ (bool_decide (snaps = []))
      (errorf "ceph-rbd: rm %s: image has %d snapshot(s) - not removing (delete its VolumeSnapshots first)");;
    DeleteKey (registry cfg) (Some conn) (VolumeRef_Instance v) kmsID (spec_of v).
Definition remove_image (conn : list string) (secrets : strmap) (v : VolumeRef) : op unit :=
  catch (on_host (run "rbd" (conn ++ ["rm"; spec_of v]))) (λ r,
    match r with
    | Ok _ => mret tt
    | Err e =>
        if isNotFound e then mret tt
        else
          (if errContains e ["linked"; "clones"]
           then flattenChildren conn (VolumeRef_Instance v) secrets (spec_of v) else mret tt);;
          fail (errorf "ceph-rbd: rm %s: %w")
    end).
Definition DeleteVolume (req : DeleteVolumeRequest) : op unit :=
  let v := DeleteVolumeRequest_Volume req in
  on_cluster (VolumeRef_Instance v) (DeleteVolumeRequest_Secrets req) (λ _ conn,
    static ← on_host (imageMetaGetChecked conn (spec_of v) imgMetaStatic);
    if bool_decide (static = "true") then mret tt
    else
      on_host (delete_key conn v);;
      remove_image conn (DeleteVolumeRequest_Secrets req) v).

Definition ExpandVolume (req : ExpandVolumeRequest) : op ExpandVolumeResponse :=
  let v := ExpandVolumeRequest_Volume req in
  on_cluster (VolumeRef_Instance v) (ExpandVolumeRequest_Secrets req) (λ _ conn, on_host (
    let sizeMiB := bytesToMiB (ExpandVolumeRequest_NewSizeBytes req) in
    resizeImage conn (spec_of v) sizeMiB;;
    mret (mkExpandVolumeResponse (wrap64 (sizeMiB * mib)) true))).

(** ** Snapshots *)
Definition set_names (index names : strmap) (s : Backend_ H) : Backend_ H :=
  mkState (host s) index names (flattenInFlight s) (jobs s).
Definition snap_ref (src : VolumeRef) (snap : string) : VolumeRef :=
  mkVolumeRef (VolumeRef_Instance src) (VolumeRef_Location src) (VolumeRef_Name src +:+ "@" +:+ snap).
(** Under the lock: the name is claimed for this source, or refused. *)
Definition claim_name (name : string) (src : VolumeRef) (snap : string) : op unit :=
  s ← gets (λ s, s);
  guard_ (match snapIndex s !! name with Some prev => bool_decide (prev = refKey src) | None => true end)
    (Errorf CodeAlreadyExists "snapshot %q already exists for a different source volume");;
  modify (set_names (<[name := refKey src]> (snapIndex s)) (<[refKey (snap_ref src snap) := name]> (snapNames s))).
Definition snapshot_on (src : VolumeRef) (snap : string) (secrets : strmap) (conn : list string) : hop CreateSnapshotResponse :=
  let snapSpec := spec_of (snap_ref src snap) in
  run_unless isAlreadyExists "ceph-rbd: snap create %s: %w" "rbd" (conn ++ ["snap"; "create"; snapSpec]);;
  kmsID ← imageMetaGetChecked conn (spec_of src) imgMetaKMSID;
  (if bool_decide (kmsID = "") then mret tt
   else inheritEncryption conn (spec_of src) snapSpec (VolumeRef_Instance src) secrets;; mret tt);;
  sizeMiB ← imageSize conn (spec_of src);
  now ← gets UnixNow;
  mret (mkCreateSnapshotResponse (VolumeRef_Location src) (VolumeRef_Name (snap_ref src snap)) ""
    (wrap64 (sizeMiB * mib)) now true).
Definition CreateSnapshot (req : CreateSnapshotRequest) : op CreateSnapshotResponse :=
  let src := CreateSnapshotRequest_SourceVolume req in
  cc ← lift (cluster cfg (VolumeRef_Instance src));
  snapPrefix ← lift (namePrefix paramSnapshotNamePrefix
    (mget (CreateSnapshotRequest_Parameters req) paramSnapshotNamePrefix) snapNamePrefix);
  let snap := shortName snapPrefix (CreateSnapshotRequest_Name req) in
  claim_name (CreateSnapshotRequest_Name req) src snap;;
  connected_ cc (VolumeRef_Instance src) (CreateSnapshotRequest_Secrets req) (λ conn,
    on_host (snapshot_on src snap (CreateSnapshotRequest_Secrets req) conn)).

Fixpoint remove_keys (conn : list string) (spec : string) (keys : list string) : hop unit :=
  match keys with
  | [] => mret tt
  | k :: keys => imageMetaRemove conn spec k;; remove_keys conn spec keys
  end.
Definition snapshot_keys : list string :=
  [imgMetaWrappedDEK; MetaKMIPUID; MetaKMIPOwner; imgMetaKeyID; imgMetaKMSID].
Definition release_name (snap : VolumeRef) (s : Backend_ H) : Backend_ H :=
  match snapNames s !! refKey snap with
  | Some name => set_names (delete name (snapIndex s)) (delete (refKey snap) (snapNames s)) s
  | None => s
  end.
Definition delete_snapshot_on (snap : VolumeRef) (conn : list string) : hop unit :=
  run_unless isNotFound "ceph-rbd: snap rm %s: %w" "rbd" (conn ++ ["snap"; "rm"; spec_of snap]);;
  kmsID ← imageMetaGetChecked conn (spec_of snap) imgMetaKMSID;
  if bool_decide (kmsID = "") then mret tt
  else
    DeleteKey (registry cfg) (Some conn) (VolumeRef_Instance snap) kmsID (spec_of snap);;
    remove_keys conn (spec_of snap) snapshot_keys.
Definition DeleteSnapshot (req : DeleteSnapshotRequest) : op unit :=
  let snap := DeleteSnapshotRequest_Snapshot req in
  on_cluster (VolumeRef_Instance snap) (DeleteSnapshotRequest_Secrets req) (λ _ conn,
    on_host (delete_snapshot_on snap conn);;
    modify (release_name snap)).

(** ** Listing *)
Fixpoint volume_entries (conn : list string) (instance loc : string) (images : list string) : hop (list VolumeListEntry) :=
  match images with
  | [] => mret []
  | img :: images =>
      if negb (isBardImageName img) then volume_entries conn instance loc images
      else
        size ← catch (imageInfo conn (loc +:+ "/" +:+ img)) (λ r, mret (match r with Ok (Some n) => n | _ => 0%Z end));
        rest ← volume_entries conn instance loc images;
        mret (mkVolumeListEntry (mkVolumeRef instance loc img) (wrap64 (size * mib)) :: rest)
  end.
Definition managed_snap (sn : rbdSnap) : bool :=
  isBardImageName (the sn.1) && negb (has_prefix tmpClonePrefix (the sn.1)).
Definition snap_entry (instance loc img : string) (sn : rbdSnap) : SnapshotListEntry :=
  mkSnapshotListEntry (mkVolumeRef instance loc (img +:+ "@" +:+ the sn.1)) (mkVolumeRef instance loc img) (the sn.2) 0 true.
Fixpoint snapshot_entries (conn : list string) (instance loc : string) (images : list string) : hop (list SnapshotListEntry) :=
  match images with
  | [] => mret []
  | img :: images =>
      if negb (isBardImageName img) then snapshot_entries conn instance loc images
      else
        snaps ← listSnaps conn (loc +:+ "/" +:+ img);
        rest ← snapshot_entries conn instance loc images;
        mret (map (snap_entry instance loc img) (List.filter managed_snap snaps) ++ rest)
  end.
(** The loop over the instances, with a connection for each that has a pool. *)
Fixpoint list_pools {A} (entries : list string → string → string → list string → hop (list A))
    (l : list (string * ClusterConfig)) : hop (list A) :=
  match l with
  | [] => mret []
  | (instance, cc) :: l =>
      if bool_decide (cc_Pool cc = "") then list_pools entries l
      else
        here ← connected cfg cc instance ∅ (λ conn,
          images ← listImages conn (cc_Pool cc) (cc_RadosNamespace cc);
          entries conn instance (locator (cc_Pool cc) (cc_RadosNamespace cc)) images);
        rest ← list_pools entries l;
        mret (here ++ rest)
  end.
Definition ListVolumes (_ : ListVolumesRequest) : op ListVolumesResponse :=
  es ← on_host (list_pools volume_entries (range (clusters cfg)));
  mret (mkListVolumesResponse es).
Definition ListSnapshots (_ : ListSnapshotsRequest) : op ListSnapshotsResponse :=
  es ← on_host (list_pools snapshot_entries (range (clusters cfg)));
  mret (mkListSnapshotsResponse es).

(** ** Capacity and health *)
Definition pool_avail (pool : string) (df : df_report) : option Z :=
  (λ p : one "name" string * one "stats" (one "max_avail" Z), the (the p.2)) <$>
    List.find (λ p : one "name" string * one "stats" (one "max_avail" Z), bool_decide (the p.1 = pool)) (the df).
Definition GetCapacity (req : GetCapacityRequest) : op GetCapacityResponse :=
  cc ← lift (cluster cfg (GetCapacityRequest_Instance req));
  let pool := or_else (mget (GetCapacityRequest_Parameters req) paramPool) (cc_Pool cc) in
  guard_ (negb (bool_decide (pool = ""))) (errorf "ceph-rbd: no pool for capacity");;
  on_host (connected_by (cephCLIConn cfg cc (GetCapacityRequest_Instance req) ∅) (λ conn,
    out ← run_or "ceph-rbd: ceph df: %w" "ceph" (conn ++ ["df"; "--format"; "json"]);
    match unmarshal (A := df_report) out with
    | None => fail (errorf "ceph-rbd: parse ceph df: %w")
    | Some df => match pool_avail pool df with
                 | Some n => mret (mkGetCapacityResponse n)
                 | None => fail (errorf "ceph-rbd: pool %q not found in ceph df")
                 end
    end)).
Definition GetVolumeHealth (req : GetVolumeHealthRequest) : op GetVolumeHealthResponse :=
  let v := GetVolumeHealthRequest_Volume req in
  on_cluster (VolumeRef_Instance v) (GetVolumeHealthRequest_Secrets req) (λ _ conn, on_host (
    i ← imageInfo conn (spec_of v);
    mret (match i with
          | Some _ => mkGetVolumeHealthResponse false ("rbd image " +:+ spec_of v +:+ " is accessible")
          | None => mkGetVolumeHealthResponse true ("rbd image " +:+ spec_of v +:+ " no longer exists")
          end))).
End control.
End rbdcontrol.
