(* ===== verification/RBDNode.v ===== *)
(** * The Ceph RBD plugin: node plane (internal/cephplugin)

    Mapping an image to a block device and recording it, fencing stale writers, LUKS and
    fscrypt, mounting, growing, key rotation, and the healer of rbd-nbd maps.  Besides
    the host of [RBD] the node plane needs to wait ([Clock]) and the kernel's side of
    fscrypt. *)
From Stdlib Require Import Ascii.
From S2P Require Import Prelude GoStrings GoPath Json JsonText Protocol Sha256 Host GoOs KMS KMSRegistry RBD.

(** [time.Sleep], and whether the request's context has ended. *)
Class Clock (H : Type) := {
  Sleep : Z → H → H;
  ctx_done : H → bool;
}.

Module rbdnode.
Import bardplugin cephenc kms jsontext cephrbd.

(** ** The record of a staged device *)
Record deviceRecord := mkDeviceRecord {
  dr_Device : string; dr_UnmapOptions : string; dr_Instance : string; dr_Pool : string; dr_Image : string;
  dr_Mounter : string; dr_Cookie : string; dr_LogFile : string; dr_LogStrategy : string }.
Definition no_record : deviceRecord := mkDeviceRecord "" "" "" "" "" "" "" "" "".
Definition fields_deviceRecord (x : deviceRecord) : list (string * option json) :=
  [fld "device" (dr_Device x); fldo "unmapOptions" (dr_UnmapOptions x); fldo "instance" (dr_Instance x);
   fldo "pool" (dr_Pool x); fldo "image" (dr_Image x); fldo "mounter" (dr_Mounter x);
   fldo "cookie" (dr_Cookie x); fldo "logFile" (dr_LogFile x); fldo "logStrategy" (dr_LogStrategy x)].
Definition read_deviceRecord (o : list (string * json)) (x : deviceRecord) : deviceRecord * bool :=
  let '(a0, k0) := dec_field "device" o (dr_Device x) in
  let '(a1, k1) := dec_field "unmapOptions" o (dr_UnmapOptions x) in
  let '(a2, k2) := dec_field "instance" o (dr_Instance x) in
  let '(a3, k3) := dec_field "pool" o (dr_Pool x) in
  let '(a4, k4) := dec_field "image" o (dr_Image x) in
  let '(a5, k5) := dec_field "mounter" o (dr_Mounter x) in
  let '(a6, k6) := dec_field "cookie" o (dr_Cookie x) in
  let '(a7, k7) := dec_field "logFile" o (dr_LogFile x) in
  let '(a8, k8) := dec_field "logStrategy" o (dr_LogStrategy x) in
  (mkDeviceRecord a0 a1 a2 a3 a4 a5 a6 a7 a8, k0 && k1 && k2 && k3 && k4 && k5 && k6 && k7 && k8).
Definition record_ok (x : deviceRecord) : Prop :=
  Forall utf8_ok [dr_Device x; dr_UnmapOptions x; dr_Instance x; dr_Pool x; dr_Image x; dr_Mounter x;
    dr_Cookie x; dr_LogFile x; dr_LogStrategy x].
#[global] Instance wire_deviceRecord : Wire deviceRecord :=
  struct_wire no_record fields_deviceRecord read_deviceRecord record_ok.

(** ** Names *)
Definition nbdCookie (stagingPath : string) : string := sha256.short_hash ("bard-nbd:" +:+ stagingPath).
Definition nbdLogFile (dir : string) (vol : VolumeRef) : string :=
  if bool_decide (dir = "") then ""
  else Join [dir; "rbd-nbd-" +:+ replace_byte "/" "-" (VolumeRef_Location vol) +:+ "-" +:+ VolumeRef_Name vol +:+ ".log"].
Definition unmapBinary (mounter : string) : string := if bool_decide (mounter = mounterNBD) then "rbd-nbd" else "rbd".
Definition luksMapperName (stagingPath : string) : string := luksMapperPrefix +:+ sha256.short_hash stagingPath.
Definition mapper_path (mapper : string) : string := "/dev/mapper/" +:+ mapper.
Definition isEncrypted (ctx : strmap) : bool := bool_decide (mget ctx ParamEncrypted = "true").

(** [n, _ := strconv.ParseInt(s, 10, 64)]: clamped when it is out of range, 0 when it
    is no number. *)
Definition all_digits (s : string) : bool := negb (bool_decide (s = "")) && all_chars is_digit s.
Definition ParseInt_ (s : string) : Z :=
  match Atoi s with
  | Some n => n
  | None =>
      match s with
      | String a s' =>
          if bool_decide (a = "-"%char) && all_digits s' then int64_min
          else if (bool_decide (a = "+"%char) && all_digits s') || all_digits s then int64_max else 0
      | EmptyString => 0
      end
  end.

(** ** File systems *)
Definition supportedFsTypes : list string := ["ext2"; "ext3"; "ext4"; "xfs"; "btrfs"].
Definition mountFlagsForFs (fsType : string) (flags : list string) : list string :=
  if negb (bool_decide (fsType = "xfs")) then flags
  else if existsb (λ f, bool_decide (trim_space f = "nouuid")) flags then flags else flags ++ ["nouuid"].
Definition mkfsArgsForFs (fsType mkfsOptions : string) (fsCrypt : bool) : list string :=
  (if negb (bool_decide (trim_space mkfsOptions = "")) then fields mkfsOptions
   else if bool_decide (fsType = "ext4") || bool_decide (fsType = "ext3")
   then ["-m0"; "-Enodiscard,lazy_itable_init=1,lazy_journal_init=1"]
   else if bool_decide (fsType = "ext2") then ["-m0"; "-Enodiscard,lazy_itable_init=1"]
   else if bool_decide (fsType = "xfs") then ["-K"] else []) ++
  (if fsCrypt then ["-O"; "encrypt"] else []).

Section node.
  Context {H : Type} `{Host H} `{Files H} `{TempFiles H} `{Env H} `{Clock H} `{FsCrypt H} `{MapIter} (cfg : Config).
  Abbreviation op A := (M H perror A).
#[local] Instance khost : KHost H := rbd_khost cfg.

Definition deviceRecordPath (stagingPath : string) : string :=
  Join [stateDir cfg; sha256.hex (take 16 (sha256.Sum256 stagingPath))].
Definition recordDevice (stagingPath : string) (rec : deviceRecord) : op unit :=
  if bool_decide (stateDir cfg = "") then mret tt
  else
    mkdir_all "ceph-rbd: state dir: %w" (stateDir cfg) 488;;
    os_or "ceph-rbd: record device: %w" (os_unit (WriteFile (deviceRecordPath stagingPath) (Marshal rec) 384)).
Definition decode_record (data : string) : deviceRecord :=
  let legacy := mkDeviceRecord (trim_space data) "" "" "" "" "" "" "" "" in
  match unmarshal data with
  | Some rec => if bool_decide (dr_Device rec = "") then legacy else rec
  | None => legacy
  end.
Definition readDeviceRecord (stagingPath : string) : op deviceRecord :=
  if bool_decide (stateDir cfg = "") then mret no_record
  else
    catch (os_get (ReadFile (deviceRecordPath stagingPath))) (λ r,
      mret (match r with Ok data => decode_record data | Err _ => no_record end)).
Definition lookupDevice (stagingPath : string) : op string :=
  rec ← readDeviceRecord stagingPath; mret (dr_Device rec).
Definition clearDevice (stagingPath : string) : op unit :=
  if bool_decide (stateDir cfg = "") then mret tt else os_try (Remove (deviceRecordPath stagingPath)).

(** ** Block devices *)
Definition deviceMapped (dev : string) : op bool :=
  catch (run "blockdev" ["--getsize64"; dev]) (λ r,
    mret (match r with Ok out => bool_decide (0 < ParseInt_ (trim_space out))%Z | Err _ => false end)).
(** [waitForDevice]: the clock passes the deadline after at most 67 sleeps. *)
Definition deadline_ns : Z := 20000000000.
Definition poll_ns : Z := 300000000.
Definition wait_fuel : nat := 68.
Definition out_of_fuel : perror := errorf "wait_fuel".
Fixpoint wait_go (fuel : nat) (dev : string) (deadline : Z) : op unit :=
  match fuel with
  | O => fail out_of_fuel
  | S fuel =>
      out ← run_out "blockdev" ["--getsize64"; dev];
      if bool_decide (0 < ParseInt_ (trim_space out))%Z then mret tt
      else
        ended ← gets ctx_done;
        if ended : bool then fail (errorf "ceph-rbd: wait for device %s: %w")
        else
          t ← gets now;
          if bool_decide (deadline < t)%Z then fail (errorf "ceph-rbd: device %s not ready (size 0) after timeout")
          else modify (Sleep poll_ns);; wait_go fuel dev deadline
  end.
Definition waitForDevice (dev : string) : op unit :=
  t ← gets now; wait_go wait_fuel dev (t + deadline_ns)%Z.

Definition mapImage (mounter : string) (conn : list string) (spec mapOptions cookie logFile : string) (readOnly : bool) : M H string string :=
  let nbd := bool_decide (mounter = mounterNBD) in
  run (if nbd then "rbd-nbd" else "rbd")
    (conn ++ ["map"; spec] ++
     (if nbd then ["--try-netlink"; "--cookie"; cookie] ++ flag_arg "--log-file" logFile else []) ++
     (if readOnly then ["--read-only"] else []) ++ flag_arg "--options" mapOptions).
(** The device and the mounter that mapped it. *)
Definition mapWithFallback (cc : ClusterConfig) (conn : list string) (req : NodeStageRequest) (spec cookie : string) : op (string * string) :=
  let ctx := NodeStageRequest_Context req in
  let primary := or_else (cc_Mounter cc) mounterKRBD in
  let mapOpts := combineOptions [readAffinityOptions cc (NodeStageRequest_CrushLocation req);
                                 resolveMounterOptions (mget ctx paramMapOptions) primary] in
  let logFile := nbdLogFile (mget ctx paramCephLogDir) (NodeStageRequest_Volume req) in
  (if bool_decide (logFile = "") then mret tt else catch (mkdir_all "" (Dir logFile) 493) (λ _, mret tt));;
  catch (mapImage primary conn spec mapOpts cookie logFile (NodeStageRequest_Readonly req)) (λ r,
    match r with
    | Ok dev => mret (trim_space dev, primary)
    | Err _ =>
        if bool_decide (primary = mounterNBD) || negb (bool_decide (mget ctx paramTryOtherMounters = "true"))
        then fail (errorf "ceph-rbd: map %s: %w")
        else
          dev ← run_err (λ _, errorf "ceph-rbd: map %s: krbd failed (%v) and rbd-nbd fallback failed: %w")
            (mapImage mounterNBD conn spec (resolveMounterOptions (mget ctx paramMapOptions) mounterNBD) cookie logFile
               (NodeStageRequest_Readonly req));
          mret (trim_space dev, mounterNBD)
    end).

(** Stale writers are fenced at the OSDs before an exclusive volume is mapped. *)
Fixpoint blocklist_all (conn : list string) (watchers : list (one "address" string)) : op unit :=
  match watchers with
  | [] => mret tt
  | w :: watchers =>
      (if bool_decide (the w = "") then mret tt
       else run_or "ceph-rbd: blocklist stale watcher %s on %s: %w" "ceph" (conn ++ ["osd"; "blocklist"; "add"; the w]);; mret tt);;
      blocklist_all conn watchers
  end.
Definition fenceStaleWatchers (cc : ClusterConfig) (conn : list string) (instance spec : string) (secrets : strmap) : op unit :=
  out ← run_or "ceph-rbd: rbd status %s: %w" "rbd" (conn ++ ["status"; spec; "--format"; "json"]);
  match unmarshal (A := one "watchers" (list (one "address" string))) out with
  | None => fail (errorf "ceph-rbd: parse rbd status %s: %w")
  | Some st =>
      match the st with
      | [] => mret tt
      | watchers => connected_by (cephCLIConn cfg cc instance secrets) (λ cephConn, blocklist_all cephConn watchers)
      end
  end.

(** ** LUKS *)

(** A passphrase in a private file, removed whatever happens ([tempKeyFile], and the
    same steps inline). *)
Definition with_keyfile {A} (pass : string) (body : string → op A) : op A :=
  kf ← os_or "ceph-rbd: luks keyfile: %w" (SecretTemp "bard-luks-key-");
  catch (os_unit (WriteString kf pass)) (λ r,
    match r with
    | Err _ => os_try (Remove kf);; fail (errorf "ceph-rbd: luks keyfile: %w")
    | Ok _ => deferred (λ h, (Remove kf h).1) (body kf)
    end).
Definition luksActive (mapper : string) : op bool :=
  catch (run "cryptsetup" ["status"; mapper]) (λ r,
    mret (match r with Ok out => contains "is active" out | Err _ => false end)).
Definition isLuksDevice (dev : string) : op bool :=
  catch (run "cryptsetup" ["isLuks"; dev]) (λ r, mret (match r with Ok _ => true | Err _ => false end)).
Definition ensureLuksOpen (dev mapper passphrase : string) (allowDiscards : bool) (formatArgs : list string) : op unit :=
  with_keyfile passphrase (λ kf,
    luks ← isLuksDevice dev;
    (if luks : bool then mret tt
     else run_or "ceph-rbd: luksFormat %s: %w" "cryptsetup" (["-q"; "luksFormat"; dev; "--key-file"; kf] ++ formatArgs);; mret tt);;
    active ← luksActive mapper;
    if active : bool then mret tt
    else
      run_or "ceph-rbd: luks open %s -> %s: %w" "cryptsetup"
        (["open"; "--type"; "luks"; dev; mapper; "--key-file"; kf] ++ (if allowDiscards then ["--allow-discards"] else []));;
      mret tt).
Definition closeLuks (mapper : string) : op unit :=
  active ← luksActive mapper;
  if active : bool then run_or "ceph-rbd: luks close %s: %w" "cryptsetup" ["close"; mapper];; mret tt else mret tt.
Definition luksAddKey (dev oldPass newPass : string) : op unit :=
  with_keyfile oldPass (λ oldKf, with_keyfile newPass (λ newKf,
    run_or "ceph-rbd: luks add key on %s: %w" "cryptsetup" ["luksAddKey"; dev; newKf; "--key-file"; oldKf];; mret tt)).
Definition luksRemoveKey (dev pass : string) : op unit :=
  with_keyfile pass (λ kf,
    run_unless (λ e, errContains e ["no key available"]) "ceph-rbd: luks remove key on %s: %w" "cryptsetup"
      ["luksRemoveKey"; dev; kf]).
Fixpoint backing_line (lines : list string) : option string :=
  match lines with
  | [] => None
  | line :: lines =>
      match fields line with
      | f0 :: f1 :: _ => if bool_decide (f0 = "device:") then Some f1 else backing_line lines
      | _ => backing_line lines
      end
  end.
Definition luksBackingDevice (mapper : string) : op string :=
  out ← run_or "ceph-rbd: cryptsetup status %s: %w" "cryptsetup" ["status"; mapper];
  match backing_line (split_on newline out) with
  | Some dev => mret dev
  | None => fail (errorf "ceph-rbd: no backing device for dm-crypt %s")
  end.

(** ** Passphrases *)
Definition encryptionPassphraseFor (c : conn) (instance kmsID spec keyID : string) (secrets : strmap) : op string :=
  Passphrase print (registry cfg) c instance kmsID spec keyID secrets.
Definition encryptionPassphrase (instance kmsID spec : string) (secrets : strmap) : op string :=
  encryptionPassphraseFor None instance kmsID spec spec secrets.
Definition encryptionDescriptor (conn : list string) (spec : string) : op (string * string) :=
  kmsID ← imageMetaGetChecked conn spec imgMetaKMSID;
  keyID ← imageMetaGetChecked conn spec imgMetaKeyID;
  mret (kmsID, or_else keyID spec).
Definition volumePassphrase (conn : list string) (req : NodeStageRequest) : op string :=
  let v := NodeStageRequest_Volume req in
  let ctx := NodeStageRequest_Context req in
  encryptionPassphraseFor (Some conn) (VolumeRef_Instance v) (mget ctx ParamEncryptionKMSID) (spec_of v)
    (or_else (mget ctx CtxKeyID) (spec_of v)) (NodeStageRequest_Secrets req).
Definition stageDevice (conn : list string) (req : NodeStageRequest) (rawDev : string) : op string :=
  let ctx := NodeStageRequest_Context req in
  if negb (isEncrypted ctx) || IsFsCrypt ctx then mret rawDev
  else
    pass ← volumePassphrase conn req;
    let mapper := luksMapperName (NodeStageRequest_StagingPath req) in
    formatArgs ← lift (luksFormatArgs ctx);
    ensureLuksOpen rawDev mapper pass (bool_decide (mget ctx paramEncryptedDiscards = "true")) formatArgs;;
    mret (mapper_path mapper).
Definition resizeLuks (vol : VolumeRef) (mapper : string) : op unit :=
  cc ← lift (cluster cfg (VolumeRef_Instance vol));
  connected cfg cc (VolumeRef_Instance vol) ∅ (λ conn,
    d ← encryptionDescriptor conn (spec_of vol);
    pass ← encryptionPassphraseFor (Some conn) (VolumeRef_Instance vol) d.1 (spec_of vol) d.2 ∅;
    with_keyfile pass (λ kf,
      run_or "ceph-rbd: grow LUKS mapping %s: %w" "cryptsetup" ["resize"; mapper; "--key-file"; kf];; mret tt)).

(** ** Staging *)
Definition growFilesystem (fsType dev mountPoint : string) : op unit :=
  (if bool_decide (fsType = "xfs") then run_or "ceph-rbd: grow %s filesystem on %s: %w" "xfs_growfs" [mountPoint]
   else if bool_decide (fsType = "btrfs")
   then run_or "ceph-rbd: grow %s filesystem on %s: %w" "btrfs" ["filesystem"; "resize"; "max"; mountPoint]
   else run_or "ceph-rbd: grow %s filesystem on %s: %w" "resize2fs" [dev]);; mret tt.
Definition ensureFormatted (dev fsType : string) (mkfsArgs : list string) : op unit :=
  out ← run_out "blkid" ["-o"; "value"; "-s"; "TYPE"; dev];
  if negb (bool_decide (trim_space out = "")) then mret tt
  else run_or "ceph-rbd: mkfs.%s %s: %w" ("mkfs." +:+ fsType) (mkfsArgs ++ [dev]);; mret tt.
Definition mounted (path : string) : op bool :=
  out ← run_out "findmnt" ["-n"; "-o"; "SOURCE"; "--mountpoint"; path];
  mret (negb (bool_decide (trim_space out = ""))).

Definition stage_record (req : NodeStageRequest) (dev mounter : string) : deviceRecord :=
  let v := NodeStageRequest_Volume req in
  let ctx := NodeStageRequest_Context req in
  let lf := if bool_decide (mounter = mounterNBD) then nbdLogFile (mget ctx paramCephLogDir) v else "" in
  mkDeviceRecord dev (resolveMounterOptions (mget ctx paramUnmapOptions) mounter) (VolumeRef_Instance v)
    (VolumeRef_Location v) (VolumeRef_Name v) mounter (nbdCookie (NodeStageRequest_StagingPath req))
    lf (if bool_decide (lf = "") then "" else mget ctx paramCephLogStrategy).
(** A fresh map: fence, map, wait, record. *)
Definition stage_map (cc : ClusterConfig) (conn : list string) (req : NodeStageRequest) : op string :=
  let v := NodeStageRequest_Volume req in
  (if NodeStageRequest_Exclusive req
   then fenceStaleWatchers cc conn (VolumeRef_Instance v) (spec_of v) (NodeStageRequest_Secrets req) else mret tt);;
  m ← mapWithFallback cc conn req (spec_of v) (nbdCookie (NodeStageRequest_StagingPath req));
  waitForDevice m.1;;
  recordDevice (NodeStageRequest_StagingPath req) (stage_record req m.1 m.2);;
  mret m.1.
(** The recorded device, when it is still mapped. *)
Definition staged_device (req : NodeStageRequest) : op (option string) :=
  dev ← lookupDevice (NodeStageRequest_StagingPath req);
  if bool_decide (dev = "") then mret None
  else mapped ← deviceMapped dev; mret (if mapped : bool then Some dev else None).
Definition stage_filesystem (conn : list string) (req : NodeStageRequest) (mountDev : string) : op unit :=
  let ctx := NodeStageRequest_Context req in
  let path := NodeStageRequest_StagingPath req in
  let fsType := or_else (NodeStageRequest_FsType req) defaultFsType in
  guard_ (bool_decide (fsType ∈ supportedFsTypes))
    (Errorf CodeInvalidArg "ceph-rbd: unsupported fsType %q (supported: ext4, ext3, ext2, xfs, btrfs)");;
  guard_ (negb (IsFsCrypt ctx && negb (bool_decide (fsType = "ext4"))))
    (Errorf CodeInvalidArg "ceph-rbd: encryptionType=file (fscrypt) requires fsType ext4, got %q");;
  ensureFormatted mountDev fsType (mkfsArgsForFs fsType (mget ctx paramMkfsOptions) (IsFsCrypt ctx));;
  mkdir_all "ceph-rbd: mkdir staging: %w" path 488;;
  m ← mounted path;
  (if m : bool then mret tt
   else
     let flags := mountFlagsForFs fsType (NodeStageRequest_MountFlags req) in
     run_or "ceph-rbd: mount %s -> %s: %w" "mount"
       (["-t"; fsType] ++ (match flags with [] => [] | _ => ["-o"; join "," flags] end) ++ [mountDev; path]);; mret tt);;
  growFilesystem fsType mountDev path;;
  if IsFsCrypt ctx then
    pass ← volumePassphrase conn req;
    SetupFscrypt path pass
  else mret tt.
Definition NodeStage (req : NodeStageRequest) : op unit :=
  let v := NodeStageRequest_Volume req in
  cc ← lift (cluster cfg (VolumeRef_Instance v));
  connected cfg cc (VolumeRef_Instance v) (NodeStageRequest_Secrets req) (λ conn,
    staged ← staged_device req;
    dev ← match staged with Some dev => mret dev | None => stage_map cc conn req end;
    mountDev ← stageDevice conn req dev;
    if NodeStageRequest_Block req then
      guard_ (negb (IsFsCrypt (NodeStageRequest_Context req)))
        (Errorf CodeInvalidArg "ceph-rbd: encryptionType=file (fscrypt) is not supported for raw block volumes; use the default block (LUKS) encryption")
    else stage_filesystem conn req mountDev).

Definition disposeNbdLog (rec : deviceRecord) : op unit :=
  if bool_decide (dr_LogFile rec = "") || bool_decide (dr_LogStrategy rec = "preserve") then mret tt
  else if bool_decide (dr_LogStrategy rec = "compress") then run_out "gzip" ["-f"; dr_LogFile rec];; mret tt
  else run_out "rm" ["-f"; dr_LogFile rec];; mret tt.
(** The unmap's answer is not trusted: the device is probed. *)
Definition unmap_device (rec : deviceRecord) (dev : string) : op unit :=
  run_out (unmapBinary (dr_Mounter rec)) (["unmap"; dev] ++ flag_arg "--options" (dr_UnmapOptions rec));;
  mapped ← deviceMapped dev;
  guard_ (negb mapped) (errorf "ceph-rbd: device %s still mapped after unmap").
Definition NodeUnstage (req : NodeUnstageRequest) : op unit :=
  let path := NodeUnstageRequest_StagingPath req in
  lift (cluster cfg (VolumeRef_Instance (NodeUnstageRequest_Volume req)));;
  rec ← readDeviceRecord path;
  dev ← (if bool_decide (dr_Device rec = "")
         then out ← run_out "findmnt" ["-n"; "-o"; "SOURCE"; "--target"; path]; mret (trim_space out)
         else mret (dr_Device rec));
  run_unless isNotMounted "ceph-rbd: umount %s: %w" "umount" [path];;
  closeLuks (luksMapperName path);;
  (if bool_decide (dev = "") then mret tt else unmap_device rec dev);;
  disposeNbdLog rec;;
  clearDevice path.

(** ** Publishing *)
Definition publishBlock (req : NodePublishRequest) : op unit :=
  let target := NodePublishRequest_TargetPath req in
  dev ← lookupDevice (NodePublishRequest_StagingPath req);
  guard_ (negb (bool_decide (dev = ""))) (errorf "ceph-rbd: no mapped device recorded for staging %q");;
  let dev := if isEncrypted (NodePublishRequest_Context req)
             then mapper_path (luksMapperName (NodePublishRequest_StagingPath req)) else dev in
  mkdir_all "ceph-rbd: mkdir target dir: %w" (Dir target) 488;;
  os_or "ceph-rbd: create block target: %w" (os_unit (OpenCreate target 432));;
  run_or "ceph-rbd: bind device %s -> %s: %w" "mount" ["--bind"; dev; target];; mret tt.
Definition NodePublish (req : NodePublishRequest) : op unit :=
  let target := NodePublishRequest_TargetPath req in
  if NodePublishRequest_Block req then publishBlock req
  else
    mkdir_all "ceph-rbd: mkdir target: %w" target 488;;
    m ← mounted target;
    if m : bool then mret tt
    else
      let source := if IsFsCrypt (NodePublishRequest_Context req)
                    then FscryptDataDir (NodePublishRequest_StagingPath req) else NodePublishRequest_StagingPath req in
      run_or "ceph-rbd: bind mount %s -> %s: %w" "mount" ["--bind"; source; target];;
      if NodePublishRequest_Readonly req
      then run_or "ceph-rbd: remount ro %s: %w" "mount" ["-o"; "remount,ro,bind"; source; target];; mret tt
      else mret tt.
Definition NodeUnpublish (req : NodeUnpublishRequest) : op unit :=
  run_unless isNotMounted "ceph-rbd: umount %s: %w" "umount" [NodeUnpublishRequest_TargetPath req].

(** The source findmnt reports, without the [[subpath]] of a bind mount. *)
Definition bare_source (out : string) : string :=
  let dev := trim_space out in match cut_on "[" dev with Some (d, _) => d | None => dev end.
(** The mapper a device is, when it is one of the plugin's. *)
Definition luks_mapper (dev : string) : option string :=
  match cut_prefix "/dev/mapper/" dev with
  | Some name => if has_prefix luksMapperPrefix name then Some name else None
  | None => None
  end.
Definition NodeExpand (req : NodeExpandRequest) : op NodeExpandResponse :=
  let path := NodeExpandRequest_VolumePath req in
  src ← run_or "ceph-rbd: resolve device for %s: %w" "findmnt" ["-n"; "-o"; "SOURCE"; "--target"; path];
  let dev := bare_source src in
  match luks_mapper dev with
  | Some name => resizeLuks (NodeExpandRequest_Volume req) name
  | None => mret tt
  end;;
  fsType ← run_out "findmnt" ["-n"; "-o"; "FSTYPE"; "--target"; path];
  growFilesystem (trim_space fsType) dev path;;
  mret (mkNodeExpandResponse 0).
Definition NodeReclaimSpace (req : NodeReclaimSpaceRequest) : op ReclaimSpaceResponse :=
  let unknown := mkReclaimSpaceResponse (-1) (-1) in
  if NodeReclaimSpaceRequest_Block req then mret unknown
  else
    let path := or_else (NodeReclaimSpaceRequest_VolumePath req) (NodeReclaimSpaceRequest_StagingPath req) in
    guard_ (negb (bool_decide (path = ""))) (Errorf CodeInvalidArg "ceph-rbd: node reclaim space requires a volume path");;
    run_or "ceph-rbd: fstrim %s: %w" "fstrim" [path];;
    mret unknown.

(** ** Key rotation *)
Fixpoint find_record (vol : VolumeRef) (ents : list dirent) : op (option deviceRecord) :=
  match ents with
  | [] => mret None
  | e :: ents =>
      if de_dir e then find_record vol ents
      else
        data ← catch (os_get (ReadFile (Join [stateDir cfg; de_name e]))) (λ r, mret r);
        match data with
        | Err _ => find_record vol ents
        | Ok data =>
            match unmarshal data with
            | Some rec =>
                if bool_decide (dr_Instance rec = VolumeRef_Instance vol ∧ dr_Pool rec = VolumeRef_Location vol ∧
                                dr_Image rec = VolumeRef_Name vol)
                then mret (Some rec) else find_record vol ents
            | None => find_record vol ents
            end
        end
  end.
Definition findStagedDevice (vol : VolumeRef) : op (option deviceRecord) :=
  if bool_decide (stateDir cfg = "") then mret None
  else
    catch (os_get (ReadDir (stateDir cfg))) (λ r,
      match r with Ok ents => find_record vol ents | Err _ => mret None end).
Definition rotationBackingDevice (req : RotateEncryptionKeyRequest) : op string :=
  let path := RotateEncryptionKeyRequest_VolumePath req in
  if negb (bool_decide (path = "")) then
    src ← run_or "ceph-rbd: resolve device for %s: %w" "findmnt" ["-n"; "-o"; "SOURCE"; "--target"; path];
    match luks_mapper (bare_source src) with
    | None => fail (Errorf CodeInvalidArg "ceph-rbd: %s is not a LUKS-encrypted volume; key rotation applies to block (LUKS) encryption")
    | Some mapper => luksBackingDevice mapper
    end
  else
    rec ← findStagedDevice (RotateEncryptionKeyRequest_Volume req);
    let dev := match rec with Some rec => dr_Device rec | None => "" end in
    guard_ (negb (bool_decide (dev = "")))
      (Errorf CodeNotFound "ceph-rbd: volume %s is not staged on this node; key rotation is a node operation and needs the volume mounted");;
    luks ← isLuksDevice dev;
    guard_ luks
      (Errorf CodeInvalidArg "ceph-rbd: volume %s is not LUKS-encrypted; key rotation applies to block (LUKS) encryption");;
    mret dev.
Definition RotateEncryptionKey (req : RotateEncryptionKeyRequest) : op unit :=
  let v := RotateEncryptionKeyRequest_Volume req in
  let secrets := RotateEncryptionKeyRequest_Secrets req in
  backing ← rotationBackingDevice req;
  cc ← lift (cluster cfg (VolumeRef_Instance v));
  connected cfg cc (VolumeRef_Instance v) secrets (λ conn,
    d ← encryptionDescriptor conn (spec_of v);
    oldPass ← encryptionPassphraseFor (Some conn) (VolumeRef_Instance v) d.1 (spec_of v) d.2 secrets;
    RotateKey print (registry cfg) (Some conn) (VolumeRef_Instance v) d.1 (spec_of v) secrets
      (λ newPass, luksAddKey backing oldPass newPass);;
    luksRemoveKey backing oldPass).

(** ** The healer *)
Definition readRecordFile (path : string) : op deviceRecord :=
  catch (os_get (ReadFile path)) (λ r,
    mret (match r with Ok data => default no_record (unmarshal data) | Err _ => no_record end)).
Fixpoint nbd_records (ents : list dirent) : op (list (string * deviceRecord)) :=
  match ents with
  | [] => mret []
  | e :: ents =>
      if de_dir e then nbd_records ents
      else
        let path := Join [stateDir cfg; de_name e] in
        rec ← readRecordFile path;
        rest ← nbd_records ents;
        mret (if bool_decide (dr_Mounter rec = mounterNBD) && negb (bool_decide (dr_Device rec = "")) &&
                 negb (bool_decide (dr_Image rec = "")) then (path, rec) :: rest else rest)
  end.
Definition mappedNBDDevices : op (list string) :=
  out ← run_or "%w" "rbd-nbd" ["list-mapped"; "--format"; "json"];
  if bool_decide (trim_space out = "") then mret []
  else match unmarshal (A := list (one "device" string)) out with
       | None => fail (errorf "parse rbd-nbd list-mapped: %w")
       | Some maps => mret (filter (λ d, d ≠ "") (map the maps))
       end.
Definition reattachNBD (rec : deviceRecord) : op unit :=
  cc ← lift (cluster cfg (dr_Instance rec));
  connected cfg cc (dr_Instance rec) ∅ (λ conn,
    run_or "%w" "rbd-nbd" (conn ++ ["attach"; "--device"; dr_Device rec; "--cookie"; dr_Cookie rec; "--try-netlink";
      dr_Pool rec +:+ "/" +:+ dr_Image rec]);; mret tt).
Fixpoint heal_all (live : list string) (recs : list (string * deviceRecord)) : op unit :=
  match recs with
  | [] => mret tt
  | (path, rec) :: recs =>
      (if bool_decide (dr_Device rec ∈ live) then mret tt
       else
         held ← deviceMapped (dr_Device rec);
         if held : bool then catch (reattachNBD rec) (λ _, mret tt) else os_try (Remove path));;
      heal_all live recs
  end.
Definition Heal : op unit :=
  if bool_decide (stateDir cfg = "") then mret tt
  else
    catch (os_get (ReadDir (stateDir cfg))) (λ r,
      match r with
      | Err _ => mret tt
      | Ok ents =>
          recs ← nbd_records ents;
          match recs with
          | [] => mret tt
          | _ => catch mappedNBDDevices (λ live, match live with Ok live => heal_all live recs | Err _ => mret tt end)
          end
      end).
End node.
End rbdnode.
