(* ===== verification/RBDAddons.v ===== *)
(** * The Ceph RBD plugin: replication, volume groups and network fences
    (internal/cephplugin/replication.go, volumegroup.go, networkfence.go)

    [Network] is what the plugin asks of the network stack and the clock's zone: the
    local address toward a monitor, and the time a timestamp of rbd names. *)
From Stdlib Require Import Ascii.
From S2P Require Import Prelude GoStrings GoPath Json JsonText Protocol Sha256 Host GoOs KMS KMSRegistry RBD RBDControl RBDNode.

(** The IP of [net.Dial("udp", addr)].LocalAddr(), as text. *)
Inductive ip_addr := IPv4 (s : string) | IPv6 (s : string).
Class Network (H : Type) := {
  DialUDP : string → H → H * res string ip_addr;
  ParseInLocation : string → string → H → option Z;    (* layout, value: Unix seconds *)
}.

Module rbdaddons.
Import bardplugin cephenc kms jsontext cephrbd rbdcontrol rbdnode.

(** ** Classifiers and names *)
Definition paramSchedulingInterval : string := "schedulingInterval".
Definition paramFlattenMode : string := "flattenMode".
Definition isAlreadyMirrored (e : string) : bool := errContains e ["already"; "enabled"].
Definition isParentNotMirrored (e : string) : bool := errContains e ["parent"; "mirror"].
Definition isNotMirrored (e : string) : bool := errContains e ["not"; "mirror"].
Definition isAlreadyPrimary (e : string) : bool := errContains e ["primary"].
Definition isAlreadySecondary (e : string) : bool := errContains e ["non-primary"] || errContains e ["secondary"].
Definition splitImageSpec (vol : VolumeRef) : string * string * string :=
  match cut_on "/" (VolumeRef_Location vol) with
  | Some (pool, namespace) => (pool, namespace, VolumeRef_Name vol)
  | None => (VolumeRef_Location vol, "", VolumeRef_Name vol)
  end.
Definition snapTimeLayout : string := "Mon Jan _2 15:04:05 2006".
Definition groupNamePrefix : string := "csi-group-".
Definition paramVolumeGroupNamePrefix : string := "volumeGroupNamePrefix".

(** [normalizeCIDR]: ["cidr:192.0.2.0:0/24"] as ["192.0.2.0/24"], empty when it has
    another shape. *)
Definition normalizeCIDR (entry : string) : string :=
  match cut_last "/" (after_prefix "cidr:" entry) with
  | None => ""
  | Some (addr, prefix) =>
      let addr := match cut_last ":" addr with Some (a, _) => a | None => addr end in
      if bool_decide (addr = "") || bool_decide (prefix = "") then "" else addr +:+ "/" +:+ prefix
  end.
Fixpoint blocklisted_ranges (lines : list string) : list string :=
  match lines with
  | [] => []
  | line :: lines =>
      let rest := blocklisted_ranges lines in
      match fields line with
      | f :: _ =>
          if has_prefix "cidr:" f
          then let c := normalizeCIDR f in if bool_decide (c = "") then rest else c :: rest
          else rest
      | [] => rest
      end
  end.

Section addons.
  Context {H : Type} `{Host H} `{Files H} `{TempFiles H} `{Env H} `{Clock H} `{FsCrypt H} `{Network H} `{MapIter} (cfg : Config).
  Abbreviation hop A := (M H perror A).
  Abbreviation op A := (M (Backend_ H) perror A).

(** ** Replication *)

(** [replConn], and the deferred cleanup. *)
Definition replConn {A} (vol : VolumeRef) (secrets : strmap) (body : list string → string → op A) : op A :=
  on_cluster cfg (VolumeRef_Instance vol) secrets (λ _ conn, body conn (spec_of vol)).
Definition schedule_args (verb : string) (vol : VolumeRef) (interval : list string) : list string :=
  let '(pool, ns, image) := splitImageSpec vol in
  ["mirror"; "snapshot"; "schedule"; verb; "--pool"; pool; "--image"; image] ++ interval ++
  (if bool_decide (ns = "") then [] else ["--namespace"; ns]).
Definition add_schedule (conn : list string) (vol : VolumeRef) (interval : string) : hop unit :=
  if bool_decide (interval = "") then mret tt
  else run_unless isAlreadyExists "ceph-rbd: mirror snapshot schedule add %s: %w" "rbd" (conn ++ schedule_args "add" vol [interval]).
Definition EnableVolumeReplication (req : EnableReplicationRequest) : op unit :=
  let vol := EnableReplicationRequest_Volume req in
  let params := EnableReplicationRequest_Parameters req in
  let secrets := EnableReplicationRequest_Secrets req in
  replConn vol secrets (λ conn spec,
    catch (on_host (run "rbd" (conn ++ ["mirror"; "image"; "enable"; spec; "snapshot"]))) (λ r,
      match r with
      | Ok _ => mret tt
      | Err e =>
          if isAlreadyMirrored e then mret tt
          else if isParentNotMirrored e && negb (bool_decide (mget params paramFlattenMode = "never")) then
            flattenForMirror cfg (VolumeRef_Instance vol) secrets spec;;
            fail (errorf "ceph-rbd: %s is a clone whose parent is not mirrored; flattening it in the background, mirroring will enable on a retry: %w")
          else fail (errorf "ceph-rbd: mirror image enable %s: %w")
      end);;
    on_host (add_schedule conn vol (mget params paramSchedulingInterval))).
Definition DisableVolumeReplication (req : DisableReplicationRequest) : op unit :=
  let vol := DisableReplicationRequest_Volume req in
  replConn vol (DisableReplicationRequest_Secrets req) (λ conn spec, on_host (
    run_out "rbd" (conn ++ schedule_args "remove" vol []);;
    run_unless isNotMirrored "ceph-rbd: mirror image disable %s: %w" "rbd"
      (conn ++ ["mirror"; "image"; "disable"; spec; "--force"]))).
Definition PromoteVolume (req : PromoteVolumeRequest) : op unit :=
  replConn (PromoteVolumeRequest_Volume req) (PromoteVolumeRequest_Secrets req) (λ conn spec, on_host (
    run_unless isAlreadyPrimary "ceph-rbd: mirror image promote %s: %w" "rbd"
      (conn ++ ["mirror"; "image"; "promote"; spec] ++ (if PromoteVolumeRequest_Force req then ["--force"] else [])))).
Definition DemoteVolume (req : DemoteVolumeRequest) : op unit :=
  replConn (DemoteVolumeRequest_Volume req) (DemoteVolumeRequest_Secrets req) (λ conn spec, on_host (
    run_unless isAlreadySecondary "ceph-rbd: mirror image demote %s: %w" "rbd"
      (conn ++ ["mirror"; "image"; "demote"; spec]))).
(** [st, _ := b.mirrorStatus(...)]: the state, even of a document with an error after it. *)
Definition mirrorStatus (conn : list string) (spec : string) : hop string := λ h,
  let '(h', o) := Run "rbd" (conn ++ ["mirror"; "image"; "status"; spec; "--format"; "json"]) h in
  (h', Ok (match o_err o with
           | Some _ => ""
           | None => the (Unmarshal (A := one "state" string) (o_out o)).1
           end)).
Definition ResyncVolume (req : ResyncVolumeRequest) : op ResyncVolumeResponse :=
  replConn (ResyncVolumeRequest_Volume req) (ResyncVolumeRequest_Secrets req) (λ conn spec, on_host (
    run_or "ceph-rbd: mirror image resync %s: %w" "rbd" (conn ++ ["mirror"; "image"; "resync"; spec]);;
    st ← mirrorStatus conn spec;
    mret (mkResyncVolumeResponse (contains "up" st && contains "replaying" st)))).

Abbreviation mirror_snap := (one "timestamp" string * one "namespace" (one "type" string * one "complete" bool))%type.
(** The time of a complete mirror snapshot, [None] for any other. *)
Definition sync_time (h : H) (s : mirror_snap) : option Z :=
  let ns := the s.2 in
  if bool_decide (the ns.1 = "mirror") && the ns.2
  then ParseInLocation snapTimeLayout (trim_space (the s.1)) h else None.
Definition latest_sync (h : H) (snaps : list mirror_snap) : Z :=
  foldl (λ latest s, match sync_time h s with Some t => if bool_decide (latest < t)%Z then t else latest | None => latest end)
    0%Z snaps.
Definition lastMirrorSnapshotUnix (conn : list string) (spec : string) : hop Z :=
  catch (run "rbd" (conn ++ ["snap"; "ls"; spec; "--all"; "--format"; "json"])) (λ r,
    match r with
    | Err _ => mret 0%Z
    | Ok out => match unmarshal (A := list mirror_snap) out with
                | Some snaps => gets (λ h, latest_sync h snaps)
                | None => mret 0%Z
                end
    end).
Definition GetVolumeReplicationInfo (req : ReplicationInfoRequest) : op ReplicationInfoResponse :=
  replConn (ReplicationInfoRequest_Volume req) (ReplicationInfoRequest_Secrets req) (λ conn spec, on_host (
    t ← lastMirrorSnapshotUnix conn spec; mret (mkReplicationInfoResponse t))).

(** ** Volume groups *)
Definition groupImageAdd (conn : list string) (groupSpec : string) (m : VolumeRef) : hop unit :=
  run_unless isAlreadyExists "ceph-rbd: rbd group image add %s %s: %w" "rbd"
    (conn ++ ["group"; "image"; "add"; groupSpec; spec_of m]).
Definition groupImageRemove (conn : list string) (groupSpec : string) (m : VolumeRef) : hop unit :=
  run_unless isNotFound "ceph-rbd: rbd group image rm %s %s: %w" "rbd"
    (conn ++ ["group"; "image"; "rm"; groupSpec; spec_of m]).
Definition group_member (instance : string) (f : image_fields "namespace") : VolumeRef :=
  mkVolumeRef instance (locator (the f.1.1) (the f.1.2)) (the f.2).
Definition groupImageList (conn : list string) (instance groupSpec : string) : hop (list VolumeRef) :=
  out ← run_or "ceph-rbd: rbd group image list %s: %w" "rbd" (conn ++ ["group"; "image"; "list"; groupSpec; "--format"; "json"]);
  match unmarshal (A := list (image_fields "namespace")) out with
  | Some raw => mret (map (group_member instance) raw)
  | None => fail (errorf "ceph-rbd: parse group image list: %w")
  end.
Fixpoint each_member (f : VolumeRef → hop unit) (l : list VolumeRef) : hop unit :=
  match l with [] => mret tt | m :: l => f m;; each_member f l end.

Definition CreateVolumeGroup (req : CreateVolumeGroupRequest) : op VolumeGroupResponse :=
  let instance := CreateVolumeGroupRequest_Instance req in
  cc ← lift (cluster cfg instance);
  let pool := or_else (CreateVolumeGroupRequest_Pool req) (cc_Pool cc) in
  guard_ (negb (bool_decide (pool = ""))) (Errorf CodeInvalidArg "ceph-rbd: no pool for volume group");;
  on_host (connected cfg cc instance (CreateVolumeGroupRequest_Secrets req) (λ conn,
    prefix ← lift (namePrefix paramVolumeGroupNamePrefix
      (mget (CreateVolumeGroupRequest_Parameters req) paramVolumeGroupNamePrefix) groupNamePrefix);
    let group := shortName prefix (CreateVolumeGroupRequest_Name req) in
    let groupSpec := pool +:+ "/" +:+ group in
    run_unless isAlreadyExists "ceph-rbd: rbd group create %s: %w" "rbd" (conn ++ ["group"; "create"; groupSpec]);;
    each_member (groupImageAdd conn groupSpec) (CreateVolumeGroupRequest_Volumes req);;
    members ← groupImageList conn instance groupSpec;
    mret (mkVolumeGroupResponse (mkVolumeRef instance pool group) members))).

(** [want]: the requested members by their spec, a later one over an earlier. *)
Definition wanted (l : list VolumeRef) : gmap string VolumeRef :=
  foldl (λ m v, <[spec_of v := v]> m) ∅ l.
Definition missing (current : list VolumeRef) (want : gmap string VolumeRef) : list VolumeRef :=
  (List.filter (λ p, negb (bool_decide (p.1 ∈ map spec_of current))) (range want)).*2.
Definition unwanted (current : list VolumeRef) (want : gmap string VolumeRef) : list VolumeRef :=
  List.filter (λ m, negb (bool_decide (is_Some (want !! spec_of m)))) current.
Definition on_group {A} (group : VolumeRef) (secrets : strmap) (body : list string → string → hop A) : op A :=
  on_cluster cfg (VolumeRef_Instance group) secrets (λ _ conn, on_host (body conn (spec_of group))).
Definition ModifyVolumeGroup (req : ModifyVolumeGroupRequest) : op VolumeGroupResponse :=
  let group := ModifyVolumeGroupRequest_Group req in
  on_group group (ModifyVolumeGroupRequest_Secrets req) (λ conn groupSpec,
    current ← groupImageList conn (VolumeRef_Instance group) groupSpec;
    let want := wanted (ModifyVolumeGroupRequest_Volumes req) in
    each_member (groupImageAdd conn groupSpec) (missing current want);;
    each_member (groupImageRemove conn groupSpec) (unwanted current want);;
    members ← groupImageList conn (VolumeRef_Instance group) groupSpec;
    mret (mkVolumeGroupResponse group members)).
Definition DeleteVolumeGroup (req : DeleteVolumeGroupRequest) : op unit :=
  on_group (DeleteVolumeGroupRequest_Group req) (DeleteVolumeGroupRequest_Secrets req) (λ conn groupSpec,
    run_unless isNotFound "ceph-rbd: rbd group remove %s: %w" "rbd" (conn ++ ["group"; "remove"; groupSpec])).
Definition GetVolumeGroup (req : GetVolumeGroupRequest) : op VolumeGroupResponse :=
  let group := GetVolumeGroupRequest_Group req in
  on_group group (GetVolumeGroupRequest_Secrets req) (λ conn groupSpec,
    members ← groupImageList conn (VolumeRef_Instance group) groupSpec;
    mret (mkVolumeGroupResponse group members)).
Fixpoint group_entries (conn : list string) (instance pool : string) (names : list string) : hop (list VolumeGroupResponse) :=
  match names with
  | [] => mret []
  | name :: names =>
      if negb (isBardImageName name) then group_entries conn instance pool names
      else
        members ← groupImageList conn instance (pool +:+ "/" +:+ name);
        rest ← group_entries conn instance pool names;
        mret (mkVolumeGroupResponse (mkVolumeRef instance pool name) members :: rest)
  end.
Fixpoint list_groups (secrets : strmap) (l : list (string * ClusterConfig)) : hop (list VolumeGroupResponse) :=
  match l with
  | [] => mret []
  | (instance, cc) :: l =>
      here ← connected cfg cc instance secrets (λ conn,
        out ← run_or "ceph-rbd: rbd group list %s: %w" "rbd" (conn ++ ["group"; "list"; cc_Pool cc; "--format"; "json"]);
        group_entries conn instance (cc_Pool cc) (Unmarshal (A := list string) out).1);
      rest ← list_groups secrets l;
      mret (here ++ rest)
  end.
Definition ListVolumeGroups (req : ListVolumeGroupsRequest) : op ListVolumeGroupsResponse :=
  gs ← on_host (list_groups (ListVolumeGroupsRequest_Secrets req) (range (clusters cfg)));
  mret (mkListVolumeGroupsResponse gs).

(** ** Network fences *)
Fixpoint range_all (conn : list string) (verb : string) (cidrs : list string) : hop unit :=
  match cidrs with
  | [] => mret tt
  | cidr :: cidrs =>
      let cidr := trim_space cidr in
      (if bool_decide (cidr = "") then mret tt
       else run_or "ceph-rbd: osd blocklist range %s %s: %w" "ceph" (conn ++ ["osd"; "blocklist"; "range"; verb; cidr]);; mret tt);;
      range_all conn verb cidrs
  end.
Definition blocklistRange (verb instance : string) (cidrs : list string) (secrets : strmap) : op unit :=
  match cidrs with
  | [] => mret tt
  | _ =>
      cc ← lift (cluster cfg instance);
      on_host (connected_by (cephFenceConn cfg cc instance secrets) (λ conn, range_all conn verb cidrs))
  end.
Definition FenceClusterNetwork (req : FenceClusterNetworkRequest) : op unit :=
  blocklistRange "add" (FenceClusterNetworkRequest_Instance req) (FenceClusterNetworkRequest_CIDRs req)
    (FenceClusterNetworkRequest_Secrets req).
Definition UnfenceClusterNetwork (req : UnfenceClusterNetworkRequest) : op unit :=
  blocklistRange "rm" (UnfenceClusterNetworkRequest_Instance req) (UnfenceClusterNetworkRequest_CIDRs req)
    (UnfenceClusterNetworkRequest_Secrets req).
Definition ListClusterFence (req : ListClusterFenceRequest) : op ListClusterFenceResponse :=
  cc ← lift (cluster cfg (ListClusterFenceRequest_Instance req));
  on_host (connected_by (cephFenceConn cfg cc (ListClusterFenceRequest_Instance req) (ListClusterFenceRequest_Secrets req)) (λ conn,
    out ← run_or "ceph-rbd: osd blocklist ls: %w" "ceph" (conn ++ ["osd"; "blocklist"; "ls"]);
    mret (mkListClusterFenceResponse (blocklisted_ranges (split_on newline out))))).
Definition clientAddrCIDR (monitors : list string) : hop string :=
  match monitors with
  | [] => fail (errorf "ceph-rbd: no monitors configured to derive client address")
  | m :: _ =>
      let '(h, p) := match SplitHostPort m with Some hp => hp | None => (m, "3300") end in
      ip ← run_err (λ _, errorf "ceph-rbd: derive client address toward mon %q: %w") (DialUDP (JoinHostPort h p));
      mret (match ip with IPv4 s => s +:+ "/32" | IPv6 s => s +:+ "/128" end)
  end.
Definition GetFenceClients (req : GetFenceClientsRequest) : op GetFenceClientsResponse :=
  cc ← lift (cluster cfg (GetFenceClientsRequest_Instance req));
  on_host (connected_by (cephFenceConn cfg cc (GetFenceClientsRequest_Instance req) (GetFenceClientsRequest_Secrets req)) (λ conn,
    out ← run_or "ceph-rbd: ceph fsid: %w" "ceph" (conn ++ ["fsid"]);
    cidr ← clientAddrCIDR (cc_Monitors cc);
    mret (mkGetFenceClientsResponse [mkFenceClient (trim_space out) [cidr]]))).

(** The plugin, as [bardplugin.Serve] sees it. *)
Definition Serve_ : Backend (Backend_ H) :=
  mkBackend rbdcontrol.Info_ (CreateVolume cfg) (DeleteVolume cfg) (ExpandVolume cfg) (CreateSnapshot cfg) (DeleteSnapshot cfg)
    (λ r, on_host (NodeStage cfg r)) (λ r, on_host (NodeUnstage cfg r)) (λ r, on_host (NodePublish cfg r))
    (λ r, on_host (NodeUnpublish r)) (λ r, on_host (NodeExpand cfg r))
    (Some (mkCapacityReporter (GetCapacity cfg))) (Some (mkHealthReporter (GetVolumeHealth cfg)))
    (Some (mkVolumeModifier (ModifyVolume cfg))) None (Some (mkVolumeLister (ListVolumes cfg)))
    (Some (mkSnapshotLister (ListSnapshots cfg))) (Some (mkSpaceReclaimer (ReclaimSpace cfg)))
    (Some (mkNodeSpaceReclaimer (λ r, on_host (NodeReclaimSpace r))))
    (Some (mkNetworkFencer FenceClusterNetwork UnfenceClusterNetwork ListClusterFence GetFenceClients))
    (Some (mkVolumeReplicator EnableVolumeReplication DisableVolumeReplication PromoteVolume DemoteVolume ResyncVolume
      GetVolumeReplicationInfo))
    (Some (mkVolumeGrouper CreateVolumeGroup ModifyVolumeGroup DeleteVolumeGroup GetVolumeGroup ListVolumeGroups))
    (Some (mkEncryptionKeyRotator (λ r, on_host (RotateEncryptionKey cfg r)))).
End addons.
End rbdaddons.
