(* ===== verification/RBDBench.v ===== *)
(** * A host to run the Ceph RBD plugin on

    A concrete host for examples: a script answers the commands, files are a map, the
    clock moves when the plugin sleeps, and neither network nor key services are
    there.  With it, what the plugin makes of the tools' error messages. *)
From Stdlib Require Import Ascii.
From S2P Require Import Prelude GoStrings GoPath Json JsonText Protocol Sha256 Host GoOs KMS KMSRegistry RBD RBDControl RBDNode RBDAddons.

Module rbdbench.
Import bardplugin cephenc kms jsontext cephrbd rbdcontrol rbdnode rbdaddons.

Record bench := mkBench { b_script : string → list string → output; b_files : strmap; b_clock : Z }.
Definition with_files (f : strmap → strmap) (b : bench) : bench := mkBench (b_script b) (f (b_files b)) (b_clock b).
Definition missing : os_error := mkOsError true "no such file".
#[global] Instance bench_host : Host bench := {|
  Run n a b := (b, b_script b n a); MkdirAll _ _ b := (b, None); UnixNow b := (b_clock b / 1000000000)%Z |}.
#[global] Instance bench_files : Files bench := {|
  MkdirTemp _ p b := (b, Ok p);
  Remove p b := (with_files (delete p) b, None);
  RemoveAll p b := (with_files (delete p) b, None);
  Rename p q b := (with_files (λ f, match f !! p with Some d => <[q := d]> (delete p f) | None => f end) b, None);
  ReadFile p b := (b, match b_files b !! p with Some d => Ok d | None => Err missing end);
  WriteFile p d _ b := (with_files <[p := d]> b, None);
  Stat p b := (b, match b_files b !! p with Some d => Ok 420%Z | None => Err missing end);
  ReadDir _ b := (b, Ok []); Chmod _ _ b := (b, None); Statfs _ b := (b, Err missing) |}.
#[global] Instance bench_temps : TempFiles bench := {|
  IsDir _ b := (b, true);
  CreateTemp d p b := (with_files <[d +:+ "/" +:+ p := ""]> b, Ok (d +:+ "/" +:+ p));
  WriteString p d b := (with_files (alter (λ x, x +:+ d) p) b, None);
  OpenCreate p _ b := (with_files <[p := ""]> b, None) |}.
Definition no_answer : string := "connection refused".
#[global] Instance bench_env : Env bench := {|
  readFile p b := (b, match b_files b !! p with Some d => Ok d | None => Err "no such file" end);
  getenv _ _ := ""; randRead n b := (b, Err no_answer); now := b_clock; httpDo _ b := (b, Err no_answer);
  kmipExchange _ _ b := (b, KDialFailed); pem_certs _ := true; key_pair _ _ b := (b, Ok tt);
  get_token _ _ := ("", 0%Z); put_token _ _ b := b; get_creds _ _ := (mkCreds "" "" "", 0%Z); put_creds _ _ b := b |}.
#[global] Instance bench_clock : Clock bench := {|
  Sleep d b := mkBench (b_script b) (b_files b) (b_clock b + d)%Z; ctx_done _ := false |}.
#[global] Instance bench_fscrypt : FsCrypt bench := {|
  add_encryption_key _ k b := (b, Ok k); mkdir _ _ b := (b, None); set_encryption_policy _ _ b := (b, Ok tt) |}.
#[global] Instance bench_network : Network bench := {| DialUDP _ b := (b, Err no_answer); ParseInLocation _ _ _ := None |}.

(** A script from answers, by the command and the arguments its command line ends with;
    everything else succeeds and says nothing. *)
Definition ends_with (suffix l : list string) : bool := bool_decide (drop (length l - length suffix) l = suffix).
Definition script (answers : list (string * list string * output)) (n : string) (a : list string) : output :=
  match List.find (λ x, bool_decide (x.1.1 = n) && ends_with x.1.2 a) answers with
  | Some x => x.2
  | None => mkOutput "" None
  end.
Definition says (s : string) : output := mkOutput s None.
Definition fails (e : string) : output := mkOutput "" (Some e).

Definition ex_cluster : ClusterConfig := mkClusterConfig ["10.0.0.1"] "rbd" "" "" "" false "".
Definition ex_config : Config := New {["c1" := ex_cluster]} "" "/state".
Definition ex_volume : VolumeRef := mkVolumeRef "c1" "rbd" "csi-vol-1".
Definition on_bench (answers : list (string * list string * output)) : Backend_ bench :=
  mkState (mkBench (script answers) ∅ 0) ∅ ∅ ∅ [].

(** ** Error messages

    An error's text starts with the command line, so a word of the command line counts
    as one of the message. *)
Definition ex_spec : string := spec_of ex_volume.
Definition ex_conn : list string := ["-c"; "/dev/null"; "-m"; "10.0.0.1"; "--id"; "admin"].
Definition failing (args : list string) (stderr : string) : string * list string * output :=
  ("rbd", args, fails (exec_error "rbd" (ex_conn ++ args) "exit status 1" stderr)).
(** Mirroring is not disabled, for want of permission, and the call succeeds: "mirror" is
    in the command line and "not" in the reason. *)
Example disable_not_permitted :
  (DisableVolumeReplication ex_config (mkDisableReplicationRequest ex_volume ∅ ∅)
    (on_bench [failing ["mirror"; "image"; "disable"; ex_spec; "--force"] "rbd: error: (1) Operation not permitted"])).2 = Ok tt.
Proof. vm_compute. reflexivity. Qed.
(** A promotion that is refused because the peer is still primary succeeds. *)
Example promote_refused :
  (PromoteVolume ex_config (mkPromoteVolumeRequest ex_volume false ∅ ∅)
    (on_bench [failing ["mirror"; "image"; "promote"; ex_spec]
      "librbd: image is primary within a remote cluster or demotion is not propagated yet"])).2 = Ok tt.
Proof. vm_compute. reflexivity. Qed.
(** Creating an image fails for want of space, and the call succeeds: "exists" is in the
    name prefix the StorageClass chose. *)
Example create_out_of_space :
  let name := shortName "exists-" "pvc-1" in
  is_Ok (CreateVolume ex_config
    (mkCreateVolumeRequest "pvc-1" 1048576 "c1" "" {["volumeNamePrefix" := "exists-"]} ∅ ∅ None None)
    (on_bench [failing ["info"; "rbd/" +:+ name; "--format"; "json"] "(2) No such file or directory";
               failing ["create"; "rbd/" +:+ name; "--size"; "1"] "(28) No space left on device"])).2 = true.
Proof. vm_compute. reflexivity. Qed.
(** With the default prefix it fails. *)
Example create_out_of_space_fails :
  let name := shortName volNamePrefix "pvc-1" in
  is_Ok (CreateVolume ex_config (mkCreateVolumeRequest "pvc-1" 1048576 "c1" "" ∅ ∅ ∅ None None)
    (on_bench [failing ["info"; "rbd/" +:+ name; "--format"; "json"] "(2) No such file or directory";
               failing ["create"; "rbd/" +:+ name; "--size"; "1"] "(28) No space left on device"])).2 = false.
Proof. vm_compute. reflexivity. Qed.

(** ** Snapshot names

    A snapshot that could not be made keeps its name for its source: the name is refused
    to another volume although no snapshot has it. *)
Definition ex_snapshot (name : string) (src : VolumeRef) : CreateSnapshotRequest := mkCreateSnapshotRequest name src ∅ ∅.
Example failed_snapshot_keeps_name :
  let snap := ex_spec +:+ "@" +:+ shortName snapNamePrefix "s1" in
  let failed := CreateSnapshot ex_config (ex_snapshot "s1" ex_volume)
    (on_bench [failing ["snap"; "create"; snap] "(2) No such file or directory"]) in
  is_Ok failed.2 = false ∧
  (CreateSnapshot ex_config (ex_snapshot "s1" (mkVolumeRef "c1" "rbd" "csi-vol-2")) failed.1).2 =
    Err (Errorf CodeAlreadyExists "snapshot %q already exists for a different source volume").
Proof. vm_compute. done. Qed.
End rbdbench.
