(* ===== verification/RBDTrace.v ===== *)
(** * The Ceph RBD plugin leaves no secret behind (internal/cephplugin)

    Every connection to the cluster and every LUKS operation passes a key in a temporary
    file.  The host is run with its effects recorded ([event]); whatever is asked of the
    plugin, through its server, and whatever the host answers, every temporary file it
    makes is removed before the answer is sent. *)
From Stdlib Require Import Ascii.
From S2P Require Import Prelude GoStrings GoPath Json JsonText Protocol Server Sha256 Host GoOs KMS KMSRegistry KMSSteps RBD RBDControl RBDNode RBDAddons.

Module rbdtrace.
Import bardplugin server cephenc kms kmssteps jsontext cephrbd rbdcontrol rbdnode rbdaddons.

(** ** Recorded effects *)
Inductive event :=
  | ECommand (name : string) (args : list string) (o : output)
  | ECreateTemp (path : string)
  | ERemove (path : string)
  | EWriteFile (path data : string)
  | EHttp (rq : request)
  | EKmip (rq : kmip_request)
  | EOther.
#[global] Instance event_recorder : Recorder event := {| rec_run := ECommand; rec_mkdir _ := [] |}.

Section recorded.
  Context {H : Type} `{Host H} `{Files H} `{TempFiles H} `{Env H} `{Clock H} `{FsCrypt H} `{Network H}.
  Abbreviation HL := (H * list event)%type.

#[global] Instance rec_files : Files HL := {|
  MkdirTemp d p := noted (MkdirTemp d p) (λ _, EOther);
  Remove p := noted (Remove p) (λ _, ERemove p);
  RemoveAll p := noted (RemoveAll p) (λ _, EOther);
  Rename p q := noted (Rename p q) (λ _, EOther);
  ReadFile p := silent (ReadFile p);
  WriteFile p d m := noted (WriteFile p d m) (λ _, EWriteFile p d);
  Stat p := silent (Stat p);
  ReadDir p := silent (ReadDir p);
  Chmod p m := noted (Chmod p m) (λ _, EOther);
  Statfs p := silent (Statfs p);
|}.
(** A temporary file is an event when it could be made. *)
Definition temp_made (dir pat : string) (h : HL) : HL * res os_error string :=
  let '(h', r) := CreateTemp dir pat h.1 in
  ((h', h.2 ++ match r with Ok f => [ECreateTemp f] | Err _ => [] end), r).
#[global] Instance rec_temps : TempFiles HL := {|
  IsDir p := silent (IsDir p);
  CreateTemp := temp_made;
  WriteString f d := silent (WriteString f d);
  OpenCreate p m := silent (OpenCreate p m);
|}.
#[global] Instance rec_env : Env HL := {|
  readFile p := silent (readFile p);
  getenv k h := getenv k h.1;
  randRead n := silent (randRead n);
  now h := now h.1;
  httpDo rq := noted (httpDo rq) (λ _, EHttp rq);
  kmipExchange ep rq := noted (kmipExchange ep rq) (λ _, EKmip rq);
  pem_certs := pem_certs (S := H);
  key_pair c k := silent (key_pair c k);
  get_token id h := get_token id h.1;
  put_token id x h := (put_token id x h.1, h.2);
  get_creds id h := get_creds id h.1;
  put_creds id x h := (put_creds id x h.1, h.2);
|}.
#[global] Instance rec_clock : Clock HL := {| Sleep d h := (Sleep d h.1, h.2); ctx_done h := ctx_done h.1 |}.
#[global] Instance rec_fscrypt : FsCrypt HL := {|
  add_encryption_key p k := silent (add_encryption_key p k);
  mkdir p m := silent (mkdir p m);
  set_encryption_policy p k := silent (set_encryption_policy p k);
|}.
#[global] Instance rec_network : Network HL := {|
  DialUDP a := silent (DialUDP a);
  ParseInLocation l v h := ParseInLocation l v h.1;
|}.
End recorded.

(** ** Temporary files *)

(** The files of [X] and of the events that are still there afterwards. *)
Fixpoint left_behind (X : gset string) (t : list event) : gset string :=
  match t with
  | [] => X
  | ECreateTemp f :: t => left_behind ({[ f ]} ∪ X) t
  | ERemove f :: t => left_behind (X ∖ {[ f ]}) t
  | _ :: t => left_behind X t
  end.
(** Nothing is left that was not there before. *)
Definition tidy (t : list event) : Prop := ∀ X, left_behind X t ⊆ X.

Lemma left_app X t1 t2 : left_behind X (t1 ++ t2) = left_behind (left_behind X t1) t2.
Proof. revert X. induction t1 as [|e t1 IH]; intros X; [done|]. destruct e; simpl; apply IH. Qed.
Lemma left_mono X Y t : X ⊆ Y → left_behind X t ⊆ left_behind Y t.
Proof.
  revert X Y. induction t as [|e t IH]; intros X Y HXY; [done|]. destruct e; simpl; apply IH; set_solver.
Qed.
#[global] Instance tidy_closed : Closed tidy.
Proof.
  split; [by intros X|]. intros t1 t2 H1 H2 X. rewrite left_app. etrans; [apply H2|apply H1].
Qed.
Definition made (fs : list string) : list event := map ECreateTemp fs.
Definition gone (fs : list string) : list event := map ERemove fs.
Lemma left_made X fs : left_behind X (made fs) = list_to_set fs ∪ X.
Proof. revert X. induction fs as [|f fs IH]; intros X; simpl; [set_solver|]. rewrite IH. set_solver. Qed.
Lemma left_gone X fs : left_behind X (gone fs) = X ∖ list_to_set fs.
Proof. revert X. induction fs as [|f fs IH]; intros X; simpl; [set_solver|]. rewrite IH. set_solver. Qed.
(** Files made before and removed after something tidy. *)
Lemma tidy_bracket fs t : tidy t → tidy (made fs ++ t ++ gone fs).
Proof.
  intros Ht X. rewrite !left_app, left_made, left_gone. specialize (Ht (list_to_set fs ∪ X)). set_solver.
Qed.

(** ** Properties of the record

    [Quiet P]: [P] holds of the commands that are [allowed], of files written and
    removed, and of temporary files made before and removed after something that
    satisfies it; [Loose P]: also of exchanges with the key services. *)

(** The arguments a connection puts before a command of rbd. *)
Definition conn_ok (c : list string) : Prop :=
  ∃ mons user kf, c = ["-c"; "/dev/null"; "-m"; mons; "--id"; user] ++ kf ∧ (kf = [] ∨ ∃ f, kf = ["--keyfile"; f]).
(** Commands that look at devices and mounts, mount, and grow a file system. *)
Definition tools : list string := ["blockdev"; "findmnt"; "blkid"; "mount"; "xfs_growfs"; "btrfs"; "resize2fs"].
Class Quiet (P : list event → Prop) := {
  allowed : string → list string → Prop;
  allowed_meta c rest : conn_ok c → allowed "rbd" (c ++ "image-meta" :: rest);
  allowed_tool name args : name ∈ tools → allowed name args;
  quiet_closed :: Closed P;
  quiet_command name args o : allowed name args → P [ECommand name args o];
  quiet_remove p : P [ERemove p];
  quiet_write p d : P [EWriteFile p d];
  quiet_bracket fs t : P t → P (made fs ++ t ++ gone fs);
}.
Class Loose (P : list event → Prop) `{!Quiet P} := {
  loose_http rq : P [EHttp rq];
  loose_kmip rq : P [EKmip rq];
}.
(** Every command is allowed. *)
Definition quiet_all (P : list event → Prop) (Hc : Closed P) (Hcmd : ∀ name args o, P [ECommand name args o])
    (Hrm : ∀ p, P [ERemove p]) (Hwr : ∀ p d, P [EWriteFile p d]) (Hbr : ∀ fs t, P t → P (made fs ++ t ++ gone fs)) : Quiet P :=
  {| allowed _ _ := True; allowed_meta _ _ _ := I; allowed_tool _ _ _ := I; quiet_closed := Hc; quiet_command n a o _ := Hcmd n a o;
     quiet_remove := Hrm; quiet_write := Hwr; quiet_bracket := Hbr |}.
#[global] Instance tidy_quiet : Quiet tidy.
Proof. apply quiet_all; [apply _|..|apply tidy_bracket]; intros; intros X; simpl; set_solver. Defined.
Lemma tidy_all name args : allowed (P := tidy) name args.
Proof. exact I. Qed.
#[global] Instance tidy_loose : Loose tidy.
Proof. by split; intros ? X. Qed.
#[global] Instance any_quiet : Quiet (λ _, True).
Proof. by apply quiet_all. Defined.
#[global] Instance any_loose : Loose (λ _, True).
Proof. done. Qed.
Lemma Each_bracket (Q : event → Prop) fs t :
  (∀ f, Q (ECreateTemp f) ∧ Q (ERemove f)) → Each Q t → Each Q (made fs ++ t ++ gone fs).
Proof.
  intros Hq Ht. unfold Each, made, gone in *. rewrite !Forall_app, !Forall_map.
  repeat split; [|done|]; apply Forall_true; intros f; apply Hq.
Qed.
(** No exchange with a key service. *)
Definition internal (e : event) : Prop := match e with EHttp _ | EKmip _ => False | _ => True end.
#[global] Instance internal_quiet : Quiet (Each internal).
Proof. apply quiet_all; [apply _|intros; by apply Each_one..|intros; by apply Each_bracket]. Defined.
Lemma internal_all name args : allowed (P := Each internal) name args.
Proof. exact I. Qed.

(** ** Effects with results

    [Emits log m Q]: run from any state, [m] adds events that [Q] relates to its result. *)
Section emits.
  Context {S : Type} (log : S → list event).

Definition Emits {E A} (m : M S E A) (Q : list event → res E A → Prop) : Prop :=
  ∀ s, ∃ t, log (m s).1 = log s ++ t ∧ Q t (m s).2.

Lemma Emits_none {E A} (m : M S E A) (Q : list event → res E A → Prop) :
  (∀ s, log (m s).1 = log s) → (∀ s, Q [] (m s).2) → Emits m Q.
Proof. intros Hl HQ s. exists []. by rewrite app_nil_r. Qed.
Lemma Emits_ret {E A} (a : A) (Q : list event → res E A → Prop) : Q [] (Ok a) → Emits (mret a) Q.
Proof. intros HQ. by apply Emits_none. Qed.
Lemma Emits_fail {E A} (e : E) (Q : list event → res E A → Prop) : Q [] (Err e) → Emits (fail e) Q.
Proof. intros HQ. by apply Emits_none. Qed.
Lemma Emits_lift {E A} (r : res E A) (Q : list event → res E A → Prop) : Q [] r → Emits (lift r) Q.
Proof. intros HQ. by apply Emits_none. Qed.
Lemma Emits_guard {E} b (e : E) (Q : list event → res E unit → Prop) :
  (b = true → Q [] (Ok tt)) → (b = false → Q [] (Err e)) → Emits (guard_ b e) Q.
Proof. intros H1 H2. apply Emits_none; [done|]. intros s. destruct b; simpl; auto. Qed.
Lemma Emits_mono {E A} (m : M S E A) (Q Q' : list event → res E A → Prop) :
  Emits m Q → (∀ t r, Q t r → Q' t r) → Emits m Q'.
Proof. intros Hm HQ s. destruct (Hm s) as (t & Ht & Hr). eauto. Qed.
Lemma Emits_bind {E A B} (m : M S E A) (f : A → M S E B) Q1 (Q : list event → res E B → Prop) :
  Emits m Q1 → (∀ t a, Q1 t (Ok a) → Emits (f a) (λ t' r, Q (t ++ t') r)) → (∀ t e, Q1 t (Err e) → Q t (Err e)) →
  Emits (m ≫= f) Q.
Proof.
  intros Hm Hf He s. destruct (Hm s) as (t & Ht & HQ). unfold mbind, M_bind. destruct (m s) as [s' [a|e]]; simpl in *; [|eauto].
  destruct (Hf t a HQ s') as (t' & Ht' & HQ'). exists (t ++ t'). by rewrite Ht', Ht, app_assoc.
Qed.
(** The same as a weakest precondition. *)
Lemma Emits_then {E A B} (m : M S E A) (f : A → M S E B) (Q : list event → res E B → Prop) :
  Emits m (λ t r, match r with Ok a => Emits (f a) (λ t' r, Q (t ++ t') r) | Err e => Q t (Err e) end) → Emits (m ≫= f) Q.
Proof. intros Hm. eapply Emits_bind; [exact Hm|done..]. Qed.
Lemma Emits_then_guard {E B} b (e : E) (f : unit → M S E B) (Q : list event → res E B → Prop) :
  (b = true → Emits (f tt) Q) → (b = false → Q [] (Err e)) → Emits (guard_ b e ≫= f) Q.
Proof. intros H1 H2. apply Emits_then, Emits_guard; [|done]. intros Hb. by apply H1. Qed.
Lemma Emits_catch {E F A B} (m : M S E A) (f : res E A → M S F B) Q1 (Q : list event → res F B → Prop) :
  Emits m Q1 → (∀ t r, Q1 t r → Emits (f r) (λ t' r, Q (t ++ t') r)) → Emits (catch m f) Q.
Proof.
  intros Hm Hf s. destruct (Hm s) as (t & Ht & HQ). unfold catch. destruct (m s) as [s' r]; simpl in *.
  destruct (Hf t r HQ s') as (t' & Ht' & HQ'). exists (t ++ t'). by rewrite Ht', Ht, app_assoc.
Qed.
End emits.

Section held.
  Context {H : Type} `{Host H} `{Files H} `{TempFiles H} `{Env H} (cfg : Config).
  Abbreviation HL := (H * list event)%type.
  Abbreviation hlog := (snd (A := H) (B := list event)).
  Abbreviation op A := (M HL perror A).

Lemma Emits_run name args (Q : list event → res string string → Prop) :
  (∀ o, Q [ECommand name args o] (match o_err o with None => Ok (o_out o) | Some e => Err e end)) →
  Emits hlog (run name args) Q.
Proof.
  intros HQ h. unfold run. simpl. destruct (Run name args h.1) as [h' o]. exists [ECommand name args o]. split; [done|apply HQ].
Qed.
(** A command whose outcome is examined. *)
Definition outcome (o : output) : res string string := match o_err o with None => Ok (o_out o) | Some e => Err e end.
Lemma Emits_catch_run {E A} name args (f : res string string → M HL E A) (Q : list event → res E A → Prop) :
  (∀ o, Emits hlog (f (outcome o)) (λ t r, Q (ECommand name args o :: t) r)) → Emits hlog (catch (run name args) f) Q.
Proof.
  intros Hf. eapply Emits_catch; [apply (Emits_run _ _ (λ t r, ∃ o, t = [ECommand name args o] ∧ r = outcome o)); eauto|].
  intros t r (o & -> & ->). apply Hf.
Qed.
Lemma Emits_run_or fmt name args (Q : list event → res perror string → Prop) :
  (∀ o, Q [ECommand name args o] (match o_err o with None => Ok (o_out o) | Some _ => Err (errorf fmt) end)) →
  Emits hlog (run_or fmt name args) Q.
Proof.
  intros HQ h. unfold run_or, run_err, run. simpl. destruct (Run name args h.1) as [h' o].
  exists [ECommand name args o]. split; [done|]. specialize (HQ o). by destruct (o_err o).
Qed.
Lemma Emits_run_out name args (Q : list event → res perror string → Prop) :
  (∀ o, Q [ECommand name args o] (Ok (o_out o))) → Emits hlog (run_out name args) Q.
Proof.
  intros HQ h. unfold run_out. simpl. destruct (Run name args h.1) as [h' o]. exists [ECommand name args o]. split; [done|apply HQ].
Qed.

(** ** Keys in files *)
Lemma SecretTemp_made pat (h : HL) :
  match SecretTemp pat h with
  | (h', Ok f) => h'.2 = h.2 ++ made [f]
  | (h', Err _) => h'.2 = h.2
  end.
Proof.
  unfold SecretTemp. simpl. unfold silent. destruct (IsDir "/dev/shm" h.1) as [h1 b]. destruct b; simpl; unfold temp_made; simpl.
  - destruct (CreateTemp "/dev/shm" pat h1) as [h2 [f|e]]; simpl; [done|].
    destruct (CreateTemp "" pat h2) as [h3 [f|e']]; simpl; by rewrite ?app_nil_r.
  - destruct (CreateTemp "" pat h1) as [h2 [f|e]]; simpl; by rewrite ?app_nil_r.
Qed.
Lemma remove_log p (h : HL) : (Remove p h).1.2 = h.2 ++ gone [p].
Proof. simpl. unfold noted. by destruct (Remove p h.1). Qed.
Lemma remove_fail_log {A} p e (h : HL) : ((os_try (Remove p);; fail e : op A) h).1.2 = h.2 ++ gone [p].
Proof. unfold os_try, mbind, M_bind, fail. simpl. apply remove_log. Qed.

(** A computation between temporary files made and removed; when one cannot be made, the
    computation does not run. *)
Definition around {A} (Q : list event → res perror A → Prop) (t : list event) (r : res perror A) : Prop :=
  ∃ fs body, t = made fs ++ body ++ gone fs ∧ ((body = [] ∧ is_Ok r = false) ∨ Q body r).
Lemma around_nothing {A} (Q : list event → res perror A → Prop) r : is_Ok r = false → around Q [] r.
Proof. intros Hr. exists [], []. split; [done|by left]. Qed.
(** Whatever [body] does between, the file that held the key is removed. *)
Lemma held_emits {A} pat fmt key (cleanup : string → HL → HL) (body : string → op A) (er : string → op A) Q :
  (∀ f h, (cleanup f h).2 = h.2 ++ gone [f]) →
  (∀ f, Emits hlog (body f) Q) →
  (∀ f h, (er f h).1.2 = h.2 ++ gone [f] ∧ is_Ok (er f h).2 = false) →
  Emits hlog (f ← os_or fmt (SecretTemp pat);
    catch (os_unit (WriteString f key)) (λ r, match r with Err _ => er f | Ok _ => deferred (cleanup f) (body f) end)) (around Q).
Proof.
  intros Hc Hb He h. unfold os_or, run_err, mbind, M_bind. pose proof (SecretTemp_made pat h) as Ht.
  destruct (SecretTemp pat h) as [h1 [f|e]]; simpl; [|exists []; rewrite Ht, app_nil_r; split; [done|by apply around_nothing]].
  unfold catch, os_unit. simpl. unfold silent. destruct (WriteString f key h1.1) as [h2 o]. destruct o as [e|].
  - exists (made [f] ++ [] ++ gone [f]). destruct (He f (h2, h1.2)) as [Hl Hr]. split.
    + rewrite Hl. simpl. by rewrite Ht, <-app_assoc.
    + exists [f], []. split; [done|by left].
  - unfold deferred. destruct (Hb f (h2, h1.2)) as (t & Hlog & HQ). destruct (body f (h2, h1.2)) as [h3 r].
    simpl in *. exists (made [f] ++ t ++ gone [f]). split; [by rewrite Hc, Hlog, Ht, <-!app_assoc|].
    exists [f], t. split; [done|by right].
Qed.
Lemma with_keyfile_emits {A} pass (body : string → op A) Q :
  (∀ f, Emits hlog (body f) Q) → Emits hlog (with_keyfile pass body) (around Q).
Proof. intros Hb. apply held_emits; [intros; apply remove_log|done|]. intros f h. split; [apply remove_fail_log|done]. Qed.
Lemma keyFor_silent i sec (h : HL) : (keyFor cfg i sec h).1.2 = h.2.
Proof.
  unfold keyFor, secret_key, catch, os_get. destruct (negb (bool_decide (keyDir cfg = ""))).
  - simpl. unfold silent. destruct (ReadFile _ h.1) as [h1 [d|e]]; simpl; [done|].
    destruct (negb (not_exist e)); [done|]. by repeat destruct (negb _).
  - by repeat destruct (negb _).
Qed.

(** [connected] in the shape of [held_emits]. *)
Lemma connected_emits {A} cc i sec (body : list string → op A) Q :
  (∀ c, conn_ok c → Emits hlog (body c) Q) → Emits hlog (connected cfg cc i sec body) (around Q).
Proof.
  intros Hb h. set (args := ["-c"; "/dev/null"; "-m"; join "," (cc_Monitors cc); "--id"; user_of cc sec]).
  assert (conn_ok args) as Hok1 by (eexists _, _, []; split; [reflexivity|by left]).
  assert (∀ f, conn_ok (args ++ ["--keyfile"; f])) as Hok2.
  { intros f. eexists _, _, _. split; [reflexivity|eauto]. }
  unfold connected, connArgs. cbv zeta. pose proof (keyFor_silent i sec h) as Hk. unfold mbind, M_bind.
  destruct (keyFor cfg i sec h) as [h0 [key|e]]; simpl in Hk.
  2: { exists []. rewrite app_nil_r. split; [done|by apply around_nothing]. }
  case_bool_decide.
  { simpl. unfold deferred. destruct (Hb args Hok1 h0) as (t & Hlog & HQ). fold args.
    destruct (body args h0) as [h1 r]. simpl in *. exists t. rewrite Hlog, Hk. split; [done|].
    exists [], t. rewrite app_nil_r. split; [done|by right]. }
  destruct (held_emits "csi-ceph-key-" "ceph-rbd: keyfile: %w" key (λ f h, (Remove f h).1)
    (λ f, body (args ++ ["--keyfile"; f])) (λ f, os_try (Remove f);; fail (errorf "ceph-rbd: keyfile: %w")) Q
    (λ f h, remove_log f h) (λ f, Hb _ (Hok2 f)) (λ f h, conj (remove_fail_log f _ h) eq_refl) h0) as (t & Hlog & HQ).
  exists t. unfold os_or, run_err, mbind, M_bind, catch, os_unit, deferred in *. rewrite <-Hk, <-Hlog.
  destruct (SecretTemp "csi-ceph-key-" h0) as [h1 [f|e]]; simpl in *; [|done].
  by destruct (silent (WriteString f key) h1) as [h2 [e|]].
Qed.

Lemma remove_files_log fs (h : HL) : (remove_files fs h).2 = h.2 ++ gone fs.
Proof.
  unfold remove_files. revert h. induction fs as [|f fs IH]; intros h; simpl; [by rewrite app_nil_r|].
  rewrite IH. simpl. unfold noted. destruct (Remove f h.1). simpl. by rewrite <-app_assoc.
Qed.
#[local] Arguments remove_files : simpl never.
Lemma write_try_log f d (h : HL) : (os_try (WriteString f d) h).1.2 = h.2.
Proof. unfold os_try. simpl. unfold silent. by destruct (WriteString f d h.1). Qed.
Lemma ceph_conn_emits {A} p1 p2 e1 e2 mons user (keyOf : op string) (body : list string → op A) Q :
  (∀ h, (keyOf h).1.2 = h.2) → (∀ c, Emits hlog (body c) Q) →
  Emits hlog (connected_by (ceph_conn p1 p2 e1 e2 mons user keyOf) body) (around Q).
Proof.
  intros Hk Hb h. unfold connected_by, ceph_conn, os_or, run_err, os_get. unfold mbind, M_bind. simpl. unfold temp_made.
  destruct (CreateTemp "" p1 h.1) as [h1 [conf|e]]; simpl.
  2: { exists []. split; [done|by apply around_nothing]. }
  assert (∀ h' fs t (r : res perror A), h'.2 = h.2 ++ made fs ++ t → (t = [] ∧ is_Ok r = false) ∨ Q t r →
    ∃ t', (remove_files fs h').2 = h.2 ++ t' ∧ around Q t' r) as Hend.
  { intros h' fs t r Ht HQ. exists (made fs ++ t ++ gone fs). rewrite remove_files_log, Ht, <-!app_assoc.
    split; [done|]. by exists fs, t. }
  pose proof (write_try_log conf (conf_text mons) (h1, h.2 ++ [ECreateTemp conf])) as Hw.
  unfold os_try. simpl in *. destruct (silent _ _) as [h2 o]; simpl in *. unfold catch. specialize (Hk h2).
  destruct (keyOf h2) as [h3 [key|e]]; simpl in Hk.
  2: { apply (Hend h3 [conf] []); [|by left]. rewrite Hk, Hw. done. }
  case_bool_decide; simpl.
  { unfold deferred. destruct (Hb (["--conf"; conf; "--id"; user]) h3) as (t & Hlog & HQ).
    destruct (body _ h3) as [h4 r]. simpl in *. apply (Hend h4 [conf] t); [|by right].
    by rewrite Hlog, Hk, Hw, <-app_assoc. }
  pose proof (SecretTemp_made p2 h3) as Hs. destruct (SecretTemp p2 h3) as [h4 [kf|e]]; simpl.
  2: { apply (Hend h4 [conf] []); [|by left]. by rewrite Hs, Hk, Hw. }
  pose proof (write_try_log kf key h4) as Hw2. simpl in *. destruct (silent (WriteString kf key) h4) as [h5 o2]; simpl in *.
  unfold deferred. destruct (Hb (["--conf"; conf; "--id"; user] ++ ["--keyfile"; kf]) h5) as (t & Hlog & HQ).
  destruct (body _ h5) as [h6 r]. simpl in *. apply (Hend h6 [conf; kf] t); [|by right].
  rewrite Hlog, Hw2, Hs, Hk, Hw. by rewrite <-!app_assoc.
Qed.
End held.

Section plugin.
  Context {H : Type} `{Host H} `{Files H} `{TempFiles H} `{Env H} `{Clock H} `{FsCrypt H} `{Network H} `{MapIter} (cfg : Config).
  Context (P : list event → Prop) `{!Quiet P} `{!Loose P}.
  Abbreviation HL := (H * list event)%type.
  Abbreviation op A := (M HL perror A).
  Abbreviation R := (logged (H := H) P).

(** ** Single calls *)
Lemma noted_steps {A} (f : H → H * A) ev (h : HL) : (∀ a, P [ev a]) → R h (noted f ev h).1.
Proof. intros He. unfold noted. destruct (f h.1) as [h' a]. by exists [ev a]. Qed.
Lemma silent_steps {A} (f : H → H * A) (h : HL) : R h (silent f h).1.
Proof. unfold silent. destruct (f h.1) as [h' a]. exists []. simpl. rewrite app_nil_r. split; [done|apply closed_nil]. Qed.
Lemma run_steps name args : allowed name args → Pres R (run (H := HL) name args).
Proof. intros Ha. apply Pres_logged, Closed_run. intros o. by apply quiet_command. Qed.
Lemma run_or_steps fmt name args : allowed name args → Pres R (run_or (H := HL) fmt name args).
Proof. intros Ha. by apply Pres_run_err, run_steps. Qed.
Lemma run_unless_steps b fmt name args : allowed name args → Pres R (run_unless (H := HL) b fmt name args).
Proof. intros Ha. apply Pres_logged, Closed_run_unless; [apply _|]. intros o. by apply quiet_command. Qed.
Lemma run_out_steps name args : allowed name args → Pres R (run_out (H := HL) name args).
Proof. intros Ha. apply Pres_logged, Closed_run_out. intros o. by apply quiet_command. Qed.
Lemma mkdir_steps fmt p m : Pres R (mkdir_all (H := HL) fmt p m).
Proof. apply Pres_logged, Closed_mkdir. apply closed_nil. Qed.
Lemma read_file_steps p : Pres R (os_get (H := HL) (ReadFile p)).
Proof. intros h. apply silent_steps. Qed.
Lemma read_dir_steps p : Pres R (os_get (H := HL) (ReadDir p)).
Proof. intros h. apply silent_steps. Qed.
Lemma remove_step p (h : HL) : R h (Remove p h).1.
Proof. apply noted_steps. intros _. apply quiet_remove. Qed.
Lemma remove_steps p : Pres R (os_try (H := HL) (Remove p)).
Proof. intros h. apply remove_step. Qed.
Lemma write_file_steps p d m : Pres R (os_unit (H := HL) (WriteFile p d m)).
Proof.
  intros h. unfold os_unit. pose proof (noted_steps (WriteFile p d m) (λ _, EWriteFile p d) h) as Hn.
  simpl in *. destruct (noted _ _ h) as [h' a]. apply Hn. intros _. apply quiet_write.
Qed.
Lemma open_create_steps p m : Pres R (os_unit (H := HL) (OpenCreate p m)).
Proof.
  intros h. unfold os_unit. pose proof (silent_steps (OpenCreate p m) h) as Hn. simpl in *.
  by destruct (silent _ h) as [h' a].
Qed.
Lemma write_string_steps f d : Pres R (os_unit (H := HL) (WriteString f d)).
Proof.
  intros h. unfold os_unit. pose proof (silent_steps (WriteString f d) h) as Hn. simpl in *.
  by destruct (silent _ h) as [h' a].
Qed.

Lemma keyFor_steps i sec : Pres R (keyFor (H := HL) cfg i sec).
Proof. unfold keyFor, secret_key. repeat pres_step. apply read_file_steps. Qed.
(** What is quiet inside is quiet with the files around it. *)
Lemma around_steps {A} (m : op A) : Emits snd m (around (λ t _, P t)) → Pres R m.
Proof.
  intros He h. destruct (He h) as (t & Ht & fs & b & -> & Hb). eexists. split; [exact Ht|].
  apply quiet_bracket. destruct Hb as [[-> _]|Hb]; [apply closed_nil|done].
Qed.
Lemma Emits_steps {E A} (m : M HL E A) : Pres R m → Emits snd m (λ t _, P t).
Proof. intros Hm h. apply Hm. Qed.
Lemma with_keyfile_steps {A} pass (body : string → op A) : (∀ f, Pres R (body f)) → Pres R (with_keyfile pass body).
Proof. intros Hb. apply around_steps, with_keyfile_emits. intros f. by apply Emits_steps. Qed.
Lemma connected_steps {A} cc i sec (body : list string → op A) :
  (∀ c, conn_ok c → Pres R (body c)) → Pres R (connected cfg cc i sec body).
Proof. intros Hb. apply around_steps, connected_emits. intros c Hc. by apply Emits_steps, Hb. Qed.
Lemma ceph_conn_steps {A} p1 p2 e1 e2 mons user (keyOf : op string) (body : list string → op A) :
  (∀ h, (keyOf h).1.2 = h.2) → (∀ c, Pres R (body c)) →
  Pres R (connected_by (ceph_conn p1 p2 e1 e2 mons user keyOf) body).
Proof. intros Hk Hb. apply around_steps, ceph_conn_emits; [done|]. intros c. by apply Emits_steps. Qed.
Lemma cephCLIConn_steps {A} cc i sec (body : list string → op A) :
  (∀ c, Pres R (body c)) → Pres R (connected_by (cephCLIConn cfg cc i sec) body).
Proof. intros Hb. apply ceph_conn_steps; [intros; apply keyFor_silent|done]. Qed.
Lemma cephFenceConn_steps {A} cc i sec (body : list string → op A) :
  (∀ c, Pres R (body c)) → Pres R (connected_by (cephFenceConn cfg cc i sec) body).
Proof.
  intros Hb. apply ceph_conn_steps; [|done]. intros h. unfold fence_key. case_bool_decide; [apply keyFor_silent|done].
Qed.

(** ** The steps of the plugin *)
Definition meta_ok (c : conn) : Prop :=
  match c with Some args => ∀ rest, allowed "rbd" (args ++ "image-meta" :: rest) | None => False end.
Lemma meta_ok_conn c : conn_ok c → meta_ok (Some c).
Proof. intros Hc rest. by apply allowed_meta. Qed.
Lemma meta_get_steps c s k : meta_ok (Some c) → Pres R (imageMetaGetChecked (H := HL) c s k).
Proof. intros Hc. unfold imageMetaGetChecked. destruct (metaAddr s k). repeat pres_step. by apply run_steps. Qed.
Lemma meta_set_steps c s k v : meta_ok (Some c) → Pres R (imageMetaSet (H := HL) c s k v).
Proof. intros Hc. unfold imageMetaSet. destruct (metaAddr s k). repeat pres_step. by apply run_or_steps. Qed.
#[local] Instance khost : KHost HL := rbd_khost cfg.
(** A provider that is given a connection uses that. *)
Lemma with_conn_steps {A} c i sec (body : conn → op A) :
  meta_ok c → (∀ c', meta_ok c' → Pres R (body c')) → Pres R (with_conn c i sec body).
Proof.
  intros Hc Hb. destruct c as [args|]; [|done].
  intros h. unfold with_conn. simpl. unfold mbind, M_bind. simpl. specialize (Hb (Some args) Hc h).
  by destruct (body (Some args) h).
Qed.
Lemma meta_get_args c s k : meta_ok c → Pres R (imageMetaGetChecked (H := HL) (conn_args c) s k).
Proof. destruct c; [apply meta_get_steps|done]. Qed.
Lemma meta_set_args c s k v : meta_ok c → Pres R (imageMetaSet (H := HL) (conn_args c) s k v).
Proof. destruct c; [apply meta_set_steps|done]. Qed.

Lemma cache_steps (f : H → H) (h : HL) : R h (f h.1, h.2).
Proof. exists []. rewrite app_nil_r. split; [done|apply closed_nil]. Qed.
(** *** The key services *)
Ltac kms_ok lem := eapply lem with (good := meta_ok); try apply _; intros;
  first [ assumption | by apply with_conn_steps | by apply meta_get_args | by apply meta_set_args
        | intros h; apply silent_steps | intros h; apply noted_steps; intros; first [apply loose_http | apply loose_kmip]
        | apply noted_steps; intros; first [apply loose_http | apply loose_kmip] | apply (cache_steps (put_token _ _)) | apply (cache_steps (put_creds _ _)) | done | idtac ].
Lemma Passphrase_steps c i kmsID spec keyID sec :
  meta_ok c → Pres R (Passphrase print (registry cfg) c i kmsID spec keyID sec).
Proof. intros Hc. kms_ok @Passphrase_pres. Qed.
Lemma DeleteKey_steps c i kmsID spec : meta_ok c → Pres R (DeleteKey (registry cfg) c i kmsID spec).
Proof. intros Hc. kms_ok @DeleteKey_pres. Qed.
Lemma CloneKey_steps c i kmsID src dst sec : meta_ok c → Pres R (CloneKey (registry cfg) c i kmsID src dst sec).
Proof. intros Hc. kms_ok @CloneKey_pres. Qed.
Lemma RotateKey_steps c i kmsID spec sec apply :
  meta_ok c → (∀ p, Pres R (apply p)) → Pres R (RotateKey print (registry cfg) c i kmsID spec sec apply).
Proof. intros Hc Ha. kms_ok @RotateKey_pres. Qed.

(** Whether a command is allowed. *)
Ltac permitted := first [assumption | apply allowed_tool; compute_done | by apply meta_ok_conn | by apply allowed_meta].
(** [calls lem]: down to the calls of the host; [lem] knows the operations. *)
Ltac call lem :=
  first
  [ pres_step
  | solve [ apply run_steps; permitted | apply run_or_steps; permitted | apply run_unless_steps; permitted
          | apply run_out_steps; permitted | apply mkdir_steps
          | apply read_file_steps | apply read_dir_steps | apply remove_steps | apply write_file_steps
          | apply open_create_steps | apply meta_get_steps; permitted | apply meta_set_steps; permitted ]
  | lazymatch goal with
    | |- Pres _ (os_or _ _) => unfold os_or
    | |- Pres _ (connected _ _ _ _ _) => apply connected_steps; intros
    | |- Pres _ (connected_by (cephCLIConn _ _ _ _) _) => apply cephCLIConn_steps; intros
    | |- Pres _ (connected_by (cephFenceConn _ _ _ _) _) => apply cephFenceConn_steps; intros
    | |- Pres _ (with_keyfile _ _) => apply with_keyfile_steps; intros
    end
  | lem ].
Tactic Notation "calls" "with" tactic3(lem) := repeat (call lem).

(** *** Devices and mounts *)
Lemma record_steps p : Pres R (readDeviceRecord (H := HL) cfg p).
Proof. unfold readDeviceRecord. calls with fail. Qed.
Lemma mapped_steps d : Pres R (deviceMapped (H := HL) d).
Proof. unfold deviceMapped. calls with fail. Qed.
Lemma grow_steps f d m : Pres R (growFilesystem (H := HL) f d m).
Proof. unfold growFilesystem. calls with fail. Qed.
Lemma wait_steps d : Pres R (waitForDevice (H := HL) d).
Proof.
  unfold waitForDevice. pres_step; [pres_step|]. generalize (a + deadline_ns)%Z. clear a.
  induction wait_fuel as [|n IH]; intros dl; simpl; calls with first [apply IH | apply Pres_modify; intros h; apply cache_steps].
Qed.
Lemma keepers_of_fscrypt (f : H → H * option bool) fmt :
  Pres R (unless_exists fmt (silent (L := event) f)).
Proof. intros h. unfold unless_exists. pose proof (silent_steps f h) as Hs. by destruct (silent f h) as [h' a]. Qed.
Lemma fscrypt_steps p x : Pres R (SetupFscrypt (S := HL) p x).
Proof.
  unfold SetupFscrypt. calls with first [apply keepers_of_fscrypt | intros h; apply silent_steps].
Qed.

(** *** Where every command is allowed *)
Context (Hall : ∀ name args, allowed name args).
#[local] Ltac permitted ::= first [apply Hall | intros ?; apply Hall].
Lemma imageInfo_steps c s : Pres R (imageInfo (H := HL) c s).
Proof. unfold imageInfo. calls with fail. Qed.
Lemma image_exists_steps c s : Pres R (image_exists (H := HL) c s).
Proof. unfold image_exists. calls with apply imageInfo_steps. Qed.
Lemma dial_steps a : Pres R (DialUDP (H := HL) a).
Proof. intros h. apply silent_steps. Qed.
Lemma mirrorStatus_steps c s : Pres R (mirrorStatus (H := HL) c s).
Proof.
  intros h. unfold mirrorStatus. pose proof (run_steps "rbd" (c ++ ["mirror"; "image"; "status"; s; "--format"; "json"]) (Hall _ _) h) as Hr.
  unfold run in Hr. by destruct (Run "rbd" _ h).
Qed.
Lemma imageParent_steps c s : Pres R (imageParent (H := HL) c s).
Proof. unfold imageParent. calls with fail. Qed.
Lemma flattenIfDeep_steps c s : Pres R (flattenIfDeep (H := HL) cfg c s).
Proof.
  unfold flattenIfDeep, cloneDepth. calls with idtac. generalize 0%Z, 65. intros d n. revert s d.
  induction n as [|n IH]; intros s d; simpl; calls with first [apply imageParent_steps | apply IH].
Qed.
Lemma listSnaps_steps c s : Pres R (listSnaps (H := HL) c s).
Proof. unfold listSnaps. calls with fail. Qed.
Lemma inherited_steps c a b k : Pres R (inherited (H := HL) c a b k).
Proof. unfold inherited. calls with fail. Qed.
Lemma params_steps c s p : Pres R (applyMutableParams (H := HL) c s p).
Proof. unfold applyMutableParams. induction (range p) as [|[k v] l IH]; simpl; calls with apply IH. Qed.
Lemma owner_steps c s p : Pres R (setOwnerMetadata (H := HL) c s p).
Proof. unfold setOwnerMetadata. induction (range ownerMeta) as [|[k v] l IH]; simpl; calls with apply IH. Qed.
Lemma usedBytes_steps c s : Pres R (usedBytes (H := HL) c s).
Proof. unfold usedBytes. calls with fail. Qed.
Lemma active_steps m : Pres R (luksActive (H := HL) m).
Proof. unfold luksActive. calls with fail. Qed.
Lemma isLuks_steps d : Pres R (isLuksDevice (H := HL) d).
Proof. unfold isLuksDevice. calls with fail. Qed.
(** *** Lifted to the plugin's state *)
Definition RB (s s' : Backend_ HL) : Prop := R (host s) (host s').
#[global] Instance RB_preorder : PreOrder RB.
Proof. split; [intros s; unfold RB; reflexivity|intros s1 s2 s3; unfold RB; apply transitivity]. Qed.
Lemma on_host_steps {E A} (m : M HL E A) : Pres R m → Pres RB (on_host m).
Proof. intros Hm s. unfold on_host. specialize (Hm (host s)). by destruct (m (host s)). Qed.
Lemma connected__steps {A} cc i sec (body : list string → M (Backend_ HL) perror A) :
  (∀ c, Pres RB (body c)) → Pres RB (connected_ cfg cc i sec body).
Proof.
  intros Hb s. pose proof (connected_steps (A := A) cc i sec
    (λ c h, let '(s', r) := body c (with_host h s) in (host s', r))) as Hc.
  unfold connected_, on_host. unfold connected, deferred in Hc. unfold mbind, M_bind in *.
  assert (∀ c, Pres R (λ h, let '(s', r) := body c (with_host h s) in (host s', r))) as Hb'.
  { intros c h. specialize (Hb c (with_host h s)). unfold RB in Hb. destruct (body c (with_host h s)).
    exact Hb. }
  specialize (Hc (λ c _, Hb' c) (host s)). unfold RB. cbv beta in Hc.
  destruct (connArgs cfg cc i sec (host s)) as [h1 [[args cl]|e]]; [|exact Hc].
  cbn [fst snd] in *. destruct (body args (with_host h1 s)) as [s2 r]. exact Hc.
Qed.
Lemma same_host (f : Backend_ HL → Backend_ HL) (Hf : ∀ s, host (f s) = host s) : Pres RB (modify f : M _ perror unit).
Proof. intros s. unfold RB. simpl. rewrite Hf. reflexivity. Qed.

Lemma flatten_run_steps j : Pres R (flatten_run (H := HL) cfg j).
Proof. unfold flatten_run, flatten_unlinked. calls with first [apply flattenIfDeep_steps | apply imageParent_steps]. Qed.
Lemma release_steps j : Pres RB (flatten_and_release (H := HL) cfg j).
Proof. unfold flatten_and_release. calls with first [by apply same_host | apply on_host_steps, flatten_run_steps]. Qed.
Lemma background_steps i sec s g : Pres RB (backgroundFlatten (H := HL) cfg i sec s g).
Proof. unfold backgroundFlatten. calls with first [by apply same_host | apply release_steps]. Qed.

Lemma flatten_all_steps i sec l : Pres RB (flatten_all (H := HL) cfg i sec l).
Proof. induction l as [|[f tr] l IH]; simpl; calls with first [apply background_steps | apply IH]. Qed.
Lemma worker_steps i : Pres RB (flatten_worker (H := HL) cfg i).
Proof.
  intros s. unfold flatten_worker. destruct (jobs s !! i) as [j|]; [|simpl; reflexivity].
  apply (release_steps j (mkState _ _ _ _ _)).
Qed.

Lemma inherit_steps c src dst i sec : Pres R (inheritEncryption cfg c src dst i sec).
Proof. unfold inheritEncryption. calls with first [apply inherited_steps | apply CloneKey_steps; permitted]. Qed.
(** Everything known so far, on the host and on the plugin's state. *)
Ltac known :=
  first
  [ apply imageInfo_steps | apply image_exists_steps | apply dial_steps | apply mirrorStatus_steps | apply listSnaps_steps | apply inherit_steps | apply params_steps | apply owner_steps
  | apply usedBytes_steps | apply record_steps | apply mapped_steps | apply active_steps | apply isLuks_steps
  | apply grow_steps | apply wait_steps | apply fscrypt_steps | apply background_steps
  | apply flatten_all_steps
  | apply Passphrase_steps; permitted | apply DeleteKey_steps; permitted | apply CloneKey_steps; permitted | apply RotateKey_steps; [permitted|]; intros
  | apply on_host_steps | apply connected__steps; intros ].
Ltac whole := repeat (call known).

Lemma create_steps req : Pres RB (CreateVolume (H := HL) cfg req).
Proof.
  unfold CreateVolume, create_on, create_fresh, create_existing, clone_tail, create_encryption, provision, scheduleFlatten,
    encryptionSourceSpec, imageSize, imageMetaGet, resizeImage, ensureNamespace. whole.
Qed.
Lemma delete_steps req : Pres RB (DeleteVolume (H := HL) cfg req).
Proof.
  unfold DeleteVolume, on_cluster, delete_key, remove_image, flattenChildren. whole.
Qed.
Lemma snapshot_steps req : Pres RB (CreateSnapshot (H := HL) cfg req).
Proof. unfold CreateSnapshot, claim_name, snapshot_on, imageSize. whole. by apply same_host. Qed.
Lemma delete_snapshot_steps req : Pres RB (DeleteSnapshot (H := HL) cfg req).
Proof.
  unfold DeleteSnapshot, on_cluster, delete_snapshot_on, snapshot_keys, imageMetaRemove. simpl. unfold imageMetaRemove. whole.
  apply same_host. intros s. unfold release_name. by destruct (snapNames s !! _).
Qed.
Lemma list_pools_steps {A} (entries : list string → string → string → list string → op (list A)) l :
  (∀ c i loc imgs, Pres R (entries c i loc imgs)) → Pres R (list_pools cfg entries l).
Proof.
  intros He. induction l as [|[i cc] l IH]; simpl; whole; try apply IH; try apply He. unfold listImages. whole.
Qed.
Lemma volume_entries_steps c i loc imgs : Pres R (volume_entries (H := HL) c i loc imgs).
Proof. induction imgs as [|img imgs IH]; simpl; whole; apply IH. Qed.
Lemma snapshot_entries_steps c i loc imgs : Pres R (snapshot_entries (H := HL) c i loc imgs).
Proof. induction imgs as [|img imgs IH]; simpl; whole; apply IH. Qed.
Lemma list_groups_steps sec l : Pres R (list_groups (H := HL) cfg sec l).
Proof.
  induction l as [|[i cc] l IH]; simpl; whole; [|apply IH]. induction (Unmarshal a).1 as [|n ns IHn]; simpl; whole; [apply IHn|..].
  - unfold groupImageList. whole.
  - apply IHn.
Qed.
Lemma each_member_steps (f : VolumeRef → op unit) l : (∀ m, Pres R (f m)) → Pres R (each_member f l).
Proof. intros Hf. induction l as [|m l IH]; simpl; whole; [apply Hf|apply IH]. Qed.
Lemma blocklist_steps c l : Pres R (blocklist_all (H := HL) c l).
Proof. induction l as [|w l IH]; simpl; whole; apply IH. Qed.
Lemma range_all_steps c v l : Pres R (range_all (H := HL) c v l).
Proof. induction l as [|w l IH]; simpl; whole; apply IH. Qed.
Lemma find_record_steps v l : Pres R (find_record (H := HL) cfg v l).
Proof. induction l as [|e l IH]; simpl; whole; apply IH. Qed.
Lemma stage_steps req : Pres R (NodeStage (H := HL) cfg req).
Proof.
  unfold NodeStage, staged_device, lookupDevice, stage_map, fenceStaleWatchers, mapWithFallback, mapImage, recordDevice,
    stageDevice, volumePassphrase, encryptionPassphraseFor, ensureLuksOpen, stage_filesystem, ensureFormatted, mounted.
  whole. apply blocklist_steps.
Qed.
Lemma unstage_steps req : Pres R (NodeUnstage (H := HL) cfg req).
Proof. unfold NodeUnstage, closeLuks, unmap_device, disposeNbdLog, clearDevice. whole. Qed.
Lemma publish_steps req : Pres R (NodePublish (H := HL) cfg req).
Proof. unfold NodePublish, publishBlock, mounted, lookupDevice. whole. Qed.
Lemma expand_steps req : Pres R (NodeExpand (H := HL) cfg req).
Proof. unfold NodeExpand, resizeLuks, encryptionDescriptor, encryptionPassphraseFor. whole. Qed.
Lemma rotate_steps req : Pres R (RotateEncryptionKey (H := HL) cfg req).
Proof.
  unfold RotateEncryptionKey, rotationBackingDevice, luksBackingDevice, findStagedDevice, encryptionDescriptor,
    encryptionPassphraseFor, luksAddKey, luksRemoveKey. whole. apply find_record_steps.
Qed.
Lemma nbd_records_steps l : Pres R (nbd_records (H := HL) cfg l).
Proof. induction l as [|e l IH]; simpl; unfold readRecordFile; whole; apply IH. Qed.
Lemma heal_all_steps live l : Pres R (heal_all (H := HL) cfg live l).
Proof. induction l as [|[path rec] l IH]; simpl; unfold reattachNBD; whole; apply IH. Qed.
Lemma heal_steps : Pres R (Heal (H := HL) cfg).
Proof. unfold Heal, mappedNBDDevices. whole; first [apply nbd_records_steps | apply heal_all_steps]. Qed.

Lemma routes_steps : Forall (respects RB) (newMux (Serve_ (H := HL) cfg)).
Proof.
  unfold newMux, required_routes, when, Serve_. simpl.
  repeat apply Forall_cons_2; try apply Forall_nil_2; try (apply handle_respects; [apply _|]; simpl; intros req).
  all: try first [apply create_steps | apply delete_steps | apply snapshot_steps | apply delete_snapshot_steps].
  all: try (apply on_host_steps; first [apply stage_steps | apply unstage_steps | apply publish_steps | apply expand_steps | apply rotate_steps]).
  { intros b s. simpl. reflexivity. }
  all: unfold ExpandVolume, on_cluster, resizeImage, NodeUnpublish, GetCapacity, GetVolumeHealth, ModifyVolume, image_exists,
    ReclaimSpace, NodeReclaimSpace, ListVolumes, ListSnapshots, FenceClusterNetwork, UnfenceClusterNetwork, blocklistRange,
    ListClusterFence, GetFenceClients, clientAddrCIDR, EnableVolumeReplication, DisableVolumeReplication, PromoteVolume,
    DemoteVolume, ResyncVolume, GetVolumeReplicationInfo, lastMirrorSnapshotUnix, replConn, flattenForMirror, add_schedule,
    CreateVolumeGroup, ModifyVolumeGroup, DeleteVolumeGroup, GetVolumeGroup, ListVolumeGroups, on_group, on_cluster,
    groupImageList, groupImageAdd, groupImageRemove; whole.
  all: try first [ apply list_pools_steps; intros; first [apply volume_entries_steps | apply snapshot_entries_steps]
                 | apply range_all_steps | apply list_groups_steps | apply each_member_steps; intros; whole ].
Qed.

End plugin.

Section claim.
  Context {H : Type} `{Host H} `{Files H} `{TempFiles H} `{Env H} `{Clock H} `{FsCrypt H} `{Network H} `{MapIter} (cfg : Config).
  Abbreviation HL := (H * list event)%type.

(** The plugin as it is, with nothing recorded yet; and what a step recorded. *)
Definition recording (s : Backend_ H) : Backend_ HL :=
  mkState (host s, []) (snapIndex s) (snapNames s) (flattenInFlight s) (jobs s).
Definition recorded_by {A} (step : Backend_ HL → Backend_ HL * A) (s : Backend_ H) : list event :=
  (host (step (recording s)).1).2.
Lemma tidy_step_empty {A} (step : Backend_ HL → Backend_ HL * A) s :
  RB tidy (recording s) (step (recording s)).1 → left_behind ∅ (recorded_by step s) = ∅.
Proof.
  intros (t & Ht & Htidy). unfold recorded_by. simpl in Ht. rewrite Ht. specialize (Htidy ∅). set_solver.
Qed.

End claim.
End rbdtrace.
