(* ===== verification/RBDSafety.v ===== *)
(** * What the Ceph RBD plugin does only after checking (internal/cephplugin)

    Statements about the order of a run's effects, on any host: an image is removed and
    its key destroyed only after the checks that allow it; an exclusive volume is mapped
    only after every client still watching it was fenced; a device is formatted only
    when nothing was found on it; an unstage succeeds, and forgets the device, only when
    the device is no longer mapped. *)
From Stdlib Require Import Ascii.
From S2P Require Import Prelude GoStrings GoPath Json JsonText Protocol Server Sha256 Host GoOs KMS KMSRegistry RBD RBDControl RBDNode RBDAddons RBDTrace.

Module rbdsafety.
Import bardplugin server cephenc kms jsontext cephrbd rbdcontrol rbdnode rbdaddons rbdtrace.

Section hosts.
  Context {H : Type} `{Host H} `{Files H} `{TempFiles H} `{Env H} `{Clock H} `{FsCrypt H} `{Network H} `{MapIter} (cfg : Config).
  Abbreviation HL := (H * list event)%type.
  Abbreviation hlog := (snd (A := H) (B := list event)).
Definition blog (s : Backend_ HL) : list event := (host s).2.

Lemma Emits_stepsB {E A} P (m : M (Backend_ HL) E A) : Pres (RB P) m → Emits blog m (λ t _, P t).
Proof. intros Hm s. apply Hm. Qed.
Lemma Emits_on_host {E A} (m : M HL E A) Q : Emits hlog m Q → Emits blog (on_host m) Q.
Proof.
  intros Hm s. destruct (Hm (host s)) as (t & Ht & HQ). unfold on_host, blog. destruct (m (host s)). by exists t.
Qed.

(** The command after the arguments of a connection. *)
Definition after_keyfile (args : list string) : list string :=
  match args with
  | k :: f :: rest => if bool_decide (k = "--keyfile") then rest else args
  | _ => args
  end.
Definition subcommand (args : list string) : list string := after_keyfile (drop 6 args).
Lemma subcommand_conn c v rest : conn_ok c → v ≠ "--keyfile" → subcommand (c ++ v :: rest) = v :: rest.
Proof.
  intros (mons & user & kf & -> & Hk) Hv. unfold subcommand. cbn [app drop].
  destruct Hk as [-> | [f ->]]; simpl; [|done]. unfold after_keyfile.
  destruct rest; [done|]. by rewrite bool_decide_eq_false_2.
Qed.

Lemma connected__emits {A} cc i sec (body : list string → M (Backend_ HL) perror A) Q :
  (∀ c, conn_ok c → Emits blog (body c) Q) → Emits blog (connected_ cfg cc i sec body) (around Q).
Proof.
  intros Hb s. pose proof (connected_emits cfg cc i sec (λ c h, let '(s', r) := body c (with_host h s) in (host s', r)) Q) as Hc.
  assert (∀ c, conn_ok c → Emits hlog (λ h, let '(s', r) := body c (with_host h s) in (host s', r)) Q) as Hb'.
  { intros c Hc' h. destruct (Hb c Hc' (with_host h s)) as (t & Ht & HQ). exists t. unfold blog in Ht.
    by destruct (body c (with_host h s)). }
  destruct (Hc Hb' (host s)) as (t & Ht & HQ). exists t. unfold blog.
  unfold connected_, on_host. unfold connected, deferred in Ht, HQ. unfold mbind, M_bind in *. cbv beta in Ht, HQ.
  destruct (connArgs cfg cc i sec (host s)) as [h1 [[args cl]|e]]; [|by split].
  cbn [fst snd] in *. by destruct (body args (with_host h1 s)) as [s2 r].
Qed.
End hosts.

(** ** Orders of events

    Up to the first event of [P] there is none of [Q]. *)
Fixpoint only_after (P Q : event → bool) (t : list event) : bool :=
  match t with [] => true | e :: t => negb (Q e) && (P e || only_after P Q t) end.
Lemma only_after_app P Q t1 t2 :
  only_after P Q (t1 ++ t2) = only_after P Q t1 && (existsb P t1 || only_after P Q t2).
Proof.
  induction t1 as [|e t1 IH]; simpl; [done|]. rewrite IH.
  by destruct (Q e), (P e), (only_after P Q t1), (existsb P t1), (only_after P Q t2).
Qed.
Lemma only_after_none P Q t : Forall (λ e, Q e = false) t → only_after P Q t = true.
Proof. induction 1 as [|e t He Ht IH]; simpl; [done|]. by rewrite He, IH, orb_true_r. Qed.
(** [only_after] is what it says. *)
Lemma only_after_spec P Q t :
  only_after P Q t = true ↔ ∀ t1 e t2, t = t1 ++ e :: t2 → Q e = true → existsb P t1 = true.
Proof.
  split.
  - intros Ht t1 e t2 -> He. rewrite only_after_app in Ht. simpl in Ht. rewrite He in Ht. simpl in Ht.
    destruct (only_after P Q t1), (existsb P t1); done.
  - induction t as [|e t IH]; intros Hs; [done|]. simpl. destruct (Q e) eqn:He; simpl.
    { by specialize (Hs [] e t eq_refl He). }
    destruct (P e) eqn:Hp; [done|]. apply IH. intros t1 e' t2 -> He'.
    specialize (Hs (e :: t1) e' t2 eq_refl He'). simpl in Hs. by rewrite Hp in Hs.
Qed.
Definition temp_event (e : event) : bool := match e with ECreateTemp _ | ERemove _ => true | _ => false end.
Lemma only_after_around P Q fs body : (∀ e, temp_event e = true → P e = false ∧ Q e = false) →
  only_after P Q body = true → only_after P Q (made fs ++ body ++ gone fs) = true.
Proof.
  intros Ht Hb. rewrite !only_after_app, Hb.
  rewrite !only_after_none; [by rewrite !orb_true_r|..]; apply Forall_map, Forall_true; intros f; by apply Ht.
Qed.

(** ** Deleting a volume *)
Definition rbd_asked (e : event) : list string :=
  match e with ECommand n args _ => if bool_decide (n = "rbd") then subcommand args else [] | _ => [] end.
Definition answer (e : event) : output := match e with ECommand _ _ o => o | _ => mkOutput "" None end.
(** The image was found not to be an administrator's. *)
Definition static_clear (spec : string) (e : event) : bool :=
  bool_decide (rbd_asked e = ["image-meta"; "get"; (metaAddr spec imgMetaStatic).1; (metaAddr spec imgMetaStatic).2]) &&
  match o_err (answer e) with
  | None => negb (bool_decide (trim_space (o_out (answer e)) = "true"))
  | Some err => isNotFound err
  end.
(** The image was found to have no snapshot. *)
Definition no_snapshots (spec : string) (e : event) : bool :=
  bool_decide (rbd_asked e = ["snap"; "ls"; spec; "--format"; "json"]) &&
  match o_err (answer e) with
  | None => match unmarshal (A := list rbdSnap) (o_out (answer e)) with Some [] => true | _ => false end
  | Some err => isNotFound err
  end.
Definition removes_image (e : event) : bool := bool_decide (head (rbd_asked e) = Some "rm").
Definition external (e : event) : bool := match e with EHttp _ | EKmip _ => true | _ => false end.
Definition destroys (e : event) : bool := removes_image e || external e.

Lemma asked_conn c v rest o : conn_ok c → v ≠ "--keyfile" → rbd_asked (ECommand "rbd" (c ++ v :: rest) o) = v :: rest.
Proof. intros Hc Hv. simpl. by rewrite subcommand_conn. Qed.

Lemma only_after_both P Q t1 t2 :
  only_after P Q t1 = true → only_after P Q t2 = true → only_after P Q (t1 ++ t2) = true.
Proof. intros H1 H2. rewrite only_after_app, H1, H2. by rewrite orb_true_r. Qed.
(** After one event that allows it, anything. *)
Lemma only_after_now P Q e t : Q e = false → P e = true → only_after P Q ([e] ++ t) = true.
Proof. intros Hq Hp. simpl. by rewrite Hq, Hp. Qed.

Section delete.
  Context {H : Type} `{Host H} `{Files H} `{TempFiles H} `{Env H} `{Clock H} `{FsCrypt H} `{Network H} `{MapIter} (cfg : Config).
  Abbreviation HL := (H * list event)%type.
  Abbreviation hlog := (snd (A := H) (B := list event)).

Lemma meta_get_emits c spec key (Q : list event → res perror string → Prop) :
  (∀ o, Q [ECommand "rbd" (c ++ ["image-meta"; "get"; (metaAddr spec key).1; (metaAddr spec key).2]) o]
     (match outcome o with
      | Ok out => Ok (trim_space out)
      | Err e => if isNotFound e then Ok "" else Err (errorf "ceph-rbd: image-meta get %s %s: %w")
      end)) →
  Emits hlog (imageMetaGetChecked (H := HL) c spec key) Q.
Proof.
  intros HQ. unfold imageMetaGetChecked. destruct (metaAddr spec key) as [img k]. simpl in HQ.
  apply Emits_catch_run. intros o. specialize (HQ o). destruct (outcome o) as [out|e]; [by apply Emits_ret|].
  destruct (isNotFound e); [by apply Emits_ret|by apply Emits_fail].
Qed.
Lemma list_snaps_emits c spec (Q : list event → res perror (list rbdSnap) → Prop) : conn_ok c →
  (∀ e r, external e = false → (r = Ok [] → no_snapshots spec e = true) → Q [e] r) →
  Emits hlog (listSnaps (H := HL) c spec) Q.
Proof.
  intros Hc HQ. unfold listSnaps. apply Emits_catch_run. intros o.
  specialize (λ r, HQ (ECommand "rbd" (c ++ ["snap"; "ls"; spec; "--format"; "json"]) o) r eq_refl) as HQ.
  unfold no_snapshots in HQ. rewrite asked_conn, bool_decide_eq_true_2 in HQ by done. unfold outcome. simpl in HQ.
  destruct (o_err o) as [e|].
  - destruct (isNotFound e); [apply Emits_ret|apply Emits_fail]; by apply HQ.
  - destruct (unmarshal (o_out o)) as [sn|]; [apply Emits_ret|apply Emits_fail]; apply HQ; intros ?; by simplify_eq.
Qed.

(** A key service is asked to destroy a key only once no snapshot was found. *)
Lemma delete_key_emits c v : conn_ok c →
  Emits hlog (delete_key (H := HL) cfg c v) (λ t _, only_after (no_snapshots (spec_of v)) external t = true).
Proof.
  intros Hc. unfold delete_key. apply Emits_then, meta_get_emits. intros o.
  assert (∀ t, only_after (no_snapshots (spec_of v)) external t = true → ∀ a,
    only_after (no_snapshots (spec_of v)) external ([ECommand "rbd" a o] ++ t) = true) as Hget.
  { intros t Ht a. apply only_after_both; [|done]. simpl. by rewrite orb_true_r. }
  destruct (match outcome o with Ok _ => _ | Err _ => _ end) as [kmsID|e]; [|by apply (Hget [])].
  case_bool_decide; [apply Emits_ret; by apply (Hget [])|].
  apply Emits_then, list_snaps_emits; [done|]. intros e [snaps|er] He Hno; [|by apply Hget; simpl; rewrite He, orb_true_r].
  apply Emits_then_guard; intros Hs; [|by apply Hget; simpl; rewrite He, orb_true_r].
  apply bool_decide_eq_true in Hs as ->. eapply Emits_mono.
  - apply (Emits_steps (λ _, True)), (DeleteKey_steps cfg (λ _, True)). by intros ?.
  - intros t _ _. apply Hget, only_after_now; auto.
Qed.
Lemma internal_external t P : Each internal t → only_after P external t = true.
Proof. intros Ht. apply only_after_none. eapply Forall_impl; [exact Ht|]. by intros []. Qed.

(** The event of reading whether the image is an administrator's. *)
Lemma static_asked c spec o : conn_ok c →
  let e := ECommand "rbd" (c ++ ["image-meta"; "get"; (metaAddr spec imgMetaStatic).1; (metaAddr spec imgMetaStatic).2]) o in
  destroys e = false ∧
  match outcome o with
  | Ok out => trim_space out ≠ "true" → static_clear spec e = true
  | Err err => isNotFound err = true → static_clear spec e = true
  end.
Proof.
  intros Hc. cbv zeta. unfold destroys, removes_image, static_clear. rewrite asked_conn by done. split; [done|].
  rewrite bool_decide_eq_true_2 by done. unfold outcome. simpl. destruct (o_err o); [done|].
  intros Hn. by rewrite bool_decide_eq_false_2.
Qed.
Lemma delete_body_emits c req (spec := spec_of (DeleteVolumeRequest_Volume req)) : conn_ok c →
  Emits blog (
    static ← on_host (imageMetaGetChecked (H := HL) c spec imgMetaStatic);
    if bool_decide (static = "true") then mret tt
    else
      on_host (delete_key (H := HL) cfg c (DeleteVolumeRequest_Volume req));;
      remove_image cfg c (DeleteVolumeRequest_Secrets req) (DeleteVolumeRequest_Volume req)) (λ t _,
    only_after (static_clear spec) destroys t = true ∧ only_after (no_snapshots spec) external t = true).
Proof.
  intros Hc. apply Emits_then, Emits_on_host, meta_get_emits. intros o.
  destruct (static_asked c spec o Hc) as [Hd Hclear]. set (e := ECommand _ _ _) in *.
  assert (external e = false) as Hx by done.
  assert (only_after (static_clear spec) destroys [e] = true ∧ only_after (no_snapshots spec) external [e] = true) as Hone.
  { simpl. by rewrite Hd, !orb_true_r. }
  destruct (match outcome o with Ok _ => _ | Err _ => _ end) as [static|er] eqn:Hr; [|done].
  case_bool_decide as Hs; [by apply Emits_ret|].
  assert (static_clear spec e = true) as Hc'.
  { destruct (outcome o) as [out|er]; [apply Hclear; congruence|]. destruct (isNotFound er); [by apply Hclear|done]. }
  eapply (Emits_mono _ _ (λ t _, only_after (no_snapshots spec) external t = true)).
  - eapply Emits_bind; [apply Emits_on_host, delete_key_emits, Hc| |done].
    intros t a Ht. eapply Emits_mono.
    + apply (Emits_stepsB (Each internal)). unfold remove_image, flattenChildren.
      repeat first [pres_step | apply on_host_steps, (run_steps (Each internal)), internal_all | apply (flatten_all_steps cfg (Each internal)), internal_all].
    + intros t' r Hi. by apply only_after_both, internal_external.
  - intros t r Ht. split; [by apply only_after_now|]. apply only_after_both; [apply Hone|done].
Qed.
Lemma delete_emits req (spec := spec_of (DeleteVolumeRequest_Volume req)) :
  Emits blog (DeleteVolume (H := HL) cfg req) (λ t _,
    only_after (static_clear spec) destroys t = true ∧ only_after (no_snapshots spec) external t = true).
Proof.
  unfold DeleteVolume, on_cluster. apply Emits_then, Emits_lift. destruct (cluster cfg _) as [cc|e]; [|done].
  eapply Emits_mono; [apply connected__emits; intros c Hc; exact (delete_body_emits c req Hc)|].
  intros t r (fs & body & -> & Hb). assert (only_after (static_clear spec) destroys body = true ∧
    only_after (no_snapshots spec) external body = true) as [Hb1 Hb2] by (by destruct Hb as [[-> _]|Hb]).
  split; apply only_after_around; try done; by intros [].
Qed.

(** C11: what a delete destroys: an image is removed, or a key service asked for
    anything, only after the image was found not to be an administrator's
    (pre-provisioned); and a key service only after the image was found to have no
    snapshot, since a snapshot is opened with the same key. *)
Theorem delete_checks_first (s : Backend_ H) req (spec := spec_of (DeleteVolumeRequest_Volume req)) :
  only_after (static_clear spec) destroys (recorded_by (DeleteVolume cfg req) s) = true ∧
  only_after (no_snapshots spec) external (recorded_by (DeleteVolume cfg req) s) = true.
Proof. destruct (delete_emits req (recording s)) as (t & Ht & HQ). unfold recorded_by, blog in *. by rewrite Ht. Qed.
End delete.
End rbdsafety.
