(* ===== verification/RBDStage.v ===== *)
(** * Staging a Ceph RBD volume (internal/cephplugin)

    The dangerous commands of NodeStage are mapping an image, formatting a device and
    making a LUKS header; each is run only right after what allows it, whatever the
    host answers.  The dangerous step of NodeUnstage is forgetting a device. *)
From Stdlib Require Import Ascii.
From S2P Require Import Prelude GoStrings GoPath Json JsonText Protocol Server Sha256 Host GoOs KMS KMSRegistry RBD RBDControl RBDNode RBDAddons RBDBench RBDTrace RBDSafety.

Module rbdstage.
Import bardplugin server cephenc kms jsontext cephrbd rbdcontrol rbdnode rbdaddons rbdbench rbdtrace rbdsafety.

(** ** Dangerous commands *)
Definition maps (n : string) (a : list string) : bool :=
  bool_decide (n ∈ ["rbd"; "rbd-nbd"]) && bool_decide (head (subcommand a) = Some "map").
Definition luks_formats (n : string) (a : list string) : bool :=
  bool_decide (n = "cryptsetup") && bool_decide (take 2 a = ["-q"; "luksFormat"]).
Definition critical (n : string) (a : list string) : bool :=
  maps n a || has_prefix "mkfs." n || luks_formats n a.

(** ** What allows them *)

(** The clients an answer of [rbd status] says are watching the image. *)
Definition watchers_of (spec : string) (e : event) : option (list string) :=
  if bool_decide (rbd_asked e = ["status"; spec; "--format"; "json"]) then
    match o_err (answer e) with
    | None => (λ st, map the (the st)) <$> unmarshal (A := one "watchers" (list (one "address" string))) (o_out (answer e))
    | Some _ => None
    end
  else None.
(** A client was blocklisted. *)
Definition blocklists (w : string) (e : event) : bool :=
  match e with
  | ECommand n a o => bool_decide (n = "ceph") && bool_decide (drop (length a - 4) a = ["osd"; "blocklist"; "add"; w]) &&
      bool_decide (o_err o = None)
  | _ => false
  end.
(** The image's watchers were looked up, and each blocklisted after that. *)
Fixpoint fenced (spec : string) (t : list event) : bool :=
  match t with
  | [] => false
  | e :: t =>
      match watchers_of spec e with
      | Some ws => forallb (λ w, bool_decide (w = "") || existsb (blocklists w) t) ws
      | None => false
      end || fenced spec t
  end.
(** The last event shows no signature on the device; that it has no LUKS header. *)
Definition just (f : event → bool) (t : list event) : bool := match last t with Some e => f e | None => false end.
Definition blank (dev : string) (e : event) : bool :=
  match e with
  | ECommand n a o => bool_decide (n = "blkid") && bool_decide (a = ["-o"; "value"; "-s"; "TYPE"; dev]) &&
      bool_decide (trim_space (o_out o) = "")
  | _ => false
  end.
Definition not_luks (dev : string) (e : event) : bool :=
  match e with
  | ECommand n a o => bool_decide (n = "cryptsetup") && bool_decide (a = ["isLuks"; dev]) && negb (bool_decide (o_err o = None))
  | _ => false
  end.
(** After [t], the command may be run for the request. *)
Definition may_run (req : NodeStageRequest) (t : list event) (n : string) (a : list string) : bool :=
  (negb (maps n a) || negb (NodeStageRequest_Exclusive req) || fenced (spec_of (NodeStageRequest_Volume req)) t) &&
  (negb (has_prefix "mkfs." n) || just (blank (List.last a "")) t) &&
  (negb (luks_formats n a) || just (not_luks (nth 2 a "")) t).
(** Every command of [t], run after [t0], may be run. *)
Definition guarded (req : NodeStageRequest) (t0 t : list event) : Prop :=
  ∀ t1 n a o t2, t = t1 ++ ECommand n a o :: t2 → may_run req (t0 ++ t1) n a = true.

Lemma fenced_app_l spec t1 t2 : fenced spec t2 = true → fenced spec (t1 ++ t2) = true.
Proof. intros Ht. induction t1 as [|e t1 IH]; simpl; [done|]. by rewrite IH, orb_true_r. Qed.
Lemma fenced_app_r spec t1 t2 : fenced spec t1 = true → fenced spec (t1 ++ t2) = true.
Proof.
  induction t1 as [|e t1 IH]; simpl; [done|]. intros [Hw|Hf]%orb_true_iff; [|by rewrite (IH Hf), orb_true_r].
  destruct (watchers_of spec e) as [ws|]; [|done]. apply orb_true_iff. left.
  rewrite forallb_forall in Hw |- *. intros w Hin. specialize (Hw w Hin). rewrite existsb_app.
  apply orb_true_iff in Hw as [-> | ->]; by rewrite ?orb_true_r.
Qed.
Lemma just_app f t1 t2 : just f t2 = true → just f (t1 ++ t2) = true.
Proof. unfold just. rewrite last_app. by destruct (last t2). Qed.
Lemma may_run_app req t0 t n a : may_run req t n a = true → may_run req (t0 ++ t) n a = true.
Proof.
  unfold may_run. rewrite !andb_true_iff, !orb_true_iff. intros [[[[Hm|Hm]|Hm] [Hf|Hf]] [Hl|Hl]];
    repeat split; auto using fenced_app_l, just_app.
Qed.
Lemma may_run_calm req t n a : critical n a = false → may_run req t n a = true.
Proof. unfold critical, may_run. rewrite !orb_false_iff. by intros [[-> ->] ->]. Qed.
Lemma guarded_nil req t0 : guarded req t0 [].
Proof. intros t1 n a o t2 Ht. by destruct t1. Qed.
Lemma guarded_app req t0 t1 t2 : guarded req t0 t1 → guarded req (t0 ++ t1) t2 → guarded req t0 (t1 ++ t2).
Proof.
  intros H1 H2 u n a o v Ht. apply app_eq_app in Ht as (k & [[-> Hk]|[-> ->]]).
  - destruct k as [|x k]; simplify_eq/=.
    + specialize (H2 [] n a o v). rewrite !app_nil_r in H2. by apply H2.
    + by eapply H1.
  - rewrite app_assoc. by eapply H2.
Qed.
(** What came before only helps. *)
Lemma guarded_weaken req t0 t : guarded req [] t → guarded req t0 t.
Proof. intros Ht t1 n a o t2 Heq. by eapply may_run_app, Ht. Qed.
Lemma guarded_both req t1 t2 : guarded req [] t1 → guarded req [] t2 → guarded req [] (t1 ++ t2).
Proof. intros H1 H2. apply guarded_app; [done|by apply guarded_weaken]. Qed.
Lemma guarded_one req t0 n a o : may_run req t0 n a = true → guarded req t0 [ECommand n a o].
Proof. intros Hm t1 n' a' o' t2 Ht. destruct t1 as [|? []]; simplify_eq/=. by rewrite app_nil_r. Qed.

(** Events none of which is dangerous. *)
Definition calm (e : event) : Prop := match e with ECommand n a _ => critical n a = false | _ => True end.
Lemma guarded_calm req t0 t : Each calm t → guarded req t0 t.
Proof.
  intros Ht t1 n a o t2 ->. apply may_run_calm. unfold Each in Ht. rewrite Forall_app, Forall_cons in Ht. apply Ht.
Qed.
Lemma meta_calm c rest : conn_ok c → critical "rbd" (c ++ "image-meta" :: rest) = false.
Proof. intros Hc. unfold critical, maps. by rewrite subcommand_conn. Qed.
Lemma tools_calm n a : n ∈ tools → critical n a = false.
Proof.
  intros Hn. unfold critical, maps, luks_formats. unfold tools in Hn. repeat (apply elem_of_cons in Hn as [->|Hn]; [reflexivity|]).
  by apply elem_of_nil in Hn.
Qed.
#[global] Instance calm_quiet : Quiet (Each calm).
Proof.
  refine {| allowed n a := critical n a = false; allowed_meta := meta_calm; allowed_tool := tools_calm |}.
  - intros. by apply Each_one.
  - intros. by apply Each_one.
  - intros. by apply Each_one.
  - intros. by apply Each_bracket.
Defined.
#[global] Instance calm_loose : Loose (Each calm).
Proof. split; intros; by apply Each_one. Qed.

Section stage.
  Context {H : Type} `{Host H} `{Files H} `{TempFiles H} `{Env H} `{Clock H} `{FsCrypt H} `{Network H} `{MapIter} (cfg : Config).
  Abbreviation HL := (H * list event)%type.
  Abbreviation hlog := (snd (A := H) (B := list event)).
  Context (req : NodeStageRequest).
  Abbreviation ok_trace := (λ t _, guarded req [] t).

(** Calm steps, and sequences. *)
Lemma calm_emits {E A} (m : M HL E A) : Pres (logged (Each calm)) m → Emits hlog m ok_trace.
Proof. intros Hm. eapply Emits_mono; [by apply Emits_steps|]. intros t r Ht. by apply guarded_calm. Qed.
Lemma seq_emits {E A B} (m : M HL E A) (f : A → M HL E B) :
  Emits hlog m ok_trace → (∀ a, Emits hlog (f a) ok_trace) → Emits hlog (m ≫= f) ok_trace.
Proof.
  intros Hm Hf. eapply Emits_bind; [exact Hm| |done]. intros t a Ht. eapply Emits_mono; [apply Hf|].
  intros t' r Ht'. by apply guarded_both.
Qed.
Lemma around_guarded {A} (t : list event) (r : res perror A) : around ok_trace t r → guarded req [] t.
Proof.
  intros (fs & b & -> & Hb). assert (guarded req [] b) as Hb' by (destruct Hb as [[-> _]|Hb]; [apply guarded_nil|done]).
  assert (∀ fs, guarded req [] (made fs) ∧ guarded req [] (gone fs)) as Hf.
  { intros fs'. split; apply guarded_calm, Forall_map, Forall_true; done. }
  repeat apply guarded_both; try done; apply Hf.
Qed.

(** Formatting follows a blank probe. *)
Lemma mkfs_safe t dev fs args o : blank dev (ECommand "blkid" ["-o"; "value"; "-s"; "TYPE"; dev] o) = true →
  may_run req (t ++ [ECommand "blkid" ["-o"; "value"; "-s"; "TYPE"; dev] o]) ("mkfs." +:+ fs) (args ++ [dev]) = true.
Proof.
  intros Hb. unfold may_run. assert (maps ("mkfs." +:+ fs) (args ++ [dev]) = false) as -> by done.
  assert (luks_formats ("mkfs." +:+ fs) (args ++ [dev]) = false) as -> by done.
  rewrite List.last_last. assert (just (blank dev) (t ++ [ECommand "blkid" ["-o"; "value"; "-s"; "TYPE"; dev] o]) = true) as ->; [|by rewrite orb_true_r].
  by apply just_app.
Qed.
Lemma format_emits dev fs args : Emits hlog (ensureFormatted (H := HL) dev fs args) ok_trace.
Proof.
  unfold ensureFormatted. apply Emits_then, Emits_run_out. intros o.
  assert (∀ n a o, critical n a = false → guarded req [] [ECommand n a o]) as Hc.
  { intros n a o' Hc. by apply guarded_one, may_run_calm. }
  destruct (negb _) eqn:Hb; [apply Emits_ret; by apply Hc|]. apply negb_false_iff in Hb.
  apply Emits_then, Emits_run_or. intros o'. destruct (o_err o'); [|apply Emits_ret];
    (apply (guarded_app _ _ [_]); [by apply Hc|]); apply guarded_one, (mkfs_safe []); simpl; by rewrite Hb, !bool_decide_eq_true_2.
Qed.

(** A LUKS header follows a probe that found none. *)
Lemma luks_safe t dev kf args o : not_luks dev (ECommand "cryptsetup" ["isLuks"; dev] o) = true →
  may_run req (t ++ [ECommand "cryptsetup" ["isLuks"; dev] o]) "cryptsetup" (["-q"; "luksFormat"; dev; "--key-file"; kf] ++ args) = true.
Proof.
  intros Hb. unfold may_run. assert (∀ a, maps "cryptsetup" a = false) as -> by done.
  assert (has_prefix "mkfs." "cryptsetup" = false) as -> by done. simpl. by apply just_app.
Qed.
Lemma calm_run {E} f name args : critical name args = false → Emits hlog (run_err (F := E) f (run (H := HL) name args)) ok_trace.
Proof. intros Hc. apply calm_emits, Pres_run_err. by apply (run_steps (Each calm)). Qed.
Lemma is_luks_emits dev (Q : list event → res perror bool → Prop) :
  (∀ o, Q [ECommand "cryptsetup" ["isLuks"; dev] o] (Ok (bool_decide (o_err o = None)))) →
  Emits hlog (isLuksDevice (H := HL) dev) Q.
Proof.
  intros HQ. unfold isLuksDevice. apply Emits_catch_run. intros o. apply Emits_ret. specialize (HQ o). unfold outcome.
  by destruct (o_err o).
Qed.
Lemma luks_open_emits dev mapper pass d args : Emits hlog (ensureLuksOpen (H := HL) dev mapper pass d args) ok_trace.
Proof.
  unfold ensureLuksOpen. eapply Emits_mono; [|apply around_guarded]. apply with_keyfile_emits. intros kf.
  apply Emits_then, is_luks_emits. intros o.
  assert (guarded req [] [ECommand "cryptsetup" ["isLuks"; dev] o]) as Hp by (by apply guarded_one, may_run_calm).
  apply (Emits_bind _ _ _ (λ t _, guarded req [ECommand "cryptsetup" ["isLuks"; dev] o] t)).
  - destruct (bool_decide _) eqn:Ho; [apply Emits_ret, guarded_nil|]. apply Emits_then, Emits_run_or. intros o'.
    destruct (o_err o'); [|apply Emits_ret]; apply (guarded_app _ _ [_] []); try apply guarded_nil;
      apply guarded_one, (luks_safe []); simpl; by rewrite Ho, !bool_decide_eq_true_2.
  - intros t _ Ht. eapply Emits_mono; [|intros t' r Ht'; apply (guarded_app _ _ [_]); [done|]; apply guarded_app; [done|by apply guarded_weaken, Ht']].
    apply seq_emits; [apply calm_emits|].
    + unfold luksActive. repeat pres_step. by apply (run_steps (Each calm)).
    + intros active. destruct active; [apply Emits_ret, guarded_nil|]. apply seq_emits; [|intros; apply Emits_ret, guarded_nil].
      by apply calm_run.
  - intros t e Ht. by apply (guarded_app _ _ [_]).
Qed.

(** Fencing, when it succeeds, leaves no watcher that was not blocklisted. *)
Lemma blocklist_emits c ws :
  Emits hlog (blocklist_all (H := HL) c ws) (λ t r, Each calm t ∧
    (is_Ok r = true → Forall (λ w, the w = "" ∨ existsb (blocklists (the w)) t = true) ws)).
Proof.
  induction ws as [|w ws IH]; simpl; [by apply Emits_ret; split; [apply Forall_nil_2|]|].
  eapply (Emits_bind _ _ _ (λ t r, Each calm t ∧ (is_Ok r = true → the w = "" ∨ existsb (blocklists (the w)) t = true))).
  - case_bool_decide as Hw; [apply Emits_ret; split; [apply Forall_nil_2|auto]|].
    apply Emits_then, Emits_run_or. intros o. destruct (o_err o) as [e|] eqn:Ho.
    + split; [by apply Each_one|done].
    + apply Emits_ret. split; [by apply Each_one|]. intros _. right. simpl. rewrite Ho, length_app, drop_app_length'; [|simpl; lia].
      by rewrite !bool_decide_eq_true_2.
  - intros t a [Ht Hw]. eapply Emits_mono; [exact IH|]. intros t' r [Ht' Hws]. split; [by apply Forall_app|].
    intros Hr. constructor; [|eapply Forall_impl; [by apply Hws|]]; simpl; [|intros w' Hw'; revert Hw'].
    + rewrite existsb_app. destruct (Hw eq_refl) as [?| ->]; auto.
    + rewrite existsb_app. intros [?| ->]; [auto|]. rewrite orb_true_r. auto.
  - intros t e [Ht _]. done.
Qed.
Lemma fence_emits cc c i spec sec : conn_ok c →
  Emits hlog (fenceStaleWatchers (H := HL) cfg cc c i spec sec) (λ t r, Each calm t ∧ (is_Ok r = true → fenced spec t = true)).
Proof.
  intros Hc. unfold fenceStaleWatchers. apply Emits_then, Emits_run_or. intros o.
  set (e := ECommand _ _ _). assert (Each calm [e]) as He.
  { apply Each_one. simpl. unfold critical, maps. by rewrite subcommand_conn. }
  assert (o_err o = None → watchers_of spec e =
    (λ st, map the (the st)) <$> unmarshal (A := one "watchers" (list (one "address" string))) (o_out o)) as Hst.
  { intros Ho. unfold watchers_of, e. rewrite asked_conn, bool_decide_eq_true_2 by done. simpl. by rewrite Ho. }
  destruct (o_err o) as [er|]; [done|]. specialize (Hst eq_refl).
  destruct (unmarshal (o_out o)) as [st|]; [|by apply Emits_fail]. simpl in Hst.
  destruct (the st) as [|w ws] eqn:Hws.
  { apply Emits_ret. rewrite app_nil_r. split; [done|]. intros _. simpl. by rewrite Hst. }
  eapply Emits_mono; [apply ceph_conn_emits; [intros h; apply keyFor_silent|intros c'; apply blocklist_emits]|].
  intros t r (fs & b & -> & Hb). assert (Each calm b) as Hb' by (destruct Hb as [[-> _]|[Hb _]]; [apply Forall_nil_2|done]).
  split; [apply Forall_app; split; [done|]; by apply Each_bracket|].
  intros Hr. destruct Hb as [[_ Hb]|[_ Hb]]; [by rewrite Hr in Hb|]. specialize (Hb Hr). cbn [app fenced]. rewrite Hst.
  apply orb_true_iff. left. apply forallb_forall. intros x Hx. rewrite <-list_elem_of_In in Hx.
  apply list_elem_of_fmap in Hx as (y & -> & Hy). rewrite Forall_forall in Hb. rewrite !existsb_app.
  destruct (Hb y Hy) as [-> | ->]; by rewrite ?orb_true_r.
Qed.

(** Once that is done, the image may be mapped, by either mounter. *)
Definition mounter_command (e : event) : Prop := match e with ECommand n _ _ => n ∈ ["rbd"; "rbd-nbd"] | _ => True end.
Lemma map_emits t0 cc c spec cookie :
  (NodeStageRequest_Exclusive req = true → fenced (spec_of (NodeStageRequest_Volume req)) t0 = true) →
  Emits hlog (mapWithFallback (H := HL) cc c req spec cookie) (λ t _, guarded req t0 t).
Proof.
  intros Hf. assert (Pres (logged (Each mounter_command)) (mapWithFallback (H := HL) cc c req spec cookie)) as Hp.
  { unfold mapWithFallback, mapImage. repeat first [pres_step | apply Pres_logged, Closed_mkdir, closed_nil | apply Pres_logged, Closed_run; intros; apply Each_one; simpl].
    all: destruct (bool_decide _); set_solver. }
  intros h. destruct (Hp h) as (t & Ht & He). exists t. split; [done|]. intros t1 n a o t2 ->.
  unfold Each in He. rewrite Forall_app, Forall_cons in He. destruct He as (_ & Hn & _). simpl in Hn. unfold may_run.
  assert (has_prefix "mkfs." n = false ∧ luks_formats n a = false) as [-> ->].
  { unfold luks_formats. repeat (apply elem_of_cons in Hn as [->|Hn]; [done|]). by apply elem_of_nil in Hn. }
  destruct (NodeStageRequest_Exclusive req); [|by rewrite orb_true_r]. by rewrite fenced_app_r, orb_true_r by auto.
Qed.

(** The rest is calm. *)
Ltac calmly :=
  apply calm_emits;
  repeat first [pres_step | apply (run_or_steps (Each calm)) | apply (run_out_steps (Each calm)) | apply (mkdir_steps (Each calm))
    | apply (wait_steps (Each calm)) | apply (write_file_steps (Each calm)) | apply (record_steps cfg (Each calm))
    | apply (mapped_steps (Each calm)) | apply (grow_steps (Each calm)) | apply (fscrypt_steps (Each calm))
    | apply (Passphrase_steps cfg (Each calm)) | by apply tools_calm; compute_done | by apply meta_ok_conn ].
Lemma stage_map_emits cc c : conn_ok c → Emits hlog (stage_map (H := HL) cfg cc c req) ok_trace.
Proof.
  intros Hc. unfold stage_map.
  apply (Emits_bind _ _ _ (λ t r, Each calm t ∧ (is_Ok r = true → NodeStageRequest_Exclusive req = true →
    fenced (spec_of (NodeStageRequest_Volume req)) t = true))).
  - destruct (NodeStageRequest_Exclusive req); [|apply Emits_ret; split; [apply Forall_nil_2|done]].
    eapply Emits_mono; [by apply fence_emits|]. intros t r [Ht Hf]. auto.
  - intros t a [Ht Hf]. assert (∀ t', guarded req t t' → guarded req [] (t ++ t')) as Hg.
    { intros t' Ht'. apply guarded_app; [by apply guarded_calm|done]. }
    eapply Emits_bind; [apply (map_emits t); auto| |intros t' e Ht'; by apply Hg]. intros t' m Ht'.
    eapply Emits_mono; [|intros t2 r Ht2; apply Hg, guarded_app; [exact Ht'|apply guarded_weaken, Ht2]].
    unfold recordDevice, os_or. calmly.
  - intros t e [Ht _]. by apply guarded_calm.
Qed.
Lemma stage_device_emits c dev : conn_ok c → Emits hlog (stageDevice (H := HL) cfg c req dev) ok_trace.
Proof.
  intros Hc. unfold stageDevice. destruct (_ || _); [apply Emits_ret, guarded_nil|].
  apply seq_emits; [unfold volumePassphrase, encryptionPassphraseFor; calmly|]. intros pass.
  apply seq_emits; [apply Emits_lift, guarded_nil|]. intros args.
  apply seq_emits; [apply luks_open_emits|]. intros. apply Emits_ret, guarded_nil.
Qed.
Lemma filesystem_emits c dev : conn_ok c → Emits hlog (stage_filesystem (H := HL) cfg c req dev) ok_trace.
Proof.
  intros Hc. unfold stage_filesystem. apply Emits_then_guard; [|intros; apply guarded_nil]. intros _.
  apply Emits_then_guard; [|intros; apply guarded_nil]. intros _.
  apply seq_emits; [apply format_emits|]. intros _. unfold mounted, volumePassphrase, encryptionPassphraseFor. calmly.
Qed.
Lemma stage_emits : Emits hlog (NodeStage (H := HL) cfg req) ok_trace.
Proof.
  unfold NodeStage. apply Emits_then, Emits_lift. destruct (cluster cfg _) as [cc|e]; [|apply guarded_nil].
  eapply Emits_mono; [apply connected_emits|intros t r Ht; by apply (around_guarded t r)]. intros c Hc.
  apply seq_emits; [unfold staged_device, lookupDevice; calmly|]. intros staged.
  apply seq_emits; [destruct staged; [apply Emits_ret, guarded_nil|by apply stage_map_emits]|]. intros dev.
  apply seq_emits; [by apply stage_device_emits|]. intros mountDev.
  destruct (NodeStageRequest_Block req); [|by apply filesystem_emits]. apply Emits_guard; intros _; apply guarded_nil.
Qed.
End stage.

(** ** Unstaging *)
Definition unmaps (e : event) : bool :=
  match e with ECommand n a _ => bool_decide (n ∈ ["rbd"; "rbd-nbd"]) && bool_decide (head a = Some "unmap") | _ => false end.
(** The path is not mounted any more; the mapper is closed; the device has no size. *)
Definition unmounted (path : string) (e : event) : bool :=
  match e with
  | ECommand n a o => bool_decide (n = "umount" ∧ a = [path]) &&
      match o_err o with None => true | Some er => isNotMounted er end
  | _ => false
  end.
Definition mapper_closed (mapper : string) (e : event) : bool :=
  match e with
  | ECommand n a o => bool_decide (n = "cryptsetup") &&
      ((bool_decide (a = ["status"; mapper]) && match o_err o with None => negb (contains "is active" (o_out o)) | Some _ => true end) ||
       (bool_decide (a = ["close"; mapper]) && bool_decide (o_err o = None)))
  | _ => false
  end.
Definition device_gone (dev : string) (e : event) : bool :=
  match e with
  | ECommand n a o => bool_decide (n = "blockdev" ∧ a = ["--getsize64"; dev]) &&
      match o_err o with None => negb (bool_decide (0 < ParseInt_ (trim_space (o_out o)))%Z) | Some _ => true end
  | _ => false
  end.
Definition forgets (p : string) (e : event) : bool := match e with ERemove q => bool_decide (q = p) | _ => false end.

Section unstage.
  Context {H : Type} `{Host H} `{Files H} `{TempFiles H} `{Env H} `{Clock H} `{FsCrypt H} `{Network H} `{MapIter} (cfg : Config).
  Abbreviation HL := (H * list event)%type.
  Abbreviation hlog := (snd (A := H) (B := list event)).
  Context (path : string).
  Abbreviation forgets' := (forgets (deviceRecordPath cfg path)).
Definition neutral (t : list event) : Prop := Forall (λ e, unmaps e = false ∧ forgets' e = false) t.

Lemma neutral_after P t : neutral t → only_after P unmaps t = true ∧ only_after P forgets' t = true.
Proof. intros Ht. split; apply only_after_none; (eapply Forall_impl; [exact Ht|]); by intros e []. Qed.
Lemma umount_emits : Emits hlog (run_unless (H := HL) isNotMounted "ceph-rbd: umount %s: %w" "umount" [path])
  (λ t r, neutral t ∧ (is_Ok r = true → existsb (unmounted path) t = true)).
Proof.
  unfold run_unless. apply Emits_catch_run. intros o. unfold outcome.
  destruct (o_err o) as [e|] eqn:Ho; [destruct (isNotMounted e) eqn:He|]; [apply Emits_ret|apply Emits_fail|apply Emits_ret];
    (split; [by repeat constructor|]); simpl; [|done|]; by rewrite Ho, ?He, bool_decide_eq_true_2.
Qed.
Lemma close_emits mapper : Emits hlog (closeLuks (H := HL) mapper)
  (λ t r, neutral t ∧ (is_Ok r = true → existsb (mapper_closed mapper) t = true)).
Proof.
  unfold closeLuks, luksActive. apply Emits_then, Emits_catch_run. intros o. unfold outcome. apply Emits_ret.
  assert (∀ o, neutral [ECommand "cryptsetup" ["status"; mapper] o]) as Hn by (by repeat constructor).
  destruct (match o_err o with None => _ | Some _ => _ end) as [out|e] eqn:Ho.
  - destruct (contains _ out) eqn:Ha.
    + apply Emits_then, Emits_run_or. intros o'. destruct (o_err o') eqn:Ho'; [|apply Emits_ret]; (split; [by repeat constructor|]); [done|].
      intros _. simpl. by rewrite Ho', !(bool_decide_eq_true_2 (_ = _)), !orb_true_r by done.
    + apply Emits_ret. split; [apply Hn|]. intros _. simpl. destruct (o_err o); simplify_eq. by rewrite Ha, bool_decide_eq_true_2.
  - apply Emits_ret. split; [apply Hn|]. intros _. simpl. destruct (o_err o); simplify_eq. by rewrite bool_decide_eq_true_2.
Qed.
Lemma unmap_emits rec dev : Emits hlog (unmap_device (H := HL) rec dev)
  (λ t r, Forall (λ e, forgets' e = false) t ∧ (is_Ok r = true → existsb (device_gone dev) t = true)).
Proof.
  unfold unmap_device. apply Emits_then, Emits_run_out. intros o. apply Emits_then.
  unfold deviceMapped. apply Emits_catch_run. intros o'. apply Emits_ret. apply Emits_guard; (split; [by repeat constructor|]); [|done].
  intros _. apply orb_true_iff. right. simpl. rewrite bool_decide_eq_true_2 by done. unfold outcome in *. destruct (o_err o'); [done|].
  by rewrite orb_false_r.
Qed.
Lemma dispose_emits rec : Emits hlog (disposeNbdLog (H := HL) rec) (λ t _, neutral t).
Proof.
  unfold disposeNbdLog. destruct (_ || _); [by apply Emits_ret; constructor|].
  case_bool_decide; apply Emits_then, Emits_run_out; intros o; apply Emits_ret; by repeat constructor.
Qed.
Lemma clear_emits : Emits hlog (clearDevice (H := HL) cfg path) (λ t r, (stateDir cfg = "" ∨ existsb forgets' t = true) ∧ is_Ok r = true).
Proof.
  unfold clearDevice. case_bool_decide; [apply Emits_ret; auto|]. intros h. unfold os_try.
  exists (gone [deviceRecordPath cfg path]). split; [apply remove_log|]. simpl. rewrite bool_decide_eq_true_2 by done. auto.
Qed.
(** From the unmap on. *)
Definition forgotten (dev : string) (t : list event) (r : res perror unit) : Prop :=
  (dev ≠ "" → only_after (device_gone dev) forgets' t = true) ∧
  (is_Ok r = true → (dev ≠ "" → existsb (device_gone dev) t = true) ∧ (stateDir cfg = "" ∨ existsb forgets' t = true)).
Lemma forget_emits rec dev :
  Emits hlog ((if bool_decide (dev = "") then mret tt else unmap_device (H := HL) rec dev);; disposeNbdLog rec;; clearDevice cfg path)
    (forgotten dev).
Proof.
  apply (Emits_bind _ _ _ (λ t r, Forall (λ e, forgets' e = false) t ∧
    (is_Ok r = true → dev ≠ "" → existsb (device_gone dev) t = true))).
  - case_bool_decide; [by apply Emits_ret|]. eapply Emits_mono; [apply unmap_emits|]. intros t r []. auto.
  - intros t a [Ht Hg]. specialize (Hg eq_refl). eapply Emits_bind; [apply dispose_emits| |].
    + intros t' b Hn. eapply Emits_mono; [apply clear_emits|]. intros t2 r [Hf _]. split.
      * intros Hd. by rewrite only_after_app, only_after_none, Hg by done.
      * intros _. split; [intros Hd; by rewrite existsb_app, Hg|]. destruct Hf as [?|Hf]; [by left|right].
        by rewrite !existsb_app, Hf, !orb_true_r.
    + intros t' e Hn. split; [|done]. intros _. apply only_after_both; [by apply only_after_none|by apply neutral_after].
  - intros t e [Ht _]. split; [|done]. intros _. by apply only_after_none.
Qed.
Lemma unstage_emits rec dev :
  Emits hlog (run_unless (H := HL) isNotMounted "ceph-rbd: umount %s: %w" "umount" [path];;
    closeLuks (luksMapperName path);;
    (if bool_decide (dev = "") then mret tt else unmap_device rec dev);; disposeNbdLog rec;; clearDevice cfg path)
    (λ t r, only_after (unmounted path) unmaps t = true ∧ only_after (mapper_closed (luksMapperName path)) unmaps t = true ∧
       forgotten dev t r).
Proof.
  eapply Emits_bind; [apply umount_emits| |].
  2: { intros t e [Hn _]. repeat split; try (by apply neutral_after); try done; intros; by apply neutral_after. }
  intros t1 a [Hn1 Hu]. eapply Emits_bind; [apply close_emits| |].
  2: { intros t e [Hn _]. repeat split; try done; intros; apply only_after_both; by apply neutral_after. }
  intros t2 b [Hn2 Hc]. eapply Emits_mono; [apply forget_emits|]. intros t3 r [Ha Hr].
  split; [|split; [|split; [|intros Hok; destruct (Hr Hok) as [Hg Hf]; split]]].
  - rewrite only_after_app, Hu by done. rewrite andb_true_r. by apply neutral_after.
  - apply only_after_both; [by apply neutral_after|]. rewrite only_after_app, Hc by done. rewrite andb_true_r. by apply neutral_after.
  - intros Hd. apply only_after_both; [by apply neutral_after|]. apply only_after_both; [by apply neutral_after|auto].
  - intros Hd. by rewrite !existsb_app, Hg, !orb_true_r.
  - rewrite !existsb_app. destruct Hf as [?| ->]; [by left|right]. by rewrite !orb_true_r.
Qed.
End unstage.

(** What a run of a node operation, from a host with nothing recorded, records. *)
Definition node_record {H A} (m : H * list event → (H * list event) * A) (h : H) : list event := (m (h, [])).1.2.
Section claims.
  Context {H : Type} `{Host H} `{Files H} `{TempFiles H} `{Env H} `{Clock H} `{FsCrypt H} `{Network H} `{MapIter} (cfg : Config).


(** The device the record of the staging path names, empty without one. *)
Definition recorded_device (path : string) (h : H) : string :=
  match (readDeviceRecord cfg path h).2 with Ok rec => dr_Device rec | Err _ => "" end.
Lemma read_record_silent path (h : H) :
  (readDeviceRecord cfg path (h, [] : list event)).1.2 = [] ∧
  (readDeviceRecord cfg path (h, [] : list event)).2 = (readDeviceRecord cfg path h).2.
Proof.
  unfold readDeviceRecord, catch, os_get. case_bool_decide; [done|]. simpl. unfold silent. simpl.
  by destruct (ReadFile _ h) as [h' [d|e]].
Qed.
Lemma read_record_ok path (h : H) : ∃ rec, (readDeviceRecord cfg path h).2 = Ok rec.
Proof.
  unfold readDeviceRecord, catch, os_get. case_bool_decide; [eauto|]. destruct (ReadFile _ h) as [h' [d|e]]; simpl; eauto.
Qed.

(** A step that records nothing. *)
Lemma silently {S E A B} (log : S → list event) (m : M S E A) (f : A → M S E B) Q s s1 a :
  m s = (s1, Ok a) → log s1 = log s → (∃ t, log (f a s1).1 = log s1 ++ t ∧ Q t (f a s1).2) →
  ∃ t, log ((m ≫= f) s).1 = log s ++ t ∧ Q t ((m ≫= f) s).2.
Proof. intros Hm Hl Hf. unfold mbind, M_bind. rewrite Hm, <-Hl. exact Hf. Qed.

End claims.

(** ** On a bench *)
Definition ex_dev : string := "/dev/rbd0".
Definition ex_status : json := JObj [("watchers", JArr [JObj [("address", JStr "10.0.0.9:0/7")]])].
Definition ex_stage : NodeStageRequest :=
  mkNodeStageRequest ex_volume "/stage/1" "" [] false false ∅ true ∅ "" ∅.
Definition commands_of (t : list event) : list (list string) :=
  omap (λ e, match e with ECommand n a _ => Some (n :: (if bool_decide (n = "rbd") then subcommand a else a)) | _ => None end) t.
(** A fresh exclusive volume another client still watches: fenced, mapped, formatted,
    mounted, in this order. *)
Definition ex_stage_bench : bench :=
  mkBench (script [("rbd", ["status"; ex_spec; "--format"; "json"], says (print ex_status));
                   ("rbd", ["map"; ex_spec], says ex_dev);
                   ("blockdev", ["--getsize64"; ex_dev], says "1048576")]) ∅ 0.
Example stage_example :
  commands_of (node_record (NodeStage ex_config ex_stage) ex_stage_bench) =
    [["rbd"; "status"; ex_spec; "--format"; "json"];
     ["ceph"; "--conf"; "/csi-ceph-conf-"; "--id"; "admin"; "osd"; "blocklist"; "add"; "10.0.0.9:0/7"];
     ["rbd"; "map"; ex_spec]; ["blockdev"; "--getsize64"; ex_dev];
     ["blkid"; "-o"; "value"; "-s"; "TYPE"; ex_dev];
     ["mkfs.ext4"; "-m0"; "-Enodiscard,lazy_itable_init=1,lazy_journal_init=1"; ex_dev];
     ["findmnt"; "-n"; "-o"; "SOURCE"; "--mountpoint"; "/stage/1"]; ["mount"; "-t"; "ext4"; ex_dev; "/stage/1"];
     ["resize2fs"; ex_dev]].
Proof. vm_compute. reflexivity. Qed.
(** An error of blkid counts as an empty device: the device is formatted. *)
Example stage_formats_unreadable :
  ["mkfs.ext4"; "-m0"; "-Enodiscard,lazy_itable_init=1,lazy_journal_init=1"; ex_dev] ∈
  commands_of (node_record (NodeStage ex_config ex_stage) (mkBench
    (script [("rbd", ["status"; ex_spec; "--format"; "json"], says (print (JObj [])));
             ("rbd", ["map"; ex_spec], says ex_dev); ("blockdev", ["--getsize64"; ex_dev], says "1048576");
             ("blkid", ["-o"; "value"; "-s"; "TYPE"; ex_dev], fails "blkid: error: /dev/rbd0: Input/output error")]) ∅ 0)).
Proof. vm_compute. set_solver. Qed.
(** Unstaging after it: the record is there, the device is probed, the record goes; and
    while the device is still there, the call fails and the record stays. *)
Definition staged : bench := (NodeStage ex_config ex_stage ex_stage_bench).1.
Definition ex_unstage : NodeUnstageRequest := mkNodeUnstageRequest ex_volume "/stage/1".
Example unstage_example :
  recorded_device ex_config "/stage/1" staged = ex_dev ∧
  is_Ok (NodeUnstage ex_config ex_unstage staged).2 = false ∧
  recorded_device ex_config "/stage/1" (NodeUnstage ex_config ex_unstage staged).1 = ex_dev ∧
  (let gone := mkBench (script [("blockdev", ["--getsize64"; ex_dev], fails "No such device")]) (b_files staged) 0 in
   is_Ok (NodeUnstage ex_config ex_unstage gone).2 = true ∧
   recorded_device ex_config "/stage/1" (NodeUnstage ex_config ex_unstage gone).1 = "").
Proof. vm_compute. done. Qed.
End rbdstage.
