(* ===== verification/RBDMemory.v ===== *)
(** * What the Ceph RBD plugin remembers (internal/cephplugin)

    The images being flattened in the background, over every interleaving of requests
    and background work; the record of a staged device, written and read back; and the
    wait for a device, which ends. *)
From Stdlib Require Import Ascii.
From S2P Require Import Prelude GoStrings GoPath Json JsonText Protocol Server Sha256 Host GoOs KMS KMSRegistry RBD RBDControl RBDNode RBDAddons RBDBench.

Module rbdmemory.
Import bardplugin server cephenc kms jsontext cephrbd rbdcontrol rbdnode rbdaddons rbdbench.

Section memory.
  Context {H : Type} `{Host H} `{Files H} `{TempFiles H} `{Env H} `{Clock H} `{FsCrypt H} `{Network H} `{MapIter} (cfg : Config).
  Abbreviation hop A := (M H perror A).
  Abbreviation op A := (M (Backend_ H) perror A).

(** ** Background flattens *)

(** The images marked are those of the waiting jobs, each waiting once. *)
Definition flattens_ok (s : Backend_ H) : Prop :=
  flattenInFlight s = list_to_set (j_spec <$> jobs s) ∧ NoDup (j_spec <$> jobs s).
Definition keeps (s s' : Backend_ H) : Prop := flattens_ok s → flattens_ok s'.
#[local] Instance keeps_preorder : PreOrder keeps.
Proof. split; [intros s Hs; exact Hs|]. intros s1 s2 s3. unfold keeps. auto. Qed.

Lemma same_flattens (f : Backend_ H → Backend_ H) s :
  flattenInFlight (f s) = flattenInFlight s → jobs (f s) = jobs s → keeps s (f s).
Proof. intros Hf Hj. unfold keeps, flattens_ok. by rewrite Hf, Hj. Qed.
Lemma on_host_keeps {E A} (m : M H E A) : Pres keeps (on_host m).
Proof. intros s. unfold on_host. destruct (m (host s)) as [h r]. by apply (same_flattens (with_host h)). Qed.
Lemma connected_keeps {A} cc i sec (body : list string → op A) :
  (∀ c, Pres keeps (body c)) → Pres keeps (connected_ cfg cc i sec body).
Proof.
  intros Hb. unfold connected_. apply Pres_bind; [apply _|apply on_host_keeps|]. intros [c cl] s. specialize (Hb c s). simpl.
  destruct (body c s) as [s' r]. simpl in *. etrans; [exact Hb|]. by apply (same_flattens (with_host _)).
Qed.
Lemma release_flattens j s : let s' := (flatten_and_release cfg j s).1 in
  flattenInFlight s' = flattenInFlight s ∖ {[ j_spec j ]} ∧ jobs s' = jobs s.
Proof. unfold flatten_and_release, catch, on_host. by destruct (flatten_run cfg j (host s)) as [h r]. Qed.
Lemma background_keeps i sec spec gated : Pres keeps (backgroundFlatten cfg i sec spec gated).
Proof.
  intros s [Hf Hn]. unfold backgroundFlatten. unfold mbind, M_bind, gets. simpl. case_bool_decide as Hin; [done|]. simpl.
  assert (spec ∉ j_spec <$> jobs s) as Hnew by (rewrite Hf in Hin; by rewrite elem_of_list_to_set in Hin).
  destruct (flattenAsync cfg); simpl.
  - unfold flattens_ok. simpl. rewrite fmap_app, list_to_set_app_L, Hf. simpl. split; [set_solver|].
    apply NoDup_app. split; [done|]. split; [set_solver|by apply NoDup_singleton].
  - destruct (release_flattens (mkJob i sec spec gated) (set_inflight (λ f, {[spec]} ∪ f) s)) as [Hr Hj].
    unfold flattens_ok. rewrite Hr, Hj. simpl. split; [|done]. set_solver.
Qed.
Lemma flatten_all_keeps i sec l : Pres keeps (flatten_all cfg i sec l).
Proof.
  induction l as [|[f tr] l IH]; simpl; [by apply Pres_ret, _|]. apply Pres_bind; [apply _| |done].
  destruct (_ || _); [apply Pres_ret, _|apply background_keeps].
Qed.
Lemma worker_keeps i : Pres keeps (flatten_worker cfg i).
Proof.
  intros s [Hf Hn]. unfold flatten_worker. destruct (jobs s !! i) as [j|] eqn:Hj; [|done].
  destruct (release_flattens j (mkState (host s) (snapIndex s) (snapNames s) (flattenInFlight s) (take i (jobs s) ++ drop (S i) (jobs s)))) as [Hr Hjs].
  unfold flattens_ok. rewrite Hr, Hjs. simpl. rewrite Hf. rewrite <-delete_take_drop.
  assert (j_spec <$> jobs s ≡ₚ j_spec j :: (j_spec <$> delete i (jobs s))) as Hp.
  { rewrite <-fmap_cons. by apply fmap_Permutation, delete_Permutation. }
  rewrite Hp in Hn. apply NoDup_cons in Hn as [Hnew Hn]. split; [|done].
  rewrite (list_to_set_perm_L _ _ Hp). simpl. rewrite <-(elem_of_list_to_set (C := gset string)) in Hnew. set_solver.
Qed.

(** Down to what moves the plugin's memory. *)
Ltac remembers := repeat first
  [ pres_step | apply on_host_keeps | apply connected_keeps; intros | apply background_keeps | apply flatten_all_keeps
  | apply Pres_modify; intros ? ; by apply same_flattens ].
Lemma delete_snapshot_keeps req : Pres keeps (DeleteSnapshot cfg req).
Proof.
  unfold DeleteSnapshot, on_cluster. remembers. apply Pres_modify. intros s. apply same_flattens; unfold release_name; by destruct (snapNames s !! _).
Qed.
Lemma routes_keep : Forall (respects keeps) (newMux (Serve_ cfg)).
Proof.
  unfold newMux, required_routes, when, Serve_. simpl.
  repeat apply Forall_cons_2; try apply Forall_nil_2; try (apply handle_respects; [apply _|]; simpl; intros req).
  all: try apply delete_snapshot_keeps.
  { intros b s. simpl. reflexivity. }
  all: unfold CreateVolume, create_on, create_fresh, clone_tail, provision, scheduleFlatten, DeleteVolume, on_cluster, remove_image,
    flattenChildren, CreateSnapshot, claim_name, ExpandVolume, GetCapacity, GetVolumeHealth, ModifyVolume, ReclaimSpace,
    ListVolumes, ListSnapshots, FenceClusterNetwork, UnfenceClusterNetwork, blocklistRange, ListClusterFence, GetFenceClients,
    EnableVolumeReplication, DisableVolumeReplication, PromoteVolume, DemoteVolume, ResyncVolume, GetVolumeReplicationInfo,
    replConn, flattenForMirror, CreateVolumeGroup, ModifyVolumeGroup, DeleteVolumeGroup, GetVolumeGroup, ListVolumeGroups, on_group, on_cluster.
  all: remembers.
Qed.

(** The plugin runs: a request is served, or a background flatten gets its turn. *)
Inductive plugin_step : Backend_ H → Backend_ H → Prop :=
  | step_request path b s : plugin_step s (serve (newMux (Serve_ cfg)) path b s).1
  | step_flatten i s : plugin_step s (flatten_worker cfg i s).1.
Definition fresh_plugin (h : H) : Backend_ H := mkState h ∅ ∅ ∅ [].

End memory.

(** ** The record of a device *)
#[global] Instance wire_laws_deviceRecord : WireLaws deviceRecord.
Proof.
  apply struct_laws. intros [] Hok. unfold record_ok in Hok. simpl in Hok. rewrite !Forall_cons in Hok. revert Hok.
  change no_record with (mkDeviceRecord zero zero zero zero zero zero zero zero zero).
  cbv beta iota delta [read_deviceRecord fields_deviceRecord dr_Device dr_UnmapOptions dr_Instance dr_Pool dr_Image dr_Mounter
    dr_Cookie dr_LogFile dr_LogStrategy].
  wire_fields.
Qed.
Lemma json_ok_fields fs : Forall (λ p, utf8_ok p.1 ∧ match p.2 with Some j => json_ok j | None => True end) fs →
  json_ok (JObj (emit fs)).
Proof. induction 1 as [|[k [j|]] fs [Hk Hj] Hf IH]; simpl in *; auto. Qed.
Lemma text_ok (t : string) : utf8_ok t → json_ok (enc t).
Proof. simpl. unfold utf8_ok. intros Ht. by rewrite Ht. Qed.
Lemma record_text rec : record_ok rec → json_ok (enc rec).
Proof.
  intros Hok. unfold record_ok in Hok. rewrite !Forall_cons in Hok. destruct_and! Hok.
  apply json_ok_fields. unfold fields_deviceRecord, fldo, fld.
  repeat (apply Forall_cons_2; [split; [vm_compute; reflexivity|]|]); try apply Forall_nil_2; cbn [snd]; try destruct (is_empty _);
    first [done | by apply text_ok].
Qed.
(** What is no JSON is the older format, the device alone. *)
Lemma slash_is_no_json data : has_prefix "/" data = true → unmarshal (A := deviceRecord) data = None.
Proof.
  destruct data as [|a data]; [done|]. unfold has_prefix. simpl. intros Ha.
  destruct (decide ("/"%char = a)) as [<-|]; [reflexivity|done].
Qed.

(** The record of a staged device survives: once the write succeeded, reading the
    record back gives every field of it; and a record of the older format, the device
    path alone, still reads as that device. *)
Theorem device_record_roundtrip {H} `{Host H} `{Files H} (cfg : Config) path rec (h h' : H) :
  (∀ p d m h h', WriteFile p d m h = (h', None) → (ReadFile p h').2 = Ok d) →
  stateDir cfg ≠ "" → record_ok rec → dr_Device rec ≠ "" → recordDevice cfg path rec h = (h', Ok tt) →
  (readDeviceRecord cfg path h').2 = Ok rec ∧
  ∀ dev, has_prefix "/" dev = true → decode_record dev = mkDeviceRecord (trim_space dev) "" "" "" "" "" "" "" "".
Proof.
  intros Hwr Hs Hok Hd Hrec. split.
  - unfold recordDevice in Hrec. rewrite bool_decide_eq_false_2 in Hrec by done. unfold mbind, M_bind in Hrec.
    destruct (mkdir_all _ _ _ h) as [h1 [[]|e]]; [|done]. unfold os_or, run_err, os_unit in Hrec.
    destruct (WriteFile _ _ _ h1) as [h2 [e|]] eqn:Hw; [done|]. simplify_eq/=. apply Hwr in Hw.
    unfold readDeviceRecord, catch, os_get. rewrite bool_decide_eq_false_2 by done.
    destruct (ReadFile _ h') as [h3 r]. simpl in *. subst. simpl. unfold decode_record.
    rewrite unmarshal_Marshal by (try apply record_text; done). by rewrite bool_decide_eq_false_2.
  - intros dev Hp. unfold decode_record. by rewrite slash_is_no_json.
Qed.
Definition ex_record : deviceRecord := mkDeviceRecord "/dev/rbd0" "" "c1" "rbd" "csi-vol-1" "krbd" "abc" "" "".
Lemma device_record_roundtrip_witness :
  (readDeviceRecord ex_config "/stage/1" (recordDevice ex_config "/stage/1" ex_record (mkBench (script []) ∅ 0)).1).2 = Ok ex_record.
Proof.
  eapply (device_record_roundtrip ex_config "/stage/1" ex_record (mkBench (script []) ∅ 0)).
  - intros p d m h h' [= <-]. simpl. by rewrite lookup_insert_eq.
  - done.
  - repeat constructor.
  - done.
  - reflexivity.
Defined.
(** ** The wait for a device *)
Section wait.
  Context {H : Type} `{Host H} `{Env H} `{Clock H}.
  Context (sleeps : ∀ d (h : H), (now h + d ≤ now (Sleep d h))%Z) (forward : ∀ n a (h : H), (now h ≤ now (Run n a h).1)%Z).
Definition gave_up : perror := errorf "ceph-rbd: wait for device %s: %w".
Definition timed_out : perror := errorf "ceph-rbd: device %s not ready (size 0) after timeout".
(** Ready, cancelled, or over the deadline. *)
Definition waited (deadline : Z) (x : H * res perror unit) : Prop :=
  x.2 = Ok tt ∨ x.2 = Err gave_up ∨ (x.2 = Err timed_out ∧ (deadline < now x.1)%Z).
Lemma wait_go_ends fuel dev deadline (h : H) :
  (deadline < now h + poll_ns * Z.of_nat fuel)%Z → waited deadline (wait_go (S fuel) dev deadline h).
Proof.
  revert h. induction fuel as [|fuel IH]; intros h Hd; simpl; unfold mbind, M_bind, run_out, gets, modify;
    specialize (forward "blockdev" ["--getsize64"; dev] h); destruct (Run _ _ h) as [h1 o]; simpl in *;
    (case_bool_decide; [by left|]); (destruct (ctx_done h1); [by right; left|]); simpl;
    (case_bool_decide as Ht; [by right; right|]); [lia|].
  apply (IH (Sleep poll_ns h1)). specialize (sleeps poll_ns h1). lia.
Qed.

(** The wait for a mapped device ends: on a clock that a sleep of d moves by at least d
    and nothing moves back, the loop returns within its 68 rounds, with success when the
    device has a size, with the context's error when the request was cancelled, or with
    a timeout, and then more than 20 seconds after it began. *)
Theorem waitForDevice_ends dev (h : H) : waited (now h + deadline_ns) (waitForDevice dev h).
Proof. unfold waitForDevice, mbind, M_bind, gets. apply wait_go_ends. unfold deadline_ns, poll_ns. lia. Qed.
End wait.
(** A device that never appears: 67 sleeps, then the timeout. *)
Lemma waitForDevice_ends_witness :
  let x := waitForDevice "/dev/rbd0" (mkBench (script []) ∅ 0) in
  waited 20000000000 x ∧ x.2 = Err timed_out ∧ now x.1 = (67 * poll_ns)%Z.
Proof.
  split; [|by vm_compute].
  refine (waitForDevice_ends (H := bench) _ _ "/dev/rbd0" (mkBench (script []) ∅ 0)).
  - intros d h. simpl. lia.
  - intros n a h. simpl. lia.
Defined.

(** A clone on a bench: its flatten waits, and is run. *)
Definition ex_clone : CreateVolumeRequest :=
  mkCreateVolumeRequest "pvc-2" 1048576 "c1" "" ∅ ∅ ∅ None (Some ex_volume).
Definition ex_clone_spec : string := "rbd/" +:+ shortName volNamePrefix "pvc-2".
Definition ex_clone_bench : bench := mkBench (λ n a,
  if ends_with ["info"; ex_clone_spec; "--format"; "json"] a
  then says (print (JObj [("size", JNum "1048576")])) else says "") ∅ 0.
Definition ex_cloned : Backend_ bench :=
  (serve (newMux (Serve_ ex_config)) PathCreateVolume (Some (mkBody 0 (Some (enc ex_clone)))) (fresh_plugin ex_clone_bench)).1.
Definition ex_flattened : Backend_ bench := (flatten_worker ex_config 0 ex_cloned).1.
End rbdmemory.
