(* ===== verification/GoFloat.v ===== *)
(** * Go's strconv.ParseFloat, as far as a range check looks at it

    The text of a float as an exact value, and whether the float64 nearest to it lies in
    the unit interval: it is greater than 1 exactly when the value is greater than
    1 + 2^-53 (a tie rounds to even, to 1), and less than 0 exactly when it is less than
    -2^-1075 (half the least subnormal; the tie rounds to -0). *)
From Stdlib Require Import Ascii.
From S2P Require Import Prelude GoStrings.

(** [FNum neg m b e] is ± m * b^e. *)
Inductive float := FNum (neg : bool) (m b e : Z) | FInf (neg : bool) | FNaN.

Definition hex_val (a : ascii) : option Z :=
  let n := Z.of_N (N_of_ascii (lower_ascii a)) in
  if bool_decide (48 ≤ n ≤ 57)%Z then Some (n - 48)%Z
  else if bool_decide (97 ≤ n ≤ 102)%Z then Some (n - 87)%Z else None.
Definition digit_val (hex : bool) (a : ascii) : option Z :=
  match hex_val a with
  | Some d => if hex || bool_decide (d < 10)%Z then Some d else None
  | None => None
  end.

(** The mantissa: its value, the digits after the point, whether a digit was seen, and
    the rest; underscores are skipped and checked later. *)
Fixpoint mantissa (hex : bool) (s : string) (dot : bool) (m frac : Z) (seen : bool) : Z * Z * bool * string :=
  match s with
  | EmptyString => (m, frac, seen, s)
  | String a r =>
      if bool_decide (a = "_"%char) then mantissa hex r dot m frac seen
      else if bool_decide (a = "."%char) then if dot then (m, frac, seen, s) else mantissa hex r true m frac seen
      else match digit_val hex a with
           | Some d => mantissa hex r dot (m * (if hex then 16 else 10) + d)%Z (if dot then frac + 1 else frac)%Z true
           | None => (m, frac, seen, s)
           end
  end.
(** The digits of an exponent, which saturates. *)
Fixpoint exponent (s : string) (e : Z) : Z * string :=
  match s with
  | EmptyString => (e, s)
  | String a r =>
      if bool_decide (a = "_"%char) then exponent r e
      else match digit_val false a with
           | Some d => exponent r (if bool_decide (e < 10000)%Z then e * 10 + d else e)%Z
           | None => (e, s)
           end
  end.
Definition sign_of (s : string) : bool * string :=
  match s with
  | String a r => if bool_decide (a = "-"%char) then (true, r) else if bool_decide (a = "+"%char) then (false, r) else (false, s)
  | EmptyString => (false, s)
  end.
Definition exponent_of (s : string) : option (Z * string) :=
  let '(neg, r) := sign_of s in
  match r with
  | String a _ => match digit_val false a with
                  | Some _ => let '(e, r) := exponent r 0 in Some ((if neg then - e else e)%Z, r)
                  | None => None
                  end
  | EmptyString => None
  end.
(** [underscoreOK]: underscores only between digits, or after a base prefix. *)
Inductive before := BStart | BDigit | BUnderscore | BOther.
Fixpoint underscores_go (hex : bool) (s : string) (prev : before) : bool :=
  match s with
  | EmptyString => match prev with BUnderscore => false | _ => true end
  | String a r =>
      match digit_val hex a with
      | Some _ => underscores_go hex r BDigit
      | None =>
          if bool_decide (a = "_"%char)
          then match prev with BDigit => underscores_go hex r BUnderscore | _ => false end
          else match prev with BUnderscore => false | _ => underscores_go hex r BOther end
      end
  end.
Definition base_prefix (s : string) : option (bool * string) :=
  match s with
  | String "0" (String c r) =>
      let c := lower_ascii c in
      if bool_decide (c ∈ ["b"%char; "o"%char; "x"%char]) then Some (bool_decide (c = "x"%char), r) else None
  | _ => None
  end.
Definition underscoreOK (s : string) : bool :=
  let s := (sign_of s).2 in
  match base_prefix s with
  | Some (hex, r) => underscores_go hex r BDigit
  | None => underscores_go false s BStart
  end.
(** A hexadecimal float: [0x] and something after it. *)
Definition hex_prefix (s : string) : option string :=
  match s with
  | String "0" (String c (String d r)) => if bool_decide (lower_ascii c = "x"%char) then Some (String d r) else None
  | _ => None
  end.
Definition readFloat (s : string) : option float :=
  let '(neg, r) := sign_of s in
  let '(hex, r) := match hex_prefix r with Some r' => (true, r') | None => (false, r) end in
  let '(m, frac, seen, r) := mantissa hex r false 0 0 false in
  if negb seen then None
  else
    let exp := match r with
               | String a r' => if bool_decide (lower_ascii a = (if hex then "p"%char else "e"%char)) then exponent_of r'
                                else if hex then None else Some (0%Z, r)
               | EmptyString => if hex then None else Some (0%Z, r)
               end in
    match exp with
    | Some (e, "") =>
        if negb (contains_char "_" s) || underscoreOK s
        then Some (if hex then FNum neg m 2 (e - 4 * frac) else FNum neg m 10 (e - frac)) else None
    | _ => None
    end.
Definition ParseFloat (s : string) : option float :=
  let '(neg, r) := sign_of s in
  if bool_decide (to_lower r ∈ ["inf"; "infinity"]) then Some (FInf neg)
  else if bool_decide (to_lower s = "nan") then Some FNaN
  else readFloat s.

(** m * b^e ≤ num / 2^k. *)
Definition at_most (m b e num k : Z) : bool :=
  if bool_decide (0 ≤ e)%Z then bool_decide (m * b ^ e * 2 ^ k ≤ num)%Z else bool_decide (m * 2 ^ k ≤ num * b ^ (- e))%Z.
(** [f, err := strconv.ParseFloat(s, 64); !(err != nil || f < 0 || f > 1)]. *)
Definition in_unit_interval (s : string) : bool :=
  match ParseFloat s with
  | Some (FNum true m b e) => at_most m b e 1 1075
  | Some (FNum false m b e) => at_most m b e (2 ^ 53 + 1) 53
  | Some (FInf _) | None => false
  | Some FNaN => true
  end.
Example unit_interval :
  map in_unit_interval ["0"; "1"; "0.5"; ".5"; "5e-1"; "1.0000000000000001"; "-0"; "0x1p-1"; "1_0e-1"] = replicate 9 true ∧
  map in_unit_interval [""; "1.1"; "-0.1"; "1e"; "0x1"; "inf"; "_1"; "1.0000000000000003"; "e5"] = replicate 9 false.
Proof. vm_compute. done. Qed.
(** NaN compares false with every bound. *)
Example nan_passes : in_unit_interval "NaN" = true.
Proof. vm_compute. reflexivity. Qed.
