(* ===== verification/CephFS.v ===== *)
(** * The CephFS plugin (internal/cephfsplugin)

    A volume is a subvolume of a Ceph file system, provisioned with [ceph fs subvolume]
    and mounted with the kernel client, ceph-fuse or through an NFS gateway.  As for the
    RBD plugin the host is a parameter, and the plugin's memory (the names of
    snapshots) is next to it in [Backend_]; the temporary files of a connection are those
    of [RBD.ceph_conn]. *)
From Stdlib Require Import Ascii.
From S2P Require Import Prelude GoStrings GoFloat GoPath Json JsonText Protocol Sha256 Host GoOs KMS KMSRegistry RBD RBDNode.

Module cephfs.
Import bardplugin cephenc kms jsontext.

(** ** Constants *)
Definition defaultUserID : string := "admin".
Definition secretUserID : string := "userID".
Definition secretUserKey : string := "userKey".
Definition mounterFuse : string := "fuse".
Definition mounterNFS : string := "nfs".
Definition ctxPath : string := "path".
Definition paramBackingSnapshot : string := "backingSnapshot".
Definition paramSubvolumeGroup : string := "subvolumeGroup".
Definition paramVolumeNamePrefix : string := "volumeNamePrefix".
Definition paramSnapshotNamePrefix : string := "snapshotNamePrefix".
Definition subvolNamePrefix : string := "bard-".
Definition snapNamePrefix : string := "snap-".
Definition tmpClonePrefix : string := "clonetmp-".
Definition shallowPrefix : string := "shallow-".
Definition ctxNFSServer : string := "nfsServer".
Definition ctxNFSPseudo : string := "nfsPseudo".
Definition defaultSubvolumeGroup : string := "csi".
Definition mutablePinType : string := "pinType".
Definition mutablePinSetting : string := "pinSetting".
Definition ownerMeta : strmap :=
  list_to_map [("csi.storage.k8s.io/pvc/name", "bard.pvcname");
               ("csi.storage.k8s.io/pvc/namespace", "bard.pvcnamespace");
               ("csi.storage.k8s.io/pv/name", "bard.pvname")].

Record ClusterConfig := mkClusterConfig {
  cc_Monitors : list string; cc_FSName : string; cc_UserID : string; cc_Mounter : string;
  cc_NFSCluster : string; cc_NFSServer : string; cc_SubvolumeGroup : string }.
Record Config := mkConfig {
  clusters : gmap string ClusterConfig;
  keyDir : string;
  encKeyDir : string;
  registry : Registry }.
Definition New (clusters : gmap string ClusterConfig) (keyDir : string) : Config := mkConfig clusters keyDir "" ∅.
Definition WithEncryption (keyDir_ : string) (b : Config) : Config := mkConfig (clusters b) (keyDir b) keyDir_ (registry b).

(** ** Error classifiers (runner.go) *)
Definition isNotFound (err : string) : bool :=
  let s := to_lower err in contains "does not exist" s || contains "not found" s || contains "no such" s.
Definition isAlreadyExists (err : string) : bool :=
  let s := to_lower err in contains "already exists" s || contains "file exists" s.
Definition isNotMounted (err : string) : bool :=
  let s := to_lower err in contains "not mounted" s || contains "not currently mounted" s.

(** ** Names *)
Definition subvolumeGroupOf (location : string) : string :=
  match cut_on "/" location with Some (_, group) => group | None => "" end.
Definition cephfsLocation (fs group : string) : string := if bool_decide (group = "") then fs else fs +:+ "/" +:+ group.
Definition withGroup (args : list string) (group : string) : list string :=
  if bool_decide (group = "") then args else args ++ ["--group-name"; group].
Definition cloneGroupArgs (args : list string) (srcGroup targetGroup : string) : list string :=
  withGroup args srcGroup ++ (if bool_decide (targetGroup = "") then [] else ["--target-group-name"; targetGroup]).
Definition resolveSubvolumeGroup (params : strmap) (cc : ClusterConfig) : string :=
  let g := mget params paramSubvolumeGroup in
  if negb (bool_decide (g = "")) then g
  else if negb (bool_decide (cc_SubvolumeGroup cc = "")) then cc_SubvolumeGroup cc
  else defaultSubvolumeGroup.
Definition metaSpec (fs group sub : string) : string :=
  if bool_decide (group = "") then fs +:+ "/" +:+ sub else fs +:+ "/" +:+ group +:+ "/" +:+ sub.
Definition splitMetaSpec (spec : string) : option (string * string * string) :=
  match split_on "/" spec with
  | [fs; group; sub] => Some (fs, group, sub)
  | [fs; sub] => Some (fs, "", sub)
  | _ => None
  end.
Definition subvolName (prefix csiName : string) : string := prefix +:+ sha256.short_hash csiName.
Definition snapName (prefix csiName : string) : string := prefix +:+ sha256.short_hash csiName.
Definition namePrefix (param value def : string) : res perror string :=
  if bool_decide (value = "") then Ok def
  else if contains_any ["/"%char; "@"%char; " "%char; ascii_of_N 9; ascii_of_N 10] value
  then Err (Errorf CodeInvalidArg "cephfs: invalid %s %q (no '/', '@', or whitespace)")
  else Ok value.
Definition nameHashLen : nat := 16.
Definition hash_char (a : ascii) : bool := byte_in 48 57 a || byte_in 97 102 a.
Definition isBardObjectName (name : string) : bool :=
  bool_decide (nameHashLen < String.length name) &&
  all_chars hash_char (String.substring (String.length name - nameHashLen) nameHashLen name).
Definition nfsPseudoPath (sub : string) : string := "/" +:+ sub.
Definition refKey (r : VolumeRef) : string :=
  VolumeRef_Instance r +:+ "|" +:+ VolumeRef_Location r +:+ "|" +:+ VolumeRef_Name r.
Definition splitSnap (name : string) : option (string * string) := cut_last "@" name.
Definition is_shallow (v : VolumeRef) : bool := has_prefix shallowPrefix (VolumeRef_Name v).

(** ** Encryption parameters (encryption.go) *)
Definition validateEncryptionParams (cc : ClusterConfig) (params : strmap) (isClone : bool) : res perror unit :=
  let t := mget params ParamEncryptionType in
  if negb (bool_decide (mget params ParamEncrypted = "true")) then Ok tt
  else if negb (bool_decide (t = "")) && negb (bool_decide (t = EncryptionTypeFile))
  then Err (Errorf CodeInvalidArg "cephfs: only filesystem-level encryption is supported (encryptionType=file/fscrypt), got %q")
  else if bool_decide (cc_Mounter cc = mounterFuse) || bool_decide (cc_Mounter cc = mounterNFS)
  then Err (Errorf CodeInvalidArg "cephfs: encrypted volumes require the kernel mounter (mounter=%q does not support fscrypt)")
  else if bool_decide (mget params paramBackingSnapshot = "true")
  then Err (Errorf CodeInvalidArg "cephfs: a shallow (backingSnapshot) read-only volume cannot be encrypted")
  else if isClone
  then Err (Errorf CodeInvalidArg "cephfs: an encrypted volume cannot be restored from a snapshot or cloned (CephFS subvolume clone does not preserve fscrypt context)")
  else Ok tt.
Definition encryptionVolumeContext (params : strmap) (m : strmap) : strmap :=
  if negb (bool_decide (mget params ParamEncrypted = "true")) then m
  else
    let m := <[ParamEncryptionType := EncryptionTypeFile]> (<[ParamEncrypted := "true"]> m) in
    let id := mget params ParamEncryptionKMSID in
    if bool_decide (id = "") then m else <[ParamEncryptionKMSID := id]> m.

(** ** Mutable parameters (modify.go) *)
Definition pin_ok (pt ps : string) : res perror unit :=
  if bool_decide (pt = "export") then
    match Atoi ps with
    | Some _ => Ok tt
    | None => Err (Errorf CodeInvalidArg "cephfs: pinType export needs an MDS rank (or -1 to unpin), got %q")
    end
  else if bool_decide (pt = "distributed") then
    if negb (bool_decide (ps = "0")) && negb (bool_decide (ps = "1"))
    then Err (Errorf CodeInvalidArg "cephfs: pinType distributed needs pinSetting 0 or 1, got %q") else Ok tt
  else if bool_decide (pt = "random") then
    if in_unit_interval ps then Ok tt
    else Err (Errorf CodeInvalidArg "cephfs: pinType random needs a probability in [0.0, 1.0], got %q")
  else Err (Errorf CodeInvalidArg "cephfs: invalid pinType %q (export|distributed|random)").
Definition validateMutableParams `{MapIter} (p : strmap) : res perror unit :=
  if bool_decide (p = ∅) then Ok tt
  else if negb (forallb (λ k, bool_decide (k = mutablePinType) || bool_decide (k = mutablePinSetting)) (range_keys p))
  then Err (Errorf CodeInvalidArg "cephfs: unsupported mutable parameter %q")
  else
    let pt := mget p mutablePinType in
    let ps := mget p mutablePinSetting in
    if bool_decide (pt = "") || bool_decide (ps = "")
    then Err (Errorf CodeInvalidArg "cephfs: pinType and pinSetting are required together")
    else pin_ok pt ps.

(** ** What the tool answers *)
Abbreviation cephNamed := (one "name" string).
Abbreviation clone_status := (one "status" (one "state" string)).
Abbreviation subvolume_info := (one "bytes_quota" RawMessage).
Abbreviation dfPool := (one "id" Z * one "stats" (one "max_avail" Z))%type.
Abbreviation df_report := (one "stats" (one "total_avail_bytes" Z) * one "pools" (list dfPool))%type.
Abbreviation fs_info := (one "mdsmap" (one "data_pools" (list Z))).

(** ** Memory *)
Record Backend_ (H : Type) := mkState { host : H; snapIndex : strmap; snapNames : strmap }.
Arguments mkState {H}.
Arguments host {H}.
Arguments snapIndex {H}.
Arguments snapNames {H}.
Definition Info_ : Info :=
  mkInfo "cephfs" "" (mkCapabilities false false false true true false false false false false false false
    false false false false).

Section plugin.
  Context {H : Type} `{Host H} `{Files H} `{TempFiles H} `{Env H} `{Clock H} `{FsCrypt H} `{MapIter} (cfg : Config).
  Abbreviation hop A := (M H perror A).
  Abbreviation op A := (M (Backend_ H) perror A).

Definition with_host (h : H) (s : Backend_ H) : Backend_ H := mkState h (snapIndex s) (snapNames s).
Definition on_host {E A} (m : M H E A) : M (Backend_ H) E A := λ s,
  let '(h, r) := m (host s) in (with_host h s, r).

Definition cluster (instance : string) : res perror ClusterConfig :=
  match clusters cfg !! instance with
  | Some cc => Ok cc
  | None => Err (Errorf CodeInvalidArg "cephfs: no cluster configured for instance %q")
  end.

(** ** The connection *)
Definition secret_key (secrets : strmap) : hop string :=
  let k := mget secrets secretUserKey in
  if negb (bool_decide (k = "")) then mret k
  else if negb (bool_decide (keyDir cfg = "")) then fail (errorf "cephfs: no cephx key for instance %q")
  else mret "".
Definition keyFor (instance : string) (secrets : strmap) : hop string :=
  if negb (bool_decide (keyDir cfg = "")) then
    catch (os_get (ReadFile (Join [keyDir cfg; instance]))) (λ r,
      match r with
      | Ok data => mret (trim_space data)
      | Err e => if negb (not_exist e) then fail (errorf "cephfs: read key for instance %q: %w") else secret_key secrets
      end)
  else secret_key secrets.
Definition userID (cc : ClusterConfig) (secrets : strmap) : string :=
  let u := mget secrets secretUserID in
  if negb (bool_decide (u = "")) then u
  else if negb (bool_decide (cc_UserID cc = "")) then cc_UserID cc else defaultUserID.
(** The path, empty without a key, and the cleanup. *)
Definition keyFile (instance : string) (secrets : strmap) : hop (string * (H → H)) :=
  key ← keyFor instance secrets;
  if bool_decide (key = "") then mret ("", id)
  else
    f ← os_or "cephfs: keyfile: %w" (SecretTemp "csi-cephfs-key-");
    catch (os_unit (WriteString f key)) (λ r,
      match r with
      | Err _ => os_try (Remove f);; fail (errorf "cephfs: keyfile: %w")
      | Ok _ => mret (f, λ h, (Remove f h).1)
      end).
(** [keyfile, cleanup, err := b.keyFile(...); defer cleanup()]. *)
Definition with_keyFile {A} (instance : string) (secrets : strmap) (body : string → hop A) : hop A :=
  k ← keyFile instance secrets;
  cephrbd.deferred k.2 (body k.1).
Definition cephConn (cc : ClusterConfig) (instance : string) (secrets : strmap) : hop (list string * (H → H)) :=
  cephrbd.ceph_conn "csi-cephfs-conf-" "csi-cephfs-key-" "cephfs: conf: %w" "cephfs: keyfile: %w"
    (cc_Monitors cc) (userID cc secrets) (keyFor instance secrets).
(** [cc, err := b.cluster(...); conn, cleanup, err := b.cephConn(...); defer cleanup()]. *)
Definition on_cluster {A} (instance : string) (secrets : strmap) (body : ClusterConfig → list string → hop A) : hop A :=
  cc ← lift (cluster instance);
  cephrbd.connected_by (cephConn cc instance secrets) (body cc).

(** ** Metadata, and the key providers' [Host] *)
Definition MetaGet_ (conn : list string) (spec key : string) : hop string :=
  match splitMetaSpec spec with
  | None => fail (errorf "cephfs: malformed metadata spec %q")
  | Some (fs, group, sub) =>
      catch (run "ceph" (withGroup (conn ++ ["fs"; "subvolume"; "metadata"; "get"; fs; sub; key]) group)) (λ r,
        match r with
        | Ok out => mret (trim_space out)
        | Err e => if isNotFound e then mret "" else fail (errorf "cephfs: subvolume metadata get %s/%s %s: %w")
        end)
  end.
Definition MetaSet_ (conn : list string) (spec key value : string) : hop unit :=
  match splitMetaSpec spec with
  | None => fail (errorf "cephfs: malformed metadata spec %q")
  | Some (fs, group, sub) =>
      run_or "cephfs: subvolume metadata set %s/%s %s: %w" "ceph"
        (withGroup (conn ++ ["fs"; "subvolume"; "metadata"; "set"; fs; sub; key; value]) group);; mret tt
  end.
Definition ConnFor_ (c : conn) (instance : string) (secrets : strmap) : hop (conn * (H → H)) :=
  match c with
  | Some args => mret (Some args, id)
  | None =>
      cc ← lift (cluster instance);
      c ← cephConn cc instance secrets;
      mret (Some c.1, c.2)
  end.
#[local] Instance cephfs_khost : KHost H := {|
  MasterKeyDir := encKeyDir cfg;
  ConnFor := ConnFor_;
  MetaGet c := MetaGet_ (cephrbd.conn_args c);
  MetaSet c := MetaSet_ (cephrbd.conn_args c);
|}.
Definition WithKMS (cfgs : gmap string KMSConfig) : hop Config :=
  r ← Register cfgs (registry cfg);
  mret (mkConfig (clusters cfg) (keyDir cfg) (encKeyDir cfg) r).
Fixpoint owner_labels (conn : list string) (fs group sub : string) (params : strmap) (l : list (string * string)) : hop unit :=
  match l with
  | [] => mret tt
  | (src, key) :: l =>
      let v := mget params src in
      (if bool_decide (v = "") then mret tt
       else run_out "ceph" (withGroup (conn ++ ["fs"; "subvolume"; "metadata"; "set"; fs; sub; key; v]) group);; mret tt);;
      owner_labels conn fs group sub params l
  end.
Definition setOwnerMetadata (conn : list string) (fs group sub : string) (params : strmap) : hop unit :=
  owner_labels conn fs group sub params (range ownerMeta).
Definition recordEncryption (conn : list string) (req : CreateVolumeRequest) (spec : string) : hop unit :=
  let params := CreateVolumeRequest_Parameters req in
  if negb (bool_decide (mget params ParamEncrypted = "true")) then mret tt
  else
    let id := mget params ParamEncryptionKMSID in
    if bool_decide (id = "") then mret tt else MetaSet_ conn spec MetaKMSID id.
Definition volumePassphrase (c : conn) (req : NodeStageRequest) : hop string :=
  let v := NodeStageRequest_Volume req in
  let spec := VolumeRef_Location v +:+ "/" +:+ VolumeRef_Name v in
  Passphrase print (registry cfg) c (VolumeRef_Instance v) (mget (NodeStageRequest_Context req) ParamEncryptionKMSID)
    spec spec (NodeStageRequest_Secrets req).
Definition deleteEncryptionKey (conn : list string) (instance spec : string) : hop unit :=
  kmsID ← MetaGet_ conn spec MetaKMSID;
  if bool_decide (kmsID = "") then mret tt else DeleteKey (registry cfg) (Some conn) instance kmsID spec.

(** ** Subvolumes *)
Definition ensureSubvolumeGroup (conn : list string) (fs group : string) : hop unit :=
  if bool_decide (group = "") then mret tt
  else run_or "cephfs: subvolumegroup create %s/%s: %w" "ceph" (conn ++ ["fs"; "subvolumegroup"; "create"; fs; group]);; mret tt.
Definition createNFSExport (conn : list string) (cc : ClusterConfig) (subPath pseudo : string) : hop unit :=
  if bool_decide (cc_NFSCluster cc = "") || bool_decide (cc_NFSServer cc = "")
  then fail (Errorf CodeInvalidArg "cephfs: mounter %q requires nfsCluster and nfsServer in instance config")
  else run_unless isAlreadyExists "cephfs: nfs export create %s %s: %w" "ceph"
    (conn ++ ["nfs"; "export"; "create"; "cephfs"; "--cluster-id"; cc_NFSCluster cc; "--pseudo-path"; pseudo;
              "--fsname"; cc_FSName cc; "--path"; subPath]).
Definition removeNFSExport (conn : list string) (cc : ClusterConfig) (pseudo : string) : hop unit :=
  run_unless isNotFound "cephfs: nfs export rm %s %s: %w" "ceph" (conn ++ ["nfs"; "export"; "rm"; cc_NFSCluster cc; pseudo]).
Definition subvolBytes (conn : list string) (fs group sub : string) : hop Z :=
  catch (run "ceph" (withGroup (conn ++ ["fs"; "subvolume"; "info"; fs; sub; "--format"; "json"]) group)) (λ r, mret (
    match r with
    | Err _ => 0
    | Ok out =>
        match unmarshal (A := subvolume_info) out with
        | Some info => match raw_json (the info) with
                       | Some j => match dec j (0%Z) with (n, true) => n | _ => 0 end
                       | None => 0
                       end
        | None => 0
        end
    end)%Z).
Definition getpath (conn : list string) (fs group sub : string) : hop string :=
  path ← run_or "cephfs: getpath %s/%s: %w" "ceph" (withGroup (conn ++ ["fs"; "subvolume"; "getpath"; fs; sub]) group);
  mret (trim_space path).
Definition applyPin (conn : list string) (cc : ClusterConfig) (group subvol : string) (p : strmap) : hop unit :=
  if bool_decide (p = ∅) then mret tt
  else run_or "cephfs: subvolume pin %s/%s %s=%s: %w" "ceph"
    (withGroup (conn ++ ["fs"; "subvolume"; "pin"; cc_FSName cc; subvol; mget p mutablePinType; mget p mutablePinSetting]) group);;
    mret tt.

(** ** Clones

    [waitClone]: the clock passes the deadline of two minutes after at most 61 sleeps. *)
Definition clone_deadline_ns : Z := 120000000000.
Definition clone_poll_ns : Z := 2000000000.
Definition clone_fuel : nat := 62.
Definition out_of_fuel : perror := errorf "clone_fuel".
Fixpoint waitClone_go (fuel : nat) (conn : list string) (fs targetGroup target : string) (deadline : Z) : hop unit :=
  match fuel with
  | O => fail out_of_fuel
  | S fuel =>
      out ← run_or "cephfs: clone status %s/%s: %w" "ceph"
        (withGroup (conn ++ ["fs"; "clone"; "status"; fs; target; "--format"; "json"]) targetGroup);
      match unmarshal (A := clone_status) out with
      | None => fail (errorf "cephfs: parse clone status: %w")
      | Some st =>
          let state := the (the st) in
          if bool_decide (state = "complete") then mret tt
          else if bool_decide (state = "failed") || bool_decide (state = "canceled") then
            run_out "ceph" (withGroup (conn ++ ["fs"; "subvolume"; "rm"; fs; target; "--force"]) targetGroup);;
            fail (errorf "cephfs: clone of %s/%s %s")
          else
            ended ← gets ctx_done;
            if ended : bool then fail (errorf "context")
            else
              t ← gets now;
              if bool_decide (deadline < t)%Z then fail (errorf "cephfs: clone of %s/%s not complete after timeout")
              else modify (Sleep clone_poll_ns);; waitClone_go fuel conn fs targetGroup target deadline
      end
  end.
Definition waitClone (conn : list string) (fs targetGroup target : string) : hop unit :=
  t ← gets now; waitClone_go clone_fuel conn fs targetGroup target (t + clone_deadline_ns)%Z.
Definition cloneFromSnapshot (conn : list string) (fs targetGroup : string) (snapRef : VolumeRef) (target : string) : hop unit :=
  match splitSnap (VolumeRef_Name snapRef) with
  | None => fail (Errorf CodeInvalidArg "cephfs: malformed source snapshot %q")
  | Some (srcSub, snap) =>
      run_unless isAlreadyExists "cephfs: snapshot clone %s/%s@%s -> %s: %w" "ceph"
        (cloneGroupArgs (conn ++ ["fs"; "subvolume"; "snapshot"; "clone"; fs; srcSub; snap; target])
           (subvolumeGroupOf (VolumeRef_Location snapRef)) targetGroup);;
      waitClone conn fs targetGroup target
  end.
Definition cloneFromVolume (conn : list string) (fs targetGroup : string) (srcRef : VolumeRef) (target : string) : hop unit :=
  let srcSub := VolumeRef_Name srcRef in
  let srcGroup := subvolumeGroupOf (VolumeRef_Location srcRef) in
  let tmpSnap := tmpClonePrefix +:+ target in
  run_unless isAlreadyExists "cephfs: temp snapshot %s/%s@%s: %w" "ceph"
    (withGroup (conn ++ ["fs"; "subvolume"; "snapshot"; "create"; fs; srcSub; tmpSnap]) srcGroup);;
  run_unless isAlreadyExists "cephfs: clone %s/%s@%s -> %s: %w" "ceph"
    (cloneGroupArgs (conn ++ ["fs"; "subvolume"; "snapshot"; "clone"; fs; srcSub; tmpSnap; target]) srcGroup targetGroup);;
  waitClone conn fs targetGroup target;;
  run_out "ceph" (withGroup (conn ++ ["fs"; "subvolume"; "snapshot"; "rm"; fs; srcSub; tmpSnap; "--force"]) srcGroup);;
  mret tt.
Fixpoint reap_all (conn : list string) (fs group sub : string) (rows : list cephNamed) : hop unit :=
  match rows with
  | [] => mret tt
  | r :: rows =>
      (if has_prefix tmpClonePrefix (the r)
       then run_out "ceph" (withGroup (conn ++ ["fs"; "subvolume"; "snapshot"; "rm"; fs; sub; the r; "--force"]) group);; mret tt
       else mret tt);;
      reap_all conn fs group sub rows
  end.
Definition reapTmpCloneSnaps (conn : list string) (fs group sub : string) : hop unit :=
  catch (run "ceph" (withGroup (conn ++ ["fs"; "subvolume"; "snapshot"; "ls"; fs; sub; "--format"; "json"]) group)) (λ r,
    match r with
    | Err _ => mret tt
    | Ok out => match unmarshal (A := list cephNamed) out with
                | Some rows => reap_all conn fs group sub rows
                | None => mret tt
                end
    end).

(** ** Control plane *)
Definition is_clone (req : CreateVolumeRequest) : bool :=
  match CreateVolumeRequest_SourceSnapshot req, CreateVolumeRequest_SourceVolume req with
  | None, None => false
  | _, _ => true
  end.
Definition createShallowVolume (conn : list string) (cc : ClusterConfig) (req : CreateVolumeRequest) (src : VolumeRef) : hop CreateVolumeResponse :=
  guard_ (negb (bool_decide (cc_Mounter cc = mounterNFS)))
    (Errorf CodeInvalidArg "cephfs: %s is not supported with the nfs mounter");;
  match splitSnap (VolumeRef_Name src) with
  | None => fail (Errorf CodeInvalidArg "cephfs: malformed source snapshot %q")
  | Some (srcSub, snap) =>
      path ← getpath conn (cc_FSName cc) (subvolumeGroupOf (VolumeRef_Location src)) srcSub;
      mret (mkCreateVolumeResponse (cc_FSName cc) (shallowPrefix +:+ srcSub +:+ "@" +:+ snap)
        (CreateVolumeRequest_CapacityBytes req) {[ctxPath := path +:+ "/.snap/" +:+ snap]} ∅)
  end.
(** The [switch] that makes the subvolume. *)
Definition make_subvolume (conn : list string) (fs group sub : string) (req : CreateVolumeRequest) : hop unit :=
  let size := CreateVolumeRequest_CapacityBytes req in
  match CreateVolumeRequest_SourceSnapshot req, CreateVolumeRequest_SourceVolume req with
  | Some s, _ => cloneFromSnapshot conn fs group s sub
  | None, Some v => cloneFromVolume conn fs group v sub
  | None, None =>
      run_or "cephfs: subvolume create %s/%s: %w" "ceph"
        (withGroup (conn ++ ["fs"; "subvolume"; "create"; fs; sub] ++
           (if bool_decide (0 < size)%Z then ["--size"; Itoa size] else [])) group);; mret tt
  end.
Definition grow_clone (conn : list string) (fs group sub : string) (req : CreateVolumeRequest) : hop unit :=
  let size := CreateVolumeRequest_CapacityBytes req in
  if is_clone req && bool_decide (0 < size)%Z
  then run_or "cephfs: resize cloned subvolume %s/%s: %w" "ceph"
    (withGroup (conn ++ ["fs"; "subvolume"; "resize"; fs; sub; Itoa size; "--no_shrink"]) group);; mret tt
  else mret tt.
Definition create_in (cc : ClusterConfig) (req : CreateVolumeRequest) (conn : list string) : hop CreateVolumeResponse :=
  let params := CreateVolumeRequest_Parameters req in
  let fs := cc_FSName cc in
  prefix ← lift (namePrefix paramVolumeNamePrefix (mget params paramVolumeNamePrefix) subvolNamePrefix);
  let sub := subvolName prefix (CreateVolumeRequest_Name req) in
  let group := resolveSubvolumeGroup params cc in
  ensureSubvolumeGroup conn fs group;;
  make_subvolume conn fs group sub req;;
  grow_clone conn fs group sub req;;
  subPath ← getpath conn fs group sub;
  setOwnerMetadata conn fs group sub params;;
  applyPin conn cc group sub (CreateVolumeRequest_MutableParams req);;
  recordEncryption conn req (metaSpec fs group sub);;
  let volCtx := encryptionVolumeContext params {[ctxPath := subPath]} in
  volCtx ← (if bool_decide (cc_Mounter cc = mounterNFS) then
              createNFSExport conn cc subPath (nfsPseudoPath sub);;
              mret (<[ctxNFSPseudo := nfsPseudoPath sub]> (<[ctxNFSServer := cc_NFSServer cc]> volCtx))
            else mret volCtx);
  mret (mkCreateVolumeResponse (cephfsLocation fs group) sub (CreateVolumeRequest_CapacityBytes req) volCtx ∅).
Definition CreateVolume (req : CreateVolumeRequest) : hop CreateVolumeResponse :=
  let params := CreateVolumeRequest_Parameters req in
  on_cluster (CreateVolumeRequest_Instance req) (CreateVolumeRequest_Secrets req) (λ cc conn,
    lift (validateEncryptionParams cc params (is_clone req));;
    lift (validateMutableParams (CreateVolumeRequest_MutableParams req));;
    match CreateVolumeRequest_SourceSnapshot req with
    | Some src => if bool_decide (mget params paramBackingSnapshot = "true") then createShallowVolume conn cc req src
                  else create_in cc req conn
    | None => create_in cc req conn
    end).

Definition DeleteVolume (req : DeleteVolumeRequest) : hop unit :=
  let v := DeleteVolumeRequest_Volume req in
  if is_shallow v then mret tt
  else
    on_cluster (VolumeRef_Instance v) (DeleteVolumeRequest_Secrets req) (λ cc conn,
      let group := subvolumeGroupOf (VolumeRef_Location v) in
      (if bool_decide (cc_Mounter cc = mounterNFS) then removeNFSExport conn cc (nfsPseudoPath (VolumeRef_Name v)) else mret tt);;
      deleteEncryptionKey conn (VolumeRef_Instance v) (metaSpec (cc_FSName cc) group (VolumeRef_Name v));;
      reapTmpCloneSnaps conn (cc_FSName cc) group (VolumeRef_Name v);;
      run_unless isNotFound "cephfs: subvolume rm %s/%s: %w" "ceph"
        (withGroup (conn ++ ["fs"; "subvolume"; "rm"; cc_FSName cc; VolumeRef_Name v]) group)).
Definition ExpandVolume (req : ExpandVolumeRequest) : hop ExpandVolumeResponse :=
  let v := ExpandVolumeRequest_Volume req in
  guard_ (negb (is_shallow v)) (Errorf CodeInvalidArg "cephfs: a shallow read-only volume cannot be expanded");;
  on_cluster (VolumeRef_Instance v) (ExpandVolumeRequest_Secrets req) (λ cc conn,
    run_or "cephfs: subvolume resize %s/%s: %w" "ceph"
      (withGroup (conn ++ ["fs"; "subvolume"; "resize"; cc_FSName cc; VolumeRef_Name v; Itoa (ExpandVolumeRequest_NewSizeBytes req)])
         (subvolumeGroupOf (VolumeRef_Location v)));;
    mret (mkExpandVolumeResponse (ExpandVolumeRequest_NewSizeBytes req) false)).
Definition ModifyVolume (req : ModifyVolumeRequest) : hop ModifyVolumeResponse :=
  let v := ModifyVolumeRequest_Volume req in
  let p := ModifyVolumeRequest_MutableParams req in
  lift (validateMutableParams p);;
  if bool_decide (p = ∅) then mret mkModifyVolumeResponse
  else
    on_cluster (VolumeRef_Instance v) (ModifyVolumeRequest_Secrets req) (λ cc conn,
      let group := subvolumeGroupOf (VolumeRef_Location v) in
      run_err (λ e, if isNotFound e then Errorf CodeNotFound "cephfs: subvolume %s/%s not found" else errorf "%w")
        (run "ceph" (withGroup (conn ++ ["fs"; "subvolume"; "info"; cc_FSName cc; VolumeRef_Name v; "--format"; "json"]) group));;
      applyPin conn cc group (VolumeRef_Name v) p;;
      mret mkModifyVolumeResponse).

(** ** Snapshots *)
Definition set_names (index names : strmap) (s : Backend_ H) : Backend_ H := mkState (host s) index names.
Definition snap_ref (src : VolumeRef) (snap : string) : VolumeRef :=
  mkVolumeRef (VolumeRef_Instance src) (VolumeRef_Location src) (VolumeRef_Name src +:+ "@" +:+ snap).
(** Under the lock: the name is claimed for this source, or refused. *)
Definition claim_name (name : string) (src : VolumeRef) (snap : string) : op unit :=
  s ← gets (λ s, s);
  guard_ (match snapIndex s !! name with Some prev => bool_decide (prev = refKey src) | None => true end)
    (Errorf CodeAlreadyExists "snapshot %q already exists for a different source volume");;
  modify (set_names (<[name := refKey src]> (snapIndex s)) (<[refKey (snap_ref src snap) := name]> (snapNames s))).
Definition snapshot_on (cc : ClusterConfig) (src : VolumeRef) (snap : string) (conn : list string) : hop CreateSnapshotResponse :=
  let group := subvolumeGroupOf (VolumeRef_Location src) in
  run_unless isAlreadyExists "cephfs: snapshot create %s/%s@%s: %w" "ceph"
    (withGroup (conn ++ ["fs"; "subvolume"; "snapshot"; "create"; cc_FSName cc; VolumeRef_Name src; snap]) group);;
  size ← subvolBytes conn (cc_FSName cc) group (VolumeRef_Name src);
  now ← gets UnixNow;
  mret (mkCreateSnapshotResponse (VolumeRef_Location src) (VolumeRef_Name (snap_ref src snap)) "" size now true).
Definition CreateSnapshot (req : CreateSnapshotRequest) : op CreateSnapshotResponse :=
  let src := CreateSnapshotRequest_SourceVolume req in
  cc ← lift (cluster (VolumeRef_Instance src));
  snapPrefix ← lift (namePrefix paramSnapshotNamePrefix
    (mget (CreateSnapshotRequest_Parameters req) paramSnapshotNamePrefix) snapNamePrefix);
  let snap := snapName snapPrefix (CreateSnapshotRequest_Name req) in
  claim_name (CreateSnapshotRequest_Name req) src snap;;
  on_host (cephrbd.connected_by (cephConn cc (VolumeRef_Instance src) (CreateSnapshotRequest_Secrets req))
    (snapshot_on cc src snap)).
Definition release_name (snap : VolumeRef) (s : Backend_ H) : Backend_ H :=
  match snapNames s !! refKey snap with
  | Some name => set_names (delete name (snapIndex s)) (delete (refKey snap) (snapNames s)) s
  | None => s
  end.
Definition DeleteSnapshot (req : DeleteSnapshotRequest) : op unit :=
  let snap := DeleteSnapshotRequest_Snapshot req in
  cc ← lift (cluster (VolumeRef_Instance snap));
  match splitSnap (VolumeRef_Name snap) with
  | None => mret tt
  | Some (subvol, name) =>
      on_host (cephrbd.connected_by (cephConn cc (VolumeRef_Instance snap) (DeleteSnapshotRequest_Secrets req)) (λ conn,
        run_unless isNotFound "cephfs: snapshot rm %s/%s@%s: %w" "ceph"
          (withGroup (conn ++ ["fs"; "subvolume"; "snapshot"; "rm"; cc_FSName cc; subvol; name; "--force"])
             (subvolumeGroupOf (VolumeRef_Location snap)))));;
      modify (release_name snap)
  end.

(** ** Capacity and health *)
Definition pool_sum (dataPools : list Z) (pools : list dfPool) : Z * bool :=
  foldl (λ acc p, if bool_decide (the p.1 ∈ dataPools) then (wrap64 (acc.1 + the (the p.2)), true) else acc) (0%Z, false) pools.
Definition dataPoolAvail (conn : list string) (fs : string) (pools : list dfPool) : hop (option Z) :=
  catch (run "ceph" (conn ++ ["fs"; "get"; fs; "--format"; "json"])) (λ r, mret (
    match r with
    | Err _ => None
    | Ok out =>
        match unmarshal (A := fs_info) out with
        | None => None
        | Some info =>
            let '(avail, matched) := pool_sum (the (the info)) pools in
            if matched : bool then Some avail else None
        end
    end)).
Definition GetCapacity (req : GetCapacityRequest) : hop GetCapacityResponse :=
  on_cluster (GetCapacityRequest_Instance req) ∅ (λ cc conn,
    out ← run_or "cephfs: ceph df: %w" "ceph" (conn ++ ["df"; "--format"; "json"]);
    match unmarshal (A := df_report) out with
    | None => fail (errorf "cephfs: parse ceph df: %w")
    | Some df =>
        avail ← dataPoolAvail conn (cc_FSName cc) (the df.2);
        mret (mkGetCapacityResponse (default (the (the df.1)) avail))
    end).
Definition GetVolumeHealth (req : GetVolumeHealthRequest) : hop GetVolumeHealthResponse :=
  let v := GetVolumeHealthRequest_Volume req in
  on_cluster (VolumeRef_Instance v) (GetVolumeHealthRequest_Secrets req) (λ cc conn,
    let spec := cc_FSName cc +:+ "/" +:+ VolumeRef_Name v in
    catch (run "ceph" (withGroup (conn ++ ["fs"; "subvolume"; "info"; cc_FSName cc; VolumeRef_Name v; "--format"; "json"])
             (subvolumeGroupOf (VolumeRef_Location v)))) (λ r,
      match r with
      | Ok _ => mret (mkGetVolumeHealthResponse false ("cephfs subvolume " +:+ spec +:+ " is accessible"))
      | Err e => if isNotFound e
                 then mret (mkGetVolumeHealthResponse true ("cephfs subvolume " +:+ spec +:+ " no longer exists"))
                 else fail (errorf "%w")
      end)).

(** ** Listing *)
Definition listGroups (conn : list string) (fs : string) : hop (list string) :=
  catch (run "ceph" (conn ++ ["fs"; "subvolumegroup"; "ls"; fs; "--format"; "json"])) (λ r, mret ("" ::
    match r with
    | Err _ => []
    | Ok out => match unmarshal (A := list cephNamed) out with
                | Some rows => filter (λ n, n ≠ "") (map the rows)
                | None => []
                end
    end)).
Definition listSubvolumes (conn : list string) (fs group : string) : hop (list string) :=
  catch (run "ceph" (withGroup (conn ++ ["fs"; "subvolume"; "ls"; fs; "--format"; "json"]) group)) (λ r,
    match r with
    | Err e => if isNotFound e then mret [] else fail (errorf "cephfs: subvolume ls %s: %w")
    | Ok out => match unmarshal (A := list cephNamed) out with
                | Some rows => mret (List.filter isBardObjectName (map the rows))
                | None => fail (errorf "cephfs: parse subvolume ls %s: %w")
                end
    end).
(** The loops over subvolumes, groups and instances. *)
Fixpoint each_of {A} (f : string → hop (list A)) (l : list string) : hop (list A) :=
  match l with
  | [] => mret []
  | x :: l => here ← f x; rest ← each_of f l; mret (here ++ rest)
  end.
Fixpoint list_instances {A} (entries : list string → string → string → string → string → hop (list A))
    (l : list (string * ClusterConfig)) : hop (list A) :=
  match l with
  | [] => mret []
  | (instance, cc) :: l =>
      here ← cephrbd.connected_by (cephConn cc instance ∅) (λ conn,
        groups ← listGroups conn (cc_FSName cc);
        each_of (λ group,
          subs ← listSubvolumes conn (cc_FSName cc) group;
          each_of (entries conn instance (cc_FSName cc) group) subs) groups);
      rest ← list_instances entries l;
      mret (here ++ rest)
  end.
Definition volume_entry (conn : list string) (instance fs group sub : string) : hop (list VolumeListEntry) :=
  size ← subvolBytes conn fs group sub;
  mret [mkVolumeListEntry (mkVolumeRef instance (cephfsLocation fs group) sub) size].
Definition managed_snap (name : string) : bool := isBardObjectName name && negb (has_prefix tmpClonePrefix name).
Definition snapshot_entries (conn : list string) (instance fs group sub : string) : hop (list SnapshotListEntry) :=
  let loc := cephfsLocation fs group in
  catch (run "ceph" (withGroup (conn ++ ["fs"; "subvolume"; "snapshot"; "ls"; fs; sub; "--format"; "json"]) group)) (λ r,
    match r with
    | Err e => if isNotFound e then mret [] else fail (errorf "cephfs: snapshot ls %s/%s: %w")
    | Ok out =>
        match unmarshal (A := list cephNamed) out with
        | None => fail (errorf "cephfs: parse snapshot ls %s/%s: %w")
        | Some rows =>
            size ← subvolBytes conn fs group sub;
            mret (map (λ name, mkSnapshotListEntry (mkVolumeRef instance loc (sub +:+ "@" +:+ name)) (mkVolumeRef instance loc sub) size 0 true)
                    (List.filter managed_snap (map the rows)))
        end
    end).
Definition ListVolumes (_ : ListVolumesRequest) : hop ListVolumesResponse :=
  es ← list_instances volume_entry (range (clusters cfg)); mret (mkListVolumesResponse es).
Definition ListSnapshots (_ : ListSnapshotsRequest) : hop ListSnapshotsResponse :=
  es ← list_instances snapshot_entries (range (clusters cfg)); mret (mkListSnapshotsResponse es).

(** ** Node plane *)
Definition flags_suffix (flags : list string) : string := match flags with [] => "" | _ => "," +:+ join "," flags end.
Definition mounted (path : string) : hop bool :=
  out ← run_out "findmnt" ["-n"; "-o"; "SOURCE"; "--mountpoint"; path];
  mret (negb (bool_decide (trim_space out = ""))).
Definition nfs_mount (cc : ClusterConfig) (req : NodeStageRequest) : hop unit :=
  let ctx := NodeStageRequest_Context req in
  let server := cephrbd.or_else (mget ctx ctxNFSServer) (cc_NFSServer cc) in
  let pseudo := cephrbd.or_else (mget ctx ctxNFSPseudo) (nfsPseudoPath (VolumeRef_Name (NodeStageRequest_Volume req))) in
  guard_ (negb (bool_decide (server = "") || bool_decide (pseudo = "")))
    (Errorf CodeInvalidArg "cephfs: nfs mount missing server/pseudo path");;
  run_or "cephfs: nfs mount %s:%s: %w" "mount"
    ["-t"; "nfs"; server +:+ ":" +:+ pseudo; NodeStageRequest_StagingPath req; "-o";
     "vers=4.1" +:+ (if NodeStageRequest_Readonly req then ",ro" else "") +:+ flags_suffix (NodeStageRequest_MountFlags req)];;
  mret tt.
Definition fuse_mount (cc : ClusterConfig) (req : NodeStageRequest) (path user keyfile : string) : hop unit :=
  run_or "cephfs: ceph-fuse mount: %w" "ceph-fuse"
    ([NodeStageRequest_StagingPath req; "-m"; join "," (cc_Monitors cc); "--id"; user; "--client_fs"; cc_FSName cc; "-r"; path] ++
     (if bool_decide (keyfile = "") then [] else ["--keyfile"; keyfile]) ++
     (match NodeStageRequest_MountFlags req with [] => [] | flags => ["-o"; join "," flags] end));;
  mret tt.
Definition kernel_mount (cc : ClusterConfig) (req : NodeStageRequest) (path user keyfile : string) : hop unit :=
  run_or "cephfs: kernel mount: %w" "mount"
    ["-t"; "ceph"; join "," (cc_Monitors cc) +:+ ":" +:+ path; NodeStageRequest_StagingPath req; "-o";
     "name=" +:+ user +:+ ",mds_namespace=" +:+ cc_FSName cc +:+
     (if bool_decide (keyfile = "") then "" else ",secretfile=" +:+ keyfile) +:+ flags_suffix (NodeStageRequest_MountFlags req)];;
  mret tt.
Definition NodeStage (req : NodeStageRequest) : hop unit :=
  let v := NodeStageRequest_Volume req in
  let ctx := NodeStageRequest_Context req in
  let staging := NodeStageRequest_StagingPath req in
  cc ← lift (cluster (VolumeRef_Instance v));
  let path := mget ctx ctxPath in
  guard_ (negb (bool_decide (path = ""))) (Errorf CodeInvalidArg "cephfs: missing subvolume path in volume context");;
  mkdir_all "cephfs: mkdir staging: %w" staging 488;;
  m ← mounted staging;
  if m && negb (IsEncrypted ctx) then mret tt
  else if bool_decide (cc_Mounter cc = mounterNFS) then nfs_mount cc req
  else
    with_keyFile (VolumeRef_Instance v) (NodeStageRequest_Secrets req) (λ keyfile,
      let user := userID cc (NodeStageRequest_Secrets req) in
      if bool_decide (cc_Mounter cc = mounterFuse) then fuse_mount cc req path user keyfile
      else
        (if m : bool then mret tt else kernel_mount cc req path user keyfile);;
        if IsEncrypted ctx then
          pass ← volumePassphrase None req;
          SetupFscrypt staging pass
        else mret tt).
Definition NodeUnstage (req : NodeUnstageRequest) : hop unit :=
  run_unless isNotMounted "cephfs: umount %s: %w" "umount" [NodeUnstageRequest_StagingPath req].
Definition NodePublish (req : NodePublishRequest) : hop unit :=
  let target := NodePublishRequest_TargetPath req in
  mkdir_all "cephfs: mkdir target: %w" target 488;;
  m ← mounted target;
  if m : bool then mret tt
  else
    let source := if IsEncrypted (NodePublishRequest_Context req)
                  then FscryptDataDir (NodePublishRequest_StagingPath req) else NodePublishRequest_StagingPath req in
    run_or "cephfs: bind mount %s -> %s: %w" "mount" ["--bind"; source; target];;
    if NodePublishRequest_Readonly req
    then run_or "cephfs: remount ro %s: %w" "mount" ["-o"; "remount,ro,bind"; source; target];; mret tt
    else mret tt.
Definition NodeUnpublish (req : NodeUnpublishRequest) : hop unit :=
  run_unless isNotMounted "cephfs: umount %s: %w" "umount" [NodeUnpublishRequest_TargetPath req].
Definition NodeExpand (_ : NodeExpandRequest) : hop NodeExpandResponse := mret (mkNodeExpandResponse 0).

Definition Serve_ : Backend (Backend_ H) :=
  mkBackend Info_ (λ r, on_host (CreateVolume r)) (λ r, on_host (DeleteVolume r)) (λ r, on_host (ExpandVolume r))
    CreateSnapshot DeleteSnapshot (λ r, on_host (NodeStage r)) (λ r, on_host (NodeUnstage r)) (λ r, on_host (NodePublish r))
    (λ r, on_host (NodeUnpublish r)) (λ r, on_host (NodeExpand r))
    (Some (mkCapacityReporter (λ r, on_host (GetCapacity r)))) (Some (mkHealthReporter (λ r, on_host (GetVolumeHealth r))))
    (Some (mkVolumeModifier (λ r, on_host (ModifyVolume r)))) None (Some (mkVolumeLister (λ r, on_host (ListVolumes r))))
    (Some (mkSnapshotLister (λ r, on_host (ListSnapshots r)))) None None None None None None.
End plugin.
End cephfs.
