(* ===== verification/CephFSSafety.v ===== *)
(** * What makes the CephFS plugin correct (internal/cephfsplugin)

    No key is left on disk; a clone is a volume only once it is complete, and the wait
    for it ends; the controller and the node address a subvolume alike; a shallow volume
    owns nothing. *)
From Stdlib Require Import Ascii.
From S2P Require Import Prelude GoStrings GoPath Json JsonText Protocol Server Sha256 Host GoOs KMS KMSRegistry KMSSteps RBD RBDNode RBDAddons RBDBench RBDTrace RBDSafety CephFS.

Module cephfssafety.
Import bardplugin server cephenc kms kmssteps jsontext cephfs rbdtrace.

(** ** Steps

    As in [RBDTrace], for the operations of this plugin. *)
Section steps.
  Context {H : Type} `{Host H} `{Files H} `{TempFiles H} `{Env H} `{Clock H} `{FsCrypt H} `{Network H} `{MapIter} (cfg : Config).
  Context (P : list event → Prop) `{!Quiet P} `{!Loose P} (Hall : ∀ name args, allowed name args).
  Abbreviation HL := (H * list event)%type.
  Abbreviation hlog := (snd (A := H) (B := list event)).
  Abbreviation hop A := (M HL perror A).
  Abbreviation R := (logged (H := H) P).

Lemma fs_keyFor_silent i sec (h : HL) : (keyFor cfg i sec h).1.2 = h.2.
Proof.
  unfold keyFor, secret_key, catch, os_get. destruct (negb (bool_decide (keyDir cfg = ""))).
  - simpl. unfold silent. destruct (ReadFile _ h.1) as [h1 [d|e]]; simpl; [done|].
    destruct (negb (not_exist e)); [done|]. by repeat destruct (negb _).
  - by repeat destruct (negb _).
Qed.
Lemma conn_steps {A} cc i sec (body : list string → hop A) :
  (∀ c, Pres R (body c)) → Pres R (cephrbd.connected_by (cephConn cfg cc i sec) body).
Proof. intros Hb. apply (ceph_conn_steps P); [intros; apply fs_keyFor_silent|done]. Qed.
(** The keyfile of a mount, in the shape of [held_emits]. *)
Lemma keyFile_steps {A} i sec (body : string → hop A) :
  (∀ f, Pres R (body f)) → Pres R (with_keyFile cfg i sec body).
Proof.
  intros Hb h. unfold with_keyFile, keyFile. pose proof (fs_keyFor_silent i sec h) as Hk. unfold mbind, M_bind.
  destruct (keyFor cfg i sec h) as [h0 [key|e]]; simpl in Hk; [|exists []; rewrite app_nil_r; split; [done|apply closed_nil]].
  case_bool_decide.
  { simpl. unfold cephrbd.deferred. destruct (Hb "" h0) as (t & Hlog & Ht). destruct (body "" h0) as [h1 r].
    simpl in *. exists t. by rewrite Hlog, Hk. }
  assert (Pres R (f ← os_or "cephfs: keyfile: %w" (SecretTemp "csi-cephfs-key-");
    catch (os_unit (WriteString f key)) (λ r, match r with
      | Err _ => os_try (Remove f);; fail (errorf "cephfs: keyfile: %w")
      | Ok _ => cephrbd.deferred (λ h, (Remove f h).1) (body f) end))) as Hheld.
  { apply (around_steps P), held_emits; [intros; apply remove_log|intros f; by apply Emits_steps|].
    intros f h'. split; [apply remove_fail_log|done]. }
  destruct (Hheld h0) as (t & Hlog & Ht). exists t. split; [|done]. rewrite <-Hk, <-Hlog.
  unfold os_or, run_err, mbind, M_bind, catch, os_unit, cephrbd.deferred.
  destruct (SecretTemp "csi-cephfs-key-" h0) as [h1 [f|e]]; simpl; [|done].
  by destruct (silent (WriteString f key) h1) as [h2 [e|]].
Qed.
#[local] Instance khost : KHost HL := cephfs_khost cfg.
Lemma fs_with_conn_steps {A} c i sec (body : conn → hop A) : (∀ c', Pres R (body c')) → Pres R (with_conn c i sec body).
Proof.
  intros Hb. destruct c as [args|].
  - intros h. unfold with_conn. simpl. unfold mbind, M_bind. simpl. specialize (Hb (Some args) h).
    by destruct (body (Some args) h).
  - unfold with_conn. simpl. destruct (cluster cfg i) as [cc|e]; [|by apply Pres_fail, _].
    intros h. pose proof (conn_steps cc i sec (λ args, body (Some args)) (λ args, Hb _) h) as Hc.
    unfold cephrbd.connected_by, cephrbd.deferred in Hc. unfold mbind, M_bind, lift in *. simpl in *.
    by destruct (cephConn cfg cc i sec h) as [h1 [[args cl]|e]]; simpl in *.
Qed.
(** Down to the calls of the host. *)
Ltac call :=
  first
  [ pres_step
  | solve [ apply (run_steps P), Hall | apply (run_or_steps P), Hall | apply (run_unless_steps P), Hall
          | apply (run_out_steps P), Hall | apply (mkdir_steps P) ]
  | apply conn_steps; intros
  | apply Pres_modify; intros ?; apply (cache_steps P) ].
Ltac calls := repeat call.
Lemma fs_meta_get_steps c spec key : Pres R (MetaGet_ (H := HL) c spec key).
Proof. unfold MetaGet_. calls. Qed.
Lemma fs_meta_set_steps c spec key v : Pres R (MetaSet_ (H := HL) c spec key v).
Proof. unfold MetaSet_. calls. Qed.
Ltac kms_ok lem := eapply lem with (good := λ _, True); try apply _; intros;
  first [ done | by apply fs_with_conn_steps; intros; auto | apply fs_meta_get_steps | apply fs_meta_set_steps
        | intros h; apply (silent_steps P) | intros h; apply (noted_steps P); intros; first [apply loose_http | apply loose_kmip]
        | apply (noted_steps P); intros; first [apply loose_http | apply loose_kmip]
        | apply (cache_steps P (put_token _ _)) | apply (cache_steps P (put_creds _ _)) | idtac ].
Lemma fs_Passphrase_steps c i kmsID spec keyID sec : Pres R (Passphrase print (registry cfg) c i kmsID spec keyID sec).
Proof. kms_ok @Passphrase_pres. Qed.
Lemma fs_DeleteKey_steps c i kmsID spec : Pres R (DeleteKey (registry cfg) c i kmsID spec).
Proof. kms_ok @DeleteKey_pres. Qed.

Lemma subvolBytes_steps c fs g sub : Pres R (subvolBytes (H := HL) c fs g sub).
Proof. unfold subvolBytes. calls. Qed.
Lemma fs_owner_steps c fs g sub p : Pres R (setOwnerMetadata (H := HL) c fs g sub p).
Proof. unfold setOwnerMetadata. induction (range ownerMeta) as [|[k v] l IH]; simpl; calls. apply IH. Qed.
Lemma waitClone_steps c fs g target : Pres R (waitClone (H := HL) c fs g target).
Proof.
  unfold waitClone. call; [call|]. generalize (a + clone_deadline_ns)%Z. clear a.
  induction clone_fuel as [|n IH]; intros dl; simpl; repeat first [call | apply IH].
Qed.
Lemma reap_all_steps c fs g sub rows : Pres R (reap_all (H := HL) c fs g sub rows).
Proof. induction rows as [|x l IH]; simpl; repeat first [call | apply IH]. Qed.
Lemma reap_steps c fs g sub : Pres R (reapTmpCloneSnaps (H := HL) c fs g sub).
Proof. unfold reapTmpCloneSnaps. repeat first [call | apply reap_all_steps]. Qed.
Lemma each_steps {A} (f : string → hop (list A)) l : (∀ x, Pres R (f x)) → Pres R (each_of f l).
Proof. intros Hf. induction l as [|x l IH]; simpl; repeat first [call | apply Hf | apply IH]. Qed.
Lemma instances_steps {A} (entries : list string → string → string → string → string → hop (list A)) l :
  (∀ c i fs g sub, Pres R (entries c i fs g sub)) → Pres R (list_instances cfg entries l).
Proof.
  intros He. induction l as [|[i cc] l IH]; simpl; unfold listGroups;
    repeat first [call | apply each_steps; intros | unfold listSubvolumes; call | apply He | apply IH].
Qed.
Lemma fs_fscrypt_steps p x : Pres R (SetupFscrypt (S := HL) p x).
Proof. apply (rbdtrace.fscrypt_steps P). Qed.
Ltac known := first [call | apply fs_owner_steps | apply waitClone_steps | apply reap_steps | apply subvolBytes_steps | apply fs_meta_get_steps
  | apply fs_meta_set_steps | apply fs_DeleteKey_steps | apply fs_fscrypt_steps | apply instances_steps; intros ].
Ltac whole := repeat known.
Lemma fs_create_steps req : Pres R (CreateVolume (H := HL) cfg req).
Proof.
  unfold CreateVolume, on_cluster, createShallowVolume, create_in, ensureSubvolumeGroup, make_subvolume, cloneFromSnapshot,
    cloneFromVolume, grow_clone, getpath, applyPin, recordEncryption, createNFSExport. whole.
Qed.
Lemma fs_delete_steps req : Pres R (DeleteVolume (H := HL) cfg req).
Proof. unfold DeleteVolume, on_cluster, removeNFSExport, deleteEncryptionKey. whole. Qed.
Lemma fs_stage_steps req : Pres R (NodeStage (H := HL) cfg req).
Proof.
  unfold NodeStage, mounted, nfs_mount. whole. apply keyFile_steps. intros f.
  unfold fuse_mount, kernel_mount, volumePassphrase. whole. apply fs_Passphrase_steps.
Qed.

(** *** Lifted to the plugin's state *)
Definition RB (s s' : Backend_ HL) : Prop := R (host s) (host s').
#[global] Instance RB_preorder : PreOrder RB.
Proof. split; [intros s; unfold RB; reflexivity|intros s1 s2 s3; unfold RB; apply transitivity]. Qed.
Lemma fs_on_host_steps {E A} (m : M HL E A) : Pres R m → Pres RB (on_host m).
Proof. intros Hm s. unfold on_host. specialize (Hm (host s)). by destruct (m (host s)). Qed.
Lemma fs_same_host (f : Backend_ HL → Backend_ HL) (Hf : ∀ s, host (f s) = host s) : Pres RB (modify f : M _ perror unit).
Proof. intros s. unfold RB. simpl. rewrite Hf. reflexivity. Qed.
Lemma fs_routes_steps : Forall (respects RB) (newMux (Serve_ (H := HL) cfg)).
Proof.
  unfold newMux, required_routes, when, Serve_. simpl.
  repeat apply Forall_cons_2; try apply Forall_nil_2; try (apply handle_respects; [apply _|]; simpl; intros req).
  { intros b s. simpl. reflexivity. }
  all: try (apply fs_on_host_steps; first [apply fs_create_steps | apply fs_delete_steps | apply fs_stage_steps
    | unfold ExpandVolume, on_cluster, NodeUnstage, NodePublish, mounted, NodeUnpublish, NodeExpand, GetCapacity, dataPoolAvail,
        GetVolumeHealth, ModifyVolume, applyPin, ListVolumes, ListSnapshots, volume_entry, snapshot_entries, on_cluster; whole; fail ]).
  - unfold CreateSnapshot, claim_name, snapshot_on. repeat first [pres_step | by apply fs_same_host | apply fs_on_host_steps; whole].
  - unfold DeleteSnapshot. repeat first [pres_step | apply fs_on_host_steps; whole].
    apply fs_same_host. intros s'. unfold release_name. by destruct (snapNames s' !! _).
Qed.
End steps.

Section claim.
  Context {H : Type} `{Host H} `{Files H} `{TempFiles H} `{Env H} `{Clock H} `{FsCrypt H} `{Network H} `{MapIter} (cfg : Config).
  Abbreviation HL := (H * list event)%type.
(** What a step of the plugin records, from nothing recorded. *)
Definition recorded_by {A} (step : Backend_ HL → Backend_ HL * A) (s : Backend_ H) : list event :=
  (host (step (mkState (host s, []) (snapIndex s) (snapNames s))).1).2.

(** The CephFS plugin leaves no key on disk either: every temporary file it makes, a
    cephx keyfile or a configuration file, is gone when it answers. *)
Theorem cephfs_no_secret_left (s : Backend_ H) path b :
  left_behind ∅ (recorded_by (serve (newMux (Serve_ cfg)) path b) s) = ∅.
Proof.
  unfold recorded_by. set (s0 := mkState _ _ _).
  destruct (serve_respects (RB tidy) (newMux (Serve_ cfg)) path b s0 (fs_routes_steps cfg tidy tidy_all)) as (t & Ht & Htidy).
  simpl in Ht. rewrite Ht. specialize (Htidy ∅). set_solver.
Qed.
End claim.

(** ** Clones *)
Definition ends_with (suffix l : list string) : bool := bool_decide (drop (length l - length suffix) l = suffix).
Lemma ends_with_app c suffix : ends_with suffix (c ++ suffix) = true.
Proof. unfold ends_with. rewrite length_app. replace (length c + length suffix - length suffix) with (length c) by lia. by rewrite drop_app_length, bool_decide_eq_true_2. Qed.
Lemma withGroup_app c args g : withGroup (c ++ args) g = c ++ withGroup args g.
Proof. unfold withGroup. case_bool_decide; [done|]. by rewrite <-app_assoc. Qed.
(** The cluster reported the clone complete. *)
Definition clone_complete (fs group target : string) (e : event) : bool :=
  match e with
  | ECommand n a o =>
      bool_decide (n = "ceph") && ends_with (withGroup ["fs"; "clone"; "status"; fs; target; "--format"; "json"] group) a &&
      bool_decide (o_err o = None) &&
      match unmarshal (A := clone_status) (o_out o) with Some st => bool_decide (the (the st) = "complete") | None => false end
  | _ => false
  end.

Section clones.
  Context {H : Type} `{Host H} `{Files H} `{TempFiles H} `{Env H} `{Clock H} `{FsCrypt H} `{Network H} `{MapIter} (cfg : Config).
  Abbreviation HL := (H * list event)%type.
  Abbreviation hlog := (snd (A := H) (B := list event)).

(** When [m] succeeds, a clone was reported complete in its course. *)
Abbreviation Completes fs group target m :=
  (Emits hlog m (λ t r, is_Ok r = true → existsb (clone_complete fs group target) t = true)).
Lemma completes_after {A B E} fs g x (m : M HL E A) (f : A → M HL E B) :
  Pres (logged (λ _, True)) m → (∀ a, Completes fs g x (f a)) → Completes fs g x (m ≫= f).
Proof.
  intros Hm Hf. eapply Emits_bind; [by apply (Emits_steps (λ _, True))| |done]. intros t a _.
  eapply Emits_mono; [apply Hf|]. intros t' r Hr Hok. by rewrite existsb_app, Hr, orb_true_r.
Qed.
Lemma completes_before {A B E} fs g x (m : M HL E A) (f : A → M HL E B) :
  Completes fs g x m → (∀ a, Pres (logged (λ _, True)) (f a)) → Completes fs g x (m ≫= f).
Proof.
  intros Hm Hf. eapply Emits_bind; [exact Hm| |done]. intros t a Ht.
  eapply Emits_mono; [by apply (Emits_steps (λ _, True))|]. intros t' r _ Hok. by rewrite existsb_app, Ht.
Qed.
Lemma completes_lift {A B E} fs g x (r : res E A) (f : A → M HL E B) : (∀ a, Completes fs g x (f a)) → Completes fs g x (lift r ≫= f).
Proof. intros Hf. apply completes_after; [apply Pres_lift, _|done]. Qed.
Lemma wait_completes c fs g x deadline n : Completes fs g x (waitClone_go (H := HL) n c fs g x deadline).
Proof.
  induction n as [|n IH]; simpl; [by apply Emits_fail|]. apply Emits_then, Emits_run_or. intros o.
  destruct (o_err o) as [e|] eqn:Ho; [done|]. destruct (unmarshal (o_out o)) as [st|] eqn:Hst; [|by apply Emits_fail].
  case_bool_decide as Hdone.
  { apply Emits_ret. intros _. cbn [app existsb clone_complete]. rewrite withGroup_app, ends_with_app, Ho, Hst.
    by rewrite !bool_decide_eq_true_2. }
  apply (Emits_mono _ _ (λ t r, is_Ok r = true → existsb (clone_complete fs g x) t = true)).
  2: { intros t r Hr Hok. by rewrite existsb_app, (Hr Hok), orb_true_r. }
  destruct (_ || _).
  - apply completes_after; [by apply (run_out_steps (λ _, True))|]. intros. by apply Emits_fail.
  - apply completes_after; [apply Pres_gets, _|]. intros ended. destruct ended; [by apply Emits_fail|].
    apply completes_after; [apply Pres_gets, _|]. intros t. case_bool_decide; [by apply Emits_fail|].
    apply completes_after; [apply Pres_modify; intros; apply (cache_steps (λ _, True))|]. intros _. apply IH.
Qed.
Lemma waitClone_completes c fs g x : Completes fs g x (waitClone (H := HL) c fs g x).
Proof. unfold waitClone. apply completes_after; [apply Pres_gets, _|]. intros t. apply wait_completes. Qed.
Ltac anything := apply completes_after; [solve [apply (run_unless_steps (λ _, True)); exact I | apply (run_or_steps (λ _, True)); exact I]|]; intros.
Lemma make_completes c fs g x req : is_clone req = true → Completes fs g x (make_subvolume (H := HL) c fs g x req).
Proof.
  unfold is_clone, make_subvolume, cloneFromSnapshot, cloneFromVolume. intros Hc.
  destruct (CreateVolumeRequest_SourceSnapshot req) as [src|].
  - destruct (splitSnap _) as [[sub snap]|]; [|by apply Emits_fail]. anything. apply waitClone_completes.
  - destruct (CreateVolumeRequest_SourceVolume req) as [src|]; [|done]. do 2 anything.
    apply completes_before; [apply waitClone_completes|]. intros _. repeat pres_step. by apply (run_out_steps (λ _, True)).
Qed.
Lemma create_completes cc c req prefix (params := CreateVolumeRequest_Parameters req) :
  is_clone req = true → namePrefix paramVolumeNamePrefix (mget params paramVolumeNamePrefix) subvolNamePrefix = Ok prefix →
  Completes (cc_FSName cc) (resolveSubvolumeGroup params cc) (subvolName prefix (CreateVolumeRequest_Name req))
    (create_in (H := HL) cc req c).
Proof.
  intros Hc Hp. unfold create_in. fold params. rewrite Hp. unfold lift, mbind at 1, M_bind at 1. cbv beta iota zeta.
  apply completes_after; [unfold ensureSubvolumeGroup; repeat pres_step; by apply (run_or_steps (λ _, True))|]. intros _.
  apply completes_before; [by apply make_completes|]. intros _. unfold grow_clone, getpath, applyPin, recordEncryption, createNFSExport.
  repeat first [pres_step | by apply (run_or_steps (λ _, True)) | by apply (run_unless_steps (λ _, True))
    | by apply (fs_owner_steps (λ _, True)) | by apply (fs_meta_set_steps (λ _, True))].
Qed.

(** C15: a clone or a restore is handed out only when it is complete: when CreateVolume
    succeeds for a volume with a source (other than a shallow one), the cluster reported
    the clone of that very subvolume complete during the call. *)
Theorem clone_handed_out_complete req (h : H) cc prefix (params := CreateVolumeRequest_Parameters req) :
  clusters cfg !! CreateVolumeRequest_Instance req = Some cc →
  is_clone req = true → mget params paramBackingSnapshot ≠ "true" →
  namePrefix paramVolumeNamePrefix (mget params paramVolumeNamePrefix) subvolNamePrefix = Ok prefix →
  is_Ok (CreateVolume cfg req (h, [])).2 = true →
  existsb (clone_complete (cc_FSName cc) (resolveSubvolumeGroup params cc) (subvolName prefix (CreateVolumeRequest_Name req)))
    (CreateVolume cfg req (h, [])).1.2 = true.
Proof.
  intros Hcc Hc Hs Hp Hok.
  assert (Completes (cc_FSName cc) (resolveSubvolumeGroup params cc) (subvolName prefix (CreateVolumeRequest_Name req))
    (CreateVolume cfg req)) as Hall; [|destruct (Hall (h, [])) as (t & Ht & HQ); simpl in Ht; rewrite Ht; auto].
  unfold CreateVolume, on_cluster. assert (cluster cfg (CreateVolumeRequest_Instance req) = Ok cc) as -> by (unfold cluster; by rewrite Hcc).
  eapply Emits_bind; [apply (Emits_lift _ _ (λ t r, t = [] ∧ r = Ok cc)); done| |by intros ? ? [_ [=]]]. intros t a [-> [= ->]].
  eapply Emits_mono; [apply ceph_conn_emits; [intros; apply fs_keyFor_silent|]|].
  - intros c. apply completes_lift. intros _. apply completes_lift. intros _. fold params. rewrite bool_decide_eq_false_2 by done.
    destruct (CreateVolumeRequest_SourceSnapshot req); by apply create_completes.
  - intros t r (fs & b & -> & HQ) Hr. rewrite app_nil_l, !existsb_app. destruct HQ as [[_ HQ]|HQ]; [by rewrite HQ in Hr|].
    apply orb_true_iff. right. apply orb_true_iff. left. by apply HQ.
Qed.
End clones.

(** ** The wait for a clone *)
Section wait.
  Context {H : Type} `{Host H} `{Env H} `{Clock H}.
  Context (sleeps : ∀ d (h : H), (now h + d ≤ now (Sleep d h))%Z) (forward : ∀ n a (h : H), (now h ≤ now (Run n a h).1)%Z).
Lemma waitClone_go_ends fuel c fs g x deadline (h : H) :
  (deadline < now h + clone_poll_ns * Z.of_nat fuel)%Z →
  (waitClone_go (S fuel) c fs g x deadline h).2 ≠ Err out_of_fuel.
Proof.
  revert h. induction fuel as [|fuel IH]; intros h Hd; cbn [waitClone_go]; unfold run_or, run_err, run, gets, modify, mbind, M_bind;
    specialize (forward "ceph" (withGroup (c ++ ["fs"; "clone"; "status"; fs; x; "--format"; "json"]) g) h);
    destruct (Run _ _ h) as [h1 o]; simpl in *; (destruct (o_err o); [done|]); simpl;
    (destruct (unmarshal (o_out o)) as [st|]; [|done]); (case_bool_decide; [done|]);
    (destruct (_ || _); [unfold run_out; by destruct (Run _ _ h1)|]); simpl; (destruct (ctx_done h1); [done|]); simpl;
    (case_bool_decide as Ht; [done|]); [lia|].
  apply (IH (Sleep clone_poll_ns h1)). specialize (sleeps clone_poll_ns h1). lia.
Qed.
(** The wait for a clone ends within its 62 rounds, on a clock that a sleep moves on. *)
Theorem waitClone_ends c fs g x (h : H) : (waitClone c fs g x h).2 ≠ Err out_of_fuel.
Proof. unfold waitClone, mbind, M_bind, gets. apply waitClone_go_ends. unfold clone_deadline_ns, clone_poll_ns. lia. Qed.
End wait.

(** ** Names *)

(** The controller records a volume's key under [metaSpec]; the node looks it up under
    the volume's location and name; the cluster is addressed with the parts of either. *)
Theorem subvolume_addressed_alike fs group sub :
  contains_char "/" fs = false → contains_char "/" group = false → contains_char "/" sub = false →
  metaSpec fs group sub = cephfsLocation fs group +:+ "/" +:+ sub ∧
  splitMetaSpec (metaSpec fs group sub) = Some (fs, group, sub) ∧
  subvolumeGroupOf (cephfsLocation fs group) = group.
Proof.
  intros Hf Hg Hs. unfold metaSpec, cephfsLocation, splitMetaSpec, subvolumeGroupOf.
  assert (∀ x, "/" +:+ x = String "/" x) as Hsl by done. rewrite !Hsl. case_bool_decide as Hgr.
  - subst. repeat split; [by rewrite split_on_app, split_on_none|by rewrite cut_on_none].
  - repeat split.
    + by rewrite string_app_assoc.
    + by rewrite split_on_app, split_on_app, split_on_none.
    + by rewrite cut_on_app.
Qed.
Lemma subvolume_addressed_alike_witness :
  metaSpec "cephfs" "csi" "bard-1" = cephfsLocation "cephfs" "csi" +:+ "/" +:+ "bard-1" ∧
  splitMetaSpec (metaSpec "cephfs" "csi" "bard-1") = Some ("cephfs", "csi", "bard-1") ∧
  subvolumeGroupOf (cephfsLocation "cephfs" "csi") = "csi".
Proof. by apply (subvolume_addressed_alike "cephfs" "csi" "bard-1"). Defined.

(** A shallow volume owns nothing: what CreateVolume names a shallow volume, DeleteVolume
    takes for one, and then does nothing at all. *)
Theorem shallow_volume_deletes_nothing {H} `{Host H} `{Files H} `{TempFiles H} `{Env H} `{MapIter} (cfg : Config) c cc req src
    (h h' : H) resp instance location secrets :
  createShallowVolume c cc req src h = (h', Ok resp) →
  ∀ h0 : H, DeleteVolume cfg (mkDeleteVolumeRequest (mkVolumeRef instance location (CreateVolumeResponse_Name resp)) secrets) h0 = (h0, Ok tt).
Proof.
  intros Hc h0. unfold createShallowVolume in Hc. unfold mbind, M_bind, guard_ in Hc. destruct (negb _); [|done].
  destruct (splitSnap (VolumeRef_Name src)) as [[sub snap]|]; [|done].
  destruct (getpath _ _ _ _ h) as [h1 [path|e]]; [|done]. injection Hc as <- <-. done.
Qed.

(** ** On a bench *)
Definition ex_fs : ClusterConfig := mkClusterConfig ["10.0.0.1"] "cephfs" "" "" "" "" "".
Definition ex_fs_config : Config := New {["c1" := ex_fs]} "".
Definition ex_sub (name : string) : VolumeRef := mkVolumeRef "c1" "cephfs/csi" name.
Definition fs_bench (answers : list (string * list string * output)) : rbdbench.bench :=
  rbdbench.mkBench (rbdbench.script answers) ∅ 0.
Definition commands (t : list event) : list (list string) :=
  omap (λ e, match e with ECommand n a _ => Some (n :: drop 4 a) | _ => None end) t.
(** A clone that takes two polls. *)
Definition ex_restore : CreateVolumeRequest :=
  mkCreateVolumeRequest "pvc-2" 1048576 "c1" "" ∅ ∅ ∅ (Some (ex_sub "bard-1@snap-1")) None.
Definition ex_clone_sub : string := subvolName subvolNamePrefix "pvc-2".
Definition ex_done : output :=
  rbdbench.says (print (JObj [("status", JObj [("state", JStr "complete")])])).
Definition ex_status_args : list string := ["fs"; "clone"; "status"; "cephfs"; ex_clone_sub; "--format"; "json"; "--group-name"; "csi"].
Lemma clone_handed_out_complete_witness :
  existsb (clone_complete "cephfs" "csi" ex_clone_sub)
    (CreateVolume ex_fs_config ex_restore (fs_bench [("ceph", ex_status_args, ex_done)], [])).1.2 = true.
Proof.
  apply (clone_handed_out_complete ex_fs_config ex_restore (fs_bench [("ceph", ex_status_args, ex_done)]) ex_fs subvolNamePrefix); done.
Defined.
Lemma waitClone_ends_witness :
  (waitClone [] "cephfs" "csi" ex_clone_sub (fs_bench [("ceph", ex_status_args, rbdbench.says (print (JObj [])))])).2 ≠ Err out_of_fuel.
Proof. apply (waitClone_ends (H := rbdbench.bench)); intros; simpl; lia. Defined.
Lemma shallow_volume_deletes_nothing_witness :
  DeleteVolume ex_fs_config (mkDeleteVolumeRequest (ex_sub "shallow-bard-1@snap-1") ∅) (fs_bench []) = (fs_bench [], Ok tt).
Proof.
  exact (shallow_volume_deletes_nothing ex_fs_config [] ex_fs ex_restore (ex_sub "bard-1@snap-1") (fs_bench []) (fs_bench [])
    (mkCreateVolumeResponse "cephfs" "shallow-bard-1@snap-1" 1048576 {["path" := "/.snap/snap-1"]} ∅) "c1" "cephfs/csi" ∅ eq_refl (fs_bench [])).
Defined.

(** A StorageClass may choose the prefix of shallow volumes: the subvolume is created, and
    deleting the volume does nothing. *)
Example prefix_taken_for_shallow :
  let req := mkCreateVolumeRequest "pvc-1" 1048576 "c1" "" {["volumeNamePrefix" := "shallow-"]} ∅ ∅ None None in
  let sub := subvolName "shallow-" "pvc-1" in
  let created := CreateVolume ex_fs_config req (fs_bench [], []) in
  ["ceph"; "fs"; "subvolume"; "create"; "cephfs"; sub; "--size"; "1048576"; "--group-name"; "csi"] ∈ commands created.1.2 ∧
  (CreateVolumeResponse_Name <$> created.2) = Ok sub ∧
  DeleteVolume ex_fs_config (mkDeleteVolumeRequest (ex_sub sub) ∅) (fs_bench [], [] : list event) = ((fs_bench [], []), Ok tt).
Proof. vm_compute. split; [set_solver|done]. Qed.
(** A VolumeSnapshotClass may choose the prefix of temporary snapshots: deleting the volume
    removes the snapshot. *)
Example snapshot_taken_for_temporary :
  let snap := snapName "clonetmp-" "s1" in
  namePrefix paramSnapshotNamePrefix "clonetmp-" snapNamePrefix = Ok "clonetmp-" ∧
  ["ceph"; "fs"; "subvolume"; "snapshot"; "rm"; "cephfs"; "bard-1"; snap; "--force"; "--group-name"; "csi"] ∈
  commands (DeleteVolume ex_fs_config (mkDeleteVolumeRequest (ex_sub "bard-1") ∅)
    (fs_bench [("ceph", ["fs"; "subvolume"; "snapshot"; "ls"; "cephfs"; "bard-1"; "--format"; "json"; "--group-name"; "csi"],
                rbdbench.says (print (JArr [JObj [("name", JStr snap)]])))], [])).1.2.
Proof. vm_compute. split; [done|set_solver]. Qed.
(** A healthy shallow volume is reported as gone: there is no subvolume of its name. *)
Example shallow_reported_gone :
  (GetVolumeHealthResponse_Abnormal <$> (GetVolumeHealth ex_fs_config (mkGetVolumeHealthRequest (ex_sub "shallow-bard-1@snap-1") ∅)
    (fs_bench [("ceph", ["fs"; "subvolume"; "info"; "cephfs"; "shallow-bard-1@snap-1"; "--format"; "json"; "--group-name"; "csi"],
                rbdbench.fails "Error ENOENT: subvolume does not exist")])).2) = Ok true.
Proof. vm_compute. reflexivity. Qed.
End cephfssafety.
