(* ===== verification/NFS.v ===== *)
(** * The NFS plugin (internal/nfsplugin)

    Every operation of the plugin.  Besides commands it makes file-system calls on a
    mounted export: the class [Files] has one operation per call of Go's os package,
    on the opaque state of the host.  The theorems hold on any host; what they say
    about paths needs [MkdirTemp] to return an absolute path without empty or dot
    segments, which is the class [TempDirs]. *)
From Stdlib Require Import Ascii.
From S2P Require Import Prelude GoStrings GoPath Json Protocol Sha256 Host GoOs.

Module nfsplugin.
Import bardplugin.

(** ** Constants and configuration *)
Record InstanceConfig := mkInstanceConfig { ic_Server : string; ic_Export : string; ic_OnDelete : string }.
Abbreviation Instances := (gmap string InstanceConfig).

Definition paramSubDir : string := "subDir".
Definition paramMountPermissions : string := "mountPermissions".
Definition onDeleteRetain : string := "retain".
Definition onDeleteArchive : string := "archive".
Definition snapDir : string := ".snapshots".

Definition Info_ : Info :=
  mkInfo "nfs" "" (mkCapabilities false false false true false false false false false false false false
    false false false false).

(** ** Names and paths *)
Definition snapName (csiName : string) : string := "snap-" +:+ sha256.short_hash csiName.
Definition volName (csiName : string) : string := "bard-" +:+ sha256.short_hash csiName.
Definition snapArchive (snapID : string) : string := Join [snapDir; snapID +:+ ".tar.gz"].
Definition snapSrcFile (snapID : string) : string := Join [snapDir; snapID +:+ ".src"].

(** [strings.NewReplacer(...).Replace]: at each position the first old string that
    matches is replaced; [skip] bytes of a match are left to drop. *)
Fixpoint first_match (pairs : list (string * string)) (s : string) : option (string * string) :=
  match pairs with
  | [] => None
  | (old, new) :: pairs => if has_prefix old s then Some (old, new) else first_match pairs s
  end.
Fixpoint replace_all (pairs : list (string * string)) (skip : nat) (s : string) : string :=
  match s with
  | EmptyString => ""
  | String a s' =>
      match skip with
      | S skip => replace_all pairs skip s'
      | O =>
          match first_match pairs s with
          | Some (old, new) => new +:+ replace_all pairs (String.length old - 1) s'
          | None => String a (replace_all pairs 0 s')
          end
      end
  end.

(** [expandSubDir], [volDir]. *)
Definition expandSubDir (tmpl : string) (params : strmap) : string :=
  replace_all
    [("${pvc.metadata.name}", mget params "csi.storage.k8s.io/pvc/name");
     ("${pvc.metadata.namespace}", mget params "csi.storage.k8s.io/pvc/namespace");
     ("${pv.metadata.name}", mget params "csi.storage.k8s.io/pv/name")] 0 tmpl.
Definition volDir (req : CreateVolumeRequest) : string :=
  let t := mget (CreateVolumeRequest_Parameters req) paramSubDir in
  let d := expandSubDir t (CreateVolumeRequest_Parameters req) in
  if negb (bool_decide (t = "")) && negb (bool_decide (d = "")) && negb (contains "${" d)
  then trim_byte slash d
  else volName (CreateVolumeRequest_Name req).

(** [strconv.ParseUint(s, 8, 32)]. *)
Fixpoint octal (s : string) (n : Z) : option Z :=
  match s with
  | EmptyString => Some n
  | String a s' =>
      match Ascii.is_nat a with
      | Some d =>
          if bool_decide (d < 8)
          then let n1 := (n * 8 + Z.of_nat d)%Z in if bool_decide (n1 > 4294967295)%Z then None else octal s' n1
          else None
      | None => None
      end
  end.
Definition ParseUint_8_32 (s : string) : option Z := if bool_decide (s = "") then None else octal s 0.

(** [isNotMounted] (runner.go). *)
Definition isNotMounted (err : string) : bool :=
  let s := to_lower err in contains "not mounted" s || contains "not currently mounted" s.

Definition reserved (name : string) : bool :=
  bool_decide (name = snapDir) || has_prefix "archived-" name || contains ".." name.

Section plugin.
  Context {H : Type} `{Host H} `{Files H} `{MapIter} (instances : Instances).
  Abbreviation op A := (M H perror A).

Definition instance (id : string) : res perror InstanceConfig :=
  match instances !! id with
  | Some ic => Ok ic
  | None => Err (Errorf CodeInvalidArg "nfs: no instance %q configured")
  end.

Definition mounted (path : string) : op bool :=
  out ← run_out "findmnt" ["-n"; "-o"; "SOURCE"; "--mountpoint"; path];
  mret (negb (bool_decide (trim_space out = ""))).

(** [withExportMounted]: the export at [tmp], [fn] on it, and the unmount, which
    runs whatever [fn] did; then the temporary directory is removed, not
    recursively, whatever happened. *)
Definition on_mount {A} (ic : InstanceConfig) (fn : string → op A) (tmp : string) : op A :=
  catch (run "mount" ["-t"; "nfs"; "-o"; "vers=4.1"; ic_Server ic +:+ ":" +:+ ic_Export ic; tmp]) (λ mr,
    match mr with
    | Err _ => fail (Errorf CodeInternal "nfs: mount export: %v")
    | Ok _ =>
        catch (fn tmp) (λ ferr,
          catch (run "umount" [tmp]) (λ uerr,
            match uerr, ferr with
            | Ok _, _ => lift ferr
            | Err _, Err e => fail (mkPerror (as_StatusError e) "%w (and unmount of %s failed: %v)")
            | Err _, Ok _ => fail (Errorf CodeInternal "nfs: unmount export at %s: %v")
            end))
    end).
Definition withExportMounted {A} (ic : InstanceConfig) (fn : string → op A) : op A :=
  tmp ← os_or "%w" (os_get (MkdirTemp "" "bard-nfs-"));
  catch (on_mount ic fn tmp) (λ r,
    catch (os_unit (Remove tmp)) (λ _, lift r)).

(** ** Control plane *)

(** What [CreateVolume] does on the mounted export. *)
Definition populate (req : CreateVolumeRequest) (mnt dir : string) : op unit :=
  match CreateVolumeRequest_SourceSnapshot req, CreateVolumeRequest_SourceVolume req with
  | Some s, _ =>
      run_or "nfs: restore snapshot %s: %w" "tar"
        ["xzf"; Join [mnt; snapArchive (VolumeRef_Name s)]; "-C"; dir];;
      mret tt
  | None, Some v =>
      run_or "nfs: clone volume %s: %w" "cp" ["-a"; Join [mnt; VolumeRef_Name v] +:+ "/."; dir];;
      mret tt
  | None, None => mret tt
  end.
Definition create_in (req : CreateVolumeRequest) (name mnt : string) : op unit :=
  let dir := Join [mnt; name] in
  mkdir_all "%w" dir 511;;
  populate req mnt dir;;
  let perm := mget (CreateVolumeRequest_Parameters req) paramMountPermissions in
  if bool_decide (perm = "") then mret tt
  else match ParseUint_8_32 perm with
  | None => fail (Errorf CodeInvalidArg "nfs: invalid mountPermissions %q: %v")
  | Some mode => os_or "nfs: chmod %s: %w" (os_unit (Chmod dir mode))
  end.
Definition CreateVolume (req : CreateVolumeRequest) : op CreateVolumeResponse :=
  ic ← lift (instance (CreateVolumeRequest_Instance req));
  let name := volDir req in
  guard_ (negb (reserved name)) (Errorf CodeInvalidArg "nfs: reserved volume directory name %q");;
  withExportMounted ic (create_in req name);;
  mret (mkCreateVolumeResponse (ic_Export ic) name (CreateVolumeRequest_CapacityBytes req)
    {["server" := ic_Server ic]} ∅).

Definition delete_in (ic : InstanceConfig) (name mnt : string) : op unit :=
  let dir := Join [mnt; name] in
  if equal_fold (ic_OnDelete ic) onDeleteArchive then
    let archived := Join [Dir dir; "archived-" +:+ Base dir] in
    catch (os_unit (Rename dir archived)) (λ r,
      match r with
      | Ok _ => mret tt
      | Err e => if not_exist e then mret tt else fail (errorf "nfs: archive %s: %w")
      end)
  else os_or "%w" (os_unit (RemoveAll dir)).
Definition DeleteVolume (req : DeleteVolumeRequest) : op unit :=
  let v := DeleteVolumeRequest_Volume req in
  ic ← lift (instance (VolumeRef_Instance v));
  if equal_fold (ic_OnDelete ic) onDeleteRetain then mret tt
  else withExportMounted ic (delete_in ic (VolumeRef_Name v)).

Definition ExpandVolume (_ : ExpandVolumeRequest) : op ExpandVolumeResponse :=
  fail (Errorf CodeInvalidArg "nfs: expand not supported").

(** The source a snapshot's sidecar file records, [None] when it cannot be read. *)
Definition read_source (mnt snapID : string) : op (option string) :=
  catch (os_get (ReadFile (Join [mnt; snapSrcFile snapID]))) (λ r,
    mret (match r with Ok data => Some (trim_space data) | Err _ => None end)).
Definition other_source (prev : option string) (src : string) : bool :=
  match prev with
  | Some p => negb (bool_decide (p = "")) && negb (bool_decide (p = src))
  | None => false
  end.
(** What [CreateSnapshot] does on the mounted export; the archive's size. *)
Definition snapshot_in (src snapID mnt : string) : op Z :=
  mkdir_all "%w" (Join [mnt; snapDir]) 448;;
  prev ← read_source mnt snapID;
  guard_ (negb (other_source prev src))
    (Errorf CodeAlreadyExists "nfs: snapshot %q already exists for a different source volume (%s)");;
  let archive := Join [mnt; snapArchive snapID] in
  run_or "nfs: snapshot %s: %w" "tar" ["czf"; archive; "-C"; Join [mnt; src]; "."];;
  catch (os_unit (WriteFile (Join [mnt; snapSrcFile snapID]) src 384)) (λ _, mret tt);;
  catch (os_get (Stat archive)) (λ r, mret (match r with Ok n => n | Err _ => 0%Z end)).
Definition CreateSnapshot (req : CreateSnapshotRequest) : op CreateSnapshotResponse :=
  let src := CreateSnapshotRequest_SourceVolume req in
  ic ← lift (instance (VolumeRef_Instance src));
  let snapID := snapName (CreateSnapshotRequest_Name req) in
  size ← withExportMounted ic (snapshot_in (VolumeRef_Name src) snapID);
  now ← gets UnixNow;
  mret (mkCreateSnapshotResponse (ic_Export ic) snapID "" size now true).

Definition delete_snapshot_in (snapID mnt : string) : op unit :=
  catch (os_unit (RemoveAll (Join [mnt; snapSrcFile snapID]))) (λ _, mret tt);;
  os_or "%w" (os_unit (RemoveAll (Join [mnt; snapArchive snapID]))).
Definition DeleteSnapshot (req : DeleteSnapshotRequest) : op unit :=
  let s := DeleteSnapshotRequest_Snapshot req in
  ic ← lift (instance (VolumeRef_Instance s));
  withExportMounted ic (delete_snapshot_in (VolumeRef_Name s)).

(** [GetCapacity]: [int64(st.Bavail) * int64(st.Bsize)]. *)
Definition capacity_in (mnt : string) : op Z :=
  catch (os_get (Statfs mnt)) (λ r,
    match r with
    | Ok st => mret (wrap64 (wrap64 st.1 * wrap64 st.2))
    | Err _ => fail (Errorf CodeInternal "nfs: statfs %s: %v")
    end).
Definition GetCapacity (req : GetCapacityRequest) : op GetCapacityResponse :=
  ic ← lift (instance (GetCapacityRequest_Instance req));
  avail ← withExportMounted ic capacity_in;
  mret (mkGetCapacityResponse avail).

Definition health_in (dir mnt : string) : op GetVolumeHealthResponse :=
  catch (os_get (Stat (Join [mnt; dir]))) (λ r,
    match r with
    | Ok _ => mret (mkGetVolumeHealthResponse false ("nfs subdirectory " +:+ dir +:+ " is accessible"))
    | Err e =>
        if not_exist e
        then mret (mkGetVolumeHealthResponse true ("nfs subdirectory " +:+ dir +:+ " no longer exists"))
        else fail (Errorf CodeInternal "nfs: stat %s: %v")
    end).
Definition GetVolumeHealth (req : GetVolumeHealthRequest) : op GetVolumeHealthResponse :=
  let v := GetVolumeHealthRequest_Volume req in
  ic ← lift (instance (VolumeRef_Instance v));
  withExportMounted ic (health_in (VolumeRef_Name v)).

(** ** Listing *)
Definition volume_entry (instance export : string) (e : dirent) : option VolumeListEntry :=
  if negb (de_dir e) || bool_decide (de_name e = snapDir) || has_prefix "archived-" (de_name e) then None
  else Some (mkVolumeListEntry (mkVolumeRef instance export (de_name e)) 0).
Definition volumes_in (instance : string) (ic : InstanceConfig) (mnt : string) : op (list VolumeListEntry) :=
  ents ← os_or "nfs: readdir export %s: %w" (os_get (ReadDir mnt));
  mret (omap (volume_entry instance (ic_Export ic)) ents).

Fixpoint snapshot_entries (instance : string) (ic : InstanceConfig) (mnt : string) (ents : list dirent)
    (entries : list SnapshotListEntry) : op (list SnapshotListEntry) :=
  match ents with
  | [] => mret entries
  | e :: ents =>
      let n := de_name e in
      if negb (has_prefix "snap-" n) || negb (has_suffix ".tar.gz" n)
      then snapshot_entries instance ic mnt ents entries
      else
        let snapID := trim_suffix ".tar.gz" n in
        data ← catch (os_get (ReadFile (Join [mnt; snapSrcFile snapID]))) (λ r, mret r);
        let src := match data with
                   | Ok d => mkVolumeRef instance (ic_Export ic) (trim_space d)
                   | Err _ => mkVolumeRef "" "" ""
                   end in
        snapshot_entries instance ic mnt ents
          (entries ++ [mkSnapshotListEntry (mkVolumeRef instance (ic_Export ic) snapID) src
                         (default 0%Z (de_size e)) 0 true])
  end.
Definition snapshots_in (instance : string) (ic : InstanceConfig) (mnt : string) : op (list SnapshotListEntry) :=
  catch (os_get (ReadDir (Join [mnt; snapDir]))) (λ r,
    match r with
    | Ok ents => snapshot_entries instance ic mnt ents []
    | Err e => if not_exist e then mret [] else fail (errorf "nfs: readdir snapshots %s: %w")
    end).

(** The loop over the instances both listings share. *)
Fixpoint list_exports {A} (body : string → InstanceConfig → string → op (list A))
    (l : list (string * InstanceConfig)) (entries : list A) : op (list A) :=
  match l with
  | [] => mret entries
  | (i, ic) :: l =>
      es ← withExportMounted ic (body i ic);
      list_exports body l (entries ++ es)
  end.
Definition ListVolumes (_ : ListVolumesRequest) : op ListVolumesResponse :=
  es ← list_exports volumes_in (range instances) [];
  mret (mkListVolumesResponse es).
Definition ListSnapshots (_ : ListSnapshotsRequest) : op ListSnapshotsResponse :=
  es ← list_exports snapshots_in (range instances) [];
  mret (mkListSnapshotsResponse es).

(** ** Node plane *)
Definition NodeStage (req : NodeStageRequest) : op unit :=
  let v := NodeStageRequest_Volume req in
  ic ← lift (instance (VolumeRef_Instance v));
  mkdir_all "%w" (NodeStageRequest_StagingPath req) 488;;
  m ← mounted (NodeStageRequest_StagingPath req);
  if m : bool then mret tt
  else
    let opts := "vers=4.1" +:+
      (match NodeStageRequest_MountFlags req with [] => "" | fl => "," +:+ join "," fl end) +:+
      (if NodeStageRequest_Readonly req then ",ro" else "") in
    let src := ic_Server ic +:+ ":" +:+ Join [VolumeRef_Location v; VolumeRef_Name v] in
    run_or "%w" "mount" ["-t"; "nfs"; "-o"; opts; src; NodeStageRequest_StagingPath req];;
    mret tt.

Definition NodeUnstage (req : NodeUnstageRequest) : op unit :=
  run_unless isNotMounted "%w" "umount" [NodeUnstageRequest_StagingPath req].

Definition NodePublish (req : NodePublishRequest) : op unit :=
  mkdir_all "%w" (NodePublishRequest_TargetPath req) 488;;
  m ← mounted (NodePublishRequest_TargetPath req);
  if m : bool then mret tt
  else
    run_or "%w" "mount" ["--bind"; NodePublishRequest_StagingPath req; NodePublishRequest_TargetPath req];;
    if NodePublishRequest_Readonly req then
      run_or "%w" "mount"
        ["-o"; "remount,ro,bind"; NodePublishRequest_StagingPath req; NodePublishRequest_TargetPath req];;
      mret tt
    else mret tt.

Definition NodeUnpublish (req : NodeUnpublishRequest) : op unit :=
  run_unless isNotMounted "%w" "umount" [NodeUnpublishRequest_TargetPath req].

Definition NodeExpand (_ : NodeExpandRequest) : op NodeExpandResponse :=
  fail (Errorf CodeInvalidArg "nfs: expand not supported").

(** The plugin, as [bardplugin.Serve] sees it. *)
Definition New : Backend H :=
  mkBackend Info_ CreateVolume DeleteVolume ExpandVolume CreateSnapshot DeleteSnapshot NodeStage NodeUnstage
    NodePublish NodeUnpublish NodeExpand
    (Some (mkCapacityReporter GetCapacity)) (Some (mkHealthReporter GetVolumeHealth)) None None
    (Some (mkVolumeLister ListVolumes)) (Some (mkSnapshotLister ListSnapshots)) None None None None None None.
End plugin.
End nfsplugin.
