(* ===== verification/NFSExport.v ===== *)
(** * The NFS plugin leaves the export as it should (internal/nfsplugin)

    The control plane of the NFS plugin works on the export through a temporary
    mount.  The events of a run (commands and file-system calls, with their answers)
    are followed by an automaton: a temporary directory is made, the export is mounted
    on it, only the paths the operation is about are changed, the export is unmounted
    whatever happened, and the directory is removed without recursion.  Every statement
    is for any host; [TempDirs] is what [os.MkdirTemp] is documented to answer. *)
From Stdlib Require Import Ascii.
From S2P Require Import Prelude GoStrings GoPath Json Protocol Sha256 Host GoOs NFS.

(** [os.MkdirTemp] answers the path of a directory under the system's temporary
    directory, itself absolute and clean. *)
Class TempDirs (H : Type) `{Files H} : Prop :=
  temp_plain : ∀ h p, (MkdirTemp "" "bard-nfs-" h).2 = Ok p → plain_abs p = true.

Module nfsexport.
Import bardplugin nfsplugin.

(** ** Events *)
Inductive event :=
  | ECommand (name : string) (args : list string) (o : output)
  | EMkdirAll (path : string)
  | EMkdirTemp (r : res os_error string)
  | ERemove (path : string)
  | ERemoveAll (path : string)
  | ERename (old new : string)
  | EReadFile (path : string) (r : res os_error string)
  | EWriteFile (path data : string)
  | EChmod (path : string)
  | ELook.

#[global] Instance event_recorder : Recorder event := {| rec_run := ECommand; rec_mkdir p := [EMkdirAll p] |}.

Section recorded.
  Context {H : Type} `{Host H} `{Files H}.

#[global] Instance noted_files : Files (H * list event) := {|
  MkdirTemp d p := noted (MkdirTemp d p) EMkdirTemp;
  Remove p := noted (Remove p) (λ _, ERemove p);
  RemoveAll p := noted (RemoveAll p) (λ _, ERemoveAll p);
  Rename p q := noted (Rename p q) (λ _, ERename p q);
  ReadFile p := noted (ReadFile p) (EReadFile p);
  WriteFile p d m := noted (WriteFile p d m) (λ _, EWriteFile p d);
  Stat p := noted (Stat p) (λ _, ELook);
  ReadDir p := noted (ReadDir p) (λ _, ELook);
  Chmod p m := noted (Chmod p m) (λ _, EChmod p);
  Statfs p := noted (Statfs p) (λ _, ELook);
|}.
#[global] Instance noted_temp `{!TempDirs H} : TempDirs (H * list event).
Proof.
  intros [h t] p. unfold MkdirTemp at 1, noted_files, noted. simpl.
  pose proof (temp_plain h) as Ht. destruct (MkdirTemp "" "bard-nfs-" h) as [h' r]. apply Ht.
Qed.

End recorded.

(** ** The automaton *)
Inductive stage := Idle | Made (tmp : string) | Mounted (tmp : string) | Released (tmp : string).

(** The paths an event changes; [None] for what only the bracket may do. *)
Definition command_changes (name : string) (args : list string) : option (list string) :=
  match args with
  | [a; archive; c; dir] =>
      if bool_decide (name = "tar" ∧ a = "xzf" ∧ c = "-C") then Some [dir] else None
  | [a; archive; c; dir; d] =>
      if bool_decide (name = "tar" ∧ a = "czf" ∧ c = "-C" ∧ d = ".") then Some [archive] else None
  | [a; src; dir] => if bool_decide (name = "cp" ∧ a = "-a") then Some [dir] else None
  | _ => None
  end.
Definition changes (e : event) : option (list string) :=
  match e with
  | ECommand name args _ => command_changes name args
  | EMkdirAll p | ERemoveAll p | EWriteFile p _ | EChmod p => Some [p]
  | ERename p q => Some [p; q]
  | EReadFile _ _ | ELook => Some []
  | EMkdirTemp _ | ERemove _ => None
  end.
Definition unmounts (tmp : string) (e : event) : bool :=
  match e with ECommand name args _ => bool_decide (name = "umount" ∧ args = [tmp]) | _ => false end.
(** The mount of one of the [exports] at [tmp]. *)
Definition mounts (exports : list string) (tmp name : string) (args : list string) : bool :=
  bool_decide (name = "mount") &&
  existsb (λ ex, bool_decide (args = ["-t"; "nfs"; "-o"; "vers=4.1"; ex; tmp])) exports.
(** [scope]: the paths, relative to the export, the operation may change. *)
Definition within (scope : list string) (tmp p : string) : bool :=
  existsb (λ q, bool_decide (p = tmp +:+ String slash q)) scope.
Definition step (exports scope : list string) (s : stage) (e : event) : option stage :=
  match s, e with
  | Idle, EMkdirTemp (Ok tmp) => Some (Made tmp)
  | Idle, EMkdirTemp (Err _) => Some Idle
  | Made tmp, ECommand name args o =>
      if mounts exports tmp name args
      then Some (match o_err o with None => Mounted tmp | Some _ => Released tmp end) else None
  | Mounted tmp, _ =>
      if unmounts tmp e then Some (Released tmp)
      else match changes e with
      | Some l => if forallb (within scope tmp) l then Some (Mounted tmp) else None
      | None => None
      end
  | Released tmp, ERemove p => if bool_decide (p = tmp) then Some Idle else None
  | _, _ => None
  end.
Fixpoint follow (exports scope : list string) (s : stage) (t : list event) : option stage :=
  match t with
  | [] => Some s
  | e :: t => match step exports scope s e with Some s' => follow exports scope s' t | None => None end
  end.
(** From Idle back to Idle: every temporary mount was made, used and undone. *)
Definition bracketed (exports scope : list string) (t : list event) : Prop :=
  follow exports scope Idle t = Some Idle.

Definition stays (exports scope : list string) (s : stage) (t : list event) : Prop :=
  follow exports scope s t = Some s.
Lemma follow_app ex sc s t1 t2 :
  follow ex sc s (t1 ++ t2) = match follow ex sc s t1 with Some s' => follow ex sc s' t2 | None => None end.
Proof. revert s. induction t1 as [|e t1 IH]; intros s; simpl; [done|]. destruct (step ex sc s e); [apply IH|done]. Qed.
#[global] Instance stays_closed ex sc s : Closed (stays ex sc s).
Proof. split; [done|]. intros t1 t2 H1 H2. unfold stays. by rewrite follow_app, H1. Qed.

Section bracket.
  Context {H : Type} `{Host H} `{Files H} `{!TempDirs H} `{MapIter} (instances : Instances).
  Abbreviation op A := (M (H * list event) perror A).
  Abbreviation source ic := (ic_Server ic +:+ ":" +:+ ic_Export ic).

(** The events of a bracket around those of its body, which satisfy [P]. *)
Abbreviation mount_args ic tmp := (["-t"; "nfs"; "-o"; "vers=4.1"; source ic; tmp]).
Inductive bracket (ic : InstanceConfig) (P : string → list event → Prop) : list event → Prop :=
  | no_directory e : bracket ic P [EMkdirTemp (Err e)]
  | not_mounted tmp o e : o_err o = Some e →
      bracket ic P [EMkdirTemp (Ok tmp); ECommand "mount" (mount_args ic tmp) o; ERemove tmp]
  | used tmp o o' body : o_err o = None → P tmp body →
      bracket ic P ([EMkdirTemp (Ok tmp); ECommand "mount" (mount_args ic tmp) o] ++
        body ++ [ECommand "umount" [tmp] o'; ERemove tmp]).

Lemma withExportMounted_bracket {A} ic P (fn : string → op A) :
  (∀ tmp, plain_abs tmp = true → Traces (P tmp) (fn tmp)) → Traces (bracket ic P) (withExportMounted ic fn).
Proof.
  intros Hfn h t. unfold withExportMounted, os_or, run_err, os_get, mbind, M_bind.
  pose proof (temp_plain (h, t)) as Htmp. simpl in *. unfold noted in *. simpl in *.
  destruct (MkdirTemp "" "bard-nfs-" h) as [h1 [tmp|e]]; simpl in *; [|eexists; by split; [|constructor]].
  specialize (Hfn tmp (Htmp tmp eq_refl)).
  unfold catch, on_mount, catch, run, os_unit, fail, lift. simpl.
  destruct (Run "mount" _ h1) as [h2 o]. simpl. destruct (o_err o) as [e|] eqn:Ho; simpl; unfold noted; simpl.
  { destruct (Remove tmp h2) as [h3 r]. rewrite <-!app_assoc. eexists. split; [reflexivity|].
    by eapply not_mounted. }
  destruct (Hfn h2 ((t ++ [EMkdirTemp (Ok tmp)]) ++ [ECommand "mount" (mount_args ic tmp) o])) as (body & Hbody & Hs).
  destruct (fn tmp _) as [[h3 t3] r]. simpl in Hbody. subst t3. simpl.
  destruct (Run "umount" [tmp] h3) as [h4 o']. destruct (Remove tmp h4) as [h5 r'] eqn:Hr.
  exists ([EMkdirTemp (Ok tmp); ECommand "mount" (mount_args ic tmp) o] ++
    body ++ [ECommand "umount" [tmp] o'; ERemove tmp]). split; [|by constructor].
  destruct (o_err o'), r; simpl; rewrite Hr; simpl; by rewrite <-!app_assoc.
Qed.
Lemma mounts_source ex ic tmp : source ic ∈ ex → mounts ex tmp "mount" (mount_args ic tmp) = true.
Proof.
  intros Hex. unfold mounts. simpl. apply existsb_exists. exists (source ic).
  split; [by apply list_elem_of_In|by apply bool_decide_eq_true_2].
Qed.
Lemma bracket_stays ex sc ic t :
  source ic ∈ ex → bracket ic (λ tmp, stays ex sc (Mounted tmp)) t → stays ex sc Idle t.
Proof.
  intros Hex Ht. unfold stays. destruct Ht as [e|tmp o e Ho|tmp o o' body Ho Hb]; [done|..].
  - simpl. rewrite mounts_source by done. rewrite Ho. simpl. by rewrite bool_decide_eq_true_2.
  - rewrite follow_app. simpl. rewrite mounts_source by done. rewrite Ho, follow_app, Hb. simpl.
    rewrite bool_decide_eq_true_2 by done. simpl. by rewrite bool_decide_eq_true_2.
Qed.
Lemma withExportMounted_bracketed {A} ex sc ic (fn : string → op A) :
  source ic ∈ ex → (∀ tmp, plain_abs tmp = true → Traces (stays ex sc (Mounted tmp)) (fn tmp)) →
  Traces (stays ex sc Idle) (withExportMounted ic fn).
Proof.
  intros Hex Hfn. eapply Traces_weaken; [|by apply (withExportMounted_bracket ic (λ tmp, stays ex sc (Mounted tmp)))].
  intros t. by apply bracket_stays.
Qed.

(** ** The bodies stay below the mount *)
Lemma within_elem sc tmp q : q ∈ sc → within sc tmp (tmp +:+ String slash q) = true.
Proof.
  intros Hq. apply existsb_exists. exists q. split; [by apply list_elem_of_In|by apply bool_decide_eq_true_2].
Qed.
Lemma stays_changes ex sc tmp e l :
  changes e = Some l → forallb (within sc tmp) l = true → stays ex sc (Mounted tmp) [e].
Proof.
  intros Hc Hl. assert (unmounts tmp e = false) as Hu.
  { destruct e as [name args o| | | | | | | | |]; try done. simpl. apply bool_decide_eq_false_2. by intros [-> ->]. }
  unfold stays. simpl. by rewrite Hu, Hc, Hl.
Qed.
(** A change of one path of the scope. *)
Lemma stays_one ex sc tmp e q :
  changes e = Some [tmp +:+ String slash q] → q ∈ sc → stays ex sc (Mounted tmp) [e].
Proof. intros Hc Hq. eapply stays_changes; [exact Hc|]. simpl. by rewrite within_elem. Qed.
Lemma stays_look ex sc tmp e : changes e = Some [] → stays ex sc (Mounted tmp) [e].
Proof. intros Hc. by eapply stays_changes. Qed.

(** ** Names *)
Lemma plain_file s suffix : contains_char slash s = false → contains_char slash suffix = false →
  (2 < String.length suffix)%nat → plain (s +:+ suffix) = true.
Proof.
  intros Hs Hx Hl. unfold plain. rewrite contains_char_app, Hs, Hx.
  assert (Hn : ∀ t, (String.length t ≤ 2)%nat → bool_decide (s +:+ suffix = t) = false).
  { intros t Ht. apply bool_decide_eq_false_2. intros Heq. apply (f_equal String.length) in Heq.
    rewrite length_append in Heq. lia. }
  rewrite !Hn by (simpl; lia). done.
Qed.
Lemma snapArchive_path id :
  contains_char slash id = false →
  snapArchive id = ".snapshots/" +:+ id +:+ ".tar.gz" ∧ plain_rel (snapArchive id) = true.
Proof.
  intros Hid. assert (plain_rel (id +:+ ".tar.gz") = true) as Hp by (apply plain_rel_one, plain_file; [done..|simpl; lia]).
  unfold snapArchive. rewrite Join_plain_rel by done. split; [done|by apply plain_rel_sub].
Qed.
Lemma snapSrcFile_path id :
  contains_char slash id = false →
  snapSrcFile id = ".snapshots/" +:+ id +:+ ".src" ∧ plain_rel (snapSrcFile id) = true.
Proof.
  intros Hid. assert (plain_rel (id +:+ ".src") = true) as Hp by (apply plain_rel_one, plain_file; [done..|simpl; lia]).
  unfold snapSrcFile. rewrite Join_plain_rel by done. split; [done|by apply plain_rel_sub].
Qed.
Lemma snapName_free n : contains_char slash (snapName n) = false.
Proof. unfold snapName. rewrite contains_char_app, sha256.short_hash_free; done. Qed.
Lemma volName_plain n : plain_rel (volName n) = true.
Proof.
  apply plain_rel_one. unfold volName, plain. rewrite contains_char_app, sha256.short_hash_free by done. done.
Qed.

(** The name a deleted volume is kept under. *)
Definition archived (name : string) : string :=
  match last_slash name with
  | Some (d, b) => d +:+ "archived-" +:+ b
  | None => "archived-" +:+ name
  end.
Lemma archived_plain b : plain b = true → plain_rel ("archived-" +:+ b) = true.
Proof.
  intros (_ & _ & _ & Hb)%plain_facts. apply plain_rel_one. unfold plain.
  rewrite contains_char_app, Hb. done.
Qed.
Lemma archived_path tmp name :
  plain_abs tmp = true → plain_rel name = true →
  Join [Dir (tmp +:+ String slash name); "archived-" +:+ Base (tmp +:+ String slash name)] =
  tmp +:+ String slash (archived name).
Proof.
  intros Ht Hn. destruct (plain_rel_last _ Hn) as (b & Hb & [->|(q & Hq & ->)]); unfold archived.
  - rewrite Dir_below, Base_below by done. pose proof (plain_facts _ Hb) as (_ & _ & _ & Hs).
    unfold last_slash. rewrite split_on_none by done. by apply Join_plain, archived_plain.
  - change (tmp +:+ String slash (q +:+ String slash b)) with (tmp +:+ (String slash q +:+ String slash b)).
    rewrite <-string_app_assoc, Dir_below, Base_below by (done || by apply plain_abs_sub).
    pose proof (plain_facts _ Hb) as (_ & _ & _ & Hs). rewrite last_slash_sep by done.
    rewrite Join_plain by (by apply plain_abs_sub || by apply archived_plain).
    by rewrite !string_app_assoc.
Qed.

(** ** The operations on the mounted export *)
Ltac below := repeat match goal with H : plain_abs ?t = true |- context [Join [?t; ?q]] =>
  rewrite (Join_plain t q) by (done || by apply snapArchive_path || by apply snapSrcFile_path) end.
Ltac in_scope := intros; cbn [rec_mkdir rec_run event_recorder]; first
  [ by apply stays_look
  | (eapply stays_one; [reflexivity|]; repeat constructor) ].

Lemma create_in_stays ex req name tmp :
  plain_abs tmp = true → plain_rel name = true →
  Traces (stays ex [name] (Mounted tmp)) (create_in req name tmp).
Proof.
  intros Ht Hn. unfold create_in, populate. cbv zeta. rewrite (Join_plain tmp name) by done.
  repeat os_step. all: in_scope.
Qed.
Definition delete_scope (onDelete name : string) : list string :=
  if equal_fold onDelete onDeleteArchive then [name; archived name] else [name].
Lemma delete_in_stays ex ic name tmp :
  plain_abs tmp = true → plain_rel name = true →
  Traces (stays ex (delete_scope (ic_OnDelete ic) name) (Mounted tmp)) (delete_in ic name tmp).
Proof.
  intros Ht Hn. unfold delete_in, delete_scope. cbv zeta. rewrite (Join_plain tmp name), archived_path by done.
  repeat os_step.
  - eapply stays_changes; [reflexivity|]. cbn [forallb]. rewrite !within_elem; [done|repeat constructor..].
  - in_scope.
Qed.
Definition snapshot_scope (snapID : string) : list string :=
  [".snapshots/" +:+ snapID +:+ ".tar.gz"; ".snapshots/" +:+ snapID +:+ ".src"; ".snapshots"].
Lemma snapshot_in_stays ex src id tmp :
  plain_abs tmp = true → contains_char slash id = false →
  Traces (stays ex (snapshot_scope id) (Mounted tmp)) (snapshot_in src id tmp).
Proof.
  intros Ht Hid. unfold snapshot_in, read_source, other_source. cbv zeta. below.
  destruct (snapArchive_path _ Hid) as [-> _]. destruct (snapSrcFile_path _ Hid) as [-> _].
  repeat os_step. all: in_scope.
Qed.
Lemma delete_snapshot_in_stays ex id tmp :
  plain_abs tmp = true → contains_char slash id = false →
  Traces (stays ex (snapshot_scope id) (Mounted tmp)) (delete_snapshot_in id tmp).
Proof.
  intros Ht Hid. unfold delete_snapshot_in. below.
  destruct (snapArchive_path _ Hid) as [-> _]. destruct (snapSrcFile_path _ Hid) as [-> _].
  repeat os_step. all: in_scope.
Qed.
Lemma snapshot_entries_stays ex i ic tmp ents es :
  Traces (stays ex [] (Mounted tmp)) (snapshot_entries (H := H * list event) i ic tmp ents es).
Proof.
  revert es. induction ents as [|e ents IH]; intros es; simpl; [by repeat os_step|].
  destruct (_ || _); [apply IH|]. apply Closed_bind; [apply _| |intros; apply IH]. repeat os_step. all: in_scope.
Qed.
Lemma list_exports_stays {A} ex body l (es : list A) :
  (∀ i ic, (i, ic) ∈ l → source ic ∈ ex) →
  (∀ i ic tmp, Traces (stays ex [] (Mounted tmp)) (body i ic tmp : op _)) →
  Traces (stays ex [] Idle) (list_exports body l es).
Proof.
  intros Hl Hb. revert es Hl. induction l as [|[i ic] l IH]; intros es Hl; simpl; [by repeat os_step|].
  apply Closed_bind; [apply _|..].
  - apply withExportMounted_bracketed; [apply (Hl i); constructor|]. intros tmp _. apply Hb.
  - intros. apply IH. intros i' ic' Hin. apply (Hl i'). by constructor.
Qed.

(** ** The claims *)

(** The export an instance names, and all of them. *)
Definition export_of (id : string) : list string :=
  match instances !! id with Some ic => [source ic] | None => [] end.
Definition all_exports : list string := map (λ p, source p.2) (range instances).

Lemma lift_Ok_bind {S E A B} (a : A) (f : A → M S E B) : lift (Ok a) ≫= f = f a.
Proof. reflexivity. Qed.
Lemma bracketed_op {A B} id sc (fn : InstanceConfig → string → op A) (k : InstanceConfig → A → op B) :
  (∀ ic a, Traces (stays (export_of id) sc Idle) (k ic a)) →
  (∀ ic tmp, instances !! id = Some ic → plain_abs tmp = true →
    Traces (stays (export_of id) sc (Mounted tmp)) (fn ic tmp)) →
  Traces (stays (export_of id) sc Idle)
    (ic ← lift (instance instances id); a ← withExportMounted ic (fn ic); k ic a).
Proof.
  intros Hk Hfn. unfold instance, export_of in *. destruct (instances !! id) as [ic|] eqn:Hi.
  - rewrite lift_Ok_bind. apply Closed_bind; [apply _|..]; [apply withExportMounted_bracketed; [constructor|]|apply Hk].
    intros tmp Ht. by apply Hfn.
  - by apply Closed_none; [apply _|].
Qed.
(** The same where the result of the bracket is the operation's. *)
Lemma bracketed_last {A} id sc (fn : InstanceConfig → string → op A) :
  (∀ ic tmp, instances !! id = Some ic → plain_abs tmp = true →
    Traces (stays (export_of id) sc (Mounted tmp)) (fn ic tmp)) →
  Traces (stays (export_of id) sc Idle) (ic ← lift (instance instances id); withExportMounted ic (fn ic)).
Proof.
  intros Hfn. unfold instance, export_of in *. destruct (instances !! id) as [ic|] eqn:Hi.
  - rewrite lift_Ok_bind. apply withExportMounted_bracketed; [constructor|]. intros tmp Ht. by apply Hfn.
  - by apply Closed_none; [apply _|].
Qed.
Lemma all_exports_elem i ic : (i, ic) ∈ range instances → source ic ∈ all_exports.
Proof. intros Hi. apply (list_elem_of_fmap_2 (λ p, source p.2) _ (i, ic)). done. Qed.

(** What a delete may change: nothing under retain. *)
Definition delete_scope_of (v : VolumeRef) : list string :=
  match instances !! VolumeRef_Instance v with
  | Some ic => delete_scope (ic_OnDelete ic) (VolumeRef_Name v)
  | None => []
  end.
Lemma DeleteVolume_stays req :
  plain_rel (VolumeRef_Name (DeleteVolumeRequest_Volume req)) = true →
  Traces (stays (export_of (VolumeRef_Instance (DeleteVolumeRequest_Volume req)))
    (delete_scope_of (DeleteVolumeRequest_Volume req)) Idle) (DeleteVolume (H := H * list event) instances req).
Proof.
  intros Hn. unfold DeleteVolume, delete_scope_of, instance, export_of.
  destruct (instances !! _) as [ic|] eqn:Hi; [|by apply Closed_none; [apply _|]].
  rewrite lift_Ok_bind. destruct (equal_fold _ onDeleteRetain); [by apply Closed_none; [apply _|]|].
  apply withExportMounted_bracketed; [constructor|]. intros tmp Ht. by apply delete_in_stays.
Qed.


(** [provenance src last t]: in the trace [t], run after the sidecar answered [last],
    an archive is written, and a sidecar with [src], only right where a sidecar was
    last read, and that one did not name another source. *)
Definition recorded (r : res os_error string) : option string :=
  match r with Ok data => Some (trim_space data) | Err _ => None end.
Definition free_of_other (src : string) (last : option (string * res os_error string)) (sidecar : string) : bool :=
  match last with
  | Some (p, r) => bool_decide (p = sidecar) && negb (other_source (recorded r) src)
  | None => false
  end.
Fixpoint provenance (src : string) (last : option (string * res os_error string)) (t : list event) : bool :=
  match t with
  | [] => true
  | EReadFile p r :: t => provenance src (Some (p, r)) t
  | EWriteFile p d :: t => free_of_other src last p && bool_decide (d = src) && provenance src last t
  | ECommand name args _ :: t =>
      (if bool_decide (name = "tar") then
         match args with
         | _ :: archive :: _ => has_suffix ".tar.gz" archive && free_of_other src last (trim_suffix ".tar.gz" archive +:+ ".src")
         | _ => false
         end
       else true) && provenance src last t
  | (ERemoveAll _ | ERename _ _) :: _ => false
  | _ :: t => provenance src last t
  end.

Lemma archive_sidecar stem src r :
  other_source (recorded r) src = false →
  has_suffix ".tar.gz" (stem +:+ ".tar.gz") &&
  free_of_other src (Some (stem +:+ ".src", r)) (trim_suffix ".tar.gz" (stem +:+ ".tar.gz") +:+ ".src") = true.
Proof.
  intros Ho. rewrite has_suffix_app, trim_suffix_app. simpl. by rewrite bool_decide_eq_true_2, Ho.
Qed.

Lemma snapshot_in_provenance src id tmp :
  plain_abs tmp = true → contains_char slash id = false →
  Traces (λ t, provenance src None t = true) (snapshot_in (H := H * list event) src id tmp).
Proof.
  intros Ht Hid h t. unfold snapshot_in, read_source. cbv zeta.
  rewrite !(Join_plain tmp (snapSrcFile id)), (Join_plain tmp (snapArchive id)) by
    (done || by apply snapArchive_path || by apply snapSrcFile_path).
  destruct (snapArchive_path _ Hid) as [-> _]. destruct (snapSrcFile_path _ Hid) as [-> _].
  change (String slash (".snapshots/" +:+ id +:+ ".src")) with ("/.snapshots/" +:+ (id +:+ ".src")).
  change (String slash (".snapshots/" +:+ id +:+ ".tar.gz")) with ("/.snapshots/" +:+ (id +:+ ".tar.gz")).
  rewrite <-!string_app_assoc. set (stem := (tmp +:+ "/.snapshots/") +:+ id).
  unfold mkdir_all, catch, os_get, os_unit, guard_, run_or, run_err, run, mbind, M_bind, mret, M_ret. simpl.
  destruct (MkdirAll _ 448 h) as [h1 [e|]]; simpl; [by eexists|]. unfold noted. simpl.
  destruct (ReadFile _ h1) as [h2 r] eqn:Hr. simpl. change (match r with Ok data => Some (trim_space data) | Err _ => None end) with (recorded r).
  destruct (other_source (recorded r) src) eqn:Ho; simpl.
  { rewrite <-!app_assoc. by eexists. }
  pose proof (archive_sidecar stem src r Ho) as Ha.
  destruct (Run "tar" _ h2) as [h3 o]. simpl. destruct (o_err o) as [e|]; simpl.
  - rewrite <-!app_assoc. eexists. split; [reflexivity|]. simpl in *. by rewrite Ha.
  - destruct (WriteFile _ _ _ h3) as [h4 w]. simpl. destruct (Stat _ h4) as [h5 st]. simpl.
    rewrite <-!app_assoc. eexists. split; [reflexivity|]. simpl in *. by rewrite Ha, Ho, !bool_decide_eq_true_2.
Qed.
Lemma provenance_app src last t1 t2 :
  provenance src last t1 = true → (∀ last', provenance src last' t2 = true) → provenance src last (t1 ++ t2) = true.
Proof.
  intros Ht1 Ht2. revert last Ht1. induction t1 as [|e t1 IH]; intros last; simpl; [auto|].
  destruct e; try done; try apply IH.
  - intros [-> Ht]%andb_true_iff. by apply IH.
  - intros [-> Ht]%andb_true_iff. by apply IH.
Qed.
Lemma bracket_provenance src ic t :
  bracket ic (λ _ t, provenance src None t = true) t → provenance src None t = true.
Proof. intros [e|tmp o e Ho|tmp o o' body Ho Hb]; [done..|]. simpl. by apply provenance_app. Qed.

(** A snapshot of another volume is never overwritten: [CreateSnapshot] writes an
    archive only after it read that archive's sidecar and found none, an empty one or
    one that names the volume at hand, and the sidecar it writes names that volume. *)
Theorem snapshot_keeps_other_source req h :
  provenance (VolumeRef_Name (CreateSnapshotRequest_SourceVolume req)) None
    (trace (CreateSnapshot (H := H * list event) instances req) h) = true.
Proof.
  set (src := VolumeRef_Name _). apply (Traces_trace (λ t, provenance src None t = true)). unfold CreateSnapshot, instance.
  destruct (instances !! _) as [ic|]; [|by intros ? t; exists []; rewrite app_nil_r].
  rewrite lift_Ok_bind. apply (Traces_bind _ (λ t, t = [])); [by intros t1 ? Ht1 ->; rewrite app_nil_r|..].
  - eapply Traces_weaken; [apply (bracket_provenance src ic)|]. apply (withExportMounted_bracket ic (λ _ t, provenance src None t = true)).
    intros tmp Ht. apply snapshot_in_provenance; [done|apply snapName_free].
  - intros size h' t. exists []. by rewrite app_nil_r.
Qed.

(** ** onDelete *)
Definition keeps_data (e : event) : Prop := match e with ERemoveAll _ => False | _ => True end.
Lemma bracket_each ic (Q : event → Prop) t :
  (∀ r, Q (EMkdirTemp r)) → (∀ p, Q (ERemove p)) → (∀ n a o, Q (ECommand n a o)) →
  bracket ic (λ _, Forall Q) t → Forall Q t.
Proof.
  intros Hm Hr Hc [e|tmp o e Ho|tmp o o' body Ho Hb]; [by repeat constructor..|]. simpl.
  repeat (constructor; [done|]). apply Forall_app. split; [done|]. by repeat constructor.
Qed.

(** The deletion policy of an instance, whatever the case it is written in: under
    retain a delete succeeds without a command or a call, and under archive nothing is
    removed, the volume is only renamed to its archived- name beside it. *)
Theorem delete_policy req ic :
  instances !! VolumeRef_Instance (DeleteVolumeRequest_Volume req) = Some ic →
  (equal_fold (ic_OnDelete ic) "retain" = true →
    ∀ h : H, DeleteVolume instances req h = (h, Ok tt)) ∧
  (equal_fold (ic_OnDelete ic) "archive" = true →
    ∀ h, Forall keeps_data (trace (DeleteVolume (H := H * list event) instances req) h)).
Proof.
  intros Hi. unfold DeleteVolume, instance. rewrite Hi. split.
  - intros Hr h. rewrite lift_Ok_bind. unfold onDeleteRetain. by rewrite Hr.
  - intros Ha h. apply Each_trace. rewrite lift_Ok_bind.
    destruct (equal_fold _ onDeleteRetain); [by apply Closed_none; [apply _|]|].
    eapply Traces_weaken; [intros t; apply (bracket_each ic keeps_data); done|].
    apply (withExportMounted_bracket ic (λ _, Forall keeps_data)). intros tmp _.
    unfold delete_in, onDeleteArchive. rewrite Ha. change (Forall keeps_data) with (Each keeps_data). repeat os_step.
    done.
Qed.
End bracket.

(** ** A quiet host: every command succeeds and no file is there *)
Definition quiet_host : Host unit := {|
  Run _ _ h := (h, mkOutput "" None); MkdirAll _ _ h := (h, None); UnixNow _ := 0%Z |}.
Definition missing : os_error := mkOsError true "no such file or directory".
Definition quiet_files : Files unit := {|
  MkdirTemp _ _ h := (h, Ok "/tmp/bard-nfs-1"); Remove _ h := (h, None); RemoveAll _ h := (h, None);
  Rename _ _ h := (h, None); ReadFile _ h := (h, Err missing); WriteFile _ _ _ h := (h, None);
  Stat _ h := (h, Err missing); ReadDir _ h := (h, Ok []); Chmod _ _ h := (h, None); Statfs _ h := (h, Ok (1, 4096)%Z) |}.
#[local] Existing Instance quiet_host.
#[local] Existing Instance quiet_files.
#[local] Instance quiet_temp : TempDirs unit.
Proof. by intros h p [= <-]. Qed.

Definition ex_nfs : Instances := {["nas" := mkInstanceConfig "10.0.0.5" "/srv/k8s" ""]}.
Definition ex_archive : Instances := {["nas" := mkInstanceConfig "10.0.0.5" "/srv/k8s" "Archive"]}.
Definition ex_templated (subDir : string) : CreateVolumeRequest :=
  mkCreateVolumeRequest "pvc-1" 1073741824 "nas" "" {["subDir" := subDir]} ∅ ∅ None None.
Definition ex_delete (name : string) : DeleteVolumeRequest :=
  mkDeleteVolumeRequest (mkVolumeRef "nas" "/srv/k8s" name) ∅.

Definition ex_snapshot : CreateSnapshotRequest :=
  mkCreateSnapshotRequest "snap" (mkVolumeRef "nas" "/srv/k8s" "vol-1") ∅ ∅.
Lemma snapshot_keeps_other_source_witness :
  provenance (VolumeRef_Name (CreateSnapshotRequest_SourceVolume ex_snapshot)) None
    (trace (CreateSnapshot (H := unit * list event) ex_nfs ex_snapshot) tt) = true.
Proof. exact (snapshot_keeps_other_source (H := unit) ex_nfs ex_snapshot tt). Defined.
Lemma delete_policy_witness :
  Forall keeps_data (trace (DeleteVolume (H := unit * list event) ex_archive (ex_delete "web")) tt).
Proof.
  destruct (delete_policy (H := unit) ex_archive (ex_delete "web")
    (mkInstanceConfig "10.0.0.5" "/srv/k8s" "Archive") ltac:(reflexivity)) as [_ Ha].
  exact (Ha ltac:(reflexivity) tt).
Defined.

(** ** What a subDir template can still address

    The reserved-name check compares the name as it is written, before it is cleaned. *)
Definition created (subDir : string) : option string :=
  match (CreateVolume ex_nfs (ex_templated subDir) tt).2 with
  | Ok resp => Some (CreateVolumeResponse_Name resp)
  | Err _ => None
  end.
Definition removed (name : string) : list string :=
  omap (λ e, match e with ERemoveAll p => Some p | _ => None end)
    (trace (DeleteVolume (H := unit * list event) ex_nfs (ex_delete name)) tt).
Example reserved_refused : (created ".snapshots", created "archived-web", created "a/../b") = (None, None, None).
Proof. vm_compute. reflexivity. Qed.
(** The export itself becomes a volume, and its delete removes everything on it. *)
Example dot_is_the_export : (created ".", removed ".") = (Some ".", ["/tmp/bard-nfs-1"]).
Proof. vm_compute. reflexivity. Qed.
Example slash_is_the_export : (created "/", removed "") = (Some "", ["/tmp/bard-nfs-1"]).
Proof. vm_compute. reflexivity. Qed.
(** So does the snapshot store. *)
Example dot_snapshots_is_the_store :
  (created "./.snapshots", removed "./.snapshots") = (Some "./.snapshots", ["/tmp/bard-nfs-1/.snapshots"]).
Proof. vm_compute. reflexivity. Qed.
End nfsexport.
