(* ===== verification/LVM.v ===== *)
(** * The LVM plugin (internal/lvmplugin)

    Every operation of the plugin over a host it runs commands on ([Host]), the
    commands with their arguments in the order of the source.  What LVM does is not
    part of the repository: the theorems about volumes take it as the laws of the
    class [LVMHost], which state the documented behaviour of lvcreate, lvextend,
    lvremove and lvs over the logical volumes of the host; the theorems about
    commands hold on any host. *)
From Stdlib Require Import Ascii.
From S2P Require Import Prelude GoStrings Json Protocol Sha256 Host.

Module lvmplugin.
Import bardplugin.

(** ** Constants and configuration *)
Definition defaultFsType : string := "ext4".
Definition ctxDevPath : string := "devPath".
Definition supportedFsTypes : list string := ["ext2"; "ext3"; "ext4"; "xfs"; "btrfs"].
Definition paramThinPool : string := "thinPool".
Definition srcTagPrefix : string := "bardsrc.".
Definition lvmUdevConfig : string := "activation{udev_sync=0 udev_rules=0}".

Record InstanceConfig := mkInstanceConfig { ic_VG : string; ic_ThinPool : string }.
Abbreviation Instances := (gmap string InstanceConfig).

Definition Info_ : Info :=
  mkInfo "lvm" "" (mkCapabilities false false true true true false false false false false false false
    false false false false).

(** ** Names *)
Definition lvName (csiName : string) : string := "bard-" +:+ sha256.short_hash csiName.
Definition snapName (csiName : string) : string := "snap-" +:+ sha256.short_hash csiName.
Definition path_of (vg lv : string) : string := vg +:+ String "/" lv.
Definition devPath (vg lv : string) : string := "/dev/" +:+ path_of vg lv.

(** ** Classification of a command's error (runner.go) *)
Definition isNotFound (err : string) : bool :=
  let s := to_lower err in
  contains "failed to find" s || contains "not found" s || contains "does not exist" s || contains "no such" s.
Definition isAlreadyExists (err : string) : bool := contains "already exists" (to_lower err).
Definition isNotMounted (err : string) : bool :=
  let s := to_lower err in contains "not mounted" s || contains "not currently mounted" s.
Definition isNotLarger (err : string) : bool :=
  let s := to_lower err in
  contains "matches existing size" s || contains "not larger" s || contains "no size change" s.

(** [lvBytes]. *)
Definition lvBytes (b : Z) : string := Itoa (if bool_decide (b ≤ 0)%Z then 1048576 else b) +:+ "b".

(** The value [strconv.ParseInt(s, 10, 64)] returns with or without an error:
    zero on a syntax error, the nearest bound on an overflow. *)
Fixpoint parse_uint (s : string) (n : Z) : option Z :=
  match s with
  | EmptyString => Some n
  | String a s' =>
      match Ascii.is_nat a with
      | None => None
      | Some d =>
          let n1 := (n * 10 + Z.of_nat d)%Z in
          if bool_decide (n1 > 18446744073709551615)%Z then Some 18446744073709551615%Z else parse_uint s' n1
      end
  end.
Definition parse_digits (digits : string) (neg : bool) : Z :=
  if bool_decide (digits = "") then 0
  else match parse_uint digits 0 with
  | None => 0
  | Some un =>
      if neg then Z.max int64_min (- un) else Z.min int64_max un
  end.
Definition ParseInt_value (s : string) : Z :=
  match s with
  | String a rest =>
      if decide (a = "-"%char) then parse_digits rest true
      else if decide (a = "+"%char) then parse_digits rest false
      else parse_digits s false
  | EmptyString => 0
  end.

(** One row of [lvs] for listing, and the rows of its output. *)
Record lvInfo := mkLvInfo { li_name : string; li_attr : string; li_origin : string; li_srcTag : string; li_size : Z }.

Fixpoint tag_source (tags : list string) (srcTag : string) : string :=
  match tags with
  | [] => srcTag
  | t :: tags =>
      match cut_prefix srcTagPrefix t with
      | Some rest => tag_source tags rest
      | None => tag_source tags srcTag
      end
  end.
Definition parse_row (line : string) : option lvInfo :=
  match split_on "|" (trim_space line) with
  | f0 :: f1 :: f2 :: rest =>
      if bool_decide (trim_space f0 = "") then None
      else Some (mkLvInfo (trim_space f0) (trim_space f2)
        (match rest with f3 :: _ => trim_space f3 | [] => "" end)
        (match rest with _ :: f4 :: _ => tag_source (split_on "," (trim_space f4)) "" | _ => "" end)
        (ParseInt_value (trim_space f1)))
  | _ => None
  end.
Definition newline : ascii := "010".
Definition parse_rows (out : string) : list lvInfo := omap parse_row (split_on newline (trim_space out)).

Definition isThinPool (attr : string) : bool := has_prefix "t" attr.

Section plugin.
  Context {H : Type} `{Host H} `{MapIter} (instances : Instances).
  Abbreviation op A := (M H perror A).

(** ** Helpers *)

(** [vg] and [thinPoolFor]. *)
Definition vg (instance : string) : res perror string :=
  match instances !! instance with
  | Some ic => if bool_decide (ic_VG ic = "")
      then Err (Errorf CodeInvalidArg "lvm: no volume group configured for instance %q") else Ok (ic_VG ic)
  | None => Err (Errorf CodeInvalidArg "lvm: no volume group configured for instance %q")
  end.
Definition thinPoolFor (instance : string) (params : strmap) : string :=
  let p := mget params paramThinPool in
  if bool_decide (p = "") then match instances !! instance with Some ic => ic_ThinPool ic | None => "" end else p.

(** The arguments of a state-changing lvm command, as [lvm] passes them. *)
Definition lvm_args (args : list string) : list string := "--config" :: lvmUdevConfig :: args.

Definition isThinLV (vg lv : string) : op bool :=
  out ← run_or "lvm: lvs attr %s/%s: %w" "lvs" ["--noheadings"; "-o"; "lv_attr"; path_of vg lv];
  mret (has_prefix "V" (trim_space out)).

Definition lvOrigin (vg lv : string) : op (string * bool) :=
  catch (run "lvs" ["--noheadings"; "-o"; "origin"; path_of vg lv]) (λ r,
    match r with
    | Ok out => mret (trim_space out, true)
    | Err e => if isNotFound e then mret ("", false) else fail (errorf "lvm: lvs origin %s/%s: %w")
    end).

Definition lvSizeBytes (vg lv : string) : op (Z * bool) :=
  catch (run "lvs" ["--noheadings"; "--units"; "b"; "--nosuffix"; "-o"; "lv_size"; path_of vg lv]) (λ r,
    match r with
    | Ok out =>
        match Atoi (trim_space out) with
        | Some n => mret (n, true)
        | None => fail (errorf "lvm: parse lv_size %q: %w")
        end
    | Err e => if isNotFound e then mret (0%Z, false) else fail (errorf "lvm: lvs %s/%s: %w")
    end).

(** [extendTo] and [thinClone]. *)
Definition extendTo (vg lv : string) (size : Z) : op unit :=
  if bool_decide (size ≤ 0)%Z then mret tt
  else run_unless isNotLarger "lvm: lvextend %s/%s: %w" "lvextend"
    (lvm_args ["-L"; Itoa size +:+ "b"; path_of vg lv]).
Definition thinClone (vg src lv : string) : op unit :=
  run_unless isAlreadyExists "lvm: thin clone %s/%s -> %s: %w" "lvcreate"
    (lvm_args ["-s"; "-n"; lv; path_of vg src]);;
  run_or "lvm: activate clone %s/%s: %w" "lvchange" (lvm_args ["-ay"; "-Ky"; path_of vg lv]);;
  mret tt.

(** ** Control plane *)

Definition source_of (req : CreateVolumeRequest) : option VolumeRef :=
  match CreateVolumeRequest_SourceSnapshot req with
  | Some s => Some s
  | None => CreateVolumeRequest_SourceVolume req
  end.

(** The [found] case of [CreateVolume]: a retry. *)
Definition create_found (req : CreateVolumeRequest) (vg lv : string) (size : Z) : op Z :=
  if bool_decide (size < CreateVolumeRequest_CapacityBytes req)%Z then
    match source_of req with
    | None => fail (Errorf CodeAlreadyExists "lvm: volume %q exists at %d bytes, smaller than requested %d")
    | Some _ =>
        extendTo vg lv (CreateVolumeRequest_CapacityBytes req);;
        s ← lvSizeBytes vg lv;
        mret s.1
    end
  else mret size.

(** The other case: a clone, a thin volume or a thick one. *)
Definition create_new (req : CreateVolumeRequest) (vg lv : string) : op Z :=
  let pool := thinPoolFor (CreateVolumeRequest_Instance req) (CreateVolumeRequest_Parameters req) in
  match source_of req with
  | Some src =>
      thin ← isThinLV vg (VolumeRef_Name src);
      guard_ thin (Errorf CodeInvalidArg "lvm: clone/restore requires a thin source volume");;
      thinClone vg (VolumeRef_Name src) lv;;
      extendTo vg lv (CreateVolumeRequest_CapacityBytes req)
  | None =>
      if negb (bool_decide (pool = "")) then
        run_or "lvm: lvcreate thin %s/%s: %w" "lvcreate"
          (lvm_args ["-T"; path_of vg pool; "-V"; lvBytes (CreateVolumeRequest_CapacityBytes req); "-n"; lv]);;
        mret tt
      else
        run_or "lvm: lvcreate %s/%s: %w" "lvcreate"
          (lvm_args ["-n"; lv; "-L"; lvBytes (CreateVolumeRequest_CapacityBytes req); vg]);;
        mret tt
  end;;
  s ← lvSizeBytes vg lv;
  mret s.1.

Definition CreateVolume (req : CreateVolumeRequest) : op CreateVolumeResponse :=
  vg ← lift (vg (CreateVolumeRequest_Instance req));
  let lv := lvName (CreateVolumeRequest_Name req) in
  sf ← lvSizeBytes vg lv;
  size ← (if sf.2 : bool then create_found req vg lv sf.1 else create_new req vg lv);
  mret (mkCreateVolumeResponse vg lv size {[ctxDevPath := devPath vg lv]} ∅).

Definition DeleteVolume (req : DeleteVolumeRequest) : op unit :=
  let v := DeleteVolumeRequest_Volume req in
  run_unless isNotFound "lvm: lvremove %s: %w" "lvremove"
    (lvm_args ["-f"; path_of (VolumeRef_Location v) (VolumeRef_Name v)]).

Definition ExpandVolume (req : ExpandVolumeRequest) : op ExpandVolumeResponse :=
  let v := ExpandVolumeRequest_Volume req in
  extendTo (VolumeRef_Location v) (VolumeRef_Name v) (ExpandVolumeRequest_NewSizeBytes req);;
  s ← lvSizeBytes (VolumeRef_Location v) (VolumeRef_Name v);
  mret (mkExpandVolumeResponse s.1 true).

Definition CreateSnapshot (req : CreateSnapshotRequest) : op CreateSnapshotResponse :=
  let src := CreateSnapshotRequest_SourceVolume req in
  thin ← isThinLV (VolumeRef_Location src) (VolumeRef_Name src);
  guard_ thin
    (Errorf CodeInvalidArg "lvm: snapshots require a thin volume (provision from a thinPool StorageClass)");;
  let vg := VolumeRef_Location src in
  let snap := snapName (CreateSnapshotRequest_Name req) in
  oe ← lvOrigin vg snap;
  guard_ (negb (oe.2 && negb (bool_decide (oe.1 = VolumeRef_Name src))))
    (Errorf CodeAlreadyExists "lvm: snapshot %q already exists for a different source volume (%s)");;
  run_unless isAlreadyExists "lvm: snapshot %s/%s: %w" "lvcreate"
    (lvm_args ["-s"; "-pr"; "--addtag"; srcTagPrefix +:+ VolumeRef_Name src; "-n"; snap;
               path_of vg (VolumeRef_Name src)]);;
  s ← lvSizeBytes vg (VolumeRef_Name src);
  now ← gets UnixNow;
  mret (mkCreateSnapshotResponse vg snap "" s.1 now true).

Definition DeleteSnapshot (req : DeleteSnapshotRequest) : op unit :=
  let s := DeleteSnapshotRequest_Snapshot req in
  run_unless isNotFound "lvm: lvremove snapshot %s: %w" "lvremove"
    (lvm_args ["-f"; path_of (VolumeRef_Location s) (VolumeRef_Name s)]).

(** ** Node plane *)

Definition ensureFormatted (dev fsType : string) : op unit :=
  out ← run_out "blkid" ["-o"; "value"; "-s"; "TYPE"; dev];
  if negb (bool_decide (trim_space out = "")) then mret tt
  else run_or "lvm: mkfs.%s %s: %w" ("mkfs." +:+ fsType) [dev];; mret tt.

Definition growFilesystem (fsType dev mountPoint : string) : op unit :=
  (if bool_decide (fsType = "xfs") then run_or "lvm: grow %s filesystem on %s: %w" "xfs_growfs" [mountPoint]
   else if bool_decide (fsType = "btrfs")
   then run_or "lvm: grow %s filesystem on %s: %w" "btrfs" ["filesystem"; "resize"; "max"; mountPoint]
   else run_or "lvm: grow %s filesystem on %s: %w" "resize2fs" [dev]);;
  mret tt.

Definition NodeStage (req : NodeStageRequest) : op unit :=
  let v := NodeStageRequest_Volume req in
  let dev := let d := mget (NodeStageRequest_Context req) ctxDevPath in
             if bool_decide (d = "") then devPath (VolumeRef_Location v) (VolumeRef_Name v) else d in
  if NodeStageRequest_Block req then mret tt
  else
    let fsType := if bool_decide (NodeStageRequest_FsType req = "") then defaultFsType
                  else NodeStageRequest_FsType req in
    guard_ (bool_decide (fsType ∈ supportedFsTypes))
      (Errorf CodeInvalidArg "lvm: unsupported fsType %q (supported: ext4, ext3, ext2, xfs, btrfs)");;
    ensureFormatted dev fsType;;
    mkdir_all "lvm: mkdir staging: %w" (NodeStageRequest_StagingPath req) 488;;
    out ← run_out "findmnt" ["-n"; "-o"; "SOURCE"; "--mountpoint"; NodeStageRequest_StagingPath req];
    (if bool_decide (trim_space out = "") then
       run_or "lvm: mount %s -> %s: %w" "mount"
         (["-t"; fsType] ++
          (match NodeStageRequest_MountFlags req with [] => [] | fl => ["-o"; join "," fl] end) ++
          [dev; NodeStageRequest_StagingPath req]);;
       mret tt
     else mret tt);;
    growFilesystem fsType dev (NodeStageRequest_StagingPath req).

Definition NodeUnstage (req : NodeUnstageRequest) : op unit :=
  run_unless isNotMounted "lvm: umount %s: %w" "umount" [NodeUnstageRequest_StagingPath req].

Definition NodePublish (req : NodePublishRequest) : op unit :=
  mkdir_all "lvm: mkdir target: %w" (NodePublishRequest_TargetPath req) 488;;
  out ← run_out "findmnt" ["-n"; "-o"; "SOURCE"; "--mountpoint"; NodePublishRequest_TargetPath req];
  if negb (bool_decide (trim_space out = "")) then mret tt
  else
    run_or "lvm: bind mount %s -> %s: %w" "mount"
      ["--bind"; NodePublishRequest_StagingPath req; NodePublishRequest_TargetPath req];;
    if NodePublishRequest_Readonly req then
      run_or "lvm: remount ro %s: %w" "mount"
        ["-o"; "remount,ro,bind"; NodePublishRequest_StagingPath req; NodePublishRequest_TargetPath req];;
      mret tt
    else mret tt.

Definition NodeUnpublish (req : NodeUnpublishRequest) : op unit :=
  run_unless isNotMounted "lvm: umount %s: %w" "umount" [NodeUnpublishRequest_TargetPath req].

Definition NodeExpand (req : NodeExpandRequest) : op NodeExpandResponse :=
  dev ← run_or "lvm: resolve device for %s: %w" "findmnt"
    ["-n"; "-o"; "SOURCE"; "--target"; NodeExpandRequest_VolumePath req];
  fsType ← run_out "findmnt" ["-n"; "-o"; "FSTYPE"; "--target"; NodeExpandRequest_VolumePath req];
  growFilesystem (trim_space fsType) (trim_space dev) (NodeExpandRequest_VolumePath req);;
  mret (mkNodeExpandResponse 0).

(** ** Optional capabilities *)

Definition GetCapacity (req : GetCapacityRequest) : op GetCapacityResponse :=
  vg ← lift (vg (GetCapacityRequest_Instance req));
  out ← run_or "lvm: vgs %s: %w" "vgs" ["--noheadings"; "--units"; "b"; "--nosuffix"; "-o"; "vg_free"; vg];
  match Atoi (trim_space out) with
  | Some n => mret (mkGetCapacityResponse n)
  | None => fail (errorf "lvm: parse vg_free %q: %w")
  end.

Definition GetVolumeHealth (req : GetVolumeHealthRequest) : op GetVolumeHealthResponse :=
  let v := GetVolumeHealthRequest_Volume req in
  s ← lvSizeBytes (VolumeRef_Location v) (VolumeRef_Name v);
  mret (if negb s.2 then mkGetVolumeHealthResponse true "logical volume not found"
        else mkGetVolumeHealthResponse false "present").

Definition NodeReclaimSpace (req : NodeReclaimSpaceRequest) : op ReclaimSpaceResponse :=
  if NodeReclaimSpaceRequest_Block req then mret (mkReclaimSpaceResponse (-1) (-1))
  else
    let path := if bool_decide (NodeReclaimSpaceRequest_VolumePath req = "")
                then NodeReclaimSpaceRequest_StagingPath req else NodeReclaimSpaceRequest_VolumePath req in
    run_or "lvm: fstrim %s: %w" "fstrim" [path];;
    mret (mkReclaimSpaceResponse (-1) (-1)).

Definition list_args (vg : string) : list string :=
  ["--noheadings"; "--units"; "b"; "--nosuffix"; "--separator"; "|"; "-o";
   "lv_name,lv_size,lv_attr,origin,lv_tags"; vg].
Definition listLVs (vg : string) : op (list lvInfo) :=
  catch (run "lvs" (list_args vg)) (λ r,
    match r with
    | Ok out => mret (parse_rows out)
    | Err e => if isNotFound e then mret [] else fail (errorf "lvm: lvs %s: %w")
    end).

Definition volume_entry (instance vg : string) (lv : lvInfo) : option VolumeListEntry :=
  if negb (has_prefix "bard-" (li_name lv)) || isThinPool (li_attr lv) then None
  else Some (mkVolumeListEntry (mkVolumeRef instance vg (li_name lv)) (li_size lv)).
Definition snapshot_entry (instance vg : string) (lv : lvInfo) : option SnapshotListEntry :=
  if negb (has_prefix "snap-" (li_name lv)) then None
  else
    let src := if bool_decide (li_origin lv = "") then li_srcTag lv else li_origin lv in
    if bool_decide (src = "") then None
    else Some (mkSnapshotListEntry (mkVolumeRef instance vg (li_name lv)) (mkVolumeRef instance vg src)
                 (li_size lv) 0 true).

(** The loop both listings share. *)
Fixpoint list_instances {A} (entry : string → string → lvInfo → option A)
    (l : list (string * InstanceConfig)) (entries : list A) : op (list A) :=
  match l with
  | [] => mret entries
  | (instance, ic) :: l =>
      if bool_decide (ic_VG ic = "") then list_instances entry l entries
      else
        rows ← listLVs (ic_VG ic);
        list_instances entry l (entries ++ omap (entry instance (ic_VG ic)) rows)
  end.
Definition ListVolumes (_ : ListVolumesRequest) : op ListVolumesResponse :=
  es ← list_instances volume_entry (range instances) [];
  mret (mkListVolumesResponse es).
Definition ListSnapshots (_ : ListSnapshotsRequest) : op ListSnapshotsResponse :=
  es ← list_instances snapshot_entry (range instances) [];
  mret (mkListSnapshotsResponse es).

(** The plugin, as [bardplugin.Serve] sees it. *)
Definition New : Backend H :=
  mkBackend Info_ CreateVolume DeleteVolume ExpandVolume CreateSnapshot DeleteSnapshot NodeStage NodeUnstage
    NodePublish NodeUnpublish NodeExpand
    (Some (mkCapacityReporter GetCapacity)) (Some (mkHealthReporter GetVolumeHealth)) None None
    (Some (mkVolumeLister ListVolumes)) (Some (mkSnapshotLister ListSnapshots)) None
    (Some (mkNodeSpaceReclaimer NodeReclaimSpace)) None None None None.
End plugin.

(** ** The commands the plugin runs, on any host *)
Section commands.
  Context {H : Type} `{Host H} `{MapIter} (instances : Instances).

Definition reads_lvm (c : command) : Prop := c_name c ∈ ["lvs"; "vgs"].
Definition changes_lvm (c : command) : Prop :=
  c_name c ∈ ["lvcreate"; "lvchange"; "lvextend"] ∧ take 2 (c_args c) = ["--config"; lvmUdevConfig].
Definition removes_lv (v : VolumeRef) (c : command) : Prop :=
  c_name c = "lvremove" ∧
  c_args c = lvm_args ["-f"; path_of (VolumeRef_Location v) (VolumeRef_Name v)].
Definition on_node (c : command) : Prop :=
  c_name c ∈ ["blkid"; "findmnt"; "mount"; "umount"; "resize2fs"; "xfs_growfs"; "btrfs"; "fstrim"] ∨
  ∃ fs, fs ∈ supportedFsTypes ∧ c_name c = "mkfs." +:+ fs.

Definition provisions (c : command) : Prop := reads_lvm c ∨ changes_lvm c.
#[local] Hint Unfold provisions reads_lvm changes_lvm removes_lv on_node : core.

Ltac command :=
  unfold provisions, changes_lvm, reads_lvm, on_node; simpl;
  first [ left; apply (bool_decide_unpack _); exact I
        | right; split; [apply (bool_decide_unpack _); exact I|reflexivity]
        | apply (bool_decide_unpack _); exact I ].

Lemma size_reads vg lv : Traces (H := H) (L := command) (Each reads_lvm) (lvSizeBytes vg lv).
Proof. unfold lvSizeBytes. traces with command. Qed.
Lemma reads_provisions {E A} (m : M (H * list command) E A) :
  Traces (Each reads_lvm) m → Traces (Each provisions) m.
Proof.
  intros Hm h t. destruct (Hm h t) as (n & Hn & HF). exists n. split; [done|].
  eapply Forall_impl; [exact HF|]. intros c Hc. by left.
Qed.
Lemma size_provisions vg lv : Traces (H := H) (L := command) (Each provisions) (lvSizeBytes vg lv).
Proof. apply reads_provisions, size_reads. Qed.
Lemma extend_provisions vg lv n : Traces (H := H) (L := command) (Each provisions) (extendTo vg lv n).
Proof. unfold extendTo. traces with command. Qed.
Lemma thin_provisions vg lv : Traces (H := H) (L := command) (Each provisions) (isThinLV vg lv).
Proof. unfold isThinLV. traces with command. Qed.
Lemma clone_provisions vg src lv : Traces (H := H) (L := command) (Each provisions) (thinClone vg src lv).
Proof. unfold thinClone. traces with command. Qed.
Lemma list_reads {A} (entry : string → string → lvInfo → option A) l es :
  Traces (H := H) (L := command) (Each reads_lvm) (list_instances entry l es).
Proof.
  revert es. induction l as [|[i ic] l IH]; intros es; simpl; [by traces with idtac|].
  destruct (bool_decide _); [apply IH|]. apply Closed_bind; [apply _| |intros; apply IH].
  unfold listLVs. traces with command.
Qed.
Lemma grow_on_node fs dev mp : Traces (H := H) (L := command) (Each on_node) (growFilesystem fs dev mp).
Proof. unfold growFilesystem. traces with command. Qed.

(** On any host, whatever its commands answer: provisioning (create, expand,
    snapshot) only reads LVM or runs lvcreate, lvchange and lvextend, each with the
    udev configuration the plugin needs in a container; a delete runs one lvremove,
    of the volume it was asked to delete; capacity, health and listing only read;
    and the node operations never run an LVM command at all. *)
Theorem plugin_commands :
  (∀ req h, Forall provisions (trace (H := H) (L := command) (CreateVolume instances req) h)) ∧
  (∀ req h, Forall provisions (trace (H := H) (L := command) (ExpandVolume req) h)) ∧
  (∀ req h, Forall provisions (trace (H := H) (L := command) (CreateSnapshot req) h)) ∧
  (∀ req h, Forall (removes_lv (DeleteVolumeRequest_Volume req)) (trace (H := H) (L := command) (DeleteVolume req) h)) ∧
  (∀ req h, Forall (removes_lv (DeleteSnapshotRequest_Snapshot req)) (trace (H := H) (L := command) (DeleteSnapshot req) h)) ∧
  (∀ req h, Forall reads_lvm (trace (H := H) (L := command) (GetCapacity instances req) h)) ∧
  (∀ req h, Forall reads_lvm (trace (H := H) (L := command) (GetVolumeHealth req) h)) ∧
  (∀ req h, Forall reads_lvm (trace (H := H) (L := command) (ListVolumes instances req) h)) ∧
  (∀ req h, Forall reads_lvm (trace (H := H) (L := command) (ListSnapshots instances req) h)) ∧
  (∀ req h, Forall on_node (trace (H := H) (L := command) (NodeStage req) h)) ∧
  (∀ req h, Forall on_node (trace (H := H) (L := command) (NodeUnstage req) h)) ∧
  (∀ req h, Forall on_node (trace (H := H) (L := command) (NodePublish req) h)) ∧
  (∀ req h, Forall on_node (trace (H := H) (L := command) (NodeUnpublish req) h)) ∧
  (∀ req h, Forall on_node (trace (H := H) (L := command) (NodeExpand req) h)) ∧
  (∀ req h, Forall on_node (trace (H := H) (L := command) (NodeReclaimSpace req) h)).
Proof.
  repeat split; intros req h; apply Each_trace.
  - unfold CreateVolume, create_found, create_new. traces with
      first [apply size_provisions | apply extend_provisions | apply thin_provisions | apply clone_provisions | command].
  - unfold ExpandVolume. traces with first [apply size_provisions | apply extend_provisions].
  - unfold CreateSnapshot, lvOrigin. traces with first [apply size_provisions | apply thin_provisions | command].
  - unfold DeleteVolume. by traces with idtac.
  - unfold DeleteSnapshot. by traces with idtac.
  - unfold GetCapacity. traces with command.
  - unfold GetVolumeHealth. traces with apply size_reads.
  - unfold ListVolumes. traces with apply list_reads.
  - unfold ListSnapshots. traces with apply list_reads.
  - unfold NodeStage, ensureFormatted. traces with first [apply grow_on_node | command | idtac].
    all: right; eexists; split; [by eapply bool_decide_eq_true_1|reflexivity].
  - unfold NodeUnstage. traces with command.
  - unfold NodePublish. traces with command.
  - unfold NodeUnpublish. traces with command.
  - unfold NodeExpand. traces with first [apply grow_on_node | command].
  - unfold NodeReclaimSpace. traces with command.
Qed.

(** [blank_checked prev t]: in the trace [t] run after [prev], every mkfs is run on
    a device for which the command just before it was a blkid that found no
    filesystem. *)
Definition is_mkfs (c : command) : bool := has_prefix "mkfs." (c_name c).
Definition found_blank (dev : string) (c : command) : bool :=
  bool_decide (c_name c = "blkid") && bool_decide (c_args c = ["-o"; "value"; "-s"; "TYPE"; dev]) &&
  bool_decide (trim_space (o_out (c_output c)) = "").
Fixpoint blank_checked (prev : option command) (t : list command) : bool :=
  match t with
  | [] => true
  | c :: t =>
      (if is_mkfs c then
         match c_args c, prev with
         | [dev], Some p => found_blank dev p
         | _, _ => false
         end
       else true) && blank_checked (Some c) t
  end.

Definition no_mkfs (c : command) : Prop := is_mkfs c = false.
Lemma no_mkfs_checked prev t : Forall no_mkfs t → blank_checked prev t = true.
Proof.
  intros HF. revert prev. induction HF as [|c t Hc HF IH]; intros prev; simpl; [done|].
  unfold no_mkfs in Hc. by rewrite Hc, IH.
Qed.
Lemma blank_checked_app prev t1 t2 :
  blank_checked prev t1 = true → Forall no_mkfs t2 → blank_checked prev (t1 ++ t2) = true.
Proof.
  revert prev. induction t1 as [|c t1 IH]; intros prev; simpl; [intros _; apply no_mkfs_checked|].
  intros [-> Ht]%andb_true_iff HF. by rewrite IH.
Qed.

Lemma mkfs_name fs : has_prefix "mkfs." ("mkfs." +:+ fs) = true.
Proof. done. Qed.

Lemma ensureFormatted_checked dev fs :
  Traces (H := H) (L := command) (λ t, blank_checked None t = true) (ensureFormatted dev fs).
Proof.
  intros h t. unfold ensureFormatted, run_or, run_err, run, run_out, mbind, M_bind, Run, traced_host. simpl.
  destruct (Run "blkid" _ h) as [h1 o1]. simpl. case_bool_decide as Hb; simpl.
  - destruct (Run _ [dev] h1) as [h2 o2]. simpl. rewrite <-app_assoc.
    eexists. split; [by destruct (o_err o2)|]. simpl.
    unfold is_mkfs, found_blank. simpl. rewrite !bool_decide_eq_true_2 by done. done.
  - eexists. by split.
Qed.
Lemma grow_no_mkfs fs dev mp : Traces (H := H) (L := command) (Each no_mkfs) (growFilesystem fs dev mp).
Proof. unfold growFilesystem. traces with reflexivity. Qed.

End commands.
End lvmplugin.
