(* ===== verification/LVMHost.v ===== *)
(** * The LVM plugin over LVM

    What the plugin relies on LVM for, as laws over an abstract view of the host:
    the logical volumes it has.  A command that fails leaves the volumes as they
    were; a command that succeeds does what lvm(8) documents.  Nothing says when a
    command succeeds: the theorems hold for hosts that fail at will.  [fake] is a
    host that keeps the laws. *)
From Stdlib Require Import Ascii.
From S2P Require Import Prelude GoStrings Json Protocol Sha256 Host LVM.

Module lvmhost.
Import bardplugin lvmplugin.

(** ** Logical volumes *)

(** [lv_attr] is the attribute string lvs prints: it begins with V for a thin
    volume and with t for a thin pool. *)
Record LV := mkLV {
  lv_size : Z;
  lv_attr : string;
  lv_origin : string;
  lv_tags : list string;
  lv_active : bool;
}.
Definition thin (l : LV) : bool := has_prefix "V" (lv_attr l).
Definition resized (s : Z) (l : LV) : LV := mkLV s (lv_attr l) (lv_origin l) (lv_tags l) (lv_active l).
Definition activated (l : LV) : LV := mkLV (lv_size l) (lv_attr l) (lv_origin l) (lv_tags l) true.
Definition orphaned (lv : string) (l : LV) : LV :=
  if bool_decide (lv_origin l = lv) then mkLV (lv_size l) (lv_attr l) "" (lv_tags l) (lv_active l) else l.

(** The volumes of a host by volume group and name, and what removing one leaves:
    the snapshots of a removed volume stay, without an origin. *)
Abbreviation Volumes := (gmap (string * string) LV).
Definition removed (vg lv : string) (m : Volumes) : Volumes :=
  map_imap (λ k l, Some (if bool_decide (k.1 = vg) then orphaned lv l else l)) (delete (vg, lv) m).

(** The characters of LVM names and tags. *)
Definition name_char (a : ascii) : bool :=
  contains_char a "abcdefghijklmnopqrstuvwxyzABCDEFGHIJKLMNOPQRSTUVWXYZ0123456789+_.-".
Definition legal (s : string) : bool := negb (bool_decide (s = "")) && all_chars name_char s.
Definition tame (l : LV) : Prop :=
  (0 ≤ lv_size l ≤ int64_max)%Z ∧ legal (lv_attr l) = true ∧ all_chars name_char (lv_origin l) = true ∧
  Forall (λ t, legal t = true) (lv_tags l).

(** The table lvs prints for a volume group. *)
Definition row (n : string) (l : LV) : string :=
  join "|" [n; Itoa (lv_size l); lv_attr l; lv_origin l; join "," (lv_tags l)].
Fixpoint table (rows : list string) : string :=
  match rows with [] => "" | r :: rows => "  " +:+ r +:+ String newline (table rows) end.
Definition in_vg (vg : string) (m : Volumes) : list (string * LV) :=
  omap (λ e, if bool_decide (e.1.1 = vg) then Some (e.1.2, e.2) else None) (map_to_list m).

Class LVMHost (H : Type) `{Host H} := {
  vol : H → Volumes;
  vol_tame : ∀ h vg lv l, vol h !! (vg, lv) = Some l → legal vg = true ∧ legal lv = true ∧ tame l;
  lvs_size : ∀ vg lv h, legal vg = true → legal lv = true →
    let '(h', o) := Run "lvs" ["--noheadings"; "--units"; "b"; "--nosuffix"; "-o"; "lv_size"; path_of vg lv] h in
    vol h' = vol h ∧
    match o_err o with
    | None => ∃ l, vol h !! (vg, lv) = Some l ∧ trim_space (o_out o) = Itoa (lv_size l)
    | Some e => isNotFound e = true → vol h !! (vg, lv) = None
    end;
  lvs_attr : ∀ vg lv h, legal vg = true → legal lv = true →
    let '(h', o) := Run "lvs" ["--noheadings"; "-o"; "lv_attr"; path_of vg lv] h in
    vol h' = vol h ∧
    (o_err o = None → ∃ l, vol h !! (vg, lv) = Some l ∧ trim_space (o_out o) = lv_attr l);
  lvs_origin : ∀ vg lv h, legal vg = true → legal lv = true →
    let '(h', o) := Run "lvs" ["--noheadings"; "-o"; "origin"; path_of vg lv] h in
    vol h' = vol h ∧
    match o_err o with
    | None => ∃ l, vol h !! (vg, lv) = Some l ∧ trim_space (o_out o) = lv_origin l
    | Some e => isNotFound e = true → vol h !! (vg, lv) = None
    end;
  lvs_list : ∀ vg h, legal vg = true →
    let '(h', o) := Run "lvs" (list_args vg) h in
    vol h' = vol h ∧
    match o_err o with
    | None => ∃ ls, ls ≡ₚ in_vg vg (vol h) ∧ o_out o = table (map (λ e, row e.1 e.2) ls)
    | Some e => isNotFound e = true → in_vg vg (vol h) = []
    end;
  lvcreate_thick : ∀ vg lv n h, legal vg = true → legal lv = true → (0 < n)%Z →
    let '(h', o) := Run "lvcreate" (lvm_args ["-n"; lv; "-L"; Itoa n +:+ "b"; vg]) h in
    match o_err o with
    | None => vol h !! (vg, lv) = None ∧
        ∃ l, (n ≤ lv_size l)%Z ∧ thin l = false ∧ lv_active l = true ∧ vol h' = <[(vg, lv) := l]> (vol h)
    | Some _ => vol h' = vol h
    end;
  lvcreate_thin : ∀ vg pool lv n h, legal vg = true → legal pool = true → legal lv = true → (0 < n)%Z →
    let '(h', o) := Run "lvcreate" (lvm_args ["-T"; path_of vg pool; "-V"; Itoa n +:+ "b"; "-n"; lv]) h in
    match o_err o with
    | None => vol h !! (vg, lv) = None ∧
        ∃ l, (n ≤ lv_size l)%Z ∧ thin l = true ∧ lv_active l = true ∧ vol h' = <[(vg, lv) := l]> (vol h)
    | Some _ => vol h' = vol h
    end;
  (** A snapshot of a thin volume has its size, and is not activated. *)
  lvcreate_clone : ∀ vg src lv h, legal vg = true → legal src = true → legal lv = true →
    let '(h', o) := Run "lvcreate" (lvm_args ["-s"; "-n"; lv; path_of vg src]) h in
    match o_err o with
    | None => vol h !! (vg, lv) = None ∧
        ∃ l s, vol h !! (vg, src) = Some s ∧ lv_size l = lv_size s ∧ thin l = true ∧ lv_origin l = src ∧
          lv_active l = false ∧ vol h' = <[(vg, lv) := l]> (vol h)
    | Some e => vol h' = vol h ∧ (isAlreadyExists e = true → is_Some (vol h !! (vg, lv)))
    end;
  lvcreate_snapshot : ∀ vg src tag lv h, legal vg = true → legal src = true → legal lv = true → legal tag = true →
    let '(h', o) := Run "lvcreate" (lvm_args ["-s"; "-pr"; "--addtag"; tag; "-n"; lv; path_of vg src]) h in
    match o_err o with
    | None => vol h !! (vg, lv) = None ∧
        ∃ l s, vol h !! (vg, src) = Some s ∧ lv_size l = lv_size s ∧ thin l = true ∧ lv_origin l = src ∧
          lv_tags l = [tag] ∧ vol h' = <[(vg, lv) := l]> (vol h)
    | Some e => vol h' = vol h ∧ (isAlreadyExists e = true → is_Some (vol h !! (vg, lv)))
    end;
  lvchange_activate : ∀ vg lv h, legal vg = true → legal lv = true →
    let '(h', o) := Run "lvchange" (lvm_args ["-ay"; "-Ky"; path_of vg lv]) h in
    match o_err o with
    | None => ∃ l, vol h !! (vg, lv) = Some l ∧ vol h' = <[(vg, lv) := activated l]> (vol h)
    | Some _ => vol h' = vol h
    end;
  (** lvextend never shrinks, and says so when asked for no more than there is. *)
  lvextend : ∀ vg lv n h, legal vg = true → legal lv = true → (0 < n)%Z →
    let '(h', o) := Run "lvextend" (lvm_args ["-L"; Itoa n +:+ "b"; path_of vg lv]) h in
    match o_err o with
    | None => ∃ l s, vol h !! (vg, lv) = Some l ∧ (n ≤ s)%Z ∧ (lv_size l ≤ s)%Z ∧
        vol h' = <[(vg, lv) := resized s l]> (vol h)
    | Some e => vol h' = vol h ∧
        (isNotLarger e = true → ∃ l, vol h !! (vg, lv) = Some l ∧ (n ≤ lv_size l)%Z)
    end;
  lvremove : ∀ vg lv h, legal vg = true → legal lv = true →
    let '(h', o) := Run "lvremove" (lvm_args ["-f"; path_of vg lv]) h in
    match o_err o with
    | None => vol h' = removed vg lv (vol h)
    | Some e => vol h' = vol h ∧ (isNotFound e = true → vol h !! (vg, lv) = None)
    end;
}.

(** ** Names the plugin derives are legal *)
Lemma is_hex_name a : sha256.is_hex a = true → name_char a = true.
Proof. destruct a as [[] [] [] [] [] [] [] []]; vm_compute; congruence. Qed.
Lemma short_hash_name s : all_chars name_char (sha256.short_hash s) = true.
Proof. eapply all_chars_impl; [apply is_hex_name|apply sha256.short_hash_chars]. Qed.
Lemma lvName_legal n : legal (lvName n) = true.
Proof. unfold legal, lvName. rewrite all_chars_app, short_hash_name. reflexivity. Qed.
Lemma snapName_legal n : legal (snapName n) = true.
Proof. unfold legal, snapName. rewrite all_chars_app, short_hash_name. reflexivity. Qed.
Lemma tag_legal s : legal s = true → legal (srcTagPrefix +:+ s) = true.
Proof. unfold legal. rewrite all_chars_app. intros [_ ->]%andb_true_iff. reflexivity. Qed.

(** ** What each helper does to the volumes *)
Section helpers.
  Context {H : Type} `{LVMHost H}.
  Abbreviation op A := (M H perror A).
  Implicit Types h : H.

(** lvs cannot say how large a volume is. *)
Definition lvs_fails (vg lv : string) (h : H) : Prop :=
  is_Some (o_err (Run "lvs" ["--noheadings"; "--units"; "b"; "--nosuffix"; "-o"; "lv_size"; path_of vg lv] h).2).

Lemma wp_size vg lv (Q : H → res perror (Z * bool) → Prop) h :
  legal vg = true → legal lv = true →
  (∀ h' l, vol h' = vol h → vol h !! (vg, lv) = Some l → Q h' (Ok (lv_size l, true))) →
  (∀ h', vol h' = vol h → vol h !! (vg, lv) = None → Q h' (Ok (0%Z, false))) →
  (∀ h' e, vol h' = vol h → lvs_fails vg lv h → Q h' (Err e)) →
  wp (lvSizeBytes vg lv) Q h.
Proof.
  intros Hvg Hlv Hsome Hnone Herr. unfold lvSizeBytes, catch, run, wp.
  unfold lvs_fails in Herr. pose proof (lvs_size vg lv h Hvg Hlv) as Hl. destruct (Run "lvs" _ h) as [h' [out [e|]]]; simpl in *.
  - destruct Hl as [Hv Hl]. destruct (isNotFound e); [apply Hnone; auto|by apply Herr].
  - destruct Hl as (Hv & l & Hl & ->).
    destruct (vol_tame _ _ _ _ Hl) as (_ & _ & Hs & _).
    rewrite Atoi_Itoa by (unfold int64_ok, int64_min in *; lia). by apply Hsome.
Qed.

Lemma wp_isThin vg lv (Q : H → res perror bool → Prop) h :
  legal vg = true → legal lv = true →
  (∀ h' l, vol h' = vol h → vol h !! (vg, lv) = Some l → Q h' (Ok (thin l))) →
  (∀ h' e, vol h' = vol h → Q h' (Err e)) →
  wp (isThinLV vg lv) Q h.
Proof.
  intros Hvg Hlv Hsome Herr. unfold isThinLV, run_or, run_err, run, wp, mbind, M_bind.
  pose proof (lvs_attr vg lv h Hvg Hlv) as Hl. destruct (Run "lvs" _ h) as [h' [out [e|]]]; simpl in *.
  - destruct Hl as [Hv _]. by apply Herr.
  - destruct Hl as [Hv Hl]. destruct (Hl eq_refl) as (l & Hl' & ->). by apply Hsome.
Qed.

Lemma wp_origin vg lv (Q : H → res perror (string * bool) → Prop) h :
  legal vg = true → legal lv = true →
  (∀ h' l, vol h' = vol h → vol h !! (vg, lv) = Some l → Q h' (Ok (lv_origin l, true))) →
  (∀ h', vol h' = vol h → vol h !! (vg, lv) = None → Q h' (Ok ("", false))) →
  (∀ h' e, vol h' = vol h → Q h' (Err e)) →
  wp (lvOrigin vg lv) Q h.
Proof.
  intros Hvg Hlv Hsome Hnone Herr. unfold lvOrigin, catch, run, wp.
  pose proof (lvs_origin vg lv h Hvg Hlv) as Hl. destruct (Run "lvs" _ h) as [h' [out [e|]]]; simpl in *.
  - destruct Hl as [Hv Hl]. destruct (isNotFound e); [apply Hnone; auto|by apply Herr].
  - destruct Hl as (Hv & l & Hl & ->). by apply Hsome.
Qed.

Lemma resized_id l : resized (lv_size l) l = l.
Proof. by destruct l. Qed.

Lemma wp_extend vg lv n l (Q : H → res perror unit → Prop) h :
  legal vg = true → legal lv = true → vol h !! (vg, lv) = Some l →
  (∀ h' s, (n ≤ s)%Z → (lv_size l ≤ s)%Z → vol h' = <[(vg, lv) := resized s l]> (vol h) → Q h' (Ok tt)) →
  (∀ h' e, vol h' = vol h → Q h' (Err e)) →
  wp (extendTo vg lv n) Q h.
Proof.
  intros Hvg Hlv Hl Hok Herr. unfold extendTo. case_bool_decide as Hn.
  - destruct (vol_tame _ _ _ _ Hl) as (_ & _ & Hs & _).
    apply wp_ret, (Hok h (lv_size l)); [lia|lia|]. by rewrite resized_id, insert_id.
  - unfold run_unless, catch, run, wp. assert (0 < n)%Z as Hn' by lia.
    pose proof (lvextend vg lv n h Hvg Hlv Hn') as Hx. destruct (Run "lvextend" _ h) as [h' [out [e|]]]; simpl in *.
    + destruct Hx as [Hv Hx]. destruct (isNotLarger e); [|by apply Herr].
      destruct (Hx eq_refl) as (l' & Hl' & Hle). rewrite Hl' in Hl. simplify_eq.
      apply (Hok h' (lv_size l)); [done|lia|]. by rewrite resized_id, insert_id.
    + destruct Hx as (l' & s & Hl' & Hns & Hls & Hv). rewrite Hl' in Hl. simplify_eq.
      apply (Hok h' s); [done|done|done].
Qed.

(** Volumes other than [k] are the same. *)
Definition untouched (k : string * string) (m m' : Volumes) : Prop := ∀ k', k' ≠ k → m' !! k' = m !! k'.
Lemma untouched_eq k m m' : m' = m → untouched k m m'.
Proof. by intros -> k' _. Qed.
Lemma untouched_insert k m m0 l : m0 = m → untouched k m (<[k := l]> m0).
Proof. intros -> k' Hk. by rewrite lookup_insert_ne. Qed.

Lemma wp_thinClone vg src lv (Q : H → res perror unit → Prop) h :
  legal vg = true → legal src = true → legal lv = true → vol h !! (vg, lv) = None →
  (∀ h' l s, vol h !! (vg, src) = Some s → lv_size l = lv_size s → thin l = true → lv_origin l = src →
     lv_active l = true → vol h' = <[(vg, lv) := l]> (vol h) → Q h' (Ok tt)) →
  (∀ h' e, untouched (vg, lv) (vol h) (vol h') → Q h' (Err e)) →
  wp (thinClone vg src lv) Q h.
Proof.
  intros Hvg Hsrc Hlv Hnone Hok Herr. unfold thinClone, run_unless, run_or, run_err, catch, run, wp, mbind, M_bind.
  pose proof (lvcreate_clone vg src lv h Hvg Hsrc Hlv) as Hc.
  destruct (Run "lvcreate" _ h) as [h1 [out [e|]]]; simpl in *.
  - destruct Hc as [Hv Hc]. destruct (isAlreadyExists e); simpl; [|by apply Herr, untouched_eq].
    destruct (Hc eq_refl) as [? Hs]. by rewrite Hs in Hnone.
  - destruct Hc as (_ & l & s & Hs & Hsz & Ht & Ho & Ha & Hv).
    pose proof (lvchange_activate vg lv h1 Hvg Hlv) as Hc.
    destruct (Run "lvchange" _ h1) as [h2 [out2 [e|]]]; simpl in *.
    + apply Herr. rewrite Hc, Hv. by apply untouched_insert.
    + destruct Hc as (l' & Hl' & Hv'). rewrite Hv, lookup_insert_eq in Hl'. simplify_eq.
      apply (Hok h2 (activated l') s); try done. by rewrite Hv', Hv, insert_insert_eq.
Qed.

Lemma lvBytes_pos n : ∃ m, lvBytes n = Itoa m +:+ "b" ∧ (0 < m)%Z ∧ (n ≤ m)%Z.
Proof.
  unfold lvBytes. case_bool_decide; [exists 1048576%Z|exists n]; (split; [done|lia]).
Qed.

Lemma wp_run_or fmt name args (Q : H → res perror string → Prop) h :
  (let '(h', o) := Run name args h in
   match o_err o with None => Q h' (Ok (o_out o)) | Some _ => ∀ e, Q h' (Err e) end) →
  wp (run_or fmt name args) Q h.
Proof.
  unfold run_or, run_err, run, wp. destruct (Run name args h) as [h' [out [e|]]]; simpl; auto.
Qed.
End helpers.

(** ** Creating volumes *)

(** The names a configuration and a request may use. *)
Definition legal_config (instances : Instances) : Prop :=
  ∀ i ic, instances !! i = Some ic →
    (ic_VG ic = "" ∨ legal (ic_VG ic) = true) ∧ (ic_ThinPool ic = "" ∨ legal (ic_ThinPool ic) = true).
Definition legal_request (req : CreateVolumeRequest) : Prop :=
  (mget (CreateVolumeRequest_Parameters req) paramThinPool = "" ∨
   legal (mget (CreateVolumeRequest_Parameters req) paramThinPool) = true) ∧
  (∀ src, source_of req = Some src → legal (VolumeRef_Name src) = true).

Section create.
  Context {H : Type} `{LVMHost H} (instances : Instances) (Hcfg : legal_config instances).
  Implicit Types h : H.

Lemma vg_legal i g : vg instances i = Ok g → legal g = true.
Proof.
  unfold vg. destruct (instances !! i) as [ic|] eqn:Hi; [|done]. case_bool_decide as Hv; [done|].
  intros [= <-]. by destruct (Hcfg _ _ Hi) as [[?|?] _].
Qed.
Lemma pool_legal i params :
  mget params paramThinPool = "" ∨ legal (mget params paramThinPool) = true →
  thinPoolFor instances i params = "" ∨ legal (thinPoolFor instances i params) = true.
Proof.
  intros Hp. unfold thinPoolFor. case_bool_decide as Hm; [|by destruct Hp; [done|right]].
  destruct (instances !! i) as [ic|] eqn:Hi; [|by left]. by destruct (Hcfg _ _ Hi) as [_ ?].
Qed.

(** What a new volume is: large enough, active, and a thin copy of its source when
    it has one, thin or thick as the pool says when it has none. *)
Definition made_for (req : CreateVolumeRequest) (g : string) (m : Volumes) (l : LV) : Prop :=
  (CreateVolumeRequest_CapacityBytes req ≤ lv_size l)%Z ∧ lv_active l = true ∧
  match source_of req with
  | Some src => thin l = true ∧ lv_origin l = VolumeRef_Name src ∧
      ∃ s, m !! (g, VolumeRef_Name src) = Some s ∧ thin s = true ∧ (lv_size s ≤ lv_size l)%Z
  | None => thin l = negb (bool_decide (thinPoolFor instances (CreateVolumeRequest_Instance req)
                                          (CreateVolumeRequest_Parameters req) = ""))
  end.

Lemma wp_reread g lv l (Q : H → res perror Z → Prop) h :
  legal g = true → legal lv = true → vol h !! (g, lv) = Some l →
  (∀ h', vol h' = vol h → Q h' (Ok (lv_size l))) → (∀ h' e, vol h' = vol h → Q h' (Err e)) →
  wp (s ← lvSizeBytes g lv; mret s.1) Q h.
Proof.
  intros Hg Hlv Hl Hok Herr. apply wp_bind, wp_size; [done|done|..].
  - intros h' l' Hv Hl'. rewrite Hl' in Hl. simplify_eq. apply wp_ret, Hok, Hv.
  - intros h' _ Hn. by rewrite Hn in Hl.
  - intros h' e Hv _. by apply Herr.
Qed.

Lemma wp_create_new req g lv (Q : H → res perror Z → Prop) h :
  legal_request req → legal g = true → legal lv = true → vol h !! (g, lv) = None →
  (∀ h' l, vol h' = <[(g, lv) := l]> (vol h) → made_for req g (vol h) l → Q h' (Ok (lv_size l))) →
  (∀ h' e, untouched (g, lv) (vol h) (vol h') → Q h' (Err e)) →
  wp (create_new instances req g lv) Q h.
Proof.
  intros [Hpool Hsrc] Hg Hlv Hnone Hok Herr. unfold create_new.
  assert (∀ h1 l, vol h1 = <[(g, lv) := l]> (vol h) → made_for req g (vol h) l →
            wp (s ← lvSizeBytes g lv; mret s.1) Q h1) as Hend.
  { intros h1 l Hv Hm. apply (wp_reread _ _ l); [done|done|by rewrite Hv, lookup_insert_eq|..].
    - intros h2 Hv2. apply (Hok h2 l); [by rewrite Hv2|done].
    - intros h2 e Hv2. apply Herr. rewrite Hv2, Hv. by apply untouched_insert. }
  destruct (source_of req) as [src|] eqn:Hs.
  - specialize (Hsrc _ eq_refl). apply wp_bind. apply wp_bind, wp_isThin; [done|done|..].
    2:{ intros h1 e Hv. by apply Herr, untouched_eq. }
    intros h1 s Hv1 Hs1. apply wp_bind, wp_guard; intros Hthin; [|by apply Herr, untouched_eq].
    apply wp_bind. apply wp_thinClone; [done|done|done|by rewrite Hv1|..].
    2:{ intros h2 e Hu. apply Herr. by rewrite <-Hv1. }
    intros h2 l s' Hs' Hsz Ht Ho Ha Hv2. rewrite Hv1 in Hs'. rewrite Hs1 in Hs'. simplify_eq.
    apply (wp_extend _ _ _ l); [done|done|by rewrite Hv2, lookup_insert_eq|..].
    2:{ intros h3 e Hv3. apply Herr. rewrite Hv3, Hv2. by apply untouched_insert. }
    intros h3 n Hn Hln Hv3. apply (Hend h3 (resized n l)).
    { by rewrite Hv3, Hv2, insert_insert_eq, Hv1. }
    split; [done|]. split; [done|]. rewrite Hs. split; [done|]. split; [done|].
    exists s'. split; [done|]. split; [done|]. simpl. lia.
  - destruct (lvBytes_pos (CreateVolumeRequest_CapacityBytes req)) as (n & Hn & Hpos & Hle). rewrite !Hn.
    destruct (pool_legal (CreateVolumeRequest_Instance req) _ Hpool) as [Hp|Hp].
    + rewrite bool_decide_eq_true_2 by done. simpl. apply wp_bind, wp_bind, wp_run_or.
      pose proof (lvcreate_thick g lv n h Hg Hlv Hpos) as Hc.
      destruct (Run "lvcreate" _ h) as [h1 [out [e|]]]; simpl in *.
      { intros e'. by apply Herr, untouched_eq. }
      destruct Hc as (_ & l & Hnl & Ht & Ha & Hv). apply wp_ret, (Hend h1 l Hv).
      split; [lia|]. split; [done|]. rewrite Hs. by rewrite bool_decide_eq_true_2.
    + rewrite bool_decide_eq_false_2 by (intros Hb; by rewrite Hb in Hp). simpl.
      apply wp_bind, wp_bind, wp_run_or.
      pose proof (lvcreate_thin g _ lv n h Hg Hp Hlv Hpos) as Hc.
      destruct (Run "lvcreate" _ h) as [h1 [out [e|]]]; simpl in *.
      { intros e'. by apply Herr, untouched_eq. }
      destruct Hc as (_ & l & Hnl & Ht & Ha & Hv). apply wp_ret, (Hend h1 l Hv).
      split; [lia|]. split; [done|]. rewrite Hs. rewrite bool_decide_eq_false_2; [done|].
      intros Hb. by rewrite Hb in Hp.
Qed.

Lemma wp_create_found req g lv l (Q : H → res perror Z → Prop) h :
  legal g = true → legal lv = true → vol h !! (g, lv) = Some l →
  (∀ h' l', untouched (g, lv) (vol h) (vol h') → vol h' !! (g, lv) = Some l' →
     (CreateVolumeRequest_CapacityBytes req ≤ lv_size l')%Z →
     ((CreateVolumeRequest_CapacityBytes req ≤ lv_size l)%Z → vol h' = vol h) → Q h' (Ok (lv_size l'))) →
  (∀ h' e, untouched (g, lv) (vol h) (vol h') →
     (lv_size l < CreateVolumeRequest_CapacityBytes req)%Z → Q h' (Err e)) →
  wp (create_found req g lv (lv_size l)) Q h.
Proof.
  intros Hg Hlv Hl Hok Herr. unfold create_found. case_bool_decide as Hlt.
  2:{ apply wp_ret, (Hok h l); [by apply untouched_eq|done|lia|done]. }
  destruct (source_of req); [|by apply Herr; [apply untouched_eq|]].
  apply wp_bind, (wp_extend _ _ _ l); [done|done|done|..].
  2:{ intros h1 e Hv. by apply Herr; [apply untouched_eq|]. }
  intros h1 n Hn Hln Hv. apply (wp_reread _ _ (resized n l)); [done|done|by rewrite Hv, lookup_insert_eq|..].
  - intros h2 Hv2. apply (Hok h2 (resized n l)).
    + rewrite Hv2, Hv. by apply untouched_insert.
    + by rewrite Hv2, Hv, lookup_insert_eq.
    + done.
    + lia.
  - intros h2 e Hv2. apply Herr; [|done]. rewrite Hv2, Hv. by apply untouched_insert.
Qed.

(** The volume [CreateVolume] answers with. *)
Definition answer_for (req : CreateVolumeRequest) (g : string) (l : LV) : CreateVolumeResponse :=
  let lv := lvName (CreateVolumeRequest_Name req) in
  mkCreateVolumeResponse g lv (lv_size l) {[ctxDevPath := devPath g lv]} ∅.

Lemma wp_CreateVolume req g (Q : H → res perror CreateVolumeResponse → Prop) h :
  legal_request req → vg instances (CreateVolumeRequest_Instance req) = Ok g →
  let k := (g, lvName (CreateVolumeRequest_Name req)) in
  (∀ h' l, untouched k (vol h) (vol h') → vol h' !! k = Some l →
     (CreateVolumeRequest_CapacityBytes req ≤ lv_size l)%Z →
     (vol h !! k = None → made_for req g (vol h) l) →
     (∀ l0, vol h !! k = Some l0 → (CreateVolumeRequest_CapacityBytes req ≤ lv_size l0)%Z → vol h' = vol h) →
     Q h' (Ok (answer_for req g l))) →
  (∀ h' e, untouched k (vol h) (vol h') →
     (∀ l0, vol h !! k = Some l0 → (CreateVolumeRequest_CapacityBytes req ≤ lv_size l0)%Z → vol h' = vol h) →
     Q h' (Err e)) →
  wp (CreateVolume instances req) Q h.
Proof.
  intros Hreq Hg k Hok Herr. subst k. unfold CreateVolume. pose proof (vg_legal _ _ Hg) as Hgl.
  pose proof (lvName_legal (CreateVolumeRequest_Name req)) as Hlv.
  apply wp_bind, wp_lift. rewrite Hg. cbv beta iota zeta. apply wp_bind, wp_size; [done|done|..].
  - intros h1 l Hv Hl. apply wp_bind. simpl.
    apply (wp_create_found req g _ l); [done|done|by rewrite Hv|..]; rewrite Hv.
    + intros h2 l' Hu Hl' Hle Hsame. apply wp_ret, (Hok h2 l'); [done|done|done|..].
      * intros Hn. by rewrite Hn in Hl.
      * intros l0 Hl0 Hle0. rewrite Hl in Hl0. simplify_eq. auto.
    + intros h2 e Hu Hlt. apply Herr; [done|]. intros l0 Hl0 Hle0. rewrite Hl in Hl0. simplify_eq. lia.
  - intros h1 Hv Hn. apply wp_bind. simpl. apply wp_create_new; [done|done|done|by rewrite Hv|..]; rewrite Hv.
    + intros h2 l Hv2 Hm. apply wp_ret, (Hok h2 l); rewrite ?Hv2.
      * by apply untouched_insert.
      * apply lookup_insert_eq.
      * by destruct Hm.
      * done.
      * intros l0 Hl0. by rewrite Hl0 in Hn.
    + intros h2 e Hu. apply Herr; [done|]. intros l0 Hl0. by rewrite Hl0 in Hn.
  - intros h1 e Hv _. apply Herr; [by apply untouched_eq|done].
Qed.

(** C25: when the plugin creates a volume, the volume exists under the name derived
    from the request, in the instance's volume group, at least as large as requested,
    and the answer carries its name, its size and its device; a volume that was not
    there before is active, and is a thin copy of the requested source, or thin
    exactly when a pool is configured.  Whether or not the call succeeds, no other
    volume is touched. *)
Theorem CreateVolume_creates req g h :
  legal_request req → vg instances (CreateVolumeRequest_Instance req) = Ok g →
  let k := (g, lvName (CreateVolumeRequest_Name req)) in
  let '(h', r) := CreateVolume instances req h in
  untouched k (vol h) (vol h') ∧
  ∀ resp, r = Ok resp → ∃ l, vol h' !! k = Some l ∧ resp = answer_for req g l ∧
    (CreateVolumeRequest_CapacityBytes req ≤ lv_size l)%Z ∧ (vol h !! k = None → made_for req g (vol h) l).
Proof.
  intros Hreq Hg k. apply (wp_CreateVolume req g (λ h' r, untouched k (vol h) (vol h') ∧ ∀ resp, r = Ok resp → _)).
  - done.
  - done.
  - intros h' l Hu Hl Hle Hnew _. split; [done|]. intros resp [= <-]. by exists l.
  - done.
Qed.

(** C26: a create can be retried: after a create that succeeded, the same request
    changes nothing, and answers the same whenever lvs answers; it never makes a
    second volume and never resizes the one there is. *)
Theorem CreateVolume_idempotent req g h h1 resp h2 :
  legal_request req → vg instances (CreateVolumeRequest_Instance req) = Ok g →
  CreateVolume instances req h = (h1, Ok resp) → vol h2 = vol h1 →
  let '(h3, r) := CreateVolume instances req h2 in
  vol h3 = vol h2 ∧
  (r = Ok resp ∨ (∃ e, r = Err e) ∧ lvs_fails g (lvName (CreateVolumeRequest_Name req)) h2).
Proof.
  intros Hreq Hg Hc Hv2.
  pose proof (wp_CreateVolume req g (λ h' r, ∀ resp, r = Ok resp → ∃ l,
    vol h' !! (g, lvName (CreateVolumeRequest_Name req)) = Some l ∧ resp = answer_for req g l ∧
    (CreateVolumeRequest_CapacityBytes req ≤ lv_size l)%Z) h Hreq Hg) as Hw.
  unfold wp in Hw. rewrite Hc in Hw. destruct (Hw) with (resp := resp) as (l & Hl & -> & Hle); [|done|done|].
  { intros h' l _ Hl Hle _ _ resp' [= <-]. by exists l. }
  rewrite <-Hv2 in Hl.
  enough (wp (CreateVolume instances req) (λ h3 r, vol h3 = vol h2 ∧ (r = Ok (answer_for req g l) ∨
    (∃ e, r = Err e) ∧ lvs_fails g (lvName (CreateVolumeRequest_Name req)) h2)) h2) as Hgoal by done.
  unfold CreateVolume. apply wp_bind, wp_lift. rewrite Hg. cbv beta iota zeta.
  apply wp_bind, wp_size; [by eapply vg_legal|apply lvName_legal|..].
  - intros h3 l' Hv3 Hl'. rewrite Hl in Hl'. simplify_eq. apply wp_bind. simpl. unfold create_found.
    rewrite bool_decide_eq_false_2 by lia. apply wp_ret, wp_ret. split; [done|by left].
  - intros h3 _ Hn. by rewrite Hn in Hl.
  - intros h3 e Hv3 Hf. split; [done|]. right. split; [by exists e|done].
Qed.
End create.

(** ** Reading the table lvs prints *)
Section listing_table.

Lemma digits_val_ge s a v : digits_val s a = Some v → (0 ≤ a)%Z → (a ≤ v)%Z.
Proof.
  revert a. induction s as [|c s IH]; simpl; intros a; [intros [= <-]; lia|].
  destruct (Ascii.is_nat c) as [d|]; [|done]. intros Hv Ha. specialize (IH _ Hv ltac:(lia)). lia.
Qed.
Lemma parse_uint_digits s a v :
  digits_val s a = Some v → (0 ≤ a)%Z → (v ≤ 18446744073709551615)%Z → parse_uint s a = Some v.
Proof.
  revert a. induction s as [|c s IH]; simpl; intros a; [done|].
  destruct (Ascii.is_nat c) as [d|]; [|done]. intros Hv Ha Hle.
  pose proof (digits_val_ge _ _ _ Hv ltac:(lia)). rewrite bool_decide_eq_false_2 by lia.
  apply IH; [done|lia|done].
Qed.

Lemma Itoa_pos p : ∃ a r, Itoa (Z.pos p) = String a r ∧ a ≠ "-"%char ∧ a ≠ "+"%char ∧
  digits_val (Itoa (Z.pos p)) 0 = Some (Z.pos p).
Proof.
  unfold Itoa, pretty, pretty_Z, pretty, pretty_positive, pretty, pretty_N.
  destruct (decide (N.pos p = 0%N)) as [?|_]; [done|].
  destruct (pretty_go_head (Npos p) "") as (d & r & Heq & Hd1 & Hd2); [done|].
  pose proof (digits_val_pretty_go (Npos p) "") as Hv. rewrite Heq in *. exists d, r. done.
Qed.
Lemma ParseInt_Itoa n : (0 ≤ n ≤ int64_max)%Z → ParseInt_value (Itoa n) = n.
Proof.
  intros Hn. destruct n as [|p|p]; [done| |lia].
  destruct (Itoa_pos p) as (a & r & Heq & H1 & H2 & Hd). rewrite Heq in Hd |- *.
  unfold ParseInt_value. rewrite !decide_False by done. unfold parse_digits.
  rewrite bool_decide_eq_false_2 by done. unfold int64_max in *.
  rewrite (parse_uint_digits _ _ _ Hd) by lia. lia.
Qed.

Lemma digit_name d : (d < 10)%N → name_char (pretty_N_char d) = true.
Proof.
  intros Hd. assert (Hc : d = 0%N ∨ d = 1%N ∨ d = 2%N ∨ d = 3%N ∨ d = 4%N ∨ d = 5%N
    ∨ d = 6%N ∨ d = 7%N ∨ d = 8%N ∨ d = 9%N) by lia.
  by repeat (destruct Hc as [->|Hc]; [done|]); subst.
Qed.
Lemma pretty_go_chars (x : N) s :
  all_chars name_char s = true → all_chars name_char (pretty_N_go x s) = true.
Proof.
  revert s. induction (N.lt_wf_0 x) as [x _ IH]; intros s Hs.
  destruct (decide (x = 0%N)) as [->|Hx]; [by rewrite pretty_N_go_0|].
  rewrite pretty_N_go_step by lia. apply IH; [by apply N.div_lt; lia|]. simpl.
  rewrite digit_name by (by apply N.mod_lt). done.
Qed.
Lemma Itoa_chars n : (0 ≤ n)%Z → all_chars name_char (Itoa n) = true.
Proof.
  intros Hn. destruct n as [|p|p]; [done| |lia].
  unfold Itoa, pretty, pretty_Z, pretty, pretty_positive, pretty, pretty_N.
  destruct (decide (N.pos p = 0%N)) as [?|_]; [done|]. by apply pretty_go_chars.
Qed.

Lemma name_not_space a : name_char a = true → Ascii.is_space a = false.
Proof. destruct a as [[] [] [] [] [] [] [] []]; vm_compute; congruence. Qed.
Lemma names_no_space s : all_chars name_char s = true → all_chars (λ a, negb (Ascii.is_space a)) s = true.
Proof. apply all_chars_impl. intros a Ha. by rewrite name_not_space. Qed.
Lemma trim_name s : all_chars name_char s = true → trim_space s = s.
Proof. intros Hs. apply trim_none. by apply names_no_space. Qed.
Lemma legal_chars s : legal s = true → all_chars name_char s = true.
Proof. by intros [_ ?]%andb_true_iff. Qed.
Lemma legal_nonempty s : legal s = true → s ≠ "".
Proof. intros [Hs _]%andb_true_iff ->. done. Qed.

(** The row of a listed volume, as the plugin reads it. *)
Definition info_of (e : string * LV) : lvInfo :=
  mkLvInfo e.1 (lv_attr e.2) (lv_origin e.2) (tag_source (lv_tags e.2) "") (lv_size e.2).

Lemma join_chars P sep l :
  all_chars P sep = true → Forall (λ s, all_chars P s = true) l → all_chars P (join sep l) = true.
Proof.
  intros Hsep HF. induction HF as [|x l Hx HF IH]; [done|]. destruct l as [|y l]; [done|].
  rewrite join_cons, !all_chars_app, Hx, Hsep. done.
Qed.

Definition row_char (a : ascii) : bool := name_char a || bool_decide (a = "|"%char) || bool_decide (a = ","%char).
Lemma row_not_space a : row_char a = true → negb (Ascii.is_space a) = true.
Proof. destruct a as [[] [] [] [] [] [] [] []]; vm_compute; congruence. Qed.
Lemma name_row s : all_chars name_char s = true → all_chars row_char s = true.
Proof. apply all_chars_impl. intros a Ha. unfold row_char. by rewrite Ha. Qed.
Lemma tags_chars l : Forall (λ t, legal t = true) l → all_chars row_char (join "," l) = true.
Proof.
  intros HF. apply join_chars; [done|]. eapply Forall_impl; [exact HF|].
  intros t Ht. by apply name_row, legal_chars.
Qed.
Lemma row_chars n l : legal n = true → tame l → all_chars row_char (row n l) = true.
Proof.
  intros Hn (Hs & Ha & Ho & Ht). unfold row. apply join_chars; [done|].
  repeat apply Forall_cons_2; [..|apply Forall_nil_2].
  - by apply name_row, legal_chars.
  - apply name_row, Itoa_chars. lia.
  - by apply name_row, legal_chars.
  - by apply name_row.
  - by apply tags_chars.
Qed.

Lemma name_no_sep c s : name_char c = false → all_chars name_char s = true → contains_char c s = false.
Proof. apply all_chars_free. Qed.
Lemma tags_no_bar l : Forall (λ t, legal t = true) l → contains_char "|" (join "," l) = false.
Proof.
  intros HF. eapply (all_chars_free (λ a, name_char a || bool_decide (a = ","%char))); [done|].
  apply join_chars; [done|]. eapply Forall_impl; [exact HF|]. intros t Ht.
  eapply all_chars_impl; [|by apply legal_chars]. intros a ->. done.
Qed.
Lemma tags_read l :
  Forall (λ t, legal t = true) l → tag_source (split_on "," (trim_space (join "," l))) "" = tag_source l "".
Proof.
  intros HF. destruct l as [|t l]; [done|]. unfold trim_space. rewrite trim_none.
  2:{ eapply all_chars_impl; [apply row_not_space|by apply tags_chars]. }
  rewrite split_join; [done|done|]. eapply Forall_impl; [exact HF|]. intros x Hx.
  apply name_no_sep; [done|by apply legal_chars].
Qed.

Lemma parse_row_row n l : legal n = true → tame l → parse_row (row n l) = Some (info_of (n, l)).
Proof.
  intros Hn Hl. pose proof Hl as (Hs & Ha & Ho & Ht). unfold parse_row.
  unfold trim_space at 1. rewrite trim_none.
  2:{ eapply all_chars_impl; [apply row_not_space|by apply row_chars]. }
  unfold row. rewrite split_join; [|done|].
  - rewrite !(trim_name n) by (by apply legal_chars).
    rewrite bool_decide_eq_false_2 by (by apply legal_nonempty).
    rewrite (trim_name (lv_attr l)), (trim_name (lv_origin l)) by auto using legal_chars.
    rewrite (trim_name (Itoa _)), ParseInt_Itoa, tags_read by (done || apply Itoa_chars; lia). done.
  - repeat apply Forall_cons_2; [..|apply Forall_nil_2].
    + apply name_no_sep; [done|by apply legal_chars].
    + apply name_no_sep; [done|apply Itoa_chars; lia].
    + apply name_no_sep; [done|by apply legal_chars].
    + by apply name_no_sep.
    + by apply tags_no_bar.
Qed.

Definition indented (r : string) : string := "  " +:+ r.
Lemma parse_row_indented n l : legal n = true → tame l → parse_row (indented (row n l)) = Some (info_of (n, l)).
Proof.
  intros Hn Hl. rewrite <-(parse_row_row n l Hn Hl). unfold parse_row.
  pose proof (row_chars n l Hn Hl) as Hr.
  assert (all_chars (λ a, negb (Ascii.is_space a)) (row n l) = true) as Hsp
    by (eapply all_chars_impl; [apply row_not_space|done]).
  replace (trim_space (indented (row n l))) with (row n l).
  { assert (trim_space (row n l) = row n l) as -> by (by apply trim_none). done. }
  symmetry. unfold indented. rewrite <-(string_app_nil_r (row n l)) at 1.
  apply trim_spec; [done|done|by apply bare_ends_none|].
  unfold row. simpl. intros Hb. apply (legal_nonempty n Hn). by destruct n.
Qed.

(** The lines the trimmed table splits into. *)
Definition lines (r : string) (rs : list string) : list string := r :: map indented rs.
Definition nl : string := String newline "".
Lemma table_lines r rs : table (r :: rs) = "  " +:+ join nl (lines r rs) +:+ nl.
Proof.
  revert r. induction rs as [|r' rs IH]; intros r; [done|].
  change (table (r :: r' :: rs)) with ("  " +:+ r +:+ String newline (table (r' :: rs))).
  rewrite IH. unfold lines. simpl map. rewrite join_cons, !string_app_assoc. do 2 f_equal.
  change (String newline ?x) with (nl +:+ x). f_equal. unfold lines.
  destruct (map indented rs) as [|y ys] eqn:Hm; [done|]. rewrite !join_cons, !string_app_assoc. done.
Qed.

Lemma bare_tail_app P s t :
  t ≠ "" → bare_head P (string_rev t) = true → bare_head P (string_rev (s +:+ t)) = true.
Proof.
  intros Ht Hb. rewrite string_rev_append. destruct (string_rev t) as [|a u] eqn:E; [|done].
  destruct Ht. by rewrite <-(string_rev_involutive t), E.
Qed.
Lemma join_bare_tail P sep l :
  l ≠ [] → Forall (λ s, s ≠ "" ∧ bare_head P (string_rev s) = true) l →
  join sep l ≠ "" ∧ bare_head P (string_rev (join sep l)) = true.
Proof.
  intros Hne HF. induction HF as [|x l Hx HF IH]; [done|]. destruct l as [|y l]; [done|].
  destruct IH as [IH1 IH2]; [done|]. rewrite join_cons. split.
  - destruct Hx as [Hx _]. by destruct x.
  - apply bare_tail_app; [|by apply bare_tail_app]. by destruct sep.
Qed.

Lemma parse_rows_table ls :
  Forall (λ e, legal e.1 = true ∧ tame e.2) ls →
  parse_rows (table (map (λ e, row e.1 e.2) ls)) = map info_of ls.
Proof.
  intros HF. destruct ls as [|[n l] ls]; [done|]. apply Forall_cons in HF as [[Hn Hl] HF].
  simpl map. rewrite table_lines. unfold parse_rows, trim_space.
  assert (∀ e : string * LV, legal e.1 = true ∧ tame e.2 →
    row e.1 e.2 ≠ "" ∧ bare_ends Ascii.is_space (row e.1 e.2) = true ∧
    contains_char newline (row e.1 e.2) = false) as Hrow.
  { intros e [He1 He2]. pose proof (row_chars _ _ He1 He2) as Hr. repeat split.
    - unfold row. simpl. intros Hb. apply (legal_nonempty _ He1). by destruct (e.1).
    - apply bare_ends_none. eapply all_chars_impl; [apply row_not_space|done].
    - by eapply all_chars_free; [|exact Hr]. }
  destruct (Hrow (n, l)) as (Hne & Hb & Hnl); [done|]. simpl in Hne, Hb, Hnl.
  assert (Forall (λ s, s ≠ "" ∧ bare_head Ascii.is_space (string_rev s) = true ∧ contains_char newline s = false)
            (lines (row n l) (map (λ e, row e.1 e.2) ls))) as HL.
  { unfold lines. constructor.
    - apply andb_true_iff in Hb as [_ ?]. done.
    - rewrite map_map. apply Forall_map, (Forall_impl _ _ _ HF). intros e He.
      destruct (Hrow e He) as (He1 & He2 & He3). apply andb_true_iff in He2 as [_ He2].
      unfold indented. split; [done|]. split; [by apply bare_tail_app|].
      by rewrite contains_char_app, He3. }
  rewrite trim_spec; [|done|done|..].
  - rewrite (split_join newline); [|done|by eapply Forall_impl; [exact HL|]; intros s (_ & _ & ?)].
    unfold lines. simpl. rewrite parse_row_row by done. f_equal. clear HL.
    induction HF as [|e ls [He1 He2] HF IH]; simpl; [done|].
    rewrite parse_row_indented by done. f_equal. exact IH.
  - apply andb_true_iff. split; [|by eapply join_bare_tail; [done|]; eapply Forall_impl; [exact HL|]; intros s (? & ? & ?)].
    apply andb_true_iff in Hb as [Hb _]. unfold lines. destruct (map indented _) as [|y ys]; [done|].
    rewrite join_cons. by destruct (row n l).
  - by eapply join_bare_tail; [done|]; eapply Forall_impl; [exact HL|]; intros s (? & ? & ?).
Qed.
End listing_table.

Lemma elem_of_in_vg vg m n l : (n, l) ∈ in_vg vg m ↔ m !! (vg, n) = Some l.
Proof.
  unfold in_vg. rewrite list_elem_of_omap. split.
  - intros ([[v n'] l'] & Hin & Hs). simpl in Hs. case_bool_decide; [|done]. simplify_eq.
    by apply elem_of_map_to_list in Hin.
  - intros Hm. exists ((vg, n), l). split; [by apply elem_of_map_to_list|]. simpl.
    by rewrite bool_decide_eq_true_2.
Qed.

(** ** Listing, deleting, taking snapshots *)
Section volumes.
  Context {H : Type} `{LVMHost H} `{MapIter} (instances : Instances) (Hcfg : legal_config instances).
  Implicit Types h : H.

Lemma wp_listLVs g (Q : H → res perror (list lvInfo) → Prop) h :
  legal g = true →
  (∀ h' ls, vol h' = vol h → ls ≡ₚ in_vg g (vol h) → Q h' (Ok (map info_of ls))) →
  (∀ h' e, vol h' = vol h → Q h' (Err e)) →
  wp (listLVs g) Q h.
Proof.
  intros Hg Hok Herr. unfold listLVs, catch, run, wp. pose proof (lvs_list g h Hg) as Hl.
  destruct (Run "lvs" _ h) as [h' [out [e|]]]; simpl in *; destruct Hl as [Hv Hl].
  - destruct (isNotFound e); [|by apply Herr]. apply (Hok h' []); [done|]. by rewrite Hl.
  - destruct Hl as (ls & Hp & ->). rewrite parse_rows_table; [by apply Hok|].
    rewrite Hp, Forall_forall. intros [n l] Hin%elem_of_in_vg.
    destruct (vol_tame _ _ _ _ Hin) as (_ & ? & ?). done.
Qed.

(** What a listing shows: the entries of the volumes in the instances' groups. *)
Definition shown {A} (entry : string → string → lvInfo → option A) (l : list (string * InstanceConfig))
    (m : Volumes) (e : A) : Prop :=
  ∃ i ic n lv, (i, ic) ∈ l ∧ ic_VG ic ≠ "" ∧ m !! (ic_VG ic, n) = Some lv ∧
    entry i (ic_VG ic) (info_of (n, lv)) = Some e.

Lemma wp_list_instances {A} (entry : string → string → lvInfo → option A) l es h :
  (∀ i ic, (i, ic) ∈ l → ic_VG ic = "" ∨ legal (ic_VG ic) = true) →
  wp (list_instances entry l es) (λ h' r, vol h' = vol h ∧
    ∀ es', r = Ok es' → ∀ e, e ∈ es' ↔ e ∈ es ∨ shown entry l (vol h) e) h.
Proof.
  revert es h. induction l as [|[i ic] l IH]; intros es h Hleg; simpl.
  - split; [done|]. intros es' [= <-] e. split; [by left|]. intros [?|(? & ? & ? & ? & Hin & _)]; [done|].
    by apply elem_of_nil in Hin.
  - assert (∀ i' ic', (i', ic') ∈ l → ic_VG ic' = "" ∨ legal (ic_VG ic') = true) as Hleg'.
    { intros i' ic' Hin. apply (Hleg i'). by right. }
    case_bool_decide as Hvg.
    + eapply wp_mono; [by apply IH|]. intros h' r [Hv Hes]. split; [done|]. intros es' Hr e.
      rewrite (Hes es' Hr e). apply or_iff_compat_l. split; intros (i' & ic' & n & lv & Hin & Hne & Hrest).
      * exists i', ic', n, lv. split; [by right|done].
      * apply elem_of_cons in Hin as [[= -> ->]|Hin]; [done|]. by exists i', ic', n, lv.
    + destruct (Hleg i ic) as [?|Hg]; [by left|done|]. apply wp_bind, wp_listLVs; [done|..].
      2:{ intros h1 e Hv. done. }
      intros h1 ls Hv Hp. eapply wp_mono; [by apply IH|]. intros h' r [Hv' Hes]. split; [by rewrite Hv'|].
      intros es' Hr e. rewrite (Hes es' Hr e), elem_of_app, list_elem_of_omap, Hv. split.
      * intros [[?|(li & Hin & He)]|(i' & ic' & n & lv & Hin & Hrest)]; [by left|right..].
        -- apply list_elem_of_fmap in Hin as ([n lv] & -> & Hin). rewrite Hp in Hin.
           apply elem_of_in_vg in Hin. exists i, ic, n, lv. split; [by left|done].
        -- exists i', ic', n, lv. split; [by right|done].
      * intros [?|(i' & ic' & n & lv & Hin & Hne & Hm & He)]; [by left; left|].
        apply elem_of_cons in Hin as [[= -> ->]|Hin].
        -- left. right. exists (info_of (n, lv)). split; [|done]. apply list_elem_of_fmap.
           exists (n, lv). split; [done|]. rewrite Hp. by apply elem_of_in_vg.
        -- right. by exists i', ic', n, lv.
Qed.

Lemma shown_volume m e :
  shown volume_entry (range instances) m e ↔
  ∃ i ic n l, instances !! i = Some ic ∧ ic_VG ic ≠ "" ∧ m !! (ic_VG ic, n) = Some l ∧
    has_prefix "bard-" n = true ∧ has_prefix "t" (lv_attr l) = false ∧
    e = mkVolumeListEntry (mkVolumeRef i (ic_VG ic) n) (lv_size l).
Proof.
  unfold shown. do 4 (apply exist_proper; intros ?). rewrite elem_of_range. unfold volume_entry, isThinPool. simpl.
  destruct (has_prefix "bard-" _), (has_prefix "t" _); simpl;
    (split; [intros (? & ? & ? & Hs) | intros (? & ? & ? & ? & ? & Hs)]; simplify_eq; repeat split; done).
Qed.
Lemma shown_snapshot m e :
  shown snapshot_entry (range instances) m e ↔
  ∃ i ic n l src, instances !! i = Some ic ∧ ic_VG ic ≠ "" ∧ m !! (ic_VG ic, n) = Some l ∧
    has_prefix "snap-" n = true ∧ src ≠ "" ∧
    src = (if bool_decide (lv_origin l = "") then tag_source (lv_tags l) "" else lv_origin l) ∧
    e = mkSnapshotListEntry (mkVolumeRef i (ic_VG ic) n) (mkVolumeRef i (ic_VG ic) src) (lv_size l) 0 true.
Proof.
  unfold shown. do 4 (apply exist_proper; intros ?). rewrite elem_of_range. unfold snapshot_entry. simpl.
  destruct (has_prefix "snap-" _); simpl.
  2:{ split; [by intros (_ & _ & _ & ?)|by intros (src & _ & _ & _ & ? & _)]. }
  split.
  - intros (? & ? & ? & Hs).
    set (src := if bool_decide (lv_origin _ = "") then _ else _) in Hs.
    destruct (bool_decide (src = "")) eqn:Hsrc; [done|]. apply bool_decide_eq_false_1 in Hsrc.
    exists src. by simplify_eq.
  - intros (src & ? & ? & ? & _ & Hne & -> & ->). repeat split; [done..|]. by rewrite bool_decide_eq_false_2.
Qed.

Lemma range_legal i ic : (i, ic) ∈ range instances → ic_VG ic = "" ∨ legal (ic_VG ic) = true.
Proof. intros Hin%elem_of_range. by destruct (Hcfg _ _ Hin). Qed.
Lemma wp_ListVolumes h :
  wp (ListVolumes instances mkListVolumesRequest) (λ h' r, vol h' = vol h ∧ ∀ resp, r = Ok resp →
    ∀ e, e ∈ ListVolumesResponse_Entries resp ↔ shown volume_entry (range instances) (vol h) e) h.
Proof.
  apply wp_bind. eapply wp_mono; [apply wp_list_instances, range_legal|]. intros h' [es|e] [Hv Hes]; simpl.
  - split; [done|]. intros resp [= <-] e. simpl. rewrite (Hes es eq_refl e), elem_of_nil.
    split; [by intros [?|?]|by right].
  - done.
Qed.
Lemma wp_ListSnapshots h :
  wp (ListSnapshots instances mkListSnapshotsRequest) (λ h' r, vol h' = vol h ∧ ∀ resp, r = Ok resp →
    ∀ e, e ∈ ListSnapshotsResponse_Entries resp ↔ shown snapshot_entry (range instances) (vol h) e) h.
Proof.
  apply wp_bind. eapply wp_mono; [apply wp_list_instances, range_legal|]. intros h' [es|e] [Hv Hes]; simpl.
  - split; [done|]. intros resp [= <-] e. simpl. rewrite (Hes es eq_refl e), elem_of_nil.
    split; [by intros [?|?]|by right].
  - done.
Qed.

(** The listings are exact and read-only: when [ListVolumes] answers, its
    entries are the LVs named like volumes, thin pools left out, in the groups of the
    configured instances, each with its size; when [ListSnapshots] answers, its
    entries are the LVs named like snapshots, each with the source its origin or, when
    that is gone, its tag records.  The text lvs prints is read back without loss. *)
Theorem listings_exact h :
  let '(h1, r1) := ListVolumes instances mkListVolumesRequest h in
  let '(h2, r2) := ListSnapshots instances mkListSnapshotsRequest h in
  vol h1 = vol h ∧ vol h2 = vol h ∧
  (∀ resp e, r1 = Ok resp → e ∈ ListVolumesResponse_Entries resp ↔
     ∃ i ic n l, instances !! i = Some ic ∧ ic_VG ic ≠ "" ∧ vol h !! (ic_VG ic, n) = Some l ∧
       has_prefix "bard-" n = true ∧ has_prefix "t" (lv_attr l) = false ∧
       e = mkVolumeListEntry (mkVolumeRef i (ic_VG ic) n) (lv_size l)) ∧
  (∀ resp e, r2 = Ok resp → e ∈ ListSnapshotsResponse_Entries resp ↔
     ∃ i ic n l src, instances !! i = Some ic ∧ ic_VG ic ≠ "" ∧ vol h !! (ic_VG ic, n) = Some l ∧
       has_prefix "snap-" n = true ∧ src ≠ "" ∧
       src = (if bool_decide (lv_origin l = "") then tag_source (lv_tags l) "" else lv_origin l) ∧
       e = mkSnapshotListEntry (mkVolumeRef i (ic_VG ic) n) (mkVolumeRef i (ic_VG ic) src) (lv_size l) 0 true).
Proof.
  pose proof (wp_ListVolumes h) as Hvols. pose proof (wp_ListSnapshots h) as Hsnaps. unfold wp in *.
  destruct (ListVolumes _ _ h) as [h1 r1], (ListSnapshots _ _ h) as [h2 r2].
  destruct Hvols as [Hv1 He1]. destruct Hsnaps as [Hv2 He2]. split; [done|]. split; [done|]. split; intros resp e Hr.
  - by rewrite (He1 resp Hr e), shown_volume.
  - by rewrite (He2 resp Hr e), shown_snapshot.
Qed.

(** *** Deleting *)
Lemma removed_gone g lv m : removed g lv m !! (g, lv) = None.
Proof. unfold removed. by rewrite map_lookup_imap, lookup_delete_eq. Qed.
Lemma removed_other g lv m k l :
  k ≠ (g, lv) → m !! k = Some l →
  removed g lv m !! k = Some (if bool_decide (k.1 = g) then orphaned lv l else l).
Proof. intros Hk Hm. unfold removed. by rewrite map_lookup_imap, lookup_delete_ne, Hm. Qed.

Lemma wp_remove g lv fmt (Q : H → res perror unit → Prop) h :
  legal g = true → legal lv = true →
  (∀ h', vol h' = removed g lv (vol h) → Q h' (Ok tt)) →
  (∀ h', vol h' = vol h → vol h !! (g, lv) = None → Q h' (Ok tt)) →
  (∀ h' e, vol h' = vol h → Q h' (Err e)) →
  wp (run_unless isNotFound fmt "lvremove" (lvm_args ["-f"; path_of g lv])) Q h.
Proof.
  intros Hg Hlv Hok Hno Herr. unfold run_unless, catch, run, wp. pose proof (lvremove g lv h Hg Hlv) as Hr.
  destruct (Run "lvremove" _ h) as [h' [out [e|]]]; simpl in *; [|by apply Hok].
  destruct Hr as [Hv Hr]. destruct (isNotFound e); [apply Hno; auto|by apply Herr].
Qed.

(** *** Taking snapshots *)
Lemma wp_CreateSnapshot req (Q : H → res perror CreateSnapshotResponse → Prop) h :
  let g := VolumeRef_Location (CreateSnapshotRequest_SourceVolume req) in
  let src := VolumeRef_Name (CreateSnapshotRequest_SourceVolume req) in
  let snap := snapName (CreateSnapshotRequest_Name req) in
  legal g = true → legal src = true →
  (∀ h' s l now, vol h !! (g, src) = Some s → thin s = true → vol h' !! (g, snap) = Some l → lv_origin l = src →
     untouched (g, snap) (vol h) (vol h') →
     (∀ l0, vol h !! (g, snap) = Some l0 → vol h' = vol h) →
     (vol h !! (g, snap) = None → lv_tags l = [srcTagPrefix +:+ src] ∧ lv_size l = lv_size s) →
     Q h' (Ok (mkCreateSnapshotResponse g snap "" (lv_size s) now true))) →
  (∀ h' e, untouched (g, snap) (vol h) (vol h') → (is_Some (vol h !! (g, snap)) → vol h' = vol h) → Q h' (Err e)) →
  wp (CreateSnapshot req) Q h.
Proof.
  intros g src snap Hg Hsrc Hok Herr. pose proof (snapName_legal (CreateSnapshotRequest_Name req)) as Hsn.
  assert (∀ h' e, vol h' = vol h → Q h' (Err e)) as Hsame by (intros h' e Hv; apply Herr; [by apply untouched_eq|done]).
  unfold CreateSnapshot. fold g src snap in Hsn |- *. apply wp_bind, wp_isThin; [done|done| |done].
  intros h1 s Hv1 Hs. apply wp_bind, wp_guard; intros Hthin; [|by apply Hsame]. cbv zeta.
  apply wp_bind, wp_origin; [done|done|..].
  3:{ intros h2 e Hv2. apply Hsame. by rewrite Hv2. }
  - intros h2 l0 Hv2 Hl0. rewrite Hv1 in Hv2, Hl0. apply wp_bind, wp_guard; intros Hor; [|by apply Hsame].
    simpl in Hor. rewrite negb_involutive in Hor. apply bool_decide_eq_true_1 in Hor.
    apply wp_bind. unfold run_unless, catch, run, wp at 1.
    pose proof (lvcreate_snapshot g src _ snap h2 Hg Hsrc Hsn (tag_legal _ Hsrc)) as Hc.
    destruct (Run "lvcreate" _ h2) as [h3 [out [e|]]]; simpl in Hc |- *.
    2:{ destruct Hc as [Hn _]. by rewrite Hv2, Hl0 in Hn. }
    destruct Hc as [Hv3 _]. destruct (isAlreadyExists e); simpl; [|apply Hsame; by rewrite Hv3].
    apply wp_bind, wp_size; [done|done|..].
    + intros h4 s' Hv4 Hs'. rewrite Hv3, Hv2, Hs in Hs'. simplify_eq. apply wp_bind, wp_gets, wp_ret. simpl.
      assert (vol h4 = vol h) as Hv by (by rewrite Hv4, Hv3).
      apply (Hok h4 s' l0); rewrite ?Hv; try done. intros Hn. by rewrite Hl0 in Hn.
    + intros h4 _ Hn. by rewrite Hv3, Hv2, Hs in Hn.
    + intros h4 e' Hv4 _. apply Hsame. by rewrite Hv4, Hv3.
  - intros h2 Hv2 Hnone. rewrite Hv1 in Hv2, Hnone. apply wp_bind, wp_guard; intros Hor; [|done].
    apply wp_bind. unfold run_unless, catch, run, wp at 1.
    pose proof (lvcreate_snapshot g src _ snap h2 Hg Hsrc Hsn (tag_legal _ Hsrc)) as Hc.
    destruct (Run "lvcreate" _ h2) as [h3 [out [e|]]]; simpl in Hc |- *.
    { destruct Hc as [Hv3 Hc]. destruct (isAlreadyExists e); simpl; [|apply Hsame; by rewrite Hv3].
      destruct (Hc eq_refl) as [? Hx]. by rewrite Hv2, Hnone in Hx. }
    destruct Hc as (_ & l & s' & Hs' & Hsz & Hth & Horig & Htags & Hv3). rewrite Hv2, Hs in Hs'. injection Hs' as <-.
    assert ((g, src) ≠ (g, snap)) as Hne by (intros Heq; rewrite Heq, Hnone in Hs; done).
    apply wp_bind, wp_size; [done|done|..].
    + intros h4 s1 Hv4 Hs1. rewrite Hv3, lookup_insert_ne, Hv2, Hs in Hs1 by done. injection Hs1 as <-.
      apply wp_bind, wp_gets, wp_ret. simpl.
      apply (Hok h4 s l); rewrite ?Hv4, ?Hv3, ?Hv2; try done.
      * by rewrite lookup_insert_eq.
      * by apply untouched_insert.
      * intros l0 Hl0. by rewrite Hl0 in Hnone.
    + intros h4 _ Hn. by rewrite Hv3, lookup_insert_ne, Hv2, Hs in Hn.
    + intros h4 e' Hv4 _. apply Herr; rewrite Hv4, Hv3, Hv2; [by apply untouched_insert|].
      intros [l0 Hl0]. by rewrite Hl0 in Hnone.
Qed.

(** A snapshot is taken of a thin volume only, under the name derived from the
    request, and its answer carries the source's size; no other volume is touched.
    When a snapshot of that name exists, nothing changes at all, and when it is one of
    another volume the call fails: one source's snapshot never passes for another's. *)
Theorem CreateSnapshot_takes req h :
  let g := VolumeRef_Location (CreateSnapshotRequest_SourceVolume req) in
  let src := VolumeRef_Name (CreateSnapshotRequest_SourceVolume req) in
  let snap := snapName (CreateSnapshotRequest_Name req) in
  legal g = true → legal src = true →
  let '(h', r) := CreateSnapshot req h in
  untouched (g, snap) (vol h) (vol h') ∧
  (∀ l0, vol h !! (g, snap) = Some l0 → vol h' = vol h ∧ (lv_origin l0 ≠ src → ∃ e, r = Err e)) ∧
  ∀ resp, r = Ok resp → ∃ s l, vol h !! (g, src) = Some s ∧ thin s = true ∧
    vol h' !! (g, snap) = Some l ∧ lv_origin l = src ∧
    CreateSnapshotResponse_Location resp = g ∧ CreateSnapshotResponse_Name resp = snap ∧
    CreateSnapshotResponse_SizeBytes resp = lv_size s ∧ CreateSnapshotResponse_ReadyToUse resp = true.
Proof.
  intros g src snap Hg Hsrc. apply (wp_CreateSnapshot req (λ h' r, untouched (g, snap) (vol h) (vol h') ∧
    (∀ l0, vol h !! (g, snap) = Some l0 → vol h' = vol h ∧ (lv_origin l0 ≠ src → ∃ e, r = Err e)) ∧
    ∀ resp, r = Ok resp → _)); [done|done|..].
  - intros h' s l now Hs Ht Hl Ho Hu Hold Hnew. split; [done|]. split.
    + intros l0 Hl0. split; [by eapply Hold|]. intros Hne. rewrite (Hold _ Hl0) in Hl.
      fold snap g in Hl. rewrite Hl0 in Hl. by injection Hl as ->.
    + intros resp [= <-]. by exists s, l.
  - intros h' e Hu Hsame. split; [done|]. split; [|done]. intros l0 Hl0. split; [by apply Hsame; exists l0|].
    intros _. by exists e.
Qed.

Lemma tag_source_recorded n : tag_source [srcTagPrefix +:+ n] "" = n.
Proof. cbn [tag_source]. by rewrite cut_prefix_app. Qed.

(** C27: a snapshot outlives its source: once a snapshot was taken, deleting the
    source volume leaves it in place, and every listing still shows it with that
    source, in each instance of its volume group, although LVM no longer knows its
    origin. *)
Theorem snapshot_survives_source req secrets i ic h h1 resp h2 h3 h4 h5 lresp :
  let src := CreateSnapshotRequest_SourceVolume req in
  let snap := snapName (CreateSnapshotRequest_Name req) in
  legal (VolumeRef_Location src) = true → legal (VolumeRef_Name src) = true →
  instances !! i = Some ic → ic_VG ic = VolumeRef_Location src →
  vol h !! (VolumeRef_Location src, snap) = None →
  CreateSnapshot req h = (h1, Ok resp) → vol h2 = vol h1 →
  DeleteVolume (mkDeleteVolumeRequest src secrets) h2 = (h3, Ok tt) → vol h4 = vol h3 →
  ListSnapshots instances mkListSnapshotsRequest h4 = (h5, Ok lresp) →
  mkSnapshotListEntry (mkVolumeRef i (VolumeRef_Location src) snap)
    (mkVolumeRef i (VolumeRef_Location src) (VolumeRef_Name src))
    (CreateSnapshotResponse_SizeBytes resp) 0 true ∈ ListSnapshotsResponse_Entries lresp.
Proof.
  intros src snap Hg Hsrc Hi Hic Hnone Hc Hv2 Hd Hv4 Hl.
  set (g := VolumeRef_Location src) in *. set (n := VolumeRef_Name src) in *.
  assert (∃ s l, vol h !! (g, n) = Some s ∧ vol h1 !! (g, snap) = Some l ∧ lv_origin l = n ∧
    lv_tags l = [srcTagPrefix +:+ n] ∧ lv_size l = CreateSnapshotResponse_SizeBytes resp)
    as (s & l & Hs & Hl1 & Horig & Htags & Hsz).
  { refine (wp_elim _ (λ h1 r, ∀ resp, r = Ok resp → _) h h1 _ _ Hc resp eq_refl).
    apply wp_CreateSnapshot; [done|done|..].
    - intros h' s l now Hs Ht Hl' Ho Hu Hold Hnew resp' [= <-]. destruct (Hnew Hnone) as [? ?]. by exists s, l.
    - done. }
  assert ((g, snap) ≠ (g, n)) as Hne by (intros Heq; rewrite Heq, Hs in Hnone; done).
  rewrite <-Hv2 in Hl1.
  assert (∃ l', vol h3 !! (g, snap) = Some l' ∧ lv_size l' = lv_size l ∧
    (if bool_decide (lv_origin l' = "") then tag_source (lv_tags l') "" else lv_origin l') = n)
    as (l' & Hl' & Hsz' & Hsrc').
  { refine (wp_elim _ (λ h3 r, r = Ok tt → _) h2 h3 _ _ Hd eq_refl). apply wp_remove; [done|done|..]; [..|done].
    - intros h' Hv _. rewrite Hv. rewrite (removed_other _ _ _ _ l) by done. simpl.
      rewrite bool_decide_eq_true_2 by done. eexists. split; [done|]. unfold orphaned.
      rewrite bool_decide_eq_true_2 by done. simpl. split; [done|]. rewrite Htags. apply tag_source_recorded.
    - intros h' Hv _ _. rewrite Hv. exists l. split; [done|]. split; [done|]. rewrite Horig.
      rewrite bool_decide_eq_false_2; [done|]. by apply legal_nonempty. }
  rewrite <-Hv4 in Hl'. destruct (wp_elim _ _ _ _ _ (wp_ListSnapshots h4) Hl) as [_ Hx].
  apply (Hx lresp eq_refl), shown_snapshot. exists i, ic, snap, l', n. rewrite Hic.
  split; [done|]. split; [by apply legal_nonempty|]. split; [done|]. split.
  { unfold snap, snapName, has_prefix. by rewrite cut_prefix_app. }
  split; [by apply legal_nonempty|]. split; [done|]. by rewrite Hsz', Hsz.
Qed.
End volumes.

(** ** A host that keeps the laws

    A small LVM over a map of volumes: sizes are taken as asked, lvs prints with
    leading blanks, names that are not legal and thin pools that are asked for
    anything but a name are refused. *)
#[local] Instance tame_dec l : Decision (tame l).
Proof. unfold tame. apply _. Defined.
Definition proper (e : (string * string) * LV) : Prop := legal e.1.1 = true ∧ legal e.1.2 = true ∧ tame e.2.
#[local] Instance proper_dec e : Decision (proper e).
Proof. unfold proper. apply _. Defined.
Definition fake_vol (m : Volumes) : Volumes := filter proper m.

Definition ok_out (s : string) : output := mkOutput s None.
Definition err_out (s : string) : output := mkOutput "" (Some s).

(** The last argument and those before it. *)
Fixpoint split_last (l : list string) : option (list string * string) :=
  match l with
  | [] => None
  | [x] => Some ([], x)
  | x :: l => match split_last l with Some (pre, y) => Some (x :: pre, y) | None => None end
  end.

Definition at_path (m : Volumes) (p : string) : option ((string * string) * LV) :=
  match cut_on "/" p with
  | Some k => match fake_vol m !! k with Some l => Some (k, l) | None => None end
  | None => None
  end.

Definition fake_lvs (args : list string) (m : Volumes) : output :=
  match split_last args with
  | None => err_out "usage"
  | Some (pre, p) =>
      if bool_decide (pre = take 8 (list_args "")) then
        ok_out (table (map (λ e, row e.1 e.2) (in_vg p (fake_vol m))))
      else match at_path m p with
      | None => err_out "Failed to find logical volume"
      | Some (_, l) =>
          if bool_decide (pre = ["--noheadings"; "--units"; "b"; "--nosuffix"; "-o"; "lv_size"])
          then ok_out ("  " +:+ Itoa (lv_size l) +:+ String newline "")
          else if bool_decide (pre = ["--noheadings"; "-o"; "lv_attr"])
          then ok_out ("  " +:+ lv_attr l +:+ String newline "")
          else if bool_decide (pre = ["--noheadings"; "-o"; "origin"])
          then ok_out (if bool_decide (lv_origin l = "") then String newline ""
                       else "  " +:+ lv_origin l +:+ String newline "")
          else err_out "unknown field"
      end
  end.

(** Insert a volume that is new and proper. *)
Definition fake_insert (k : string * string) (l : LV) (m : Volumes) : Volumes * output :=
  if bool_decide (proper (k, l)) then
    match fake_vol m !! k with
    | Some _ => (m, err_out "Logical volume already exists")
    | None => (<[k := l]> (fake_vol m), ok_out "")
    end
  else (m, err_out "Invalid name").
Definition fake_size (s : string) : option Z := Atoi (trim_suffix "b" s).
Definition fake_snapshot (lv p : string) (tags : list string) (m : Volumes) : Volumes * output :=
  match at_path m p with
  | None => (m, err_out "Failed to find logical volume")
  | Some ((vg, src), s) =>
      if thin s then fake_insert (vg, lv) (mkLV (lv_size s) "Vwi---tz-k" src tags false) m
      else (m, err_out "Please specify either size or extents")
  end.
Definition fake_lvcreate (args : list string) (m : Volumes) : Volumes * output :=
  match args with
  | [_; lv; _; sz; vg] =>
      match fake_size sz with
      | Some n => fake_insert (vg, lv) (mkLV n "-wi-a-----" "" [] true) m
      | None => (m, err_out "Invalid size")
      end
  | [_; p; _; sz; _; lv] =>
      match cut_on "/" p, fake_size sz with
      | Some (vg, _), Some n => fake_insert (vg, lv) (mkLV n "Vwi-a-tz--" "" [] true) m
      | _, _ => (m, err_out "Invalid size")
      end
  | [_; _; lv; p] => fake_snapshot lv p [] m
  | [_; _; _; tag; _; lv; p] => fake_snapshot lv p [tag] m
  | _ => (m, err_out "usage")
  end.
Definition fake_lvchange (args : list string) (m : Volumes) : Volumes * output :=
  match args with
  | [_; _; p] =>
      match at_path m p with
      | Some (k, l) => (<[k := activated l]> (fake_vol m), ok_out "")
      | None => (m, err_out "Failed to find logical volume")
      end
  | _ => (m, err_out "usage")
  end.
Definition fake_lvextend (args : list string) (m : Volumes) : Volumes * output :=
  match args with
  | [_; sz; p] =>
      match at_path m p, fake_size sz with
      | Some (k, l), Some n =>
          if bool_decide (n ≤ lv_size l)%Z then (m, err_out "New size not larger than existing size")
          else (<[k := resized n l]> (fake_vol m), ok_out "")
      | Some _, None => (m, err_out "Invalid size")
      | None, _ => (m, err_out "Failed to find logical volume")
      end
  | _ => (m, err_out "usage")
  end.
Definition fake_lvremove (args : list string) (m : Volumes) : Volumes * output :=
  match args with
  | [_; p] =>
      match at_path m p with
      | Some ((vg, lv), _) => (removed vg lv (fake_vol m), ok_out "")
      | None => (m, err_out "Failed to find logical volume")
      end
  | _ => (m, err_out "usage")
  end.

Definition fake_run (name : string) (args : list string) (m : Volumes) : Volumes * output :=
  if bool_decide (name = "lvs") then (m, fake_lvs args m)
  else if bool_decide (name = "lvcreate") then fake_lvcreate (drop 2 args) m
  else if bool_decide (name = "lvchange") then fake_lvchange (drop 2 args) m
  else if bool_decide (name = "lvextend") then fake_lvextend (drop 2 args) m
  else if bool_decide (name = "lvremove") then fake_lvremove (drop 2 args) m
  else (m, err_out "command not supported").
#[export] Instance fake_host : Host Volumes := {|
  Run := fake_run;
  MkdirAll _ _ m := (m, None);
  UnixNow _ := 1700000000%Z;
|}.

(** The laws. *)
#[local] Arguments path_of : simpl never.
#[local] Arguments at_path : simpl never.
#[local] Arguments fake_size : simpl never.
Definition all_proper (m : Volumes) : Prop := map_Forall (λ k l, proper (k, l)) m.
Lemma fake_vol_proper m : all_proper (fake_vol m).
Proof. intros k l Hkl. by apply map_lookup_filter_Some in Hkl as [_ ?]. Qed.
Lemma fake_vol_id m : all_proper m → fake_vol m = m.
Proof. intros Hm. apply map_filter_id. intros k l Hkl. by apply Hm. Qed.
Lemma fake_vol_insert k l m : proper (k, l) → fake_vol (<[k := l]> (fake_vol m)) = <[k := l]> (fake_vol m).
Proof. intros Hp. apply fake_vol_id, map_Forall_insert_2; [done|apply fake_vol_proper]. Qed.

Lemma legal_no_slash s : legal s = true → contains_char "/" s = false.
Proof. intros Hs. apply name_no_sep; [done|by apply legal_chars]. Qed.
Lemma at_path_of m vg lv :
  legal vg = true →
  at_path m (path_of vg lv) = match fake_vol m !! (vg, lv) with Some l => Some ((vg, lv), l) | None => None end.
Proof. intros Hvg. unfold at_path, path_of. rewrite cut_on_app by (by apply legal_no_slash). done. Qed.

Lemma Atoi_Itoa_inv n m : (0 < n)%Z → Atoi (Itoa n) = Some m → m = n.
Proof.
  destruct n as [|p|p]; [lia| |lia]. intros _. destruct (Itoa_pos p) as (a & r & Heq & H1 & H2 & Hd).
  rewrite Heq in Hd |- *. unfold Atoi, signed_digits. rewrite !decide_False by done. rewrite Hd.
  cbn [mbind option_bind]. rewrite Z.mul_1_l. case_decide; [|done]. by intros [= <-].
Qed.
Lemma fake_size_Itoa n m : (0 < n)%Z → fake_size (Itoa n +:+ "b") = Some m → m = n ∧ (0 ≤ m ≤ int64_max)%Z.
Proof.
  intros Hn. unfold fake_size, trim_suffix. rewrite string_rev_append. change (string_rev "b") with "b".
  rewrite cut_prefix_app, string_rev_involutive. intros Hm.
  pose proof (Atoi_range _ _ Hm) as [_ ?]. apply Atoi_Itoa_inv in Hm as ->; [|done]. split; [done|lia].
Qed.

Lemma padded s : all_chars name_char s = true → s ≠ "" → trim_space ("  " +:+ s +:+ String newline "") = s.
Proof. intros Hs Hne. apply trim_spec; [done|done|by apply bare_ends_none, names_no_space|done]. Qed.

Lemma fake_insert_spec k l m :
  legal k.1 = true → legal k.2 = true → tame l →
  let '(m', o) := fake_insert k l m in
  match o_err o with
  | None => fake_vol m !! k = None ∧ fake_vol m' = <[k := l]> (fake_vol m)
  | Some e => fake_vol m' = fake_vol m ∧ (isAlreadyExists e = true → is_Some (fake_vol m !! k))
  end.
Proof.
  intros H1 H2 H3. unfold fake_insert. rewrite bool_decide_eq_true_2 by done.
  destruct (fake_vol m !! k) eqn:Hk; simpl; [done|]. split; [done|]. by apply fake_vol_insert.
Qed.

(** An error message the classifier does not take for the benign one. *)
Ltac other_error := split; [reflexivity|intros Hbad; vm_compute in Hbad; discriminate Hbad].
Lemma fake_snapshot_spec vg src lv tags m :
  legal vg = true → legal src = true → legal lv = true → Forall (λ t, legal t = true) tags →
  let '(m', o) := fake_snapshot lv (path_of vg src) tags m in
  match o_err o with
  | None => fake_vol m !! (vg, lv) = None ∧
      ∃ l s, fake_vol m !! (vg, src) = Some s ∧ lv_size l = lv_size s ∧ thin l = true ∧ lv_origin l = src ∧
        lv_tags l = tags ∧ lv_active l = false ∧ fake_vol m' = <[(vg, lv) := l]> (fake_vol m)
  | Some e => fake_vol m' = fake_vol m ∧ (isAlreadyExists e = true → is_Some (fake_vol m !! (vg, lv)))
  end.
Proof.
  intros Hvg Hsrc Hlv Htags. unfold fake_snapshot. rewrite at_path_of by done.
  destruct (fake_vol m !! (vg, src)) as [s|] eqn:Hs; [|other_error]. destruct (thin s) eqn:Ht; [|other_error].
  destruct (fake_vol_proper _ _ _ Hs) as (_ & _ & Hsz & _).
  pose proof (fake_insert_spec (vg, lv) (mkLV (lv_size s) "Vwi---tz-k" src tags false) m) as Hi.
  destruct (fake_insert _ _ m) as [m' o]. specialize (Hi Hvg Hlv).
  assert (tame (mkLV (lv_size s) "Vwi---tz-k" src tags false)) as Htm.
  { split; [done|]. split; [done|]. split; [by apply legal_chars|done]. }
  specialize (Hi Htm). destruct (o_err o); [done|]. destruct Hi as [Hn Hv]. split; [done|].
  exists (mkLV (lv_size s) "Vwi---tz-k" src tags false), s. by repeat split.
Qed.

Ltac tame := unfold tame; simpl in *; split_and!; (done || lia || constructor).
Lemma removed_proper vg lv m : all_proper m → all_proper (removed vg lv m).
Proof.
  intros Hm k l. unfold removed. rewrite map_lookup_imap. intros (l0 & Hl0 & Hl)%bind_Some.
  apply lookup_delete_Some in Hl0 as [_ Hl0]. destruct (Hm _ _ Hl0) as (H1 & H2 & H3). simpl in *. simplify_eq.
  split; [done|]. split; [done|]. simpl. case_bool_decide; [|done]. unfold orphaned. case_bool_decide; [|done].
  destruct H3 as (? & ? & ? & ?). tame.
Qed.


(** A volume made by lvcreate, thick or thin. *)
Lemma fake_created vg lv n attr m :
  legal vg = true → legal lv = true → (0 < n)%Z → legal attr = true →
  let '(m', o) := match fake_size (Itoa n +:+ "b") with
                  | Some s => fake_insert (vg, lv) (mkLV s attr "" [] true) m
                  | None => (m, err_out "Invalid size")
                  end in
  match o_err o with
  | None => fake_vol m !! (vg, lv) = None ∧ fake_vol m' = <[(vg, lv) := mkLV n attr "" [] true]> (fake_vol m)
  | Some _ => fake_vol m' = fake_vol m
  end.
Proof.
  intros Hvg Hlv Hn Ha. destruct (fake_size _) as [s|] eqn:Hs; [|done].
  apply fake_size_Itoa in Hs as [-> Hr]; [|done].
  assert (tame (mkLV n attr "" [] true)) as Ht by tame.
  pose proof (fake_insert_spec (vg, lv) (mkLV n attr "" [] true) m Hvg Hlv Ht) as Hi.
  destruct (fake_insert _ _ m) as [m' [out [e|]]]; [by destruct Hi|done].
Qed.

Lemma run_lvcreate l m : Run "lvcreate" (lvm_args l) m = fake_lvcreate l m.
Proof. reflexivity. Qed.
Lemma run_lvchange l m : Run "lvchange" (lvm_args l) m = fake_lvchange l m.
Proof. reflexivity. Qed.
Lemma run_lvextend l m : Run "lvextend" (lvm_args l) m = fake_lvextend l m.
Proof. reflexivity. Qed.
Lemma run_lvremove l m : Run "lvremove" (lvm_args l) m = fake_lvremove l m.
Proof. reflexivity. Qed.

Section laws.
  Context (vg lv : string) (m : Volumes) (Hvg : legal vg = true).

Lemma fake_law_size :
  let '(h', o) := Run "lvs" ["--noheadings"; "--units"; "b"; "--nosuffix"; "-o"; "lv_size"; path_of vg lv] m in
  fake_vol h' = fake_vol m ∧
  match o_err o with
  | None => ∃ l, fake_vol m !! (vg, lv) = Some l ∧ trim_space (o_out o) = Itoa (lv_size l)
  | Some e => isNotFound e = true → fake_vol m !! (vg, lv) = None
  end.
Proof.
  simpl. unfold fake_lvs. simpl. rewrite at_path_of by done.
  destruct (fake_vol m !! (vg, lv)) as [l|] eqn:Hl; simpl; [|done]. split; [done|]. exists l. split; [done|].
  destruct (fake_vol_proper _ _ _ Hl) as (_ & _ & Hs & _). simpl in Hs.
  apply padded; [apply Itoa_chars; lia|apply Itoa_nonempty].
Qed.
Lemma fake_law_attr :
  let '(h', o) := Run "lvs" ["--noheadings"; "-o"; "lv_attr"; path_of vg lv] m in
  fake_vol h' = fake_vol m ∧
  (o_err o = None → ∃ l, fake_vol m !! (vg, lv) = Some l ∧ trim_space (o_out o) = lv_attr l).
Proof.
  simpl. unfold fake_lvs. simpl. rewrite at_path_of by done.
  destruct (fake_vol m !! (vg, lv)) as [l|] eqn:Hl; simpl; [|done]. split; [done|]. intros _. exists l. split; [done|].
  destruct (fake_vol_proper _ _ _ Hl) as (_ & _ & _ & Ha & _).
  apply padded; [by apply legal_chars|by apply legal_nonempty].
Qed.
Lemma fake_law_origin :
  let '(h', o) := Run "lvs" ["--noheadings"; "-o"; "origin"; path_of vg lv] m in
  fake_vol h' = fake_vol m ∧
  match o_err o with
  | None => ∃ l, fake_vol m !! (vg, lv) = Some l ∧ trim_space (o_out o) = lv_origin l
  | Some e => isNotFound e = true → fake_vol m !! (vg, lv) = None
  end.
Proof.
  simpl. unfold fake_lvs. simpl. rewrite at_path_of by done.
  destruct (fake_vol m !! (vg, lv)) as [l|] eqn:Hl; simpl; [|done]. split; [done|]. exists l. split; [done|].
  destruct (fake_vol_proper _ _ _ Hl) as (_ & _ & _ & _ & Ho & _).
  case_bool_decide as Hb; [by rewrite Hb|by apply padded].
Qed.
Lemma fake_law_activate :
  let '(h', o) := Run "lvchange" (lvm_args ["-ay"; "-Ky"; path_of vg lv]) m in
  match o_err o with
  | None => ∃ l, fake_vol m !! (vg, lv) = Some l ∧ fake_vol h' = <[(vg, lv) := activated l]> (fake_vol m)
  | Some _ => fake_vol h' = fake_vol m
  end.
Proof.
  rewrite run_lvchange. simpl. rewrite at_path_of by done. destruct (fake_vol m !! (vg, lv)) as [l|] eqn:Hl; simpl; [|done].
  exists l. split; [done|]. apply fake_vol_insert.
  destruct (fake_vol_proper _ _ _ Hl) as (? & ? & ? & ? & ? & ?). unfold proper. tame.
Qed.
Lemma fake_law_extend n :
  (0 < n)%Z →
  let '(h', o) := Run "lvextend" (lvm_args ["-L"; Itoa n +:+ "b"; path_of vg lv]) m in
  match o_err o with
  | None => ∃ l s, fake_vol m !! (vg, lv) = Some l ∧ (n ≤ s)%Z ∧ (lv_size l ≤ s)%Z ∧
      fake_vol h' = <[(vg, lv) := resized s l]> (fake_vol m)
  | Some e => fake_vol h' = fake_vol m ∧
      (isNotLarger e = true → ∃ l, fake_vol m !! (vg, lv) = Some l ∧ (n ≤ lv_size l)%Z)
  end.
Proof.
  intros Hn. rewrite run_lvextend. simpl. rewrite at_path_of by done.
  destruct (fake_vol m !! (vg, lv)) as [l|] eqn:Hl; simpl; [|other_error].
  destruct (fake_size _) as [s|] eqn:Hs; [|other_error]. apply fake_size_Itoa in Hs as [-> Hr]; [|done].
  case_bool_decide as Hb; simpl; [split; [reflexivity|intros _; exists l; by split]|].
  exists l, n. split; [done|]. split; [done|]. split; [lia|].
  apply fake_vol_insert. destruct (fake_vol_proper _ _ _ Hl) as (? & ? & ? & ? & ? & ?). unfold proper. tame.
Qed.
End laws.

#[export] Program Instance fake_lvm : LVMHost Volumes := {|
  vol := fake_vol;
  lvs_size vg lv m Hvg _ := fake_law_size vg lv m Hvg;
  lvs_attr vg lv m Hvg _ := fake_law_attr vg lv m Hvg;
  lvs_origin vg lv m Hvg _ := fake_law_origin vg lv m Hvg;
  lvchange_activate vg lv m Hvg _ := fake_law_activate vg lv m Hvg;
|}.
Next Obligation. intros m vg lv l Hl. apply (fake_vol_proper _ _ _ Hl). Qed.
Next Obligation. intros vg m Hvg. simpl. split; [done|]. by exists (in_vg vg (fake_vol m)). Qed.
Next Obligation.
  intros vg lv n m Hvg Hlv Hn. rewrite run_lvcreate. simpl. pose proof (fake_created vg lv n "-wi-a-----" m Hvg Hlv Hn eq_refl) as Hc.
  destruct (match fake_size _ with Some _ => _ | None => _ end) as [m' [out [e|]]]; [done|].
  destruct Hc as [? Hv]. split; [done|]. by exists (mkLV n "-wi-a-----" "" [] true).
Qed.
Next Obligation.
  intros vg pool lv n m Hvg Hpool Hlv Hn. rewrite run_lvcreate. simpl. unfold path_of. rewrite cut_on_app by (by apply legal_no_slash).
  pose proof (fake_created vg lv n "Vwi-a-tz--" m Hvg Hlv Hn eq_refl) as Hc.
  destruct (match fake_size _ with Some _ => _ | None => _ end) as [m' [out [e|]]]; [done|].
  destruct Hc as [? Hv]. split; [done|]. by exists (mkLV n "Vwi-a-tz--" "" [] true).
Qed.
Next Obligation.
  intros vg src lv m Hvg Hsrc Hlv. rewrite run_lvcreate. simpl.
  pose proof (fake_snapshot_spec vg src lv [] m Hvg Hsrc Hlv ltac:(constructor)) as Hs.
  destruct (fake_snapshot _ _ _ m) as [m' [out [e|]]]; simpl in *; [done|].
  destruct Hs as (Hn & l & s & ? & ? & ? & ? & ? & ? & ?). split; [done|]. by exists l, s.
Qed.
Next Obligation.
  intros vg src tag lv m Hvg Hsrc Hlv Htag. rewrite run_lvcreate. simpl.
  pose proof (fake_snapshot_spec vg src lv [tag] m Hvg Hsrc Hlv ltac:(by constructor)) as Hs.
  destruct (fake_snapshot _ _ _ m) as [m' [out [e|]]]; simpl in *; [done|].
  destruct Hs as (Hn & l & s & ? & ? & ? & ? & ? & ? & ?). split; [done|]. by exists l, s.
Qed.
Next Obligation. intros vg lv n m Hvg Hlv Hn. by apply fake_law_extend. Qed.
Next Obligation.
  intros vg lv m Hvg Hlv. rewrite run_lvremove. simpl. rewrite at_path_of by done.
  destruct (fake_vol m !! (vg, lv)) as [l|] eqn:Hl; simpl; [|done].
  apply fake_vol_id, removed_proper, fake_vol_proper.
Qed.

(** ** The theorems on the host above *)
Definition ex_instances : Instances := {["east" := mkInstanceConfig "vg0" "pool0"]}.
Definition ex_create : CreateVolumeRequest :=
  mkCreateVolumeRequest "pvc-1" 1073741824 "east" "" ∅ ∅ ∅ None None.
Definition ex_key : string * string := ("vg0", lvName "pvc-1").
Definition ex_h1 : Volumes := (CreateVolume ex_instances ex_create (∅ : Volumes)).1.
Definition ex_source : VolumeRef := mkVolumeRef "east" "vg0" (lvName "pvc-1").
Definition ex_snap : CreateSnapshotRequest := mkCreateSnapshotRequest "snap-1" ex_source ∅ ∅.
Definition ex_h2 : Volumes := (CreateSnapshot ex_snap ex_h1).1.
Definition ex_h3 : Volumes := (DeleteVolume (mkDeleteVolumeRequest ex_source ∅) ex_h2).1.

Lemma ex_legal : legal_config ex_instances.
Proof. unfold ex_instances. intros i ic [_ <-]%lookup_singleton_Some. split; by right. Qed.
Lemma ex_request_legal : legal_request ex_create.
Proof. split; [by left|done]. Qed.
Lemma ex_vg : vg ex_instances (CreateVolumeRequest_Instance ex_create) = Ok "vg0".
Proof. reflexivity. Qed.
(** A result, from a test that evaluates. *)
Lemma ok_result {S E A} (p : S * res E A) : is_Ok p.2 = true → ∃ a, p = (p.1, Ok a).
Proof. destruct p as [s [a|e]]; [by exists a|done]. Qed.

Lemma CreateVolume_creates_witness :
  ∃ l, vol ex_h1 !! ex_key = Some l ∧ (1073741824 ≤ lv_size l)%Z ∧ thin l = true.
Proof.
  destruct (ok_result (CreateVolume ex_instances ex_create (∅ : Volumes))) as [resp Hr]; [vm_compute; reflexivity|].
  pose proof (CreateVolume_creates ex_instances ex_legal ex_create "vg0" ∅ ex_request_legal ex_vg) as Hc.
  rewrite Hr in Hc. destruct Hc as [_ Hc]. destruct (Hc resp eq_refl) as (l & Hl & _ & Hsz & Hm).
  exists l. split; [exact Hl|]. split; [exact Hsz|]. destruct (Hm ltac:(reflexivity)) as (_ & _ & Ht). exact Ht.
Defined.

Lemma CreateVolume_idempotent_witness :
  vol (CreateVolume ex_instances ex_create ex_h1).1 = vol ex_h1 ∧
  is_Ok (CreateVolume ex_instances ex_create ex_h1).2 = true.
Proof.
  split; [|vm_compute; reflexivity].
  destruct (ok_result (CreateVolume ex_instances ex_create (∅ : Volumes))) as [resp Hr]; [vm_compute; reflexivity|].
  pose proof (CreateVolume_idempotent ex_instances ex_legal ex_create "vg0" ∅ ex_h1 resp ex_h1 ex_request_legal ex_vg
    Hr eq_refl) as Hc.
  destruct (CreateVolume ex_instances ex_create ex_h1) as [h3 r]. destruct Hc as [Hv _]. exact Hv.
Defined.

Lemma CreateSnapshot_takes_witness :
  ∃ l, vol ex_h2 !! ("vg0", snapName "snap-1") = Some l ∧ lv_origin l = lvName "pvc-1".
Proof.
  destruct (ok_result (CreateSnapshot ex_snap ex_h1)) as [resp Hr]; [vm_compute; reflexivity|].
  pose proof (CreateSnapshot_takes ex_snap ex_h1 eq_refl ltac:(vm_compute; reflexivity)) as Hc.
  rewrite Hr in Hc. destruct Hc as (_ & _ & Hc). destruct (Hc resp eq_refl) as (s & l & _ & _ & Hl & Ho & _).
  exists l. split; [exact Hl|exact Ho].
Defined.

Lemma listings_exact_witness :
  ∃ resp, (ListVolumes ex_instances mkListVolumesRequest ex_h2).2 = Ok resp ∧
    mkVolumeListEntry ex_source 1073741824 ∈ ListVolumesResponse_Entries resp.
Proof.
  destruct (ok_result (ListVolumes ex_instances mkListVolumesRequest ex_h2)) as [resp Hr]; [vm_compute; reflexivity|].
  pose proof (listings_exact ex_instances ex_legal ex_h2) as Hc. rewrite Hr in Hc |- *.
  destruct (ListSnapshots _ _ ex_h2) as [h2 r2]. destruct Hc as (_ & _ & Hc & _).
  exists resp. split; [reflexivity|]. apply (Hc resp _ eq_refl).
  exists "east", (mkInstanceConfig "vg0" "pool0"), (lvName "pvc-1"), (mkLV 1073741824 "Vwi-a-tz--" "" [] true).
  split; [reflexivity|]. split; [discriminate|]. split; [vm_compute; reflexivity|].
  split; [vm_compute; reflexivity|]. split; reflexivity.
Defined.

Lemma snapshot_survives_source_witness :
  ∃ lresp, (ListSnapshots ex_instances mkListSnapshotsRequest ex_h3).2 = Ok lresp ∧
    mkSnapshotListEntry (mkVolumeRef "east" "vg0" (snapName "snap-1")) ex_source 1073741824 0 true
      ∈ ListSnapshotsResponse_Entries lresp.
Proof.
  destruct (ok_result (CreateSnapshot ex_snap ex_h1)) as [resp Hr]; [vm_compute; reflexivity|].
  destruct (ok_result (ListSnapshots ex_instances mkListSnapshotsRequest ex_h3)) as [lresp Hl]; [vm_compute; reflexivity|].
  assert (CreateSnapshotResponse_SizeBytes resp = 1073741824%Z) as Hsz.
  { assert ((match (CreateSnapshot ex_snap ex_h1).2 with Ok x => CreateSnapshotResponse_SizeBytes x | Err _ => 0 end)
      = 1073741824)%Z as Hx by (vm_compute; reflexivity). rewrite Hr in Hx. exact Hx. }
  destruct (ok_result (DeleteVolume (mkDeleteVolumeRequest ex_source ∅) ex_h2)) as [[] Hd]; [vm_compute; reflexivity|].
  exists lresp. rewrite Hl. split; [reflexivity|]. rewrite <-Hsz.
  apply (snapshot_survives_source ex_instances ex_legal ex_snap ∅ "east" (mkInstanceConfig "vg0" "pool0")
    ex_h1 ex_h2 resp ex_h2 ex_h3 ex_h3 (ListSnapshots ex_instances mkListSnapshotsRequest ex_h3).1 lresp).
  - vm_compute. reflexivity.
  - vm_compute. reflexivity.
  - reflexivity.
  - reflexivity.
  - vm_compute. reflexivity.
  - exact Hr.
  - reflexivity.
  - exact Hd.
  - reflexivity.
  - exact Hl.
Defined.

(** A clone whose activation failed is not activated by the retry: on a host whose
    lvchange fails, which the laws allow, the first call reports the failure, and the
    second, which finds the volume there, reports success with the volume inactive. *)
Definition no_lvchange : Host Volumes := {|
  Run name args m := if bool_decide (name = "lvchange") then (m, err_out "device-mapper: ioctl failed") else fake_run name args m;
  MkdirAll _ _ m := (m, None);
  UnixNow _ := 1700000000%Z;
|}.
Definition ex_clone : CreateVolumeRequest :=
  mkCreateVolumeRequest "pvc-2" 1073741824 "east" "" ∅ ∅ ∅ None (Some ex_source).
Example clone_retry_stays_inactive :
  let create := @CreateVolume Volumes no_lvchange ex_instances ex_clone in
  is_Ok (create ex_h1).2 = false ∧ is_Ok (create (create ex_h1).1).2 = true ∧
  (lv_active <$> vol (create (create ex_h1).1).1 !! ("vg0", lvName "pvc-2")) = Some false.
Proof. vm_compute. repeat split. Qed.
End lvmhost.
