(* ===== verification/ISCSI.v ===== *)
(** * The iSCSI plugin: configuration, names and credentials (internal/iscsiplugin)

    A volume is a logical volume exported through an LIO target, or a volume of a remote
    targetd; a node reaches it once the controller has masked its LUN to the node's
    initiator.  This file holds what the other files of the plugin share: the instances
    and their validation, derived names, the classifiers of runner.go, CHAP and targetd
    credentials, and the logical volumes underneath.  The rows of [lvs] are parsed by the
    code the LVM plugin has, character for character. *)
From Stdlib Require Import Ascii.
From S2P Require Import Prelude GoStrings GoPath Json JsonText Protocol Sha256 Host GoOs LVM.

Module iscsi.
Import bardplugin jsontext.

(** ** Constants *)
Definition defaultFsType : string := "ext4".
Definition defaultIQNBase : string := "iqn.2025-01.io.bard".
Definition iscsiIface : string := "bard".
Definition mgmtLocal : string := "local".
Definition mgmtTargetd : string := "targetd".
Definition supportedFsTypes : list string := ["ext2"; "ext3"; "ext4"; "xfs"; "btrfs"].
Definition paramThinPool : string := "thinPool".
Definition srcTagPrefix : string := "bardsrc.".
Definition lvmUdevConfig : string := "activation{udev_sync=0 udev_rules=0}".
Definition ctxPortal : string := "portal".
Definition ctxIQN : string := "targetIqn".
Definition ctxLUN : string := "lun".
Definition ctxPortals : string := "portals".

Record InstanceConfig := mkInstanceConfig {
  ic_VG : string; ic_Portal : string; ic_Portals : list string; ic_IQNBase : string; ic_ThinPool : string;
  ic_CHAPAuth : bool; ic_Management : string; ic_TargetdEndpoint : string; ic_TargetdPool : string;
  ic_TargetIQN : string }.
(** The zero value, which a map answers for a missing key. *)
Definition no_instance : InstanceConfig := mkInstanceConfig "" "" [] "" "" false "" "" "" "".
Definition isTargetd (ic : InstanceConfig) : bool := bool_decide (ic_Management ic = mgmtTargetd).
Definition portalList (ic : InstanceConfig) : list string :=
  match ic_Portals ic with
  | _ :: _ => ic_Portals ic
  | [] => if bool_decide (ic_Portal ic = "") then [] else [ic_Portal ic]
  end.
Definition with_base (ic : InstanceConfig) (base : string) : InstanceConfig :=
  mkInstanceConfig (ic_VG ic) (ic_Portal ic) (ic_Portals ic) base (ic_ThinPool ic) (ic_CHAPAuth ic)
    (ic_Management ic) (ic_TargetdEndpoint ic) (ic_TargetdPool ic) (ic_TargetIQN ic).
Definition with_pool (ic : InstanceConfig) (pool : string) : InstanceConfig :=
  mkInstanceConfig (ic_VG ic) (ic_Portal ic) (ic_Portals ic) (ic_IQNBase ic) (ic_ThinPool ic) (ic_CHAPAuth ic)
    (ic_Management ic) (ic_TargetdEndpoint ic) pool (ic_TargetIQN ic).

(** What [New] is given; [sysfsRoot] and [devRoot] are /sys and /dev. *)
Record Config := mkConfig {
  instances : gmap string InstanceConfig;
  nodeID : string; stateDir : string; chapDir : string; targetdDir : string; iscsiadmChroot : string;
  sysfsRoot : string; devRoot : string }.
Definition New (instances : gmap string InstanceConfig) (nodeID stateDir chapDir targetdDir iscsiadmChroot : string) : Config :=
  mkConfig instances nodeID stateDir chapDir targetdDir iscsiadmChroot "/sys" "/dev".

Definition Info_ : Info :=
  mkInfo "iscsi" "" (mkCapabilities true false true true true false false false false false false false
    false false false false).

(** ** Error classifiers (runner.go) *)
Definition isNotFound (err : string) : bool :=
  let s := to_lower err in
  contains "failed to find" s || contains "not found" s || contains "does not exist" s || contains "no such" s ||
  contains "no records" s || contains "could not find" s || contains "no storage object named" s ||
  contains "no matching sessions" s || contains "no active sessions" s.
Definition isExists (err : string) : bool :=
  let s := to_lower err in
  contains "already exists" s || contains "already in" s || contains "exists in configfs" s ||
  (contains "storage object" s && has_suffix "exists" (trim_space s)).
Definition isNotMounted (err : string) : bool :=
  let s := to_lower err in contains "not mounted" s || contains "not currently mounted" s.
Definition isNotLarger (err : string) : bool :=
  let s := to_lower err in
  contains "matches existing size" s || contains "not larger" s || contains "no size change" s.
Definition isAlreadyLoggedIn (err : string) : bool :=
  let s := to_lower err in
  contains "already present" s || contains "already exists" s || contains "already logged in" s.

(** ** Names *)
Definition lvName (csiName : string) : string := "bard-" +:+ sha256.short_hash csiName.
Definition snapName (csiName : string) : string := "snap-" +:+ sha256.short_hash csiName.
Definition targetIQN (base lv : string) : string := base +:+ ":tgt-" +:+ lv.
(** [sanitizeIQN]: one character per rune of the lower-cased id.  Two runes outside ASCII
    have an ASCII lower case, U+0130 and U+212A. *)
Definition iqn_char (a : ascii) : ascii :=
  let b := lower_ascii a in
  if byte_in 97 122 b || byte_in 48 57 b || bool_decide (b = "."%char) || bool_decide (b = "-"%char) then b else "-"%char.
Fixpoint sanitize_runes (s : string) : string :=
  match s with
  | EmptyString => ""
  | String a s1 =>
      if byte_in 0 127 a then String (iqn_char a) (sanitize_runes s1)
      else if cont a then sanitize_runes s1
      else if has_prefix (String (ascii_of_N 196) (String (ascii_of_N 176) "")) s then String "i" (sanitize_runes s1)
      else if has_prefix (String (ascii_of_N 226) (String (ascii_of_N 132) (String (ascii_of_N 170) ""))) s
      then String "k" (sanitize_runes s1)
      else String "-" (sanitize_runes s1)
  end.
Definition sanitizeIQN (s : string) : string := sanitize_runes (to_valid_utf8 s).
Definition initiatorIQN (base nodeID : string) : string := base +:+ ":init-" +:+ sanitizeIQN nodeID.
Definition devPath (vg lv : string) : string := "/dev/" +:+ vg +:+ "/" +:+ lv.
Definition backstore (lv : string) : string := "/backstores/block/" +:+ lv.
Definition tpgPath (iqn : string) : string := "/iscsi/" +:+ iqn +:+ "/tpg1".
Definition mpathID (wwid : string) : option string :=
  match cut_prefix "naa." wwid, cut_prefix "eui." wwid, cut_prefix "t10." wwid with
  | Some rest, _, _ => Some ("3" +:+ rest)
  | None, Some rest, _ => Some ("2" +:+ rest)
  | None, None, Some rest => Some ("1" +:+ rest)
  | None, None, None => None
  end.
Definition splitPortal (portal : string) : res perror (string * string) :=
  match cut_last ":" portal with
  | Some ipport => Ok ipport
  | None => Err (Errorf CodeInvalidArg "iscsi: malformed portal %q (want ip:port)")
  end.
Definition lvBytes (b : Z) : string := Itoa (if bool_decide (b ≤ 0)%Z then 1048576 else b) +:+ "b".
Definition base_or_default (ic : InstanceConfig) : string :=
  if bool_decide (ic_IQNBase ic = "") then defaultIQNBase else ic_IQNBase ic.

(** ** Secrets in errors

    [redactSecrets]: the text with each secret replaced. *)
Definition redactSecrets (secrets : list string) (msg : string) : string := mask_all secrets msg.
(** [fmt.Errorf(prefix + ": %w", redactSecrets(err, ...))]. *)
Definition redacted (secrets : list string) (prefix err : string) : perror :=
  mkPerror None (prefix +:+ ": " +:+ redactSecrets secrets err).

Record chapCreds := mkChap { ch_User : string; ch_Password : string; ch_MutualUser : string; ch_MutualPassword : string }.
Definition chap_secrets (c : chapCreds) : list string := [ch_Password c; ch_MutualPassword c].
Record targetdCreds := mkTargetdCreds { td_User : string; td_Password : string }.

Definition newline : ascii := "010".
Definition credential_lines (data : string) : list string :=
  filter (λ l, l ≠ "") (map trim_space (split_on newline data)).
Definition unfit (l : string) : bool := contains_any [" "%char; ascii_of_N 9; "'"%char; ascii_of_N 34] l.

(** A row of [lvs]. *)
Abbreviation lvInfo := lvmplugin.lvInfo.

(** ** Sources of a clone *)
Definition source_of (req : CreateVolumeRequest) : option VolumeRef :=
  match CreateVolumeRequest_SourceSnapshot req with
  | Some s => Some s
  | None => CreateVolumeRequest_SourceVolume req
  end.

Section plugin.
  Context {H : Type} `{Host H} `{Files H} (cfg : Config).
  Abbreviation op A := (M H perror A).

(** [b.instances[instance]], with the zero value for a missing one. *)
Definition instance_of (instance : string) : InstanceConfig := default no_instance (instances cfg !! instance).
Definition configured (instance : string) : bool := bool_decide (is_Some (instances cfg !! instance)).

Definition inst (instance : string) : res perror InstanceConfig :=
  let ok := configured instance in
  let ic := instance_of instance in
  let portals := portalList ic in
  (if bool_decide (ic_Management ic = "") || bool_decide (ic_Management ic = mgmtLocal) then
     if negb ok || bool_decide (ic_VG ic = "") || bool_decide (portals = [])
     then Err (Errorf CodeInvalidArg "iscsi: instance %q not configured (need vg + portal)") else Ok tt
   else if isTargetd ic then
     if negb ok || bool_decide (ic_TargetdEndpoint ic = "") || bool_decide (ic_TargetdPool ic = "") ||
        bool_decide (ic_TargetIQN ic = "") || bool_decide (portals = [])
     then Err (Errorf CodeInvalidArg "iscsi: instance %q management=targetd not configured (need targetdEndpoint + targetdPool + targetIqn + portal)")
     else if ic_CHAPAuth ic
     then Err (Errorf CodeInvalidArg "iscsi: instance %q management=targetd cannot set chapAuth: true") else Ok tt
   else Err (Errorf CodeInvalidArg "iscsi: instance %q has unknown management %q"));;
  if existsb (contains "[") portals
  then Err (Errorf CodeInvalidArg "iscsi: instance %q portal %q: bracketed IPv6 portals are not supported")
  else Ok (with_base ic (base_or_default ic)).

Definition thinPoolFor (instance : string) (params : strmap) : string :=
  let p := mget params paramThinPool in
  if bool_decide (p = "") then ic_ThinPool (instance_of instance) else p.

(** ** Credentials *)
Definition chapFor (instance : string) : op (option chapCreds) :=
  if negb (configured instance && ic_CHAPAuth (instance_of instance)) then mret None
  else
    data ← run_err (λ _, Errorf CodeInternal "iscsi: chapAuth is on for instance %q but credentials at %s are unreadable: %v")
      (os_get (ReadFile (Join [chapDir cfg; instance])));
    let lines := credential_lines data in
    guard_ (negb (existsb unfit lines))
      (Errorf CodeInternal "iscsi: chap credentials at %s must not contain whitespace or quotes");;
    match lines with
    | [user; pass] => mret (Some (mkChap user pass "" ""))
    | [user; pass; muser; mpass] => mret (Some (mkChap user pass muser mpass))
    | _ => fail (Errorf CodeInternal "iscsi: chap credentials at %s must be 2 lines (userid, password) or 4 (plus mutual pair), got %d")
    end.
Definition targetdCredsFor (instance : string) : op (option targetdCreds) :=
  if negb (configured instance && isTargetd (instance_of instance)) then mret None
  else
    data ← run_err (λ _, Errorf CodeInternal "iscsi: instance %q is management=targetd but credentials at %s are unreadable: %v")
      (os_get (ReadFile (Join [targetdDir cfg; instance])));
    let lines := credential_lines data in
    guard_ (negb (existsb unfit lines))
      (Errorf CodeInternal "iscsi: targetd credentials at %s must not contain whitespace or quotes");;
    match lines with
    | [user; pass] => mret (Some (mkTargetdCreds user pass))
    | _ => fail (Errorf CodeInternal "iscsi: targetd credentials at %s must be 2 lines (username, password), got %d")
    end.

(** ** Logical volumes *)
Definition path_of (vg lv : string) : string := vg +:+ String "/" lv.
Definition lvm_args (args : list string) : list string := "--config" :: lvmUdevConfig :: args.
Definition lvSizeBytes (vg lv : string) : op (Z * bool) :=
  catch (run "lvs" ["--noheadings"; "--units"; "b"; "--nosuffix"; "-o"; "lv_size"; path_of vg lv]) (λ r,
    match r with
    | Ok out =>
        match Atoi (trim_space out) with
        | Some n => mret (n, true)
        | None => fail (errorf "iscsi: parse lv_size %q: %w")
        end
    | Err e => if isNotFound e then mret (0%Z, false) else fail (errorf "iscsi: lvs %s/%s: %w")
    end).
(** Whether the volume is thin, and whether there is one. *)
Definition isThinLV (vg lv : string) : op (bool * bool) :=
  catch (run "lvs" ["--noheadings"; "-o"; "lv_attr"; path_of vg lv]) (λ r,
    match r with
    | Ok out => mret (has_prefix "V" (trim_space out), true)
    | Err e => if isNotFound e then mret (false, false) else fail (errorf "iscsi: lvs attr %s/%s: %w")
    end).
Definition lvOrigin (vg lv : string) : op (string * bool) :=
  catch (run "lvs" ["--noheadings"; "-o"; "origin"; path_of vg lv]) (λ r,
    match r with
    | Ok out => mret (trim_space out, true)
    | Err e => if isNotFound e then mret ("", false) else fail (errorf "iscsi: lvs origin %s/%s: %w")
    end).
Definition thinClone (vg src lv : string) : op unit :=
  run_unless isExists "iscsi: thin clone %s/%s -> %s: %w" "lvcreate" (lvm_args ["-s"; "-n"; lv; path_of vg src]);;
  run_or "iscsi: activate clone %s/%s: %w" "lvchange" (lvm_args ["-ay"; "-Ky"; path_of vg lv]);;
  mret tt.
Definition extendTo (vg lv : string) (size : Z) : op unit :=
  if bool_decide (size ≤ 0)%Z then mret tt
  else run_unless isNotLarger "iscsi: lvextend %s/%s: %w" "lvextend"
    (lvm_args ["-L"; Itoa size +:+ "b"; path_of vg lv]).

(** The rows of a volume group. *)
Definition parse_rows (out : string) : list lvInfo := lvmplugin.parse_rows out.
Definition listLVs (vg : string) : op (list lvInfo) :=
  catch (run "lvs" ["--noheadings"; "--units"; "b"; "--nosuffix"; "--separator"; "|"; "-o";
                    "lv_name,lv_size,lv_attr,origin,lv_tags"; vg]) (λ r,
    match r with
    | Ok out => mret (parse_rows out)
    | Err e => if isNotFound e then mret [] else fail (errorf "iscsi: lvs %s: %w")
    end).
Definition isThinPool (attr : string) : bool := has_prefix "t" attr.
End plugin.
End iscsi.
