(* ===== verification/Targetd.v ===== *)
(** * The iSCSI plugin: the targetd client (internal/iscsiplugin/targetd.go)

    A JSON-RPC 2.0 client over HTTP with Basic authentication.  Requests are numbered per
    client, so a client is a computation over the host and a counter.  Its errors keep the
    numeric code of targetd apart, which is what the callers classify by.  [tdAccessMu] is
    held by [grantAccess] and [revokeAccess] for their whole sequence: they are the steps of
    a concurrent run. *)
From Stdlib Require Import Ascii.
From S2P Require Import Prelude GoStrings GoPath Json JsonText Protocol Sha256 GoCrypto Host GoOs KMS ISCSI.

Module targetd.
Import bardplugin jsontext iscsi.

(** ** Locations *)
Definition tdLocationPrefix : string := "targetd:".
Definition tdLocation (pool : string) : string := tdLocationPrefix +:+ pool.
Definition isTdLocation (loc : string) : bool := has_prefix tdLocationPrefix loc.
Definition tdPoolFromLocation (loc : string) : string := default loc (cut_prefix tdLocationPrefix loc).
Definition tdWithHandlePool (ic : InstanceConfig) (location : string) : InstanceConfig :=
  if isTdLocation location then
    let pool := tdPoolFromLocation location in
    if bool_decide (pool = "") then ic else with_pool ic pool
  else ic.

(** ** Errors *)
Definition tdErrVolExists : Z := -50.
Definition tdErrVolNotFound : Z := -103.
Definition tdErrExportNotFound : Z := -151.
Inductive td_error :=
  | TdError (code : Z) (message : string)
  | TdOther (e : perror).
Definition tdCode (e : td_error) : Z := match e with TdError code _ => code | TdOther _ => 0 end.
(** [fmt.Errorf(fmt, err)] with [%w]: a status inside stays visible. *)
Definition td_wrap (fmt : string) (e : td_error) : perror :=
  mkPerror (match e with TdError _ _ => None | TdOther e => as_StatusError e end) fmt.
Definition td_text (e : td_error) : string :=
  match e with TdError code m => "targetd error " +:+ Itoa code +:+ ": " +:+ m | TdOther e => perror_text e end.

(** ** Messages *)
Record tdManager := mkManager {
  m_endpoint : string; m_pool : string; m_targetIQN : string; m_creds : option targetdCreds }.
(** [tdRequest], its fields in order and the keys of the parameters sorted. *)
Definition tdRequest (id : Z) (method : string) (params : list (string * json)) : json :=
  JObj [("jsonrpc", JStr "2.0"); ("id", JNum (Itoa id)); ("method", JStr method); ("params", JObj params)].
Abbreviation tdRPCError := (one "code" Z * one "message" string)%type.
Abbreviation tdResponse :=
  (one "jsonrpc" string * one "id" Z * one "result" RawMessage * one "error" (option tdRPCError))%type.
Record tdExport := mkExport { e_InitiatorWWN : string; e_LUN : Z; e_VolName : string; e_Pool : string; e_VolSize : Z }.
Record tdPool := mkPool { p_Name : string; p_Size : Z; p_FreeSize : Z; p_Type : string; p_UUID : string }.
Record tdVolume := mkVolume { v_Name : string; v_Size : Z; v_UUID : string }.
Definition read_tdExport (o : list (string * json)) (x : tdExport) : tdExport * bool :=
  let '(a0, k0) := dec_field "initiator_wwn" o (e_InitiatorWWN x) in
  let '(a1, k1) := dec_field "lun" o (e_LUN x) in
  let '(a2, k2) := dec_field "vol_name" o (e_VolName x) in
  let '(a3, k3) := dec_field "pool" o (e_Pool x) in
  let '(a4, k4) := dec_field "vol_size" o (e_VolSize x) in
  (mkExport a0 a1 a2 a3 a4, k0 && k1 && k2 && k3 && k4).
Definition read_tdPool (o : list (string * json)) (x : tdPool) : tdPool * bool :=
  let '(a0, k0) := dec_field "name" o (p_Name x) in
  let '(a1, k1) := dec_field "size" o (p_Size x) in
  let '(a2, k2) := dec_field "free_size" o (p_FreeSize x) in
  let '(a3, k3) := dec_field "type" o (p_Type x) in
  let '(a4, k4) := dec_field "uuid" o (p_UUID x) in
  (mkPool a0 a1 a2 a3 a4, k0 && k1 && k2 && k3 && k4).
Definition read_tdVolume (o : list (string * json)) (x : tdVolume) : tdVolume * bool :=
  let '(a0, k0) := dec_field "name" o (v_Name x) in
  let '(a1, k1) := dec_field "size" o (v_Size x) in
  let '(a2, k2) := dec_field "uuid" o (v_UUID x) in
  (mkVolume a0 a1 a2, k0 && k1 && k2).
#[global] Instance wire_tdExport : Wire tdExport :=
  struct_wire (mkExport "" 0 "" "" 0)
    (λ x, [fld "initiator_wwn" (e_InitiatorWWN x); fld "lun" (e_LUN x); fld "vol_name" (e_VolName x);
           fld "pool" (e_Pool x); fld "vol_size" (e_VolSize x)]) read_tdExport
    (λ x, utf8_ok (e_InitiatorWWN x) ∧ int64_ok (e_LUN x) ∧ utf8_ok (e_VolName x) ∧ utf8_ok (e_Pool x) ∧ int64_ok (e_VolSize x)).
#[global] Instance wire_tdPool : Wire tdPool :=
  struct_wire (mkPool "" 0 0 "" "")
    (λ x, [fld "name" (p_Name x); fld "size" (p_Size x); fld "free_size" (p_FreeSize x); fld "type" (p_Type x);
           fld "uuid" (p_UUID x)]) read_tdPool
    (λ x, utf8_ok (p_Name x) ∧ int64_ok (p_Size x) ∧ int64_ok (p_FreeSize x) ∧ utf8_ok (p_Type x) ∧ utf8_ok (p_UUID x)).
#[global] Instance wire_tdVolume : Wire tdVolume :=
  struct_wire (mkVolume "" 0 "")
    (λ x, [fld "name" (v_Name x); fld "size" (v_Size x); fldo "uuid" (v_UUID x)]) read_tdVolume
    (λ x, utf8_ok (v_Name x) ∧ int64_ok (v_Size x) ∧ utf8_ok (v_UUID x)).

(** The document in a reply. *)
Definition body_json (b : payload) : option json :=
  match b with BJson j => Some j | BText s => parse s | _ => None end.
Definition decode {A} `{Wire A} (j : json) : option A :=
  let '(x, ok) := dec j zero in if ok : bool then Some x else None.

Definition volSize (b : Z) : Z := if bool_decide (b ≤ 0)%Z then 1048576 else b.

(** The smallest number from [lun] on that is not in [used]: the loop of [grantAccess]. *)
Fixpoint lowest_unused (fuel : nat) (used : list Z) (lun : Z) : Z :=
  match fuel with
  | O => lun
  | S fuel => if bool_decide (lun ∈ used) then lowest_unused fuel used (lun + 1) else lun
  end.
(** The first pass of [grantAccess]: the LUN of the export that is there already, or the
    LUNs the initiator uses. *)
Fixpoint scan_exports (exports : list tdExport) (vol initiator : string) (used : list Z) : Z + list Z :=
  match exports with
  | [] => inr used
  | e :: exports =>
      if negb (bool_decide (e_InitiatorWWN e = initiator)) then scan_exports exports vol initiator used
      else if bool_decide (e_VolName e = vol) then inl (e_LUN e)
      else scan_exports exports vol initiator (e_LUN e :: used)
  end.

Section client.
  Context {H : Type} `{Host H} `{Files H} `{Env H}.
  Abbreviation td A := (M (H * Z) td_error A).

(** [SetBasicAuth]. *)
Definition basic_auth (c : targetdCreds) : string :=
  "Basic " +:+ crypto.base64_encode (sha256.bytes_of (td_User c +:+ ":" +:+ td_Password c)).
Definition rpc_request (t : tdManager) (id : Z) (method : string) (params : list (string * json)) : request :=
  mkRequest "POST" (m_endpoint t)
    (("Content-Type", "application/json") ::
     match m_creds t with Some c => [("Authorization", basic_auth c)] | None => [] end)
    (BJson (tdRequest id method params)).
(** What a reply says: an error of targetd, or the result, if there is one. *)
Definition reply (resp : response) : res td_error (option json) :=
  match (j ← body_json (rs_body resp); decode (A := tdResponse) j) with
  | None => Err (TdOther (errorf "iscsi: targetd %s: decode response (status %d): %w"))
  | Some (_, result, err) =>
      match the err with
      | Some (code, message) => Err (TdError (the code) (the message))
      | None => Ok (raw_json (the result))
      end
  end.
Definition call (t : tdManager) (method : string) (params : list (string * json)) : td (option json) := λ s,
  let id := (s.2 + 1)%Z in
  let secrets := match m_creds t with Some c => [td_Password c] | None => [] end in
  let '(h', r) := httpDo (rpc_request t id method params) s.1 in
  ((h', id),
   match r with
   | Err e => Err (TdOther (mkPerror None (redactSecrets secrets ("iscsi: targetd " +:+ method +:+ ": " +:+ e))))
   | Ok resp => reply resp
   end).
(** [call] with a result to decode into: an absent result leaves it empty. *)
Definition call_into {A} `{Wire A} (t : tdManager) (method : string) (params : list (string * json)) : td A :=
  result ← call t method params;
  match result with
  | None => mret zero
  | Some j =>
      match decode j with
      | Some x => mret x
      | None => fail (TdOther (errorf "iscsi: targetd %s: decode result: %w"))
      end
  end.
(** [call] with no result. *)
Definition call_ (t : tdManager) (method : string) (params : list (string * json)) : td unit :=
  call t method params;; mret tt.

Definition listVolumes (t : tdManager) : td (list tdVolume) := call_into t "vol_list" [("pool", enc (m_pool t))].
Definition listExports (t : tdManager) : td (list tdExport) := call_into t "export_list" [].
Definition findVolume (t : tdManager) (name : string) : td (option tdVolume) :=
  vols ← listVolumes t;
  mret (List.find (λ v, bool_decide (v_Name v = name)) vols).
Definition volumeSize (t : tdManager) (name : string) : td (option Z) :=
  vols ← listVolumes t;
  mret (v_Size <$> List.find (λ v, bool_decide (v_Name v = name)) vols).
Definition createVolume (t : tdManager) (name : string) (size : Z) : td unit :=
  catch (call_ t "vol_create" [("name", enc name); ("pool", enc (m_pool t)); ("size", enc size)]) (λ r,
    match r with
    | Ok _ => mret tt
    | Err e =>
        if negb (tdCode e =? tdErrVolExists)%Z then fail e
        else
          existing ← run_err (λ e, TdOther (td_wrap "iscsi: targetd verify existing volume %q: %w" e)) (findVolume t name);
          match existing with
          | None => fail (TdOther (errorf "iscsi: targetd volume %q reported as existing (vol_create code %d) but not found in vol_list"))
          | Some v =>
              guard_ (negb (v_Size v <? size)%Z)
                (TdOther (Errorf CodeAlreadyExists "iscsi: targetd volume %q exists at %d bytes, smaller than requested %d"))
          end
    end).
Definition revokeAccess (t : tdManager) (vol initiator : string) : td unit :=
  catch (call_ t "export_destroy" [("initiator_wwn", enc initiator); ("pool", enc (m_pool t)); ("vol", enc vol)]) (λ r,
    match r with
    | Ok _ => mret tt
    | Err e => if (tdCode e =? tdErrExportNotFound)%Z then mret tt else fail e
    end).
Fixpoint revoke_all (t : tdManager) (name : string) (exports : list tdExport) : td unit :=
  match exports with
  | [] => mret tt
  | e :: exports =>
      (if bool_decide (e_VolName e = name) then revokeAccess t name (e_InitiatorWWN e) else mret tt);;
      revoke_all t name exports
  end.
Definition deleteVolume (t : tdManager) (name : string) : td unit :=
  exports ← listExports t;
  revoke_all t name exports;;
  catch (call_ t "vol_destroy" [("name", enc name); ("pool", enc (m_pool t))]) (λ r,
    match r with
    | Ok _ => mret tt
    | Err e => if (tdCode e =? tdErrVolNotFound)%Z then mret tt else fail e
    end).
Definition resizeVolume (t : tdManager) (name : string) (size : Z) : td unit :=
  call_ t "vol_resize" [("name", enc name); ("pool", enc (m_pool t)); ("size", enc size)].
Definition capacity (t : tdManager) : td Z :=
  pools ← call_into (A := list tdPool) t "pool_list" [];
  match List.find (λ p, bool_decide (p_Name p = m_pool t)) pools with
  | Some p => mret (p_FreeSize p)
  | None => fail (TdOther (errorf "iscsi: targetd pool %q not found in pool_list"))
  end.
Definition set_auth (t : tdManager) (initiator : string) (chap : option chapCreds) : td unit :=
  match chap with
  | None => mret tt
  | Some c =>
      run_err (λ e, TdOther (mkPerror None (redactSecrets (chap_secrets c)
                 ("iscsi: targetd set auth for " +:+ initiator +:+ ": " +:+ td_text e))))
        (call_ t "initiator_set_auth" [("in_pass", enc (ch_Password c)); ("in_user", enc (ch_User c));
           ("initiator_wwn", enc initiator); ("out_pass", enc (ch_MutualPassword c)); ("out_user", enc (ch_MutualUser c))])
  end.
Definition grantAccess (t : tdManager) (vol initiator : string) (chap : option chapCreds) : td Z :=
  set_auth t initiator chap;;
  exports ← listExports t;
  match scan_exports exports vol initiator [] with
  | inl lun => mret lun
  | inr used =>
      let lun := lowest_unused (S (length used)) used 0 in
      call_ t "export_create" [("initiator_wwn", enc initiator); ("lun", enc lun); ("pool", enc (m_pool t)); ("vol", enc vol)];;
      mret lun
  end.
End client.

(** ** The plugin's operations on a targetd instance *)
Section plugin.
  Context {H : Type} `{Host H} `{Files H} `{Env H} (cfg : Config).
  Abbreviation op A := (M H perror A).
  Abbreviation td A := (M (H * Z) td_error A).

Definition newTdManager (instance : string) (ic : InstanceConfig) : op tdManager :=
  creds ← targetdCredsFor cfg instance;
  mret (mkManager (ic_TargetdEndpoint ic) (ic_TargetdPool ic) (ic_TargetIQN ic) creds).
(** One use of a new client, its error as [f] passes it on. *)
Definition on_manager {E A} (f : E → perror) (m : M (H * Z) E A) : op A := λ h,
  let '((h', _), r) := m (h, 0%Z) in (h', map_err f r).

(** [createVolumeTargetd] returns an error that is a status already as it is. *)
Definition keep_status (fmt : string) (e : td_error) : perror :=
  match e with
  | TdOther p => match as_StatusError p with Some _ => p | None => errorf fmt end
  | TdError _ _ => errorf fmt
  end.
Definition createVolumeTargetd (instance : string) (ic : InstanceConfig) (req : CreateVolumeRequest) : op CreateVolumeResponse :=
  td ← newTdManager instance ic;
  let name := lvName (CreateVolumeRequest_Name req) in
  let size := volSize (CreateVolumeRequest_CapacityBytes req) in
  on_manager (keep_status "iscsi: targetd create volume %s: %w") (createVolume td name size);;
  mret (mkCreateVolumeResponse (tdLocation (ic_TargetdPool ic)) name size ∅ ∅).
Definition deleteVolumeTargetd (instance : string) (ic : InstanceConfig) (name : string) : op unit :=
  td ← newTdManager instance ic;
  on_manager (td_wrap "iscsi: targetd delete volume %s: %w") (deleteVolume td name).
(** Both calls of an expansion go through the one client. *)
Definition expandVolumeTargetd (instance : string) (ic : InstanceConfig) (name : string) (newSize : Z) : op ExpandVolumeResponse :=
  td ← newTdManager instance ic;
  let size := volSize newSize in
  cap ← on_manager (λ e, e) (
    found ← run_err (td_wrap "iscsi: targetd look up volume %s: %w") (volumeSize td name);
    match found with
    | Some cur => if (size <=? cur)%Z then mret cur
        else run_err (td_wrap "iscsi: targetd resize volume %s: %w") (resizeVolume td name size);; mret size
    | None => run_err (td_wrap "iscsi: targetd resize volume %s: %w") (resizeVolume td name size);; mret size
    end);
  mret (mkExpandVolumeResponse cap true).
Definition getVolumeHealthTargetd (instance location name : string) : op GetVolumeHealthResponse :=
  ic ← lift (inst cfg instance);
  td ← newTdManager instance (tdWithHandlePool ic location);
  found ← on_manager (td_wrap "iscsi: targetd look up volume %s: %w") (volumeSize td name);
  mret (match found with
        | None => mkGetVolumeHealthResponse true "backing targetd volume not found"
        | Some _ => mkGetVolumeHealthResponse false "present"
        end).
Definition getCapacityTargetd (instance : string) (ic : InstanceConfig) : op GetCapacityResponse :=
  td ← newTdManager instance ic;
  free ← on_manager (td_wrap "iscsi: targetd capacity: %w") (capacity td);
  mret (mkGetCapacityResponse free).
Definition listVolumesTargetd (instance : string) (ic : InstanceConfig) : op (list VolumeListEntry) :=
  td ← newTdManager instance ic;
  vols ← on_manager (td_wrap "iscsi: targetd list volumes: %w") (listVolumes td);
  mret (map (λ v, mkVolumeListEntry (mkVolumeRef instance (tdLocation (ic_TargetdPool ic)) (v_Name v)) (v_Size v)) vols).
(** The connection a node needs. *)
Definition publish_context (portals : list string) (iqn lun : string) : strmap :=
  let pc := <[ctxLUN := lun]> (<[ctxIQN := iqn]> {[ctxPortal := default "" (head portals)]}) in
  match portals with
  | _ :: _ :: _ => <[ctxPortals := join "," portals]> pc
  | _ => pc
  end.
Definition controllerPublishTargetd (instance : string) (ic : InstanceConfig) (req : ControllerPublishRequest) : op ControllerPublishResponse :=
  td ← newTdManager instance ic;
  chap ← chapFor cfg instance;
  let initIQN := initiatorIQN (ic_IQNBase ic) (ControllerPublishRequest_NodeID req) in
  lun ← on_manager (td_wrap "iscsi: targetd grant access for %s: %w")
    (grantAccess td (VolumeRef_Name (ControllerPublishRequest_Volume req)) initIQN chap);
  mret (mkControllerPublishResponse (publish_context (portalList ic) (ic_TargetIQN ic) (Itoa lun))).
Definition controllerUnpublishTargetd (instance : string) (ic : InstanceConfig) (req : ControllerUnpublishRequest) : op unit :=
  td ← newTdManager instance ic;
  let initIQN := initiatorIQN (base_or_default ic) (ControllerUnpublishRequest_NodeID req) in
  on_manager (td_wrap "iscsi: targetd revoke access for %s: %w")
    (revokeAccess td (VolumeRef_Name (ControllerUnpublishRequest_Volume req)) initIQN).
End plugin.
End targetd.
