(* ===== verification/ISCSIControl.v ===== *)
(** * The iSCSI plugin: control plane (internal/iscsiplugin)

    Volumes, their LIO exports, snapshots, the masking of a LUN to a node, listings,
    capacity and health; an instance that targetd manages goes to [Targetd]. *)
From Stdlib Require Import Ascii.
From S2P Require Import Prelude GoStrings GoPath Json JsonText Protocol Sha256 Host GoOs KMS LVM ISCSI Targetd.

Module iscsicontrol.
Import bardplugin jsontext iscsi targetd.

Section control.
  Context {H : Type} `{Host H} `{Files H} `{Env H} `{MapIter} (cfg : Config).
  Abbreviation op A := (M H perror A).

(** [targetcli path args...], with errors that mean "done already" taken for success. *)
Definition targetcli (benign : string → bool) (fmt path : string) (args : list string) : op unit :=
  run_unless benign fmt "targetcli" (path :: args).
Definition strict (_ : string) : bool := false.

Fixpoint create_portals (tpg : string) (portals : list string) : op unit :=
  match portals with
  | [] => mret tt
  | p :: portals =>
      ipport ← lift (splitPortal p);
      targetcli isExists "iscsi: create portal %s on %s: %w" (tpg +:+ "/portals") ["create"; ipport.1; ipport.2];;
      create_portals tpg portals
  end.
Definition setExplicitPortals (tpg : string) (portals : list string) : op unit :=
  targetcli isNotFound "iscsi: delete default portal 0.0.0.0:3260 on %s: %w" (tpg +:+ "/portals") ["delete"; "0.0.0.0"; "3260"];;
  targetcli isNotFound "iscsi: delete default portal ::0:3260 on %s: %w" (tpg +:+ "/portals") ["delete"; "::0"; "3260"];;
  create_portals tpg portals.

(** ** Volumes *)

(** The [found] case: a retry, or a clone to be grown. *)
Definition create_found (req : CreateVolumeRequest) (vg lv : string) (size : Z) : op unit :=
  if (size <? CreateVolumeRequest_CapacityBytes req)%Z then
    match source_of req with
    | None => fail (Errorf CodeAlreadyExists "iscsi: volume %q exists at %d bytes, smaller than requested %d")
    | Some _ => extendTo vg lv (CreateVolumeRequest_CapacityBytes req)
    end
  else mret tt.
(** A clone, a thin volume or a thick one. *)
Definition create_new (req : CreateVolumeRequest) (vg lv : string) : op unit :=
  let pool := thinPoolFor cfg (CreateVolumeRequest_Instance req) (CreateVolumeRequest_Parameters req) in
  match source_of req with
  | Some src =>
      guard_ (bool_decide (VolumeRef_Location src = "") || bool_decide (VolumeRef_Location src = vg))
        (Errorf CodeInvalidArg "iscsi: clone/restore source %s/%s is not in this instance's VG %s");;
      te ← isThinLV vg (VolumeRef_Name src);
      guard_ te.2 (Errorf CodeNotFound "iscsi: clone/restore source %s/%s not found");;
      guard_ te.1 (Errorf CodeInvalidArg "iscsi: clone/restore requires a thin source volume");;
      thinClone vg (VolumeRef_Name src) lv;;
      extendTo vg lv (CreateVolumeRequest_CapacityBytes req)
  | None =>
      if negb (bool_decide (pool = "")) then
        run_or "iscsi: lvcreate thin %s/%s: %w" "lvcreate"
          (lvm_args ["-T"; path_of vg pool; "-V"; lvBytes (CreateVolumeRequest_CapacityBytes req); "-n"; lv]);; mret tt
      else
        run_or "iscsi: lvcreate %s/%s: %w" "lvcreate"
          (lvm_args ["-n"; lv; "-L"; lvBytes (CreateVolumeRequest_CapacityBytes req); vg]);; mret tt
  end.
(** The LIO export: backstore, target, portals, LUN 0, and no access without an ACL. *)
Definition export_lun (ic : InstanceConfig) (vg lv : string) : op unit :=
  let iqn := targetIQN (ic_IQNBase ic) lv in
  targetcli isExists "iscsi: create backstore %s: %w" "/backstores/block" ["create"; "name=" +:+ lv; "dev=" +:+ devPath vg lv];;
  run_out "targetcli" [backstore lv; "set"; "attribute"; "emulate_tpu=1"];;
  targetcli isExists "iscsi: create target %s: %w" "/iscsi" ["create"; iqn];;
  (match portalList ic with
   | _ :: _ :: _ => setExplicitPortals (tpgPath iqn) (portalList ic)
   | _ => mret tt
   end);;
  targetcli isExists "iscsi: map lun for %s: %w" (tpgPath iqn +:+ "/luns") ["create"; backstore lv];;
  targetcli strict "iscsi: set tpg attributes for %s: %w" (tpgPath iqn)
    ["set"; "attribute"; "generate_node_acls=0"; "demo_mode_write_protect=0";
     if ic_CHAPAuth ic then "authentication=1" else "authentication=0"].

Definition CreateVolume (req : CreateVolumeRequest) : op CreateVolumeResponse :=
  ic ← lift (inst cfg (CreateVolumeRequest_Instance req));
  if isTargetd ic && bool_decide (is_Some (source_of req))
  then fail (Errorf CodeInvalidArg "iscsi: creating a volume from a snapshot or another volume is not supported on targetd-managed instance %q")
  else if isTargetd ic then createVolumeTargetd cfg (CreateVolumeRequest_Instance req) ic req
  else
    let vg := ic_VG ic in
    let lv := lvName (CreateVolumeRequest_Name req) in
    sf ← lvSizeBytes vg lv;
    (if sf.2 : bool then create_found req vg lv sf.1 else create_new req vg lv);;
    s ← lvSizeBytes vg lv;
    export_lun ic vg lv;;
    mret (mkCreateVolumeResponse vg lv s.1 ∅ ∅).

(** A handle of targetd whose instance is gone cannot be reached. *)
Definition unreachable : perror :=
  Errorf CodeInternal "iscsi: instance %q not configured, cannot reach remote targetd volume %s -- restore the instance or clean up manually".
(** Where an operation on a volume goes: to targetd, or to the local target. *)
Definition dispatch {A} (v : VolumeRef) (remote : InstanceConfig → op A) (local : InstanceConfig → op A) : op A :=
  if negb (configured cfg (VolumeRef_Instance v)) then
    if isTdLocation (VolumeRef_Location v) then fail unreachable else local no_instance
  else
    let ic := instance_of cfg (VolumeRef_Instance v) in
    if isTargetd ic then remote (tdWithHandlePool ic (VolumeRef_Location v)) else local ic.

Definition DeleteVolume (req : DeleteVolumeRequest) : op unit :=
  let v := DeleteVolumeRequest_Volume req in
  dispatch v (λ ic, deleteVolumeTargetd cfg (VolumeRef_Instance v) ic (VolumeRef_Name v)) (λ ic,
    let vg := VolumeRef_Location v in
    let lv := VolumeRef_Name v in
    targetcli isNotFound "iscsi: delete target %s: %w" "/iscsi" ["delete"; targetIQN (base_or_default ic) lv];;
    targetcli isNotFound "iscsi: delete backstore %s: %w" "/backstores/block" ["delete"; lv];;
    run_unless isNotFound "iscsi: lvremove %s/%s: %w" "lvremove" (lvm_args ["-f"; path_of vg lv])).

Definition ExpandVolume (req : ExpandVolumeRequest) : op ExpandVolumeResponse :=
  let v := ExpandVolumeRequest_Volume req in
  let ic := instance_of cfg (VolumeRef_Instance v) in
  if isTargetd ic
  then expandVolumeTargetd cfg (VolumeRef_Instance v) (tdWithHandlePool ic (VolumeRef_Location v)) (VolumeRef_Name v)
         (ExpandVolumeRequest_NewSizeBytes req)
  else
    extendTo (VolumeRef_Location v) (VolumeRef_Name v) (ExpandVolumeRequest_NewSizeBytes req);;
    s ← lvSizeBytes (VolumeRef_Location v) (VolumeRef_Name v);
    mret (mkExpandVolumeResponse s.1 true).

(** ** Snapshots *)
Definition CreateSnapshot (req : CreateSnapshotRequest) : op CreateSnapshotResponse :=
  let src := CreateSnapshotRequest_SourceVolume req in
  ic ← lift (inst cfg (VolumeRef_Instance src));
  guard_ (negb (isTargetd ic)) (Errorf CodeUnsupported "iscsi: snapshots are not supported on targetd-managed instance %q");;
  te ← isThinLV (VolumeRef_Location src) (VolumeRef_Name src);
  guard_ te.2 (Errorf CodeNotFound "iscsi: snapshot source %s/%s not found");;
  guard_ te.1 (Errorf CodeInvalidArg "iscsi: snapshots require a thin volume (provision from a thinPool)");;
  let vg := VolumeRef_Location src in
  let snap := snapName (CreateSnapshotRequest_Name req) in
  oe ← lvOrigin vg snap;
  guard_ (negb (oe.2 && negb (bool_decide (oe.1 = VolumeRef_Name src))))
    (Errorf CodeAlreadyExists "iscsi: snapshot %q already exists for a different source volume (%s)");;
  run_unless isExists "iscsi: snapshot %s/%s: %w" "lvcreate"
    (lvm_args ["-s"; "-pr"; "--addtag"; srcTagPrefix +:+ VolumeRef_Name src; "-n"; snap; path_of vg (VolumeRef_Name src)]);;
  s ← lvSizeBytes vg (VolumeRef_Name src);
  now ← gets UnixNow;
  mret (mkCreateSnapshotResponse vg snap "" s.1 now true).
Definition DeleteSnapshot (req : DeleteSnapshotRequest) : op unit :=
  let s := DeleteSnapshotRequest_Snapshot req in
  run_unless isNotFound "iscsi: lvremove snapshot %s: %w" "lvremove"
    (lvm_args ["-f"; path_of (VolumeRef_Location s) (VolumeRef_Name s)]).

(** ** Masking a LUN to a node *)

(** The arguments that put the credentials on a node's ACL. *)
Definition auth_args (acl : string) (c : chapCreds) : list string :=
  [acl; "set"; "auth"; "userid=" +:+ ch_User c; "password=" +:+ ch_Password c] ++
  (if bool_decide (ch_MutualUser c = "") then []
   else ["mutual_userid=" +:+ ch_MutualUser c; "mutual_password=" +:+ ch_MutualPassword c]).
Definition set_chap_auth (iqn initIQN : string) (c : chapCreds) : op unit :=
  run_err (redacted (chap_secrets c) ("iscsi: set chap auth on acl " +:+ initIQN))
    (run "targetcli" (auth_args (tpgPath iqn +:+ "/acls/" +:+ initIQN) c));;
  mret tt.
Definition ControllerPublish (req : ControllerPublishRequest) : op ControllerPublishResponse :=
  let v := ControllerPublishRequest_Volume req in
  ic ← lift (inst cfg (VolumeRef_Instance v));
  if isTargetd ic
  then controllerPublishTargetd cfg (VolumeRef_Instance v) (tdWithHandlePool ic (VolumeRef_Location v)) req
  else
    chap ← chapFor cfg (VolumeRef_Instance v);
    let iqn := targetIQN (ic_IQNBase ic) (VolumeRef_Name v) in
    let initIQN := initiatorIQN (ic_IQNBase ic) (ControllerPublishRequest_NodeID req) in
    targetcli isExists "iscsi: create acl %s on %s: %w" (tpgPath iqn +:+ "/acls") ["create"; initIQN];;
    (match chap with Some c => set_chap_auth iqn initIQN c | None => mret tt end);;
    mret (mkControllerPublishResponse (publish_context (portalList ic) iqn "0")).
Definition ControllerUnpublish (req : ControllerUnpublishRequest) : op unit :=
  let v := ControllerUnpublishRequest_Volume req in
  dispatch v (λ ic, controllerUnpublishTargetd cfg (VolumeRef_Instance v) ic req) (λ ic,
    let base := base_or_default ic in
    targetcli isNotFound "iscsi: delete acl %s on %s: %w" (tpgPath (targetIQN base (VolumeRef_Name v)) +:+ "/acls")
      ["delete"; initiatorIQN base (ControllerUnpublishRequest_NodeID req)]).

(** ** Reports *)
Definition GetCapacity (req : GetCapacityRequest) : op GetCapacityResponse :=
  ic ← lift (inst cfg (GetCapacityRequest_Instance req));
  if isTargetd ic then getCapacityTargetd cfg (GetCapacityRequest_Instance req) ic
  else
    out ← run_or "iscsi: vgs %s: %w" "vgs" ["--noheadings"; "--units"; "b"; "--nosuffix"; "-o"; "vg_free"; ic_VG ic];
    match Atoi (trim_space out) with
    | Some n => mret (mkGetCapacityResponse n)
    | None => fail (errorf "iscsi: parse vg_free %q: %w")
    end.
Definition GetVolumeHealth (req : GetVolumeHealthRequest) : op GetVolumeHealthResponse :=
  let v := GetVolumeHealthRequest_Volume req in
  if isTdLocation (VolumeRef_Location v)
  then getVolumeHealthTargetd cfg (VolumeRef_Instance v) (VolumeRef_Location v) (VolumeRef_Name v)
  else
    s ← lvSizeBytes (VolumeRef_Location v) (VolumeRef_Name v);
    mret (if negb s.2 then mkGetVolumeHealthResponse true "backing logical volume not found"
          else mkGetVolumeHealthResponse false "present").

Definition volume_entry (instance vg : string) (lv : lvInfo) : option VolumeListEntry :=
  if negb (has_prefix "bard-" (lvmplugin.li_name lv)) || isThinPool (lvmplugin.li_attr lv) then None
  else Some (mkVolumeListEntry (mkVolumeRef instance vg (lvmplugin.li_name lv)) (lvmplugin.li_size lv)).
Definition snapshot_entry (instance vg : string) (lv : lvInfo) : option SnapshotListEntry :=
  if negb (has_prefix "snap-" (lvmplugin.li_name lv)) then None
  else
    let src := if bool_decide (lvmplugin.li_origin lv = "") then lvmplugin.li_srcTag lv else lvmplugin.li_origin lv in
    if bool_decide (src = "") then None
    else Some (mkSnapshotListEntry (mkVolumeRef instance vg (lvmplugin.li_name lv)) (mkVolumeRef instance vg src)
                 (lvmplugin.li_size lv) 0 true).
Fixpoint list_volumes (l : list (string * InstanceConfig)) (entries : list VolumeListEntry) : op (list VolumeListEntry) :=
  match l with
  | [] => mret entries
  | (instance, ic) :: l =>
      if isTargetd ic then
        es ← listVolumesTargetd cfg instance ic; list_volumes l (entries ++ es)
      else if bool_decide (ic_VG ic = "") then list_volumes l entries
      else
        rows ← listLVs (ic_VG ic);
        list_volumes l (entries ++ omap (volume_entry instance (ic_VG ic)) rows)
  end.
Fixpoint list_snapshots (l : list (string * InstanceConfig)) (entries : list SnapshotListEntry) : op (list SnapshotListEntry) :=
  match l with
  | [] => mret entries
  | (instance, ic) :: l =>
      if bool_decide (ic_VG ic = "") then list_snapshots l entries
      else
        rows ← listLVs (ic_VG ic);
        list_snapshots l (entries ++ omap (snapshot_entry instance (ic_VG ic)) rows)
  end.
Definition ListVolumes (_ : ListVolumesRequest) : op ListVolumesResponse :=
  es ← list_volumes (range (instances cfg)) []; mret (mkListVolumesResponse es).
Definition ListSnapshots (_ : ListSnapshotsRequest) : op ListSnapshotsResponse :=
  es ← list_snapshots (range (instances cfg)) []; mret (mkListSnapshotsResponse es).
End control.
End iscsicontrol.
