(* ===== verification/ISCSINode.v ===== *)
(** * The iSCSI plugin: node plane (internal/iscsiplugin)

    Logging in to a target under a dedicated interface, the record of a staged volume, the
    lock and the count of records that volumes on one target share, dm-multipath, mounting
    and growing.  Besides the host, the node plane resolves links and locks files
    ([NodeFiles]); a lock that is taken is released on every path. *)
From Stdlib Require Import Ascii.
From S2P Require Import Prelude GoStrings GoPath Json JsonText Protocol Sha256 Sha1 Host GoOs KMS LVM RBDNode ISCSI Targetd ISCSIControl.

(** [filepath.EvalSymlinks], [os.Lstat], and a file opened to be locked with flock. *)
Class NodeFiles (H : Type) := {
  EvalSymlinks : string → H → H * res os_error string;
  Lstat : string → H → H * option os_error;
  OpenLock : string → Z → H → H * option os_error;
  Flock : string → H → H * option os_error;
  Funlock : string → H → H;
  CloseLock : string → H → H;
}.

Module iscsinode.
Import bardplugin jsontext iscsi targetd iscsicontrol.

(** ** The record of a staged volume *)
Record stagedState := mkStaged {
  st_Device : string; st_IQN : string; st_Portal : string; st_Portals : list string; st_Devices : list string;
  st_Mapper : string }.
Definition no_state : stagedState := mkStaged "" "" "" [] [] "".
Definition fields_stagedState (x : stagedState) : list (string * option json) :=
  [fld "device" (st_Device x); fld "iqn" (st_IQN x); fld "portal" (st_Portal x); fldo "portals" (st_Portals x);
   fldo "devices" (st_Devices x); fldo "mapper" (st_Mapper x)].
Definition read_stagedState (o : list (string * json)) (x : stagedState) : stagedState * bool :=
  let '(a0, k0) := dec_field "device" o (st_Device x) in
  let '(a1, k1) := dec_field "iqn" o (st_IQN x) in
  let '(a2, k2) := dec_field "portal" o (st_Portal x) in
  let '(a3, k3) := dec_field "portals" o (st_Portals x) in
  let '(a4, k4) := dec_field "devices" o (st_Devices x) in
  let '(a5, k5) := dec_field "mapper" o (st_Mapper x) in
  (mkStaged a0 a1 a2 a3 a4 a5, k0 && k1 && k2 && k3 && k4 && k5).
Definition staged_ok (x : stagedState) : Prop :=
  Forall utf8_ok ([st_Device x; st_IQN x; st_Portal x; st_Mapper x] ++ st_Portals x ++ st_Devices x).
#[global] Instance wire_stagedState : Wire stagedState :=
  struct_wire no_state fields_stagedState read_stagedState staged_ok.

Definition multipathPortals (pc : strmap) (ic : InstanceConfig) : list string :=
  let v := mget pc ctxPortals in if bool_decide (v = "") then portalList ic else split_on "," v.
Definition many {A} (l : list A) : bool := bool_decide (2 ≤ length l).
Definition isMultipathDevice (src : string) : bool := has_prefix "/dev/dm-" src || has_prefix "/dev/mapper/" src.
Definition or_default (s d : string) : string := if bool_decide (s = "") then d else s.
(** A size [blockdev] reports for a device that is there. *)
Definition present (out : string) : bool := negb (bool_decide (trim_space out = "")) && negb (bool_decide (trim_space out = "0")).

Section node.
  Context {H : Type} `{Host H} `{Files H} `{TempFiles H} `{Env H} `{Clock H} `{NodeFiles H} (cfg : Config).
  Abbreviation op A := (M H perror A).

(** [iscsiadm], its command and its arguments. *)
Definition iscsiadm_cmd (args : list string) : string * list string :=
  if bool_decide (iscsiadmChroot cfg = "") then ("iscsiadm", args) else ("chroot", iscsiadmChroot cfg :: "iscsiadm" :: args).
Definition iscsiadm (args : list string) : M H string string := run (iscsiadm_cmd args).1 (iscsiadm_cmd args).2.
Definition iscsiadm_unless (benign : string → bool) (fmt : string) (args : list string) : op unit :=
  run_unless benign fmt (iscsiadm_cmd args).1 (iscsiadm_cmd args).2.
Definition iscsiadm_try (args : list string) : op unit :=
  run_out (iscsiadm_cmd args).1 (iscsiadm_cmd args).2;; mret tt.

(** ** State *)
Definition statePath (stagingPath : string) : string :=
  Join [stateDir cfg; sha256.hex (take 16 (sha256.Sum256 stagingPath))].
Definition recordState (stagingPath : string) (st : stagedState) : op unit :=
  if bool_decide (stateDir cfg = "") then mret tt
  else
    mkdir_all "iscsi: state dir: %w" (stateDir cfg) 488;;
    os_or "iscsi: record state: %w" (os_unit (WriteFile (statePath stagingPath) (Marshal st) 384)).
(** The record in a file, if it is there and can be read. *)
Definition read_state (path : string) : op (option stagedState) :=
  catch (os_get (ReadFile path)) (λ r,
    mret (match r with Ok data => unmarshal data | Err _ => None end)).
Definition loadState (stagingPath : string) : op (option stagedState) :=
  if bool_decide (stateDir cfg = "") then mret None else read_state (statePath stagingPath).
Definition clearState (stagingPath : string) : op unit :=
  if bool_decide (stateDir cfg = "") then mret tt else os_try (Remove (statePath stagingPath)).

Definition lock_path (iqn : string) : string := Join [stateDir cfg; "lock-" +:+ sha256.hex (sha1.Sum iqn)].
Definition withTargetLock (iqn : string) (fn : op unit) : op unit :=
  if bool_decide (stateDir cfg = "") then fn
  else
    mkdir_all "iscsi: state dir: %w" (stateDir cfg) 488;;
    os_or "iscsi: open target lock: %w" (os_unit (OpenLock (lock_path iqn) 384));;
    catch (os_or "iscsi: lock target %s: %w" (os_unit (Flock (lock_path iqn)))) (λ r,
      match r with
      | Ok _ => λ h, let '(h', x) := fn h in (CloseLock (lock_path iqn) (Funlock (lock_path iqn) h'), x)
      | Err e => λ h, (CloseLock (lock_path iqn) h, Err e)
      end).

Fixpoint count_records (iqn exclude : string) (entries : list dirent) (count : Z) : op Z :=
  match entries with
  | [] => mret count
  | entry :: entries =>
      let full := Join [stateDir cfg; de_name entry] in
      if de_dir entry || has_prefix "lock-" (de_name entry) ||
         (negb (bool_decide (exclude = "")) && bool_decide (full = exclude))
      then count_records iqn exclude entries count
      else
        st ← read_state full;
        count_records iqn exclude entries
          (match st with Some st => if bool_decide (st_IQN st = iqn) then count + 1 else count | None => count end)%Z
  end.
Definition otherRecordsForIQN (iqn excludeStagingPath : string) : op Z :=
  if bool_decide (stateDir cfg = "") then mret 0%Z
  else
    catch (os_get (ReadDir (stateDir cfg))) (λ r,
      match r with
      | Err e => if not_exist e then mret 0%Z else fail (errorf "iscsi: scan state dir: %w")
      | Ok entries =>
          count_records iqn (if bool_decide (excludeStagingPath = "") then "" else statePath excludeStagingPath) entries 0
      end).

Definition sessionActiveForIQN (iqn : string) : op bool :=
  catch (iscsiadm ["-m"; "session"]) (λ r,
    match r with
    | Ok out => mret (contains iqn out)
    | Err e => if isNotFound e then mret false else fail (errorf "%w")
    end).

(** ** Devices *)
Definition byPath (portal iqn lun : string) : string :=
  Join [devRoot cfg; "disk"; "by-path"; "ip-" +:+ portal +:+ "-iscsi-" +:+ iqn +:+ "-lun-" +:+ lun].
Definition ensureIface (initIQN : string) : op unit :=
  catch (iscsiadm ["-m"; "iface"; "-I"; iscsiIface]) (λ r,
    match r with
    | Ok out =>
        if contains ("iface.initiatorname = " +:+ initIQN +:+ String newline "") out then mret tt
        else iscsiadm_unless strict "iscsi: set iface initiatorname: %w"
          ["-m"; "iface"; "-I"; iscsiIface; "--op"; "update"; "-n"; "iface.initiatorname"; "-v"; initIQN]
    | Err _ =>
        iscsiadm_unless isExists "iscsi: create iface: %w" ["-m"; "iface"; "-I"; iscsiIface; "--op"; "new"];;
        iscsiadm_unless strict "iscsi: set iface initiatorname: %w"
          ["-m"; "iface"; "-I"; iscsiIface; "--op"; "update"; "-n"; "iface.initiatorname"; "-v"; initIQN]
    end).

(** Polling every 300 ms for 20 s: the clock passes the deadline after at most 67 sleeps. *)
Definition deadline_ns : Z := 20000000000.
Definition poll_ns : Z := 300000000.
Definition wait_fuel : nat := 68.
Fixpoint poll {A} (fuel : nat) (ready : op (option A)) (cancelled timeout : perror) (deadline : Z) : op A :=
  match fuel with
  | O => fail (errorf "wait_fuel")
  | S fuel =>
      r ← ready;
      match r with
      | Some a => mret a
      | None =>
          ended ← gets ctx_done;
          if ended : bool then fail cancelled
          else
            t ← gets now;
            if bool_decide (deadline < t)%Z then fail timeout
            else modify (Sleep poll_ns);; poll fuel ready cancelled timeout deadline
      end
  end.
Definition size_of (dev : string) : op string := run_out "blockdev" ["--getsize64"; dev].
Definition device_ready (dev : string) : op (option unit) :=
  out ← size_of dev;
  mret (if (0 <? rbdnode.ParseInt_ (trim_space out))%Z then Some tt else None).
Definition waitForDevice (dev : string) : op unit :=
  t ← gets now;
  poll wait_fuel (device_ready dev) (errorf "iscsi: wait for device %s: %w")
    (errorf "iscsi: device %s not ready (size 0) after timeout") (t + deadline_ns)%Z.
Definition mapper_ready (mapper : string) : op (option string) :=
  catch (os_unit (Lstat mapper)) (λ r, mret (match r with Ok _ => Some mapper | Err _ => None end)).
Definition waitForMapper (pathDev : string) : op string :=
  sdPath ← os_or "iscsi: resolve path device %s: %w" (os_get (EvalSymlinks pathDev));
  wwidRaw ← os_or "iscsi: read wwid %s: %w" (os_get (ReadFile (Join [sysfsRoot cfg; "class"; "block"; Base sdPath; "device"; "wwid"])));
  match mpathID (trim_space wwidRaw) with
  | None => fail (errorf "iscsi: unrecognized wwid %q (want a naa./eui./t10. prefix)")
  | Some id =>
      let mapper := Join [devRoot cfg; "disk"; "by-id"; "dm-uuid-mpath-" +:+ id] in
      t ← gets now;
      poll wait_fuel (mapper_ready mapper) (errorf "iscsi: wait for mapper %s: %w")
        (errorf "iscsi: mapper %s not ready after timeout") (t + deadline_ns)%Z
  end.

(** ** Filesystems *)
Definition growFilesystem (fsType dev mountPoint : string) : op unit :=
  (if bool_decide (fsType = "xfs") then run_or "iscsi: grow %s filesystem on %s: %w" "xfs_growfs" [mountPoint]
   else if bool_decide (fsType = "btrfs")
   then run_or "iscsi: grow %s filesystem on %s: %w" "btrfs" ["filesystem"; "resize"; "max"; mountPoint]
   else run_or "iscsi: grow %s filesystem on %s: %w" "resize2fs" [dev]);;
  mret tt.
Definition ensureFormatted (dev fsType : string) : op unit :=
  out ← run_out "blkid" ["-o"; "value"; "-s"; "TYPE"; dev];
  if negb (bool_decide (trim_space out = "")) then mret tt
  else run_or "iscsi: mkfs.%s %s: %w" ("mkfs." +:+ fsType) [dev];; mret tt.
Definition mounted (path : string) : op bool :=
  out ← run_out "findmnt" ["-n"; "-o"; "SOURCE"; "--mountpoint"; path];
  mret (negb (bool_decide (trim_space out = ""))).

(** ** Logging in *)
Definition chap_params (c : chapCreds) : list (string * string) :=
  [("node.session.auth.authmethod", "CHAP"); ("node.session.auth.username", ch_User c);
   ("node.session.auth.password", ch_Password c)] ++
  (if bool_decide (ch_MutualUser c = "") then []
   else [("node.session.auth.username_in", ch_MutualUser c); ("node.session.auth.password_in", ch_MutualPassword c)]).
Fixpoint set_params (iqn portal : string) (c : chapCreds) (params : list (string * string)) : op unit :=
  match params with
  | [] => mret tt
  | p :: params =>
      run_err (redacted (chap_secrets c) ("iscsi: set " +:+ p.1 +:+ " on node record " +:+ iqn))
        (iscsiadm ["-m"; "node"; "-T"; iqn; "-p"; portal; "-I"; iscsiIface; "--op"; "update"; "-n"; p.1; "-v"; p.2]);;
      set_params iqn portal c params
  end.
Definition setChapOnNode (iqn portal : string) (c : chapCreds) : op unit := set_params iqn portal c (chap_params c).
Definition discover (portal : string) : op unit :=
  iscsiadm_unless isExists "iscsi: discovery on %s: %w" ["-m"; "discovery"; "-t"; "sendtargets"; "-p"; portal; "-I"; iscsiIface].
Definition login (iqn portal : string) : op unit :=
  iscsiadm_unless isAlreadyLoggedIn "iscsi: login to %s: %w" ["-m"; "node"; "-T"; iqn; "-p"; portal; "-I"; iscsiIface; "--login"].
Definition rescan : op unit := iscsiadm_unless isNotFound "iscsi: session rescan: %w" ["-m"; "session"; "--rescan"].

(** ** Staging *)

(** The part after the device is known: format, mount, grow. *)
Definition stage_filesystem (req : NodeStageRequest) (dev : string) : op unit :=
  if NodeStageRequest_Block req then mret tt
  else
    let fsType := or_default (NodeStageRequest_FsType req) defaultFsType in
    let path := NodeStageRequest_StagingPath req in
    guard_ (bool_decide (fsType ∈ supportedFsTypes))
      (Errorf CodeInvalidArg "iscsi: unsupported fsType %q (supported: ext4, ext3, ext2, xfs, btrfs)");;
    ensureFormatted dev fsType;;
    mkdir_all "iscsi: mkdir staging: %w" path 488;;
    m ← mounted path;
    (if m : bool then mret tt
     else run_or "iscsi: mount %s -> %s: %w" "mount"
       (["-t"; fsType] ++ (match NodeStageRequest_MountFlags req with [] => [] | fl => ["-o"; join "," fl] end) ++ [dev; path]);;
       mret tt);;
    growFilesystem fsType dev path.

(** One path of a multipath volume: its device. *)
Fixpoint login_paths (iqn lun : string) (chap : option chapCreds) (portals : list string) : op (list string) :=
  match portals with
  | [] => mret []
  | portal :: portals =>
      discover portal;;
      (match chap with Some c => setChapOnNode iqn portal c | None => mret tt end);;
      login iqn portal;;
      let dev := byPath portal iqn lun in
      waitForDevice dev;;
      devs ← login_paths iqn lun chap portals;
      mret (dev :: devs)
  end.
Definition stage_iqn (req : NodeStageRequest) (ic : InstanceConfig) : string :=
  or_default (mget (NodeStageRequest_PublishContext req) ctxIQN)
    (targetIQN (ic_IQNBase ic) (VolumeRef_Name (NodeStageRequest_Volume req))).
Definition stage_lun (req : NodeStageRequest) : string := or_default (mget (NodeStageRequest_PublishContext req) ctxLUN) "0".
Definition nodeStageMultipath (req : NodeStageRequest) (ic : InstanceConfig) (portals : list string) : op unit :=
  let iqn := stage_iqn req ic in
  ensureIface (initiatorIQN (ic_IQNBase ic) (nodeID cfg));;
  chap ← chapFor cfg (VolumeRef_Instance (NodeStageRequest_Volume req));
  devs ← login_paths iqn (stage_lun req) chap portals;
  let dev := default "" (head devs) in
  mapper ← waitForMapper dev;
  recordState (NodeStageRequest_StagingPath req) (mkStaged dev iqn (default "" (head portals)) portals devs mapper);;
  stage_filesystem req mapper.

(** Under the target's lock: a session that is up is rescanned, else the node logs in. *)
Definition attach (instance iqn portal dev : string) : op unit :=
  shared ← otherRecordsForIQN iqn "";
  (if (0 <? shared)%Z then rescan
   else
     discover portal;;
     chap ← chapFor cfg instance;
     (match chap with Some c => setChapOnNode iqn portal c | None => mret tt end);;
     login iqn portal);;
  waitForDevice dev.
Definition NodeStage (req : NodeStageRequest) : op unit :=
  let instance := VolumeRef_Instance (NodeStageRequest_Volume req) in
  ic ← lift (inst cfg instance);
  let portals := multipathPortals (NodeStageRequest_PublishContext req) ic in
  if many portals then nodeStageMultipath req ic portals
  else
    let portal := or_default (mget (NodeStageRequest_PublishContext req) ctxPortal) (default "" (head (portalList ic))) in
    let iqn := stage_iqn req ic in
    let dev := byPath portal iqn (stage_lun req) in
    ensureIface (initiatorIQN (ic_IQNBase ic) (nodeID cfg));;
    withTargetLock iqn (attach instance iqn portal dev);;
    recordState (NodeStageRequest_StagingPath req) (mkStaged dev iqn portal [] [] "");;
    stage_filesystem req dev.

(** ** Unstaging *)
Definition logout (fmt iqn portal : string) : op unit :=
  iscsiadm_unless isNotFound fmt ["-m"; "node"; "-T"; iqn; "-p"; portal; "--logout"].
Definition forget_node (iqn portal : string) : op unit :=
  iscsiadm_try ["-m"; "node"; "-T"; iqn; "-p"; portal; "--op"; "delete"].
(** The device must be gone. *)
Definition check_gone (dev : string) : op unit :=
  out ← size_of dev;
  guard_ (negb (present out)) (errorf "iscsi: device %s still present after logout").

(** Another volume needs the session: only this volume's device is detached. *)
Definition detach_device (dev : string) : op unit :=
  if bool_decide (dev = "") then mret tt
  else
    sdPath ← os_or "iscsi: resolve device %s: %w" (os_get (EvalSymlinks dev));
    os_or "iscsi: detach %s: %w"
      (os_unit (WriteFile (Join [sysfsRoot cfg; "class"; "block"; Base sdPath; "device"; "delete"]) "1" 384)).
Definition verify_logout (iqn dev : string) : op unit :=
  if bool_decide (dev = "") then
    active ← run_err (λ _, errorf "iscsi: verify session for %s: %w") (sessionActiveForIQN iqn);
    guard_ (negb active) (errorf "iscsi: session for %s still present after logout")
  else check_gone dev.
Definition detach (stagingPath iqn portal dev : string) : op unit :=
  shared ← otherRecordsForIQN iqn stagingPath;
  if (0 <? shared)%Z then
    detach_device dev;;
    clearState stagingPath
  else
    logout "iscsi: logout %s: %w" iqn portal;;
    verify_logout iqn dev;;
    forget_node iqn portal;;
    clearState stagingPath.
Definition unstageSingleTarget (req : NodeUnstageRequest) (iqn portal dev : string) : op unit :=
  withTargetLock iqn (detach (NodeUnstageRequest_StagingPath req) iqn portal dev).

Definition flushMultipath (mapper : string) : op unit :=
  if bool_decide (mapper = "") then mret tt
  else
    mapper ← catch (os_get (EvalSymlinks mapper)) (λ r, mret (match r with Ok p => p | Err _ => mapper end));
    flushed ← catch (run "multipath" ["-f"; mapper]) (λ r,
      match r with
      | Ok _ => mret true
      | Err _ => catch (run "multipath" ["-f"; mapper]) (λ r, mret (is_Ok r))
      end);
    catch (run "dmsetup" ["info"; "-c"; "--noheadings"; "-o"; "name"; mapper]) (λ r,
      match r with
      | Ok _ => fail (errorf (if flushed : bool then "iscsi: multipath map %s still present after flush"
                              else "iscsi: flush multipath map %s: %w"))
      | Err _ => mret tt
      end).
Fixpoint each_ (f : string → op unit) (l : list string) : op unit :=
  match l with [] => mret tt | x :: l => f x;; each_ f l end.
Definition unstageMultipath (iqn mapper : string) (portals devices : list string) : op unit :=
  catch (flushMultipath mapper) (λ _, mret tt);;
  each_ (logout "iscsi: logout %s (%s): %w" iqn) portals;;
  each_ check_gone devices;;
  flushMultipath mapper;;
  each_ (forget_node iqn) portals.
Definition nodeUnstageMultipath (req : NodeUnstageRequest) (st : stagedState) : op unit :=
  unstageMultipath (st_IQN st) (st_Mapper st) (st_Portals st) (st_Devices st);;
  clearState (NodeUnstageRequest_StagingPath req).
Fixpoint derivedMapper (iqn : string) (portals : list string) : op string :=
  match portals with
  | [] => mret ""
  | portal :: portals =>
      let dev := byPath portal iqn "0" in
      out ← size_of dev;
      if present out then waitForMapper dev else derivedMapper iqn portals
  end.
Definition nodeUnstageDerivedMultipath (req : NodeUnstageRequest) (iqn : string) (portals : list string) : op unit :=
  mapper ← derivedMapper iqn portals;
  unstageMultipath iqn mapper portals (map (λ p, byPath p iqn "0") portals);;
  clearState (NodeUnstageRequest_StagingPath req).
(** The volume's record is lost: what can be derived from its name and its instance. *)
Definition unstage_derived (req : NodeUnstageRequest) : op unit :=
  let v := NodeUnstageRequest_Volume req in
  let ic := instance_of cfg (VolumeRef_Instance v) in
  let iqn := if isTargetd ic then ic_TargetIQN ic else targetIQN (base_or_default ic) (VolumeRef_Name v) in
  match portalList ic with
  | [] => mret tt
  | [portal] => unstageSingleTarget req iqn portal (if isTargetd ic then "" else byPath portal iqn "0")
  | pl => nodeUnstageDerivedMultipath req iqn pl
  end.
Definition NodeUnstage (req : NodeUnstageRequest) : op unit :=
  run_unless isNotMounted "iscsi: umount %s: %w" "umount" [NodeUnstageRequest_StagingPath req];;
  st ← loadState (NodeUnstageRequest_StagingPath req);
  match st with
  | None => unstage_derived req
  | Some st =>
      if many (st_Portals st) then nodeUnstageMultipath req st
      else unstageSingleTarget req (st_IQN st) (st_Portal st) (st_Device st)
  end.

(** ** Publishing *)
Definition derived_device (req : NodePublishRequest) : op string :=
  let v := NodePublishRequest_Volume req in
  let ic := instance_of cfg (VolumeRef_Instance v) in
  let iqn := targetIQN (base_or_default ic) (VolumeRef_Name v) in
  match portalList ic with
  | [] => fail (Errorf CodeInvalidArg "iscsi: no staged device for %s")
  | [portal] => mret (byPath portal iqn "0")
  | pl =>
      mapper ← derivedMapper iqn pl;
      if bool_decide (mapper = "")
      then fail (Errorf CodeInternal "iscsi: no live path device found to derive the multipath device for %s; refusing to bind-mount a single leg")
      else mret mapper
  end.
Definition published_device (req : NodePublishRequest) : op string :=
  st ← loadState (NodePublishRequest_StagingPath req);
  let dev := match st with
             | Some st => if bool_decide (st_Mapper st = "") then st_Device st else st_Mapper st
             | None => ""
             end in
  if bool_decide (dev = "") then derived_device req else mret dev.
Definition NodePublish (req : NodePublishRequest) : op unit :=
  let target := NodePublishRequest_TargetPath req in
  if NodePublishRequest_Block req then
    dev ← published_device req;
    mkdir_all "iscsi: mkdir target parent: %w" (Dir target) 488;;
    os_try (OpenCreate target 384);;
    m ← mounted target;
    if m : bool then mret tt
    else run_or "iscsi: bind block %s -> %s: %w" "mount" ["--bind"; dev; target];; mret tt
  else
    mkdir_all "iscsi: mkdir target: %w" target 488;;
    m ← mounted target;
    if m : bool then mret tt
    else
      run_or "iscsi: bind mount %s -> %s: %w" "mount" ["--bind"; NodePublishRequest_StagingPath req; target];;
      if NodePublishRequest_Readonly req then
        run_or "iscsi: remount ro %s: %w" "mount" ["-o"; "remount,ro,bind"; NodePublishRequest_StagingPath req; target];; mret tt
      else mret tt.
Definition NodeUnpublish (req : NodeUnpublishRequest) : op unit :=
  run_unless isNotMounted "iscsi: umount %s: %w" "umount" [NodeUnpublishRequest_TargetPath req].

(** ** Expansion and reclaim *)
Definition resizeMultipath (dev : string) : op unit :=
  name ← run_or "iscsi: resolve multipath map name for %s: %w" "dmsetup" ["info"; "-c"; "--noheadings"; "-o"; "name"; dev];
  run_or "iscsi: multipathd resize map %s: %w" "multipathd" ["resize"; "map"; trim_space name];;
  mret tt.
Definition NodeExpand (req : NodeExpandRequest) : op NodeExpandResponse :=
  let path := NodeExpandRequest_VolumePath req in
  rescan;;
  out ← run_or "iscsi: resolve device for %s: %w" "findmnt" ["-n"; "-o"; "SOURCE"; "--target"; path];
  let dev := trim_space out in
  (if isMultipathDevice dev then resizeMultipath dev else mret tt);;
  fsType ← run_out "findmnt" ["-n"; "-o"; "FSTYPE"; "--target"; path];
  growFilesystem (trim_space fsType) dev path;;
  mret (mkNodeExpandResponse 0).
Definition NodeReclaimSpace (req : NodeReclaimSpaceRequest) : op ReclaimSpaceResponse :=
  if NodeReclaimSpaceRequest_Block req then mret (mkReclaimSpaceResponse (-1) (-1))
  else
    run_unless (λ e, contains "not supported" (to_lower e)) "iscsi: fstrim %s: %w" "fstrim"
      [or_default (NodeReclaimSpaceRequest_VolumePath req) (NodeReclaimSpaceRequest_StagingPath req)];;
    mret (mkReclaimSpaceResponse (-1) (-1)).

(** The plugin, as [bardplugin.Serve] sees it. *)
Definition Serve_ `{MapIter} : Backend H :=
  mkBackend Info_ (CreateVolume cfg) (DeleteVolume cfg) (ExpandVolume cfg) (CreateSnapshot cfg) DeleteSnapshot
    NodeStage NodeUnstage NodePublish NodeUnpublish NodeExpand
    (Some (mkCapacityReporter (GetCapacity cfg))) (Some (mkHealthReporter (GetVolumeHealth cfg))) None
    (Some (mkControllerPublisher (ControllerPublish cfg) (ControllerUnpublish cfg)))
    (Some (mkVolumeLister (ListVolumes cfg))) (Some (mkSnapshotLister (ListSnapshots cfg))) None
    (Some (mkNodeSpaceReclaimer NodeReclaimSpace)) None None None None.
End node.
End iscsinode.
