(* ===== verification/TargetdSafety.v ===== *)
(** * LUNs on a shared target (internal/iscsiplugin/targetd.go)

    All volumes of a targetd instance are LUNs of one target, numbered per initiator.  The
    server is a parameter ([TargetdServer]): its exports, and what the documented calls do
    to them.  Under any sequence of operations, each run under [tdAccessMu], no initiator
    has two exports with one LUN; the LUN a grant answers is that of the volume's export,
    and a new one is the smallest free number. *)
From Stdlib Require Import Ascii.
From S2P Require Import Prelude GoStrings GoPath Json JsonText Protocol Host GoOs KMS ISCSI Targetd.

Module targetdsafety.
Import bardplugin jsontext iscsi targetd.

(** ** The server *)
Definition create_params (ini : string) (lun : Z) (pool vol : string) : list (string * json) :=
  [("initiator_wwn", enc ini); ("lun", enc lun); ("pool", enc pool); ("vol", enc vol)].
Definition destroy_params (ini pool vol : string) : list (string * json) :=
  [("initiator_wwn", enc ini); ("pool", enc pool); ("vol", enc vol)].
Class TargetdServer (H : Type) `{Env H} := {
  exports : H → list tdExport;
  server_list t id h h' r : httpDo (rpc_request t id "export_list" []) h = (h', r) →
    (∀ resp x, r = Ok resp → reply resp = Ok x → ∃ j, x = Some j ∧ decode j = Some (exports h));
  (* a call that fails may have had its effect *)
  server_create t id ini lun vol h h' r : utf8_ok ini → utf8_ok vol → utf8_ok (m_pool t) →
    httpDo (rpc_request t id "export_create" (create_params ini lun (m_pool t) vol)) h = (h', r) →
    let after := ∃ sz, exports h' = exports h ++ [mkExport ini lun vol (m_pool t) sz] in
    (exports h' = exports h ∨ after) ∧ (∀ resp x, r = Ok resp → reply resp = Ok x → after);
  server_destroy t id method params h h' r : method ∈ ["export_destroy"; "vol_destroy"] →
    httpDo (rpc_request t id method params) h = (h', r) → exports h' `sublist_of` exports h;
  server_other t id method params h h' r : method ∉ ["export_create"; "export_destroy"; "vol_destroy"] →
    httpDo (rpc_request t id method params) h = (h', r) → exports h' = exports h;
}.

(** An initiator's LUN names one of its exports. *)
Definition slot (e : tdExport) : string * Z := (e_InitiatorWWN e, e_LUN e).
Definition luns_unique (l : list tdExport) : Prop := NoDup (slot <$> l).
Definition of_initiator (ini : string) (l : list tdExport) : list tdExport := filter (λ e, e_InitiatorWWN e = ini) l.
Definition exported (vol ini : string) (l : list tdExport) : Prop :=
  ∃ e, e ∈ l ∧ e_InitiatorWWN e = ini ∧ e_VolName e = vol.

Lemma luns_sublist l k : k `sublist_of` l → luns_unique l → luns_unique k.
Proof. intros Hs Hl. eapply sublist_NoDup; [exact Hl|]. by apply fmap_sublist. Qed.

(** ** The smallest free number *)
Lemma lowest_spec fuel used lun (r := lowest_unused fuel used lun) :
  (lun ≤ r)%Z ∧ (∀ k, (lun ≤ k < r)%Z → k ∈ used) ∧ ((r = lun + Z.of_nat fuel)%Z ∨ r ∉ used).
Proof.
  subst r. revert lun. induction fuel as [|fuel IH]; intros lun; simpl.
  { split; [lia|]. split; [lia|]. left. lia. }
  case_bool_decide as Hin.
  - destruct (IH (lun + 1)%Z) as (Hle & Hall & Hor). split; [lia|]. split.
    + intros k Hk. destruct (decide (k = lun)) as [->|]; [done|]. apply Hall. lia.
    + destruct Hor as [->|]; [left; lia|by right].
  - split; [lia|]. split; [lia|by right].
Qed.
(** As many numbers fit below as are used. *)
Lemma below_used (used : list Z) n : (0 ≤ n)%Z → (∀ k, (0 ≤ k < n)%Z → k ∈ used) → (n ≤ Z.of_nat (length used))%Z.
Proof.
  intros Hn Hall. assert (seqZ 0 n ⊆+ used) as Hs.
  { apply NoDup_submseteq; [apply NoDup_seqZ|]. intros k Hk%elem_of_seqZ. apply Hall. lia. }
  apply submseteq_length in Hs. rewrite length_seqZ in Hs. lia.
Qed.
Lemma lowest_free used (r := lowest_unused (S (length used)) used 0) :
  (r ∉ used) ∧ (0 ≤ r ≤ Z.of_nat (length used))%Z ∧ ∀ k, (0 ≤ k < r)%Z → k ∈ used.
Proof.
  destruct (lowest_spec (S (length used)) used 0) as (Hle & Hall & Hor). fold r in Hle, Hall, Hor.
  pose proof (below_used used r Hle Hall). split; [|by auto]. destruct Hor as [Hr|]; [lia|done].
Qed.

(** ** What the scan of the exports finds *)
Lemma scan_spec l vol ini used :
  match scan_exports l vol ini used with
  | inl lun => ∃ e, e ∈ l ∧ e_InitiatorWWN e = ini ∧ e_VolName e = vol ∧ e_LUN e = lun
  | inr used' => ¬ exported vol ini l ∧ used' = reverse (e_LUN <$> of_initiator ini l) ++ used
  end.
Proof.
  unfold exported, of_initiator. revert used. induction l as [|e l IH]; intros used; simpl.
  { split; [|done]. intros (e & He & _). by apply elem_of_nil in He. }
  case_bool_decide as Hini; simpl.
  - case_bool_decide as Hvol; [exists e; by repeat split; [left|..]|].
    specialize (IH (e_LUN e :: used)). destruct (scan_exports l vol ini _) as [lun|used'].
    + destruct IH as (e' & He' & ?). exists e'. split; [by right|done].
    + destruct IH as [Hno ->]. split.
      * intros (e' & He' & Hi & Hv). apply elem_of_cons in He' as [->|He']; [done|]. apply Hno. eauto.
      * rewrite filter_cons_True, fmap_cons, reverse_cons, <-app_assoc by done. done.
  - specialize (IH used). destruct (scan_exports l vol ini _) as [lun|used'].
    + destruct IH as (e' & He' & ?). exists e'. split; [by right|done].
    + destruct IH as [Hno ->]. split.
      * intros (e' & He' & Hi & Hv). apply elem_of_cons in He' as [->|He']; [done|]. apply Hno. eauto.
      * by rewrite filter_cons_False.
Qed.
Lemma used_slots ini lun l : lun ∉ e_LUN <$> of_initiator ini l → (ini, lun) ∉ slot <$> l.
Proof.
  intros Hn Hin. apply Hn. apply list_elem_of_fmap in Hin as (e & Heq & He). unfold slot in Heq. simplify_eq.
  apply list_elem_of_fmap. exists e. split; [done|]. by apply list_elem_of_filter.
Qed.

(** ** Operations *)
Section server.
  Context {H : Type} `{Host H} `{Files H} `{Env H} `{!TargetdServer H}.
  Abbreviation S := (H * Z)%type.
  Abbreviation td A := (M S td_error A).
Definition exports_of (s : S) : list tdExport := exports s.1.

Lemma call_wp t method params (Q : S → res td_error (option json) → Prop) s :
  (∀ h' r0 r, httpDo (rpc_request t (s.2 + 1) method params) s.1 = (h', r0) →
     (∀ x, r = Ok x → ∃ resp, r0 = Ok resp ∧ reply resp = Ok x) → Q (h', (s.2 + 1)%Z) r) →
  wp (call t method params) Q s.
Proof.
  intros HQ. unfold wp, call. destruct (httpDo _ s.1) as [h' r0] eqn:Hh. eapply HQ; [done|].
  intros x Hx. destruct r0 as [resp|e]; [eauto|done].
Qed.
(** Exports are only taken away. *)
Definition shrinks (s s' : S) : Prop := exports_of s' `sublist_of` exports_of s.
#[local] Instance shrinks_preorder : PreOrder shrinks.
Proof. split; [intros s|intros s1 s2 s3 Ha Hb]; unfold shrinks in *; [done|by etrans]. Qed.
Lemma call_shrinks t method params : method ≠ "export_create" → Pres shrinks (call t method params).
Proof.
  intros Hm s. unfold call. destruct (httpDo _ s.1) as [h' r0] eqn:Hh. unfold shrinks, exports_of. simpl.
  destruct (decide (method ∈ ["export_destroy"; "vol_destroy"])) as [Hd|Hd]; [by eapply server_destroy|].
  eapply server_other in Hh as ->; [done|set_solver].
Qed.
Lemma call_into_shrinks {A} `{Wire A} t method params :
  method ≠ "export_create" → Pres shrinks (call_into (A := A) t method params).
Proof. intros Hm. unfold call_into. repeat pres_step. by apply call_shrinks. Qed.
Lemma call__shrinks t method params : method ≠ "export_create" → Pres shrinks (call_ t method params).
Proof. intros Hm. unfold call_. pres_step; [by apply call_shrinks|pres_step]. Qed.
Lemma revoke_shrinks t vol ini : Pres shrinks (revokeAccess t vol ini).
Proof. unfold revokeAccess. pres_step; [by apply call__shrinks|]. repeat pres_step. Qed.
Lemma delete_shrinks t name : Pres shrinks (deleteVolume t name).
Proof.
  unfold deleteVolume. pres_step; [by apply call_into_shrinks|]. pres_step.
  - induction a as [|e l IH]; simpl; [pres_step|]. pres_step; [|done]. pres_step; [apply revoke_shrinks|pres_step].
  - pres_step; [by apply call__shrinks|]. repeat pres_step.
Qed.
Lemma create_shrinks t name size : Pres shrinks (createVolume t name size).
Proof.
  unfold createVolume. pres_step; [by apply call__shrinks|]. repeat pres_step.
  unfold findVolume. pres_step; [by apply call_into_shrinks|pres_step].
Qed.

(** The exports a list call answers are those the server has. *)
Lemma listExports_wp t (Q : S → res td_error (list tdExport) → Prop) s :
  (∀ s' r, exports_of s' = exports_of s → (∀ l, r = Ok l → l = exports_of s) → Q s' r) → wp (listExports t) Q s.
Proof.
  intros HQ. unfold listExports, call_into. apply wp_bind, call_wp. intros h' r0 r Hh Hr.
  assert (exports h' = exports s.1) as He by (eapply server_other; [|exact Hh]; set_solver).
  destruct r as [x|e]; [|by apply HQ]. destruct (Hr x eq_refl) as (resp & -> & Hx).
  destruct (server_list _ _ _ _ _ Hh resp x eq_refl Hx) as (j & -> & Hj). rewrite Hj. apply wp_ret, HQ; [done|].
  intros l [= <-]. done.
Qed.
Lemma set_auth_wp t ini chap (Q : S → res td_error unit → Prop) s :
  (∀ s' r, exports_of s' = exports_of s → Q s' r) → wp (set_auth t ini chap) Q s.
Proof.
  intros HQ. unfold set_auth. destruct chap as [c|]; [|by apply wp_ret, HQ].
  apply wp_run_err. unfold call_. apply wp_bind, call_wp. intros h' r0 r Hh _.
  assert (exports h' = exports s.1) as He by (eapply server_other; [|exact Hh]; set_solver). destruct r; [apply wp_ret|]; by apply HQ.
Qed.

(** What a grant that succeeds has done: the volume is exported to the initiator under the
    LUN it answers; exports are left alone when it was already, and a new LUN is the
    smallest the initiator had free. *)
Definition granted (vol ini : string) (lun : Z) (before after : list tdExport) : Prop :=
  (∃ e, e ∈ after ∧ e_InitiatorWWN e = ini ∧ e_VolName e = vol ∧ e_LUN e = lun) ∧
  (exported vol ini before → after = before) ∧
  (¬ exported vol ini before →
     (0 ≤ lun ≤ Z.of_nat (length (of_initiator ini before)))%Z ∧
     (lun ∉ e_LUN <$> of_initiator ini before) ∧
     ∀ k, (0 ≤ k < lun)%Z → k ∈ e_LUN <$> of_initiator ini before).
Definition names_ok (t : tdManager) (vol ini : string) : Prop := utf8_ok ini ∧ utf8_ok vol ∧ utf8_ok (m_pool t).

Lemma grant_wp t vol ini chap s : names_ok t vol ini →
  wp (grantAccess t vol ini chap) (λ s' r,
    (luns_unique (exports_of s) → luns_unique (exports_of s')) ∧
    (∀ lun, r = Ok lun → granted vol ini lun (exports_of s) (exports_of s'))) s.
Proof.
  intros (Hi & Hv & Hp). unfold grantAccess. apply wp_bind, set_auth_wp. intros s1 r1 Hs1. destruct r1; [|by rewrite Hs1].
  apply wp_bind, listExports_wp. intros s2 r2 Hs2 Hl. rewrite Hs1 in *. destruct r2 as [l|e]; [|by rewrite Hs2].
  specialize (Hl l eq_refl). subst l. pose proof (scan_spec (exports_of s) vol ini []) as Hs.
  destruct (scan_exports _ _ _ _) as [lun|used].
  { apply wp_ret. rewrite Hs2. split; [done|]. intros ? [= <-]. destruct Hs as (e & ? & ? & ? & ?).
    split; [by exists e|]. split; [done|]. intros Hno. destruct Hno. by exists e. }
  destruct Hs as [Hno ->]. rewrite app_nil_r. set (used := reverse _).
  destruct (lowest_free used) as (Hfree & Hb & Hall). set (lun := lowest_unused _ used 0) in *.
  assert (∀ k, k ∈ used ↔ k ∈ e_LUN <$> of_initiator ini (exports_of s)) as Hused by (intros k; apply elem_of_reverse).
  assert (length used = length (of_initiator ini (exports_of s))) as Hlen.
  { unfold used. by rewrite length_reverse, length_fmap. }
  assert (∀ s3 sz, exports_of s3 = exports_of s ++ [mkExport ini lun vol (m_pool t) sz] →
    (luns_unique (exports_of s) → luns_unique (exports_of s3)) ∧ granted vol ini lun (exports_of s) (exports_of s3)) as Hafter.
  { intros s3 sz ->. split.
    - unfold luns_unique. rewrite fmap_app. intros Hn. apply NoDup_app. split; [done|]. split; [|apply NoDup_singleton].
      intros x Hx Hx'. apply list_elem_of_singleton in Hx' as ->. revert Hx. apply used_slots. by rewrite <-Hused.
    - split; [|split].
      + eexists. split; [apply elem_of_app; right; by apply list_elem_of_singleton|done].
      + intros Hex. by destruct Hno.
      + intros _. rewrite <-Hlen, <-Hused. repeat split; [lia..|done|]. intros k Hk. by apply Hused, Hall. }
  apply wp_bind. unfold call_. apply wp_bind, call_wp. intros h' r0 r Hh Hr.
  destruct (server_create _ _ _ _ _ _ _ _ Hi Hv Hp Hh) as [Hor Hok]. fold (exports_of s2) in Hor, Hok. rewrite Hs2 in *.
  assert (luns_unique (exports_of s) → luns_unique (exports h')) as Huniq.
  { destruct Hor as [->|[sz Hsz]]; [done|]. by apply (Hafter (h', 0%Z) sz). }
  destruct r as [x|e]; [|by split]. apply wp_ret. split; [done|]. intros ? [= <-].
  destruct (Hr x eq_refl) as (resp & -> & Hx). destruct (Hok resp x eq_refl Hx) as [sz Hsz]. by apply (Hafter (h', 0%Z) sz).
Qed.

(** The operations of the plugin on a target, in the order the lock lets them run. *)
Inductive access :=
  | Grant (t : tdManager) (vol ini : string) (chap : option chapCreds)
  | Revoke (t : tdManager) (vol ini : string)
  | Create (t : tdManager) (name : string) (size : Z)
  | Resize (t : tdManager) (name : string) (size : Z)
  | Delete (t : tdManager) (name : string).
Definition perform (a : access) : td unit :=
  match a with
  | Grant t vol ini chap => grantAccess t vol ini chap;; mret tt
  | Revoke t vol ini => revokeAccess t vol ini
  | Create t name size => createVolume t name size
  | Resize t name size => resizeVolume t name size
  | Delete t name => deleteVolume t name
  end.
Definition access_ok (a : access) : Prop := match a with Grant t vol ini _ => names_ok t vol ini | _ => True end.
Definition perform_all (ops : list access) (h : H) : H := foldl (λ h a, (perform a (h, 0%Z)).1.1) h ops.

Lemma perform_unique a h : access_ok a → luns_unique (exports h) → luns_unique (exports (perform a (h, 0%Z)).1.1).
Proof.
  intros Ha Hu. assert (∀ m : td unit, Pres shrinks m → luns_unique (exports (m (h, 0%Z)).1.1)) as Hsh.
  { intros m Hm. eapply luns_sublist; [apply (Hm (h, 0%Z))|done]. }
  destruct a as [t vol ini chap|t vol ini|t name size|t name size|t name]; simpl.
  - pose proof (grant_wp t vol ini chap (h, 0%Z) Ha) as Hw. unfold wp in Hw. unfold mbind, M_bind.
    destruct (grantAccess t vol ini chap (h, 0%Z)) as [s' [lun|e]]; by apply Hw.
  - apply Hsh, revoke_shrinks.
  - apply Hsh, create_shrinks.
  - apply Hsh. unfold resizeVolume. by apply call__shrinks.
  - apply Hsh, delete_shrinks.
Qed.

(** C20: LUNs never collide: from exports in which no initiator has two with the same LUN,
    any sequence of grants, revocations, creations, resizes and deletions, by any clients
    and for any pools, whether they succeed or fail half-way, leads to exports of the same
    kind. *)
Theorem luns_never_collide ops h :
  Forall access_ok ops → luns_unique (exports h) → luns_unique (exports (perform_all ops h)).
Proof.
  intros Hops. revert h. induction Hops as [|a ops Ha Hops IH]; intros h Hu; simpl; [done|].
  apply IH. by apply perform_unique.
Qed.

End server.

(** ** A server

    One that keeps its exports in a list and answers as targetd does. *)
#[global] Instance wire_laws_tdExport : WireLaws tdExport.
Proof.
  apply struct_laws. intros []. change (mkExport "" 0 "" "" 0) with (mkExport zero zero zero zero zero).
  cbv beta iota delta [read_tdExport e_InitiatorWWN e_LUN e_VolName e_Pool e_VolSize].
  wire_fields.
Qed.
#[global] Instance export_ok_dec (e : tdExport) : Decision (wire_ok e).
Proof. simpl. apply _. Defined.

Record server := mkServer { sv_exports : list tdExport; sv_files : strmap }.
Definition answers (j : json) : response :=
  mkResponse 200 (BJson (JObj [("jsonrpc", JStr "2.0"); ("id", JNum "1"); ("result", j); ("error", JNull)])).
Definition refuses (code message : string) : response :=
  mkResponse 200 (BJson (JObj [("jsonrpc", JStr "2.0"); ("id", JNum "1");
    ("error", JObj [("code", JNum code); ("message", JStr message)])])).
Definition rpc_of (b : payload) : option (string * list (string * json)) :=
  match b with BJson (JObj [_; _; (_, JStr m); (_, JObj ps)]) => Some (m, ps) | _ => None end.
Definition param (ps : list (string * json)) (k : string) : option json :=
  snd <$> List.find (λ p, bool_decide (p.1 = k)) ps.
Definition str_param (ps : list (string * json)) (k : string) : string :=
  match param ps k with Some (JStr s) => s | _ => "" end.
Definition num_param (ps : list (string * json)) (k : string) : option Z :=
  match param ps k with
  | Some (JNum lit) => match Atoi lit with Some n => if bool_decide (Itoa n = lit) then Some n else None | None => None end
  | _ => None
  end.
Definition serve (m : string) (ps : list (string * json)) (l : list tdExport) : list tdExport * response :=
  if bool_decide (m = "export_list") then
    (l, if bool_decide (Forall wire_ok l) then answers (enc l) else refuses "-32603" "internal error")
  else if bool_decide (m = "export_create") then
    match num_param ps "lun" with
    | Some lun => (l ++ [mkExport (str_param ps "initiator_wwn") lun (str_param ps "vol") (str_param ps "pool") 0], answers JNull)
    | None => (l, refuses "-32602" "invalid params")
    end
  else if bool_decide (m = "export_destroy") then
    (filter (λ e, (e_InitiatorWWN e, e_VolName e, e_Pool e) ≠
       (str_param ps "initiator_wwn", str_param ps "vol", str_param ps "pool")) l, answers JNull)
  else (l, answers JNull).
Definition unanswered : string := "connection refused".
#[global] Instance server_env : Env server := {|
  readFile p s := (s, match sv_files s !! p with Some d => Ok d | None => Err "no such file" end);
  getenv _ _ := ""; randRead n s := (s, Err unanswered); now _ := 0%Z;
  httpDo rq s :=
    match rpc_of (rq_body rq) with
    | Some (m, ps) => let '(l, resp) := serve m ps (sv_exports s) in (mkServer l (sv_files s), Ok resp)
    | None => (s, Err unanswered)
    end;
  kmipExchange _ _ s := (s, KDialFailed); pem_certs _ := true; key_pair _ _ s := (s, Ok tt);
  get_token _ _ := ("", 0%Z); put_token _ _ s := s; get_creds _ _ := (mkCreds "" "" "", 0%Z); put_creds _ _ s := s |}.

Lemma serve_http t id m ps s h' r : httpDo (rpc_request t id m ps) s = (h', r) →
  sv_exports h' = (serve m ps (sv_exports s)).1 ∧ r = Ok (serve m ps (sv_exports s)).2.
Proof. simpl. destruct (serve m ps (sv_exports s)) as [l resp]. by intros [= <- <-]. Qed.
Lemma reply_answers j : reply (answers j) = Ok (Some j).
Proof. done. Qed.
#[global] Program Instance a_server : TargetdServer server := {| exports := sv_exports |}.
Next Obligation.
  intros t id s h' r [_ Hr]%serve_http resp x Hresp Hx.
  assert (resp = (serve "export_list" [] (sv_exports s)).2) as Heq by congruence. rewrite Heq in Hx. clear Heq Hresp Hr.
  revert Hx. unfold serve. case_bool_decide as Hm; [|done]. cbn [snd]. case_bool_decide as Hok; [|by intros Hx].
  rewrite reply_answers. intros Hx. exists (enc (sv_exports s)). split; [congruence|].
  unfold decode. by rewrite (dec_enc (sv_exports s)).
Qed.
Next Obligation.
  intros t id ini lun vol s h' r Hi Hv Hp [-> ->]%serve_http. unfold serve. simpl. unfold utf8_ok in *.
  unfold num_param, str_param, param. simpl. rewrite Hi, Hv, Hp.
  destruct (Atoi (Itoa lun)) as [n|]; simpl; [|split; [by left|]; intros resp x [= <-]; done].
  case_bool_decide as Hn; simpl; [|split; [by left|]; intros resp x [= <-]; done].
  apply (inj (pretty (A := Z))) in Hn as ->. split; [right|intros resp x _ _]; by exists 0%Z.
Qed.
Next Obligation.
  intros t id m ps s h' r Hm [-> _]%serve_http. unfold serve.
  apply elem_of_cons in Hm as [->|Hm%list_elem_of_singleton]; [|subst]; simpl; [|done]. apply sublist_filter.
Qed.
Next Obligation.
  intros t id m ps s h' r Hm [-> _]%serve_http. unfold serve. case_bool_decide; [done|].
  rewrite !(bool_decide_eq_false_2 (m = _)) by set_solver. done.
Qed.

(** Two nodes and two volumes on a target: node [a] has LUN 0 taken. *)
Definition ex_manager : tdManager := mkManager "http://td:18700/targetrpc" "pool0" "iqn.2003-01.org.example:td" None.
Definition ex_server : server := mkServer [mkExport "iqn.a" 0 "bard-1" "pool0" 0; mkExport "iqn.a" 2 "bard-3" "pool0" 0] ∅.
Definition ex_ops : list access :=
  [Grant ex_manager "bard-2" "iqn.a" None; Grant ex_manager "bard-2" "iqn.b" None; Grant ex_manager "bard-4" "iqn.a" None;
   Revoke ex_manager "bard-1" "iqn.a"; Grant ex_manager "bard-5" "iqn.a" None].
Example ops_luns : map (λ e, (e_InitiatorWWN e, e_VolName e, e_LUN e)) (exports (perform_all ex_ops ex_server)) =
  [("iqn.a", "bard-3", 2%Z); ("iqn.a", "bard-2", 1%Z); ("iqn.b", "bard-2", 0%Z); ("iqn.a", "bard-4", 3%Z); ("iqn.a", "bard-5", 0%Z)].
Proof. vm_compute. reflexivity. Qed.
Lemma luns_never_collide_witness :
  Forall access_ok ex_ops ∧ luns_unique (exports ex_server) ∧ luns_unique (exports (perform_all ex_ops ex_server)).
Proof.
  assert (Forall access_ok ex_ops) as Hops by (repeat constructor).
  assert (luns_unique (exports ex_server)) as Hu.
  { unfold luns_unique. apply (bool_decide_unpack _). vm_compute. exact I. }
  split; [exact Hops|]. split; [exact Hu|]. exact (luns_never_collide ex_ops ex_server Hops Hu).
Defined.

(** An export of a volume of the same name in another pool is taken for the volume's: the
    grant answers its LUN, and the volume that was asked for is not exported. *)
Example grant_ignores_pool :
  let s := mkServer [mkExport "iqn.a" 0 "bard-1" "pool1" 0] ∅ in
  let s' := grantAccess ex_manager "bard-1" "iqn.a" None (s, 0%Z) in
  s'.2 = Ok 0%Z ∧ exports s'.1.1 = exports s.
Proof. vm_compute. done. Qed.
End targetdsafety.
