(* ===== verification/ISCSISessions.v ===== *)
(** * Sessions that staged volumes share (internal/iscsiplugin)

    On a targetd instance every volume is a LUN of one target, so the volumes a node has
    staged share a session, and the records of the state directory say who uses it.  The
    host is a parameter with the documented behaviour of iscsiadm and of files
    ([Initiator]): staging a volume gives it a session and takes none away, and unstaging
    one never ends the session of another.  Both hold for volumes with one portal; with
    more, the example [multipath_ends_session]. *)
From Stdlib Require Import Ascii.
From S2P Require Import Prelude GoStrings GoPath Json JsonText Protocol Sha256 Sha1 Host GoOs KMS RBDNode ISCSI Targetd ISCSIControl ISCSINode.

Module iscsisessions.
Import bardplugin jsontext iscsi targetd iscsicontrol iscsinode.

(** The target a command logs in to or out of. *)
Definition iscsiadm_args (name : string) (args : list string) : option (list string) :=
  if bool_decide (name = "iscsiadm") then Some args
  else if bool_decide (name = "chroot") then match args with _ :: a :: args => if bool_decide (a = "iscsiadm") then Some args else None | _ => None end
  else None.
Definition logout_target (name : string) (args : list string) : option string :=
  match iscsiadm_args name args with
  | Some [_; _; _; iqn; _; _; f] => if bool_decide (f = "--logout") then Some iqn else None
  | _ => None
  end.
Definition login_target (name : string) (args : list string) : option string :=
  match iscsiadm_args name args with
  | Some [_; _; _; iqn; _; _; _; _; f] => if bool_decide (f = "--login") then Some iqn else None
  | _ => None
  end.

Section initiator.
  Context {H : Type} `{Host H} `{Files H} `{TempFiles H} `{Env H} `{Clock H} `{NodeFiles H} (cfg : Config).

(** [records]: the files of the state directory that are no locks, by their path;
    [sessions]: the targets with a session. *)
Class Initiator := {
  records : H → strmap;
  sessions : H → gset string;
  same (h h' : H) := records h' = records h ∧ sessions h ⊆ sessions h';
  run_same name args h : logout_target name args = None → same h (Run name args h).1;
  run_logout name args iqn h : logout_target name args = Some iqn →
    records (Run name args h).1 = records h ∧ sessions h ∖ {[iqn]} ⊆ sessions (Run name args h).1;
  run_login name args iqn h : login_target name args = Some iqn →
    (match o_err (Run name args h).2 with None => True | Some e => isAlreadyLoggedIn e = true end) →
    iqn ∈ sessions (Run name args h).1;
  mkdir_same p m h : same h (MkdirAll p m h).1;
  sleep_same d h : same h (Sleep d h);
  links_same p h : same h (EvalSymlinks p h).1;
  lock_same p m h : same h (OpenLock p m h).1 ∧ same h (Flock p h).1 ∧ same h (Funlock p h) ∧ same h (CloseLock p h);
  read_same p h : same h (ReadFile p h).1;
  read_record p h d : records h !! p = Some d → (ReadFile p h).2 = Ok d;
  read_missing path h : records h !! statePath cfg path = None → is_Ok (ReadFile (statePath cfg path) h).2 = false;
  list_same h : same h (ReadDir (stateDir cfg) h).1;
  list_records h p d : records h !! p = Some d →
    match (ReadDir (stateDir cfg) h).2 with
    | Ok es => ∃ e, e ∈ es ∧ de_dir e = false ∧ has_prefix "lock-" (de_name e) = false ∧ Join [stateDir cfg; de_name e] = p
    | Err e => not_exist e = false
    end;
  list_only h es e : (ReadDir (stateDir cfg) h).2 = Ok es → e ∈ es → de_dir e = false →
    has_prefix "lock-" (de_name e) = false → is_Some (records h !! Join [stateDir cfg; de_name e]);
  write_record path (st : stagedState) m h : let h' := (WriteFile (statePath cfg path) (Marshal st) m h).1 in
    sessions h ⊆ sessions h' ∧
    (records h' = <[statePath cfg path := Marshal st]> (records h) ∨
     (records h' = records h ∧ (WriteFile (statePath cfg path) (Marshal st) m h).2 ≠ None));
  sysfs_same sd m h : same h (WriteFile (Join [sysfsRoot cfg; "class"; "block"; sd; "device"; "delete"]) "1" m h).1;
  remove_record path h : let h' := (Remove (statePath cfg path) h).1 in
    sessions h ⊆ sessions h' ∧ (records h' = delete (statePath cfg path) (records h) ∨ records h' = records h);
}.
End initiator.

Section node.
  Context {H : Type} `{Host H} `{Files H} `{TempFiles H} `{Env H} `{Clock H} `{NodeFiles H} (cfg : Config) `{I : !Initiator cfg}.
  Abbreviation op A := (M H perror A).
  Abbreviation recs := (records cfg).
  Abbreviation sess := (sessions cfg).

(** A record names the target as the one its volume is staged from. *)
Definition staged_on (h : H) (p iqn : string) : Prop :=
  ∃ d st, recs h !! p = Some d ∧ unmarshal d = Some st ∧ st_IQN st = iqn.

#[local] Instance same_preorder : PreOrder (same cfg).
Proof.
  split; [intros h|intros h1 h2 h3 [Ha Hb] [Hc Hd]]; unfold same; [by split|]. split; [by rewrite Hc|set_solver].
Qed.

(** ** What reads, and what runs other commands, changes no record and ends no session *)
Lemma run_pres name args : logout_target name args = None → Pres (same cfg) (run name args).
Proof. intros Hl h. unfold run. pose proof (run_same cfg name args h Hl). by destruct (Run name args h). Qed.
Lemma run_out_pres name args : logout_target name args = None → Pres (same cfg) (run_out name args).
Proof. intros Hl h. unfold run_out. pose proof (run_same cfg name args h Hl). by destruct (Run name args h). Qed.
Lemma run_or_pres fmt name args : logout_target name args = None → Pres (same cfg) (run_or fmt name args).
Proof. intros Hl. by apply Pres_run_err, run_pres. Qed.
Lemma run_unless_pres ben fmt name args : logout_target name args = None → Pres (same cfg) (run_unless ben fmt name args).
Proof. intros Hl. unfold run_unless. pres_step; [by apply run_pres|repeat pres_step]. Qed.
Lemma mkdir_pres fmt p m : Pres (same cfg) (mkdir_all fmt p m).
Proof. intros h. unfold mkdir_all. pose proof (mkdir_same cfg p m h). by destruct (MkdirAll p m h). Qed.
Lemma read_pres p : Pres (same cfg) (os_get (ReadFile p)).
Proof. intros h. apply read_same. Qed.
Lemma links_pres p : Pres (same cfg) (os_get (EvalSymlinks p)).
Proof. intros h. apply links_same. Qed.
Lemma state_pres p : Pres (same cfg) (read_state p).
Proof. unfold read_state. pres_step; [apply read_pres|pres_step]. Qed.
Lemma adm_no_logout args : (length args ≠ 7 ∨ last args ≠ Some "--logout") →
  logout_target (iscsiadm_cmd cfg args).1 (iscsiadm_cmd cfg args).2 = None.
Proof.
  intros Hargs. unfold iscsiadm_cmd, logout_target. case_bool_decide; simpl;
    do 8 (destruct args as [|? args]; simpl; try done); case_bool_decide; try done; subst; destruct Hargs; done.
Qed.
Ltac no_logout := apply adm_no_logout; first [by left|by right].
Lemma adm_unless_pres ben fmt args : (length args ≠ 7 ∨ last args ≠ Some "--logout") →
  Pres (same cfg) (iscsiadm_unless cfg ben fmt args).
Proof. intros Hargs. by apply run_unless_pres, adm_no_logout. Qed.
Lemma adm_try_pres args : (length args ≠ 7 ∨ last args ≠ Some "--logout") → Pres (same cfg) (iscsiadm_try cfg args).
Proof. intros Hargs. unfold iscsiadm_try. pres_step; [by apply run_out_pres, adm_no_logout|pres_step]. Qed.

(** ** Counting the records of a target *)
Lemma staged_same h h' p iqn : same cfg h h' → staged_on h p iqn → staged_on h' p iqn.
Proof. intros [Hr _] (d & st & Hd & Hst). exists d, st. by rewrite Hr. Qed.
Lemma staged_same' h h' p iqn : same cfg h h' → staged_on h' p iqn → staged_on h p iqn.
Proof. intros [Hr _] (d & st & Hd & Hst). exists d, st. by rewrite <-Hr. Qed.
(** A count that did not grow found no record among the entries, one that did found one. *)
Definition listed (h : H) (e : dirent) : Prop :=
  de_dir e = false → has_prefix "lock-" (de_name e) = false → is_Some (recs h !! Join [stateDir cfg; de_name e]).
Lemma listed_same h h' e : same cfg h h' → listed h e → listed h' e.
Proof. intros [Hr _] Hl. unfold listed. by rewrite Hr. Qed.
Lemma count_wp iqn exclude es c h : Forall (listed h) es →
  wp (count_records cfg iqn exclude es c) (λ h' r, same cfg h h' ∧ ∃ n, r = Ok n ∧ (c ≤ n)%Z ∧
    ((c < n)%Z → ∃ p, staged_on h p iqn) ∧
    (n = c → ∀ e, e ∈ es → de_dir e = false → has_prefix "lock-" (de_name e) = false →
       (exclude = "" ∨ Join [stateDir cfg; de_name e] ≠ exclude) → ¬ staged_on h (Join [stateDir cfg; de_name e]) iqn)) h.
Proof.
  revert c h. induction es as [|e es IH]; intros c h Hes; simpl.
  { apply wp_ret. split; [done|]. exists c. split; [done|]. split; [lia|]. split; [lia|]. intros _ e He. by apply elem_of_nil in He. }
  apply Forall_cons in Hes as [He Hes].
  set (full := Join [stateDir cfg; de_name e]). destruct (_ || _ || _) eqn:Hskip.
  { eapply wp_mono; [by apply IH|]. intros h' r (Hs & n & -> & Hn & Hsome & Hnone). split; [done|]. exists n. split; [done|]. split; [done|].
    split; [done|]. intros -> e' He' Hdir Hlock Hex. apply elem_of_cons in He' as [->|He']; [|by apply Hnone].
    rewrite Hdir, Hlock in Hskip. simpl in Hskip. apply andb_true_iff in Hskip as [Hne Heq].
    apply bool_decide_eq_true_1 in Heq. apply negb_true_iff, bool_decide_eq_false_1 in Hne. by destruct Hex. }
  apply orb_false_iff in Hskip as [[Hed Hel]%orb_false_iff _]. destruct (He Hed Hel) as [d0 Hd0]. fold full in Hd0.
  apply wp_bind. unfold read_state. apply wp_catch. unfold wp, os_get. pose proof (read_same cfg full h) as Hsame.
  pose proof (read_record cfg full h d0 Hd0) as Hread. destruct (ReadFile full h) as [h1 r1]. cbn [fst snd] in *. subst r1.
  unfold mret, M_ret.
  set (c1 := match _ with Some st => if bool_decide (st_IQN st = iqn) then (c + 1)%Z else c | None => c end).
  assert (Forall (listed h1) es) as Hes1 by (eapply Forall_impl; [exact Hes|]; intros x; by apply listed_same).
  pose proof (IH c1 h1 Hes1) as IH1.
  unfold wp in IH1. destruct (count_records _ _ _ _ _ h1) as [h2 r2]. destruct IH1 as (Hs1 & n & -> & Hn & Hsome & Hnone).
  split; [by etrans|]. exists n. split; [done|].
  assert (c1 = c ∨ (c1 = (c + 1)%Z ∧ staged_on h full iqn)) as Hc1.
  { unfold c1. destruct (unmarshal d0) as [st|] eqn:Hu; [|by left]. case_bool_decide; [right|by left]. split; [done|]. by exists d0, st. }
  split; [destruct Hc1 as [|[]]; lia|]. split.
  - intros Hlt. destruct Hc1 as [Hc|[_ Hst]]; [|by exists full]. destruct Hsome as [p Hp]; [lia|]. exists p. by eapply staged_same'.
  - intros -> e' He' Hdir Hlock Hex Hst. apply elem_of_cons in He' as [->|He'].
    + destruct Hst as (d & st' & Hd & Hu & Hi). fold full in Hd. simplify_eq. unfold c1 in Hn. rewrite Hu, bool_decide_eq_true_2 in Hn by done. lia.
    + eapply Hnone; [destruct Hc1 as [|[]]; lia|done..|]. by eapply staged_same.
Qed.
Lemma others_wp iqn path h : stateDir cfg ≠ "" →
  wp (otherRecordsForIQN cfg iqn path) (λ h' r, same cfg h h' ∧
    ∀ n, r = Ok n → ((0 < n)%Z → ∃ p, staged_on h p iqn) ∧
      ((n ≤ 0)%Z → ∀ p, p ≠ statePath cfg path → ¬ staged_on h p iqn)) h.
Proof.
  intros Hdir. unfold otherRecordsForIQN. rewrite bool_decide_eq_false_2 by done. apply wp_catch. unfold wp at 1, os_get.
  pose proof (list_same cfg h) as Hs. pose proof (list_records cfg h) as Hl. pose proof (list_only cfg h) as Ho.
  destruct (ReadDir _ h) as [h1 r1]. cbn [fst snd] in *. destruct r1 as [es|e].
  - assert (Forall (listed h1) es) as Hes.
    { apply Forall_forall. intros e He. eapply listed_same; [exact Hs|]. intros Hd Hlk. by eapply Ho. }
    eapply wp_mono; [by apply count_wp|]. intros h2 r (Hs2 & n & -> & Hn & Hsome & Hnone). split; [by etrans|]. intros n' [= <-]. split.
    + intros Hlt. destruct (Hsome Hlt) as [p Hp]. exists p. by eapply staged_same'.
    + intros Hle p Hp Hst. pose proof Hst as (d & st & Hd & _). destruct (Hl p d Hd) as (e & He & Hedir & Helock & <-).
      eapply Hnone; [lia|done..| |by eapply staged_same]. case_bool_decide; [by left|by right].
  - destruct (not_exist e) eqn:Hne; [|by apply wp_fail]. apply wp_ret. split; [done|]. intros n [= <-]. split; [lia|].
    intros _ p Hp (d & st & Hd & _). specialize (Hl p d Hd). simpl in Hl. congruence.
Qed.

(** ** Unstaging

    [keeps own h h']: a volume other than the one recorded at [own] that was staged and had
    its session is still staged and has it still. *)
Definition keeps (own : string) (h h' : H) : Prop :=
  ∀ p iqn, p ≠ own → staged_on h p iqn → iqn ∈ sess h → staged_on h' p iqn ∧ iqn ∈ sess h'.
#[local] Instance keeps_preorder own : PreOrder (keeps own).
Proof.
  split; [by intros h p iqn|]. intros h1 h2 h3 Ha Hb p iqn Hp Hs Hi. destruct (Ha p iqn Hp Hs Hi). by apply Hb.
Qed.
Lemma same_keeps own h h' : same cfg h h' → keeps own h h'.
Proof. intros Hs p iqn _ Hst Hi. split; [by eapply staged_same|]. destruct Hs as [_ Hs]. set_solver. Qed.
Lemma Pres_keeps {E A} own (m : M H E A) : Pres (same cfg) m → Pres (keeps own) m.
Proof. intros Hm h. by apply same_keeps. Qed.
Lemma clear_keeps path : Pres (keeps (statePath cfg path)) (clearState cfg path).
Proof.
  unfold clearState. pres_step; [pres_step|]. intros h. unfold os_try. simpl. destruct (remove_record cfg path h) as [Hs Hr].
  intros p iqn Hp (d & st & Hd & Hst) Hi. split; [|set_solver]. exists d, st. split; [|done].
  destruct Hr as [Hr|Hr]; rewrite Hr; [by rewrite lookup_delete_ne|done].
Qed.
Lemma detach_device_keeps own dev : Pres (keeps own) (detach_device cfg dev).
Proof.
  apply Pres_keeps. unfold detach_device. pres_step; [pres_step|]. pres_step; [apply Pres_run_err, links_pres|].
  apply Pres_run_err. intros h. unfold os_unit. pose proof (sysfs_same cfg (Base a) 384 h). by destruct (WriteFile _ _ _ h).
Qed.
Lemma verify_keeps own iqn dev : Pres (keeps own) (verify_logout cfg iqn dev).
Proof.
  apply Pres_keeps. unfold verify_logout. pres_step.
  - pres_step; [|pres_step]. apply Pres_run_err. unfold sessionActiveForIQN. pres_step; [|repeat pres_step].
    apply run_pres. no_logout.
  - unfold check_gone, size_of. pres_step; [by apply run_out_pres|pres_step].
Qed.
(** A logout when no other record names the target. *)
Lemma logout_keeps own fmt iqn portal h : (∀ p, p ≠ own → ¬ staged_on h p iqn) →
  keeps own h (logout cfg fmt iqn portal h).1.
Proof.
  intros Hno. unfold logout, iscsiadm_unless, run_unless, catch, run.
  set (c := iscsiadm_cmd cfg _). assert (logout_target c.1 c.2 = Some iqn) as Hl.
  { unfold c, iscsiadm_cmd, logout_target. by case_bool_decide. }
  destruct (run_logout cfg c.1 c.2 iqn h Hl) as [Hr Hs]. destruct (Run c.1 c.2 h) as [h1 o]. cbn [fst] in Hr, Hs.
  assert (keeps own h h1) as Hk.
  { intros p iqn' Hp Hst Hi. split; [destruct Hst as (d & st & Hd & ?); exists d, st; by rewrite Hr|].
    apply Hs. apply elem_of_difference. split; [done|]. rewrite elem_of_singleton. intros ->. by eapply Hno. }
  destruct (o_err o) as [e|]; [destruct (isNotFound e)|]; apply Hk.
Qed.
Lemma detach_keeps path iqn portal dev : stateDir cfg ≠ "" → Pres (keeps (statePath cfg path)) (detach cfg path iqn portal dev).
Proof.
  intros Hdir h. unfold detach, mbind at 1, M_bind. pose proof (others_wp iqn path h Hdir) as Hw. unfold wp in Hw.
  destruct (otherRecordsForIQN cfg iqn path h) as [h1 [n|e]]; destruct Hw as [Hs Hno]; [|by apply same_keeps].
  etrans; [by apply same_keeps|]. destruct (0 <? n)%Z eqn:Hn.
  - revert h1 Hs. intros h1 _. revert h1. change (Pres (keeps (statePath cfg path)) (detach_device cfg dev;; clearState cfg path)).
    pres_step; [apply detach_device_keeps|apply clear_keeps].
  - apply Z.ltb_ge in Hn. assert (∀ p, p ≠ statePath cfg path → ¬ staged_on h1 p iqn) as Hno1.
    { intros p Hp Hst. destruct (Hno n eq_refl) as [_ Hnone]. eapply (Hnone Hn p Hp). by eapply staged_same'. }
    pose proof (logout_keeps (statePath cfg path) "iscsi: logout %s: %w" iqn portal h1 Hno1) as Hk.
    unfold mbind, M_bind. destruct (logout cfg _ iqn portal h1) as [h2 [[]|e]]; [|done]. etrans; [exact Hk|].
    revert h2 Hk. intros h2 _. revert h2.
    change (Pres (keeps (statePath cfg path)) (verify_logout cfg iqn dev;; forget_node cfg iqn portal;; clearState cfg path)).
    pres_step; [apply verify_keeps|]. pres_step; [|apply clear_keeps]. apply Pres_keeps, adm_try_pres. by right.
Qed.
(** Taking and giving back the lock changes nothing. *)
Lemma lock_keeps own iqn (fn : op unit) : Pres (keeps own) fn → Pres (keeps own) (withTargetLock cfg iqn fn).
Proof.
  intros Hfn. unfold withTargetLock. pres_step; [done|]. pres_step; [apply Pres_keeps, mkdir_pres|].
  pres_step.
  { apply Pres_run_err, Pres_keeps. intros h. unfold os_unit. destruct (lock_same cfg (lock_path cfg iqn) 384 h) as (Ho & _).
    by destruct (OpenLock _ _ h). }
  pres_step.
  { apply Pres_run_err, Pres_keeps. intros h. unfold os_unit. destruct (lock_same cfg (lock_path cfg iqn) 384 h) as (_ & Ho & _).
    by destruct (Flock _ h). }
  destruct r as [[]|e]; intros h.
  - specialize (Hfn h). destruct (fn h) as [h1 x]. cbn [fst] in *. etrans; [exact Hfn|].
    destruct (lock_same cfg (lock_path cfg iqn) 0 h1) as (_ & _ & Hu & _).
    destruct (lock_same cfg (lock_path cfg iqn) 0 (Funlock (lock_path cfg iqn) h1)) as (_ & _ & _ & Hc).
    apply same_keeps. by etrans.
  - destruct (lock_same cfg (lock_path cfg iqn) 0 h) as (_ & _ & _ & Hc). by apply same_keeps.
Qed.

(** The volume has one portal: in its record, and where that is lost, in its instance. *)
Definition one_portal (req : NodeUnstageRequest) (h : H) : Prop :=
  (∀ d st, recs h !! statePath cfg (NodeUnstageRequest_StagingPath req) = Some d → unmarshal d = Some st → many (st_Portals st) = false) ∧
  many (portalList (instance_of cfg (VolumeRef_Instance (NodeUnstageRequest_Volume req)))) = false.
Lemma load_wp path h : wp (loadState cfg path) (λ h' r, same cfg h h' ∧ ∀ st, r = Ok (Some st) →
    ∃ d, recs h !! statePath cfg path = Some d ∧ unmarshal d = Some st) h.
Proof.
  unfold loadState. case_bool_decide; [by apply wp_ret|]. unfold read_state. apply wp_catch. unfold wp, os_get.
  pose proof (read_same cfg (statePath cfg path) h) as Hs. pose proof (read_record cfg (statePath cfg path) h) as Hr.
  pose proof (read_missing cfg path h) as Hm. destruct (ReadFile _ h) as [h1 r1]. cbn [fst snd] in *. split; [done|]. intros st [= Hst].
  destruct (recs h !! statePath cfg path) as [d|]; [|specialize (Hm eq_refl); by destruct r1].
  exists d. split; [done|]. by rewrite (Hr d eq_refl) in Hst.
Qed.
Lemma single_keeps req iqn portal dev : stateDir cfg ≠ "" →
  Pres (keeps (statePath cfg (NodeUnstageRequest_StagingPath req))) (unstageSingleTarget cfg req iqn portal dev).
Proof. intros Hdir. by apply lock_keeps, detach_keeps. Qed.

(** ** Staging *)
Lemma iface_pres ini : Pres (same cfg) (ensureIface cfg ini).
Proof.
  unfold ensureIface. pres_step; [apply run_pres; no_logout|]. pres_step; [pres_step; [pres_step|]|].
  - apply adm_unless_pres. by left.
  - pres_step; apply adm_unless_pres; by left.
Qed.
Lemma device_pres dev : Pres (same cfg) (waitForDevice dev).
Proof.
  unfold waitForDevice. pres_step; [pres_step|]. generalize (a + deadline_ns)%Z as deadline. generalize wait_fuel as fuel. clear a.
  intros fuel deadline. induction fuel as [|fuel IH]; simpl; [pres_step|]. pres_step.
  - unfold device_ready, size_of. pres_step; [by apply run_out_pres|pres_step].
  - repeat pres_step; [|done]. apply Pres_modify. intros h. apply sleep_same.
Qed.
Lemma chap_pres i : Pres (same cfg) (chapFor cfg i).
Proof. unfold chapFor. pres_step; [pres_step|]. pres_step; [apply Pres_run_err, read_pres|]. repeat pres_step. Qed.
Lemma set_chap_pres iqn portal c : Pres (same cfg) (setChapOnNode cfg iqn portal c).
Proof.
  unfold setChapOnNode. induction (chap_params c) as [|p l IH]; simpl; [pres_step|]. pres_step; [|done].
  apply Pres_run_err, run_pres. no_logout.
Qed.
Lemma fs_pres req dev : Pres (same cfg) (stage_filesystem req dev).
Proof.
  unfold stage_filesystem, ensureFormatted, mounted, growFilesystem.
  repeat first [pres_step | apply mkdir_pres | apply run_out_pres; reflexivity | apply run_or_pres; reflexivity].
Qed.
(** A login that succeeds, or finds itself done, leaves a session. *)
Lemma login_wp iqn portal h :
  wp (login cfg iqn portal) (λ h' r, same cfg h h' ∧ (r = Ok tt → iqn ∈ sess h')) h.
Proof.
  unfold login, iscsiadm_unless, run_unless. apply wp_catch. unfold wp, run. set (c := iscsiadm_cmd cfg _).
  assert (login_target c.1 c.2 = Some iqn) as Hl by (unfold c, iscsiadm_cmd, login_target; by case_bool_decide).
  assert (logout_target c.1 c.2 = None) as Hn by no_logout.
  pose proof (run_same cfg c.1 c.2 h Hn) as Hs. pose proof (run_login cfg c.1 c.2 iqn h Hl) as Hi.
  destruct (Run c.1 c.2 h) as [h1 o]. cbn [fst snd] in *. destruct (o_err o) as [e|]; [destruct (isAlreadyLoggedIn e)|]; simpl; (split; [done|]); auto; done.
Qed.
(** Every staged volume has its session. *)
Definition coherent (h : H) : Prop := ∀ p iqn, staged_on h p iqn → iqn ∈ sess h.
Lemma coherent_same h h' : same cfg h h' → coherent h → coherent h'.
Proof. intros Hs Hc p iqn Hst. assert (iqn ∈ sess h) as Hi by (eapply Hc, staged_same'; eauto). destruct Hs. set_solver. Qed.
Lemma wp_same {E A} (m : M H E A) (Q : H → res E A → Prop) h :
  Pres (same cfg) m → (∀ h' r, same cfg h h' → Q h' r) → wp m Q h.
Proof. intros Hm HQ. unfold wp. specialize (Hm h). destruct (m h). by apply HQ. Qed.
Lemma discover_pres portal : Pres (same cfg) (discover cfg portal).
Proof. apply adm_unless_pres. by left. Qed.
Lemma rescan_pres : Pres (same cfg) (rescan cfg).
Proof. apply adm_unless_pres. by left. Qed.
Lemma chap_on_node_pres iqn portal chap :
  Pres (same cfg) (match chap with Some c => setChapOnNode cfg iqn portal c | None => mret tt end).
Proof. pres_step; [apply set_chap_pres|pres_step]. Qed.
Ltac steps_same := repeat (etrans; [eassumption|]); done.
Lemma attach_wp i iqn portal dev h : stateDir cfg ≠ "" → coherent h →
  wp (attach cfg i iqn portal dev) (λ h' r, same cfg h h' ∧ (r = Ok tt → iqn ∈ sess h')) h.
Proof.
  intros Hdir Hc. unfold attach. apply wp_bind. eapply wp_mono; [by apply others_wp|]. intros h1 r [Hs Hn].
  destruct r as [n|e]; [|by split]. destruct (Hn n eq_refl) as [Hsome _]. apply wp_bind.
  eapply (wp_mono _ (λ h2 r, same cfg h h2 ∧ (r = Ok tt → iqn ∈ sess h2))).
  2: { intros h2 [[]|e] [Hs2 Hi]; [|by split]. specialize (Hi eq_refl). apply wp_same; [apply device_pres|].
       intros h3 r3 Hs3. split; [steps_same|]. intros _. destruct Hs3. set_solver. }
  destruct (0 <? n)%Z eqn:Hlt.
  - apply wp_same; [apply rescan_pres|]. intros h2 r2 Hs2. split; [steps_same|]. intros _.
    destruct (Hsome ltac:(lia)) as [p Hp]. specialize (Hc p iqn Hp). destruct Hs, Hs2. set_solver.
  - apply wp_bind, wp_same; [apply discover_pres|]. intros h2 [[]|e] Hs2; [|by split; [steps_same|]].
    apply wp_bind, wp_same; [apply chap_pres|]. intros h3 [chap|e] Hs3; [|by split; [steps_same|]].
    apply wp_bind, wp_same; [apply chap_on_node_pres|]. intros h4 [[]|e] Hs4; [|by split; [steps_same|]].
    eapply wp_mono; [apply login_wp|]. intros h5 r5 [Hs5 Hi5]. split; [steps_same|done].
Qed.
Lemma lock_wp iqn (fn : op unit) (Q : H → res perror unit → Prop) h :
  (∀ h' e, same cfg h h' → Q h' (Err e)) →
  (∀ h1, same cfg h h1 → wp fn (λ h2 r, ∀ h3, same cfg h2 h3 → Q h3 r) h1) → wp (withTargetLock cfg iqn fn) Q h.
Proof.
  intros He Hfn. unfold withTargetLock. case_bool_decide.
  { eapply wp_mono; [by apply Hfn|]. intros h2 r HQ. by apply HQ. }
  apply wp_bind, wp_same; [apply mkdir_pres|]. intros h1 [[]|e] Hs1; [|by apply He].
  apply wp_bind, wp_same.
  { apply Pres_run_err. intros h'. unfold os_unit. destruct (lock_same cfg (lock_path cfg iqn) 384 h') as (Ho & _). by destruct (OpenLock _ _ h'). }
  intros h2 [[]|e] Hs2; [|apply He; steps_same]. apply wp_catch, wp_same.
  { apply Pres_run_err. intros h'. unfold os_unit. destruct (lock_same cfg (lock_path cfg iqn) 384 h') as (_ & Ho & _). by destruct (Flock _ h'). }
  intros h3 [[]|e] Hs3; unfold wp.
  - assert (same cfg h h3) as Hs by steps_same. specialize (Hfn h3 Hs). unfold wp in Hfn. destruct (fn h3) as [h4 r]. apply Hfn.
    destruct (lock_same cfg (lock_path cfg iqn) 0 h4) as (_ & _ & Hu & _).
    destruct (lock_same cfg (lock_path cfg iqn) 0 (Funlock (lock_path cfg iqn) h4)) as (_ & _ & _ & Hcl). by etrans.
  - destruct (lock_same cfg (lock_path cfg iqn) 0 h3) as (_ & _ & _ & Hcl). apply He. steps_same.
Qed.

(** The record of a volume with one portal, as it is written and read. *)
Definition plain_record (dev iqn portal : string) : stagedState := mkStaged dev iqn portal [] [] "".
Lemma plain_text dev iqn portal : Forall utf8_ok [dev; iqn; portal] →
  unmarshal (Marshal (plain_record dev iqn portal)) = Some (plain_record dev iqn portal).
Proof.
  intros Hok. rewrite !Forall_cons in Hok. destruct Hok as (Hd & Hi & Hp & _). unfold unmarshal, Unmarshal, Marshal.
  rewrite parse_print.
  - simpl. unfold utf8_ok in *. by rewrite Hd, Hi, Hp.
  - simpl. rewrite Hd, Hi, Hp. repeat split; try done.
Qed.
Lemma record_wp path dev iqn portal h : stateDir cfg ≠ "" → Forall utf8_ok [dev; iqn; portal] → coherent h → iqn ∈ sess h →
  wp (recordState cfg path (plain_record dev iqn portal))
    (λ h' r, coherent h' ∧ (r = Ok tt → staged_on h' (statePath cfg path) iqn)) h.
Proof.
  intros Hdir Hok Hc Hi. unfold recordState. rewrite bool_decide_eq_false_2 by done.
  apply wp_bind, wp_same; [apply mkdir_pres|]. intros h1 [[]|e] Hs1; [|split; [by eapply coherent_same|done]].
  apply wp_run_err. unfold wp, os_unit. destruct (write_record cfg path (plain_record dev iqn portal) 384 h1) as [Hs Hr].
  remember (Marshal (plain_record dev iqn portal)) as d eqn:Hd0. destruct (WriteFile (statePath cfg path) d 384 h1) as [h2 o]. cbn [fst snd] in *.
  assert (coherent h1) as Hc1 by by eapply coherent_same.
  destruct Hr as [Hr|[Hr Ho]].
  - assert (staged_on h2 (statePath cfg path) iqn) as Hst.
    { exists d, (plain_record dev iqn portal). rewrite Hr, lookup_insert_eq. split; [done|]. split; [by rewrite Hd0, plain_text|done]. }
    split; [|done]. intros p iqn' (d' & st & Hd & Hu & <-). rewrite Hr in Hd. destruct Hs1 as [_ Hs1].
    destruct (decide (p = statePath cfg path)) as [->|Hne].
    + rewrite lookup_insert_eq in Hd. injection Hd as <-. rewrite Hd0, plain_text in Hu by done. injection Hu as <-. simpl. set_solver.
    + rewrite lookup_insert_ne in Hd by done. apply Hs, (Hc1 p). by exists d', st.
  - split; [|intros Hk; destruct o; done]. intros p iqn' (d' & st & Hd & Hu & <-). rewrite Hr in Hd. apply Hs, (Hc1 p). by exists d', st.
Qed.

(** A staged volume has its session: staging a volume with one portal, from a state in
    which every recorded volume has a session to its target, leads to such a state however
    the call ends; and when it succeeds the volume is recorded, under the target it was
    told. *)
Theorem stage_gives_session req ic h (pc := NodeStageRequest_PublishContext req)
    (portal := or_default (mget pc ctxPortal) (default "" (head (portalList ic)))) (iqn := stage_iqn req ic) :
  stateDir cfg ≠ "" → inst cfg (VolumeRef_Instance (NodeStageRequest_Volume req)) = Ok ic → many (multipathPortals pc ic) = false →
  Forall utf8_ok [byPath cfg portal iqn (stage_lun req); iqn; portal] → coherent h →
  coherent (NodeStage cfg req h).1 ∧
  ((NodeStage cfg req h).2 = Ok tt → staged_on (NodeStage cfg req h).1 (statePath cfg (NodeStageRequest_StagingPath req)) iqn).
Proof.
  intros Hdir Hic Hone Hok Hc. set (own := statePath cfg _).
  assert (wp (NodeStage cfg req) (λ h' r, coherent h' ∧ (r = Ok tt → staged_on h' own iqn)) h) as Hw.
  2: { unfold wp in Hw. by destruct (NodeStage cfg req h). }
  unfold NodeStage. cbv zeta. rewrite Hic. apply wp_bind, wp_lift. cbv iota beta. fold pc. rewrite Hone. fold portal iqn.
  assert (∀ h' (e : perror), same cfg h h' → coherent h' ∧ (@Err perror unit e = Ok tt → staged_on h' own iqn)) as Herr.
  { intros h' e Hs. split; [by eapply coherent_same|done]. }
  apply wp_bind, wp_same; [apply iface_pres|]. intros h1 [[]|e] Hs1; [|by apply Herr].
  apply wp_bind, lock_wp; [intros; apply Herr; steps_same|]. intros h2 Hs2.
  assert (same cfg h h2) as Hs by steps_same. eapply wp_mono; [apply attach_wp; [done|by eapply coherent_same]|].
  intros h3 r3 [Hs3 Hi] h4 Hs4. assert (same cfg h h4) as Hs04 by steps_same. destruct r3 as [[]|e]; [|by apply Herr].
  apply wp_bind. eapply wp_mono; [apply record_wp; [done..|by eapply coherent_same|]|].
  { specialize (Hi eq_refl). destruct Hs4. set_solver. }
  intros h5 r5 [Hc5 Hst5]. destruct r5 as [[]|e]; [|by split]. apply wp_same; [apply fs_pres|]. intros h6 r6 Hs6.
  split; [by eapply coherent_same|]. intros _. eapply staged_same; [exact Hs6|by apply Hst5].
Qed.
End node.
End iscsisessions.
