(* ===== verification/ISCSIBench.v ===== *)
(** * A node to run the iSCSI plugin on (internal/iscsiplugin)

    A concrete host: files, the sessions iscsiadm has, a clock, and a device for every LUN of
    a target with a session.  It keeps the laws of [Initiator], and runs the examples. *)
From Stdlib Require Import Ascii.
From S2P Require Import Prelude GoStrings GoPath Json JsonText Protocol Sha256 Sha1 Host GoOs KMS RBDNode ISCSI Targetd ISCSIControl ISCSINode ISCSISessions.

Module iscsibench.
Import bardplugin jsontext iscsi targetd iscsicontrol iscsinode iscsisessions.

Record node := mkNode { n_files : strmap; n_sessions : gset string; n_clock : Z; n_log : list (string * list string) }.
Definition with_n_files (f : strmap → strmap) (n : node) : node := mkNode (f (n_files n)) (n_sessions n) (n_clock n) (n_log n).
Definition missing : os_error := mkOsError true "no such file".
(** A device is there when its name has the name of a target with a session. *)
Definition attached (n : node) (dev : string) : bool := existsb (λ t, contains t dev) (base.elements (n_sessions n)).
Definition answer_of (n : node) (name : string) (args : list string) : output :=
  if bool_decide (name = "blockdev") then mkOutput (if attached n (default "" (last args)) then "1073741824" else "") None
  else if bool_decide (name = "lvs") then mkOutput "1073741824" None
  else if bool_decide (name = "blkid") then mkOutput "ext4" None
  else if bool_decide (name = "dmsetup") then mkOutput "" (Some "device does not exist")
  else mkOutput "" None.
Definition sessions_after (n : node) (name : string) (args : list string) : gset string :=
  match login_target name args, logout_target name args with
  | Some iqn, _ => {[iqn]} ∪ n_sessions n
  | None, Some iqn => n_sessions n ∖ {[iqn]}
  | None, None => n_sessions n
  end.
#[global] Instance node_host : Host node := {|
  Run name args n := (mkNode (n_files n) (sessions_after n name args) (n_clock n) (n_log n ++ [(name, args)]), answer_of n name args);
  MkdirAll _ _ n := (n, None); UnixNow n := (n_clock n / 1000000000)%Z |}.
Definition ex_stateDir : string := "/state".
(** The files of the state directory that are no locks. *)
Definition is_record (p : string) : bool :=
  bool_decide (Join [ex_stateDir; Base p] = p) && negb (has_prefix "lock-" (Base p)).
Definition node_records (n : node) : strmap := filter (λ x, is_record x.1 = true) (n_files n).
#[global] Instance node_files : Files node := {|
  MkdirTemp _ p n := (n, Ok p);
  Remove p n := (with_n_files (delete p) n, None); RemoveAll p n := (with_n_files (delete p) n, None);
  Rename p q n := (n, None);
  ReadFile p n := (n, match n_files n !! p with Some d => Ok d | None => Err missing end);
  WriteFile p d _ n := (if bool_decide (d = "1") then n else with_n_files <[p := d]> n, None);   (* 1 goes to sysfs *)
  Stat p n := (n, match n_files n !! p with Some d => Ok 420%Z | None => Err missing end);
  ReadDir _ n := (n, Ok (map (λ x, mkDirent (Base x.1) false (Some 0%Z)) (map_to_list (node_records n))));
  Chmod _ _ n := (n, None); Statfs _ n := (n, Err missing) |}.
#[global] Instance node_temps : TempFiles node := {|
  IsDir _ n := (n, true); CreateTemp d p n := (n, Ok (d +:+ "/" +:+ p)); WriteString _ _ n := (n, None); OpenCreate _ _ n := (n, None) |}.
Definition no_answer : string := "connection refused".
#[global] Instance node_env : Env node := {|
  readFile p n := (n, match n_files n !! p with Some d => Ok d | None => Err "no such file" end);
  getenv _ _ := ""; randRead k n := (n, Err no_answer); now := n_clock; httpDo _ n := (n, Err no_answer);
  kmipExchange _ _ n := (n, KDialFailed); pem_certs _ := true; key_pair _ _ n := (n, Ok tt);
  get_token _ _ := ("", 0%Z); put_token _ _ n := n; get_creds _ _ := (mkCreds "" "" "", 0%Z); put_creds _ _ n := n |}.
#[global] Instance node_clock : Clock node := {|
  Sleep d n := mkNode (n_files n) (n_sessions n) (n_clock n + d)%Z (n_log n); ctx_done _ := false |}.
#[global] Instance node_links : NodeFiles node := {|
  EvalSymlinks p n := (n, Ok "/dev/sda"); Lstat _ n := (n, None);
  OpenLock _ _ n := (n, None); Flock _ n := (n, None); Funlock _ n := n; CloseLock _ n := n |}.

(** ** The laws *)
Definition ex_instance : InstanceConfig := mkInstanceConfig "vg0" "10.0.0.1:3260" [] "" "" false "" "" "" "".
Definition td_instance : InstanceConfig := mkInstanceConfig "" "10.0.0.1:3260" [] "" "" false "targetd" "http://td" "pool0" "iqn.td".
Definition mp_instance : InstanceConfig :=
  mkInstanceConfig "" "" ["10.0.0.1:3260"; "10.0.0.2:3260"] "" "" false "targetd" "http://td" "pool0" "iqn.td".
Definition ex_config : Config :=
  New {["local" := ex_instance; "td" := td_instance; "mp" := mp_instance]} "node1" ex_stateDir "/chap" "/td" "".

Lemma hex_plain bs : bs ≠ [] → plain (sha256.hex bs) = true ∧ has_prefix "lock-" (sha256.hex bs) = false.
Proof.
  intros Hne. pose proof (sha256.hex_chars bs) as Hc. pose proof (sha256.hex_length bs) as Hl.
  assert (∀ c, sha256.is_hex c = false → contains_char c (sha256.hex bs) = false) as Hfree by (intros c Hh; by eapply all_chars_free).
  destruct bs as [|b bs]; [done|]. simpl in *. apply andb_true_iff in Hc as [Hc1 _]. set (a := sha256.hex_digit _) in *.
  assert (a ≠ "."%char ∧ a ≠ "l"%char) as [H1 H2] by (split; intros ->; by vm_compute in Hc1).
  split; [|unfold has_prefix; simpl; by case_decide].
  unfold plain. rewrite !bool_decide_eq_false_2 by (intros [=]; done). simpl. specialize (Hfree slash eq_refl). simpl in Hfree. by rewrite Hfree.
Qed.
Lemma state_path_record path : is_record (statePath ex_config path) = true.
Proof.
  destruct (hex_plain (take 16 (sha256.Sum256 path))) as [Hp Hl].
  { intros Hn. apply (f_equal length) in Hn. rewrite length_take, sha256.Sum256_length in Hn. done. }
  unfold statePath, is_record. revert Hp Hl. generalize (sha256.hex (take 16 (sha256.Sum256 path))). intros x Hp Hl.
  change (stateDir ex_config) with ex_stateDir. rewrite (Join_plain ex_stateDir x) by (done || by apply plain_rel_one).
  rewrite Base_below by done. rewrite bool_decide_eq_true_2 by (apply Join_plain; [done|by apply plain_rel_one]). by rewrite Hl.
Qed.
Lemma records_insert p d f : is_record p = true →
  filter (λ x, is_record x.1 = true) (<[p := d]> f : strmap) = <[p := d]> (filter (λ x, is_record x.1 = true) f).
Proof. intros Hp. by rewrite map_filter_insert_True. Qed.
Lemma marshal_state (st : stagedState) : Marshal st ≠ "1".
Proof. done. Qed.
#[global] Program Instance node_initiator : Initiator ex_config := {| records := node_records; sessions := n_sessions |}.
Next Obligation. intros name args n Hl. split; [done|]. simpl. unfold sessions_after. rewrite Hl. destruct (login_target name args); set_solver. Qed.
Next Obligation.
  intros name args iqn n Hl. split; [done|]. simpl. unfold sessions_after. rewrite Hl. destruct (login_target name args); set_solver.
Qed.
Next Obligation. intros name args iqn n Hl _. simpl. unfold sessions_after. rewrite Hl. set_solver. Qed.
Next Obligation. by intros. Qed.
Next Obligation. by intros. Qed.
Next Obligation. by intros. Qed.
Next Obligation. by intros. Qed.
Next Obligation. by intros. Qed.
Next Obligation. intros p n d Hd. simpl. unfold node_records in Hd. apply map_lookup_filter_Some in Hd as [-> _]. done. Qed.
Next Obligation.
  intros path n Hn. cbn [ReadFile node_files snd]. unfold node_records in Hn. apply map_lookup_filter_None in Hn as [->|Hn]; [done|].
  destruct (n_files n !! statePath ex_config path) as [d|]; [|done]. specialize (Hn d eq_refl). by destruct (Hn (state_path_record path)).
Qed.
Next Obligation. by intros. Qed.
Next Obligation.
  intros n p d Hd. simpl. assert (is_record p = true) as Hp by by apply map_lookup_filter_Some in Hd as [_ Hp].
  exists (mkDirent (Base p) false (Some 0%Z)). unfold is_record in Hp. apply andb_true_iff in Hp as [Hp Hl].
  split; [|split; [done|split; [by apply negb_true_iff|by apply bool_decide_eq_true_1 in Hp]]].
  apply list_elem_of_fmap. exists (p, d). split; [done|]. by apply elem_of_map_to_list.
Qed.
Next Obligation.
  intros n es e Hes He _ _. simpl in Hes. injection Hes as <-. apply list_elem_of_fmap in He as ([p d] & -> & Hp).
  apply elem_of_map_to_list in Hp. simpl. exists d. assert (is_record p = true) as Hr by by apply map_lookup_filter_Some in Hp as [_ Hr].
  unfold is_record in Hr. apply andb_true_iff in Hr as [Hr _]. apply bool_decide_eq_true_1 in Hr. change (stateDir ex_config) with ex_stateDir.
  by rewrite Hr.
Qed.
Next Obligation.
  intros path st m n. cbv zeta. cbn [WriteFile node_files fst snd]. rewrite bool_decide_eq_false_2 by apply marshal_state.
  split; [done|]. left. unfold node_records. apply records_insert, state_path_record.
Qed.
Next Obligation. by intros. Qed.
Next Obligation. intros path n. cbv zeta. split; [done|]. left. unfold node_records. cbn [Remove node_files fst]. by rewrite <-map_filter_delete. Qed.

(** ** Two volumes on one target *)
Definition td_volume (name : string) : VolumeRef := mkVolumeRef "td" "targetd:pool0" name.
Definition td_context (lun : string) : strmap := publish_context ["10.0.0.1:3260"] "iqn.td" lun.
Definition stage_of (v : VolumeRef) (path : string) (pc : strmap) : NodeStageRequest :=
  mkNodeStageRequest v path "" [] false false pc false ∅ "" ∅.
Definition fresh_node : node := mkNode ∅ ∅ 0 [].
Definition stage_a : NodeStageRequest := stage_of (td_volume "bard-a") "/st/a" (td_context "0").
Definition stage_b : NodeStageRequest := stage_of (td_volume "bard-b") "/st/b" (td_context "1").
Definition unstage_a : NodeUnstageRequest := mkNodeUnstageRequest (td_volume "bard-a") "/st/a".
Definition unstage_b : NodeUnstageRequest := mkNodeUnstageRequest (td_volume "bard-b") "/st/b".
Definition after_a : node := (NodeStage ex_config stage_a fresh_node).1.
Definition after_b : node := (NodeStage ex_config stage_b after_a).1.
Definition after_un_a : node := (NodeUnstage ex_config unstage_a after_b).1.

(** The second stage rescans the session of the first; the first unstage leaves it to the
    second volume, and the second ends it. *)
Definition logged_with (f : string) (n : node) : nat := length (filter (λ c, f ∈ c.2) (n_log n)).
Example shared_session :
  logged_with "--login" after_b = 1 ∧ logged_with "--rescan" after_b = 1 ∧
  bool_decide ("iqn.td" ∈ n_sessions after_un_a) = true ∧ size (node_records after_un_a) = 1 ∧
  let last := NodeUnstage ex_config unstage_b after_un_a in
  last.2 = Ok tt ∧ bool_decide ("iqn.td" ∈ n_sessions last.1) = false ∧ node_records last.1 = ∅.
Proof. vm_compute. done. Qed.
Lemma stage_gives_session_witness :
  coherent ex_config fresh_node ∧ (NodeStage ex_config stage_a fresh_node).2 = Ok tt ∧
  coherent ex_config after_a ∧ staged_on ex_config after_a (statePath ex_config "/st/a") "iqn.td".
Proof.
  assert (coherent ex_config fresh_node) as Hc by (intros p iqn (d & st & Hd & _); vm_compute in Hd; discriminate).
  assert ((NodeStage ex_config stage_a fresh_node).2 = Ok tt) as Hok by (vm_compute; reflexivity).
  destruct (stage_gives_session ex_config stage_a (with_base td_instance defaultIQNBase) fresh_node) as [Hc' Hst];
    [discriminate|reflexivity|reflexivity|repeat constructor|exact Hc|].
  split; [exact Hc|]. split; [exact Hok|]. split; [exact Hc'|]. exact (Hst Hok).
Defined.

(** ** Where sharing goes wrong *)

(** With two portals nobody counts: unstaging one volume ends the sessions of the other. *)
Definition mp_volume (name : string) : VolumeRef := mkVolumeRef "mp" "targetd:pool0" name.
Definition mp_node : node :=
  let devs lun := map (λ p, byPath ex_config p "iqn.td" lun) (ic_Portals mp_instance) in
  let rec lun := mkStaged (default "" (head (devs lun))) "iqn.td" "10.0.0.1:3260" (ic_Portals mp_instance) (devs lun) "/dev/disk/by-id/dm-uuid-mpath-3600" in
  mkNode {[statePath ex_config "/st/a" := Marshal (rec "0"); statePath ex_config "/st/b" := Marshal (rec "1")]} {["iqn.td"]} 0 [].
Example multipath_ends_session :
  let r := NodeUnstage ex_config (mkNodeUnstageRequest (mp_volume "bard-a") "/st/a") mp_node in
  r.2 = Ok tt ∧ is_Some (node_records r.1 !! statePath ex_config "/st/b") ∧ bool_decide ("iqn.td" ∈ n_sessions r.1) = false.
Proof. vm_compute. eauto. Qed.

(** A volume's own record counts as another's: after the node restarts, its sessions are gone
    and the records are not, and no volume of a local instance can be staged again, although
    its target is its own. *)
Definition local_stage : NodeStageRequest := stage_of (mkVolumeRef "local" "vg0" "bard-1") "/st/1" ∅.
Definition restarted : node := mkNode (n_files (NodeStage ex_config local_stage fresh_node).1) ∅ 0 [].
Example stage_after_restart :
  (NodeStage ex_config local_stage fresh_node).2 = Ok tt ∧
  let r := NodeStage ex_config local_stage restarted in
  r.2 = Err (errorf "iscsi: device %s not ready (size 0) after timeout") ∧ logged_with "--login" r.1 = 0 ∧ logged_with "--rescan" r.1 = 1.
Proof. vm_compute. done. Qed.

(** A raw block volume of targetd whose record is lost is published from the device of a target
    that does not exist. *)
Example publish_wrong_device :
  (published_device ex_config (mkNodePublishRequest (td_volume "bard-a") "/st/a" "/pub/a" "" [] false true ∅) fresh_node).2 =
  Ok (byPath ex_config "10.0.0.1:3260" "iqn.2025-01.io.bard:tgt-bard-a" "0").
Proof. vm_compute. done. Qed.
(** The check that a session is gone takes a target whose name is longer for it. *)
Example longer_name_counts : contains "iqn.td" "tcp: [1] 10.0.0.1:3260,1 iqn.td2 (non-flash)" = true.
Proof. done. Qed.
End iscsibench.
