(* ===== verification/ISCSISafety.v ===== *)
(** * What the iSCSI plugin does only in order (internal/iscsiplugin)

    Statements about the effects of a run, on any host: a volume is handed out only when its
    target refuses unknown initiators; the volume goes only after its export is gone; a
    password never gets into an error. *)
From Stdlib Require Import Ascii.
From S2P Require Import Prelude GoStrings GoPath Json JsonText Protocol Sha256 Host GoOs KMS RBDNode RBDTrace RBDSafety ISCSI Targetd ISCSIControl ISCSINode ISCSIBench.

Module iscsisafety.
Import bardplugin jsontext iscsi targetd iscsicontrol iscsinode rbdtrace rbdsafety.

Section commands.
  Context {H : Type} `{Host H} `{Files H} `{TempFiles H} `{Env H} `{Clock H} `{NodeFiles H} `{MapIter} (cfg : Config).
  Abbreviation HL := (H * list event)%type.
  Abbreviation hlog := (snd (A := H) (B := list event)).
  Abbreviation hop A := (M HL perror A).

(** A command that has to succeed, or be found done. *)
Definition settled (ben : string → bool) (o : output) : bool := match o_err o with None => true | Some e => ben e end.
Lemma Emits_unless ben fmt name args (Q : list event → res perror unit → Prop) :
  (∀ o, settled ben o = true → Q [ECommand name args o] (Ok tt)) →
  (∀ o, settled ben o = false → Q [ECommand name args o] (Err (errorf fmt))) →
  Emits hlog (run_unless (H := HL) ben fmt name args) Q.
Proof.
  intros Hok Herr. unfold run_unless. apply Emits_catch_run. intros o. unfold outcome. specialize (Hok o). specialize (Herr o).
  unfold settled in *. destruct (o_err o) as [e|]; [destruct (ben e)|]; [apply Emits_ret|apply Emits_fail|apply Emits_ret]; auto.
Qed.

(** ** Creating *)
Definition mask_args (ic : InstanceConfig) (lv : string) : list string :=
  [tpgPath (targetIQN (ic_IQNBase ic) lv); "set"; "attribute"; "generate_node_acls=0"; "demo_mode_write_protect=0";
   if ic_CHAPAuth ic then "authentication=1" else "authentication=0"].
(** The last thing that happened is that the target was told to refuse initiators without an
    ACL, and to authenticate them where the instance says so. *)
Definition masked_last (ic : InstanceConfig) (lv : string) (t : list event) : Prop :=
  ∃ t0 o, t = t0 ++ [ECommand "targetcli" (mask_args ic lv) o] ∧ o_err o = None.
Lemma masked_app ic lv t1 t2 : masked_last ic lv t2 → masked_last ic lv (t1 ++ t2).
Proof. intros (t0 & o & -> & Ho). exists (t1 ++ t0), o. by rewrite app_assoc. Qed.
(** Anything, then something after which the target is masked. *)
Lemma Emits_before {A B} ic lv (m : hop A) (f : A → hop B) :
  (∀ h, ∃ t, (m h).1.2 = h.2 ++ t) →
  (∀ a, Emits hlog (f a) (λ t r, is_Ok r = true → masked_last ic lv t)) →
  Emits hlog (m ≫= f) (λ t r, is_Ok r = true → masked_last ic lv t).
Proof.
  intros Hm Hf. apply (Emits_bind _ m f (λ _ _, True)); [|intros t a _|done].
  - intros h. destruct (Hm h) as [t Ht]. by exists t.
  - eapply Emits_mono; [apply Hf|]. intros t' r Hr Hok. by apply masked_app, Hr.
Qed.
(** Every computation over the recorded host extends the record. *)
Abbreviation anything := (logged (H := H) (L := event) (λ _, True)).
Lemma extends {E A} (m : M HL E A) : Pres anything m → ∀ h, ∃ t, (m h).1.2 = h.2 ++ t.
Proof. intros Hm h. destruct (Hm h) as (t & Ht & _). eauto. Qed.
#[local] Instance true_closed : Closed (λ _ : list event, True).
Proof. done. Qed.
Lemma run_any name args : Pres anything (run (H := HL) name args).
Proof. apply Pres_logged. by apply Closed_run; try apply _. Qed.
Lemma unless_any ben fmt name args : Pres anything (run_unless (H := HL) ben fmt name args).
Proof. unfold run_unless. pres_step; [apply run_any|repeat pres_step]. Qed.
Lemma or_any fmt name args : Pres anything (run_or (H := HL) fmt name args).
Proof. apply Pres_run_err, run_any. Qed.
Lemma out_any name args : Pres anything (run_out (H := HL) name args).
Proof. apply Pres_logged. by apply Closed_run_out. Qed.
Ltac any := repeat first [pres_step | apply run_any | apply unless_any | apply or_any | apply out_any].
Lemma size_any vg lv : Pres anything (lvSizeBytes (H := HL) vg lv).
Proof. unfold lvSizeBytes. any. Qed.
Lemma extend_any vg lv n : Pres anything (extendTo (H := HL) vg lv n).
Proof. unfold extendTo. any. Qed.
Lemma found_any req vg lv n : Pres anything (create_found (H := HL) req vg lv n).
Proof. unfold create_found. repeat pres_step. apply extend_any. Qed.
Lemma new_any req vg lv : Pres anything (create_new (H := HL) cfg req vg lv).
Proof. unfold create_new, isThinLV, thinClone. any; apply extend_any. Qed.
Lemma portals_any tpg portals : Pres anything (setExplicitPortals (H := HL) tpg portals).
Proof.
  unfold setExplicitPortals, targetcli. any. induction portals as [|p l IH]; simpl; [pres_step|]. unfold targetcli. any. done.
Qed.
Lemma export_masks ic vg lv : Emits hlog (export_lun (H := HL) ic vg lv) (λ t r, is_Ok r = true → masked_last ic lv t).
Proof.
  unfold export_lun. cbv zeta. unfold targetcli.
  do 3 (apply Emits_before; [apply extends; any|intros _]). apply Emits_before; [apply extends|intros _].
  { destruct (portalList ic) as [|? [|]]; [any|any|apply portals_any]. }
  apply Emits_before; [apply extends; any|intros _]. apply Emits_unless; [|done]. intros o Ho _. exists [], o. split; [done|].
  unfold settled, strict in Ho. by destruct (o_err o).
Qed.
(** C17: no volume is handed out open: when creating a volume on a locally managed instance
    succeeds, on any host, the last command told the volume's target to refuse initiators
    that have no ACL, and to require CHAP where the instance does, and that command
    succeeded. *)
Theorem created_masked req ic (h : H) :
  inst cfg (CreateVolumeRequest_Instance req) = Ok ic → isTargetd ic = false →
  is_Ok (CreateVolume (H := HL) cfg req (h, [])).2 = true →
  masked_last ic (lvName (CreateVolumeRequest_Name req)) (CreateVolume (H := HL) cfg req (h, [])).1.2.
Proof.
  intros Hic Htd. assert (Emits hlog (CreateVolume (H := HL) cfg req)
    (λ t r, is_Ok r = true → masked_last ic (lvName (CreateVolumeRequest_Name req)) t)) as He.
  2: { destruct (He (h, [])) as (t & Ht & HQ). simpl in Ht. by rewrite Ht. }
  unfold CreateVolume. rewrite Hic. apply Emits_then, Emits_lift. rewrite Htd. cbn [andb].
  apply Emits_before; [apply extends, size_any|intros sf]. apply Emits_before; [apply extends|intros _].
  { destruct (sf.2 : bool); [apply found_any|apply new_any]. }
  apply Emits_before; [apply extends, size_any|intros s].
  eapply Emits_bind; [apply export_masks| |done]. intros t a Hm. apply Emits_ret. intros _. rewrite app_nil_r. by apply Hm.
Qed.

(** ** Deleting *)
Definition target_gone (iqn : string) (e : event) : bool :=
  match e with
  | ECommand n args o => bool_decide (n = "targetcli") && bool_decide (args = ["/iscsi"; "delete"; iqn]) && settled isNotFound o
  | _ => false
  end.
Definition backstore_gone (lv : string) (e : event) : bool :=
  match e with
  | ECommand n args o => bool_decide (n = "targetcli") && bool_decide (args = ["/backstores/block"; "delete"; lv]) && settled isNotFound o
  | _ => false
  end.
Definition is_lvremove (e : event) : bool := match e with ECommand n _ _ => bool_decide (n = "lvremove") | _ => false end.
Definition volume_gone (vg lv : string) (e : event) : bool :=
  match e with
  | ECommand n args o => bool_decide (n = "lvremove") && bool_decide (args = lvm_args ["-f"; path_of vg lv]) && settled isNotFound o
  | _ => false
  end.
(** The base the names of an instance's targets start with, whether it is configured or not. *)
Definition base_of (instance : string) : string := base_or_default (instance_of cfg instance).
(** A volume that is not targetd's. *)
Definition local_volume (v : VolumeRef) : Prop :=
  isTargetd (instance_of cfg (VolumeRef_Instance v)) = false ∧
  (configured cfg (VolumeRef_Instance v) = true ∨ isTdLocation (VolumeRef_Location v) = false).
Lemma dispatch_local {A} v (remote local : InstanceConfig → hop A) : local_volume v →
  dispatch cfg v remote local = local (instance_of cfg (VolumeRef_Instance v)).
Proof.
  intros [Htd Hl]. unfold dispatch, configured, instance_of in *. destruct (instances cfg !! VolumeRef_Instance v) as [ic|]; simpl in *.
  - by rewrite Htd.
  - destruct Hl as [|Hl]; [done|]. by rewrite Hl.
Qed.

(** ** Passwords

    The text of an error is a prefix made of names, and a message no password is in. *)
Definition conceals {A} (c : chapCreds) (prefix : string → Prop) (r : res perror A) : Prop :=
  ∀ e, r = Err e → ∃ p msg, perror_text e = p +:+ ": " +:+ msg ∧ prefix p ∧
    ∀ secret, secret = ch_Password c ∨ secret = ch_MutualPassword c → maskable secret = true → contains secret msg = false.
Lemma redacted_conceals {A} c p err (prefix : string → Prop) : prefix p →
  conceals (A := A) c prefix (Err (redacted (chap_secrets c) p err)).
Proof.
  intros Hp e [= <-]. exists p, (redactSecrets (chap_secrets c) err). split; [done|]. split; [done|].
  intros s Hs Hm. apply mask_all_clean; [done|]. unfold chap_secrets. set_solver.
Qed.
Definition acl_prefix (initIQN p : string) : Prop := p = "iscsi: set chap auth on acl " +:+ initIQN.
Definition record_prefix (iqn p : string) : Prop :=
  ∃ k, k ∈ ["node.session.auth.authmethod"; "node.session.auth.username"; "node.session.auth.password";
            "node.session.auth.username_in"; "node.session.auth.password_in"] ∧ p = "iscsi: set " +:+ k +:+ " on node record " +:+ iqn.
Lemma set_params_conceals iqn portal c ps (h : H) :
  Forall (λ p, record_prefix iqn ("iscsi: set " +:+ p.1 +:+ " on node record " +:+ iqn)) ps →
  conceals c (record_prefix iqn) (set_params cfg iqn portal c ps h).2.
Proof.
  intros Hps. revert h. induction Hps as [|p ps Hp Hps IH]; intros h; simpl; [by intros e|].
  unfold mbind, M_bind, run_err, iscsiadm, run. destruct (Run _ _ h) as [h1 o]. destruct (o_err o) as [e|]; simpl; [|apply IH].
  by apply redacted_conceals.
Qed.
(** C21: CHAP passwords stay out of errors: whatever the commands that are given the
    credentials say when they fail, the error the plugin answers, for the ACL of the
    controller and for the node's record alike, is made of names and of a message in which
    neither password occurs (a password with an asterisk in it, which is what the mask is
    made of, apart). *)
Theorem chap_concealed iqn initIQN portal c (h : H) :
  conceals c (acl_prefix initIQN) (set_chap_auth iqn initIQN c h).2 ∧
  conceals c (record_prefix iqn) (setChapOnNode cfg iqn portal c h).2.
Proof.
  split.
  - unfold set_chap_auth, mbind, M_bind, run_err, run. destruct (Run _ _ h) as [h1 o]. destruct (o_err o) as [e|]; simpl; [|by intros e].
    by apply redacted_conceals.
  - apply set_params_conceals. unfold chap_params. repeat constructor; try (by eexists; split; [|reflexivity]; set_solver).
    case_bool_decide; repeat constructor; by eexists; split; [|reflexivity]; set_solver.
Qed.
(** An asterisk in the password, and what is left can be the password. *)
Example asterisk_survives : let msg := redactSecrets ["a*"] "password=aa**" in contains "a*" msg = true.
Proof. done. Qed.

(** ** The connection of a published volume *)

(** The node connects to what the controller published: from the context a publish
    answers, whatever instance it came from, staging takes exactly the portals, the target
    and the LUN that were put in; a list of portals survives being joined into one value
    as long as none has a comma. *)
Theorem connection_roundtrip portals iqn lun ic req :
  portals ≠ [] → Forall (λ p, contains_char "," p = false ∧ p ≠ "") portals → iqn ≠ "" → lun ≠ "" →
  NodeStageRequest_PublishContext req = publish_context portals iqn lun →
  stage_iqn req ic = iqn ∧ stage_lun req = lun ∧
  or_default (mget (NodeStageRequest_PublishContext req) ctxPortal) (default "" (head (portalList ic))) = default "" (head portals) ∧
  (many portals = true → multipathPortals (NodeStageRequest_PublishContext req) ic = portals) ∧
  (many portals = false → multipathPortals (NodeStageRequest_PublishContext req) ic = portalList ic).
Proof.
  intros Hne Hp Hi Hl Hpc. assert (∀ s d, s ≠ "" → or_default s d = s) as Hor by (intros s d Hs; unfold or_default; by rewrite bool_decide_eq_false_2).
  unfold stage_iqn, stage_lun, multipathPortals. rewrite Hpc. unfold publish_context, mget.
  destruct portals as [|p [|q l]]; [done|..]; simpl; simplify_map_eq; rewrite !Hor;
    try done; try (by inversion Hp as [|?? []]).
  assert (join "," (p :: q :: l) ≠ "") as Hj.
  { inversion Hp as [|?? [_ Hpne]]; subst. simpl. by destruct p. }
  assert (split_on "," (join "," (p :: q :: l)) = p :: q :: l) as Hs.
  { apply split_join; [done|]. eapply Forall_impl; [exact Hp|]. by intros ? []. }
  split; [done|]. split; [done|]. split; [done|]. split; [|done]. intros _. by rewrite bool_decide_eq_false_2.
Qed.
End commands.

(** ** On the bench *)
Import iscsibench.
Definition ex_create : CreateVolumeRequest := mkCreateVolumeRequest "pvc-1" 1073741824 "local" "" ∅ ∅ ∅ None None.
Definition ex_recorded (n : node) : node * list event := (n, []).
Lemma created_masked_witness :
  let r := CreateVolume ex_config ex_create (ex_recorded fresh_node) in
  is_Ok r.2 = true ∧ masked_last (with_base ex_instance defaultIQNBase) (lvName "pvc-1") r.1.2.
Proof.
  assert (is_Ok (CreateVolume ex_config ex_create (ex_recorded fresh_node)).2 = true) as Hok by (vm_compute; reflexivity).
  split; [exact Hok|]. exact (created_masked ex_config ex_create (with_base ex_instance defaultIQNBase) fresh_node eq_refl eq_refl Hok).
Defined.
Definition ex_delete : DeleteVolumeRequest := mkDeleteVolumeRequest (mkVolumeRef "gone" "vg0" "bard-1") ∅.
Lemma connection_roundtrip_witness :
  multipathPortals (publish_context ["10.0.0.1:3260"; "10.0.0.2:3260"] "iqn.td" "3") ex_instance = ["10.0.0.1:3260"; "10.0.0.2:3260"].
Proof.
  apply (connection_roundtrip ["10.0.0.1:3260"; "10.0.0.2:3260"] "iqn.td" "3" ex_instance
    (stage_of (td_volume "bard-a") "/st/a" (publish_context ["10.0.0.1:3260"; "10.0.0.2:3260"] "iqn.td" "3")));
    [discriminate|repeat constructor; discriminate|discriminate|discriminate|reflexivity|reflexivity].
Defined.

(** A volume made on a local instance is reported deleted, and stays, once the instance has
    become one of targetd: the pool there has no volume of the name. *)
Definition td_answers (rq : request) : res string response :=
  match rq_body rq with
  | BJson (JObj [_; _; (_, JStr m); _]) =>
      Ok (mkResponse 200 (BJson (if bool_decide (m = "export_list") then JObj [("result", JArr [])]
        else JObj [("error", JObj [("code", JNum "-103"); ("message", JStr "not found")])])))
  | _ => Err no_answer
  end.
#[local] Instance td_env : Env node := {|
  readFile := readFile; getenv := getenv; randRead := randRead; now := n_clock; httpDo rq n := (n, td_answers rq);
  kmipExchange := kmipExchange; pem_certs := pem_certs (S := node); key_pair := key_pair; get_token := get_token; put_token := put_token;
  get_creds := get_creds; put_creds := put_creds |}.
Example local_volume_orphaned :
  let n := mkNode {["/td/td" := "user" +:+ String newline "pass"]} ∅ 0 [] in
  let r := DeleteVolume ex_config (mkDeleteVolumeRequest (mkVolumeRef "td" "vg0" "bard-1") ∅) n in
  r.2 = Ok tt ∧ n_log r.1 = [].
Proof. vm_compute. done. Qed.
(** Every volume of a targetd pool is listed, whoever made it. *)
Definition pool_volumes (rq : request) : res string response :=
  Ok (mkResponse 200 (BJson (JObj [("result", JArr [JObj [("name", JStr "database"); ("size", JNum "1")]])]))).
#[local] Instance pool_env : Env node := {|
  readFile := readFile; getenv := getenv; randRead := randRead; now := n_clock; httpDo rq n := (n, pool_volumes rq);
  kmipExchange := kmipExchange; pem_certs := pem_certs (S := node); key_pair := key_pair; get_token := get_token; put_token := put_token;
  get_creds := get_creds; put_creds := put_creds |}.
Example foreign_volume_listed :
  let n := mkNode {["/td/td" := "user" +:+ String newline "pass"]} ∅ 0 [] in
  (listVolumesTargetd ex_config "td" td_instance n).2 = Ok [mkVolumeListEntry (mkVolumeRef "td" "targetd:pool0" "database") 1].
Proof. vm_compute. done. Qed.
End iscsisafety.
