(* ===== verification/InCluster.v ===== *)
(** * Reading the Kubernetes API from inside a pod (internal/incluster)

    An authenticated GET with the pod's service account, and what is read in a node's
    labels with it.  The surroundings (environment, files, HTTP) are those of [Env]; the
    state of a call is the driver's [World], whose environment they are. *)
From Stdlib Require Import Ascii.
From S2P Require Import Prelude GoStrings GoErrors Metrics Json JsonText Backend Config KMS.

Module incluster.
Import jsontext.

Definition serviceAccountDir : string := "/var/run/secrets/kubernetes.io/serviceaccount".
Definition StatusOK : Z := 200.
Definition StatusForbidden : Z := 403.
Definition StatusNotFound : Z := 404.

(** The body of a reply, as the bytes [io.ReadAll] gives. *)
Definition body_text (b : payload) : string :=
  match b with
  | BJson j => print j
  | BText s => s
  | BNone | BForm _ | BCreds _ _ _ _ => ""
  end.

(** [crushBucketType]. *)
Definition crushBucketType (labelKey : string) : string :=
  match cut_last "/" labelKey with Some (_, bucket) => bucket | None => labelKey end.

(** The labels of a node. *)
Abbreviation node_json := (one "metadata" (one "labels" strmap)).
Definition labels_of (body : string) : res error strmap :=
  match unmarshal (A := node_json) body with
  | None => Err (plain_error "decode Node: %w")
  | Some n => Ok (the (the n))
  end.
Definition nodeZoneFromJSON (body labelKey : string) : res error string :=
  labels ← labels_of body; Ok (mget labels labelKey).
Definition crush_part (labels : strmap) (key : string) : list string :=
  if bool_decide (mget labels key = "") then [] else [crushBucketType key +:+ ":" +:+ mget labels key].
Definition crushLocationFromJSON (body : string) (labelKeys : list string) : res error string :=
  labels ← labels_of body; Ok (join "|" (labelKeys ≫= crush_part labels)).

Section api.
  Context {T : Type} `{Env T}.
  Abbreviation op A := (M (World T) error A).

(** A step of the environment. *)
Definition on_env {A} (f : T → T * A) : op A := λ w,
  let '(t, a) := f (w_env w) in (mkWorld (w_metrics w) t, Ok a).
Definition read_or (fmt path : string) : op string :=
  r ← on_env (readFile path);
  lift (map_err (λ _, plain_error fmt) r).
Definition env_var (key : string) : op string := gets (λ w, getenv key (w_env w)).

Definition doGet (apiPath : string) : op response :=
  host ← env_var "KUBERNETES_SERVICE_HOST";
  port ← env_var "KUBERNETES_SERVICE_PORT";
  guard_ (negb (bool_decide (host = "") || bool_decide (port = "")))
    (plain_error "not running in a cluster (KUBERNETES_SERVICE_HOST/PORT unset)");;
  token ← read_or "read ServiceAccount token: %w" (serviceAccountDir +:+ "/token");
  caPEM ← read_or "read API CA bundle: %w" (serviceAccountDir +:+ "/ca.crt");
  guard_ (pem_certs caPEM) (plain_error "parse API CA bundle");;
  r ← on_env (httpDo (mkRequest "GET" ("https://" +:+ host +:+ ":" +:+ port +:+ apiPath)
        [("Authorization", "Bearer " +:+ token); ("Accept", "application/json")] BNone));
  lift (map_err (λ _, plain_error "GET %s: %w") r).
Definition GetCode (apiPath : string) : op (Z * string) :=
  resp ← doGet apiPath;
  mret (rs_status resp, body_text (rs_body resp)).
Definition Get (apiPath : string) : op string :=
  cb ← GetCode apiPath;
  guard_ (bool_decide (cb.1 = StatusOK)) (plain_error "GET %s: %d %s: %s");;
  mret cb.2.
(** [GetStream]: the body of a watch, for streaming. *)
Definition GetStream (apiPath : string) : op payload :=
  resp ← doGet apiPath;
  guard_ (bool_decide (rs_status resp = StatusOK)) (plain_error "GET %s: %s: %s");;
  mret (rs_body resp).
Definition InCluster : op bool :=
  host ← env_var "KUBERNETES_SERVICE_HOST";
  mret (negb (bool_decide (host = ""))).
Definition NodeZone (nodeName labelKey : string) : op string :=
  body ← Get ("/api/v1/nodes/" +:+ nodeName);
  lift (nodeZoneFromJSON body labelKey).
Definition NodeCrushLocation (nodeName : string) (labelKeys : list string) : op string :=
  body ← Get ("/api/v1/nodes/" +:+ nodeName);
  lift (crushLocationFromJSON body labelKeys).

(** ** The configuration in the cluster (internal/config/crd.go) *)
Definition backendClustersPath : string := "/apis/bard.io/v1alpha1/backendclusters".
Abbreviation spec_json :=
  (one "backendType" string * one "instance" string * one "zone" string * one "default" bool
   * one "plugin" (one "endpoint" string))%type.
Abbreviation cluster_json := (one "metadata" (one "name" string) * one "spec" spec_json)%type.
Abbreviation clusters_json :=
  (one "metadata" (one "resourceVersion" string) * one "items" (list cluster_json))%type.
Definition cluster_of (c : cluster_json) : BackendCluster :=
  let '(meta, spec) := c in
  let '(bt, inst, zone, dflt, plug) := the spec in
  mkCluster (the (the meta)) (mkSpec (the bt) (the inst) (the zone) (the dflt) (the (the plug))).
Definition listClusters : op (list BackendCluster * string) :=
  inside ← InCluster;
  guard_ inside (plain_error "not running in a cluster; use --config-source=file");;
  body ← run_err (λ e, mkError (err_chain e) "list BackendClusters: %w") (Get backendClustersPath);
  match unmarshal (A := clusters_json) body with
  | None => fail (plain_error "decode BackendCluster list: %w")
  | Some (meta, items) => mret (cluster_of <$> the items, the (the meta))
  end.
Definition LoadFromAPI `{MapIter} : op Config :=
  l ← listClusters;
  lift (FromBackendClusters l.1).
End api.
End incluster.
