(* ===== verification/Inspect.v ===== *)
(** * The consistency scanner (internal/inspect)

    [Check] joins what Kubernetes believes (volumes, snapshots, nodes, attachments) with
    what the backends list and with the configuration, and reports the drift as findings,
    most severe first.  A finding's resource is written out, since findings are ordered by
    it; its detail and hint are kept as the pieces they are made of, formats with their
    arguments ([text]). *)
From Stdlib Require Import Ascii.
From S2P Require Import Prelude GoStrings GoErrors VolumeID Dispatch Config Metrics Backend Json.

Module inspect.

(** ** Texts *)
Inductive arg := AStr (s : string) | AInt (n : Z) | AErr (e : error).
#[export] Instance arg_eq_dec : EqDecision arg.
Proof. solve_decision. Defined.
Inductive text := Lit (s : string) | Sprintf (format : string) (args : list arg).
#[export] Instance text_eq_dec : EqDecision text.
Proof. solve_decision. Defined.

(** ** Findings and reports *)
Inductive Severity := SeverityError | SeverityWarn | SeverityInfo | SeveritySkip.
#[export] Instance Severity_eq_dec : EqDecision Severity.
Proof. solve_decision. Defined.
Definition Severity_string (s : Severity) : string :=
  match s with SeverityError => "ERROR" | SeverityWarn => "WARN" | SeverityInfo => "INFO" | SeveritySkip => "SKIP" end.
Definition rank (s : Severity) : nat :=
  match s with SeverityError => 0 | SeverityWarn => 1 | SeverityInfo => 2 | SeveritySkip => 3 end.

Record Finding := mkFinding {
  f_Check : string; f_Severity : Severity; f_Resource : string; f_Detail : list text; f_Hint : list text }.
#[export] Instance Finding_eq_dec : EqDecision Finding.
Proof. solve_decision. Defined.
Record Stats := mkStats {
  s_PVs : Z; s_BackendVolumes : Z; s_SnapshotContents : Z; s_BackendSnapshots : Z; s_Nodes : Z; s_Attachments : Z }.
Record Report := mkReport { r_Findings : list Finding; r_Stats : Stats }.

Definition is_error (f : Finding) : bool := bool_decide (f_Severity f = SeverityError).
Definition HasErrors (r : Report) : bool := existsb is_error (r_Findings r).

(** [WriteJSON]: the document; [render] is what package fmt makes of a text. *)
Definition Report_json (render : text → string) (r : Report) : json :=
  let words (l : list text) := JStr (foldr (λ t acc, render t +:+ acc) "" l) in
  let finding f := JObj ([("check", JStr (f_Check f)); ("severity", JStr (Severity_string (f_Severity f)));
      ("resource", JStr (f_Resource f)); ("detail", words (f_Detail f))]
    ++ if bool_decide (f_Hint f = []) then [] else [("hint", words (f_Hint f))]) in
  let s := r_Stats r in
  JObj [("findings", if bool_decide (r_Findings r = []) then JNull else JArr (finding <$> r_Findings r));
        ("stats", JObj [("pvs", enc (s_PVs s)); ("backendVolumes", enc (s_BackendVolumes s));
           ("snapshotContents", enc (s_SnapshotContents s)); ("backendSnapshots", enc (s_BackendSnapshots s));
           ("nodes", enc (s_Nodes s)); ("attachments", enc (s_Attachments s))])].

(** [WriteTable]: what is printed, call by call. *)
Definition count_of (s : Severity) (l : list Finding) : Z :=
  Z.of_nat (length (filter (λ f, f_Severity f = s) l)).
Definition nl : text := Lit (String "010" "").
Definition finding_lines (f : Finding) : list text :=
  [nl; Sprintf "[%s] %s  %s" [AStr (Severity_string (f_Severity f)); AStr (f_Check f); AStr (f_Resource f)]; nl; Lit "    "]
  ++ f_Detail f ++ [nl]
  ++ if bool_decide (f_Hint f = []) then [] else Lit "    hint: " :: f_Hint f ++ [nl].
Definition WriteTable (r : Report) : list text :=
  let s := r_Stats r in
  let l := r_Findings r in
  [Sprintf "scanned %d PVs / %d backend volumes, %d snapshot contents / %d backend snapshots, %d nodes, %d attachments"
    [AInt (s_PVs s); AInt (s_BackendVolumes s); AInt (s_SnapshotContents s); AInt (s_BackendSnapshots s);
     AInt (s_Nodes s); AInt (s_Attachments s)]; nl]
  ++ if bool_decide (l = []) then [nl; Lit "no findings: Kubernetes and backend state are consistent"; nl]
     else (l ≫= finding_lines) ++
       [nl; Sprintf "%d error(s), %d warning(s), %d info, %d skipped"
          [AInt (count_of SeverityError l); AInt (count_of SeverityWarn l); AInt (count_of SeverityInfo l);
           AInt (count_of SeveritySkip l)]; nl].

(** ** What a scan compares *)
Record PV := mkPV {
  pv_Name : string; pv_Driver : string; pv_VolumeHandle : string; pv_Phase : string; pv_StorageClass : string; pv_Claim : string }.
Record SnapshotContent := mkSnapshotContent { sc_Name : string; sc_Driver : string; sc_SnapshotHandle : string }.
Record Node := mkNode { n_Name : string; n_Labels : strmap }.
Record CSINode := mkCSINode { cn_Name : string; cn_HasDriver : bool; cn_TopologyKeys : list string }.
Record VolumeAttachment := mkAttachment {
  va_Name : string; va_Attacher : string; va_NodeName : string; va_PV : string; va_Attached : bool }.
(** The text of an error is never empty: [hp_Err] is [None] for an empty [Err]. *)
Record HealthProbe := mkProbe { hp_Confirmed : bool; hp_Healthy : bool; hp_InstanceUnknown : bool; hp_Err : option error }.

Record State := mkState {
  st_Driver : string;
  st_ZoneLabel : string;
  st_Config : Config;
  st_PVs : list PV;
  st_SnapshotContents : list SnapshotContent;
  st_Nodes : list Node;
  st_CSINodes : list CSINode;
  st_Attachments : list VolumeAttachment;
  st_BackendVolumes : gmap string (list backend.VolumeListEntry);
  st_BackendSnapshots : gmap string (list backend.SnapshotListEntry);
  st_UnlistedVolumes : gset string;
  st_UnlistedSnapshots : gset string;
  st_HealthProbes : gmap string HealthProbe;
  st_Skips : list Finding;
  st_HaveSnapshotContents : bool;
  st_HaveNodes : bool;
  st_HaveCSINodes : bool;
  st_HaveAttachments : bool;
}.

(** ** The checks *)
(** [sortedKeys]. *)
Definition sortedKeys `{MapIter} {V} (m : gmap string V) : list string := merge_sort String.le (range_keys m).

Definition instance_key (h : Handle) : string := hBackend h +:+ "|" +:+ hInstance h.

Definition missing_step (acc : gmap string (option error)) (p : string * HealthProbe) : gmap string (option error) :=
  if negb (hp_InstanceUnknown p.2) then acc
  else match Parse p.1 with
       | Err _ => acc
       | Ok h => match acc !! instance_key h with
                 | Some _ => acc
                 | None => <[instance_key h := hp_Err p.2]> acc
                 end
       end.
Definition missingInstances `{MapIter} (st : State) : gmap string (option error) :=
  foldl missing_step ∅ (range (st_HealthProbes st)).

Definition cut_key (key : string) : string * string := default (key, "") (cut_on "|" key).
Definition err_args (e : option error) : list arg := match e with Some e => [AErr e] | None => [AStr ""] end.
Definition missing_finding (missing : gmap string (option error)) (key : string) : Finding :=
  let '(bt, inst) := cut_key key in
  mkFinding "plugin-missing-instance" SeverityError ("backend/" +:+ bt +:+ " instance/" +:+ inst)
    [Sprintf "core dispatches to this instance but its plugin cannot serve it (probe: %s); its volumes are invisible to the plugin and every operation on them fails"
       (err_args (default None (missing !! key)))]
    [Lit "add the instance back to the plugin's own config and restart the plugin sidecar — plugins read their per-instance config at startup"].
Definition missingInstanceFindings `{MapIter} (missing : gmap string (option error)) : list Finding :=
  missing_finding missing <$> sortedKeys missing.

(** [checkHandleConfig]: the finding to report, if the handle is not in the configuration. *)
Definition checkHandleConfig (st : State) (h : Handle) (resource : string) : option Finding :=
  match Backends (st_Config st) !! hBackend h with
  | None => Some (mkFinding "unknown-instance" SeverityError resource
      [Sprintf "handle references backend type %q which is not configured; delete/expand/snapshot for it will fail" [AStr (hBackend h)]]
      [Lit "restore the BackendCluster(s) for this backend type, or migrate the data off it before retiring the config"])
  | Some bc =>
      match bcInstances bc !! hInstance h with
      | None => Some (mkFinding "unknown-instance" SeverityError resource
          [Sprintf "handle references instance %q of backend %q which is not in the current config; delete/expand/snapshot for it will fail"
             [AStr (hInstance h); AStr (hBackend h)]]
          [Lit "restore the BackendCluster for this instance (its plugin config too), or migrate the data before retiring it"])
      | Some _ => None
      end
  end.

(** The handles each backend listed. *)
Definition handle_sets {E} (key : E → Handle) (listed : gmap string (list E)) : gmap string (gset string) :=
  (λ entries, list_to_set ((λ e, Handle_String (key e)) <$> entries)) <$> listed.

(** What the loops over Kubernetes objects build up. *)
Record tally := mkTally { t_out : list Finding; t_handles : gset string; t_unverifiable : gmap string Z }.
Definition no_tally : tally := mkTally [] ∅ ∅.
Definition emit_f (fs : list Finding) (a : tally) : tally := mkTally (t_out a ++ fs) (t_handles a) (t_unverifiable a).
Definition seen (hs : string) (a : tally) : tally := mkTally (t_out a) ({[hs]} ∪ t_handles a) (t_unverifiable a).
Definition bump (bt : string) (a : tally) : tally :=
  mkTally (t_out a) (t_handles a) (<[bt := (default 0 (t_unverifiable a !! bt) + 1)%Z]> (t_unverifiable a)).

Definition unparseable (resource fmt hint hs : string) (e : error) : Finding :=
  mkFinding "unparseable-handle" SeverityWarn resource [Sprintf fmt [AStr hs; AErr e]] [Lit hint].
Definition list_inconsistent (pv : PV) (h : Handle) : Finding :=
  mkFinding "list-inconsistent" SeverityWarn ("pv/" +:+ pv_Name pv)
    [Sprintf "volume %s/%s is missing from the %s plugin's list but a direct probe says it exists"
       [AStr (hLocation h); AStr (hName h); AStr (hBackend h)]]
    [Lit "re-run to rule out a race; if it persists, the plugin's ListVolumes is dropping entries — check its logs"].
Definition ghost_detail (pv : PV) (h : Handle) (probe : option HealthProbe) : list text :=
  [Sprintf "backing volume %s/%s not found on backend %q instance %q (PV phase %s"
     [AStr (hLocation h); AStr (hName h); AStr (hBackend h); AStr (hInstance h); AStr (pv_Phase pv)]]
  ++ (if bool_decide (pv_Claim pv = "") then [] else [Lit (", bound to " +:+ pv_Claim pv)])
  ++ [Lit ")"]
  ++ match probe with
     | None => []
     | Some p =>
         if hp_Confirmed p then [Lit "; confirmed by a direct probe"]
         else match hp_Err p with
              | Some e => [Lit "; a direct probe also failed: "; Sprintf "%v" [AErr e]]
              | None => []
              end
     end.
Definition ghost_pv (pv : PV) (h : Handle) (probe : option HealthProbe) : Finding :=
  mkFinding "ghost-pv" SeverityError ("pv/" +:+ pv_Name pv) (ghost_detail pv h probe)
    [Lit "the data this PV promises is gone; verify directly on the backend before removing the PV/PVC (a Released PV mid-deletion can appear here transiently — re-run to confirm)"].

(** The second half of an iteration of [checkVolumes]: the volume against what its backend
    listed. *)
Definition verify_volume (st : State) (missing : gmap string (option error)) (sets : gmap string (gset string))
    (pv : PV) (h : Handle) (a : tally) : tally :=
  if bool_decide (hBackend h ∈ st_UnlistedVolumes st) then bump (hBackend h) a
  else match sets !! hBackend h with
       | None => a
       | Some set =>
           if bool_decide (pv_VolumeHandle pv ∈ set) then a
           else if bool_decide (is_Some (missing !! instance_key h)) then a
           else
             let probe := st_HealthProbes st !! pv_VolumeHandle pv in
             if default false (hp_Healthy <$> probe) then emit_f [list_inconsistent pv h] a
             else emit_f [ghost_pv pv h probe] a
       end.
Definition volume_step (st : State) (missing : gmap string (option error)) (sets : gmap string (gset string))
    (a : tally) (pv : PV) : tally :=
  if negb (bool_decide (pv_Driver pv = st_Driver st)) then a
  else match Parse (pv_VolumeHandle pv) with
       | Err e => emit_f [unparseable ("pv/" +:+ pv_Name pv) "volumeHandle %q is not a Bard handle: %v"
           "no Bard operation can address this volume; if the PV was hand-written (static provisioning), fix its volumeHandle format"
           (pv_VolumeHandle pv) e] a
       | Ok h =>
           verify_volume st missing sets pv h
             (emit_f (option_list (checkHandleConfig st h ("pv/" +:+ pv_Name pv))) (seen (pv_VolumeHandle pv) a))
       end.
Definition entry_resource (bt : string) (h : Handle) : string :=
  bt +:+ ":" +:+ hInstance h +:+ " " +:+ hLocation h +:+ "/" +:+ hName h.
Definition orphan_volume (bt : string) (h : Handle) : Finding :=
  mkFinding "orphan-volume" SeverityWarn (entry_resource bt h)
    [Lit "volume exists on the backend but no PV references it"]
    [Lit "re-run to rule out an in-flight provision, and if the pool is shared with another Kubernetes cluster check that cluster's PVs too; a persistent true orphan is leaked storage (e.g. a failed delete) — remove it with the backend's own tooling, Bard never deletes data on its own"].
(** The entries of every listed backend that no object refers to. *)
Definition orphans `{MapIter} {E} (key : E → Handle) (f : string → Handle → Finding)
    (listed : gmap string (list E)) (handles : gset string) : list Finding :=
  sortedKeys listed ≫= λ bt,
    (λ e, f bt (key e)) <$> filter (λ e, Handle_String (key e) ∉ handles) (default [] (listed !! bt)).
Definition unverifiable_findings `{MapIter} (fmt : string) (counts : gmap string Z) : list Finding :=
  (λ bt, mkFinding "unverifiable" SeverityInfo ("backend/" +:+ bt)
     [Sprintf fmt [AInt (default 0%Z (counts !! bt)); AStr bt]] []) <$> sortedKeys counts.
Definition checkVolumes `{MapIter} (st : State) (missing : gmap string (option error)) : list Finding :=
  let sets := handle_sets backend.vl_Handle (st_BackendVolumes st) in
  let a := foldl (volume_step st missing sets) no_tally (st_PVs st) in
  t_out a ++ orphans backend.vl_Handle orphan_volume (st_BackendVolumes st) (t_handles a)
  ++ unverifiable_findings "%d PV(s) cannot be checked against backend truth: the %s plugin does not implement ListVolumes"
       (t_unverifiable a).

Definition ghost_snapshot (sc : SnapshotContent) (h : Handle) : Finding :=
  mkFinding "ghost-snapshot" SeverityError ("volumesnapshotcontent/" +:+ sc_Name sc)
    [Sprintf "backing snapshot %s/%s not found on backend %q instance %q"
       [AStr (hLocation h); AStr (hName h); AStr (hBackend h); AStr (hInstance h)]]
    [Lit "restores from this snapshot will fail; verify on the backend before deleting the VolumeSnapshot/Content"].
Definition orphan_snapshot (bt : string) (h : Handle) : Finding :=
  mkFinding "orphan-snapshot" SeverityWarn (entry_resource bt h)
    [Lit "snapshot exists on the backend but no VolumeSnapshotContent references it"]
    [Lit "re-run to rule out an in-flight snapshot; if it persists it is leaked space on the backend — remove it with the backend's own tooling"].
Definition verify_snapshot (st : State) (missing : gmap string (option error)) (sets : gmap string (gset string))
    (sc : SnapshotContent) (h : Handle) (a : tally) : tally :=
  if bool_decide (hBackend h ∈ st_UnlistedSnapshots st) then bump (hBackend h) a
  else match sets !! hBackend h with
       | None => a
       | Some set =>
           if bool_decide (sc_SnapshotHandle sc ∈ set) then a
           else if bool_decide (is_Some (missing !! instance_key h)) then a
           else emit_f [ghost_snapshot sc h] a
       end.
Definition snapshot_step (st : State) (missing : gmap string (option error)) (sets : gmap string (gset string))
    (a : tally) (sc : SnapshotContent) : tally :=
  if negb (bool_decide (sc_Driver sc = st_Driver st)) || bool_decide (sc_SnapshotHandle sc = "") then a
  else match Parse (sc_SnapshotHandle sc) with
       | Err e => emit_f [unparseable ("volumesnapshotcontent/" +:+ sc_Name sc) "snapshotHandle %q is not a Bard handle: %v"
           "no Bard operation can address this snapshot; if it was hand-written (pre-provisioned), fix its snapshotHandle format"
           (sc_SnapshotHandle sc) e] a
       | Ok h =>
           verify_snapshot st missing sets sc h
             (emit_f (option_list (checkHandleConfig st h ("volumesnapshotcontent/" +:+ sc_Name sc))) (seen (sc_SnapshotHandle sc) a))
       end.
Definition checkSnapshots `{MapIter} (st : State) (missing : gmap string (option error)) : list Finding :=
  if negb (st_HaveSnapshotContents st) then []
  else
    let sets := handle_sets backend.sl_Handle (st_BackendSnapshots st) in
    let a := foldl (snapshot_step st missing sets) no_tally (st_SnapshotContents st) in
    t_out a ++ orphans backend.sl_Handle orphan_snapshot (st_BackendSnapshots st) (t_handles a)
    ++ unverifiable_findings "%d snapshot content(s) cannot be checked against backend truth: the %s plugin does not implement ListSnapshots"
         (t_unverifiable a).

(** ** Topology *)
Definition zoneResolvable `{MapIter} (cfg : Config) (bt zone : string) : bool :=
  let instances := default ∅ (bcInstances <$> Backends cfg !! bt) in
  existsb (λ p, bool_decide (Zone p.2 = zone)) (range instances)
  || negb (bool_decide (mget (cfgDefaults cfg) bt = ""))
  || bool_decide (size instances = 1).

(** The registration of a node, the last one under its name. *)
Definition csi_by_name (st : State) : gmap string CSINode :=
  if st_HaveCSINodes st then foldl (λ m cn, <[cn_Name cn := cn]> m) ∅ (st_CSINodes st) else ∅.
Definition unresolvable `{MapIter} (st : State) (zone : string) : list string :=
  merge_sort String.le (filter (λ bt, zoneResolvable (st_Config st) bt zone = false) (range_keys (Backends (st_Config st)))).
Definition node_findings `{MapIter} (st : State) (n : Node) : list Finding :=
  let zone := mget (n_Labels n) (st_ZoneLabel st) in
  let reported := mget (n_Labels n) TopologyKeyZone in
  let cn := csi_by_name st !! n_Name n in
  let registered := default false (cn_HasDriver <$> cn) in
  let hasZoneKey := registered && bool_decide (TopologyKeyZone ∈ default [] (cn_TopologyKeys <$> cn)) in
  let resource := "node/" +:+ n_Name n in
  (if registered && negb hasZoneKey then
     [mkFinding "node-no-zone" SeverityWarn resource
       [Sprintf "the Bard node plugin is registered here without topology keys (the node had no %q label at registration); provisioning for pods on this node fails with 'no topology key found'" [AStr (st_ZoneLabel st)]]
       [Sprintf "kubectl label node %s %s=<zone>, then delete the bard-csi node pod on it so it re-registers" [AStr (n_Name n); AStr (st_ZoneLabel st)]]]
   else if negb registered && st_HaveCSINodes st && bool_decide (zone = "") then
     [mkFinding "node-no-zone" SeverityInfo resource
       [Sprintf "node has no %q label; if the Bard node plugin schedules here it will register without topology and provisioning on this node will fail" [AStr (st_ZoneLabel st)]]
       [Lit "label the node before the node plugin starts (zones are deliberately required: topology selects the backend cluster)"]]
   else [])
  ++ (if negb (bool_decide (zone = "")) && negb (bool_decide (reported = "")) && negb (bool_decide (zone = reported)) then
     [mkFinding "zone-collision" SeverityWarn resource
       [Sprintf "node label %s=%q but the registered Bard topology %s=%q; kubelet refuses to change a registered topology value, so the node-driver-registrar will crashloop when the node pod restarts"
          [AStr (st_ZoneLabel st); AStr zone; AStr TopologyKeyZone; AStr reported]]
       [Sprintf "one-time recovery for a re-zoned node: kubectl label node %s %s- && delete the bard-csi node pod so it re-registers"
          [AStr (n_Name n); AStr TopologyKeyZone]]]
   else [])
  ++ (if registered && negb (bool_decide (zone = "")) && negb (bool_decide (unresolvable st zone = [])) then
     [mkFinding "zone-no-backend" SeverityWarn resource
       [Sprintf "zone %q is not served by any instance of backend(s) %s and no default instance is set; PVCs for those backends cannot provision for pods on this node"
          [AStr zone; AStr (join ", " (unresolvable st zone))]]
       [Sprintf "add a BackendCluster with zone %q, or set a default instance for the backend type" [AStr zone]]]
   else []).
Definition node_zones (st : State) : gset string :=
  list_to_set (filter (λ z, z ≠ "") ((λ n, mget (n_Labels n) (st_ZoneLabel st)) <$> st_Nodes st)).
Definition unused_instances `{MapIter} (st : State) (bt : string) : list Finding :=
  let instances := default ∅ (bcInstances <$> Backends (st_Config st) !! bt) in
  sortedKeys instances ≫= λ inst,
    let zone := default "" (Zone <$> instances !! inst) in
    if bool_decide (zone ∈ node_zones st) then []
    else [mkFinding "backend-no-nodes" SeverityInfo ("backend/" +:+ bt +:+ " instance/" +:+ inst)
      [Sprintf "no node carries %s=%q, the zone this instance serves; its volumes cannot be mounted and nothing will provision into it" [AStr (st_ZoneLabel st); AStr zone]]
      [Lit "expected mid-migration or before nodes join; otherwise check the zone value for a typo"]].
Definition checkTopology `{MapIter} (st : State) : list Finding :=
  if negb (st_HaveNodes st) then []
  else (st_Nodes st ≫= node_findings st) ++ (sortedKeys (Backends (st_Config st)) ≫= unused_instances st).

(** ** Attachments *)
Definition attachment_findings (st : State) (va : VolumeAttachment) : list Finding :=
  if negb (bool_decide (va_Attacher va = st_Driver st)) then []
  else
    (if st_HaveNodes st && negb (bool_decide (va_NodeName va = "")) && negb (bool_decide (va_NodeName va ∈ n_Name <$> st_Nodes st)) then
       [mkFinding "stale-attachment" SeverityWarn ("volumeattachment/" +:+ va_Name va)
         [Sprintf "attached to node %q which no longer exists" [AStr (va_NodeName va)]]
         [Lit ("left behind by a deleted node (e.g. the failover path); once sure the node is gone for good, kubectl delete volumeattachment " +:+ va_Name va)]]
     else [])
    ++ (if negb (bool_decide (va_PV va = "")) && negb (bool_decide (va_PV va ∈ pv_Name <$> st_PVs st)) then
       [mkFinding "stale-attachment" SeverityWarn ("volumeattachment/" +:+ va_Name va)
         [Sprintf "references PV %q which no longer exists" [AStr (va_PV va)]]
         [Lit ("kubectl delete volumeattachment " +:+ va_Name va)]]
     else []).
Definition checkAttachments (st : State) : list Finding :=
  if negb (st_HaveAttachments st) then [] else st_Attachments st ≫= attachment_findings st.

(** ** The report *)
(** The order of [sort.SliceStable]'s comparison. *)
Definition finding_le (a b : Finding) : bool :=
  if bool_decide (rank (f_Severity a) = rank (f_Severity b)) then
    if bool_decide (f_Check a = f_Check b) then bool_decide (String.le (f_Resource a) (f_Resource b))
    else bool_decide (String.le (f_Check a) (f_Check b))
  else bool_decide (rank (f_Severity a) ≤ rank (f_Severity b)).
(** A stable sort: an element goes before the first that is not less. *)
Fixpoint insert_stable (f : Finding) (l : list Finding) : list Finding :=
  match l with
  | [] => [f]
  | g :: rest => if finding_le f g then f :: l else g :: insert_stable f rest
  end.
Definition sort_stable (l : list Finding) : list Finding := foldr insert_stable [] l.

Definition count_Z {A} (p : A → bool) (l : list A) : Z := Z.of_nat (length (filter (λ x, p x = true) l)).
Definition sum_lengths `{MapIter} {A} (m : gmap string (list A)) : Z :=
  foldl (λ acc p, (acc + Z.of_nat (length p.2))%Z) 0%Z (range m).
Definition stats `{MapIter} (st : State) : Stats :=
  mkStats (count_Z (λ pv, bool_decide (pv_Driver pv = st_Driver st)) (st_PVs st))
    (sum_lengths (st_BackendVolumes st))
    (count_Z (λ sc, bool_decide (sc_Driver sc = st_Driver st) && negb (bool_decide (sc_SnapshotHandle sc = ""))) (st_SnapshotContents st))
    (sum_lengths (st_BackendSnapshots st))
    (Z.of_nat (length (st_Nodes st)))
    (count_Z (λ va, bool_decide (va_Attacher va = st_Driver st)) (st_Attachments st)).

Definition all_findings `{MapIter} (st : State) : list Finding :=
  let missing := missingInstances st in
  missingInstanceFindings missing ++ checkVolumes st missing ++ checkSnapshots st missing
  ++ checkTopology st ++ checkAttachments st ++ st_Skips st.
Definition Check `{MapIter} (st : State) : Report := mkReport (sort_stable (all_findings st)) (stats st).
End inspect.
