(* ===== verification/InspectCollect.v ===== *)
(** * What the consistency scanner looks at (internal/inspect/collect.go, k8s.go)

    The decoders of the Kubernetes lists, the collection of a [State] over the API and the
    plugins' sockets, and the [--inspect] mode of the driver's binary
    (cmd/bard-csi/main.go) with its exit codes. *)
From Stdlib Require Import Ascii.
From S2P Require Import Prelude GoStrings GoErrors VolumeID Dispatch Config Metrics Backend Json JsonText Protocol Server Client Inflight Driver Controller Wiring KMS InCluster Inspect.

Module inspectcollect.
Import jsontext incluster inspect.

(** ** The lists *)
Abbreviation meta_json := (one "metadata" (one "name" string)).
Abbreviation csi_json := (one "driver" string * one "volumeHandle" string)%type.
Abbreviation claim_json := (one "namespace" string * one "name" string)%type.
Abbreviation pv_json :=
  (meta_json * one "spec" (one "csi" (option csi_json) * one "storageClassName" string * one "claimRef" (option claim_json))
   * one "status" (one "phase" string))%type.
Definition pv_of (it : pv_json) : PV :=
  let '(meta, spec, status) := it in
  let '(csi, class, claim) := the spec in
  let '(driver, handle) := match the csi with Some (d, v) => (the d, the v) | None => ("", "") end in
  mkPV (the (the meta)) driver handle (the (the status)) (the class)
    match the claim with Some (ns, n) => the ns +:+ "/" +:+ the n | None => "" end.

Abbreviation content_json :=
  (meta_json * one "spec" (one "driver" string * one "source" (one "snapshotHandle" string))
   * one "status" (option (one "snapshotHandle" string)))%type.
Definition content_of (it : content_json) : SnapshotContent :=
  let '(meta, spec, status) := it in
  let '(driver, source) := the spec in
  let cut := match the status with Some s => the s | None => "" end in
  mkSnapshotContent (the (the meta)) (the driver) (if bool_decide (cut = "") then the (the source) else cut).

Abbreviation node_item_json := (one "metadata" (one "name" string * one "labels" strmap)).
Definition node_of (it : node_item_json) : Node := let '(name, labels) := the it in mkNode (the name) (the labels).

Abbreviation driver_json := (one "name" string * one "topologyKeys" (list string))%type.
Abbreviation csinode_json := (meta_json * one "spec" (one "drivers" (list driver_json)))%type.
Definition csinode_step (driver : string) (cn : CSINode) (d : driver_json) : CSINode :=
  if bool_decide (the d.1 = driver) then mkCSINode (cn_Name cn) true (the d.2) else cn.
Definition csinode_of (driver : string) (it : csinode_json) : CSINode :=
  foldl (csinode_step driver) (mkCSINode (the (the it.1)) false []) (the (the it.2)).

Abbreviation attachment_json :=
  (meta_json * one "spec" (one "attacher" string * one "nodeName" string * one "source" (one "persistentVolumeName" string))
   * one "status" (one "attached" bool))%type.
Definition attachment_of (it : attachment_json) : VolumeAttachment :=
  let '(meta, spec, status) := it in
  let '(attacher, node, source) := the spec in
  mkAttachment (the (the meta)) (the attacher) (the node) (the (the source)) (the (the status)).

(** A list is decoded and its items are turned into the scanner's own. *)
Definition parse_list {J A} `{Wire J} (fmt : string) (f : J → A) (body : string) : res error (list A) :=
  match unmarshal (A := one "items" (list J)) body with
  | None => Err (plain_error fmt)
  | Some l => Ok (f <$> the l)
  end.
Definition parsePVList : string → res error (list PV) := parse_list "decode PersistentVolumeList: %w" pv_of.
Definition parseSnapshotContentList : string → res error (list SnapshotContent) :=
  parse_list "decode VolumeSnapshotContentList: %w" content_of.
Definition parseNodeList : string → res error (list Node) := parse_list "decode NodeList: %w" node_of.
Definition parseCSINodeList (body driver : string) : res error (list CSINode) :=
  parse_list "decode CSINodeList: %w" (csinode_of driver) body.
Definition parseVolumeAttachmentList : string → res error (list VolumeAttachment) :=
  parse_list "decode VolumeAttachmentList: %w" attachment_of.

(** ** Collecting *)
Section collect.
  Context {T : Type} `{MapIter} `{Env T}.
  Abbreviation op A := (M (World T) error A).

Record Options := mkOptions {
  o_Driver : string; o_ZoneLabel : string; o_Config : Config; o_Registry : backend.Registry T }.

(** [fetch]: what was read, or the SKIP finding that says why not. *)
Definition skip_finding (what affected : string) (detail : text) (hint : list text) : Finding :=
  mkFinding "collect" SeveritySkip what [detail; Lit ("; skipped: " +:+ affected)] hint.
Definition fetch {A} (path what affected : string) (parse : string → res error (list A)) : op (Finding + list A) :=
  catch (GetCode path) (λ r, mret
    match r with
    | Err e => inl (skip_finding what affected (Sprintf "listing failed: %v" [AErr e]) [])
    | Ok (code, body) =>
        if bool_decide (code = StatusOK) then
          match parse body with
          | Err e => inl (skip_finding what affected (Sprintf "%v" [AErr e]) [])
          | Ok l => inr l
          end
        else if bool_decide (code = StatusForbidden) then
          inl (skip_finding what affected (Lit ("RBAC denies reading " +:+ path))
            [Lit ("grant get,list on " +:+ what +:+ " to the controller ServiceAccount (the chart does this by default)")])
        else if bool_decide (code = StatusNotFound) then
          inl (skip_finding what affected (Lit ("API not present (" +:+ path +:+ " is 404)"))
            [Lit "expected when the snapshot CRDs are not installed; otherwise check the API group"])
        else inl (skip_finding what affected (Sprintf "GET %s: HTTP %d: %s" [AStr path; AInt code; AStr body]) [])
    end).
Definition loaded {A} (r : Finding + list A) : list A := match r with inl _ => [] | inr l => l end.
Definition skipped {A} (r : Finding + list A) : list Finding := match r with inl f => [f] | inr _ => [] end.
Definition have {A} (r : Finding + list A) : bool := match r with inl _ => false | inr _ => true end.

(** What the backends list, type by type. *)
Record truth := mkTruth {
  tr_volumes : gmap string (list backend.VolumeListEntry);
  tr_snapshots : gmap string (list backend.SnapshotListEntry);
  tr_unlistedVolumes : gset string;
  tr_unlistedSnapshots : gset string;
  tr_skips : list Finding;
}.
Definition no_truth : truth := mkTruth ∅ ∅ ∅ ∅ [].
Definition list_skip (bt what affected : string) (e : error) : Finding :=
  mkFinding "collect" SeveritySkip ("backend/" +:+ bt)
    [Sprintf "listing %s failed: %v; skipped: %s" [AStr what; AErr e; AStr affected]]
    [Lit "check the plugin sidecar's logs and its backend connectivity"].
Definition add_volumes (bt : string) (r : res error (list backend.VolumeListEntry)) (tr : truth) : truth :=
  match r with
  | Ok vols => mkTruth (<[bt := vols]> (tr_volumes tr)) (tr_snapshots tr) (tr_unlistedVolumes tr) (tr_unlistedSnapshots tr) (tr_skips tr)
  | Err e =>
      if errors_Is e ErrUnsupported
      then mkTruth (tr_volumes tr) (tr_snapshots tr) ({[bt]} ∪ tr_unlistedVolumes tr) (tr_unlistedSnapshots tr) (tr_skips tr)
      else mkTruth (tr_volumes tr) (tr_snapshots tr) (tr_unlistedVolumes tr) (tr_unlistedSnapshots tr)
             (tr_skips tr ++ [list_skip bt "volumes" "ghost-pv, orphan-volume" e])
  end.
Definition add_snapshots (bt : string) (r : res error (list backend.SnapshotListEntry)) (tr : truth) : truth :=
  match r with
  | Ok snaps => mkTruth (tr_volumes tr) (<[bt := snaps]> (tr_snapshots tr)) (tr_unlistedVolumes tr) (tr_unlistedSnapshots tr) (tr_skips tr)
  | Err e =>
      if errors_Is e ErrUnsupported
      then mkTruth (tr_volumes tr) (tr_snapshots tr) (tr_unlistedVolumes tr) ({[bt]} ∪ tr_unlistedSnapshots tr) (tr_skips tr)
      else mkTruth (tr_volumes tr) (tr_snapshots tr) (tr_unlistedVolumes tr) (tr_unlistedSnapshots tr)
             (tr_skips tr ++ [list_skip bt "snapshots" "ghost-snapshot, orphan-snapshot" e])
  end.
Fixpoint collect_types (types : list string) (bes : gmap string (backend.Backend T)) (tr : truth) : op truth :=
  match types with
  | [] => mret tr
  | bt :: types =>
      match bes !! bt with
      | None => collect_types types bes tr
      | Some be =>
          catch (backend.ListVolumes be) (λ vols,
          catch (backend.ListSnapshots be) (λ snaps,
            collect_types types bes (add_snapshots bt snaps (add_volumes bt vols tr))))
      end
  end.
Definition collectBackendTruth (bes : gmap string (backend.Backend T)) : op truth :=
  collect_types (sortedKeys bes) bes no_truth.

Definition ghost_candidate (driver : string) (sets : gmap string (gset string)) (pv : PV) : list Handle :=
  if negb (bool_decide (pv_Driver pv = driver)) then []
  else match Parse (pv_VolumeHandle pv) with
       | Err _ => []
       | Ok h =>
           match sets !! hBackend h with
           | Some set => if bool_decide (pv_VolumeHandle pv ∈ set) then [] else [h]
           | None => []
           end
       end.
Definition ghostCandidates (driver : string) (pvs : list PV) (volumes : gmap string (list backend.VolumeListEntry)) : list Handle :=
  pvs ≫= ghost_candidate driver (handle_sets backend.vl_Handle volumes).

(** The verdict of a probe; [None] when the backend has no probe. *)
Definition probe_of (r : res error backend.VolumeHealth) : option HealthProbe :=
  match r with
  | Err e =>
      if errors_Is e ErrUnsupported then None
      else if errors_Is e ErrInvalidArgument then Some (mkProbe false false true (Some e))
      else if errors_Is e ErrNotFound then Some (mkProbe true false false None)
      else Some (mkProbe false false false (Some e))
  | Ok health => Some (if backend.Abnormal health then mkProbe true false false None else mkProbe false true false None)
  end.
Fixpoint probe_all (hs : list Handle) (bes : gmap string (backend.Backend T)) (probes : gmap string HealthProbe)
    : op (gmap string HealthProbe) :=
  match hs with
  | [] => mret probes
  | h :: hs =>
      match bes !! hBackend h with
      | None => probe_all hs bes probes
      | Some be =>
          catch (backend.GetVolumeHealth be h ∅) (λ r,
            probe_all hs bes match probe_of r with Some p => <[Handle_String h := p]> probes | None => probes end)
      end
  end.

(** The registry's backends by type. *)
Fixpoint backends_of (types : list string) (reg : backend.Registry T) : res error (gmap string (backend.Backend T)) :=
  match types with
  | [] => Ok ∅
  | bt :: types => be ← backend.Get reg bt; bes ← backends_of types reg; Ok (<[bt := be]> bes)
  end.

Definition Collect (o : Options) : op State :=
  cb ← run_err (λ e, mkError (err_chain e) "list PersistentVolumes: %w") (GetCode "/api/v1/persistentvolumes");
  guard_ (bool_decide (cb.1 = StatusOK)) (plain_error "list PersistentVolumes: HTTP %d: %s");;
  pvs ← lift (parsePVList cb.2);
  contents ← fetch "/apis/snapshot.storage.k8s.io/v1/volumesnapshotcontents" "volumesnapshotcontents"
    "ghost-snapshot, orphan-snapshot" parseSnapshotContentList;
  nodes ← fetch "/api/v1/nodes" "nodes" "topology checks" parseNodeList;
  csinodes ← fetch "/apis/storage.k8s.io/v1/csinodes" "csinodes" "driver-registration checks"
    (λ b, parseCSINodeList b (o_Driver o));
  attachments ← fetch "/apis/storage.k8s.io/v1/volumeattachments" "volumeattachments" "stale-attachment"
    parseVolumeAttachmentList;
  bes ← lift (backends_of (backend.Types (o_Registry o)) (o_Registry o));
  tr ← collectBackendTruth bes;
  probes ← probe_all (ghostCandidates (o_Driver o) pvs (tr_volumes tr)) bes ∅;
  mret (mkState (o_Driver o) (o_ZoneLabel o) (o_Config o) pvs (loaded contents) (loaded nodes) (loaded csinodes)
    (loaded attachments) (tr_volumes tr) (tr_snapshots tr) (tr_unlistedVolumes tr) (tr_unlistedSnapshots tr) probes
    (skipped contents ++ skipped nodes ++ skipped csinodes ++ skipped attachments ++ tr_skips tr)
    (have contents) (have nodes) (have csinodes) (have attachments)).
End collect.
Arguments Options : clear implicits.

(** ** The [--inspect] mode (cmd/bard-csi/main.go) *)
Section run.
  Context {T : Type} `{MapIter} `{Env T}.
  Context (connect : string → plugin.Transport T) (wait : nat → plugin.waited).
  (* the YAML decoder, and whether standard output takes what is written *)
  Context (yaml : string → res error Config) (stdout_ok : bool).

Definition loadConfig (configSrc configPath : string) : M (World T) error Config :=
  if bool_decide (configSrc = "crd") then LoadFromAPI
  else if bool_decide (configSrc = "file") then
    r ← on_env (readFile configPath);
    lift (Load (map_err plain_error r) yaml)
  else fail (plain_error "--config-source must be crd or file, got %q").

(** The exit code, and the report that was written; [None] is [Dial] out of fuel. *)
Definition runInspect (configSrc configPath zoneLabel output : string) (w : World T) : option (World T * (Z * option Report)) :=
  if negb (bool_decide (output = "table")) && negb (bool_decide (output = "json")) then Some (w, (2%Z, None))
  else
    let zoneLabel := if bool_decide (zoneLabel = "") then "topology.kubernetes.io/zone" else zoneLabel in
    match loadConfig configSrc configPath w with
    | (w, Err _) => Some (w, (2%Z, None))
    | (w, Ok cfg) =>
        match wiring.build connect wait cfg w with
        | None => None
        | Some (w, Err _) => Some (w, (2%Z, None))
        | Some (w, Ok bk) =>
            match Collect (mkOptions DriverName zoneLabel cfg (registry bk)) w with
            | (w, Err _) => Some (w, (2%Z, None))
            | (w, Ok st) =>
                let report := Check st in
                if bool_decide (output = "json") && negb stdout_ok then Some (w, (2%Z, None))
                else Some (w, (if HasErrors report then 1%Z else 0%Z, Some report))
            end
        end
    end.
End run.
End inspectcollect.
