(* ===== verification/InspectSafety.v ===== *)
(** * What the consistency scanner promises (internal/inspect)

    A report without findings means what the table says, that Kubernetes and the backends
    agree; a volume is reported gone only when its backend does not list it and no probe
    found it; the zone check agrees with the dispatcher it mirrors; and a scan changes
    nothing. *)
From Stdlib Require Import Ascii.
From S2P Require Import Prelude GoStrings GoErrors VolumeID Dispatch Config Metrics Backend Json JsonText Protocol Server Client Inflight Driver Controller Wiring KMS InCluster Inspect InspectCollect.

Module inspectsafety.
Import incluster inspect inspectcollect.

(** ** Sorting *)
Lemma insert_stable_perm f l : insert_stable f l ≡ₚ f :: l.
Proof. induction l as [|g l IH]; simpl; [done|]. destruct (finding_le f g); [done|]. rewrite IH. constructor. Qed.
Lemma sort_stable_perm l : sort_stable l ≡ₚ l.
Proof. induction l as [|f l IH]; simpl; [done|]. by rewrite insert_stable_perm, IH. Qed.

Section scan.
  Context `{MapIter}.

Lemma elem_of_sortedKeys {V} (m : gmap string V) k : k ∈ sortedKeys m ↔ is_Some (m !! k).
Proof.
  unfold sortedKeys, range_keys. rewrite (merge_sort_Permutation String.le), list_elem_of_fmap. split.
  - intros ([k' v] & -> & Hin%elem_of_range). by exists v.
  - intros [v Hv]. exists (k, v). split; [done|]. by apply elem_of_range.
Qed.
Lemma sortedKeys_nil {V} (m : gmap string V) : sortedKeys m = [] → m = ∅.
Proof.
  intros Hs. apply map_empty. intros k. apply eq_None_not_Some. intros Hk%elem_of_sortedKeys. rewrite Hs in Hk. by apply not_elem_of_nil in Hk.
Qed.

Implicit Types (st : State) (a : tally).

(** ** The loops, object by object

    An iteration adds findings, handles, and at most one count, whatever was added before. *)
Section loop.
  Context {X : Type} (step : tally → X → tally) (refs : X → gset string) (un : X → option string).
Definition adds : Prop := ∀ a x, t_out (step a x) = t_out a ++ t_out (step no_tally x) ∧
  t_handles (step a x) = refs x ∪ t_handles a ∧
  t_unverifiable (step a x) = t_unverifiable (match un x with Some bt => bump bt a | None => a end).
Context (Hadds : adds).
Lemma loop_out a l : t_out (foldl step a l) = t_out a ++ (l ≫= λ x, t_out (step no_tally x)).
Proof.
  revert a. induction l as [|x l IH]; intros a; simpl; [by rewrite app_nil_r|]. by rewrite IH, (proj1 (Hadds a x)), app_assoc.
Qed.
Lemma loop_handles a l s : s ∈ t_handles (foldl step a l) ↔ s ∈ t_handles a ∨ ∃ x, x ∈ l ∧ s ∈ refs x.
Proof.
  revert a. induction l as [|x l IH]; intros a; simpl; [set_solver|]. rewrite IH, (proj1 (proj2 (Hadds a x))). set_solver.
Qed.
Lemma loop_unverifiable a l bt x : x ∈ l → un x = Some bt → is_Some (t_unverifiable (foldl step a l) !! bt).
Proof.
  assert (∀ l a, is_Some (t_unverifiable a !! bt) → is_Some (t_unverifiable (foldl step a l) !! bt)) as Hkeep.
  { clear l a. induction l as [|y l IH]; intros a Ha; simpl; [done|]. apply IH. rewrite (proj2 (proj2 (Hadds a y))).
    destruct (un y) as [b|]; [|done]. unfold bump. simpl. rewrite lookup_insert_is_Some'. by right. }
  revert a. induction l as [|y l IH]; intros a; [by intros ?%not_elem_of_nil|]. rewrite elem_of_cons. intros [<-|Hin] Hun; [|by apply IH].
  simpl. apply Hkeep. rewrite (proj2 (proj2 (Hadds a x))), Hun. unfold bump. simpl. rewrite lookup_insert_is_Some'. by left.
Qed.
End loop.

(** The backend of an object that cannot be verified. *)
Definition unlisted_of (unlisted : gset string) (r : res error Handle) : option string :=
  match r with Ok h => if bool_decide (hBackend h ∈ unlisted) then Some (hBackend h) else None | Err _ => None end.
Definition ref_of (hs : string) : gset string := match Parse hs with Ok _ => {[hs]} | Err _ => ∅ end.
Definition own_pv st (pv : PV) : bool := bool_decide (pv_Driver pv = st_Driver st).
Definition own_content st (sc : SnapshotContent) : bool :=
  bool_decide (sc_Driver sc = st_Driver st) && negb (bool_decide (sc_SnapshotHandle sc = "")).

Lemma volume_adds st missing sets : adds (volume_step st missing sets)
  (λ pv, if own_pv st pv then ref_of (pv_VolumeHandle pv) else ∅)
  (λ pv, if own_pv st pv then unlisted_of (st_UnlistedVolumes st) (Parse (pv_VolumeHandle pv)) else None).
Proof.
  intros a pv. unfold volume_step, own_pv, ref_of, unlisted_of, verify_volume.
  destruct (bool_decide (pv_Driver pv = st_Driver st)); simpl; [|rewrite app_nil_r, (left_id_L ∅ (∪)); done].
  destruct (Parse (pv_VolumeHandle pv)) as [h|e]; simpl; [|by rewrite (left_id_L ∅ (∪))].
  repeat case_match; simplify_eq; simpl; rewrite ?app_nil_r, <-?app_assoc; done.
Qed.
Lemma snapshot_adds st missing sets : adds (snapshot_step st missing sets)
  (λ sc, if own_content st sc then ref_of (sc_SnapshotHandle sc) else ∅)
  (λ sc, if own_content st sc then unlisted_of (st_UnlistedSnapshots st) (Parse (sc_SnapshotHandle sc)) else None).
Proof.
  intros a sc. unfold snapshot_step, own_content, ref_of, unlisted_of, verify_snapshot.
  destruct (bool_decide (sc_Driver sc = st_Driver st)); simpl; [|rewrite app_nil_r, (left_id_L ∅ (∪)); done].
  destruct (bool_decide (sc_SnapshotHandle sc = "")); simpl; [rewrite app_nil_r, (left_id_L ∅ (∪)); done|].
  destruct (Parse (sc_SnapshotHandle sc)) as [h|e]; simpl; [|by rewrite (left_id_L ∅ (∪))].
  repeat case_match; simplify_eq; simpl; rewrite ?app_nil_r, <-?app_assoc; done.
Qed.

(** ** Nothing found *)
Definition configured st (h : Handle) : Prop :=
  ∃ bc, Backends (st_Config st) !! hBackend h = Some bc ∧ is_Some (bcInstances bc !! hInstance h).
Lemma handle_configured st h r : checkHandleConfig st h r = None → configured st h.
Proof. unfold checkHandleConfig, configured. intros Hc. destruct (Backends _ !! _) as [bc|]; [|done]. exists bc. split; [done|]. by destruct (bcInstances bc !! _). Qed.
Lemma elem_of_handle_sets {E} (key : E → Handle) listed bt s :
  (∃ set, handle_sets key listed !! bt = Some set ∧ s ∈ set) ↔ ∃ es e, listed !! bt = Some es ∧ e ∈ es ∧ Handle_String (key e) = s.
Proof.
  unfold handle_sets. setoid_rewrite lookup_fmap_Some. split.
  - intros (set & (es & <- & Hes) & Hs). apply elem_of_list_to_set in Hs. apply list_elem_of_fmap in Hs as (e & -> & He). eauto.
  - intros (es & e & Hes & He & <-). eexists. split; [by eexists|]. apply elem_of_list_to_set, list_elem_of_fmap. eauto.
Qed.

(** What a quiet iteration means: the object's handle is configured, and where its backend
    was listed, it is in the list. *)
Definition verified {E} (key : E → Handle) (listed : gmap string (list E)) st (hs : string) (h : Handle) : Prop :=
  Parse hs = Ok h ∧ configured st h ∧
  ∀ es, listed !! hBackend h = Some es → ∃ e, e ∈ es ∧ Handle_String (key e) = hs.
Lemma listed_in {E} (key : E → Handle) listed bt set s es :
  handle_sets key listed !! bt = Some set → s ∈ set → listed !! bt = Some es → ∃ e, e ∈ es ∧ Handle_String (key e) = s.
Proof.
  intros Hset Hs Hes. destruct (proj1 (elem_of_handle_sets key listed bt s)) as (es' & e & Hes' & He & Heq); [by exists set|]. simplify_eq. eauto.
Qed.
Lemma not_listed {E} (key : E → Handle) listed bt es : handle_sets key listed !! bt = None → listed !! bt = Some es → False.
Proof. unfold handle_sets. rewrite lookup_fmap. intros Hn Hes. by rewrite Hes in Hn. Qed.

Lemma volume_quiet st sets pv : sets = handle_sets backend.vl_Handle (st_BackendVolumes st) → own_pv st pv = true →
  t_out (volume_step st ∅ sets no_tally pv) = [] → unlisted_of (st_UnlistedVolumes st) (Parse (pv_VolumeHandle pv)) = None →
  ∃ h, verified backend.vl_Handle (st_BackendVolumes st) st (pv_VolumeHandle pv) h ∧ hBackend h ∉ st_UnlistedVolumes st.
Proof.
  intros -> Hown. unfold volume_step. unfold own_pv in Hown. rewrite Hown. simpl.
  destruct (Parse (pv_VolumeHandle pv)) as [h|e] eqn:Hp; [|done]. unfold verify_volume, unlisted_of.
  destruct (bool_decide_reflect (hBackend h ∈ st_UnlistedVolumes st)) as [Hun|Hun]; [done|].
  destruct (checkHandleConfig st h _) as [f|] eqn:Hc; [by repeat case_match|]. intros Hout _. exists h. split; [|done].
  split; [done|]. split; [by eapply handle_configured|]. intros es Hes.
  destruct (handle_sets _ _ !! hBackend h) as [set|] eqn:Hset; [|by destruct (not_listed _ _ _ _ Hset Hes)].
  case_bool_decide as Hin; [by eapply listed_in|]. rewrite bool_decide_eq_false_2 in Hout by (rewrite lookup_empty; by intros []).
  by destruct (default false _).
Qed.
Lemma snapshot_quiet st sets sc : sets = handle_sets backend.sl_Handle (st_BackendSnapshots st) → own_content st sc = true →
  t_out (snapshot_step st ∅ sets no_tally sc) = [] → unlisted_of (st_UnlistedSnapshots st) (Parse (sc_SnapshotHandle sc)) = None →
  ∃ h, verified backend.sl_Handle (st_BackendSnapshots st) st (sc_SnapshotHandle sc) h ∧ hBackend h ∉ st_UnlistedSnapshots st.
Proof.
  intros -> Hown. unfold snapshot_step. unfold own_content in Hown. apply andb_true_iff in Hown as [Hown Hne]. rewrite Hown.
  apply negb_true_iff in Hne. rewrite Hne. simpl.
  destruct (Parse (sc_SnapshotHandle sc)) as [h|e] eqn:Hp; [|done]. unfold verify_snapshot, unlisted_of.
  destruct (bool_decide_reflect (hBackend h ∈ st_UnlistedSnapshots st)) as [Hun|Hun]; [done|].
  destruct (checkHandleConfig st h _) as [f|] eqn:Hc; [by repeat case_match|]. intros Hout _. exists h. split; [|done].
  split; [done|]. split; [by eapply handle_configured|]. intros es Hes.
  destruct (handle_sets _ _ !! hBackend h) as [set|] eqn:Hset; [|by destruct (not_listed _ _ _ _ Hset Hes)].
  case_bool_decide as Hin; [by eapply listed_in|]. by rewrite bool_decide_eq_false_2 in Hout by (rewrite lookup_empty; by intros []).
Qed.

Lemma missing_quiet (missing : gmap string (option error)) : missingInstanceFindings missing = [] → missing = ∅.
Proof. intros Hm%fmap_nil_inv. by apply sortedKeys_nil. Qed.
Lemma unverifiable_quiet fmt counts : unverifiable_findings fmt counts = [] → counts = ∅.
Proof. intros Hm%fmap_nil_inv. by apply sortedKeys_nil. Qed.
Lemma bind_quiet {A B} (f : A → list B) l x : l ≫= f = [] → x ∈ l → f x = [].
Proof. intros Hl Hx. apply elem_of_nil_inv. intros y Hy. apply (not_elem_of_nil y). rewrite <-Hl. apply list_elem_of_bind. eauto. Qed.
Lemma orphans_quiet {E} (key : E → Handle) f listed handles bt es e :
  orphans key f listed handles = [] → listed !! bt = Some es → e ∈ es → Handle_String (key e) ∈ handles.
Proof.
  intros Ho Hes He. assert (bt ∈ sortedKeys listed) as Hbt by (apply elem_of_sortedKeys; by exists es).
  apply (bind_quiet _ _ _ Ho) in Hbt. rewrite Hes in Hbt. simpl in Hbt. apply fmap_nil_inv in Hbt.
  destruct (decide (Handle_String (key e) ∈ handles)) as [|Hn]; [done|].
  exfalso. apply (not_elem_of_nil e). rewrite <-Hbt. by apply list_elem_of_filter.
Qed.

(** Volumes on both sides. *)
Definition volumes_agree st : Prop :=
  (∀ pv, pv ∈ st_PVs st → own_pv st pv = true →
     ∃ h, verified backend.vl_Handle (st_BackendVolumes st) st (pv_VolumeHandle pv) h ∧ hBackend h ∉ st_UnlistedVolumes st) ∧
  (∀ bt es e, st_BackendVolumes st !! bt = Some es → e ∈ es →
     ∃ pv, pv ∈ st_PVs st ∧ own_pv st pv = true ∧ pv_VolumeHandle pv = Handle_String (backend.vl_Handle e)).
Definition snapshots_agree st : Prop :=
  (∀ sc, sc ∈ st_SnapshotContents st → own_content st sc = true →
     ∃ h, verified backend.sl_Handle (st_BackendSnapshots st) st (sc_SnapshotHandle sc) h ∧ hBackend h ∉ st_UnlistedSnapshots st) ∧
  (∀ bt es e, st_BackendSnapshots st !! bt = Some es → e ∈ es →
     ∃ sc, sc ∈ st_SnapshotContents st ∧ own_content st sc = true ∧ sc_SnapshotHandle sc = Handle_String (backend.sl_Handle e)).
Lemma elem_of_ref_of s hs : s ∈ ref_of hs → hs = s.
Proof. unfold ref_of. destruct (Parse hs); set_solver. Qed.
Lemma volumes_quiet st : checkVolumes st ∅ = [] → volumes_agree st.
Proof.
  unfold checkVolumes. set (sets := handle_sets _ _). pose proof (volume_adds st ∅ sets) as Hadds.
  intros [Hout [Horph Hun%unverifiable_quiet]%app_nil]%app_nil. rewrite (loop_out _ _ _ Hadds) in Hout. simpl in Hout. split.
  - intros pv Hpv Hown. apply (volume_quiet st sets); [done..| |].
    + by apply (bind_quiet _ _ _ Hout).
    + destruct (unlisted_of _ _) as [bt|] eqn:Hbt; [|done]. exfalso.
      destruct (loop_unverifiable _ _ _ Hadds no_tally (st_PVs st) bt pv Hpv) as [n Hn]; [by rewrite Hown|].
      by rewrite Hun, lookup_empty in Hn.
  - intros bt es e Hes He. apply (orphans_quiet _ _ _ _ _ _ _ Horph Hes) in He.
    apply (loop_handles _ _ _ Hadds) in He as [?|(pv & Hpv & Hr)]; [set_solver|].
    destruct (own_pv st pv) eqn:Hown; [|set_solver]. exists pv. by apply elem_of_ref_of in Hr.
Qed.
Lemma snapshots_quiet st : st_HaveSnapshotContents st = true → checkSnapshots st ∅ = [] → snapshots_agree st.
Proof.
  unfold checkSnapshots. intros ->. simpl. set (sets := handle_sets _ _). pose proof (snapshot_adds st ∅ sets) as Hadds.
  intros [Hout [Horph Hun%unverifiable_quiet]%app_nil]%app_nil. rewrite (loop_out _ _ _ Hadds) in Hout. simpl in Hout. split.
  - intros sc Hsc Hown. apply (snapshot_quiet st sets); [done..| |].
    + by apply (bind_quiet _ _ _ Hout).
    + destruct (unlisted_of _ _) as [bt|] eqn:Hbt; [|done]. exfalso.
      destruct (loop_unverifiable _ _ _ Hadds no_tally (st_SnapshotContents st) bt sc Hsc) as [n Hn]; [by rewrite Hown|].
      by rewrite Hun, lookup_empty in Hn.
  - intros bt es e Hes He. apply (orphans_quiet _ _ _ _ _ _ _ Horph Hes) in He.
    apply (loop_handles _ _ _ Hadds) in He as [?|(sc & Hsc & Hr)]; [set_solver|].
    destruct (own_content st sc) eqn:Hown; [|set_solver]. exists sc. by apply elem_of_ref_of in Hr.
Qed.

(** Attachments and topology. *)
Definition attached_to_real st : Prop := ∀ va, va ∈ st_Attachments st → va_Attacher va = st_Driver st →
  (va_NodeName va = "" ∨ va_NodeName va ∈ n_Name <$> st_Nodes st) ∧ (va_PV va = "" ∨ va_PV va ∈ pv_Name <$> st_PVs st).
Lemma attachments_quiet st :
  st_HaveAttachments st = true → st_HaveNodes st = true → checkAttachments st = [] → attached_to_real st.
Proof.
  unfold checkAttachments. intros -> Hn. simpl. intros Hq va Hva Hown. apply (bind_quiet _ _ _ Hq) in Hva.
  unfold attachment_findings in Hva. rewrite bool_decide_eq_true_2, Hn in Hva by done. simpl in Hva. apply app_nil in Hva as [H1 H2].
  split.
  - destruct (bool_decide_reflect (va_NodeName va = "")); [by left|]. right. by destruct (bool_decide_reflect (va_NodeName va ∈ n_Name <$> st_Nodes st)).
  - destruct (bool_decide_reflect (va_PV va = "")); [by left|]. right. by destruct (bool_decide_reflect (va_PV va ∈ pv_Name <$> st_PVs st)).
Qed.
Definition zones_served st : Prop := ∀ n, n ∈ st_Nodes st → mget (n_Labels n) (st_ZoneLabel st) ≠ "" →
  default false (cn_HasDriver <$> csi_by_name st !! n_Name n) = true →
  ∀ bt, is_Some (Backends (st_Config st) !! bt) → zoneResolvable (st_Config st) bt (mget (n_Labels n) (st_ZoneLabel st)) = true.
Lemma topology_quiet st : st_HaveNodes st = true → checkTopology st = [] → zones_served st.
Proof.
  unfold checkTopology. intros ->. simpl. intros [Hq _]%app_nil n Hn Hz Hreg bt [bc Hbt]. apply (bind_quiet _ _ _ Hq) in Hn.
  unfold node_findings in Hn. rewrite Hreg in Hn. apply app_nil in Hn as [_ [_ Hn]%app_nil]. simpl in Hn.
  rewrite (bool_decide_eq_false_2 _ Hz) in Hn. simpl in Hn. case_bool_decide as Hu; [|done]. apply not_false_is_true. intros Hzr.
  apply (not_elem_of_nil bt). rewrite <-Hu. unfold unresolvable. rewrite (merge_sort_Permutation String.le), list_elem_of_filter. split; [done|].
  unfold range_keys. apply list_elem_of_fmap. exists (bt, bc). split; [done|]. by apply elem_of_range.
Qed.

(** ** Instances the plugin cannot see *)
Definition invisible st (h : Handle) : Prop := ∃ hs p h', st_HealthProbes st !! hs = Some p ∧ hp_InstanceUnknown p = true ∧
  Parse hs = Ok h' ∧ hBackend h' = hBackend h ∧ hInstance h' = hInstance h.
Lemma instance_key_inj hs1 hs2 h1 h2 : Parse hs1 = Ok h1 → Parse hs2 = Ok h2 →
  instance_key h1 = instance_key h2 → hBackend h1 = hBackend h2 ∧ hInstance h1 = hInstance h2.
Proof.
  intros [_ (_ & _ & _ & Hf1 & _)%Validate_ok]%Parse_inv [_ (_ & _ & _ & Hf2 & _)%Validate_ok]%Parse_inv Heq.
  assert (∀ h, Forall (λ f, contains_char sep_byte f = false) (handle_fields h) →
    split_on sep_byte (instance_key h) = [hBackend h; hInstance h]) as Hs.
  { intros h Hf. change (instance_key h) with (join (String sep_byte "") [hBackend h; hInstance h]).
    apply split_join; [done|]. unfold handle_fields in Hf. rewrite !Forall_cons in Hf. destruct Hf as (? & ? & _). by repeat constructor. }
  pose proof (Hs h1 Hf1) as H1. rewrite Heq, (Hs h2 Hf2) in H1. by injection H1 as -> ->.
Qed.
Lemma missing_fold l acc k : is_Some (foldl missing_step acc l !! k) ↔ is_Some (acc !! k) ∨
  ∃ hs p h, (hs, p) ∈ l ∧ hp_InstanceUnknown p = true ∧ Parse hs = Ok h ∧ instance_key h = k.
Proof.
  revert acc. induction l as [|[hs p] l IH]; intros acc; simpl.
  { split; [by left|]. by intros [?|(? & ? & ? & ?%not_elem_of_nil & _)]. }
  rewrite IH. setoid_rewrite elem_of_cons. unfold missing_step. simpl.
  assert (∀ P : Prop, (P ↔ is_Some (acc !! k) ∨ ∃ h, hp_InstanceUnknown p = true ∧ Parse hs = Ok h ∧ instance_key h = k) →
    (P ∨ ∃ hs p h, (hs, p) ∈ l ∧ hp_InstanceUnknown p = true ∧ Parse hs = Ok h ∧ instance_key h = k) ↔
    is_Some (acc !! k) ∨ ∃ hs0 p0 h, ((hs0, p0) = (hs, p) ∨ (hs0, p0) ∈ l) ∧ hp_InstanceUnknown p0 = true ∧ Parse hs0 = Ok h ∧ instance_key h = k) as Hgo.
  { intros P ->. split.
    - intros [[?|(h & ?)]|(hs' & p' & h & ? & ?)]; [by left|right; exists hs, p, h; tauto|right; exists hs', p', h; tauto].
    - intros [?|(hs' & p' & h & [Heq|?] & Hr)]; [by left; left|injection Heq as -> ->; left; right; by exists h|right; by exists hs', p', h]. }
  apply Hgo. clear Hgo. destruct (hp_InstanceUnknown p) eqn:Hu; simpl; [|split; [by left|by intros [?|(? & ? & _)]]].
  destruct (Parse hs) as [h|e] eqn:Hp; [|split; [by left|by intros [?|(? & _ & ? & _)]]].
  assert (is_Some (match acc !! instance_key h with Some _ => acc | None => <[instance_key h:=hp_Err p]> acc end !! k) ↔
    is_Some (acc !! k) ∨ instance_key h = k) as ->.
  { destruct (acc !! instance_key h) eqn:Ha; [|rewrite lookup_insert_is_Some'; tauto]. split; [tauto|]. intros [?|<-]; [done|]. by eexists. }
  split; [intros [?|?]; [by left|right; by exists h]|]. intros [?|(h' & _ & [= <-] & ?)]; [by left|by right].
Qed.
Lemma missing_invisible st hs h : Parse hs = Ok h → is_Some (missingInstances st !! instance_key h) ↔ invisible st h.
Proof.
  intros Hp. unfold missingInstances. rewrite missing_fold, lookup_empty. split.
  - intros [[? ?]|(hs' & p & h' & Hin%elem_of_range & Hu & Hp' & Hk)]; [done|]. exists hs', p, h'.
    destruct (instance_key_inj _ _ _ _ Hp' Hp Hk). done.
  - intros (hs' & p & h' & Hin & Hu & Hp' & Hb & Hi). right. exists hs', p, h'. split; [by apply elem_of_range|].
    split; [done|]. split; [done|]. unfold instance_key. by rewrite Hb, Hi.
Qed.

(** ** Volumes reported gone *)
Definition gone st (pv : PV) : Prop := own_pv st pv = true ∧ ∃ h es, Parse (pv_VolumeHandle pv) = Ok h ∧
  (hBackend h ∉ st_UnlistedVolumes st) ∧ st_BackendVolumes st !! hBackend h = Some es ∧
  (∀ e, e ∈ es → Handle_String (backend.vl_Handle e) ≠ pv_VolumeHandle pv) ∧
  (∀ p, st_HealthProbes st !! pv_VolumeHandle pv = Some p → hp_Healthy p = false) ∧ ¬ invisible st h.
Definition named (check resource : string) (f : Finding) : Prop := f_Check f = check ∧ f_Resource f = resource.
Definition is_ghost (f : Finding) : bool := bool_decide (f_Check f = "ghost-pv").

Lemma config_not_ghost st h r f : checkHandleConfig st h r = Some f → is_ghost f = false.
Proof. unfold checkHandleConfig. repeat case_match; intros [= <-]; done. Qed.
Lemma verify_volume_out st missing sets pv h a :
  t_out (verify_volume st missing sets pv h a) = t_out a ++ t_out (verify_volume st missing sets pv h no_tally).
Proof. unfold verify_volume. repeat case_match; simpl; rewrite ?app_nil_r; done. Qed.
(** The ghosts of one verification. *)
Lemma verify_ghost st pv h (sets := handle_sets backend.vl_Handle (st_BackendVolumes st)) :
  Parse (pv_VolumeHandle pv) = Ok h →
  (∃ f, f ∈ t_out (verify_volume st (missingInstances st) sets pv h no_tally) ∧ is_ghost f = true) ↔
  ∃ es, (hBackend h ∉ st_UnlistedVolumes st) ∧ st_BackendVolumes st !! hBackend h = Some es ∧
    (∀ e, e ∈ es → Handle_String (backend.vl_Handle e) ≠ pv_VolumeHandle pv) ∧
    (∀ p, st_HealthProbes st !! pv_VolumeHandle pv = Some p → hp_Healthy p = false) ∧ ¬ invisible st h.
Proof.
  intros Hp. assert (¬ ∃ f : Finding, f ∈ [] ∧ is_ghost f = true) as Hnone by (intros (f & ?%not_elem_of_nil & _); done).
  unfold verify_volume. destruct (bool_decide_reflect (hBackend h ∈ st_UnlistedVolumes st)) as [Hun|Hun]; [simpl; naive_solver|].
  destruct (sets !! hBackend h) as [set|] eqn:Hset; [|simpl; split; [naive_solver|]; intros (es & _ & Hes & _); by destruct (not_listed _ _ _ _ Hset Hes)].
  assert (∃ es, st_BackendVolumes st !! hBackend h = Some es) as [es Hes].
  { unfold sets, handle_sets in Hset. rewrite lookup_fmap in Hset. destruct (st_BackendVolumes st !! hBackend h); [by eexists|done]. }
  destruct (bool_decide_reflect (pv_VolumeHandle pv ∈ set)) as [Hin|Hin].
  { simpl. split; [naive_solver|]. intros (es' & _ & Hes' & Hno & _). destruct (listed_in _ _ _ _ _ _ Hset Hin Hes') as (e & He & Heq). by destruct (Hno e He). }
  pose proof (missing_invisible st _ _ Hp) as Hmi.
  destruct (bool_decide_reflect (is_Some (missingInstances st !! instance_key h))) as [Hm|Hm]; [simpl; naive_solver|].
  destruct (default false _) eqn:Hh.
  - split; [intros (f & [->|?%not_elem_of_nil]%elem_of_cons & ?); done|]. intros (_ & _ & _ & _ & Hpr & _).
    destruct (st_HealthProbes st !! pv_VolumeHandle pv) as [p|]; [|done]. simpl in Hh. by rewrite Hpr in Hh.
  - split; [intros _|intros _; eexists; split; [by left|done]]. exists es. split; [done|]. split; [done|]. split; [|split; [|tauto]].
    + intros e He Heq. apply Hin. destruct (proj2 (elem_of_handle_sets backend.vl_Handle (st_BackendVolumes st) (hBackend h) (pv_VolumeHandle pv))) as (set' & Hset' & ?); [by exists es, e|].
      fold sets in Hset'. congruence.
    + intros p Hpr. by rewrite Hpr in Hh.
Qed.
Lemma step_ghost st pv (sets := handle_sets backend.vl_Handle (st_BackendVolumes st)) :
  (∃ f, f ∈ t_out (volume_step st (missingInstances st) sets no_tally pv) ∧ is_ghost f = true) ↔ gone st pv.
Proof.
  subst sets. unfold gone, volume_step, own_pv. destruct (bool_decide (pv_Driver pv = st_Driver st)); simpl; [|split; [set_solver|by intros [? _]]].
  destruct (Parse (pv_VolumeHandle pv)) as [h|e] eqn:Hp; [|split; [intros (f & Hf & Hg); apply list_elem_of_singleton in Hf; by subst|by intros (_ & ? & ? & ? & _)]].
  assert (∀ fs, (∃ f, f ∈ option_list (checkHandleConfig st h ("pv/" +:+ pv_Name pv)) ++ fs ∧ is_ghost f = true) ↔
    ∃ f, f ∈ fs ∧ is_ghost f = true) as Hpre.
  { intros fs. split; [|intros (f & ? & ?); exists f; set_solver]. intros (f & [Hf|Hf]%elem_of_app & Hg); [|by eauto]. exfalso.
    destruct (checkHandleConfig _ _ _) as [g|] eqn:Hc; [|set_solver]. apply list_elem_of_singleton in Hf as ->.
    apply config_not_ghost in Hc. congruence. }
  rewrite verify_volume_out. simpl. rewrite Hpre, (verify_ghost st pv h Hp). split.
  - intros (es & Hr). split; [done|]. by exists h, es.
  - intros (_ & h' & es & [= <-] & Hr). by exists es.
Qed.

Lemma step_resource st missing sets pv f :
  f ∈ t_out (volume_step st missing sets no_tally pv) → f_Resource f = "pv/" +:+ pv_Name pv.
Proof.
  assert (∀ h g, checkHandleConfig st h ("pv/" +:+ pv_Name pv) = Some g → f_Resource g = "pv/" +:+ pv_Name pv) as Hc.
  { intros h g. unfold checkHandleConfig. repeat case_match; by intros [= <-]. }
  unfold volume_step. destruct (negb _); [by intros ?%not_elem_of_nil|]. destruct (Parse _) as [h|e]; [|by intros ->%list_elem_of_singleton].
  rewrite verify_volume_out, elem_of_app. intros [Hf|Hf].
  - simpl in Hf. destruct (checkHandleConfig st h _) as [g|] eqn:Hg; [|by apply not_elem_of_nil in Hf].
    apply list_elem_of_singleton in Hf as ->. by apply (Hc h).
  - revert Hf. unfold verify_volume. repeat case_match; simpl; try (by intros ?%not_elem_of_nil); by intros ->%list_elem_of_singleton.
Qed.

(** No other check calls a finding a ghost. *)
Definition no_ghosts (l : list Finding) : Prop := Forall (λ f, is_ghost f = false) l.
Lemma no_ghosts_app l1 l2 : no_ghosts l1 → no_ghosts l2 → no_ghosts (l1 ++ l2).
Proof. intros. by apply Forall_app. Qed.
Lemma no_ghosts_bind {A} (f : A → list Finding) l : (∀ x, no_ghosts (f x)) → no_ghosts (l ≫= f).
Proof. intros Hf. apply Forall_forall. intros g (x & Hg & _)%list_elem_of_bind. by eapply Forall_forall in Hg; [|apply Hf]. Qed.
Lemma no_ghosts_fmap {A} (f : A → Finding) l : (∀ x, is_ghost (f x) = false) → no_ghosts (f <$> l).
Proof. intros Hf. apply Forall_fmap, Forall_forall. intros x _. apply Hf. Qed.
Ltac quiet := repeat first
  [ apply no_ghosts_app | apply no_ghosts_bind; intros | apply no_ghosts_fmap; intros
  | case_match | by repeat constructor ].
Lemma missing_no_ghosts missing : no_ghosts (missingInstanceFindings missing).
Proof. unfold missingInstanceFindings, missing_finding. quiet. Qed.
Lemma orphans_no_ghosts {E} (key : E → Handle) f listed hs : (∀ bt h, is_ghost (f bt h) = false) → no_ghosts (orphans key f listed hs).
Proof. intros Hf. unfold orphans. quiet. Qed.
Lemma unverifiable_no_ghosts fmt counts : no_ghosts (unverifiable_findings fmt counts).
Proof. unfold unverifiable_findings. quiet. Qed.
Lemma config_no_ghosts st h r : no_ghosts (option_list (checkHandleConfig st h r)).
Proof. destruct (checkHandleConfig st h r) as [f|] eqn:Hc; constructor; [|constructor]. by eapply config_not_ghost. Qed.
Lemma snapshots_no_ghosts st missing : no_ghosts (checkSnapshots st missing).
Proof.
  unfold checkSnapshots. destruct (negb _); [constructor|]. cbv zeta. rewrite (loop_out _ _ _ (snapshot_adds st missing _)).
  apply no_ghosts_app; [apply no_ghosts_app; [constructor|]|apply no_ghosts_app; [by apply orphans_no_ghosts|apply unverifiable_no_ghosts]].
  apply no_ghosts_bind. intros sc. unfold snapshot_step, verify_snapshot.
  repeat case_match; simpl; repeat first [apply no_ghosts_app | apply config_no_ghosts | by repeat constructor].
Qed.
Lemma topology_no_ghosts st : no_ghosts (checkTopology st).
Proof. unfold checkTopology, node_findings, unused_instances. quiet. Qed.
Lemma attachments_no_ghosts st : no_ghosts (checkAttachments st).
Proof. unfold checkAttachments, attachment_findings. quiet. Qed.

Lemma ghosts_of st : no_ghosts (st_Skips st) → ∀ r,
  (∃ f, f ∈ r_Findings (Check st) ∧ f_Check f = "ghost-pv" ∧ f_Resource f = r) ↔
  ∃ pv, pv ∈ st_PVs st ∧ gone st pv ∧ r = "pv/" +:+ pv_Name pv.
Proof.
  intros Hskips r. unfold Check. simpl. set (sets := handle_sets backend.vl_Handle (st_BackendVolumes st)).
  setoid_rewrite (sort_stable_perm (all_findings st)). unfold all_findings, checkVolumes. cbv zeta. fold sets.
  rewrite (loop_out _ _ _ (volume_adds st _ sets)). simpl.
  assert (∀ f l, f_Check f = "ghost-pv" → no_ghosts l → ¬ f ∈ l) as Hno.
  { intros f l Hf Hl Hin. eapply Forall_forall in Hl; [|done]. unfold is_ghost in Hl. by rewrite bool_decide_eq_true_2 in Hl. }
  split.
  - intros (f & Hf & Hg & <-). rewrite !elem_of_app in Hf.
    assert (f ∈ st_PVs st ≫= λ pv, t_out (volume_step st (missingInstances st) sets no_tally pv)) as (pv & Hfp & Hpv)%list_elem_of_bind.
    { destruct Hf as [Hf|[[Hf|[Hf|Hf]]|[Hf|[Hf|[Hf|Hf]]]]]; [|done|..]; exfalso; revert Hf; apply Hno; try done.
      - apply missing_no_ghosts.
      - by apply orphans_no_ghosts.
      - apply unverifiable_no_ghosts.
      - apply snapshots_no_ghosts.
      - apply topology_no_ghosts.
      - apply attachments_no_ghosts. }
    exists pv. split; [done|]. split; [|by eapply step_resource]. apply step_ghost. exists f. split; [done|]. by apply bool_decide_eq_true.
  - intros (pv & Hpv & (f & Hf & Hg%bool_decide_eq_true)%step_ghost & ->). exists f. split; [|split; [done|by eapply step_resource]].
    apply elem_of_app. right. apply elem_of_app. left. apply elem_of_app. left. apply list_elem_of_bind. eauto.
Qed.
End scan.

(** ** What was collected *)
Section collected.
  Context {T : Type} `{MapIter} `{Env T}.
  Implicit Types (o : Options T) (w : World T) (st : State) (tr : truth).

Definition from_collect (l : list Finding) : Prop := Forall (λ f, f_Check f = "collect") l.
(** A backend type was listed, or has no listing. *)
Definition known tr (bt : string) : Prop :=
  (is_Some (tr_volumes tr !! bt) ∨ bt ∈ tr_unlistedVolumes tr) ∧ (is_Some (tr_snapshots tr !! bt) ∨ bt ∈ tr_unlistedSnapshots tr).
Lemma add_known bt vols snaps tr (tr' := add_snapshots bt snaps (add_volumes bt vols tr)) :
  (∃ l, tr_skips tr' = tr_skips tr ++ l ∧ from_collect l) ∧ (tr_skips tr' = [] → known tr' bt) ∧ (∀ b, known tr b → known tr' b).
Proof.
  subst tr'. unfold known, from_collect. split_and!.
  - destruct vols as [vs|e], snaps as [ss|e']; simpl; repeat case_match; simpl; rewrite <-?app_assoc;
      eexists; (split; [try done; symmetry; apply app_nil_r|]); by repeat constructor.
  - destruct vols as [vs|e], snaps as [ss|e']; simpl; repeat case_match; simpl; intros Hn;
      try (apply app_nil in Hn as [Hn ?]); try done; try (by apply app_nil in Hn as [? ?]); rewrite ?lookup_insert_eq; split;
      first [left; by eexists | right; set_solver].
  - intros b [Hv Hs]. destruct vols as [vs|e], snaps as [ss|e']; simpl; repeat case_match; simpl; rewrite ?lookup_insert_is_Some'; set_solver.
Qed.
Lemma collect_wp types bes tr w : from_collect (tr_skips tr) →
  wp (collect_types types bes tr) (λ _ r, ∃ tr', r = Ok tr' ∧ from_collect (tr_skips tr') ∧
    (tr_skips tr' = [] → tr_skips tr = [] ∧ (∀ bt, known tr bt → known tr' bt) ∧ ∀ bt, bt ∈ types → is_Some (bes !! bt) → known tr' bt)) w.
Proof.
  revert tr w. induction types as [|bt types IH]; intros tr w Hok; simpl.
  { apply wp_ret. exists tr. split; [done|]. split; [done|]. intros Hn. split; [done|]. split; [done|]. intros b Hb. by apply not_elem_of_nil in Hb. }
  destruct (bes !! bt) as [be|] eqn:Hbe.
  2: { eapply wp_mono; [by apply IH|]. intros w' r (tr' & -> & Hc & Hk). exists tr'. split; [done|]. split; [done|]. intros Hn.
       destruct (Hk Hn) as (H1 & H2 & H3). split; [done|]. split; [done|]. intros b [->|Hb]%elem_of_cons Hs; [rewrite Hbe in Hs; by destruct Hs|by apply H3]. }
  apply wp_catch. apply wp_intro. intros w1 vols _. apply wp_catch. apply wp_intro. intros w2 snaps _.
  destruct (add_known bt vols snaps tr) as ((l & Hl & Hcl) & Hnow & Hkeep).
  eapply wp_mono; [apply IH; rewrite Hl; by apply Forall_app|]. intros w' r (tr' & -> & Hc & Hk). exists tr'. split; [done|]. split; [done|].
  intros Hn. destruct (Hk Hn) as (H1 & H2 & H3). split; [rewrite Hl in H1; by apply app_nil in H1 as [? _]|]. split; [auto|].
  intros b [->|Hb]%elem_of_cons Hs; [|by apply H3]. by apply H2, Hnow.
Qed.

Lemma fetch_wp {A} path what affected (parse : string → res error (list A)) w :
  wp (fetch path what affected parse) (λ _ r, ∃ x, r = Ok x ∧ from_collect (skipped x) ∧ (skipped x = [] → have x = true)) w.
Proof.
  unfold fetch. apply wp_catch, wp_intro. intros w1 r _. apply wp_ret.
  repeat case_match; eexists; (split; [done|]); (split; [by repeat constructor|done]).
Qed.
Lemma backends_of_spec types (reg : backend.Registry T) bes :
  backends_of types reg = Ok bes → ∀ bt, bt ∈ types → is_Some (bes !! bt).
Proof.
  revert bes. induction types as [|bt types IH]; intros bes; simpl; [by intros _ bt ?%not_elem_of_nil|].
  destruct (backend.Get reg bt) as [be|]; [|done]. simpl. destruct (backends_of types reg) as [bes'|]; [|done]. simpl. intros [= <-] b.
  rewrite elem_of_cons, lookup_insert_is_Some'. intros [->|Hb]; [by left|right; by apply IH].
Qed.

(** What holds of a collected state. *)
Definition collected o st : Prop :=
  st_Config st = o_Config o ∧ from_collect (st_Skips st) ∧
  (st_Skips st = [] →
    (st_HaveSnapshotContents st = true ∧ st_HaveNodes st = true ∧ st_HaveCSINodes st = true ∧ st_HaveAttachments st = true) ∧
    ∀ bt, is_Some (backend.backends (o_Registry o) !! bt) →
      (is_Some (st_BackendVolumes st !! bt) ∨ bt ∈ st_UnlistedVolumes st) ∧
      (is_Some (st_BackendSnapshots st !! bt) ∨ bt ∈ st_UnlistedSnapshots st)).
Lemma Collect_wp o w : wp (Collect o) (λ _ r, ∀ st, r = Ok st → collected o st) w.
Proof.
  unfold Collect. apply wp_bind, wp_run_err, wp_intro. intros w1 [[code body]|e] _; [|done]. simpl.
  apply wp_bind, wp_guard; intros _; [|done]. apply wp_bind, wp_lift. destruct (parsePVList body) as [pvs|e]; [|done].
  apply wp_bind. eapply wp_mono; [apply fetch_wp|]. intros w2 r2 (contents & -> & Hc1 & Hh1). simpl.
  apply wp_bind. eapply wp_mono; [apply fetch_wp|]. intros w3 r3 (nodes & -> & Hc2 & Hh2). simpl.
  apply wp_bind. eapply wp_mono; [apply fetch_wp|]. intros w4 r4 (csinodes & -> & Hc3 & Hh3). simpl.
  apply wp_bind. eapply wp_mono; [apply fetch_wp|]. intros w5 r5 (attachments & -> & Hc4 & Hh4). simpl.
  apply wp_bind, wp_lift. destruct (backends_of _ _) as [bes|e] eqn:Hbes; [|done].
  apply wp_bind. eapply wp_mono; [apply (collect_wp _ bes no_truth); constructor|]. intros w6 r6 (tr & -> & Hc5 & Hk). simpl.
  apply wp_bind, wp_intro. intros w7 [probes|e] _; [|done]. apply wp_ret. intros st [= <-]. split; [done|]. simpl.
  split; [repeat (apply Forall_app; split); done|].
  intros [H1 [H2 [H3 [H4 H5]%app_nil]%app_nil]%app_nil]%app_nil. split; [by rewrite Hh1, Hh2, Hh3, Hh4|].
  intros bt [be Hbe]. destruct (Hk H5) as (_ & _ & Hknown). apply (Hknown bt).
  - apply elem_of_sortedKeys. apply (backends_of_spec _ _ _ Hbes). unfold backend.Types, range_keys. apply list_elem_of_fmap. exists (bt, be). split; [done|]. by apply elem_of_range.
  - apply (backends_of_spec _ _ _ Hbes). unfold backend.Types, range_keys. apply list_elem_of_fmap. exists (bt, be). split; [done|]. by apply elem_of_range.
Qed.

(** Kubernetes and the backends agree: every volume Kubernetes has is listed by its backend
    under a configured instance, and every volume a backend lists is one Kubernetes has;
    likewise snapshots; attachments are to nodes and volumes that exist; and every backend
    can place a volume for every registered node that has a zone. *)
Definition backed {E} (key : E → Handle) (listed : gmap string (list E)) st (hs : string) : Prop :=
  ∃ h es e, Parse hs = Ok h ∧ configured st h ∧ listed !! hBackend h = Some es ∧ e ∈ es ∧ Handle_String (key e) = hs.
Record consistent st : Prop := {
  volumes_backed : ∀ pv, pv ∈ st_PVs st → own_pv st pv = true → backed backend.vl_Handle (st_BackendVolumes st) st (pv_VolumeHandle pv);
  volumes_owned : ∀ bt es e, st_BackendVolumes st !! bt = Some es → e ∈ es →
    ∃ pv, pv ∈ st_PVs st ∧ own_pv st pv = true ∧ pv_VolumeHandle pv = Handle_String (backend.vl_Handle e);
  snapshots_backed : ∀ sc, sc ∈ st_SnapshotContents st → own_content st sc = true →
    backed backend.sl_Handle (st_BackendSnapshots st) st (sc_SnapshotHandle sc);
  snapshots_owned : ∀ bt es e, st_BackendSnapshots st !! bt = Some es → e ∈ es →
    ∃ sc, sc ∈ st_SnapshotContents st ∧ own_content st sc = true ∧ sc_SnapshotHandle sc = Handle_String (backend.sl_Handle e);
  attachments_real : attached_to_real st;
  nodes_placed : zones_served st;
}.
Lemma verified_backed {E} (key : E → Handle) listed st hs h :
  verified key listed st hs h → is_Some (listed !! hBackend h) → backed key listed st hs.
Proof. intros (Hp & Hc & Hl) [es Hes]. destruct (Hl es Hes) as (e & He & Heq). by exists h, es, e. Qed.

Lemma quiet_scan o w w' st :
  (∀ bt, is_Some (Backends (o_Config o) !! bt) → is_Some (backend.backends (o_Registry o) !! bt)) →
  Collect o w = (w', Ok st) → r_Findings (Check st) = [] → consistent st.
Proof.
  intros Hreg Hcol Hnil. pose proof (wp_elim _ _ _ _ _ (Collect_wp o w) Hcol st eq_refl) as (Hcfg & _ & Hfull).
  simpl in Hnil. pose proof (sort_stable_perm (all_findings st)) as Hp. rewrite Hnil in Hp. apply Permutation_nil_l in Hp. symmetry in Hp.
  apply app_nil in Hp as [Hm%missing_quiet [Hv [Hs [Ht [Ha Hk]%app_nil]%app_nil]%app_nil]%app_nil]. rewrite Hm in Hv, Hs.
  destruct (Hfull Hk) as ((Hsc & Hn & _ & Hat) & Hall). apply volumes_quiet in Hv as [Hv1 Hv2]. apply snapshots_quiet in Hs as [Hs1 Hs2]; [|done].
  assert (∀ h, configured st h → is_Some (backend.backends (o_Registry o) !! hBackend h)) as Hconn.
  { intros h (bc & Hbc & _). apply Hreg. rewrite <-Hcfg. by exists bc. }
  split; [|done| |done|by apply attachments_quiet|by apply topology_quiet].
  - intros pv Hpv Hown. destruct (Hv1 pv Hpv Hown) as (h & Hver & Hun). apply (verified_backed _ _ _ _ _ Hver).
    destruct Hver as (_ & Hc & _). by destruct (Hall _ (Hconn h Hc)) as [[?|?] _].
  - intros sc Hpsc Hown. destruct (Hs1 sc Hpsc Hown) as (h & Hver & Hun). apply (verified_backed _ _ _ _ _ Hver).
    destruct Hver as (_ & Hc & _). by destruct (Hall _ (Hconn h Hc)) as [_ [?|?]].
Qed.


(** A volume is reported gone exactly when it should be: a scan has a ghost-pv finding for
    a name if and only if there is a PV of that name of this driver whose backend was listed
    without it, which no direct probe found, and whose instance the plugin can see. *)
Theorem ghost_exact o w w' st r :
  Collect o w = (w', Ok st) →
  (∃ f, f ∈ r_Findings (Check st) ∧ f_Check f = "ghost-pv" ∧ f_Resource f = r) ↔
  ∃ pv, pv ∈ st_PVs st ∧ gone st pv ∧ r = "pv/" +:+ pv_Name pv.
Proof.
  intros Hcol. apply ghosts_of. destruct (wp_elim _ _ _ _ _ (Collect_wp o w) Hcol st eq_refl) as (_ & Hc & _).
  eapply Forall_impl; [exact Hc|]. intros f Hf. unfold is_ghost. by rewrite Hf.
Qed.

(** ** A scan only reads *)
Lemma Pres_bind_lift {S E A B} (R : S → S → Prop) `{!PreOrder R} (r : res E A) (f : A → M S E B) :
  (∀ a, r = Ok a → Pres R (f a)) → Pres R (lift r ≫= f).
Proof. intros Hf s. unfold mbind, M_bind, lift. destruct r as [a|e]; [by apply Hf|reflexivity]. Qed.
Section readonly.
  Context (R : World T → World T → Prop) `{!PreOrder R}.
  Context (Hread : ∀ p, Pres R (on_env (readFile p))) (Hget : ∀ rq, rq_method rq = "GET" → Pres R (on_env (httpDo rq))).
Lemma doGet_pres path : Pres R (doGet path).
Proof. unfold doGet, read_or, env_var. repeat first [pres_step | apply Hread | by apply Hget]. Qed.
Lemma GetCode_pres path : Pres R (GetCode path).
Proof. unfold GetCode. repeat first [apply doGet_pres | pres_step]. Qed.
Definition reads (be : backend.Backend T) : Prop :=
  Pres R (backend.ListVolumes be) ∧ Pres R (backend.ListSnapshots be) ∧ ∀ h, Pres R (backend.GetVolumeHealth be h ∅).
Lemma types_pres types bes tr : (∀ bt be, bes !! bt = Some be → reads be) → Pres R (collect_types types bes tr).
Proof.
  intros Hbes. revert tr. induction types as [|bt types IH]; intros tr; simpl; [pres_step|]. destruct (bes !! bt) as [be|] eqn:Hbe; [|apply IH].
  destruct (Hbes bt be Hbe) as (H1 & H2 & _). apply Pres_catch; [apply _|done|]. intros vols. apply Pres_catch; [apply _|done|]. intros snaps. apply IH.
Qed.
Lemma probes_pres hs bes probes : (∀ bt be, bes !! bt = Some be → reads be) → Pres R (probe_all hs bes probes).
Proof.
  intros Hbes. revert probes. induction hs as [|h hs IH]; intros probes; simpl; [pres_step|]. destruct (bes !! hBackend h) as [be|] eqn:Hbe; [|apply IH].
  destruct (Hbes _ be Hbe) as (_ & _ & H3). apply Pres_catch; [apply _|done|]. intros r. apply IH.
Qed.
Lemma backends_of_in types (reg : backend.Registry T) bes bt be :
  backends_of types reg = Ok bes → bes !! bt = Some be → backend.backends reg !! bt = Some be.
Proof.
  revert bes. induction types as [|b types IH]; intros bes; simpl; [by intros [= <-]|]. unfold backend.Get.
  destruct (backend.backends reg !! b) as [be'|] eqn:Hb; [|done]. simpl. destruct (backends_of types reg) as [bes'|]; [|done]. simpl. intros [= <-].
  rewrite lookup_insert. case_decide; [|by apply IH]. intros [= <-]. by subst.
Qed.
End readonly.

(** A scan changes nothing: whatever reading a file, a GET of the API, listing volumes or
    snapshots and asking for a volume's health leave alone, collecting a state leaves
    alone, however it ends. *)
Theorem scan_read_only (R : World T → World T → Prop) o :
  PreOrder R → (∀ p, Pres R (on_env (readFile p))) → (∀ rq, rq_method rq = "GET" → Pres R (on_env (httpDo rq))) →
  (∀ bt be, backend.backends (o_Registry o) !! bt = Some be → reads R be) → Pres R (Collect o).
Proof.
  intros HR Hread Hget Hbes. unfold Collect, fetch, collectBackendTruth.
  repeat first [by apply GetCode_pres | apply Pres_bind_lift; [apply _|]; intros ? ? | pres_step].
  - apply types_pres; [done|]. intros bt be Hin. by eapply Hbes, backends_of_in.
  - apply probes_pres; [done|]. intros bt be Hin. by eapply Hbes, backends_of_in.
Qed.
End collected.

(** C23: the zone check mirrors the dispatcher: for a backend with instances, under a
    configuration the dispatcher accepts, a zone is reported as served exactly when a request
    that carries it is placed. *)
Theorem zoneResolvable_exact `{MapIter} cfg d bt bc zone :
  New (wiring.dispatch_config cfg) = Ok d → Backends cfg !! bt = Some bc → bcInstances bc ≠ ∅ → bt ≠ "" →
  zoneResolvable cfg bt zone = is_Ok (Resolve d {[BackendParamKey := bt]} [] [zone]).
Proof.
  intros Hnew Hbt Hne Hbt0. pose proof (New_cases (wiring.dispatch_config cfg)) as Hc. rewrite Hnew in Hc. destruct Hc as [Hidx _].
  set (insts := bcInstances bc) in *. destruct Hidx as [Hcfg Hidx]. specialize (Hidx bt). simpl in Hidx. rewrite lookup_fmap, Hbt in Hidx. simpl in Hidx.
  destruct Hidx as (zi & Hzi & Hinv). change (wiring.zones_of_backend bc) with (Zone <$> insts) in Hinv.
  assert (size zi = size insts) as Hsz by (by rewrite (Inverts_size _ _ Hinv), map_size_fmap).
  assert (size zi ≠ 0) as Hsz0 by (rewrite Hsz; by apply map_size_non_empty_iff).
  unfold zoneResolvable, Resolve. rewrite Hbt. cbn [option_fmap option_map fmap default]. fold insts.
  replace (mget {[BackendParamKey := bt]} BackendParamKey) with bt by (unfold mget; by rewrite lookup_singleton_eq).
  rewrite (bool_decide_eq_false_2 (bt = "")) by done. rewrite Hzi. cbn [default]. rewrite (bool_decide_eq_false_2 (size zi = 0)) by done.
  cbn [first_served]. rewrite Hcfg. simpl.
  assert (existsb (λ p, bool_decide (Zone p.2 = zone)) (range insts) = bool_decide (is_Some (zi !! zone))) as ->.
  { apply eq_true_iff_eq. rewrite existsb_exists, bool_decide_eq_true. split.
    - intros ([i ic] & Hin%list_elem_of_In%elem_of_range & Hz%bool_decide_eq_true). exists i. apply Hinv. simpl in Hz. rewrite lookup_fmap, Hin. simpl. by rewrite Hz.
    - intros [i Hi%Hinv]. rewrite lookup_fmap_Some in Hi. destruct Hi as (ic & Hz & Hin). exists (i, ic). split; [by apply list_elem_of_In, elem_of_range|].
      by apply bool_decide_eq_true. }
  destruct (zi !! zone) as [i|]; [by rewrite bool_decide_eq_true_2 by done|]. rewrite bool_decide_eq_false_2 by (by intros []). simpl.
  destruct (bool_decide_reflect (mget (cfgDefaults cfg) bt = "")); [|done]. simpl. rewrite Hsz.
  destruct (bool_decide_reflect (size insts = 1)) as [H1|]; [|done].
  destruct (range zi) as [|[z i] l] eqn:Hr; [|done]. pose proof (range_length zi) as Hl. rewrite Hr in Hl. simpl in Hl. lia.
Qed.

(** ** A cluster to scan

    The API server answers from a table of paths, the plugin from a table of routes. *)
Record pod := mkPod { p_api : list (string * string); p_plugin : list (string * (Z * json)) }.
Definition from_table {A} (table : list (string * A)) (key : string) : option A :=
  snd <$> List.find (λ x, bool_decide (x.1 = key)) table.
#[global] Instance pod_env : Env pod := {|
  readFile _ p := (p, Ok "secret"); getenv _ _ := "k"; randRead _ p := (p, Err ""); now _ := 0%Z;
  httpDo rq p := (p, Ok match from_table (p_api p) (rq_url rq) with
                        | Some body => mkResponse 200 (BText body) | None => mkResponse 404 BNone end);
  kmipExchange _ _ p := (p, KDialFailed); pem_certs _ := true; key_pair _ _ p := (p, Ok tt);
  get_token _ _ := ("", 0%Z); put_token _ _ p := p; get_creds _ _ := (mkCreds "" "" "", 0%Z); put_creds _ _ p := p |}.
Definition pod_transport : plugin.Transport pod := λ path _ p,
  (p, (0%Z, match from_table (p_plugin p) path with
            | Some (code, j) => plugin.Resp code (Some j) | None => plugin.Resp 404 None end)).
Definition ex_caps : backend.Capabilities :=
  backend.mkCapabilities false false false true true true true false false false true true false false false false.
Definition ex_reg : backend.Registry pod :=
  backend.mkRegistry {["nfs" := @plugin.client_backend _ pod_transport (plugin.mkClient "nfs" ex_caps)]}.
Definition ex_cfg : Config :=
  mkConfig {["nfs" := mkBackendConfig (Some (mkPluginConfig "unix:///nfs.sock")) {["main" := mkInstanceConfig "z1"]}]} ∅.
Definition ex_opts : Options pod := mkOptions DriverName "zone" ex_cfg ex_reg.
Definition ex_id : string := "swsk|1|nfs|main|export|vol-1".
Definition items (l : list json) : string := jsontext.print (JObj [("items", JArr l)]).
Definition named_obj (n : string) (l : list (string * json)) : json := JObj (("metadata", JObj [("name", JStr n)]) :: l).
Definition ex_api : list (string * string) :=
  [("https://k:k/api/v1/persistentvolumes", items
      [named_obj "pv-1" [("spec", JObj [("csi", JObj [("driver", JStr DriverName); ("volumeHandle", JStr ex_id)])])]]);
   ("https://k:k/apis/snapshot.storage.k8s.io/v1/volumesnapshotcontents", items []);
   ("https://k:k/api/v1/nodes", items [JObj [("metadata", JObj [("name", JStr "n1"); ("labels", JObj [("zone", JStr "z1")])])]]);
   ("https://k:k/apis/storage.k8s.io/v1/csinodes", items
      [named_obj "n1" [("spec", JObj [("drivers", JArr [JObj [("name", JStr DriverName); ("topologyKeys", JArr [JStr TopologyKeyZone])]])])]]);
   ("https://k:k/apis/storage.k8s.io/v1/volumeattachments", items
      [named_obj "va-1" [("spec", JObj [("attacher", JStr DriverName); ("nodeName", JStr "n1");
         ("source", JObj [("persistentVolumeName", JStr "pv-1")])])]])].
Definition entries (l : list json) : json := JObj [("entries", JArr l)].
Definition ex_entry : json := JObj [("volume", JObj [("instance", JStr "main"); ("location", JStr "export"); ("name", JStr "vol-1")])].
Definition ex_world (volumes : list json) (health : Z * json) : World pod :=
  mkWorld newCollector (mkPod ex_api [("/volume/list", (200%Z, entries volumes)); ("/snapshot/list", (200%Z, entries [])); ("/volume/health", health)]).
Definition healthy_world : World pod := ex_world [ex_entry] (200%Z, JObj []).
Definition lost_world : World pod := ex_world [] (200%Z, JObj [("abnormal", JBool true)]).
Definition scanned (w : World pod) : res error State := (Collect ex_opts w).2.
Definition no_state : State := mkState "" "" (mkConfig ∅ ∅) [] [] [] [] [] ∅ ∅ ∅ ∅ ∅ [] false false false false.
Definition state_of (w : World pod) : State := match scanned w with Ok st => st | Err _ => no_state end.
Definition summary (st : State) : list (string * string) := (λ f, (f_Check f, f_Resource f)) <$> r_Findings (Check st).
Example nothing_found : summary (state_of healthy_world) = [].
Proof. vm_compute. reflexivity. Qed.
Example volume_lost : summary (state_of lost_world) = [("ghost-pv", "pv/pv-1")].
Proof. vm_compute. reflexivity. Qed.
(** A plugin that lost an instance's configuration lists nothing there: its volumes are not
    reported gone, the instance is. *)
Example instance_lost :
  summary (state_of (ex_world [] (400%Z, JObj [("code", JStr "InvalidArgument"); ("message", JStr "unknown instance")])))
  = [("plugin-missing-instance", "backend/nfs instance/main")].
Proof. vm_compute. reflexivity. Qed.
Example list_dropped : summary (state_of (ex_world [] (200%Z, JObj []))) = [("list-inconsistent", "pv/pv-1")].
Proof. vm_compute. reflexivity. Qed.
Lemma scanned_ok w : is_Ok (scanned w) = true → Collect ex_opts w = ((Collect ex_opts w).1, Ok (state_of w)).
Proof. unfold state_of, scanned. destruct (Collect ex_opts w) as [w' [st|e]]; [done|]. simpl. discriminate. Qed.
Lemma ghost_exact_witness :
  ∃ pv, pv ∈ st_PVs (state_of lost_world) ∧ gone (state_of lost_world) pv ∧ "pv/pv-1" = "pv/" +:+ pv_Name pv.
Proof.
  apply (ghost_exact ex_opts lost_world (Collect ex_opts lost_world).1).
  - apply scanned_ok. vm_compute. reflexivity.
  - exists (default (list_skip "" "" "" (plain_error "")) (head (r_Findings (Check (state_of lost_world))))).
    split; [|split]; [|vm_compute; reflexivity..]. apply (bool_decide_unpack _). vm_compute. exact I.
Defined.
Definition same_env (w w' : World pod) : Prop := w_env w = w_env w'.
#[local] Instance same_env_order : PreOrder same_env.
Proof. split; unfold same_env; [done|]. intros w1 w2 w3 H1 H2. by rewrite H1. Qed.
Lemma pod_call {Req A} `{Wire Req, Wire A} c path i (req : Req) : Pres same_env (@plugin.call_resp _ pod_transport _ A _ _ c path i req).
Proof. intros w. unfold plugin.call_resp, plugin.call, pod_transport, plugin.transport. by destruct (plugin.do_outcome _ _) as [[? ?] ?]. Qed.
(** The cluster and the plugin's volumes are the environment, which a scan leaves as it is. *)
Lemma scan_read_only_witness : Pres same_env (Collect ex_opts).
Proof.
  apply scan_read_only.
  - apply _.
  - intros p w. reflexivity.
  - intros rq _ w. reflexivity.
  - intros bt be Hbe. unfold ex_opts, ex_reg in Hbe. cbn [o_Registry backend.backends] in Hbe. apply lookup_singleton_Some in Hbe as [_ <-]. split; [|split]; [..|intros h];
    simpl; unfold plugin.ListVolumes, plugin.ListSnapshots, plugin.GetVolumeHealth, plugin.gated; repeat first [apply pod_call | pres_step].
Defined.
Lemma zoneResolvable_exact_witness :
  zoneResolvable ex_cfg "nfs" "z9" = is_Ok (Resolve (match New (wiring.dispatch_config ex_cfg) with Ok d => d | Err _ => mkDispatcher (mkDispatchConfig ∅ ∅) ∅ end)
    {[BackendParamKey := "nfs"]} [] ["z9"]).
Proof.
  apply (zoneResolvable_exact ex_cfg _ "nfs" (mkBackendConfig (Some (mkPluginConfig "unix:///nfs.sock")) {["main" := mkInstanceConfig "z1"]})).
  - vm_compute. reflexivity.
  - apply lookup_singleton_eq.
  - apply (bool_decide_unpack _). vm_compute. exact I.
  - discriminate.
Defined.
End inspectsafety.
