(* ===== verification/Main.v ===== *)
(** * The driver's process (cmd/bard-csi/main.go)

    What [main] does between its flags and the serving driver: the checks of the flags, the
    configuration, the backends, and the node's zone and CRUSH location, which it reads from
    the node's labels. *)
From Stdlib Require Import Ascii.
From S2P Require Import Prelude GoStrings GoErrors VolumeID Dispatch Config Metrics Backend Json JsonText Protocol Server Client Inflight Driver Controller Wiring KMS InCluster Inspect InspectCollect InspectSafety.

Module main.
Import incluster inspect inspectcollect inspectsafety.

(** The flags that matter here, with the environment's defaults already applied. *)
Record Flags := mkFlags {
  fl_nodeID : string; fl_zone : string; fl_zoneLabel : string; fl_crushLabels : string;
  fl_configPath : string; fl_configSrc : string; fl_controller : bool; fl_node : bool;
  fl_maxVolumes : Z; fl_inspect : bool; fl_output : string; fl_showVersion : bool;
}.
(** The environment's defaults ([main]'s flag declarations). *)
Definition default_flags (env : strmap) : Flags :=
  mkFlags (wiring.envOr env "NODE_ID" "") (wiring.envOr env "NODE_ZONE" "")
    (wiring.envOr env "ZONE_LABEL" "topology.kubernetes.io/zone") (wiring.envOr env "CRUSH_LOCATION_LABELS" "")
    "/etc/bard-csi/config.yaml" (wiring.envOr env "CONFIG_SOURCE" "crd") false false
    (wiring.envInt env "MAX_VOLUMES_PER_NODE" 0) false "table" false.

Inductive ending (T : Type) :=
  | Exited (code : Z) (report : option Report)
  | Fatal (e : error)
  | Serving (d : Driver T).
Arguments Exited {T} _ _.
Arguments Fatal {T} _.
Arguments Serving {T} _.

Section main.
  Context {T : Type} `{MapIter} `{Env T}.
  Context (connect : string → plugin.Transport T) (wait : nat → plugin.waited).
  Context (yaml : string → res error Config) (stdout_ok : bool) (version : string).
  Abbreviation op A := (M (World T) error A).

(** The node's zone: its label, where it can be read and is set, and else [--zone]. *)
Definition node_zone (f : Flags) : op string :=
  inside ← InCluster;
  if fl_node f && negb (bool_decide (fl_zoneLabel f = "")) && inside then
    catch (NodeZone (fl_nodeID f) (fl_zoneLabel f)) (λ r, mret
      match r with
      | Err _ => fl_zone f
      | Ok z => if bool_decide (z = "") then fl_zone f else z
      end)
  else mret (fl_zone f).
(** The node's CRUSH location, empty where it cannot be read. *)
Definition crush_location (f : Flags) : op string :=
  inside ← InCluster;
  if fl_node f && negb (bool_decide (fl_crushLabels f = "")) && inside then
    catch (NodeCrushLocation (fl_nodeID f) (wiring.splitAndTrim (fl_crushLabels f))) (λ r, mret
      match r with Err _ => "" | Ok loc => loc end)
  else mret "".

(** [main] up to the point where it serves; [None] is [Dial] out of fuel. *)
Definition main (f : Flags) (w : World T) : option (World T * ending T) :=
  if fl_showVersion f then Some (w, Exited 0 None)
  else if fl_inspect f then
    match runInspect connect wait yaml stdout_ok (fl_configSrc f) (fl_configPath f) (fl_zoneLabel f) (fl_output f) w with
    | None => None
    | Some (w, (code, report)) => Some (w, Exited code report)
    end
  else if negb (fl_controller f) && negb (fl_node f) then
    Some (w, Fatal (plain_error "at least one of --controller or --node must be set"))
  else if fl_node f && bool_decide (fl_nodeID f = "") then
    Some (w, Fatal (plain_error "--nodeid (or NODE_ID) is required when running the node service"))
  else
    match loadConfig yaml (fl_configSrc f) (fl_configPath f) w with
    | (w, Err e) => Some (w, Fatal (mkError (err_chain e) "load config (%s): %v"))
    | (w, Ok cfg) =>
        match wiring.build connect wait cfg w with
        | None => None
        | Some (w, Err e) => Some (w, Fatal (mkError (err_chain e) "build driver: %v"))
        | Some (w, Ok bk) =>
            match (zone ← node_zone f; crush ← crush_location f; mret (zone, crush)) w with
            | (w, Err e) => Some (w, Fatal e)
            | (w, Ok (zone, crush)) =>
                Some (w, Serving (NewDriver (Driver.mkOptions T version (fl_nodeID f) zone crush
                  (mkMode (fl_controller f) (fl_node f)) (registry bk) (disp bk) (fl_maxVolumes f)) w))
            end
        end
    end.

(** ** What comes of it *)
Lemma node_zone_ok f w : ∃ w' z, node_zone f w = (w', Ok z).
Proof. unfold node_zone, InCluster, env_var, mbind, M_bind, gets, mret, M_ret, catch. case_match; [|eauto]. destruct (NodeZone _ _ w) as [w' r]. eauto. Qed.
Lemma crush_location_ok f w : ∃ w' z, crush_location f w = (w', Ok z).
Proof. unfold crush_location, InCluster, env_var, mbind, M_bind, gets, mret, M_ret, catch. case_match; [|eauto]. destruct (NodeCrushLocation _ _ w) as [w' r]. eauto. Qed.

Definition reported (code : Z) (report : option Report) : Prop :=
  code ∈ [0; 1; 2]%Z ∧ (code = 1%Z ↔ ∃ r, report = Some r ∧ HasErrors r = true) ∧
  ∀ r, report = Some r → r_Findings r = [] → ∃ st, r = Check st ∧ consistent st.
Lemma runInspect_ends src path label output w : wiring.sane_clocks connect wait →
  ∃ w' code report, runInspect connect wait yaml stdout_ok src path label output w = Some (w', (code, report)) ∧ reported code report.
Proof.
  intros Hs. assert (reported 2 None) as H2 by (split_and!; [set_solver|by split; [|intros (? & ? & _)]|done]).
  unfold runInspect. destruct (_ && _); [eauto 6|]. cbv zeta. set (lab := if bool_decide _ then _ else _).
  destruct (loadConfig yaml src path w) as [w1 [cfg|e]]; [|eauto 6].
  destruct (wiring.build_spec connect wait cfg w1 Hs) as (w2 & r & -> & Hbuilt). destruct r as [bk|e]; [|eauto 6].
  destruct (Collect _ w2) as [w3 [st|e]] eqn:Hcol; [|eauto 6]. destruct (_ && _); [eauto 6|]. eexists _, _, _. split; [reflexivity|].
  split_and!.
  - destruct (HasErrors _); set_solver.
  - split; [|by intros (r & [= <-] & ->)]. destruct (HasErrors (Check st)) eqn:He; [|done]. eauto.
  - intros r [= <-] Hnil. exists st. split; [done|]. eapply quiet_scan; [|exact Hcol|done]. simpl. intros bt Hbt.
    destruct (Hbuilt bk eq_refl) as (_ & _ & Hdom). by apply Hdom.
Qed.

(** [main] gets past connecting to the plugins; a scan exits with the code of its report, and
    a driver it hands to [Run] has the roles of the flags, a node id when it serves nodes, a
    registry and dispatcher of one configuration, and nothing in flight. *)
Lemma main_ends f w : wiring.sane_clocks connect wait →
  ∃ w' e, main f w = Some (w', e) ∧
    match e with
    | Exited code report => reported code report
    | Fatal _ => True
    | Serving d => (fl_controller f || fl_node f = true) ∧ d_mode d = mkMode (fl_controller f) (fl_node f) ∧ (fl_node f = true → d_nodeID d ≠ "") ∧ d_ops d = newInflight ∧
        ∃ cfg, DriverOk (wiring.dispatch_config cfg) d
    end.
Proof.
  intros Hs. unfold main. destruct (fl_showVersion f).
  { eexists _, _. split; [done|]. split_and!; [set_solver|by split; [|intros (? & ? & _)]|done]. }
  destruct (fl_inspect f).
  { destruct (runInspect_ends (fl_configSrc f) (fl_configPath f) (fl_zoneLabel f) (fl_output f) w Hs) as (w' & code & report & -> & Hr). eauto. }
  destruct (negb (fl_controller f) && negb (fl_node f)) eqn:Hmode; [by eexists _, _|]. destruct (fl_node f && _) eqn:Hid; [by eexists _, _|].
  destruct (loadConfig _ _ _ w) as [w1 [cfg|e]]; [|by eexists _, _].
  destruct (wiring.build_spec connect wait cfg w1 Hs) as (w2 & r & -> & Hbuilt). destruct r as [bk|e]; [|by eexists _, _].
  unfold mbind, M_bind. destruct (node_zone_ok f w2) as (w3 & zone & ->). destruct (crush_location_ok f w3) as (w4 & crush & ->).
  eexists _, _. split; [reflexivity|]. simpl. destruct (Hbuilt bk eq_refl) as (H1 & H2 & _). split_and!.
  - by destruct (fl_controller f), (fl_node f).
  - done.
  - intros Hn He. rewrite Hn, He in Hid. by rewrite bool_decide_eq_true_2 in Hid.
  - done.
  - exists cfg. by split.
Qed.

(** A node's label decides its zone: a node service in a cluster takes the zone of its
    node's label; where the label cannot be read or is not set, it takes [--zone]. *)
Lemma node_zone_label f w z w' : fl_node f = true → fl_zoneLabel f ≠ "" → getenv "KUBERNETES_SERVICE_HOST" (w_env w) ≠ "" →
  NodeZone (fl_nodeID f) (fl_zoneLabel f) w = (w', Ok z) → z ≠ "" → node_zone f w = (w', Ok z).
Proof.
  intros Hn Hl Hin Hz Hne. unfold node_zone, InCluster, env_var, mbind, M_bind, gets, mret, M_ret, catch.
  rewrite Hn, !bool_decide_eq_false_2 by done. simpl. rewrite Hz. by rewrite bool_decide_eq_false_2.
Qed.
End main.

(** ** A process in the example cluster *)
Definition ex_connect (ep : string) : plugin.Transport pod := pod_transport.
Definition ex_info : json :=
  JObj [("type", JStr "nfs"); ("contractVersion", JStr "1.0"); ("capabilities", JObj [("listVolumes", JBool true); ("listSnapshots", JBool true); ("volumeHealth", JBool true)])].
Definition ex_cluster (volumes : list json) : World pod :=
  mkWorld newCollector (mkPod
    (("https://k:k" +:+ backendClustersPath, items [named_obj "main" [("spec", JObj [("backendType", JStr "nfs"); ("zone", JStr "z1");
        ("plugin", JObj [("endpoint", JStr "/nfs.sock")])])]])
     :: ("https://k:k/api/v1/nodes/n1", jsontext.print (JObj [("metadata", JObj [("labels", JObj [("zone", JStr "z1")])])])) :: ex_api)
    [("/info", (200%Z, ex_info)); ("/volume/list", (200%Z, entries volumes)); ("/snapshot/list", (200%Z, entries []));
     ("/volume/health", (200%Z, JObj [("abnormal", JBool true)]))]).
Definition scan_flags : Flags := mkFlags "" "" "zone" "" "" "crd" false false 0 true "table" false.
Definition node_flags : Flags := mkFlags "n1" "z9" "zone" "topology/zone,zone" "" "crd" false true 0 false "table" false.
Definition run_main (f : Flags) (w : World pod) := main ex_connect wiring.ex_wait (λ _, Err (plain_error "")) true "v1" f w.
Definition outcome_of (f : Flags) (w : World pod) : string * Z :=
  match run_main f w with
  | Some (_, Exited c _) => ("exit", c) | Some (_, Fatal e) => (err_fmt e, 0%Z)
  | Some (_, Serving d) => (d_zone d +:+ " " +:+ d_crushLocation d, 0%Z) | None => ("", 0%Z)
  end.
Example scan_exits_0 : outcome_of scan_flags (ex_cluster [ex_entry]) = ("exit", 0%Z).
Proof. vm_compute. reflexivity. Qed.
Example scan_exits_1 : outcome_of scan_flags (ex_cluster []) = ("exit", 1%Z).
Proof. vm_compute. reflexivity. Qed.
Example node_serves : outcome_of node_flags (ex_cluster [ex_entry]) = ("z1 zone:z1", 0%Z).
Proof. vm_compute. reflexivity. Qed.
Lemma ex_clocks : wiring.sane_clocks ex_connect wiring.ex_wait.
Proof. intros ep. split; [by intros path j env|]. by intros k d [= <-]. Qed.
End main.
