(* ===== verification/GoUrl.v ===== *)
(** * Go's url.Parse, as the driver uses it

    The scheme, the host and the path of a URL: what [parseEndpoint] reads of one.  The
    query and the fragment are cut off, a fragment that cannot be unescaped is an error.
    Which authorities are accepted, and the host they name, has changed between releases
    of Go: it is a parameter, with the two laws the driver's endpoints rely on. *)
From Stdlib Require Import Ascii.
From S2P Require Import Prelude GoStrings Json JsonText.

Module url.

Class Authority := {
  parseAuthority : string → res string string;
  no_authority : parseAuthority "" = Ok "";
  host_port : ∀ host port, all_chars (λ a, byte_in 48 57 a || byte_in 97 122 a || bool_decide (a = "."%char)) host = true →
    all_chars (byte_in 48 57) port = true → parseAuthority (host +:+ ":" +:+ port) = Ok (host +:+ ":" +:+ port);
}.

Record URL := mkURL { Scheme : string; Host : string; Path : string }.

(** [unescape] of a path or a fragment. *)
Fixpoint unescape (s : string) : option string :=
  match s with
  | "" => Some ""
  | String c s' =>
      if decide (c = "%"%char) then
        match s' with
        | String a (String b s'') =>
            match jsontext.hex_val a, jsontext.hex_val b with
            | Some x, Some y => String (ascii_of_N (16 * x + y)) <$> unescape s''
            | _, _ => None
            end
        | _ => None
        end
      else String c <$> unescape s'
  end.
Definition unescaped (s : string) : res string string :=
  match unescape s with Some t => Ok t | None => Err "invalid URL escape" end.

(** A control character. *)
Definition ctl (a : ascii) : bool := byte_in 0 31 a || bool_decide (N_of_ascii a = 127%N).
Definition letter (a : ascii) : bool := byte_in 97 122 a || byte_in 65 90 a.
Definition scheme_more (a : ascii) : bool := byte_in 48 57 a || bool_decide (a ∈ ["+"%char; "-"%char; "."%char]).

(** [getScheme]'s loop from index [i]: the rest of the scheme and what follows its colon,
    [None] where the text has no scheme. *)
Fixpoint getScheme_loop (i : nat) (s : string) : res string (option (string * string)) :=
  match s with
  | "" => Ok None
  | String c s' =>
      let go_on := r ← getScheme_loop (S i) s'; Ok (option_map (λ p, (String c p.1, p.2)) r) in
      if letter c then go_on
      else if scheme_more c then if decide (i = 0) then Ok None else go_on
      else if decide (c = ":"%char) then if decide (i = 0) then Err "missing protocol scheme" else Ok (Some ("", s'))
      else Ok None
  end.
Definition getScheme (raw : string) : res string (string * string) :=
  r ← getScheme_loop 0 raw; Ok (default ("", raw) r).

(** The text before the first [c], all of it where there is none. *)
Definition before (c : ascii) (s : string) : string := match cut_on c s with Some (l, _) => l | None => s end.

Section parse.
  Context `{Authority}.

(** The authority after the two slashes of [rest], and the path after it. *)
Definition authority (scheme rest : string) : res string (string * string) :=
  match cut_prefix "//" rest with
  | Some a =>
      if bool_decide (scheme ≠ "") || negb (has_prefix "///" rest) then
        let '(auth, path) := match cut_on "/" a with Some (l, r) => (l, String "/" r) | None => (a, "") end in
        h ← parseAuthority auth; Ok (h, path)
      else Ok ("", rest)
  | None => Ok ("", rest)
  end.
(** A text with a scheme that is no path is opaque: it has neither host nor path. *)
Definition parse (raw : string) : res string URL :=
  if negb (all_chars (λ a, negb (ctl a)) raw) then Err "net/url: invalid control character in URL"
  else if decide (raw = "*") then Ok (mkURL "" "" "*")
  else
    s ← getScheme raw;
    let scheme := to_lower s.1 in
    let rest := before "?" s.2 in
    if negb (has_prefix "/" rest) && bool_decide (scheme ≠ "") then Ok (mkURL scheme "" "")
    else if negb (has_prefix "/" rest) && contains_char ":" (before "/" rest)
    then Err "first path segment in URL cannot contain colon"
    else
      a ← authority scheme rest;
      p ← unescaped a.2;
      Ok (mkURL scheme a.1 p).
Definition Parse (raw : string) : res string URL :=
  let '(u, frag) := match cut_on "#" raw with Some p => p | None => (raw, "") end in
  url ← parse u;
  if decide (frag = "") then Ok url else _ ← unescaped frag; Ok url.

(** ** What is parsed *)

(** A byte a path may hold as it is. *)
Definition plain (a : ascii) : bool := negb (ctl a) && negb (bool_decide (a ∈ ["%"%char; "?"%char; "#"%char])).

Lemma plain_free s c : c ∈ ["%"%char; "?"%char; "#"%char] → all_chars plain s = true → contains_char c s = false.
Proof.
  intros Hc. apply all_chars_free. unfold plain. rewrite (bool_decide_eq_true_2 _ Hc), andb_false_r. done.
Qed.
Lemma plain_no_ctl s : all_chars plain s = true → all_chars (λ a, negb (ctl a)) s = true.
Proof. apply all_chars_impl. intros a. unfold plain. by intros []%andb_true_iff. Qed.
Lemma unescape_plain s : contains_char "%" s = false → unescape s = Some s.
Proof.
  induction s as [|c s IH]; [done|]. simpl. destruct (decide _) as [->|Hc]; [done|]. intros Hs.
  destruct (decide (c = "%"%char)); [done|]. by rewrite IH.
Qed.
Lemma before_none c s : contains_char c s = false → before c s = s.
Proof. intros Hs. unfold before. by rewrite cut_on_none. Qed.
Lemma Parse_parse raw : contains_char "#" raw = false → Parse raw = parse raw.
Proof. intros Hr. unfold Parse. rewrite cut_on_none by done. by destruct (parse raw). Qed.
Lemma parse_scheme raw scheme rest : all_chars plain raw = true → raw ≠ "*" → scheme ≠ "" →
  getScheme raw = Ok (scheme, rest) → all_chars plain rest = true →
  parse raw = if has_prefix "/" rest then a ← authority (to_lower scheme) rest; p ← unescaped a.2; Ok (mkURL (to_lower scheme) a.1 p)
              else Ok (mkURL (to_lower scheme) "" "").
Proof.
  intros Hraw Hstar Hne Hs Hrest. unfold parse. rewrite (plain_no_ctl raw Hraw), decide_False, Hs by done. simpl.
  rewrite before_none by (apply (plain_free rest); [set_solver|done]).
  rewrite bool_decide_eq_true_2 by (destruct scheme; done). by destruct (has_prefix "/" rest).
Qed.
(** A URL of a scheme with three slashes: the path is what follows the second. *)
Lemma Parse_rooted raw scheme p : all_chars plain raw = true → scheme ≠ "" → getScheme raw = Ok (scheme, "///" +:+ p) →
  all_chars plain p = true → Parse raw = Ok (mkURL (to_lower scheme) "" ("/" +:+ p)).
Proof.
  intros Hraw Hne Hs Hp. rewrite Parse_parse by (apply plain_free; [set_solver|done]).
  rewrite (parse_scheme raw scheme ("///" +:+ p)); [|done|by intros ->|done..]. simpl.
  unfold authority. simpl. rewrite bool_decide_eq_true_2 by (destruct scheme; done). simpl. rewrite no_authority. simpl.
  unfold unescaped. rewrite unescape_plain; [done|]. apply (plain_free ("/" +:+ p)); [set_solver|done].
Qed.
(** A URL without a slash after its scheme is opaque. *)
Lemma Parse_opaque raw scheme rest : all_chars plain raw = true → scheme ≠ "" → getScheme raw = Ok (scheme, rest) →
  all_chars plain rest = true → has_prefix "/" rest = false → Parse raw = Ok (mkURL (to_lower scheme) "" "").
Proof.
  intros Hraw Hne Hs Hp Hslash. rewrite Parse_parse by (apply plain_free; [set_solver|done]).
  rewrite (parse_scheme raw scheme rest); [|done|intros ->; injection Hs as <-; done|done..]. by rewrite Hslash.
Qed.
End parse.

(** Letters, digits and dots, then a port: an authority every release accepts. *)
Definition plain_authority (a : string) : res string string :=
  match cut_on ":" a with
  | Some (_, port) => if all_chars (byte_in 48 57) port then Ok a else Err "invalid port after host"
  | None => Ok a
  end.
#[global] Program Instance authority_default : Authority | 100 := {| parseAuthority := plain_authority |}.
Next Obligation. done. Qed.
Next Obligation.
  intros host port Hh Hp. unfold plain_authority. change (":" +:+ port) with (String ":" port). rewrite (cut_on_app ":" host port), Hp; [done|]. by refine (all_chars_free _ _ _ _ Hh).
Qed.
End url.
