(* ===== verification/Sockets.v ===== *)
(** * Listening sockets

    [net.Listen] next to the calls of package os, and what Unix does: a socket is bound to
    a directory entry of its own, [bind] refuses a path that exists, removing the entry
    leaves the socket without a way to reach it.  [where_] is the directory entry a path
    names.  [sockets_now] is a machine to run the servers on. *)
From S2P Require Import Prelude GoStrings Protocol Host GoOs.

Class Sockets (H : Type) := { Listen : string → string → H → H * res os_error Z }.

(** A directory entry: its permission bits, and the listener bound to it, if it is a socket. *)
Record inode := mkInode { i_mode : Z; i_sock : option Z }.
#[export] Instance inode_eq_dec : EqDecision inode.
Proof. solve_decision. Defined.

(** A path of the file system: [bind] gives the empty path, and one that starts with an at
    sign, a name that is no file. *)
Definition on_disk (p : string) : bool := negb (bool_decide (p = "")) && negb (has_prefix "@" p).

Class SocketFS (H : Type) `{Files H} `{Sockets H} := {
  where_ : string → string;
  entry : string → H → option inode;
  (* the listeners handed out so far *)
  issued : H → gset Z;
  stat_keeps : ∀ p h k, entry k (Stat p h).1 = entry k h ∧ issued (Stat p h).1 = issued h;
  read_keeps : ∀ p h k, entry k (ReadFile p h).1 = entry k h ∧ issued (ReadFile p h).1 = issued h;
  remove_keeps : ∀ p h, issued (Remove p h).1 = issued h ∧ ∀ k, k ≠ where_ p → entry k (Remove p h).1 = entry k h;
  remove_gone : ∀ p h h', Remove p h = (h', None) → entry (where_ p) h' = None;
  remove_refused : ∀ p h h' e, Remove p h = (h', Some e) → entry (where_ p) h' = entry (where_ p) h ∧
    (not_exist e = true → entry (where_ p) h = None);
  chmod_keeps : ∀ p m h, issued (Chmod p m h).1 = issued h ∧ ∀ k, k ≠ where_ p → entry k (Chmod p m h).1 = entry k h;
  chmod_sets : ∀ p m h h', Chmod p m h = (h', None) →
    entry (where_ p) h' = (λ i, mkInode m (i_sock i)) <$> entry (where_ p) h;
  listen_issues : ∀ n a h h' l, Listen n a h = (h', Ok l) → (l ∉ issued h) ∧ issued h' = {[l]} ∪ issued h;
  listen_fails : ∀ n a h h' e, Listen n a h = (h', Err e) → issued h' = issued h ∧ ∀ k, entry k h' = entry k h;
  listen_tcp : ∀ a h k, entry k (Listen "tcp" a h).1 = entry k h;
  listen_keeps : ∀ a h k, k ≠ where_ a → entry k (Listen "unix" a h).1 = entry k h;
  listen_binds : ∀ a h h' l, on_disk a = true → Listen "unix" a h = (h', Ok l) →
    entry (where_ a) h = None ∧ ∃ m, entry (where_ a) h' = Some (mkInode m (Some l));
}.

(** ** A machine

    Paths are what they say; sockets are made 0755, listeners are numbered.  The file system
    may refuse to remove some paths. *)
Record machine := mkMachine { m_entries : gmap string inode; m_files : strmap; m_next : nat; m_stuck : gset string }.
Definition no_entry : os_error := mkOsError true "no such file or directory".
Definition refused : os_error := mkOsError false "operation not permitted".
Definition with_entries (f : gmap string inode → gmap string inode) (h : machine) : machine :=
  mkMachine (f (m_entries h)) (m_files h) (m_next h) (m_stuck h).
Definition machine_remove (p : string) (h : machine) : machine * option os_error :=
  if decide (p ∈ m_stuck h) then (h, Some refused)
  else match m_entries h !! p with
  | Some _ => (with_entries (delete p) h, None)
  | None => (h, Some no_entry)
  end.
#[export] Instance machine_disk : Files machine := {|
  MkdirTemp _ _ h := (h, Err refused);
  Remove := machine_remove;
  RemoveAll _ h := (h, Some refused);
  Rename _ _ h := (h, Some refused);
  ReadFile p h := (h, match m_files h !! p with Some d => Ok d | None => Err no_entry end);
  WriteFile _ _ _ h := (h, Some refused);
  Stat p h := (h, match m_entries h !! p with Some i => Ok (i_mode i) | None => Err no_entry end);
  ReadDir _ h := (h, Err refused);
  Chmod p m h := match m_entries h !! p with
    | Some i => (with_entries <[p := mkInode m (i_sock i)]> h, None)
    | None => (h, Some no_entry)
    end;
  Statfs _ h := (h, Err refused) |}.
Definition bind_at (f : gmap string inode → gmap string inode) (h : machine) : machine * res os_error Z :=
  (mkMachine (f (m_entries h)) (m_files h) (S (m_next h)) (m_stuck h), Ok (Z.of_nat (m_next h))).
Definition machine_listen (n a : string) (h : machine) : machine * res os_error Z :=
  if decide (n = "unix") then
    if on_disk a then
      match m_entries h !! a with
      | Some _ => (h, Err (mkOsError false "bind: address already in use"))
      | None => bind_at <[a := mkInode 493 (Some (Z.of_nat (m_next h)))]> h
      end
    else bind_at id h
  else bind_at id h.
#[export] Instance machine_net : Sockets machine := {| Listen := machine_listen |}.

#[export] Program Instance sockets_now : SocketFS machine := {|
  where_ p := p;
  entry k h := m_entries h !! k;
  issued h := list_to_set (Z.of_nat <$> seq 0 (m_next h));
|}.
Next Obligation. done. Qed.
Next Obligation. done. Qed.
Next Obligation.
  intros p h. simpl. unfold machine_remove. repeat case_match; simpl; split; try done. intros k Hk. by rewrite lookup_delete_ne.
Qed.
Next Obligation.
  intros p h h'. simpl. unfold machine_remove. repeat case_match; intros [= <-]; simpl. by rewrite lookup_delete_eq.
Qed.
Next Obligation. intros p h h' e. simpl. unfold machine_remove. repeat case_match; intros [= <- <-]; simpl; done. Qed.
Next Obligation.
  intros p m h. simpl. case_match; simpl; split; try done. intros k Hk. by rewrite lookup_insert_ne.
Qed.
Next Obligation.
  intros p m h h'. simpl. case_match eqn:Hp; intros [= <-]; simpl. by rewrite lookup_insert_eq.
Qed.
Next Obligation.
  intros n a h h' l. simpl. unfold machine_listen, bind_at.
  assert (∀ k, Z.of_nat k ∉ (list_to_set (Z.of_nat <$> seq 0 k) : gset Z)) as Hfresh.
  { intros k. rewrite elem_of_list_to_set, list_elem_of_fmap. intros (j & Hj & Hin). apply elem_of_seq in Hin. lia. }
  assert (∀ k, (list_to_set (Z.of_nat <$> seq 0 (S k)) : gset Z) = {[Z.of_nat k]} ∪ list_to_set (Z.of_nat <$> seq 0 k)) as Hmore.
  { intros k. rewrite seq_S, fmap_app, list_to_set_app_L. simpl. set_solver. }
  repeat case_match; intros [= <- <-]; simpl m_next; rewrite Hmore; eauto.
Qed.
Next Obligation. intros n a h h' e. simpl. unfold machine_listen, bind_at. repeat case_match; intros [= <- <-]; done. Qed.
Next Obligation. done. Qed.
Next Obligation.
  intros a h k Hk. simpl. unfold machine_listen, bind_at. repeat case_match; simpl; try done. by rewrite lookup_insert_ne.
Qed.
Next Obligation.
  intros a h h' l Ha. simpl. unfold machine_listen, bind_at. rewrite Ha. repeat case_match; intros [= <- <-]; simpl; [|done].
  split; [done|]. rewrite lookup_insert_eq. eauto.
Qed.

(** ** Sockets next to something else *)
Section beside.
  Context {A H : Type} `{Files H} `{Sockets H}.

Definition beside {R} (f : H → H * R) (x : A * H) : (A * H) * R := let '(h, r) := f x.2 in ((x.1, h), r).
#[export] Instance beside_files : Files (A * H) := {|
  MkdirTemp d p := beside (MkdirTemp d p); Remove p := beside (Remove p); RemoveAll p := beside (RemoveAll p);
  Rename p q := beside (Rename p q); ReadFile p := beside (ReadFile p); WriteFile p d m := beside (WriteFile p d m);
  Stat p := beside (Stat p); ReadDir p := beside (ReadDir p); Chmod p m := beside (Chmod p m); Statfs p := beside (Statfs p) |}.
#[export] Instance beside_sockets : Sockets (A * H) := {| Listen n a := beside (Listen n a) |}.
Lemma beside_fst {R} (f : H → H * R) x : (beside f x).1 = (x.1, (f x.2).1).
Proof. unfold beside. by destruct (f x.2). Qed.
Lemma beside_run {R} (f : H → H * R) x y r : beside f x = (y, r) → f x.2 = (y.2, r).
Proof. unfold beside. destruct (f x.2). by intros [= <- <-]. Qed.

#[export] Program Instance beside_fs `{!SocketFS H} : SocketFS (A * H) := {|
  where_ := where_ (H := H); entry k x := entry k x.2; issued x := issued x.2 |}.
Next Obligation. intros. simpl. rewrite beside_fst. apply stat_keeps. Qed.
Next Obligation. intros. simpl. rewrite beside_fst. apply read_keeps. Qed.
Next Obligation. intros. simpl. rewrite beside_fst. apply remove_keeps. Qed.
Next Obligation. intros ???? Hr%beside_run. by apply (remove_gone _ _ _ Hr). Qed.
Next Obligation. intros ????? Hr%beside_run. by apply (remove_refused _ _ _ _ Hr). Qed.
Next Obligation. intros. simpl. rewrite beside_fst. apply chmod_keeps. Qed.
Next Obligation. intros ????? Hr%beside_run. by apply (chmod_sets _ _ _ _ Hr). Qed.
Next Obligation. intros ?????? Hr%beside_run. by apply (listen_issues _ _ _ _ _ Hr). Qed.
Next Obligation. intros ?????? Hr%beside_run. by apply (listen_fails _ _ _ _ _ Hr). Qed.
Next Obligation. intros. simpl. rewrite beside_fst. apply listen_tcp. Qed.
Next Obligation. intros. simpl. rewrite beside_fst. by apply listen_keeps. Qed.
Next Obligation. intros ????? Hd Hr%beside_run. by apply (listen_binds _ _ _ _ Hd Hr). Qed.
End beside.
