(* ===== verification/Serving.v ===== *)
(** * Serving: endpoints and sockets (internal/driver/driver.go, pkg/bardplugin/server.go)

    How the driver and a plugin come to listen.  [Run] sets the CSI socket up while a
    goroutine sets up that of csi-addons; the two run at once, so their system calls are the
    steps of a relation ([bring_up]) and the sequential [listen] is related to them.  [Serve]
    is the SDK's.  What a server does with a connection is the handlers of the other files. *)
From Stdlib Require Import Ascii.
From S2P Require Import Prelude GoStrings GoErrors VolumeID Dispatch Metrics Exposition Backend Json JsonText Protocol Server Client Inflight Driver Controller CSIAddons Host GoOs GoUrl Sockets.

Module serving.

(** ** Endpoints *)
Section endpoints.
  Context `{url.Authority}.

Definition parseEndpoint (ep : string) : res error (string * string) :=
  if has_prefix "/" ep then Ok ("unix", ep)
  else match url.Parse ep with
  | Err _ => Err (plain_error "invalid endpoint %q: %w")
  | Ok u =>
      if decide (url.Scheme u = "unix") then Ok ("unix", url.Path u)
      else if decide (url.Scheme u = "tcp") then Ok ("tcp", url.Host u)
      else Err (plain_error "unsupported endpoint scheme %q")
  end.

Lemma parseEndpoint_network ep n a : parseEndpoint ep = Ok (n, a) → n = "unix" ∨ n = "tcp".
Proof. unfold parseEndpoint. repeat case_match; intros; simplify_eq; auto. Qed.
(** A rooted path can be written with its scheme or without. *)
Lemma parseEndpoint_rooted p : all_chars url.plain p = true →
  parseEndpoint ("unix:///" +:+ p) = Ok ("unix", "/" +:+ p) ∧ parseEndpoint ("/" +:+ p) = Ok ("unix", "/" +:+ p).
Proof.
  intros Hp. split; [|done]. unfold parseEndpoint. change (has_prefix "/" ("unix:///" +:+ p)) with false.
  by rewrite (url.Parse_rooted ("unix:///" +:+ p) "unix" p).
Qed.
(** A relative path after the scheme is lost: the address is empty. *)
Lemma parseEndpoint_relative p : all_chars url.plain p = true → has_prefix "/" p = false →
  parseEndpoint ("unix:" +:+ p) = Ok ("unix", "").
Proof.
  intros Hp Hslash. unfold parseEndpoint. change (has_prefix "/" ("unix:" +:+ p)) with false.
  by rewrite (url.Parse_opaque ("unix:" +:+ p) "unix" p).
Qed.
End endpoints.

(** ** Listening *)
Section listening.
  Context {H : Type} `{Files H} `{Sockets H}.
  Abbreviation op A := (M H error A).

Definition net_listen (network addr : string) : op Z := run_err (λ e, plain_error (os_text e)) (Listen network addr).
(** [listen]: a stale socket is removed. *)
Definition listen (network addr : string) : op Z :=
  (if decide (network = "unix") then
     catch (os_get (Stat addr)) (λ r,
       match r with
       | Ok _ => run_err (λ _, plain_error "remove stale socket %s: %w") (os_unit (Remove addr))
       | Err _ => mret tt
       end)
   else mret tt);;
  net_listen network addr.

(** Its calls one by one: a thread that sets a socket up is before the call it makes next. *)
Inductive setup :=
  | Checking (network addr : string)
  | Removing (addr : string)
  | Binding (network addr : string)
  | Up (l : Z)
  | Failed (e : error).
Definition setup_step (t : setup) (h : H) : H * setup :=
  match t with
  | Checking n a =>
      if decide (n = "unix") then
        let '(h', r) := Stat a h in (h', match r with Ok _ => Removing a | Err _ => Binding n a end)
      else (h, Binding n a)
  | Removing a =>
      let '(h', e) := Remove a h in
      (h', match e with None => Binding "unix" a | Some _ => Failed (plain_error "listen on %s: %w") end)
  | Binding n a =>
      let '(h', r) := Listen n a h in
      (h', match r with Ok l => Up l | Err _ => Failed (plain_error "listen on %s: %w") end)
  | Up _ | Failed _ => (h, t)
  end.
Definition settled (t : setup) : bool := match t with Up _ | Failed _ => true | _ => false end.
Fixpoint setup_steps (n : nat) (th : H * setup) : H * setup :=
  match n with 0 => th | S n => setup_steps n (setup_step th.2 th.1) end.
Definition setup_of (r : res error Z) : setup := match r with Ok l => Up l | Err e => Failed e end.

(** What [Run] and [runCSIAddons] make of it. *)
Definition listen_on (network addr : string) : op Z :=
  run_err (λ e, mkError (err_chain e) "listen on %s: %w") (listen network addr).
(** Three steps are [listen]. *)
Lemma setup_is_listen n a h :
  setup_steps 3 (h, Checking n a) = let '(h', r) := listen_on n a h in (h', setup_of r).
Proof.
  cbn [setup_steps setup_step fst snd]. unfold listen_on, listen, net_listen, run_err, mbind, M_bind, catch, os_get, os_unit, mret, M_ret.
  destruct (decide (n = "unix")) as [->|Hn].
  - destruct (Stat a h) as [h1 [m|e]]; cbn [setup_step fst snd].
    + destruct (Remove a h1) as [h2 [e|]]; cbn [setup_step fst snd map_err]; [done|]. by destruct (Listen "unix" a h2) as [h3 [l|e]].
    + by destruct (Listen "unix" a h1) as [h3 [l|e']].
  - cbn [setup_step fst snd]. by destruct (Listen n a h) as [h3 [l|e']].
Qed.
End listening.

(** ** Two sockets at once *)
Section bring_up.
  Context {H : Type} `{Files H} `{Sockets H}.

(** The CSI socket's thread, and that of csi-addons, if there is one. *)
Record process := mkProcess { p_host : H; p_main : setup; p_addons : option setup }.
Inductive bring_up : process → process → Prop :=
  | main_moves h h' t t' o : setup_step t h = (h', t') → bring_up (mkProcess h t o) (mkProcess h' t' o)
  | addons_moves h h' t o o' : setup_step o h = (h', o') → bring_up (mkProcess h t (Some o)) (mkProcess h' t (Some o')).

Context `{!SocketFS H}.
(** A thread for the address [a] is in order: on a socket that is up, the address leads to it. *)
Definition leads (h : H) (a : string) (l : Z) : Prop := ∃ m, entry (where_ a) h = Some (mkInode m (Some l)).
Definition in_order (h : H) (a : string) (t : setup) : Prop :=
  match t with
  | Checking n b | Binding n b => n = "unix" ∧ b = a
  | Removing b => b = a
  | Up l => leads h a l ∧ l ∈ issued h
  | Failed _ => True
  end.

Lemma setup_step_keeps t h a k : in_order h a t → k ≠ where_ a → entry k (setup_step t h).1 = entry k h.
Proof.
  destruct t as [n b|b|n b|l|e]; cbn [in_order setup_step]; [intros [-> ->] Hk|intros -> Hk|intros [-> ->] Hk|done..].
  - rewrite decide_True by done. generalize (stat_keeps a h k). destruct (Stat a h). simpl. tauto.
  - generalize (remove_keeps a h). destruct (Remove a h). simpl. intros [_ Hr]. by apply Hr.
  - generalize (listen_keeps a h k Hk). by destruct (Listen "unix" a h).
Qed.
Lemma setup_step_issues t h : issued h ⊆ issued (setup_step t h).1.
Proof.
  destruct t as [n b|b|n b|l|e]; cbn [setup_step]; try done.
  - case_match; [|done]. generalize (stat_keeps b h ""). destruct (Stat b h). simpl. by intros [_ ->].
  - generalize (remove_keeps b h). destruct (Remove b h). simpl. by intros [-> _].
  - destruct (Listen n b h) as [h' [l|e]] eqn:Hl; simpl.
    + apply listen_issues in Hl as [_ ->]. set_solver.
    + by apply listen_fails in Hl as [-> _].
Qed.
Lemma setup_step_order t h a : on_disk a = true → in_order h a t → in_order (setup_step t h).1 a (setup_step t h).2.
Proof.
  intros Ha. destruct t as [n b|b|n b|l|e]; cbn [in_order setup_step]; [intros [-> ->]|intros ->|intros [-> ->]|done..].
  - rewrite decide_True by done. by destruct (Stat a h) as [h' []].
  - by destruct (Remove a h) as [h' []].
  - destruct (Listen "unix" a h) as [h' [l|e]] eqn:Hl; [|done]. cbn [fst snd in_order]. split.
    + apply (listen_binds a h h' l Ha Hl).
    + apply listen_issues in Hl as [_ ->]. set_solver.
Qed.
(** A thread for another address leaves it in order. *)
Lemma in_order_mono h h' a t : (entry (where_ a) h' = entry (where_ a) h) → issued h ⊆ issued h' → in_order h a t → in_order h' a t.
Proof. destruct t; simpl; try done. unfold leads. intros -> Hi [? ?]. split; [done|set_solver]. Qed.

Lemma setup_step_fresh t h l : settled t = false → (setup_step t h).2 = Up l → l ∉ issued h.
Proof.
  destruct t as [n b|b|n b|l'|e]; cbn [setup_step settled]; try done; intros _.
  - case_match; [|done]. by destruct (Stat b h) as [h' []].
  - by destruct (Remove b h) as [h' []].
  - destruct (Listen n b h) as [h' [k|e]] eqn:Hl; simpl; [|done]. intros [= <-]. by apply listen_issues in Hl as [? _].
Qed.

(** Two threads in order, with listeners of their own. *)
Definition two_in_order (h : H) (a b : string) (t u : setup) : Prop :=
  in_order h a t ∧ in_order h b u ∧ ∀ l, t = Up l → u ≠ Up l.
Lemma two_in_order_step h a b t u : on_disk a = true → where_ b ≠ where_ a →
  two_in_order h a b t u → two_in_order (setup_step t h).1 a b (setup_step t h).2 u.
Proof.
  intros Ha Hab (Ht & Hu & Hl). split_and!.
  - by apply setup_step_order.
  - eapply in_order_mono; [by eapply setup_step_keeps|apply setup_step_issues|done].
  - intros l Hup ->. destruct (settled t) eqn:Hs.
    + assert (setup_step t h = (h, t)) as Heq by (by destruct t). rewrite Heq in Hup. simpl in Hup. by apply (Hl l).
    + apply setup_step_fresh in Hup; [|done]. by destruct Hu.
Qed.
Lemma two_in_order_sym h a b t u : two_in_order h a b t u → two_in_order h b a u t.
Proof. intros (Ht & Hu & Hl). split_and!; [done..|]. intros l -> ->. by apply (Hl l). Qed.

(** Where no thread is, one that has failed stands in. *)
Definition absent : setup := Failed (plain_error "").
Definition both_in_order (a b : string) (p : process) : Prop :=
  two_in_order (p_host p) a b (p_main p) (default absent (p_addons p)).
Lemma both_in_order_steps a b p p' : on_disk a = true → on_disk b = true → where_ a ≠ where_ b →
  rtc bring_up p p' → both_in_order a b p → both_in_order a b p'.
Proof.
  intros Ha Hb Hab. induction 1 as [|p q r Hstep _ IH]; [done|]. intros Hp. apply IH.
  destruct Hstep as [h h' t t' o Hs|h h' t o o' Hs]; unfold both_in_order in *; simpl in *.
  - generalize (two_in_order_step h a b t (default absent o) Ha ltac:(congruence) Hp). by rewrite Hs.
  - apply two_in_order_sym. generalize (two_in_order_step h b a o t Hb Hab (two_in_order_sym _ _ _ _ _ Hp)). by rewrite Hs.
Qed.
End bring_up.

(** ** The driver's servers *)
Section run.
  Context {T : Type} `{url.Authority} `{Files T} `{Sockets T}.
  Implicit Types d : Driver T.

Inductive CSIService := CSIIdentity | CSIController | CSINode.
Record server (S : Type) := mkServer { srv_lis : Z; srv_services : list S }.

(** The services [Run] registers. *)
Definition csi_services d : list CSIService :=
  [CSIIdentity] ++ addons.when (Controller (d_mode d)) [CSIController] ++ addons.when (Node (d_mode d)) [CSINode].
Definition runCSIAddons d (endpoint : string) : M T error (server addons.Service) :=
  na ← lift (parseEndpoint endpoint);
  lis ← listen_on na.1 na.2;
  mret (mkServer _ lis (addons.registerCSIAddons d)).
(** The goroutine [Run] starts first, as the endpoint it serves. *)
Definition addons_served d (csiAddonsEndpoint : string) : option string :=
  if negb (bool_decide (csiAddonsEndpoint = "")) && (Controller (d_mode d) || Node (d_mode d))
  then Some csiAddonsEndpoint else None.
(** [Run] after that, up to [Serve]. *)
Definition Run d (endpoint : string) : M T error (server CSIService) :=
  na ← lift (parseEndpoint endpoint);
  lis ← listen_on na.1 na.2;
  mret (mkServer _ lis (csi_services d)).

(** The same as threads: parsing an endpoint is no step of the host. *)
Definition thread (endpoint : string) : setup :=
  match parseEndpoint endpoint with Ok (n, a) => Checking n a | Err e => Failed e end.
Definition start_process d (endpoint csiAddonsEndpoint : string) (h : T) : process :=
  mkProcess h (thread endpoint) (thread <$> addons_served d csiAddonsEndpoint).
Lemma thread_is_Run d ep h :
  setup_steps 3 (h, thread ep) = let '(h', r) := Run d ep h in (h', setup_of (srv_lis _ <$> r)).
Proof.
  unfold thread, Run, mbind, M_bind, lift. destruct (parseEndpoint ep) as [[n a]|e]; [|done].
  rewrite setup_is_listen. cbn [fst snd]. by destruct (listen_on n a h) as [h' []].
Qed.

(** A schedule of the two threads: whose turn it is. *)
Definition turn (main : bool) (p : @process T) : process :=
  if main then let '(h, t) := setup_step (p_main p) (p_host p) in mkProcess h t (p_addons p)
  else match p_addons p with
  | Some o => let '(h, o') := setup_step o (p_host p) in mkProcess h (p_main p) (Some o')
  | None => p
  end.
Definition schedule (turns : list bool) (p : @process T) : process := foldl (λ p b, turn b p) p turns.
Definition turns_of (main : bool) (turns : list bool) : nat := length (filter (λ b, b = main) turns).

Lemma turn_steps b p : rtc bring_up p (turn b p).
Proof.
  destruct p as [h t o], b; simpl.
  - destruct (setup_step t h) eqn:Hs. by apply rtc_once, main_moves.
  - destruct o as [o|]; [|done]. destruct (setup_step o h) eqn:Hs. by apply rtc_once, addons_moves.
Qed.
Lemma schedule_steps turns p : rtc bring_up p (schedule turns p).
Proof. revert p. induction turns as [|b turns IH]; intros p; [done|]. etrans; [apply turn_steps|apply IH]. Qed.

(** How many calls a thread still makes at most. *)
Definition calls_left (t : setup) : nat :=
  match t with Checking _ _ => 3 | Removing _ => 2 | Binding _ _ => 1 | Up _ | Failed _ => 0 end.
Lemma calls_left_step t h : calls_left (setup_step t h).2 ≤ calls_left t - 1.
Proof.
  destruct t as [n b|b|n b|l|e]; cbn [setup_step calls_left snd]; try lia.
  - case_match; [|simpl; lia]. destruct (Stat b h) as [? []]; simpl; lia.
  - destruct (Remove b h) as [? []]; simpl; lia.
  - destruct (Listen n b h) as [? []]; simpl; lia.
Qed.
Definition left_of (main : bool) (p : @process T) : nat :=
  calls_left (if main then p_main p else default absent (p_addons p)).
Lemma turn_left m b p : left_of m (turn b p) ≤ left_of m p - (if decide (b = m) then 1 else 0).
Proof.
  destruct p as [h t o], b; [|destruct o as [o|]]; unfold left_of; simpl.
  - generalize (calls_left_step t h). destruct (setup_step t h) as [h' t'], m; simpl; lia.
  - generalize (calls_left_step o h). destruct (setup_step o h) as [h' o'], m; simpl; lia.
  - destruct m; simpl; lia.
Qed.
Lemma schedule_left m turns p : left_of m (schedule turns p) ≤ left_of m p - turns_of m turns.
Proof.
  revert p. induction turns as [|b turns IH]; intros p; unfold turns_of; simpl; [lia|].
  etrans; [apply IH|]. pose proof (turn_left m b p). unfold turns_of. rewrite filter_cons. case_decide; simpl in *; lia.
Qed.
Lemma calls_left_settled t : calls_left t = 0 → settled t = true.
Proof. by destruct t. Qed.
Lemma thread_left ep : calls_left (thread ep) ≤ 3.
Proof. unfold thread. repeat case_match; simpl; lia. Qed.

Context `{!SocketFS T}.
Lemma start_in_order d ep aep h a b : parseEndpoint ep = Ok ("unix", a) → parseEndpoint aep = Ok ("unix", b) →
  both_in_order a b (start_process d ep aep h).
Proof.
  intros Ha Hb. unfold start_process, both_in_order, addons_served. simpl.
  assert (∀ e c, parseEndpoint e = Ok ("unix", c) → thread e = Checking "unix" c) as Ht by (intros e c He; unfold thread; by rewrite He).
  rewrite (Ht _ _ Ha). case_match; simpl; [rewrite (Ht _ _ Hb)|]; split_and!; done.
Qed.

(** C38: the two sockets come up whatever the interleaving: with endpoints at different paths,
    however the set-up of the CSI socket and of the csi-addons socket interleave, each has
    come up or failed after three calls of its own, and the path of one that is up leads to
    its listener: neither takes the other's socket for a stale one. *)
Theorem sockets_apart d ep aep h a b turns : parseEndpoint ep = Ok ("unix", a) → parseEndpoint aep = Ok ("unix", b) →
  on_disk a = true → on_disk b = true → where_ a ≠ where_ b →
  let p := schedule turns (start_process d ep aep h) in
  (3 ≤ turns_of true turns → settled (p_main p) = true) ∧
  (3 ≤ turns_of false turns → ∀ t, p_addons p = Some t → settled t = true) ∧
  (∀ l, p_main p = Up l → leads (p_host p) a l ∧ p_addons p ≠ Some (Up l)) ∧
  (∀ l, p_addons p = Some (Up l) → leads (p_host p) b l).
Proof.
  intros Ha Hb Hda Hdb Hab p.
  destruct (both_in_order_steps a b _ p Hda Hdb Hab (schedule_steps turns _) (start_in_order d ep aep h a b Ha Hb)) as (Hm & Ho & Hl).
  pose proof (λ m, schedule_left m turns (start_process d ep aep h)) as Hleft. fold p in Hleft. split_and!.
  - intros Hn. apply calls_left_settled. specialize (Hleft true). pose proof (thread_left ep). unfold left_of in Hleft. simpl in *. lia.
  - intros Hn t Ht. apply calls_left_settled. specialize (Hleft false). unfold left_of in Hleft. rewrite Ht in Hleft. simpl in Hleft.
    assert (calls_left (default absent (thread <$> addons_served d aep)) ≤ 3) by (destruct (addons_served d aep); simpl; [apply thread_left|lia]). lia.
  - intros l Hup. rewrite Hup in *. split; [apply Hm|]. intros Hau. rewrite Hau in Hl. by apply (Hl l).
  - intros l Hup. rewrite Hup in Ho. apply Ho.
Qed.
(** A server that [Run] sets up has the services of the mode, and its endpoint leads to it. *)
Lemma Run_services d ep h h' srv : Run d ep h = (h', Ok srv) →
  srv_services _ srv = csi_services d ∧
  ∀ a, parseEndpoint ep = Ok ("unix", a) → on_disk a = true → leads h' a (srv_lis _ srv).
Proof.
  intros HR. split.
  - revert HR. unfold Run, mbind, M_bind, lift, mret, M_ret. destruct (parseEndpoint ep) as [na|e]; [|done].
    destruct (listen_on na.1 na.2 h) as [? []]; intros; by simplify_eq.
  - intros a Ha Hd. pose proof (thread_is_Run d ep h) as Ht. rewrite HR in Ht. cbv beta iota in Ht.
    assert (∀ n th, in_order th.1 a th.2 → in_order (setup_steps n th).1 a (setup_steps n th).2) as Hsteps.
    { induction n as [|n IH]; intros th Hth; [done|]. apply IH. by apply setup_step_order. }
    assert (in_order h a (thread ep)) as Hs by (unfold thread; by rewrite Ha).
    apply (Hsteps 3 (h, thread ep)) in Hs. rewrite Ht in Hs. apply Hs.
Qed.
End run.

(** ** A call, as the server runs it *)
Section unary.
  Context {T : Type}.

Definition code_name (c : codes.Code) : string :=
  match c with
  | codes.InvalidArgument => "InvalidArgument" | codes.NotFound => "NotFound" | codes.AlreadyExists => "AlreadyExists"
  | codes.Aborted => "Aborted" | codes.Unimplemented => "Unimplemented" | codes.Internal => "Internal"
  end.
Definition code_of {A} (r : res status A) : string := match r with Ok _ => "OK" | Err s => code_name (st_code s) end.
(** [logInterceptor] only logs. *)
Definition logInterceptor {A} (handler : Handler T A) : Handler T A := λ d, let '(d', r) := handler d in (d', r).
(** The two interceptors of a server around a handler that takes [dur]. *)
Definition unary {A} (method : string) (dur : Z) (handler : Handler T A) : Handler T A := λ d,
  let meter f d := set_world (mkWorld (f (w_metrics (d_world d))) (w_env (d_world d))) d in
  let '(d', r) := logInterceptor handler (meter (add_inFlight 1) d) in
  (meter (λ c, add_inFlight (-1) (observe method (code_of r) dur c)) d', r).

(** What a call records: with a handler that leaves the totals of the calls alone, the gauge is as it
    was and one call more with its code is counted. *)
Lemma unary_counts {A} method dur (handler : Handler T A) d :
  (∀ d1 d2 r, handler d1 = (d2, r) → inFlight (w_metrics (d_world d2)) = inFlight (w_metrics (d_world d1)) ∧
    byCode (w_metrics (d_world d2)) = byCode (w_metrics (d_world d1))) →
  let '(d', r) := unary method dur handler d in
  inFlight (w_metrics (d_world d')) = inFlight (w_metrics (d_world d)) ∧
  byCode (w_metrics (d_world d')) = incr (method, code_of r) (byCode (w_metrics (d_world d))).
Proof.
  intros Hh. unfold unary, logInterceptor. destruct (handler _) as [d' r] eqn:Hd. apply Hh in Hd as [Hi Hc]. simpl in *.
  rewrite Hi, Hc. split; [lia|done].
Qed.
End unary.

(** ** The metrics endpoint (internal/metrics) *)
Record page := mkPage { pg_status : Z; pg_type : string; pg_body : string }.
(** [handle]; the mux has one route, and the address is served over TCP. *)
Definition handle (sum_text : Z → string) (c : collector) : page :=
  mkPage 200 "text/plain; version=0.0.4; charset=utf-8" (exposition.WriteTo sum_text c).
Definition metrics_page (sum_text : Z → string) (path : string) (c : collector) : page :=
  if decide (path = "/metrics") then handle sum_text c
  else mkPage 404 "text/plain; charset=utf-8" ("404 page not found" +:+ String exposition.lf "").
Definition metrics_Serve {H} `{Sockets H} (addr : string) : M H error Z :=
  net_listen "tcp" (if decide (addr = "") then ":http" else addr).

(** ** The SDK's server (pkg/bardplugin/server.go) *)
Section serve.
  Context {H : Type} `{Files H} `{Sockets H}.

(** [Serve] up to the point where it serves: the listener. *)
Definition Serve (socketPath : string) : M H error Z :=
  catch (os_unit (Remove socketPath)) (λ r,
    match r with
    | Err e => if not_exist e then mret tt else fail (plain_error "bardplugin: remove stale socket: %w")
    | Ok _ => mret tt
    end);;
  lis ← run_err (λ _, plain_error "bardplugin: listen %s: %w") (Listen "unix" socketPath);
  run_err (λ _, plain_error "bardplugin: chmod socket %s: %w") (os_unit (Chmod socketPath 432));;
  mret lis.

Definition world_writable (m : Z) : bool := Z.testbit m 1.
Context `{!SocketFS H}.
(** A plugin serves on a socket of its own at the path it was given, which its group may use and nobody else. *)
Lemma Serve_private socketPath h h' lis : on_disk socketPath = true → Serve socketPath h = (h', Ok lis) →
  entry (where_ socketPath) h' = Some (mkInode 432 (Some lis)) ∧ (lis ∉ issued h) ∧ lis ∈ issued h' ∧
  (∀ k, k ≠ where_ socketPath → entry k h' = entry k h).
Proof.
  intros Hd. unfold Serve, catch, run_err, os_unit, mbind, M_bind, mret, M_ret, fail.
  pose proof (remove_keeps socketPath h) as [Hi1 Hk1]. destruct (Remove socketPath h) as [h1 e1]. simpl in Hi1, Hk1.
  intros Hrun. assert (∃ h2, Listen "unix" socketPath h1 = (h2, Ok lis) ∧ Chmod socketPath 432 h2 = (h', None)) as (h2 & Hl & Hc).
  { destruct e1 as [e1|]; [destruct (not_exist e1); [|done]|];
    destruct (Listen "unix" socketPath h1) as [h2 [l|e]]; try done; simpl in Hrun;
    destruct (Chmod socketPath 432 h2) as [h3 [e|]] eqn:Hc; simplify_eq/=; eauto. }
  clear Hrun. pose proof (listen_issues _ _ _ _ _ Hl) as [Hnew Hi2]. destruct (listen_binds _ _ _ _ Hd Hl) as (_ & m & Hbind).
  pose proof (chmod_keeps socketPath 432 h2) as [Hi3 Hk3]. rewrite Hc in Hi3, Hk3. simpl in Hi3, Hk3.
  rewrite (chmod_sets _ _ _ _ Hc), Hbind, Hi3, Hi2. rewrite Hi1 in *. split_and!; [done|done|set_solver|].
  intros k Hk. rewrite Hk3 by done. pose proof (listen_keeps socketPath h1 k Hk) as Hk2. rewrite Hl in Hk2. simpl in Hk2. by rewrite Hk2, Hk1.
Qed.
End serve.

(** ** On a machine *)
Definition ex_machine : machine := mkMachine {["/csi/csi.sock" := mkInode 493 None]} ∅ 0 ∅.
Definition ex_driver {T} (w : T) : Driver T :=
  mkDriver DriverName "v1" "" "" "" (mkMode true false) 0 (mkBackends backend.NewRegistry (mkDispatcher (mkDispatchConfig ∅ ∅) ∅)) newInflight (mkWorld newCollector w).
Definition ex_turns : list bool := [true; false; true; false; true; false].
Definition up_at (turns : list bool) (ep aep : string) : option (option inode * setup * option inode * option setup) :=
  let p := schedule turns (start_process (ex_driver ex_machine) ep aep ex_machine) in
  match parseEndpoint ep, parseEndpoint aep with
  | Ok (_, a), Ok (_, b) => Some (entry a (p_host p), p_main p, entry b (p_host p), p_addons p)
  | _, _ => None
  end.
Example both_up : up_at ex_turns "unix:///csi/csi.sock" "/csi/addons.sock" =
  Some (Some (mkInode 493 (Some 1%Z)), Up 1, Some (mkInode 493 (Some 0%Z)), Some (Up 0)).
Proof. vm_compute. reflexivity. Qed.
(** At one path, the thread that comes second removes the other's socket: the CSI server
    listens on a socket no path leads to. *)
Example one_path : up_at [true; true; true; false; false; false] "/csi/csi.sock" "unix:///csi/csi.sock" =
  Some (Some (mkInode 493 (Some 1%Z)), Up 0, Some (mkInode 493 (Some 1%Z)), Some (Up 1)).
Proof. vm_compute. reflexivity. Qed.
(** Endpoints that are not what they look like: a relative path is dropped, a path with two
    slashes loses its first segment. *)
Example relative_path : parseEndpoint "unix:csi.sock" = Ok ("unix", "") ∧ parseEndpoint "unix://csi/csi.sock" = Ok ("unix", "/csi.sock").
Proof. vm_compute. done. Qed.
Lemma sockets_apart_witness : leads (p_host (schedule ex_turns (start_process (ex_driver ex_machine) "unix:///csi/csi.sock" "/csi/addons.sock" ex_machine))) "/csi/csi.sock" 1.
Proof.
  refine (proj1 (proj1 (proj2 (proj2 (sockets_apart (ex_driver ex_machine) "unix:///csi/csi.sock" "/csi/addons.sock" ex_machine
    "/csi/csi.sock" "/csi/addons.sock" ex_turns _ _ _ _ _))) 1%Z _)); try (vm_compute; reflexivity).
  simpl. discriminate.
Defined.
End serving.
