(* ===== verification/Process.v ===== *)
(** * The driver's process, to its servers (cmd/bard-csi/main.go)

    [main] as a whole: what Main.v has, then the servers.  The configuration watch is
    [wiring.reload]; the goroutines that serve csi-addons and the metrics are given by the
    addresses they serve on. *)
From Stdlib Require Import Ascii.
From S2P Require Import Prelude GoStrings GoErrors VolumeID Dispatch Config Metrics Backend Json JsonText Protocol Server Client Inflight Driver Controller CSIAddons Wiring Host GoOs KMS InCluster Inspect InspectCollect InspectSafety Main GoUrl Sockets Serving.

Module process.
Import inspect serving.

(** The flags of the servers. *)
Record ServeFlags := mkServeFlags { sf_endpoint : string; sf_csiAddons : string; sf_metricsAddr : string }.
Definition default_serve_flags (env : strmap) : ServeFlags :=
  mkServeFlags "unix:///csi/csi.sock" (wiring.envOr env "CSI_ADDONS_ENDPOINT" "") (wiring.envOr env "METRICS_ADDR" "").

Inductive outcome (T : Type) :=
  | Exits (code : Z) (report : option Report)
  | Dies (e : error)
  | Serves (d : Driver T) (srv : server CSIService) (addons metrics : option string) (watching : bool).
Arguments Exits {T} _ _.
Arguments Dies {T} _.
Arguments Serves {T} _ _ _ _ _.

Section process.
  Context {T : Type} `{MapIter} `{Env T} `{url.Authority} `{Files T} `{Sockets T}.
  Context (connect : string → plugin.Transport T) (wait : nat → plugin.waited).
  Context (yaml : string → res error Config) (stdout_ok : bool) (version : string).

Definition with_env (h : T) (w : World T) : World T := mkWorld (w_metrics w) h.
Definition run (f : main.Flags) (sf : ServeFlags) (w : World T) : option (World T * outcome T) :=
  match main.main connect wait yaml stdout_ok version f w with
  | None => None
  | Some (w, main.Exited code report) => Some (w, Exits code report)
  | Some (w, main.Fatal e) => Some (w, Dies e)
  | Some (w, main.Serving d) =>
      match Run d (sf_endpoint sf) (w_env w) with
      | (h, Err e) => Some (with_env h w, Dies (mkError (err_chain e) "run driver: %v"))
      | (h, Ok srv) =>
          Some (with_env h w, Serves (set_world (with_env h w) d) srv (addons_served d (sf_csiAddons sf))
            (if decide (sf_metricsAddr sf = "") then None else Some (sf_metricsAddr sf))
            (bool_decide (main.fl_configSrc f = "crd")))
      end
  end.

Context `{!SocketFS T}.
End process.

(** ** A node in the example cluster *)
Abbreviation node := (inspectsafety.pod * machine)%type.
Definition on_pod {A} (f : inspectsafety.pod → inspectsafety.pod * A) (x : node) : node * A := let '(p, a) := f x.1 in ((p, x.2), a).
#[global] Instance node_env : Env node := {|
  readFile p := on_pod (readFile p); getenv k x := getenv k x.1; randRead n := on_pod (randRead n); now x := now x.1;
  httpDo rq := on_pod (httpDo rq); kmipExchange a rq := on_pod (kmipExchange a rq);
  pem_certs := pem_certs (S := inspectsafety.pod); key_pair a b := on_pod (key_pair a b);
  get_token i x := get_token i x.1; put_token i t x := (put_token i t x.1, x.2);
  get_creds i x := get_creds i x.1; put_creds i t x := (put_creds i t x.1, x.2) |}.
Definition node_transport (ep : string) : plugin.Transport node := λ path j, on_pod (inspectsafety.pod_transport path j).
Definition ex_node : World node :=
  let w := main.ex_cluster [inspectsafety.ex_entry] in mkWorld (w_metrics w) (w_env w, ex_machine).
Definition run_node (f : main.Flags) (sf : ServeFlags) (w : World node) :=
  run node_transport wiring.ex_wait (λ _, Err (plain_error "")) true "v1" f sf w.
Definition ex_serve : ServeFlags := default_serve_flags {["CSI_ADDONS_ENDPOINT" := "unix:///csi/addons.sock"]}.
Definition served (o : option (World node * outcome node)) : option (Z * list CSIService * option string * option inode) :=
  match o with
  | Some (w, Serves _ srv ao _ _) => Some (srv_lis _ srv, srv_services _ srv, ao, entry "/csi/csi.sock" (w_env w))
  | _ => None
  end.
Example node_process : served (run_node main.node_flags ex_serve ex_node) =
  Some (0%Z, [CSIIdentity; CSINode], Some "unix:///csi/addons.sock", Some (mkInode 493 (Some 0%Z))).
Proof. vm_compute. reflexivity. Qed.
Lemma node_clocks : wiring.sane_clocks node_transport wiring.ex_wait.
Proof. intros ep. split; [by intros path j env|]. by intros k d [= <-]. Qed.
End process.
