(* ===== verification/Accounting.v ===== *)
(** * Accounting of RPCs

    The metrics of the RPC server are written by its interceptor alone: no backend and no
    handler touches them.  [Unmetered] is what a backend promises for that, discharged for the
    plugin client; [Acct] follows a handler, carrying what it learns of the backends it
    gets.  With it every call of every service is counted once. *)
From S2P Require Import Prelude GoStrings GoErrors VolumeID Dispatch Metrics Backend Json Protocol Server Client Inflight Driver Controller Node CSIAddons Config Wiring GoUrl Sockets Serving.

Module accounting.
Create HintDb client_ops.

(** The metrics of the interceptor are the same. *)
Definition rpc_same (c c' : collector) : Prop := byMethod c' = byMethod c ∧ byCode c' = byCode c ∧ inFlight c' = inFlight c.
#[local] Instance rpc_same_preorder : PreOrder rpc_same.
Proof. split; [done|]. unfold rpc_same. intros c1 c2 c3 (-> & -> & ->) (-> & -> & ->). done. Qed.
Definition wsame {T} (w w' : World T) : Prop := rpc_same (w_metrics w) (w_metrics w').
#[local] Instance wsame_preorder T : PreOrder (@wsame T).
Proof. split; [intros w; unfold wsame; reflexivity|]. unfold wsame. intros w1 w2 w3. apply transitivity. Qed.

Section backends.
  Context {T : Type}.
  Abbreviation quiet m := (Pres (@wsame T) m).

Record fencer_quiet (f : backend.NetworkFencer T) : Prop := mkFencerQuiet {
  q_fence i c p s : quiet (backend.FenceClusterNetwork f i c p s);
  q_unfence i c p s : quiet (backend.UnfenceClusterNetwork f i c p s);
  q_list_fence i p s : quiet (backend.ListClusterFence f i p s);
  q_fence_clients i p s : quiet (backend.GetFenceClients f i p s);
}.
Record replicator_quiet (r : backend.VolumeReplicator T) : Prop := mkReplicatorQuiet {
  q_enable h p s : quiet (backend.EnableVolumeReplication r h p s);
  q_disable h p s : quiet (backend.DisableVolumeReplication r h p s);
  q_promote h b p s : quiet (backend.PromoteVolume r h b p s);
  q_demote h b p s : quiet (backend.DemoteVolume r h b p s);
  q_resync h b p s : quiet (backend.ResyncVolume r h b p s);
  q_info h s : quiet (backend.GetVolumeReplicationInfo r h s);
}.
Record rotator_quiet (r : backend.EncryptionKeyRotator T) : Prop := mkRotatorQuiet {
  q_rotate h v p s : quiet (backend.RotateEncryptionKey r h v p s);
}.
Record grouper_quiet (g : backend.VolumeGrouper T) : Prop := mkGrouperQuiet {
  q_group_create i p n m x s : quiet (backend.CreateVolumeGroup g i p n m x s);
  q_group_modify h m p s : quiet (backend.ModifyVolumeGroup g h m p s);
  q_group_delete h s : quiet (backend.DeleteVolumeGroup g h s);
  q_group_get h s : quiet (backend.GetVolumeGroup g h s);
  q_group_list s : quiet (backend.ListVolumeGroups g s);
}.
Class Unmetered (b : backend.Backend T) : Prop := mkUnmetered {
  q_create r : quiet (backend.CreateVolume b r);
  q_delete h s : quiet (backend.DeleteVolume b h s);
  q_expand h z s : quiet (backend.ExpandVolume b h z s);
  q_snapshot r : quiet (backend.CreateSnapshot b r);
  q_snapshot_delete h s : quiet (backend.DeleteSnapshot b h s);
  q_capacity i p : quiet (backend.GetCapacity b i p);
  q_health h s : quiet (backend.GetVolumeHealth b h s);
  q_modify h p s : quiet (backend.ModifyVolume b h p s);
  q_reclaim h s : quiet (backend.ReclaimSpace b h s);
  q_node_reclaim h v p k s : quiet (backend.NodeReclaimSpace b h v p k s);
  q_attach h n ro c s : quiet (backend.ControllerPublish b h n ro c s);
  q_detach h n s : quiet (backend.ControllerUnpublish b h n s);
  q_list : quiet (backend.ListVolumes b);
  q_list_snapshots : quiet (backend.ListSnapshots b);
  q_stage r : quiet (backend.NodeStage b r);
  q_unstage h p : quiet (backend.NodeUnstage b h p);
  q_publish r : quiet (backend.NodePublish b r);
  q_unpublish h p : quiet (backend.NodeUnpublish b h p);
  q_node_expand h p : quiet (backend.NodeExpand b h p);
  q_fencer f : backend.as_NetworkFencer b = Some f → fencer_quiet f;
  q_replicator r : backend.as_VolumeReplicator b = Some r → replicator_quiet r;
  q_rotator r : backend.as_EncryptionKeyRotator b = Some r → rotator_quiet r;
  q_grouper g : backend.as_VolumeGrouper b = Some g → grouper_quiet g;
}.
End backends.

(** ** The plugin client *)
Section client.
  Context {T : Type} `{plugin.Transport T}.

Lemma call_quiet {Req R} `{Wire Req, Wire R} bt path i (req : Req) (out : option R) w :
  wsame w (plugin.call bt path i req out w).1.
Proof.
  unfold plugin.call, plugin.w_update. cbn [w_env w_metrics]. destruct (plugin.transport _ _ _) as [env [d o]].
  by destruct (plugin.do_outcome o out) as [[? ?] ?].
Qed.
Lemma resp_quiet {Req R} `{Wire Req, Wire R} c path i (req : Req) : Pres wsame (plugin.call_resp (T := T) R c path i req).
Proof.
  intros w. unfold plugin.call_resp. pose proof (call_quiet (plugin.backendType c) path i req (Some (zero : R)) w) as Hc.
  by destruct (plugin.call _ _ _ _ _ w) as [w' [[? ?] ?]].
Qed.
Lemma none_quiet {Req} `{Wire Req} c path i (req : Req) : Pres wsame (plugin.call_none (T := T) c path i req).
Proof.
  intros w. unfold plugin.call_none. pose proof (call_quiet (plugin.backendType c) path i req (None : option unit) w) as Hc.
  by destruct (plugin.call _ _ _ _ _ w) as [w' [[? ?] ?]].
Qed.
#[local] Hint Unfold plugin.CreateVolume plugin.DeleteVolume plugin.ExpandVolume plugin.CreateSnapshot plugin.DeleteSnapshot
  plugin.GetCapacity plugin.GetVolumeHealth plugin.ModifyVolume plugin.ReclaimSpace plugin.NodeReclaimSpace plugin.ControllerPublish
  plugin.ControllerUnpublish plugin.ListVolumes plugin.ListSnapshots plugin.NodeStage plugin.NodeUnstage plugin.NodePublish
  plugin.NodeUnpublish plugin.NodeExpand plugin.FenceClusterNetwork plugin.UnfenceClusterNetwork plugin.ListClusterFence
  plugin.GetFenceClients plugin.EnableVolumeReplication plugin.DisableVolumeReplication plugin.PromoteVolume plugin.DemoteVolume
  plugin.ResyncVolume plugin.GetVolumeReplicationInfo plugin.RotateEncryptionKey plugin.CreateVolumeGroup plugin.ModifyVolumeGroup
  plugin.DeleteVolumeGroup plugin.GetVolumeGroup plugin.ListVolumeGroups plugin.gated : client_ops.
#[export] Instance client_unmetered c : Unmetered (plugin.client_backend c).
Proof.
  split; intros; simpl in *; simplify_eq; try (lazymatch goal with |- Pres _ _ => idtac | _ => split; intros end); simpl; autounfold with client_ops;
    repeat first [apply resp_quiet | apply none_quiet | pres_step].
Qed.
End client.

(** ** Handlers *)
Section handlers.
  Context {T : Type} `{MapIter} `{SortSlice}.
  Implicit Types d : Driver T.

Definition all_unmetered (bk : backends T) : Prop := ∀ t b, backend.backends (registry bk) !! t = Some b → Unmetered b.
Definition rpc_of d : collector := w_metrics (d_world d).
(** With backends that leave the metrics of RPCs alone, the handler does too, keeps the backends, and
    what it returns satisfies [Q]. *)
Definition Acct {A} (Q : A → Prop) (m : Handler T A) : Prop := ∀ d, all_unmetered (d_state d) →
  let '(d', r) := m d in d_state d' = d_state d ∧ rpc_same (rpc_of d) (rpc_of d') ∧ ∀ a, r = Ok a → Q a.
Abbreviation acct m := (Acct (λ _, True) m).

Lemma Acct_weaken {A} (Q : A → Prop) (m : Handler T A) : Acct Q m → acct m.
Proof. intros Hm d Hd. specialize (Hm d Hd). destruct (m d) as [d' r]. by destruct Hm as (? & ? & _). Qed.
Lemma Acct_lift {A} (Q : A → Prop) r : (∀ a, r = Ok a → Q a) → Acct Q (lift r : Handler T A).
Proof. intros Hr d Hd. split_and!; [done|unfold rpc_of; reflexivity|done]. Qed.
Lemma Acct_ret {A} (Q : A → Prop) a : Q a → Acct Q (mret a : Handler T A).
Proof. intros Ha. apply (Acct_lift Q (Ok a)). by intros ? [= <-]. Qed.
Lemma Acct_fail {A} (Q : A → Prop) e : Acct Q (fail e : Handler T A).
Proof. apply (Acct_lift Q (Err e)). done. Qed.
Lemma Acct_guard b e : acct (guard_ b e).
Proof. intros d Hd. split_and!; [done|unfold rpc_of; simpl; reflexivity|done]. Qed.
Lemma Acct_gets {A} (Q : A → Prop) (f : Driver T → A) : (∀ d, all_unmetered (d_state d) → Q (f d)) → Acct Q (gets f).
Proof. intros Hf d Hd. simpl. split_and!; [done|unfold rpc_of; reflexivity|]. intros a [= <-]. by apply Hf. Qed.
Lemma Acct_snapshot : Acct all_unmetered (gets snapshot).
Proof. by apply Acct_gets. Qed.
Lemma Acct_bind {A B} (P : A → Prop) (Q : B → Prop) (m : Handler T A) f : Acct P m → (∀ a, P a → Acct Q (f a)) → Acct Q (m ≫= f).
Proof.
  intros Hm Hf d Hd. specialize (Hm d Hd). unfold mbind, M_bind. destruct (m d) as [d' [a|e]].
  - destruct Hm as (Hs & Hr & Ha). specialize (Hf a (Ha a eq_refl) d'). rewrite Hs in Hf. specialize (Hf Hd).
    destruct (f a d') as [d'' r]. destruct Hf as (Hs' & Hr' & Ha'). split_and!; [congruence|by etrans|done].
  - destruct Hm as (? & ? & _). done.
Qed.
Lemma Get_unmetered bk t b : all_unmetered bk → backend.Get (registry bk) t = Ok b → Unmetered b.
Proof. intros Hbk. unfold backend.Get. destruct (_ !! t) eqn:Ht; [|done]. intros [= <-]. by eapply Hbk. Qed.
Lemma Acct_get_from bk e t : all_unmetered bk → Acct Unmetered (get_from bk e t).
Proof.
  intros Hbk. apply Acct_lift. intros b. destruct (backend.Get (registry bk) t) eqn:Hg; [|done]. intros [= <-]. by eapply Get_unmetered.
Qed.
Lemma Acct_get e t : Acct Unmetered (get_backend e t).
Proof. eapply Acct_bind; [apply Acct_snapshot|]. intros bk. apply Acct_get_from. Qed.
Lemma Acct_resolve id : Acct (λ hb, Unmetered hb.2) (node.resolve id).
Proof.
  unfold node.resolve. eapply Acct_bind; [apply Acct_guard|intros _ _]. eapply (Acct_bind (λ _, True)); [by apply Acct_lift|intros h _].
  eapply Acct_bind; [apply Acct_get|]. intros b Hb. by apply Acct_ret.
Qed.
Lemma Acct_volume_backend id : Acct (λ hb, Unmetered hb.2) (addons.volume_backend id).
Proof.
  unfold addons.volume_backend. eapply Acct_bind; [apply Acct_guard|intros _ _]. eapply (Acct_bind (λ _, True)); [by apply Acct_lift|intros h _].
  eapply Acct_bind; [apply Acct_get|]. intros b Hb. by apply Acct_ret.
Qed.
Lemma Acct_catch {A B} (Q : B → Prop) (m : M (World T) error A) (h : res error A → Handler T B) :
  Pres wsame m → (∀ r, Acct Q (h r)) → Acct Q (catch (on_world m) h).
Proof.
  intros Hm Hh d Hd. unfold catch, on_world. specialize (Hm (d_world d)). destruct (m (d_world d)) as [w r].
  specialize (Hh r (set_world w d) Hd). destruct (h r (set_world w d)) as [d' r']. destruct Hh as (Hs & Hr & Ha).
  split_and!; [done| |done]. by etrans.
Qed.
Lemma Acct_call {A} op (m : M (World T) error A) : Pres wsame m → acct (call_backend op m).
Proof.
  intros Hm d Hd. unfold call_backend, run_err, on_world. specialize (Hm (d_world d)). by destruct (m (d_world d)) as [w r].
Qed.
Lemma Acct_finally {A B} (Q : B → Prop) (m : Handler T A) h : acct m → (∀ r, Acct Q (h r)) → Acct Q (catch m h).
Proof.
  intros Hm Hh d Hd. unfold catch. specialize (Hm d Hd). destruct (m d) as [d' r]. destruct Hm as (Hs & Hr & _).
  specialize (Hh r d'). rewrite Hs in Hh. specialize (Hh Hd). destruct (h r d') as [d'' r']. destruct Hh as (? & ? & ?).
  split_and!; [congruence|by etrans|done].
Qed.
Lemma Acct_placement bt i z dc r : acct (update_metrics (ObservePlacement bt i z dc r)).
Proof. intros d Hd. by split_and!. Qed.
Lemma Acct_claim {A} (Q : A → Prop) kind key (body : Handler T A) : Acct Q body → Acct Q (with_claim kind key body).
Proof.
  intros Hb d Hd. unfold with_claim. destruct (tryLock (d_ops d) _) as [[] ops]; [|split_and!; [done|unfold rpc_of; reflexivity|done]].
  specialize (Hb (set_ops ops d) Hd). by destruct (body (set_ops ops d)) as [d' r].
Qed.
Lemma Acct_list_backends {E A} bk op (ls : backend.Backend T → M (World T) error (list E)) (entry : E → option A) types acc :
  all_unmetered bk → (∀ b, Unmetered b → Pres wsame (ls b)) → acct (controller.list_backends bk op ls entry types acc).
Proof.
  intros Hbk Hls. revert acc. induction types as [|t types IH]; intros acc; simpl; [by apply Acct_ret|].
  destruct (backend.Get _ _) as [b|] eqn:Hg; [|apply IH]. apply Acct_catch; [by eapply Hls, Get_unmetered|]. intros [vs|e]; [apply IH|].
  destruct (errors_Is _ _); [apply IH|apply Acct_fail].
Qed.
End handlers.

(** [accts] follows a handler to its leaves. *)
Ltac accts_leaf :=
  try match goal with Hg : backend.Get _ _ = Ok ?b |- _ => assert (Unmetered b) by (eapply Get_unmetered; eassumption) end;
  first [ apply q_create | apply q_delete | apply q_expand | apply q_snapshot | apply q_snapshot_delete | apply q_capacity | apply q_health
        | apply q_modify | apply q_reclaim | apply q_node_reclaim | apply q_attach | apply q_detach | apply q_list | apply q_list_snapshots
        | apply q_stage | apply q_unstage | apply q_publish | apply q_unpublish | apply q_node_expand ].
Ltac accts :=
  repeat first
    [ apply Acct_claim
    | eapply Acct_bind;
        [ first [apply Acct_get | apply Acct_get_from; assumption | apply Acct_resolve | apply Acct_volume_backend | apply Acct_snapshot | apply Acct_guard
                | eapply Acct_call; accts_leaf | apply Acct_placement | apply (Acct_gets (λ _, True)); done | apply (Acct_lift (λ _, True)); done
                | apply Acct_list_backends; [assumption|intros; accts_leaf] ]
        | intros; cbv beta in * ]
    | apply Acct_ret; done | apply Acct_fail | apply Acct_lift; done | apply Acct_gets; done | apply Acct_guard | apply Acct_placement
    | apply Acct_call; accts_leaf | apply Acct_catch; [accts_leaf|intros]
    | lazymatch goal with |- Acct _ (catch _ _) => apply Acct_finally; intros end
    | progress cbv zeta
    | match goal with |- Acct _ (match ?x with _ => _ end) => destruct x eqn:? end
    | match goal with |- Acct _ (let '(_, _) := ?x in _) => destruct x end ].

Section services.
  Context {T : Type} `{MapIter} `{SortSlice}.
  Abbreviation acct m := (Acct (T := T) (λ _, True) m).
Lemma csi_handlers_acct :
  (∀ r, acct (controller.CreateVolume r)) ∧
  (∀ v s, acct (controller.DeleteVolume v s)) ∧
  (∀ v r c s, acct (controller.ControllerExpandVolume v r c s)) ∧
  (∀ n v p s, acct (controller.CreateSnapshot n v p s)) ∧
  (∀ v s, acct (controller.DeleteSnapshot v s)) ∧
  (∀ v cs, acct (controller.ValidateVolumeCapabilities v cs)) ∧
  acct controller.ControllerGetCapabilities ∧
  (∀ t p, acct (controller.GetCapacity t p)) ∧
  (∀ v, acct (controller.ControllerGetVolume v)) ∧
  (∀ v m s, acct (controller.ControllerModifyVolume v m s)) ∧
  (∀ v n c ro x s, acct (controller.ControllerPublishVolume v n c ro x s)) ∧
  (∀ v n s, acct (controller.ControllerUnpublishVolume v n s)) ∧
  (∀ t n, acct (controller.ListVolumes t n)) ∧
  (∀ f v t n, acct (controller.ListSnapshots f v t n)) ∧
  (∀ v p c x y s, acct (node.NodeStageVolume v p c x y s)) ∧
  (∀ v p, acct (node.NodeUnstageVolume v p)) ∧
  (∀ v p t c ro x, acct (node.NodePublishVolume v p t c ro x)) ∧
  (∀ v p, acct (node.NodeUnpublishVolume v p)) ∧
  (∀ v p c, acct (node.NodeExpandVolume v p c)) ∧
  (∀ probe v p, acct (node.NodeGetVolumeStats probe v p)).
Proof.
  split_and!; intros.
  all: unfold controller.CreateVolume, controller.create_claimed, controller.create_on, controller.record_placement,
    controller.record_unresolved, controller.DeleteVolume, controller.ControllerExpandVolume, controller.CreateSnapshot,
    controller.DeleteSnapshot, controller.ValidateVolumeCapabilities, controller.ControllerGetCapabilities, controller.GetCapacity,
    controller.ControllerGetVolume, controller.ControllerModifyVolume, controller.ControllerPublishVolume,
    controller.ControllerUnpublishVolume, controller.ListVolumes, controller.ListSnapshots, node.NodeStageVolume,
    node.NodeUnstageVolume, node.NodePublishVolume, node.NodeUnpublishVolume, node.NodeExpandVolume, node.NodeGetVolumeStats,
    required, parse_id.
  all: accts.
Qed.

(** *** csi-addons *)
Lemma find_fencer_unmetered bk want types found be : all_unmetered bk → (∀ b, found = Some b → Unmetered b) →
  addons.find_fencer (T := T) (registry bk) want types found = Ok (Some be) → Unmetered be.
Proof.
  intros Hbk. revert found. induction types as [|t types IH]; intros found Hf; simpl; [intros [= ->]; by apply Hf|].
  destruct (backend.Get _ t) as [b|] eqn:Hg; [|by apply IH]. destruct (negb _); [by apply IH|]. destruct (_ && _); [by apply IH|].
  destruct found; [done|]. apply IH. intros ? [= <-]. by eapply Get_unmetered.
Qed.
Lemma Acct_fencer {A} params (f : backend.NetworkFencer T → string → Handler T A) :
  (∀ fz i, fencer_quiet fz → acct (f fz i)) → acct (addons.with_fencer params f).
Proof.
  intros Hf d Hd. unfold addons.with_fencer. destruct (addons.resolveFencer d params) as [[fz i]|e] eqn:Hr;
    [|split_and!; [done|unfold rpc_of; reflexivity|done]].
  apply (Hf fz i); [|done]. revert Hr. unfold addons.resolveFencer. simpl. destruct (addons.find_fencer _ _ _ _) as [[be|]|] eqn:Hfind; [|done..].
  simpl. destruct (backend.as_NetworkFencer be) eqn:Ha; [|done]. intros [= <- _].
  assert (Unmetered be) by (eapply (find_fencer_unmetered _ _ _ None); [exact Hd|done|exact Hfind]). by eapply q_fencer.
Qed.
Lemma find_grouper_quiet bk types found g : all_unmetered bk → (∀ b, found = Some b → grouper_quiet b) →
  addons.find_grouper (T := T) (registry bk) types found = Ok (Some g) → grouper_quiet g.
Proof.
  intros Hbk. revert found. induction types as [|t types IH]; intros found Hf; simpl; [intros [= ->]; by apply Hf|].
  destruct (backend.Get _ t) as [b|] eqn:Hg; [|by apply IH]. destruct (negb _); [by apply IH|].
  destruct (backend.as_VolumeGrouper b) eqn:Hv; [|by apply IH]. destruct found; [done|]. apply IH. intros ? [= <-].
  assert (Unmetered b) by (by eapply Get_unmetered). by eapply q_grouper.
Qed.
Lemma Acct_grouper {A} bt (f : backend.VolumeGrouper T → Handler T A) :
  (∀ g, grouper_quiet g → acct (f g)) → acct (addons.with_grouper bt f).
Proof.
  intros Hf d Hd. unfold addons.with_grouper. destruct (addons.groupBackend d bt) as [g|e] eqn:Hr;
    [|split_and!; [done|unfold rpc_of; reflexivity|done]].
  apply (Hf g); [|done]. revert Hr. unfold addons.groupBackend. cbv zeta. destruct (negb _).
  - destruct (backend.Get _ bt) as [be|] eqn:Hg; [|done]. destruct (backend.as_VolumeGrouper be) eqn:Hv; [|done].
    destruct (backend.CapVolumeGroup _); [|done]. intros [= <-].
    assert (Unmetered be) by (by eapply Get_unmetered). by eapply q_grouper.
  - simpl. destruct (addons.find_grouper _ _ _) as [[g'|]|] eqn:Hfind; simpl; [|done..]. intros [= <-].
    eapply (find_grouper_quiet _ _ None); [exact Hd|done|exact Hfind].
Qed.
Lemma Acct_replicator id : Acct (T := T) (λ vh, replicator_quiet vh.1) (addons.replicator id).
Proof.
  unfold addons.replicator. eapply Acct_bind; [apply Acct_volume_backend|]. intros hb Hhb. cbv beta in Hhb. destruct (backend.as_VolumeReplicator hb.2) eqn:Hv; [|apply Acct_fail].
  eapply Acct_bind; [apply Acct_guard|]. intros _ _. apply Acct_ret. exact (q_replicator _ Hv).
Qed.

Ltac addons_leaf :=
  match goal with
  | Hq : fencer_quiet _ |- _ => apply Hq | Hq : replicator_quiet _ |- _ => apply Hq
  | Hq : grouper_quiet _ |- _ => apply Hq
  | Ho : backend.as_EncryptionKeyRotator _ = Some _ |- _ => apply (q_rotate _ (q_rotator _ Ho))
  end.
Lemma addons_handlers_acct :
  (∀ v s, acct (addons.ControllerReclaimSpace v s)) ∧
  (∀ v p st c s, acct (addons.NodeReclaimSpace v p st c s)) ∧
  (∀ p s c, acct (addons.FenceClusterNetwork p s c)) ∧
  (∀ p s c, acct (addons.UnfenceClusterNetwork p s c)) ∧
  (∀ p s, acct (addons.ListClusterFence p s)) ∧
  (∀ p s, acct (addons.GetFenceClients p s)) ∧
  (∀ v src p s, acct (addons.EnableVolumeReplication v src p s)) ∧
  (∀ v src p s, acct (addons.DisableVolumeReplication v src p s)) ∧
  (∀ v src f p s, acct (addons.PromoteVolume v src f p s)) ∧
  (∀ v src f p s, acct (addons.DemoteVolume v src f p s)) ∧
  (∀ v src f p s, acct (addons.ResyncVolume v src f p s)) ∧
  (∀ v src s, acct (addons.GetVolumeReplicationInfo v src s)) ∧
  (∀ v pa p s, acct (addons.EncryptionKeyRotate v pa p s)) ∧
  (∀ n vs p s, acct (addons.CreateVolumeGroup n vs p s)) ∧
  (∀ g vs p s, acct (addons.ModifyVolumeGroupMembership g vs p s)) ∧
  (∀ g s, acct (addons.DeleteVolumeGroup g s)) ∧
  (∀ g s, acct (addons.ControllerGetVolumeGroup g s)) ∧
  (∀ s t n, acct (addons.ListVolumeGroups s t n)).
Proof.
  split_and!; intros.
  all: unfold addons.ControllerReclaimSpace, addons.NodeReclaimSpace, addons.FenceClusterNetwork, addons.UnfenceClusterNetwork,
    addons.ListClusterFence, addons.GetFenceClients, addons.EnableVolumeReplication, addons.DisableVolumeReplication, addons.PromoteVolume,
    addons.DemoteVolume, addons.ResyncVolume, addons.GetVolumeReplicationInfo, addons.EncryptionKeyRotate, addons.CreateVolumeGroup,
    addons.ModifyVolumeGroupMembership, addons.DeleteVolumeGroup, addons.ControllerGetVolumeGroup, addons.ListVolumeGroups, required, parse_id.
  all: repeat first
    [ apply Acct_fencer; intros | apply Acct_grouper; intros
    | apply Acct_call; addons_leaf
    | eapply Acct_bind; [first [apply Acct_replicator | apply Acct_call; addons_leaf]|intros; cbv beta in *]
    | progress accts ].
Qed.

(** A call of [method] that takes [dur], as the server runs it, is counted once under its code, its
    duration is observed once, and it is no longer in flight when it has ended. *)
Definition counted {A} (m : Handler T A) : Prop := ∀ method dur d, all_unmetered (d_state d) →
  let '(d', r) := serving.unary method dur m d in
  d_state d' = d_state d ∧
  inFlight (rpc_of d') = inFlight (rpc_of d) ∧
  byCode (rpc_of d') = incr (method, serving.code_of r) (byCode (rpc_of d)) ∧
  byMethod (rpc_of d') = observe_in bucketLe method dur (byMethod (rpc_of d)) ∧
  r = (m (set_world (mkWorld (add_inFlight 1 (rpc_of d)) (w_env (d_world d))) d)).2.
Lemma acct_counted {A} (m : Handler T A) : acct m → counted m.
Proof.
  intros Hm method dur d Hd. unfold serving.unary, serving.logInterceptor. set (d1 := set_world _ d).
  specialize (Hm d1 Hd). change (set_world {| w_metrics := add_inFlight 1 (rpc_of d); w_env := w_env (d_world d) |} d) with d1.
  destruct (m d1) as [d' r]. destruct Hm as (Hs & (Hbm & Hbc & Hif) & _). unfold rpc_of in *. simpl in *. rewrite Hbm, Hbc, Hif.
  split_and!; try done. lia.
Qed.

(** C24: every RPC is counted once: through the interceptors of the server, whatever a call of any of the
    handlers does and however it ends, it is counted exactly once under its method and the code it
    ends with, its duration is observed once, the gauge of calls in flight is back where it was, and
    the answer is the handler's.  It holds with the plugin client as the backend of every type. *)
Theorem rpcs_counted_once :
  ((∀ r, counted (controller.CreateVolume r)) ∧ (∀ v s, counted (controller.DeleteVolume v s)) ∧
   (∀ v r c s, counted (controller.ControllerExpandVolume v r c s)) ∧ (∀ n v p s, counted (controller.CreateSnapshot n v p s)) ∧
   (∀ v s, counted (controller.DeleteSnapshot v s)) ∧ (∀ v cs, counted (controller.ValidateVolumeCapabilities v cs)) ∧
   counted controller.ControllerGetCapabilities ∧ (∀ t p, counted (controller.GetCapacity t p)) ∧
   (∀ v, counted (controller.ControllerGetVolume v)) ∧ (∀ v m s, counted (controller.ControllerModifyVolume v m s)) ∧
   (∀ v n c ro x s, counted (controller.ControllerPublishVolume v n c ro x s)) ∧
   (∀ v n s, counted (controller.ControllerUnpublishVolume v n s)) ∧ (∀ t n, counted (controller.ListVolumes t n)) ∧
   (∀ f v t n, counted (controller.ListSnapshots f v t n)) ∧ (∀ v p c x y s, counted (node.NodeStageVolume v p c x y s)) ∧
   (∀ v p, counted (node.NodeUnstageVolume v p)) ∧ (∀ v p t c ro x, counted (node.NodePublishVolume v p t c ro x)) ∧
   (∀ v p, counted (node.NodeUnpublishVolume v p)) ∧ (∀ v p c, counted (node.NodeExpandVolume v p c)) ∧
   (∀ probe v p, counted (node.NodeGetVolumeStats probe v p))) ∧
  ((∀ v s, counted (addons.ControllerReclaimSpace v s)) ∧ (∀ v p st c s, counted (addons.NodeReclaimSpace v p st c s)) ∧
   (∀ p s c, counted (addons.FenceClusterNetwork p s c)) ∧ (∀ p s c, counted (addons.UnfenceClusterNetwork p s c)) ∧
   (∀ p s, counted (addons.ListClusterFence p s)) ∧ (∀ p s, counted (addons.GetFenceClients p s)) ∧
   (∀ v src p s, counted (addons.EnableVolumeReplication v src p s)) ∧ (∀ v src p s, counted (addons.DisableVolumeReplication v src p s)) ∧
   (∀ v src f p s, counted (addons.PromoteVolume v src f p s)) ∧ (∀ v src f p s, counted (addons.DemoteVolume v src f p s)) ∧
   (∀ v src f p s, counted (addons.ResyncVolume v src f p s)) ∧ (∀ v src s, counted (addons.GetVolumeReplicationInfo v src s)) ∧
   (∀ v pa p s, counted (addons.EncryptionKeyRotate v pa p s)) ∧ (∀ n vs p s, counted (addons.CreateVolumeGroup n vs p s)) ∧
   (∀ g vs p s, counted (addons.ModifyVolumeGroupMembership g vs p s)) ∧ (∀ g s, counted (addons.DeleteVolumeGroup g s)) ∧
   (∀ g s, counted (addons.ControllerGetVolumeGroup g s)) ∧ (∀ s t n, counted (addons.ListVolumeGroups s t n))).
Proof. split; split_and!; intros; apply acct_counted; first [apply csi_handlers_acct | apply addons_handlers_acct]. Qed.
End services.

(** A deletion through the server, on the example driver of the controller. *)
Lemma ex_unmetered : all_unmetered (d_state controller.ex_driver).
Proof.
  intros t b. change (backend.backends _) with ({["nfs" := controller.ex_backend]} : gmap string (backend.Backend (list string))).
  rewrite lookup_singleton_Some. intros [_ <-]. apply client_unmetered.
Qed.
Lemma rpcs_counted_once_witness :
  let '(d', r) := serving.unary "/csi.v1.Controller/DeleteVolume" 7 (controller.DeleteVolume "swsk|1|nfs|main||vol-1" ∅) controller.ex_driver in
  inFlight (rpc_of d') = 0%Z ∧ byCode (rpc_of d') !! ("/csi.v1.Controller/DeleteVolume", "OK") = Some 1%Z.
Proof.
  pose proof (proj1 (proj2 (proj1 rpcs_counted_once)) "swsk|1|nfs|main||vol-1" ∅ "/csi.v1.Controller/DeleteVolume" 7%Z _ ex_unmetered) as H.
  assert (serving.code_of (serving.unary "/csi.v1.Controller/DeleteVolume" 7 (controller.DeleteVolume "swsk|1|nfs|main||vol-1" ∅) controller.ex_driver).2 = "OK")
    as Hok by (vm_compute; reflexivity).
  destruct (serving.unary _ _ _ _) as [d' r]. destruct H as (_ & -> & -> & _). cbn [snd] in Hok. rewrite Hok. split; vm_compute; reflexivity.
Defined.

(** ** The backends of a configuration *)
Section built.
  Context {T : Type} `{MapIter} (connect : string → plugin.Transport T) (wait : nat → plugin.waited).

Lemma dial_unmetered bt bc w w' be : wiring.dial_backend connect wait bt bc w = Some (w', Ok be) → Unmetered be.
Proof.
  unfold wiring.dial_backend. destruct (Plugin bc) as [p|]; [|done].
  destruct (@plugin.Dial _ (connect (Endpoint p)) wait bt w) as [[w1 [c|e]]|]; try done. intros [= _ <-]. apply client_unmetered.
Qed.
Lemma build_loop_unmetered entries reg instances w w' reg' instances' :
  (∀ t b, backend.backends reg !! t = Some b → Unmetered b) →
  wiring.build_loop connect wait entries reg instances w = Some (w', Ok (reg', instances')) →
  ∀ t b, backend.backends reg' !! t = Some b → Unmetered b.
Proof.
  revert reg instances w. induction entries as [|[bt bc] entries IH]; intros reg instances w Hreg; simpl; [by intros [= _ <- _]|].
  destruct (wiring.dial_backend connect wait bt bc w) as [[w1 [be|e]]|] eqn:Hd; [|done..]. apply dial_unmetered in Hd.
  unfold backend.Register. destruct (backend.backends reg !! _); [done|]. apply IH. intros t b. simpl.
  rewrite lookup_insert_Some. intros [[_ <-]|[_ Hl]]; [done|by eapply Hreg].
Qed.
(** What [build] makes of a configuration leaves the metrics of RPCs alone. *)
Lemma build_unmetered cfg w w' bk : wiring.build connect wait cfg w = Some (w', Ok bk) → all_unmetered bk.
Proof.
  unfold wiring.build. destruct (wiring.build_loop _ _ _ _ _ w) as [[w1 [[reg i]|e]]|] eqn:Hb; [|done..].
  destruct (Dispatch.New _) as [dp|]; simpl; [|done]. intros [= _ <-]. intros t b. eapply build_loop_unmetered; [|exact Hb]. done.
Qed.
End built.
End accounting.
