(* ===== verification/Runner.v ===== *)
(** * Running commands (the runner.go files of the plugins)

    [ExecRunner.Run] of each plugin, on processes as the operating system runs them, and the
    [Host] the plugins get from it in production.  Four of the five runners are the same
    text; that of the NFS plugin takes both streams together. *)
From Stdlib Require Import Ascii.
From S2P Require Import Prelude GoStrings GoPath Json JsonText Protocol Host GoOs KMS RBD.

Module runner.

(** A process that has ended, or did not start: its two streams, what [CombinedOutput] has of
    them, and the text of the error, if any. *)
Record finished := mkFinished { p_stdout : string; p_stderr : string; p_both : string; p_err : option string }.
(** The calls of the operating system behind a [Host]. *)
Class Processes (H : Type) := {
  start_wait : string → list string → H → H * finished;
  os_MkdirAll : string → Z → H → H * option string;
  os_UnixNow : H → Z;
}.

Section runner.
  Context {H : Type} `{Processes H}.

Definition finish (name : string) (args : list string) (out stderr : string) (err : option string) : output :=
  mkOutput out (option_map (λ e, cephrbd.exec_error name args e stderr) err).
Definition ExecRunner_Run (name : string) (args : list string) (h : H) : H * output :=
  let '(h', p) := start_wait name args h in (h', finish name args (p_stdout p) (p_stderr p) (p_err p)).
Definition nfs_ExecRunner_Run (name : string) (args : list string) (h : H) : H * output :=
  let '(h', p) := start_wait name args h in (h', finish name args (p_both p) (p_both p) (p_err p)).

Definition exec_host : Host H := {| Host.Run := ExecRunner_Run; MkdirAll := os_MkdirAll; UnixNow := os_UnixNow |}.
Definition combined_host : Host H := {| Host.Run := nfs_ExecRunner_Run; MkdirAll := os_MkdirAll; UnixNow := os_UnixNow |}.

(** An error's text starts with the command line and ends with what the command wrote to
    stderr, without the space around it; a command that succeeds gives its output as it is. *)
Lemma run_text name args h : let '(h', o) := ExecRunner_Run name args h in
  match o_err o with
  | None => (start_wait name args h).2 = mkFinished (o_out o) (p_stderr (start_wait name args h).2) (p_both (start_wait name args h).2) None
  | Some e => has_prefix (name +:+ " " +:+ join " " args) e = true ∧
      has_suffix (trim_space (p_stderr (start_wait name args h).2)) e = true
  end.
Proof.
  unfold ExecRunner_Run. destruct (start_wait name args h) as [h' [out stderr both [e|]]]; [|done].
  cbn [finish o_err option_map p_stderr p_err p_stdout snd]. unfold cephrbd.exec_error. split.
  - apply has_prefix_spec. eexists. by rewrite !string_app_assoc.
  - rewrite <- !string_app_assoc. apply has_suffix_app.
Qed.
End runner.
End runner.
