(* ===== verification/Entry.v ===== *)
(** * The plugins' entry points (cmd/bard-plugin-*/main.go)

    Each plugin's [main]: its flags, the YAML file of its instances, for the Ceph plugins
    the optional file of KMS providers, and the SDK's [Serve].  A failure is the format of the
    message before [os.Exit(1)].  YAML decoding is a parameter, as is everything the plugins
    themselves take of their host; commands are run by the production runners. *)
From Stdlib Require Import Ascii.
From S2P Require Import Prelude GoStrings GoErrors GoPath Metrics Backend Json JsonText Protocol Server Client Host GoOs KMS KMSRegistry RBD RBDControl RBDNode RBDAddons CephFS NFS LVM ISCSI ISCSINode Sockets Serving Runner.

Module entry.
Import bardplugin.

Record rbd_flags := mkRbdFlags {
  rf_socket : string; rf_config : string; rf_keyDir : string; rf_encKeyDir : string; rf_kmsConfig : string;
  rf_stateDir : string; rf_maxCloneDepth : Z }.
Definition rbd_defaults : rbd_flags :=
  mkRbdFlags "/var/lib/bard/plugins/ceph-rbd.sock" "/etc/bard-ceph/config.yaml" "/etc/bard-ceph-keys" "" ""
    "/var/lib/kubelet/plugins/csi.bard.io/ceph-rbd" 4.
Record cephfs_flags := mkCephfsFlags {
  cf_socket : string; cf_config : string; cf_keyDir : string; cf_encKeyDir : string; cf_kmsConfig : string }.
Definition cephfs_defaults : cephfs_flags :=
  mkCephfsFlags "/var/lib/bard/plugins/cephfs.sock" "/etc/bard-cephfs/config.yaml" "/etc/bard-cephfs-keys" "" "".
Record iscsi_flags := mkIscsiFlags {
  if_socket : string; if_config : string; if_nodeID : string; if_stateDir : string; if_chapDir : string;
  if_targetdDir : string; if_iscsiadmChroot : string }.
Definition iscsi_defaults : iscsi_flags :=
  mkIscsiFlags "/var/lib/bard/plugins/iscsi.sock" "/etc/bard-iscsi/config.yaml" "" "/var/lib/bard/iscsi"
    "/etc/bard-iscsi-chap" "/etc/bard-iscsi-targetd" "".
Record plain_flags := mkPlainFlags { pf_socket : string; pf_config : string }.
Definition lvm_defaults : plain_flags := mkPlainFlags "/var/lib/bard/plugins/lvm.sock" "/etc/bard-lvm/config.yaml".
Definition nfs_defaults : plain_flags := mkPlainFlags "/var/lib/bard/plugins/nfs.sock" "/etc/bard-nfs/config.yaml".

(** What a process serves once it is started: the plugin's configuration, on a listener. *)
Record started (C : Type) := mkStarted { st_config : C; st_lis : Z }.

Section files.
  Context {H : Type} `{Files H} `{Sockets H}.
  Abbreviation op A := (M H string A).

(** [os.ReadFile] of the configuration, then [yaml.Unmarshal]. *)
Definition read_config {C} (yaml : string → option C) (path : string) : op C :=
  raw ← run_err (λ _, "read config: %v") (os_get (ReadFile path));
  match yaml raw with Some c => mret c | None => fail "parse config: %v" end.
(** The optional file of KMS providers: one that is missing has none. *)
Definition read_kms {C} (yaml : string → option (gmap string C)) (path : string) : op (gmap string C) :=
  if decide (path = "") then mret ∅
  else catch (os_get (ReadFile path)) (λ r,
    match r with
    | Err e => if not_exist e then mret ∅ else fail "read kms config: %v"
    | Ok raw => match yaml raw with Some k => mret k | None => fail "parse kms config: %v" end
    end).
Definition serve_failed : string := "serve: %v".
Definition serve_or_exit (socket : string) : op Z := run_err (λ _, serve_failed) (serving.Serve socket).
End files.

Section mains.
  Context {H : Type} `{runner.Processes H} `{Files H} `{TempFiles H} `{Env H} `{Clock H} `{cephenc.FsCrypt H} `{Network H} `{NodeFiles H}.
  Context `{Sockets H} `{MapIter}.
  #[local] Existing Instance runner.exec_host.
  Abbreviation op A := (M H string A).

Context (rbd_yaml : string → option (gmap string cephrbd.ClusterConfig)).
Context (cephfs_yaml : string → option (gmap string cephfs.ClusterConfig)).
Context (iscsi_yaml : string → option (gmap string iscsi.InstanceConfig)).
Context (lvm_yaml : string → option (gmap string lvmplugin.InstanceConfig)).
Context (nfs_yaml : string → option (gmap string nfsplugin.InstanceConfig)).
Context (kms_yaml : string → option (gmap string cephenc.KMSConfig)).

(** [WithKMS] reports no error: a provider that cannot be made is one that refuses. *)
Definition rbd_main (f : rbd_flags) : op (started cephrbd.Config) :=
  instances ← read_config rbd_yaml (rf_config f);
  providers ← read_kms kms_yaml (rf_kmsConfig f);
  let be := cephrbd.WithEncryption (rf_encKeyDir f) (cephrbd.New instances (rf_keyDir f) (rf_stateDir f)) in
  be ← run_err (λ _, "") (cephrbd.WithKMS be providers);
  let be := cephrbd.WithCloneDepthLimit (rf_maxCloneDepth f) be in
  lis ← serve_or_exit (rf_socket f);
  mret (mkStarted _ be lis).
(** The goroutine that runs next to it. *)
Definition rbd_heal (be : cephrbd.Config) : M H perror unit := rbdnode.Heal be.
Definition cephfs_main (f : cephfs_flags) : op (started cephfs.Config) :=
  instances ← read_config cephfs_yaml (cf_config f);
  providers ← read_kms kms_yaml (cf_kmsConfig f);
  be ← run_err (λ _, "") (cephfs.WithKMS (cephfs.WithEncryption (cf_encKeyDir f) (cephfs.New instances (cf_keyDir f))) providers);
  lis ← serve_or_exit (cf_socket f);
  mret (mkStarted _ be lis).
Definition iscsi_main (f : iscsi_flags) : op (started iscsi.Config) :=
  instances ← read_config iscsi_yaml (if_config f);
  let be := iscsi.New instances (if_nodeID f) (if_stateDir f) (if_chapDir f) (if_targetdDir f) (if_iscsiadmChroot f) in
  lis ← serve_or_exit (if_socket f);
  mret (mkStarted _ be lis).
Definition lvm_main (f : plain_flags) : op (started (gmap string lvmplugin.InstanceConfig)) :=
  instances ← read_config lvm_yaml (pf_config f);
  lis ← serve_or_exit (pf_socket f);
  mret (mkStarted _ instances lis).
Definition nfs_main (f : plain_flags) : op (started (gmap string nfsplugin.InstanceConfig)) :=
  instances ← read_config nfs_yaml (pf_config f);
  lis ← serve_or_exit (pf_socket f);
  mret (mkStarted _ instances lis).

(** What is behind each socket, over the plugin's state. *)
Definition rbd_plugin (c : cephrbd.Config) : Backend (rbdcontrol.Backend_ H) := rbdaddons.Serve_ c.
Definition cephfs_plugin (c : cephfs.Config) : Backend (cephfs.Backend_ H) := cephfs.Serve_ c.
Definition iscsi_plugin (c : iscsi.Config) : Backend H := iscsinode.Serve_ c.
Definition lvm_plugin (c : gmap string lvmplugin.InstanceConfig) : Backend H := lvmplugin.New c.
Definition nfs_plugin (c : gmap string nfsplugin.InstanceConfig) : Backend H := @nfsplugin.New H runner.combined_host _ _ c.
End mains.

(** ** What comes of it *)

(** A [main] starts well: when it serves, its socket is its own and open to its owner and group only,
    and core connects to the plugin behind it, which is of the type [t], at its first attempt,
    under whatever type it is configured, and finds a route for every request it may make; when
    the process exits before that, it has touched no socket. *)
Section starting.
  Context {H : Type} `{Files H} `{Sockets H} `{!SocketFS H}.

Definition untouched (h h' : H) : Prop := issued h' = issued h ∧ ∀ k, entry k h' = entry k h.
(** [err] is what may be when it exits. *)
Definition ends_well (err : H → H → string → Prop) {C P} (socket t : string) (b : C → Backend P) (init : H → P)
    (main : M H string (started C)) : Prop :=
  ∀ h, match main h with
  | (h', Ok s) =>
      entry (where_ socket) h' = Some (mkInode 432 (Some (st_lis _ s))) ∧ st_lis _ s ∈ issued h' ∧
      let plugin := b (st_config _ s) in let pc := Info_Capabilities (server.info plugin) in
      Info_Type (server.info plugin) = t ∧
      (∀ delay wait bt w, w_env w = init h' → ∃ w', @plugin.Dial P (plugin.sdk_transport plugin delay) wait bt w =
        Some (w', Ok (plugin.mkClient bt (plugin.caps_of pc))) ∧ w_env w' = init h') ∧
      ∀ path, plugin.allowed pc path → is_Some (server.route (server.newMux plugin) path)
  | (h', Err e) => err h h' e
  end.
Definition starts_well {C P} := @ends_well (λ h h' e, e = serve_failed ∨ untouched h h') C P.
Definition serves_well {C P} := @ends_well (λ _ _ e, e = serve_failed) C P.

Lemma untouched_refl h : untouched h h.
Proof. by split. Qed.
Lemma read_untouched p h : untouched h (ReadFile p h).1.
Proof. split; [apply (read_keeps p h "")|intros k; apply read_keeps]. Qed.
Lemma untouched_trans h1 h2 h3 : untouched h1 h2 → untouched h2 h3 → untouched h1 h3.
Proof. intros [Hi Hk] [Hi' Hk']. split; [congruence|intros k; by rewrite Hk', Hk]. Qed.
#[local] Instance untouched_preorder : PreOrder untouched.
Proof. split; [intros ?; apply untouched_refl|intros ???; apply untouched_trans]. Qed.
Lemma read_config_untouched {C} (yaml : string → option C) path : Pres untouched (read_config yaml path).
Proof. unfold read_config, os_get. repeat pres_step. intros h. apply read_untouched. Qed.
Lemma read_kms_untouched {C} (yaml : string → option (gmap string C)) path : Pres untouched (read_kms yaml path).
Proof. unfold read_kms, os_get. repeat first [intros h; apply read_untouched | pres_step]. Qed.

(** A plugin of the SDK that leaves the contract's version to it, of type [t]. *)
Definition sdk_plugin {P} (t : string) (b : Backend P) : Prop :=
  Info_ContractVersion (server.info b) = ContractVersion ∧ wire_ok (server.info b) ∧ Info_Type (server.info b) = t ∧ server.flags_backed b.

Lemma serve_last {C P} socket t (b : C → Backend P) init (c : C) : on_disk socket = true → sdk_plugin t (b c) →
  serves_well socket t b init (lis ← serve_or_exit socket; mret (mkStarted _ c lis)).
Proof.
  intros Hd (Hv & Hok & Ht & Hf) h. unfold serve_or_exit, run_err, mbind, M_bind, mret, M_ret.
  destruct (serving.Serve socket h) as [h' [lis|e]] eqn:HS; simpl; [|done].
  apply serving.Serve_private in HS as (He & _ & Hi & _); [|done].
  assert (ParseContractVersion (Info_ContractVersion (server.info (b c))) = Ok (1, 1)%Z) as Hver by (by rewrite Hv).
  split_and!; [done..| |intros path; by apply plugin.allowed_routed].
  intros delay wait bt w <-. by apply (plugin.Dial_sdk_plugin (b c) delay wait bt 1 w Hf Hok Hver).
Qed.
Lemma serves_starts {C P} socket t (b : C → Backend P) init main : serves_well socket t b init main → starts_well socket t b init main.
Proof. intros Hm h. specialize (Hm h). destruct (main h) as [h' [s|e]]; auto. Qed.
Lemma serves_after {C P A E} socket t (b : C → Backend P) init (m : M H E A) f k :
  (∀ h, is_Ok (m h).2 = true) → (∀ a, serves_well socket t b init (k a)) → serves_well socket t b init (run_err f m ≫= k).
Proof.
  intros Hm Hk h. specialize (Hm h). unfold run_err, mbind, M_bind. destruct (m h) as [h' [a|e]]; [|done]. simpl.
  specialize (Hk a h'). by destruct (k a h') as [h'' [s|e]].
Qed.
Lemma starts_after {C P A} socket t (b : C → Backend P) init (m : M H string A) k :
  Pres untouched m → (∀ a, starts_well socket t b init (k a)) → starts_well socket t b init (m ≫= k).
Proof.
  intros Hm Hk h. specialize (Hm h). unfold mbind, M_bind. destruct (m h) as [h' [a|e]]; [|by right].
  specialize (Hk a h'). simpl in *. destruct (k a h') as [h'' [s|e]]; [done|]. destruct Hk as [|Hu]; [by left|right; by etrans].
Qed.
End starting.

(** Registering providers always succeeds. *)
Lemma provider_ok {S} `{Env S} id c s : is_Ok (kms.provider_of (S := S) id c s).2 = true.
Proof.
  assert (∀ (m : M S perror kms.keyService) s, is_Ok (kms.or_broken m s).2 = true) as Hb.
  { intros m s'. unfold kms.or_broken, catch. by destruct (m s') as [? []]. }
  unfold kms.provider_of. repeat case_match; first [apply Hb | done].
Qed.
Lemma register_ok {S} `{Env S} l r s : is_Ok (kms.register_all (S := S) l r s).2 = true.
Proof.
  revert r s. induction l as [|[id c] l IH]; intros r s; [done|]. simpl. unfold mbind, M_bind.
  pose proof (provider_ok id c s) as Hp. destruct (kms.provider_of id c s) as [s' [ks|e]]; [apply IH|done].
Qed.

Section started.
  Context {H : Type} `{runner.Processes H} `{Files H} `{TempFiles H} `{Env H} `{Clock H} `{cephenc.FsCrypt H} `{Network H} `{NodeFiles H}.
  Context `{Sockets H} `{!SocketFS H} `{MapIter}.
Context (rbd_yaml : string → option (gmap string cephrbd.ClusterConfig)).
Context (cephfs_yaml : string → option (gmap string cephfs.ClusterConfig)).
Context (iscsi_yaml : string → option (gmap string iscsi.InstanceConfig)).
Context (lvm_yaml : string → option (gmap string lvmplugin.InstanceConfig)).
Context (nfs_yaml : string → option (gmap string nfsplugin.InstanceConfig)).
Context (kms_yaml : string → option (gmap string cephenc.KMSConfig)).

Lemma plugins_of_sdk :
  (∀ c, sdk_plugin "ceph-rbd" (rbd_plugin c)) ∧ (∀ c, sdk_plugin "cephfs" (cephfs_plugin c)) ∧ (∀ c, sdk_plugin "iscsi" (iscsi_plugin c)) ∧
  (∀ c, sdk_plugin "lvm" (lvm_plugin c)) ∧ (∀ c, sdk_plugin "nfs" (nfs_plugin c)).
Proof.
  split_and!; intros c; (split_and!; [done|by repeat split|done|]); intros i cap ks Hi;
    (do 12 (destruct i as [|i]; [by injection Hi as <- <-|]); done).
Qed.

#[local] Existing Instance runner.exec_host.
Lemma rbd_WithKMS_ok c providers h : is_Ok (cephrbd.WithKMS c providers h).2 = true.
Proof.
  unfold cephrbd.WithKMS, kms.Register, mbind, M_bind. pose proof (register_ok (range providers) (cephrbd.registry c) h) as Hok.
  by destruct (kms.register_all _ _ h) as [h' []].
Qed.
Lemma cephfs_WithKMS_ok c providers h : is_Ok (cephfs.WithKMS c providers h).2 = true.
Proof.
  unfold cephfs.WithKMS, kms.Register, mbind, M_bind. pose proof (register_ok (range providers) (cephfs.registry c) h) as Hok.
  by destruct (kms.register_all _ _ h) as [h' []].
Qed.

(** C9: a plugin that starts can be used: when the [main] of any of the five plugins comes to
    serve, whatever the flags and the files said, the path it was given leads to its socket, which
    only its owner and group may open, and core connects to the plugin behind it at the first
    attempt, with the capabilities the plugin declares and implements, and finds every route it
    may ask for; when it exits over its files, no socket was touched. *)
Theorem plugins_start :
  (∀ f, on_disk (rf_socket f) = true →
    starts_well (rf_socket f) "ceph-rbd" rbd_plugin (λ h, rbdcontrol.mkState h ∅ ∅ ∅ []) (rbd_main rbd_yaml kms_yaml f)) ∧
  (∀ f, on_disk (cf_socket f) = true →
    starts_well (cf_socket f) "cephfs" cephfs_plugin (λ h, cephfs.mkState h ∅ ∅) (cephfs_main cephfs_yaml kms_yaml f)) ∧
  (∀ f, on_disk (if_socket f) = true → starts_well (if_socket f) "iscsi" iscsi_plugin id (iscsi_main iscsi_yaml f)) ∧
  (∀ f, on_disk (pf_socket f) = true → starts_well (pf_socket f) "lvm" lvm_plugin id (lvm_main lvm_yaml f)) ∧
  (∀ f, on_disk (pf_socket f) = true → starts_well (pf_socket f) "nfs" nfs_plugin id (nfs_main nfs_yaml f)).
Proof.
  destruct plugins_of_sdk as (Hr & Hc & Hi & Hl & Hn).
  split_and!; intros f Hd; (apply starts_after; [apply read_config_untouched|intros instances]).
  - apply starts_after; [apply read_kms_untouched|intros providers]. apply serves_starts, serves_after.
    + intros h. apply rbd_WithKMS_ok.
    + intros be. by apply serve_last.
  - apply starts_after; [apply read_kms_untouched|intros providers]. apply serves_starts, serves_after.
    + intros h. apply cephfs_WithKMS_ok.
    + intros be. by apply serve_last.
  - apply serves_starts. by apply serve_last.
  - apply serves_starts. by apply serve_last.
  - apply serves_starts. by apply serve_last.
Qed.
End started.

(** The file of KMS providers: without one there are no providers; one that cannot be read or
    parsed ends the process. *)
Lemma read_kms_rules {H C} `{Files H} (yaml : string → option (gmap string C)) path h :
  match (read_kms yaml path h).2 with
  | Ok k => (k = ∅ ∧ (path = "" ∨ ∃ e, (ReadFile path h).2 = Err e ∧ not_exist e = true)) ∨
            ∃ raw, (ReadFile path h).2 = Ok raw ∧ yaml raw = Some k
  | Err _ => path ≠ "" ∧ ((∃ e, (ReadFile path h).2 = Err e ∧ not_exist e = false) ∨ ∃ raw, (ReadFile path h).2 = Ok raw ∧ yaml raw = None)
  end.
Proof.
  unfold read_kms. destruct (decide (path = "")) as [->|Hne]; [by left; split; [|left]|].
  unfold catch, os_get. destruct (ReadFile path h) as [h' [raw|e]]; simpl.
  - destruct (yaml raw) as [k|] eqn:Hy; simpl; [right; eauto|split; [done|right; eauto]].
  - destruct (not_exist e) eqn:He; simpl; [left; split; [done|right; eauto]|split; [done|left; eauto]].
Qed.

(** ** A pod to start the plugins in

    Commands answer nothing, there is neither network nor key service. *)
Definition no_answer : string := "connection refused".
#[local] Instance pod_processes : runner.Processes machine := {|
  runner.start_wait _ _ h := (h, runner.mkFinished "" "" "" None); runner.os_MkdirAll _ _ h := (h, None); runner.os_UnixNow _ := 0%Z |}.
#[local] Instance pod_temps : TempFiles machine := {|
  IsDir _ h := (h, true); CreateTemp _ _ h := (h, Err refused); WriteString _ _ h := (h, Some refused); OpenCreate _ _ h := (h, Some refused) |}.
#[local] Instance pod_env : Env machine := {|
  readFile _ h := (h, Err no_answer); getenv _ _ := ""; randRead _ h := (h, Err no_answer); now _ := 0%Z; httpDo _ h := (h, Err no_answer);
  kmipExchange _ _ h := (h, KDialFailed); pem_certs _ := true; key_pair _ _ h := (h, Ok tt);
  get_token _ _ := ("", 0%Z); put_token _ _ h := h; get_creds _ _ := (mkCreds "" "" "", 0%Z); put_creds _ _ h := h |}.
#[local] Instance pod_clock : Clock machine := {| Sleep _ h := h; ctx_done _ := false |}.
#[local] Instance pod_fscrypt : cephenc.FsCrypt machine := {|
  cephenc.add_encryption_key _ k h := (h, Ok k); cephenc.mkdir _ _ h := (h, None); cephenc.set_encryption_policy _ _ h := (h, Ok tt) |}.
#[local] Instance pod_network : Network machine := {| DialUDP _ h := (h, Err no_answer); ParseInLocation _ _ _ := None |}.
#[local] Instance pod_node_files : NodeFiles machine := {|
  EvalSymlinks p h := (h, Ok p); Lstat _ h := (h, None); OpenLock _ _ h := (h, None); Flock _ h := (h, None); Funlock _ h := h; CloseLock _ h := h |}.

(** A document that parses, as no entries, and one that does not. *)
Definition toy_yaml {C} (raw : string) : option (gmap string C) := if decide (raw = "{}") then Some ∅ else None.
(** A socket was left by the last run; the KMS file is mounted from a ConfigMap that may be missing. *)
Definition ex_pod (files : strmap) : machine :=
  mkMachine {["/var/lib/bard/plugins/ceph-rbd.sock" := mkInode 438 None]} (<["/etc/bard-ceph/config.yaml" := "{}"]> files) 7 ∅.
Definition with_kms : rbd_flags :=
  mkRbdFlags (rf_socket rbd_defaults) (rf_config rbd_defaults) (rf_keyDir rbd_defaults) "" "/etc/bard-kms/kms.yaml" (rf_stateDir rbd_defaults) 4.
Definition started_at (f : rbd_flags) (h : machine) : res string Z * option inode :=
  let '(h', r) := rbd_main toy_yaml toy_yaml f h in (st_lis _ <$> r, entry (rf_socket f) h').
Example starts_over_stale_socket : started_at rbd_defaults (ex_pod ∅) = (Ok 7%Z, Some (mkInode 432 (Some 7%Z))).
Proof. vm_compute. reflexivity. Qed.
Example kms_file_missing : started_at with_kms (ex_pod ∅) = (Ok 7%Z, Some (mkInode 432 (Some 7%Z))).
Proof. vm_compute. reflexivity. Qed.
Example kms_file_broken : started_at with_kms (ex_pod {["/etc/bard-kms/kms.yaml" := "]"]}) = (Err "parse kms config: %v", Some (mkInode 438 None)).
Proof. vm_compute. reflexivity. Qed.
Lemma plugins_start_witness :
  starts_well (rf_socket rbd_defaults) "ceph-rbd" rbd_plugin (λ h, rbdcontrol.mkState h ∅ ∅ ∅ []) (rbd_main (H := machine) toy_yaml toy_yaml rbd_defaults).
Proof. apply (plugins_start (H := machine) toy_yaml toy_yaml toy_yaml toy_yaml toy_yaml toy_yaml). vm_compute. reflexivity. Defined.
End entry.
