(* ===== verification/Conformance.v ===== *)
(** * The conformance suite (internal/conformance)

    The checks a plugin has to pass, run over its socket: what is asked of the plugin, in
    which order, what is recorded, and which volumes and snapshots are deleted again.  The
    plugin, the host and the clock are the environment [T].  A result's detail is kept as its
    format; [Logf] is not modelled. *)
From Stdlib Require Import Ascii.
From S2P Require Import Prelude GoStrings GoErrors VolumeID Json Protocol Server Metrics Backend Client Host GoOs GoPath Sha256 GoCrypto KMS.

Module conformance.
Import bardplugin.

(** ** A request through [any]

    [Unmarshal] into a [map[string]any] and [Marshal] again: objects lose duplicate keys and
    are sorted, numbers pass through [float64].  The numbers of a create request are integers. *)
Definition float64_of (n : Z) : Z :=
  let s := (Z.log2 n - 52)%Z in
  if bool_decide (s ≤ 0)%Z then n
  else
    let q := (n / 2 ^ s)%Z in
    let rest := (n - q * 2 ^ s)%Z in
    let up := bool_decide (2 ^ s < 2 * rest)%Z || (bool_decide (2 ^ s = 2 * rest)%Z && Z.odd q) in
    ((if up then q + 1 else q) * 2 ^ s)%Z.
(** The shortest decimal that reads as the float [f], of two the nearer one, in [%f] form. *)
Fixpoint shortest (p : nat) (f : Z) : Z :=
  match p with
  | O => f
  | S p' =>
      let m := (10 ^ Z.of_nat p)%Z in
      let lo := (f / m * m)%Z in
      let hi := (lo + m)%Z in
      let fits c := bool_decide (float64_of c = f) in
      if fits lo && fits hi then (if bool_decide (f - lo ≤ hi - f)%Z then lo else hi)
      else if fits lo then lo else if fits hi then hi else shortest p' f
  end.
Definition any_number (n : Z) : Z :=
  if bool_decide (0 ≤ n)%Z then shortest 18 (float64_of n) else (- shortest 18 (float64_of (- n)))%Z.
Definition last_wins (o : list (string * json)) : gmap string json := foldl (λ m p, <[p.1 := p.2]> m) ∅ o.
Fixpoint via_any (j : json) : json :=
  match j with
  | JNum lit => match Atoi lit with Some n => JNum (Itoa (any_number n)) | None => j end
  | JArr l => JArr (map via_any l)
  | JObj o => JObj (by_key (last_wins (map (λ p, match p with (k, v) => (k, via_any v) end) o)))
  | _ => j
  end.
(** The request as a map, with one more entry. *)
Definition with_field (k v : string) (j : json) : json :=
  match via_any j with JObj o => JObj (by_key (<[k := JStr v]> (last_wins o))) | j => j end.

(** ** Data *)
Record Config := mkConfig {
  c_Socket : string; c_Instance : string; c_Parameters : strmap; c_FsType : string; c_CapacityBytes : Z;
  c_NamePrefix : string; c_Node : bool; c_NodeID : string; c_StagingDir : string;
}.
Inductive Status := Pass | Fail | Warn | Skip.
#[export] Instance Status_eq_dec : EqDecision Status.
Proof. solve_decision. Defined.
Record Result := mkResult { rs_Name : string; rs_Status : Status; rs_Detail : string }.
(** [Failed]. *)
Definition Failed (rs : list Result) : bool := existsb (λ r, bool_decide (rs_Status r = Fail)) rs.

(** What a call can fail with: a [PluginError], or an error of the transport or the decoder. *)
Inductive cerr :=
  | PluginError (Code : ErrorCode) (HTTPStatus : Z) (Message : string)
  | OtherError.
Definition errCode (err : option cerr) : ErrorCode :=
  match err with Some (PluginError c _ _) => c | _ => "" end.

(** A request's fate: no response, or a status with what could be read of its body
    ([None]: not JSON; an error of [ReadAll] is ignored). *)
Inductive reply := NoReply | Reply (status : Z) (data : option json).
Class Socket (T : Type) := post : string → json → T → T * reply.

#[export] Instance VolumeRef_eq_dec : EqDecision VolumeRef.
Proof. solve_decision. Defined.
#[export] Instance Capabilities_eq_dec : EqDecision Capabilities.
Proof. solve_decision. Defined.
#[export] Instance Info_eq_dec : EqDecision Info.
Proof. solve_decision. Defined.

(** The variable a publish response is decoded into, twice, beside [pubCtx], which holds the
    map of the first response: while the two are one map, the second decoding is seen
    through both. *)
Record published := mkPublished { pubCtx : option strmap; pub_resp : option strmap; pub_shared : bool }.
Definition dec_shared (acc : published * bool) (j : json) : published * bool :=
  let '(x, ok0) := acc in
  match j with
  | JNull => (mkPublished (pubCtx x) None false, ok0)
  | JObj _ =>
      let '(m, ok) := dec j (default ∅ (pub_resp x)) in
      (mkPublished (if pub_shared x then Some m else pubCtx x) (Some m) (pub_shared x), ok0 && ok)
  | _ => (x, false)
  end.
#[export] Instance wire_published : Wire published := {|
  zero := mkPublished None None false;
  is_empty _ := false;
  enc x := enc (mkControllerPublishResponse (default ∅ (pub_resp x)));
  dec := dec_obj (λ o x, foldl dec_shared (x, true) (field_vals "publishContext" o));
  wire_ok _ := True;
|}.
(** [pubCtx = resp.PublishContext]. *)
Definition share (x : published) : published :=
  mkPublished (pub_resp x) (pub_resp x) (match pub_resp x with Some _ => true | None => false end).

(** [runner]. *)
Record runner (T : Type) := mkRunner { env : T; results : list Result; liveVols : list VolumeRef; liveSnaps : list VolumeRef }.
Arguments mkRunner {T}.
Arguments env {T}.
Arguments results {T}.
Arguments liveVols {T}.
Arguments liveSnaps {T}.

Definition removeRef (refs : list VolumeRef) (ref : VolumeRef) : list VolumeRef := filter (λ x, x ≠ ref) refs.
Definition containsVol (entries : list VolumeListEntry) (ref : VolumeRef) : bool :=
  existsb (λ e, bool_decide (VolumeListEntry_Volume e = ref)) entries.
Definition findSnap (entries : list SnapshotListEntry) (ref : VolumeRef) : option SnapshotListEntry :=
  List.find (λ e, bool_decide (SnapshotListEntry_Snapshot e = ref)) entries.

Section conformance.
  Context {T : Type} `{Socket T} `{Host T} `{Files T} `{Env T}.
  Context (pause : T → T * option error) (cfg : Config).
  (** A check records; it has no error of its own. *)
  Abbreviation check A := (M (runner T) Empty_set A).

(** ** The runner *)
Definition record (name : string) (st : Status) (format : string) : check unit :=
  modify (λ r, mkRunner (env r) (results r ++ [mkResult name st format]) (liveVols r) (liveSnaps r)).
(** A call on the environment. *)
Definition on_env {A} (f : T → T * A) : check A := λ r,
  let '(t, a) := f (env r) in (mkRunner t (results r) (liveVols r) (liveSnaps r), Ok a).
Definition trackVol (ref : VolumeRef) : check unit :=
  modify (λ r, mkRunner (env r) (results r) (liveVols r ++ [ref]) (liveSnaps r)).
Definition trackSnap (ref : VolumeRef) : check unit :=
  modify (λ r, mkRunner (env r) (results r) (liveVols r) (liveSnaps r ++ [ref])).
Definition untrackVol (ref : VolumeRef) : check unit :=
  modify (λ r, mkRunner (env r) (results r) (removeRef (liveVols r) ref) (liveSnaps r)).
Definition untrackSnap (ref : VolumeRef) : check unit :=
  modify (λ r, mkRunner (env r) (results r) (liveVols r) (removeRef (liveSnaps r) ref)).

(** [callRaw]: the error, and the response variable ([None]: a nil [out]). *)
Definition answer {R} `{Wire R} (a : reply) (out : option R) : option cerr * option R :=
  match a with
  | NoReply => (Some OtherError, out)
  | Reply status data =>
      if bool_decide (status = server.StatusOK) then
        match out with
        | None => (None, None)
        | Some x => let '(y, ok) := plugin.unmarshal data x in (if ok : bool then None else Some OtherError, Some y)
        end
      else
        let e : Error := (plugin.unmarshal data zero).1 in
        let msg := if bool_decide (Error_Message e = "") then "HTTP " +:+ Itoa status else Error_Message e in
        (Some (PluginError (Error_Code e) status msg), out)
  end.
Definition callRaw {R} `{Wire R} (path : string) (body : json) (out : option R) : check (option cerr * option R) :=
  a ← on_env (post path body);
  mret (answer a out).
(** [call] with a response variable that holds [x], and without one. *)
Definition call {Req R} `{Wire Req, Wire R} (path : string) (req : Req) (x : R) : check (option cerr * R) :=
  p ← callRaw path (enc req) (Some x);
  mret (p.1, default x p.2).
Definition call_ {Req} `{Wire Req} (path : string) (req : Req) : check (option cerr) :=
  p ← callRaw path (enc req) (None : option unit);
  mret p.1.

(** [identity]. *)
Definition identity (backendType location name : string) : bool :=
  negb (bool_decide (name = "")) && is_Ok (Validate (mkHandle backendType (c_Instance cfg) location name)).
Definition volRef (location name : string) : VolumeRef := mkVolumeRef (c_Instance cfg) location name.
Definition deleteVol (ref : VolumeRef) : check (option cerr) :=
  err ← call_ PathDeleteVolume (mkDeleteVolumeRequest ref ∅);
  match err with None => untrackVol ref;; mret None | Some e => mret (Some e) end.
Definition deleteSnap (ref : VolumeRef) : check (option cerr) :=
  err ← call_ PathDeleteSnapshot (mkDeleteSnapshotRequest ref ∅);
  match err with None => untrackSnap ref;; mret None | Some e => mret (Some e) end.
Definition create_request (name : string) (capacity : Z) (snap vol : option VolumeRef) : CreateVolumeRequest :=
  mkCreateVolumeRequest name capacity (c_Instance cfg) (c_FsType cfg) (c_Parameters cfg) ∅ ∅ snap vol.
Definition createReq (name : string) : CreateVolumeRequest := create_request name (c_CapacityBytes cfg) None None.
Definition doubled : Z := wrap64 (c_CapacityBytes cfg * 2).
Definition prerequisite : string := "prerequisite volume/create failed".
Definition undeclared : string := "capability not declared".

(** ** The checks, in the order of [run] *)

(** [switch] on what /info says, and /info again. *)
Definition check_info (info : Info) : check unit :=
  if bool_decide (Info_Type info = "") then record "info" Fail "type must be non-empty"
  else match ParseContractVersion (Info_ContractVersion info) with
  | Err _ => record "info" Fail "contractVersion: %v"
  | Ok (major, minor) =>
      if bool_decide (major ≠ ContractMajor) then record "info" Fail "contract major %d not supported (core speaks v%d.x)"
      else if bool_decide (minor > ContractMinor)%Z
      then record "info" Fail "contract %d.%d is newer than this core understands (v%d.%d) -- upgrade Bard to match the plugin"
      else record "info" Pass "type=%s contract=%d.%d"
  end.
Definition check_stable (info : Info) : check unit :=
  '(err, info2) ← call PathInfo tt (zero : Info);
  match err with
  | Some _ => record "info/stable" Fail "second /info failed: %v"
  | None => if bool_decide (info2 ≠ info) then record "info/stable" Fail "/info changed between calls: %+v vs %+v"
            else record "info/stable" Pass "identical on repeat"
  end.

(** The first volume: the response and [haveV1]. *)
Definition v1name : string := c_NamePrefix cfg +:+ "-v1".
Definition check_create (ty : string) : check (CreateVolumeResponse * bool) :=
  '(err, v1) ← call PathCreateVolume (createReq v1name) (zero : CreateVolumeResponse);
  let cap := CreateVolumeResponse_CapacityBytes v1 in
  match err with
  | Some _ => record "volume/create" Fail "create %s: %v";; mret (v1, false)
  | None =>
      if negb (identity ty (CreateVolumeResponse_Location v1) (CreateVolumeResponse_Name v1))
      then record "volume/create" Fail "returned identity unusable as a CSI id: %v";; mret (v1, false)
      else if bool_decide (cap ≠ 0)%Z && bool_decide (cap < c_CapacityBytes cfg)%Z
      then record "volume/create" Fail "capacityBytes %d < requested %d";; mret (v1, false)
      else
        trackVol (volRef (CreateVolumeResponse_Location v1) (CreateVolumeResponse_Name v1));;
        record "volume/create" Pass "name=%s location=%s cap=%d";; mret (v1, true)
  end.
Definition check_create_idempotent (v1 : CreateVolumeResponse) : check unit :=
  '(err, again) ← call PathCreateVolume (createReq v1name) (zero : CreateVolumeResponse);
  match err with
  | Some _ => record "volume/create-idempotent" Fail "re-create of %s failed: %v -- the external-provisioner retries CreateVolume, so an identical repeat must succeed"
  | None =>
      if bool_decide (CreateVolumeResponse_Name again ≠ CreateVolumeResponse_Name v1)
         || bool_decide (CreateVolumeResponse_Location again ≠ CreateVolumeResponse_Location v1)
      then record "volume/create-idempotent" Fail "re-create returned a different volume: %s/%s vs %s/%s"
      else record "volume/create-idempotent" Pass "identical repeat returns the same volume"
  end.
Definition check_create_conflict : check unit :=
  err ← call_ PathCreateVolume (create_request v1name doubled None None);
  if bool_decide (errCode err = CodeAlreadyExists)
  then record "volume/create-conflict" Pass "same name + incompatible size => AlreadyExists"
  else match err with
  | None => record "volume/create-conflict" Warn "same name + incompatible size succeeded; SHOULD be AlreadyExists (acceptable only for backends with no recorded size)"
  | Some _ => record "volume/create-conflict" Fail "want AlreadyExists, got: %v"
  end.
Definition check_recreate (v1 : CreateVolumeResponse) (haveV1 : bool) : check unit :=
  if negb haveV1 then record "volume/create-idempotent" Skip prerequisite
  else check_create_idempotent v1;; check_create_conflict.

Definition check_unknown_field : check unit :=
  let rawReq := with_field "xConformanceUnknownField" "future contract minors add fields; ignore me"
    (enc (createReq (c_NamePrefix cfg +:+ "-v2"))) in
  '(err, out) ← callRaw PathCreateVolume rawReq (Some (zero : CreateVolumeResponse));
  let v2 := default zero out in
  match err with
  | Some _ => record "volume/unknown-field" Fail "create with an extra unknown field failed: %v -- plugins must ignore unknown JSON fields (forward compatibility)"
  | None =>
      record "volume/unknown-field" Pass "unknown request field ignored";;
      let v2ref := volRef (CreateVolumeResponse_Location v2) (CreateVolumeResponse_Name v2) in
      trackVol v2ref;;
      err ← deleteVol v2ref;
      match err with
      | Some _ => record "volume/unknown-field" Warn "cleanup delete of %s failed: %v"
      | None => mret tt
      end
  end.

Definition check_expand (caps : Capabilities) (haveV1 : bool) (v1ref : VolumeRef) : check unit :=
  if negb (Capabilities_Expand caps) then record "volume/expand" Skip undeclared
  else if negb haveV1 then record "volume/expand" Skip prerequisite
  else
    let req := mkExpandVolumeRequest v1ref doubled ∅ in
    '(err, er) ← call PathExpandVolume req (zero : ExpandVolumeResponse);
    match err with
    | Some _ => record "volume/expand" Fail "expand to %d: %v"
    | None =>
        if bool_decide (ExpandVolumeResponse_CapacityBytes er < doubled)%Z
        then record "volume/expand" Fail "capacityBytes %d < requested %d"
        else
          '(err, _) ← call PathExpandVolume req er;
          match err with
          | Some _ => record "volume/expand" Fail "repeated expand to the same size must succeed (kubelet/resizer retry): %v"
          | None => record "volume/expand" Pass "grew to %d, idempotent on repeat (nodeExpansionRequired=%v)"
          end
    end.
Definition check_capacity (caps : Capabilities) : check unit :=
  if negb (Capabilities_GetCapacity caps) then record "capacity" Skip undeclared
  else
    '(err, cr) ← call PathGetCapacity (mkGetCapacityRequest (c_Instance cfg) (c_Parameters cfg)) (zero : GetCapacityResponse);
    match err with
    | Some _ => record "capacity" Fail "%v"
    | None => if bool_decide (GetCapacityResponse_AvailableBytes cr < 0)%Z then record "capacity" Fail "negative availableBytes %d"
              else record "capacity" Pass "availableBytes=%d"
    end.
Definition check_health (caps : Capabilities) (haveV1 : bool) (v1ref : VolumeRef) : check unit :=
  if negb (Capabilities_VolumeHealth caps) then record "volume/health" Skip undeclared
  else if negb haveV1 then record "volume/health" Skip prerequisite
  else
    '(err, hr) ← call PathVolumeHealth (mkGetVolumeHealthRequest v1ref ∅) (zero : GetVolumeHealthResponse);
    match err with
    | Some _ => record "volume/health" Fail "%v"
    | None => if GetVolumeHealthResponse_Abnormal hr then record "volume/health" Fail "fresh volume reported abnormal: %s"
              else record "volume/health" Pass "fresh volume healthy"
    end.
Definition check_list (caps : Capabilities) (haveV1 : bool) (v1ref : VolumeRef) : check unit :=
  if negb (Capabilities_ListVolumes caps) then record "volume/list" Skip undeclared
  else if negb haveV1 then record "volume/list" Skip prerequisite
  else
    '(err, lr) ← call PathListVolumes mkListVolumesRequest (zero : ListVolumesResponse);
    match err with
    | Some _ => record "volume/list" Fail "%v"
    | None => if negb (containsVol (ListVolumesResponse_Entries lr) v1ref)
              then record "volume/list" Fail "created volume %s/%s missing from %d entries"
              else record "volume/list" Pass "created volume listed (%d entries)"
    end.

(** Snapshots: the response and [haveS1]. *)
Definition check_snapshot_repeat (snapReq : CreateSnapshotRequest) (s1 : CreateSnapshotResponse) : check unit :=
  '(err, again) ← call PathCreateSnapshot snapReq (zero : CreateSnapshotResponse);
  match err with
  | Some _ => record "snapshot/create-idempotent" Fail "identical repeat must succeed (snapshotter retries): %v"
  | None =>
      if bool_decide (CreateSnapshotResponse_Name again ≠ CreateSnapshotResponse_Name s1)
         || bool_decide (CreateSnapshotResponse_Location again ≠ CreateSnapshotResponse_Location s1)
      then record "snapshot/create-idempotent" Fail "repeat returned a different snapshot: %s/%s"
      else record "snapshot/create-idempotent" Pass "identical repeat returns the same snapshot"
  end.
Definition check_snapshot (ty : string) (caps : Capabilities) (haveV1 : bool) (v1ref : VolumeRef)
    : check (CreateSnapshotResponse * bool) :=
  if negb (Capabilities_Snapshots caps) then record "snapshot/create" Skip undeclared;; mret (zero, false)
  else if negb haveV1 then record "snapshot/create" Skip prerequisite;; mret (zero, false)
  else
    let snapReq := mkCreateSnapshotRequest (c_NamePrefix cfg +:+ "-s1") v1ref (c_Parameters cfg) ∅ in
    '(err, s1) ← call PathCreateSnapshot snapReq (zero : CreateSnapshotResponse);
    match err with
    | Some _ =>
        (if bool_decide (errCode err = CodeUnsupported)
         then record "snapshot/create" Skip "not supported on this instance (Unsupported): %v"
         else record "snapshot/create" Fail "%v");;
        mret (s1, false)
    | None =>
        if negb (identity ty (CreateSnapshotResponse_Location s1) (CreateSnapshotResponse_Name s1))
        then record "snapshot/create" Fail "returned identity unusable as a CSI id: %v";; mret (s1, false)
        else
          trackSnap (volRef (CreateSnapshotResponse_Location s1) (CreateSnapshotResponse_Name s1));;
          record "snapshot/create" Pass "name=%s location=%s readyToUse=%v";;
          check_snapshot_repeat snapReq s1;;
          mret (s1, true)
    end.
Definition no_snapshot : string := "prerequisite snapshot/create failed or skipped".
Definition check_snapshot_list (caps : Capabilities) (haveS1 : bool) (v1ref s1ref : VolumeRef) : check unit :=
  if negb (Capabilities_ListSnapshots caps) then record "snapshot/list" Skip undeclared
  else if negb haveS1 then record "snapshot/list" Skip no_snapshot
  else
    '(err, lr) ← call PathListSnapshots mkListSnapshotsRequest (zero : ListSnapshotsResponse);
    match err with
    | Some _ => record "snapshot/list" Fail "%v"
    | None =>
        match findSnap (ListSnapshotsResponse_Entries lr) s1ref with
        | None => record "snapshot/list" Fail "created snapshot %s/%s missing from %d entries"
        | Some e =>
            if bool_decide (SnapshotListEntry_SourceVolume e ≠ v1ref)
            then record "snapshot/list" Fail "listed source %+v does not match created source %+v"
            else record "snapshot/list" Pass "created snapshot listed with correct source (%d entries)"
        end
    end.
Definition check_restore (ty : string) (caps : Capabilities) (haveS1 : bool) (s1ref : VolumeRef) : check unit :=
  if negb (Capabilities_Snapshots caps) then record "snapshot/restore" Skip undeclared
  else if negb haveS1 then record "snapshot/restore" Skip no_snapshot
  else
    '(err, v3) ← call PathCreateVolume (create_request (c_NamePrefix cfg +:+ "-v3") (c_CapacityBytes cfg) (Some s1ref) None)
      (zero : CreateVolumeResponse);
    match err with
    | Some _ => record "snapshot/restore" Fail "create from sourceSnapshot: %v"
    | None =>
        if negb (identity ty (CreateVolumeResponse_Location v3) (CreateVolumeResponse_Name v3))
        then record "snapshot/restore" Fail "returned identity unusable as a CSI id: %v"
        else
          trackVol (volRef (CreateVolumeResponse_Location v3) (CreateVolumeResponse_Name v3));;
          record "snapshot/restore" Pass "restored to %s/%s"
    end.
Definition check_clone (haveV1 : bool) (v1ref : VolumeRef) : check unit :=
  if negb haveV1 then record "volume/clone" Skip prerequisite
  else
    '(err, v4) ← call PathCreateVolume (create_request (c_NamePrefix cfg +:+ "-v4") (c_CapacityBytes cfg) None (Some v1ref))
      (zero : CreateVolumeResponse);
    match err with
    | None =>
        trackVol (volRef (CreateVolumeResponse_Location v4) (CreateVolumeResponse_Name v4));;
        record "volume/clone" Pass "cloned to %s/%s"
    | Some _ =>
        if bool_decide (errCode err = CodeInvalidArg) then record "volume/clone" Skip "not supported (InvalidArgument): %v"
        else record "volume/clone" Fail "unsupported clone must be InvalidArgument, got: %v"
    end.
Definition check_reclaim (caps : Capabilities) (haveV1 : bool) (v1ref : VolumeRef) : check unit :=
  if negb (Capabilities_ReclaimSpace caps) then record "volume/reclaimspace" Skip undeclared
  else if negb haveV1 then record "volume/reclaimspace" Skip prerequisite
  else
    err ← call_ PathReclaimSpace (mkReclaimSpaceRequest v1ref ∅);
    match err with
    | Some _ => record "volume/reclaimspace" Fail "%v"
    | None => record "volume/reclaimspace" Pass "reclaim on a fresh volume succeeds"
    end.

(** Attach: [pubCtx] and [published]. *)
Definition nodeID : string := if bool_decide (c_NodeID cfg = "") then "conformance-node" else c_NodeID cfg.
Definition check_publish (caps : Capabilities) (haveV1 : bool) (v1ref : VolumeRef) : check (strmap * bool) :=
  if negb (Capabilities_RequiresControllerPublish caps) then mret (∅, false)
  else if negb haveV1 then record "controller/publish" Skip prerequisite;; mret (∅, false)
  else
    let pubReq := mkControllerPublishRequest v1ref nodeID false ∅ ∅ in
    '(err, resp) ← call PathControllerPublish pubReq (zero : published);
    match err with
    | Some _ => record "controller/publish" Fail "%v";; mret (∅, false)
    | None =>
        '(err, resp) ← call PathControllerPublish pubReq (share resp);
        match err with
        | Some _ => record "controller/publish" Fail "repeated publish must succeed (the attacher retries): %v"
        | None => record "controller/publish" Pass "published to node %q (%d publishContext keys), idempotent on repeat"
        end;;
        mret (default ∅ (pubCtx resp), true)
    end.
Definition unpublished_prerequisite : string := "prerequisite controller/publish failed".
Definition check_unpublish (caps : Capabilities) (haveV1 wasPublished : bool) (v1ref : VolumeRef) : check unit :=
  let skip why := record "controller/unpublish" Skip why;; record "controller/unpublish-absent" Skip why in
  if negb (Capabilities_RequiresControllerPublish caps) then mret tt
  else if negb haveV1 then skip prerequisite
  else if negb wasPublished then skip unpublished_prerequisite
  else
    let unpubReq := mkControllerUnpublishRequest v1ref nodeID ∅ in
    err ← call_ PathControllerUnpublish unpubReq;
    match err with
    | Some _ => record "controller/unpublish" Fail "%v"
    | None =>
        err ← call_ PathControllerUnpublish unpubReq;
        match err with
        | Some _ => record "controller/unpublish" Fail "second unpublish must succeed, got: %v -- ControllerUnpublish must be idempotent (the attacher retries forever)"
        | None => record "controller/unpublish" Pass "detached; repeat detach is a successful no-op"
        end
    end;;
    err ← call_ PathControllerUnpublish (mkControllerUnpublishRequest v1ref (nodeID +:+ "-never-published") ∅);
    match err with
    | Some _ => record "controller/unpublish-absent" Fail "unpublishing a never-published node must succeed, got: %v"
    | None => record "controller/unpublish-absent" Pass "unpublish of a never-published node is a successful no-op"
    end.

(** ** [nodeChecks]

    Each part ends with what is deferred at its point; the flags [staged] and [published]
    are the results of the parts inside. *)
Definition zero_byte : ascii := ascii_of_N 0.
Definition check_data_path (target : string) : check unit :=
  rd ← on_env (randRead 32);
  let proof := match rd with Ok b => b | Err _ => String.concat "" (replicate 32 (String zero_byte "")) end in
  let proofPath := Join [target; "bard-conformance-proof"] in
  err ← on_env (WriteFile proofPath proof 420);
  match err with
  | Some _ => record "node/data-path" Fail "write through published volume: %v"
  | None =>
      got ← on_env (ReadFile proofPath);
      match got with
      | Ok b => if bool_decide (b = proof) then record "node/data-path" Pass "wrote and read back through the published mount"
                else record "node/data-path" Fail "read back mismatch (err=%v)"
      | Err _ => record "node/data-path" Fail "read back mismatch (err=%v)"
      end
  end.
Definition check_node_reclaim (caps : Capabilities) (v1ref : VolumeRef) (staging target : string) : check unit :=
  if Capabilities_NodeReclaimSpace caps then
    err ← call_ PathNodeReclaimSpace (mkNodeReclaimSpaceRequest v1ref target staging false ∅);
    match err with
    | Some _ => record "node/reclaimspace" Fail "%v"
    | None => record "node/reclaimspace" Pass "reclaim on a published volume succeeds"
    end
  else mret tt.
(** From the data path to the return: [staged] and [published] as they then are. *)
Definition node_use (caps : Capabilities) (v1ref : VolumeRef) (staging target : string) : check (bool * bool) :=
  check_data_path target;;
  check_node_reclaim caps v1ref staging target;;
  let unpub := mkNodeUnpublishRequest v1ref target in
  err ← call_ PathNodeUnpublish unpub;
  match err with
  | Some _ => record "node/unpublish" Fail "%v";; mret (true, true)
  | None =>
      err ← call_ PathNodeUnpublish unpub;
      match err with
      | Some _ => record "node/unpublish" Fail "repeated unpublish must succeed (kubelet retries): %v"
      | None => record "node/unpublish" Pass "unpublished, idempotent on repeat"
      end;;
      let unstage := mkNodeUnstageRequest v1ref staging in
      err ← call_ PathNodeUnstage unstage;
      match err with
      | Some _ => record "node/unstage" Fail "%v";; mret (true, false)
      | None =>
          err ← call_ PathNodeUnstage unstage;
          match err with
          | Some _ => record "node/unstage" Fail "repeated unstage must succeed (kubelet retries): %v"
          | None => record "node/unstage" Pass "unstaged, idempotent on repeat"
          end;;
          mret (false, false)
      end
  end.
(** From the publish on: [staged] at the return. *)
Definition node_publish (caps : Capabilities) (v1ref : VolumeRef) (staging target : string) : check bool :=
  let pubReq := mkNodePublishRequest v1ref staging target (c_FsType cfg) [] false false ∅ in
  err ← call_ PathNodePublish pubReq;
  match err with
  | Some _ => record "node/publish" Fail "%v";; mret true
  | None =>
      err ← call_ PathNodePublish pubReq;
      '(staged, wasPublished) ← match err with
        | Some _ => record "node/publish" Fail "repeated publish must succeed (kubelet retries): %v";; mret (true, true)
        | None => record "node/publish" Pass "published at %s, idempotent on repeat";; node_use caps v1ref staging target
        end;
      (if wasPublished : bool then call_ PathNodeUnpublish (mkNodeUnpublishRequest v1ref target);; mret tt else mret tt);;
      mret staged
  end.
Definition node_stage (caps : Capabilities) (v1ref : VolumeRef) (ctx : strmap) (staging target : string) : check unit :=
  let stageReq := mkNodeStageRequest v1ref staging (c_FsType cfg) [] false false ctx false ∅ "" ∅ in
  err ← call_ PathNodeStage stageReq;
  match err with
  | Some _ => record "node/stage" Fail "%v"
  | None =>
      err ← call_ PathNodeStage stageReq;
      staged ← match err with
        | Some _ => record "node/stage" Fail "repeated stage must succeed (kubelet retries): %v";; mret true
        | None => record "node/stage" Pass "staged at %s, idempotent on repeat";; node_publish caps v1ref staging target
        end;
      if staged : bool then call_ PathNodeUnstage (mkNodeUnstageRequest v1ref staging);; mret tt else mret tt
  end.
(** The directories, until one cannot be made. *)
Fixpoint make_dirs (ds : list string) : check bool :=
  match ds with
  | [] => mret true
  | d :: ds =>
      err ← on_env (MkdirAll d 493);
      match err with
      | Some _ => record "node/stage" Fail "mkdir %s: %v";; mret false
      | None => make_dirs ds
      end
  end.
Definition node_in (caps : Capabilities) (v1ref : VolumeRef) (ctx : strmap) (base : string) : check unit :=
  let staging := Join [base; "staging"] in
  let target := Join [base; "target"] in
  ok ← make_dirs [staging; target];
  if ok : bool then node_stage caps v1ref ctx staging target else mret tt.
Definition nodeChecks (caps : Capabilities) (v1ref : VolumeRef) (ctx : strmap) : check unit :=
  if bool_decide (c_StagingDir cfg = "") then
    d ← on_env (MkdirTemp "" "bard-conformance-");
    match d with
    | Err _ => record "node/stage" Fail "mktemp: %v"
    | Ok d => node_in caps v1ref ctx d;; on_env (RemoveAll d);; mret tt
    end
  else node_in caps v1ref ctx (c_StagingDir cfg).
Definition check_node (caps : Capabilities) (haveV1 wasPublished : bool) (v1ref : VolumeRef) (ctx : strmap) : check unit :=
  if negb (c_Node cfg) then record "node" Skip "node-plane checks disabled (enable with -node; usually needs root)"
  else if negb haveV1 then record "node" Skip prerequisite
  else if Capabilities_RequiresControllerPublish caps && negb wasPublished then record "node" Skip unpublished_prerequisite
  else nodeChecks caps v1ref ctx.

(** ** Deleting *)
Definition check_snapshot_delete (haveS1 : bool) (s1ref : VolumeRef) : check unit :=
  if haveS1 then
    err ← deleteSnap s1ref;
    match err with
    | Some _ => record "snapshot/delete" Fail "%v"
    | None =>
        err ← deleteSnap s1ref;
        match err with
        | Some _ => record "snapshot/delete" Fail "second delete must succeed, got: %v -- DeleteSnapshot must be idempotent (core forwards errors to Kubernetes, which retries forever)"
        | None => record "snapshot/delete" Pass "deleted; repeat delete is a successful no-op"
        end
    end
  else record "snapshot/delete" Skip "no snapshot created".
(** [for _, ref := range refs], a copy of the list. *)
Fixpoint for_each (f : VolumeRef → check unit) (refs : list VolumeRef) : check unit :=
  match refs with [] => mret tt | ref :: refs => f ref;; for_each f refs end.
Definition delete_other (v1ref ref : VolumeRef) : check unit :=
  if bool_decide (ref ≠ v1ref) then
    err ← deleteVol ref;
    match err with
    | Some _ => record "volume/delete" Warn "cleanup delete of %s/%s failed: %v"
    | None => mret tt
    end
  else mret tt.
Definition check_v1_delete (v1ref : VolumeRef) : check unit :=
  err ← deleteVol v1ref;
  match err with
  | Some _ => record "volume/delete" Fail "%v"
  | None =>
      err ← deleteVol v1ref;
      match err with
      | Some _ => record "volume/delete" Fail "second delete must succeed, got: %v -- DeleteVolume must be idempotent (core forwards errors to Kubernetes, which retries forever)"
      | None => record "volume/delete" Pass "deleted; repeat delete is a successful no-op"
      end
  end.
Definition check_delete (haveV1 : bool) (v1ref : VolumeRef) : check unit :=
  if haveV1 then
    live ← gets liveVols;
    for_each (delete_other v1ref) live;;
    check_v1_delete v1ref;;
    err ← deleteVol (volRef (VolumeRef_Location v1ref) (c_NamePrefix cfg +:+ "-never-created"));
    match err with
    | Some _ => record "volume/delete-absent" Fail "deleting a never-created volume must succeed, got: %v"
    | None => record "volume/delete-absent" Pass "deleting an absent volume is a successful no-op"
    end
  else record "volume/delete" Skip prerequisite;; record "volume/delete-absent" Skip prerequisite.
Fixpoint check_unexercised (cs : list (string * bool)) : check unit :=
  match cs with
  | [] => mret tt
  | (name, declared) :: cs =>
      (if declared : bool then record name Skip "declared but not exercised by this tool version" else mret tt);;
      check_unexercised cs
  end.
Definition unexercised (caps : Capabilities) : list (string * bool) :=
  [("volume/modify", Capabilities_ModifyVolume caps); ("networkfence", Capabilities_NetworkFence caps);
   ("replication", Capabilities_Replication caps); ("volumegroup", Capabilities_VolumeGroup caps);
   ("node/rotate-key", Capabilities_EncryptionKeyRotation caps);
   ("node/reclaimspace", Capabilities_NodeReclaimSpace caps && negb (c_Node cfg))].
(** [cleanup]. *)
Definition cleanup : check unit :=
  snaps ← gets liveSnaps;
  for_each (λ ref, deleteSnap ref;; mret tt) snaps;;
  vols ← gets liveVols;
  for_each (λ ref, deleteVol ref;; mret tt) vols.

(** ** [run] *)
Definition checks (info : Info) : check unit :=
  let caps := Info_Capabilities info in
  check_info info;;
  check_stable info;;
  '(v1, haveV1) ← check_create (Info_Type info);
  let v1ref := volRef (CreateVolumeResponse_Location v1) (CreateVolumeResponse_Name v1) in
  check_recreate v1 haveV1;;
  check_unknown_field;;
  check_expand caps haveV1 v1ref;;
  check_capacity caps;;
  check_health caps haveV1 v1ref;;
  check_list caps haveV1 v1ref;;
  '(s1, haveS1) ← check_snapshot (Info_Type info) caps haveV1 v1ref;
  let s1ref := volRef (CreateSnapshotResponse_Location s1) (CreateSnapshotResponse_Name s1) in
  check_snapshot_list caps haveS1 v1ref s1ref;;
  check_restore (Info_Type info) caps haveS1 s1ref;;
  check_clone haveV1 v1ref;;
  check_reclaim caps haveV1 v1ref;;
  '(ctx, wasPublished) ← check_publish caps haveV1 v1ref;
  check_node caps haveV1 wasPublished v1ref ctx;;
  check_unpublish caps haveV1 wasPublished v1ref;;
  check_snapshot_delete haveS1 s1ref;;
  check_delete haveV1 v1ref;;
  check_unexercised (unexercised caps).

(** The /info loop: [None] is out of fuel. *)
Definition half_second : Z := 500000000.
Definition info_window : Z := 10000000000.
Fixpoint info_loop (fuel : nat) (deadline : Z) (info : Info) (r : runner T) : option (runner T * res error Info) :=
  match fuel with
  | O => None
  | S fuel =>
      match call PathInfo tt info r with
      | (r, Ok (None, info)) => Some (r, Ok info)
      | (r, Ok (Some _, info)) =>
          if bool_decide (now (env r) > deadline)%Z
          then Some (r, Err (plain_error "conformance: /info never answered: %w"))
          else match on_env pause r with
               | (r, Ok (Some e)) => Some (r, Err e)
               | (r, Ok None) => info_loop fuel deadline info r
               | (r, Err e) => match e with end
               end
      | (r, Err e) => match e with end
      end
  end.
Definition info_fuel : nat := 22.
Definition run (r : runner T) : option (runner T * res error unit) :=
  match info_loop info_fuel (now (env r) + info_window) zero r with
  | None => None
  | Some (r, Err e) => Some (r, Err e)
  | Some (r, Ok info) => Some (((checks info;; cleanup) r).1, Ok tt)
  end.
End conformance.

(** [Run]: the configuration's defaults, then the run; its results, or the error of a harness
    that could not run.  [OpTimeout] and the dialer are the environment's. *)
Section Run.
  Context {T : Type} `{Socket T} `{Host T} `{Files T} `{Env T}.
  Context (pause : T → T * option error).

Definition with_defaults (cfg : Config) (prefix : string) : Config :=
  mkConfig (c_Socket cfg) (c_Instance cfg) (c_Parameters cfg) (c_FsType cfg)
    (if bool_decide (c_CapacityBytes cfg ≤ 0)%Z then Z.shiftl 16 20 else c_CapacityBytes cfg)
    prefix (c_Node cfg) (c_NodeID cfg) (c_StagingDir cfg).
Definition random_prefix (cfg : Config) (t : T) : T * res error string :=
  if bool_decide (c_NamePrefix cfg = "") then
    match randRead 3 t with
    | (t, Ok b) => (t, Ok ("conf-" +:+ sha256.hex (sha256.bytes_of b)))
    | (t, Err _) => (t, Err (plain_error "conformance: rand: %w"))
    end
  else (t, Ok (c_NamePrefix cfg)).
Definition Run (cfg : Config) (t : T) : option (T * res error (list Result)) :=
  if bool_decide (c_Socket cfg = "") || bool_decide (c_Instance cfg = "")
  then Some (t, Err (plain_error "conformance: Socket and Instance are required"))
  else match random_prefix cfg t with
  | (t, Err e) => Some (t, Err e)
  | (t, Ok prefix) =>
      match run pause (with_defaults cfg prefix) (mkRunner t [] [] []) with
      | None => None
      | Some (r, Err e) => Some (env r, Err e)
      | Some (r, Ok _) => Some (env r, Ok (results r))
      end
  end.

(** ** The tool (cmd/bard-plugin-conformance)

    [paramFlag.Set]; and [main] after the flags are parsed: the counts it prints and its exit
    code ([None]: a run out of fuel). *)
Definition paramFlag_Set (p : strmap) (s : string) : res error strmap :=
  match cut_on "=" s with
  | Some (k, v) => if bool_decide (k = "") then Err (plain_error "want key=value, got %q") else Ok (<[k := v]> p)
  | None => Err (plain_error "want key=value, got %q")
  end.
Definition count (st : Status) (rs : list Result) : nat := length (filter (λ r, rs_Status r = st) rs).
Definition counts (rs : list Result) : list nat := [count Pass rs; count Fail rs; count Warn rs; count Skip rs].
Definition main (cfg : Config) (t : T) : option (T * (option (list nat) * Z)) :=
  if bool_decide (c_Socket cfg = "") || bool_decide (c_Instance cfg = "") then Some (t, (None, 2%Z))
  else match Run cfg t with
  | None => None
  | Some (t, Err _) => Some (t, (None, 2%Z))
  | Some (t, Ok rs) => Some (t, (Some (counts rs), if Failed rs then 1%Z else 0%Z))
  end.
End Run.
End conformance.
