(* ===== verification/ConformanceSafety.v ===== *)
(** * What a conformance run shows, and what it leaves

    A plugin that says truly what it created, and a run without failure or warning: nothing
    the run created is left. *)
From Stdlib Require Import Ascii.
From S2P Require Import Prelude GoStrings GoErrors VolumeID Json Protocol Server Metrics Backend Client Host GoOs GoPath Sha256 GoCrypto KMS Conformance.

Module conformancesafety.
Import bardplugin conformance.

Section honest.
  Context {T : Type} `{Socket T} `{Host T} `{Files T} `{Env T}.
  Context (pause : T → T * option error) (inst : string) (vols snaps : T → VolumeRef → Prop).

(** From [t] to [t'] nothing comes to be held but what [v] and [s] name. *)
Definition grows (v s : VolumeRef → Prop) (t t' : T) : Prop :=
  (∀ ref, vols t' ref → vols t ref ∨ v ref) ∧ (∀ ref, snaps t' ref → snaps t ref ∨ s ref).
Definition none (ref : VolumeRef) : Prop := False.
Definition still {A} (f : T → T * A) : Prop := ∀ t, grows none none t (f t).1.

(** A refusal that says nothing was done. *)
Definition refusal (c : ErrorCode) : Prop := c ∈ [CodeAlreadyExists; CodeInvalidArg; CodeUnsupported].
(** What may have been created, given the answer. *)
Definition created {V} `{Wire V} (refOf : V → VolumeRef) (a : reply) (ref : VolumeRef) : Prop :=
  match answer a (Some (zero : V)) with
  | (None, Some v) => ref = refOf v
  | (Some (PluginError c _ _), _) => ¬ refusal c
  | _ => True
  end.
Definition vol_of (v : CreateVolumeResponse) : VolumeRef :=
  mkVolumeRef inst (CreateVolumeResponse_Location v) (CreateVolumeResponse_Name v).
Definition snap_of (v : CreateSnapshotResponse) : VolumeRef :=
  mkVolumeRef inst (CreateSnapshotResponse_Location v) (CreateSnapshotResponse_Name v).
(** The create requests of the suite. *)
Definition asks_create (j : json) : Prop :=
  ∃ req, CreateVolumeRequest_Instance req = inst ∧ (j = enc req ∨ ∃ k v, j = with_field k v (enc req)).
Definition asks_snapshot (j : json) : Prop :=
  ∃ req, VolumeRef_Instance (CreateSnapshotRequest_SourceVolume req) = inst ∧ j = enc req.

(** What an answer of the plugin means, and that the host keeps its hands off the backend. *)
Class Honest : Prop := {
  creates : ∀ j t, asks_create j → grows (created vol_of (post PathCreateVolume j t).2) none t (post PathCreateVolume j t).1;
  snapshots : ∀ j t, asks_snapshot j → grows none (created snap_of (post PathCreateSnapshot j t).2) t (post PathCreateSnapshot j t).1;
  others : ∀ path j, path ∉ [PathCreateVolume; PathCreateSnapshot] → still (post path j);
  deletes : ∀ ref t data,
    (post PathDeleteVolume (enc (mkDeleteVolumeRequest ref ∅)) t).2 = Reply server.StatusOK data →
    ¬ vols (post PathDeleteVolume (enc (mkDeleteVolumeRequest ref ∅)) t).1 ref;
  deletes_snap : ∀ ref t data,
    (post PathDeleteSnapshot (enc (mkDeleteSnapshotRequest ref ∅)) t).2 = Reply server.StatusOK data →
    ¬ snaps (post PathDeleteSnapshot (enc (mkDeleteSnapshotRequest ref ∅)) t).1 ref;
  host_still : still pause ∧ (∀ n, still (randRead n)) ∧ (∀ p d m, still (WriteFile p d m)) ∧ (∀ p, still (ReadFile p)) ∧
    (∀ p m, still (MkdirAll p m)) ∧ (∀ d p, still (MkdirTemp d p)) ∧ (∀ p, still (RemoveAll p));
}.

(** ** Steps *)
Context (cfg : Config) (t0 : T) `{!Honest} (Hinst : c_Instance cfg = inst).
Abbreviation check A := (M (runner T) Empty_set A).

Definition quiet (rs : list Result) : Prop := Forall (λ r, rs_Status r = Pass ∨ rs_Status r = Skip) rs.
Lemma quiet_app rs new : quiet (rs ++ new) ↔ quiet rs ∧ quiet new.
Proof. apply Forall_app. Qed.
Lemma quiet_loud rs name st fmt : st = Fail ∨ st = Warn → ¬ quiet (rs ++ [mkResult name st fmt]).
Proof. intros Hst [_ [[Hq|Hq] _]%Forall_cons]%quiet_app; simpl in Hq; destruct Hst; congruence. Qed.

Lemma grows_trans t1 t2 t3 : grows none none t1 t2 → grows none none t2 t3 → grows none none t1 t3.
Proof. unfold grows, none. intros [V1 S1] [V2 S2]. split; intros ref Hr; naive_solver. Qed.
#[local] Instance grows_preorder : PreOrder (grows none none).
Proof. split; [intros t; split; naive_solver|exact grows_trans]. Qed.

(** A step that records, and after which nothing more is held. *)
Definition calm (r r' : runner T) : Prop :=
  (∃ new, results r' = results r ++ new) ∧ liveVols r' = liveVols r ∧ grows none none (env r) (env r').
#[local] Instance calm_preorder : PreOrder calm.
Proof.
  split.
  - intros r. split_and!; [exists []; by rewrite app_nil_r|done|reflexivity].
  - intros r1 r2 r3 ([n1 E1] & L1 & G1) ([n2 E2] & L2 & G2). split_and!; [|congruence|by etrans].
    exists (n1 ++ n2). by rewrite E2, E1, app_assoc.
Qed.
Lemma record_calm name st fmt : Pres calm (record name st fmt : check unit).
Proof. intros r. split_and!; [by eexists|done|reflexivity]. Qed.
Lemma on_env_calm {A} (f : T → T * A) : still f → Pres calm (on_env f : check A).
Proof.
  intros Hf r. specialize (Hf (env r)). unfold on_env. destruct (f (env r)) as [t a]. simpl in *.
  split_and!; [exists []; by rewrite app_nil_r|done|done].
Qed.
Lemma callRaw_calm {R} `{Wire R} path j (out : option R) :
  path ∉ [PathCreateVolume; PathCreateSnapshot] → Pres calm (callRaw path j out : check _).
Proof. intros Hp. unfold callRaw. apply Pres_bind; [apply _|by apply on_env_calm, others|]. intros a. apply Pres_ret, _. Qed.
Lemma call_calm {Req R} `{Wire Req, Wire R} path (req : Req) (x : R) :
  path ∉ [PathCreateVolume; PathCreateSnapshot] → Pres calm (call path req x : check _).
Proof. intros Hp. unfold call. apply Pres_bind; [apply _|by apply callRaw_calm|]. intros a. apply Pres_ret, _. Qed.
Lemma call_none_calm {Req} `{Wire Req} path (req : Req) :
  path ∉ [PathCreateVolume; PathCreateSnapshot] → Pres calm (call_ path req : check _).
Proof. intros Hp. unfold call_. apply Pres_bind; [apply _|by apply callRaw_calm|]. intros a. apply Pres_ret, _. Qed.

Ltac calm_go :=
  repeat first
  [ pres_step
  | apply record_calm
  | apply call_calm; by apply (bool_decide_unpack _)
  | apply call_none_calm; by apply (bool_decide_unpack _)
  | apply on_env_calm; apply host_still
  | lazymatch goal with |- Pres _ (if ?b then _ else _) => destruct b end ].

Lemma check_info_calm info : Pres calm (check_info info : check unit).
Proof. unfold check_info. calm_go. Qed.
Lemma check_stable_calm info : Pres calm (check_stable info : check unit).
Proof. unfold check_stable. calm_go. Qed.
Lemma check_expand_calm caps have v1ref : Pres calm (check_expand cfg caps have v1ref : check unit).
Proof. unfold check_expand. calm_go. Qed.
Lemma check_capacity_calm caps : Pres calm (check_capacity cfg caps : check unit).
Proof. unfold check_capacity. calm_go. Qed.
Lemma check_health_calm caps have v1ref : Pres calm (check_health caps have v1ref : check unit).
Proof. unfold check_health. calm_go. Qed.
Lemma check_list_calm caps have v1ref : Pres calm (check_list caps have v1ref : check unit).
Proof. unfold check_list. calm_go. Qed.
Lemma check_snapshot_list_calm caps have v1ref s1ref : Pres calm (check_snapshot_list caps have v1ref s1ref : check unit).
Proof. unfold check_snapshot_list. calm_go. Qed.
Lemma check_reclaim_calm caps have v1ref : Pres calm (check_reclaim caps have v1ref : check unit).
Proof. unfold check_reclaim. calm_go. Qed.
Lemma check_publish_calm caps have v1ref : Pres calm (check_publish cfg caps have v1ref : check _).
Proof. unfold check_publish. calm_go. Qed.
Lemma check_unpublish_calm caps have pub v1ref : Pres calm (check_unpublish cfg caps have pub v1ref : check unit).
Proof. unfold check_unpublish. calm_go. Qed.
Lemma node_use_calm caps v1ref staging target : Pres calm (node_use caps v1ref staging target : check _).
Proof. unfold node_use, check_data_path, check_node_reclaim. calm_go. Qed.
Lemma node_stage_calm caps v1ref ctx staging target : Pres calm (node_stage cfg caps v1ref ctx staging target : check unit).
Proof. unfold node_stage, node_publish. calm_go; first [apply node_use_calm|calm_go]. Qed.
Lemma make_dirs_calm ds : Pres calm (make_dirs ds : check bool).
Proof. induction ds as [|d ds IH]; simpl; calm_go. apply IH. Qed.
Lemma check_node_calm caps have pub v1ref ctx : Pres calm (check_node cfg caps have pub v1ref ctx : check unit).
Proof. unfold check_node, nodeChecks, node_in. calm_go; first [apply make_dirs_calm|apply node_stage_calm|calm_go]. Qed.
Lemma check_unexercised_calm cs : Pres calm (check_unexercised cs : check unit).
Proof. induction cs as [|[n d] cs IH]; simpl; calm_go; apply IH. Qed.

(** ** The invariant

    While a run is quiet, it has its first volume (from its creation on), and the backend
    holds what it held at the start, what is tracked, and the snapshots [S]. *)
Definition Inv (have : bool) (S : list VolumeRef) (r : runner T) : Prop :=
  quiet (results r) → have = true ∧
    (∀ ref, vols (env r) ref → vols t0 ref ∨ ref ∈ liveVols r) ∧ (∀ ref, snaps (env r) ref → snaps t0 ref ∨ ref ∈ S).
Lemma Inv_calm have S r r' : Inv have S r → calm r r' → Inv have S r'.
Proof.
  intros Hinv ([new Hnew] & Hl & Hv & Hs) Hq. rewrite Hnew in Hq. apply quiet_app in Hq as [Hq _].
  destruct (Hinv Hq) as (Hh & IV & IS). rewrite Hl. unfold none in *. split_and!; [done|naive_solver|naive_solver].
Qed.
Lemma Inv_pres {A} (m : check A) have S r : Pres calm m → Inv have S r → wp m (λ r' x, Inv have S r') r.
Proof. intros Hm Hinv. apply wp_intro. intros r' x Heq. eapply Inv_calm; [exact Hinv|]. specialize (Hm r). by rewrite Heq in Hm. Qed.
Lemma Inv_loud have S r : ¬ quiet (results r) → Inv have S r.
Proof. intros Hn Hq. by destruct Hn. Qed.

(** A create request: what it leaves, for each answer. *)
Lemma refusal_empty : ¬ refusal "".
Proof. unfold refusal. by apply (bool_decide_unpack _). Qed.
Lemma grows_weaken (v s v' s' : VolumeRef → Prop) t t' :
  grows v s t t' → (∀ ref, v ref → v' ref) → (∀ ref, s ref → s' ref) → grows v' s' t t'.
Proof. unfold grows. naive_solver. Qed.
Definition named (err : option cerr) (ref ref' : VolumeRef) : Prop :=
  match err with None => ref' = ref | Some e => ¬ refusal (errCode (Some e)) end.
Lemma created_named {V} `{Wire V} (refOf : V → VolumeRef) a ref :
  created refOf a ref → let '(err, out) := answer a (Some (zero : V)) in named err (refOf (default zero out)) ref.
Proof.
  unfold created. destruct (answer a _) as [[[c st msg|]|] [v|]] eqn:Ha; simpl; try done.
  - intros _. apply refusal_empty.
  - intros _. apply refusal_empty.
  - exfalso. unfold answer in Ha. repeat case_match; simplify_eq.
Qed.
Definition after (r r' : runner T) (v s : VolumeRef → Prop) : Prop :=
  results r' = results r ∧ liveVols r' = liveVols r ∧ grows v s (env r) (env r').
Lemma raw_wp {V} `{Wire V} path j (refOf : V → VolumeRef) (r : runner T) :
  wp (callRaw path j (Some (zero : V)) : check _) (λ r' x, ∃ err v, x = Ok (err, Some v) ∧
    r' = mkRunner (post path j (env r)).1 (results r) (liveVols r) (liveSnaps r) ∧
    ∀ ref, created refOf (post path j (env r)).2 ref → named err (refOf v) ref) r.
Proof.
  unfold callRaw, on_env. apply wp_bind. unfold wp at 1. destruct (post path j (env r)) as [t a]. apply wp_ret.
  pose proof (created_named refOf a) as Hn. destruct (answer a (Some zero)) as [err out] eqn:Ha.
  assert (∃ v, out = Some v) as [v ->] by (unfold answer in Ha; repeat case_match; simplify_eq; eauto).
  by exists err, v.
Qed.
Lemma create_raw j (r : runner T) : asks_create j →
  wp (callRaw PathCreateVolume j (Some (zero : CreateVolumeResponse)) : check _)
    (λ r' x, ∃ err v, x = Ok (err, Some v) ∧ after r r' (named err (vol_of v)) none) r.
Proof.
  intros Hj. eapply wp_mono; [apply (raw_wp _ _ vol_of)|]. intros r' x (err & v & -> & -> & Hn). exists err, v. split; [done|].
  split_and!; [done..|]. by eapply grows_weaken; [by apply creates|exact Hn|].
Qed.
Lemma create_call req (r : runner T) : CreateVolumeRequest_Instance req = inst →
  wp (call PathCreateVolume req (zero : CreateVolumeResponse) : check _)
    (λ r' x, ∃ err v, x = Ok (err, v) ∧ after r r' (named err (vol_of v)) none) r.
Proof.
  intros Hreq. unfold call. apply wp_bind. eapply wp_mono; [apply create_raw; exists req; eauto|].
  intros r' x (err & v & -> & Ha). apply wp_ret. eauto.
Qed.
Lemma snapshot_call req (r : runner T) : VolumeRef_Instance (CreateSnapshotRequest_SourceVolume req) = inst →
  wp (call PathCreateSnapshot req (zero : CreateSnapshotResponse) : check _)
    (λ r' x, ∃ err v, x = Ok (err, v) ∧ after r r' none (named err (snap_of v))) r.
Proof.
  intros Hreq. unfold call. apply wp_bind. eapply wp_mono; [apply (raw_wp _ _ snap_of)|].
  intros r' x (err & v & -> & -> & Hn). apply wp_ret. exists err, v. split; [done|].
  split_and!; [done..|]. eapply grows_weaken; [apply snapshots; by exists req|done|exact Hn].
Qed.
(** A create without a response variable: refused, or it may have made anything. *)
Lemma create_blind req (r : runner T) : CreateVolumeRequest_Instance req = inst →
  wp (call_ PathCreateVolume req : check _)
    (λ r' x, ∃ err, x = Ok err ∧ results r' = results r ∧ liveVols r' = liveVols r ∧
       (refusal (errCode err) → grows none none (env r) (env r'))) r.
Proof.
  intros Hreq. pose proof (creates (enc req) (env r) (ex_intro _ req (conj Hreq (or_introl eq_refl)))) as Hg.
  unfold call_, callRaw, on_env. apply wp_bind, wp_bind. unfold wp at 1.
  destruct (post PathCreateVolume (enc req) (env r)) as [t a]. apply wp_ret, wp_ret. simpl in *. eexists. split_and!; [done..|].
  intros Hr. eapply grows_weaken; [exact Hg|simpl|done]. intros ref. unfold created, answer in *.
  destruct a as [|st data]; simpl in *; [by apply refusal_empty in Hr|]. destruct (bool_decide (st = _)); simpl in *; [by apply refusal_empty in Hr|].
  tauto.
Qed.

Lemma refusal_code err c : refusal c → errCode err = c → refusal (errCode err).
Proof. by intros Hc ->. Qed.
Lemma Inv_record have S r name st fmt : Inv have S r → Inv have S ((record name st fmt : check unit) r).1.
Proof. intros Hinv. eapply Inv_calm; [exact Hinv|]. apply (record_calm name st fmt r). Qed.
Lemma record_loud name st fmt have S r : st = Fail ∨ st = Warn → Inv have S ((record name st fmt : check unit) r).1.
Proof. intros Hst. by apply Inv_loud, quiet_loud. Qed.
Lemma wp_record name st fmt (Q : runner T → res Empty_set unit → Prop) r :
  Q ((record name st fmt : check unit) r).1 (Ok tt) → wp (record name st fmt) Q r.
Proof. done. Qed.
Lemma wp_skip name st fmt have S r : Inv have S r → wp (record name st fmt : check unit) (λ r' _, Inv have S r') r.
Proof. apply Inv_record. Qed.
Lemma wp_loud name st fmt have S r : st = Fail ∨ st = Warn → wp (record name st fmt : check unit) (λ r' _, Inv have S r') r.
Proof. apply record_loud. Qed.
Ltac loud := first [apply wp_loud; by auto | apply record_loud; by auto].

(** After a create answered with [ref], once [ref] is tracked. *)
Lemma Inv_tracked have S r r' ref : Inv have S r → after r r' (named None ref) none → Inv have S ((trackVol ref : check unit) r').1.
Proof.
  intros Hinv (Hr & Hl & Hv & Hs) Hq. simpl in *. rewrite Hr in Hq. destruct (Hinv Hq) as (Hh & IV & IS). rewrite Hl.
  unfold none in *. split_and!; [done| |naive_solver]. intros x [Hx| ->]%Hv; [|set_solver]. destruct (IV x Hx); set_solver.
Qed.
Lemma Inv_tracked_already have S r r' ref : Inv have S r → after r r' (named None ref) none →
  (quiet (results r) → ref ∈ liveVols r) → Inv have S r'.
Proof.
  intros Hinv (Hr & Hl & Hv & Hs) Hin Hq. rewrite Hr in Hq. destruct (Hinv Hq) as (Hh & IV & IS). rewrite Hl.
  unfold none in *. split_and!; [done| |naive_solver]. intros x [Hx| ->]%Hv; auto.
Qed.
Lemma Inv_refused have S r r' : Inv have S r → results r' = results r → liveVols r' = liveVols r →
  grows none none (env r) (env r') → Inv have S r'.
Proof. intros Hinv Hr Hl Hg. eapply Inv_calm; [exact Hinv|]. split_and!; [|done..]. exists []. by rewrite Hr, app_nil_r. Qed.
Lemma grows_refused e ref t t' : refusal (errCode (Some e)) → grows (named (Some e) ref) none t t' → grows none none t t'.
Proof. intros Hr Hg. eapply grows_weaken; [exact Hg|by intros ? Hn; destruct Hn|done]. Qed.
Lemma vol_of_ref v : volRef cfg (CreateVolumeResponse_Location v) (CreateVolumeResponse_Name v) = vol_of v.
Proof. unfold volRef, vol_of. by rewrite Hinst. Qed.
Lemma snap_of_ref v : volRef cfg (CreateSnapshotResponse_Location v) (CreateSnapshotResponse_Name v) = snap_of v.
Proof. unfold volRef, snap_of. by rewrite Hinst. Qed.

Lemma check_create_inv ty r : Inv true [] r →
  wp (check_create cfg ty : check _) (λ r' x, ∃ v have, x = Ok (v, have) ∧ Inv have [] r' ∧
    (quiet (results r') → vol_of v ∈ liveVols r')) r.
Proof.
  intros Hinv. unfold check_create. apply wp_bind. eapply wp_mono; [by apply create_call|].
  intros r' x (err & v & -> & Ha). cbv beta iota zeta. rewrite vol_of_ref.
  assert (∀ fmt, wp (record "volume/create" Fail fmt;; mret (v, false) : check _) (λ r' x, ∃ v have, x = Ok (v, have) ∧
    Inv have [] r' ∧ (quiet (results r') → vol_of v ∈ liveVols r')) r') as Hloud.
  { intros fmt. apply wp_bind, wp_record, wp_ret. eexists _, _. split_and!; [done|by apply record_loud; left|].
    intros Hq. by apply quiet_loud in Hq; [|left]. }
  destruct err as [e|]; [apply Hloud|]. destruct (negb _); [apply Hloud|]. destruct (_ && _); [apply Hloud|].
  apply wp_bind, wp_modify. apply wp_bind, wp_record, wp_ret. eexists _, _. split_and!; [done| |].
  - apply Inv_record. by eapply Inv_tracked.
  - intros _. simpl. set_solver.
Qed.
Lemma check_recreate_inv v have S r : Inv have S r → (quiet (results r) → vol_of v ∈ liveVols r) →
  wp (check_recreate cfg v have : check _) (λ r' _, Inv have S r') r.
Proof.
  intros Hinv Hin. unfold check_recreate. destruct have; simpl; [|by apply wp_skip]. apply wp_bind.
  unfold check_create_idempotent. apply wp_bind. eapply wp_mono; [by apply create_call|].
  intros r1 x (err & w & -> & Ha). cbv beta iota.
  eapply (wp_mono _ (λ r' x, x = Ok tt ∧ Inv true S r')).
  { destruct err as [e|]; [split; [done|by apply record_loud; left]|].
    destruct (bool_decide_reflect (CreateVolumeResponse_Name w ≠ CreateVolumeResponse_Name v)) as [|Hn%dec_stable];
      [split; [done|by apply record_loud; left]|].
    destruct (bool_decide_reflect (CreateVolumeResponse_Location w ≠ CreateVolumeResponse_Location v)) as [|Hl%dec_stable];
      [split; [done|by apply record_loud; left]|].
    split; [done|]. apply Inv_record. eapply Inv_tracked_already; [exact Hinv|exact Ha|].
    unfold vol_of in *. by rewrite Hn, Hl. }
  intros r2 x2 [-> Hinv2]. unfold check_create_conflict. apply wp_bind. eapply wp_mono; [by apply create_blind|].
  intros r3 x3 (err3 & -> & Hr & Hl & Hg). cbv beta iota. destruct (bool_decide_reflect (errCode err3 = CodeAlreadyExists)) as [Hc|].
  - apply wp_skip. eapply Inv_refused; [exact Hinv2|done..|]. apply Hg. rewrite Hc. by apply (bool_decide_unpack _).
  - destruct err3; loud.
Qed.

(** Deleting. *)
Lemma deleteVol_wp ref (r : runner T) :
  wp (deleteVol ref : check _) (λ r' x, ∃ err, x = Ok err ∧ results r' = results r ∧ grows none none (env r) (env r') ∧
    match err with
    | None => liveVols r' = removeRef (liveVols r) ref ∧ ¬ vols (env r') ref
    | Some _ => liveVols r' = liveVols r
    end) r.
Proof.
  pose proof (others PathDeleteVolume (enc (mkDeleteVolumeRequest ref ∅))) as Ho.
  ospecialize (Ho _ (env r)); [by apply (bool_decide_unpack _)|]. pose proof (deletes ref (env r)) as Hd.
  unfold deleteVol, call_, callRaw, on_env. apply wp_bind, wp_bind, wp_bind. unfold wp at 1.
  destruct (post PathDeleteVolume _ (env r)) as [t a]. apply wp_ret, wp_ret. simpl in *.
  destruct a as [|st data]; simpl; [apply wp_ret; by eexists|].
  destruct (bool_decide_reflect (st = server.StatusOK)) as [->|]; simpl; [|apply wp_ret; by eexists].
  apply wp_bind, wp_modify, wp_ret. eexists. split_and!; [done..|]. simpl. split; [done|by eapply Hd].
Qed.
Lemma deleteSnap_wp ref (r : runner T) :
  wp (deleteSnap ref : check _) (λ r' x, ∃ err, x = Ok err ∧ calm r r' ∧ (err = None → ¬ snaps (env r') ref)) r.
Proof.
  pose proof (others PathDeleteSnapshot (enc (mkDeleteSnapshotRequest ref ∅))) as Ho.
  ospecialize (Ho _ (env r)); [by apply (bool_decide_unpack _)|]. pose proof (deletes_snap ref (env r)) as Hd.
  unfold deleteSnap, call_, callRaw, on_env. apply wp_bind, wp_bind, wp_bind. unfold wp at 1.
  destruct (post PathDeleteSnapshot _ (env r)) as [t a]. apply wp_ret, wp_ret. simpl in *.
  assert (∀ l, calm r (mkRunner t (results r) (liveVols r) l)) as Hcalm.
  { intros l. split_and!; [exists []; by rewrite app_nil_r|done|done]. }
  destruct a as [|st data]; simpl; [apply wp_ret; by eexists|].
  destruct (bool_decide_reflect (st = server.StatusOK)) as [->|]; simpl; [|apply wp_ret; by eexists].
  apply wp_bind, wp_modify, wp_ret. eexists. split_and!; [done..|]. intros _. by eapply Hd.
Qed.

Lemma Inv_deleted have S r r' ref : Inv have S r → results r' = results r → grows none none (env r) (env r') →
  liveVols r' = removeRef (liveVols r) ref → ¬ vols (env r') ref → Inv have S r'.
Proof.
  intros Hinv Hr [Hv Hs] Hl Hd Hq. rewrite Hr in Hq. destruct (Hinv Hq) as (Hh & IV & IS). unfold none in *.
  split_and!; [done| |naive_solver]. intros x Hx. rewrite Hl. destruct (Hv x Hx) as [Hx0|[]]. destruct (IV x Hx0) as [?|Hin]; [by left|].
  right. apply list_elem_of_filter. split; [by intros ->|done].
Qed.
Lemma check_unknown_field_inv have S r : Inv have S r → wp (check_unknown_field cfg : check _) (λ r' _, Inv have S r') r.
Proof.
  intros Hinv. unfold check_unknown_field. apply wp_bind. eapply wp_mono.
  { apply create_raw. eexists. split; [|by eauto]. exact Hinst. }
  intros r1 x (err & v & -> & Ha). cbn [default]. destruct err as [e|]; [loud|]. rewrite vol_of_ref.
  apply wp_bind, wp_record, wp_bind, wp_modify, wp_bind. eapply wp_mono; [by apply deleteVol_wp|].
  intros r2 x (err & -> & Hr & Hg & Hd). cbv beta iota. destruct err as [e|]; [loud|]. apply wp_ret. destruct Hd as [Hl Hd].
  eapply Inv_deleted; [|exact Hr|exact Hg|exact Hl|exact Hd].
  apply (Inv_tracked have S _ _ _ (Inv_record have S r "volume/unknown-field" Pass "unknown request field ignored" Hinv)).
  destruct Ha as (Hr1 & Hl1 & Hg1). split_and!; [simpl; by rewrite Hr1|done|done].
Qed.
Lemma check_restore_inv ty caps haveS s1ref have S r : Inv have S r →
  wp (check_restore cfg ty caps haveS s1ref : check _) (λ r' _, Inv have S r') r.
Proof.
  intros Hinv. unfold check_restore. destruct (negb _); [by apply wp_skip|]. destruct (negb haveS); [by apply wp_skip|].
  apply wp_bind. eapply wp_mono; [by apply create_call|]. intros r1 x (err & v & -> & Ha). cbv beta iota.
  destruct err as [e|]; [loud|]. destruct (negb _); [loud|]. rewrite vol_of_ref. apply wp_bind, wp_modify, wp_skip. by eapply Inv_tracked.
Qed.
Lemma check_clone_inv have v1ref S r : Inv have S r → wp (check_clone cfg have v1ref : check _) (λ r' _, Inv have S r') r.
Proof.
  intros Hinv. unfold check_clone. destruct (negb have); [by apply wp_skip|].
  apply wp_bind. eapply wp_mono; [by apply create_call|]. intros r1 x (err & v & -> & Ha). cbv beta iota. rewrite vol_of_ref.
  destruct err as [e|]; [|apply wp_bind, wp_modify, wp_skip; by eapply Inv_tracked].
  destruct (bool_decide_reflect (errCode (Some e) = CodeInvalidArg)) as [Hc|]; [|loud].
  destruct Ha as (Hr & Hl & Hg). apply wp_skip. eapply Inv_refused; [exact Hinv|done..|]. eapply grows_refused; [|exact Hg].
  rewrite Hc. by apply (bool_decide_unpack _).
Qed.

(** Snapshots: [S] is the one created, if it was. *)
Definition kept (haveS : bool) (ref : VolumeRef) : list VolumeRef := if haveS then [ref] else [].
Lemma Inv_snapshot have r r' ref : Inv have [] r → after r r' none (named None ref) → Inv have [ref] r'.
Proof.
  intros Hinv (Hr & Hl & Hv & Hs) Hq. rewrite Hr in Hq. destruct (Hinv Hq) as (Hh & IV & IS). rewrite Hl.
  unfold none in *. split_and!; [done|naive_solver|]. intros x [Hx| ->]%Hs; [|set_solver]. destruct (IS x Hx); [by left|set_solver].
Qed.
Lemma Inv_snapshot_again have r r' ref : Inv have [ref] r → after r r' none (named None ref) → Inv have [ref] r'.
Proof.
  intros Hinv (Hr & Hl & Hv & Hs) Hq. rewrite Hr in Hq. destruct (Hinv Hq) as (Hh & IV & IS). rewrite Hl.
  unfold none in *. split_and!; [done|naive_solver|]. intros x [Hx| ->]%Hs; [|set_solver]. by apply IS.
Qed.
Lemma check_snapshot_repeat_inv have req s1 r : Inv have [snap_of s1] r →
  VolumeRef_Instance (CreateSnapshotRequest_SourceVolume req) = inst →
  wp (check_snapshot_repeat req s1 : check _) (λ r' x, x = Ok tt ∧ Inv have [snap_of s1] r') r.
Proof.
  intros Hinv Hreq. unfold check_snapshot_repeat. apply wp_bind. eapply wp_mono; [by apply snapshot_call|].
  intros r1 x (err & w & -> & Ha). cbv beta iota. destruct err as [e|]; [split; [done|by apply record_loud; left]|].
  destruct (bool_decide_reflect (CreateSnapshotResponse_Name w ≠ CreateSnapshotResponse_Name s1)) as [|Hn%dec_stable];
    [split; [done|by apply record_loud; left]|].
  destruct (bool_decide_reflect (CreateSnapshotResponse_Location w ≠ CreateSnapshotResponse_Location s1)) as [|Hl%dec_stable];
    [split; [done|by apply record_loud; left]|].
  split; [done|]. apply Inv_record. eapply Inv_snapshot_again; [exact Hinv|]. unfold snap_of in *. by rewrite <-Hn, <-Hl.
Qed.
Lemma check_snapshot_inv ty caps have v1ref r : Inv have [] r → VolumeRef_Instance v1ref = inst →
  wp (check_snapshot cfg ty caps have v1ref : check _)
    (λ r' x, ∃ s1 haveS, x = Ok (s1, haveS) ∧ Inv have (kept haveS (snap_of s1)) r') r.
Proof.
  intros Hinv Hv1. unfold check_snapshot.
  assert (∀ s1 st fmt r, Inv have [] ((record "snapshot/create" st fmt : check _) r).1 →
    wp (record "snapshot/create" st fmt;; mret (s1, false) : check _)
    (λ r' x, ∃ s1 haveS, x = Ok (s1, haveS) ∧ Inv have (kept haveS (snap_of s1)) r') r) as Hnone.
  { intros s1 st fmt r' Hr. apply wp_bind, wp_record, wp_ret. eexists _, _. by split. }
  destruct (negb _); [by apply Hnone, Inv_record|]. destruct (negb have); [by apply Hnone, Inv_record|]. cbv zeta.
  apply wp_bind. eapply wp_mono; [by apply snapshot_call|]. intros r1 x (err & s1 & -> & Ha). cbv beta iota. rewrite snap_of_ref.
  destruct err as [e|].
  - destruct (bool_decide_reflect (errCode (Some e) = CodeUnsupported)) as [Hc|]; [|apply Hnone, record_loud; by left].
    destruct Ha as (Hr & Hl & Hg). apply Hnone, Inv_record. eapply Inv_refused; [exact Hinv|done..|].
    eapply grows_weaken; [exact Hg|done|]. intros ref Hn. unfold named in Hn. destruct Hn. rewrite Hc. by apply (bool_decide_unpack _).
  - destruct (negb _); [apply Hnone, record_loud; by left|].
    apply wp_bind, wp_modify, wp_bind, wp_record, wp_bind. eapply wp_mono.
    { apply check_snapshot_repeat_inv; [|done]. apply Inv_record. eapply Inv_snapshot; [exact Hinv|]. exact Ha. }
    intros r2 x [-> Hr2]. apply wp_ret. eexists _, _. by split.
Qed.
Lemma check_snapshot_delete_inv have haveS ref r : Inv have (kept haveS ref) r → wp (check_snapshot_delete haveS ref : check _) (λ r' _, Inv have [] r') r.
Proof.
  intros Hinv. unfold check_snapshot_delete. destruct haveS; simpl in Hinv; [|by apply wp_skip].
  apply wp_bind. eapply wp_mono; [by apply deleteSnap_wp|]. intros r1 x (err & -> & Hcalm & Hd). cbv beta iota.
  destruct err as [e|]; [loud|]. apply wp_bind. eapply wp_mono; [by apply deleteSnap_wp|]. intros r2 x (err & -> & Hcalm2 & _). cbv beta iota.
  destruct err as [e|]; [loud|]. apply wp_skip. eapply Inv_calm; [|exact Hcalm2].
  pose proof (Inv_calm _ _ _ _ Hinv Hcalm) as Hinv1. intros Hq. destruct (Hinv1 Hq) as (Hh & IV & IS). split_and!; [done..|].
  intros x Hx. destruct (IS x Hx) as [?|Hin]; [by left|]. apply list_elem_of_singleton in Hin as ->. by destruct (Hd eq_refl).
Qed.

(** The last deletes: of the volumes, only those of [L] can be left. *)
Definition Left (L : list VolumeRef) (r : runner T) : Prop :=
  quiet (results r) → (∀ ref, vols (env r) ref → vols t0 ref ∨ ref ∈ L) ∧ (∀ ref, snaps (env r) ref → snaps t0 ref).
Lemma Left_loud L r name st fmt : st = Fail ∨ st = Warn → Left L ((record name st fmt : check unit) r).1.
Proof. intros Hst Hq. by apply quiet_loud in Hq. Qed.
Lemma Left_step L r r' : Left L r → (∃ new, results r' = results r ++ new) → grows none none (env r) (env r') → Left L r'.
Proof.
  intros HL [new Hr] [Hv Hs] Hq. rewrite Hr in Hq. apply quiet_app in Hq as [Hq _]. destruct (HL Hq). unfold none in *. naive_solver.
Qed.
Lemma Left_same L r r' : Left L r → results r' = results r → grows none none (env r) (env r') → Left L r'.
Proof. intros HL Hr. eapply Left_step; [done|]. exists []. by rewrite app_nil_r. Qed.
Lemma Left_record L r name st fmt : Left L r → Left L ((record name st fmt : check unit) r).1.
Proof. intros HL. eapply Left_step; [exact HL|by eexists|reflexivity]. Qed.
Lemma Left_deleted L ref r : Left (ref :: L) r → ¬ vols (env r) ref → Left L r.
Proof.
  intros HL Hn Hq. destruct (HL Hq) as [Hv Hs]. split; [|done]. intros x Hx.
  destruct (Hv x Hx) as [?|[->|?]%elem_of_cons]; [by left|by destruct Hn|by right].
Qed.
(** A delete that reports its failure. *)
Lemma delete_left L ref r : Left (ref :: L) r →
  wp (deleteVol ref : check _) (λ r' x, ∃ err, x = Ok err ∧ Left (ref :: L) r' ∧ (err = None → Left L r')) r.
Proof.
  intros HL. eapply wp_mono; [by apply deleteVol_wp|]. intros r' x (err & -> & Hr & Hg & Hd).
  assert (Left (ref :: L) r') as HL' by (by eapply Left_same). exists err. split_and!; [done..|].
  intros ->. destruct Hd as [_ Hd]. by eapply Left_deleted.
Qed.
Lemma delete_others_left v1ref refs r : Left (v1ref :: refs) r →
  wp (for_each (delete_other v1ref) refs : check _) (λ r' x, x = Ok tt ∧ Left [v1ref] r') r.
Proof.
  revert r. induction refs as [|ref refs IH]; intros r HL; simpl; [by apply wp_ret|]. apply wp_bind. unfold delete_other.
  assert (Left (ref :: v1ref :: refs) r) as HL'.
  { intros Hq. destruct (HL Hq) as [Hv Hs]. split; [|done]. intros x Hx. destruct (Hv x Hx); set_solver. }
  destruct (bool_decide_reflect (ref ≠ v1ref)) as [Hne|Heq%dec_stable]; cbv beta iota.
  - apply wp_bind. eapply wp_mono; [by apply delete_left|]. intros r1 x (err & -> & _ & Hd). cbv beta iota.
    destruct err as [e|]; [apply wp_record|apply wp_ret]; apply IH; [apply Left_loud; by right|by apply Hd].
  - subst. apply wp_ret, IH. intros Hq. destruct (HL Hq) as [Hv Hs]. split; [|done]. intros x Hx. destruct (Hv x Hx); set_solver.
Qed.
Lemma check_v1_delete_left v1ref r : Left [v1ref] r →
  wp (check_v1_delete v1ref : check _) (λ r' x, x = Ok tt ∧ Left [] r') r.
Proof.
  intros HL. unfold check_v1_delete. apply wp_bind. eapply wp_mono; [by apply delete_left|]. intros r1 x (err & -> & _ & Hd).
  cbv beta iota. destruct err as [e|]; [split; [done|apply Left_loud; by left]|]. specialize (Hd eq_refl).
  apply wp_bind. eapply wp_mono; [by apply deleteVol_wp|]. intros r2 x (err & -> & Hr & Hg & _). cbv beta iota.
  destruct err as [e|]; [split; [done|apply Left_loud; by left]|]. split; [done|]. apply Left_record. by eapply Left_same.
Qed.
Lemma check_delete_left have v1ref r : Inv have [] r → wp (check_delete cfg have v1ref : check _) (λ r' x, Left [] r') r.
Proof.
  intros Hinv. unfold check_delete. destruct have; [|apply wp_bind, wp_record, wp_record].
  - apply wp_bind, wp_gets, wp_bind. eapply wp_mono.
    { apply delete_others_left. intros Hq. destruct (Hinv Hq) as (_ & Hv & Hs). split; [set_solver|].
      intros x Hx. destruct (Hs x Hx); set_solver. }
    intros r1 x [-> HL]. cbv beta iota. apply wp_bind. eapply wp_mono; [by apply check_v1_delete_left|]. intros r2 x [-> HL2].
    apply wp_bind. eapply wp_mono; [by apply deleteVol_wp|]. intros r3 x (err & -> & Hr & Hg & _). cbv beta iota.
    assert (Left [] r3) by (by eapply Left_same). destruct err; by apply wp_record, Left_record.
  - intros Hq. simpl in Hq. rewrite <-app_assoc in Hq. apply quiet_app in Hq as [Hq _]. by destruct (Hinv Hq).
Qed.

(** ** The run *)
Lemma wp_calm {A B} (m : check A) (f : A → check B) have S Q r : Pres calm m → Inv have S r →
  (∀ a r', Inv have S r' → wp (f a) Q r') → wp (m ≫= f) Q r.
Proof.
  intros Hm Hinv Hf. apply wp_bind. eapply wp_mono; [by eapply Inv_pres|]. intros r' [a|[]] Hr'. by apply Hf.
Qed.
Lemma checks_left info r : Inv true [] r → wp (checks cfg info : check _) (λ r' _, Left [] r') r.
Proof.
  intros Hinv. unfold checks. cbv zeta.
  eapply wp_calm; [apply check_info_calm|exact Hinv|]. clear r Hinv. intros _ r Hinv.
  eapply wp_calm; [apply check_stable_calm|exact Hinv|]. clear r Hinv. intros _ r Hinv.
  apply wp_bind. eapply wp_mono; [by apply check_create_inv|]. clear r Hinv. intros r x (v1 & have & -> & Hinv & Hin). cbv beta iota.
  rewrite vol_of_ref. apply wp_bind. eapply wp_mono; [by apply (check_recreate_inv v1 have [] r)|]. clear r Hinv Hin. intros r [[]|[]] Hinv.
  apply wp_bind. eapply wp_mono; [by apply (check_unknown_field_inv have [] r)|]. clear r Hinv. intros r [[]|[]] Hinv.
  eapply wp_calm; [apply check_expand_calm|exact Hinv|]. clear r Hinv. intros _ r Hinv.
  eapply wp_calm; [apply check_capacity_calm|exact Hinv|]. clear r Hinv. intros _ r Hinv.
  eapply wp_calm; [apply check_health_calm|exact Hinv|]. clear r Hinv. intros _ r Hinv.
  eapply wp_calm; [apply check_list_calm|exact Hinv|]. clear r Hinv. intros _ r Hinv.
  apply wp_bind. eapply wp_mono; [by apply check_snapshot_inv|]. clear r Hinv. intros r x (s1 & haveS & -> & Hinv). cbv beta iota.
  rewrite snap_of_ref. set (S := kept haveS (snap_of s1)) in *.
  eapply wp_calm; [apply check_snapshot_list_calm|exact Hinv|]. clear r Hinv. intros _ r Hinv.
  apply wp_bind. eapply wp_mono; [by apply (check_restore_inv (Info_Type info) (Info_Capabilities info) haveS (snap_of s1) have S r)|].
  clear r Hinv. intros r [[]|[]] Hinv.
  apply wp_bind. eapply wp_mono; [by apply (check_clone_inv have (vol_of v1) S r)|]. clear r Hinv. intros r [[]|[]] Hinv.
  eapply wp_calm; [apply check_reclaim_calm|exact Hinv|]. clear r Hinv. intros _ r Hinv.
  eapply wp_calm; [apply check_publish_calm|exact Hinv|]. clear r Hinv. intros [ctx pub] r Hinv. cbv beta iota.
  eapply wp_calm; [apply check_node_calm|exact Hinv|]. clear r Hinv. intros _ r Hinv.
  eapply wp_calm; [apply check_unpublish_calm|exact Hinv|]. clear r Hinv. intros _ r Hinv.
  apply wp_bind. eapply wp_mono; [by apply (check_snapshot_delete_inv have haveS (snap_of s1) r)|]. clear r Hinv. intros r [[]|[]] Hinv.
  apply wp_bind. eapply wp_mono; [by apply (check_delete_left have (vol_of v1) r)|]. clear r Hinv. intros r [[]|[]] HL.
  apply wp_intro. intros r' x Heq. pose proof (check_unexercised_calm (unexercised cfg (Info_Capabilities info)) r) as Hc.
  rewrite Heq in Hc. destruct Hc as (Hnew & _ & Hg). by eapply Left_step.
Qed.

Lemma cleanup_left r : Left [] r → wp (cleanup : check _) (λ r' _, Left [] r') r.
Proof.
  assert (∀ (f : VolumeRef → check unit) refs r, (∀ ref r, Left [] r → wp (f ref) (λ r' x, x = Ok tt ∧ Left [] r') r) → Left [] r →
    wp (for_each f refs) (λ r' x, x = Ok tt ∧ Left [] r') r) as Heach.
  { intros f refs. induction refs as [|ref refs IH]; intros r1 Hf HL; simpl; [by apply wp_ret|]. apply wp_bind.
    eapply wp_mono; [by apply Hf|]. intros r2 x [-> HL2]. by apply IH. }
  intros HL. unfold cleanup. apply wp_bind, wp_gets, wp_bind. eapply wp_mono.
  { apply Heach; [|exact HL]. intros ref r1 HL1. apply wp_bind. eapply wp_mono; [by apply deleteSnap_wp|].
    intros r2 x (err & -> & (Hr & _ & Hg) & _). apply wp_ret. split; [done|]. by eapply Left_step. }
  intros r1 x [-> HL1]. apply wp_bind, wp_gets. eapply (wp_mono _ (λ r' x, x = Ok tt ∧ Left [] r')); [|by intros ?? [_ ?]].
  apply Heach; [|exact HL1]. intros ref r2 HL2. apply wp_bind. eapply wp_mono; [by apply deleteVol_wp|].
  intros r3 x (err & -> & Hr & Hg & _). apply wp_ret. split; [done|]. by eapply Left_same.
Qed.
Lemma info_loop_calm fuel deadline info r r' x : info_loop pause fuel deadline info r = Some (r', x) → calm r r'.
Proof.
  revert info r. induction fuel as [|fuel IH]; intros info r; simpl; [done|].
  pose proof (call_calm PathInfo tt info) as Hc. ospecialize (Hc _ r); [by apply (bool_decide_unpack _)|].
  destruct (call PathInfo tt info r) as [r1 [[[e|] i1]|[]]]; simpl in Hc; [|by intros [= <- <-]].
  case_bool_decide; [by intros [= <- <-]|]. pose proof (on_env_calm pause (proj1 host_still) r1) as Hp.
  destruct (on_env pause r1) as [r2 [[e'|]|[]]]; simpl in Hp; [intros [= <- <-]; by etrans|].
  intros Hrun. etrans; [exact Hc|]. etrans; [exact Hp|]. by eapply IH.
Qed.
Lemma random_prefix_still c : still (random_prefix c).
Proof.
  intros t. unfold random_prefix. case_bool_decide; [|reflexivity]. pose proof (proj1 (proj2 host_still) 3 t) as Hr.
  by destruct (randRead 3 t) as [t2 [b|e]].
Qed.
Lemma run_left r r' : Inv true [] r → run pause cfg r = Some (r', Ok tt) → Left [] r'.
Proof.
  unfold run. intros Hinv. destruct (info_loop _ _ _ _ r) as [[r1 [info|e]]|] eqn:Hloop; [|done|done]. intros [= <-].
  apply info_loop_calm in Hloop. pose proof (Inv_calm _ _ _ _ Hinv Hloop) as Hinv1.
  pose proof (checks_left info r1 Hinv1) as Hc. unfold wp, mbind, M_bind in *. destruct (checks cfg info r1) as [r2 [[]|[]]].
  pose proof (cleanup_left r2 Hc) as Hl. unfold wp in Hl. by destruct (cleanup r2).
Qed.
End honest.

Section runs.
  Context {T : Type} `{Socket T} `{Host T} `{Files T} `{Env T} (pause : T → T * option error).

(** C34: a quiet run leaves nothing: where the plugin's answers mean what the contract says
    (a create makes at most the volume it answers with, a refusal makes nothing, a successful
    delete removes), a run that reports no failure and no warning leaves no volume and no
    snapshot that the backend did not hold before. *)
Theorem quiet_run_leaves_nothing (vols snaps : T → VolumeRef → Prop) cfg t t' rs :
  Honest pause (c_Instance cfg) vols snaps →
  Run pause cfg t = Some (t', Ok rs) → quiet rs →
  (∀ ref, vols t' ref → vols t ref) ∧ (∀ ref, snaps t' ref → snaps t ref).
Proof.
  intros Hh. unfold Run. destruct (_ || _); [done|]. destruct (random_prefix cfg t) as [t1 [prefix|e]] eqn:Hp; [|done].
  destruct (run _ _ _) as [[r [[]|e]]|] eqn:Hrun; [|done|done]. intros [= <- <-] Hq.
  pose proof (random_prefix_still pause (c_Instance cfg) vols snaps cfg t) as Hst. rewrite Hp in Hst. destruct Hst as [Hv Hs].
  eapply (run_left pause (c_Instance cfg) vols snaps (with_defaults cfg prefix) t eq_refl) in Hrun.
  - destruct (Hrun Hq) as [Hl Hr]. split; [|exact Hr]. intros ref Hr0. destruct (Hl ref Hr0) as [?|Hin]; [done|by apply elem_of_nil in Hin].
  - intros _. split_and!; [done|..]; intros ref Hr0; [destruct (Hv ref Hr0) as [?|[]]|destruct (Hs ref Hr0) as [?|[]]]; by left.
Qed.

(** A clock that no call turns back and that a wait moves on. *)
Definition sane_clock : Prop :=
  (∀ path j t, now t ≤ now (post path j t).1)%Z ∧ (∀ t, now t + half_second ≤ now (pause t).1)%Z.
Lemma info_loop_ends fuel deadline info r : sane_clock → (deadline < now (env r) + half_second * Z.of_nat fuel)%Z →
  ∃ r' x, info_loop pause (S fuel) deadline info r = Some (r', x).
Proof.
  intros [Hpost Hpause]. revert info r. induction fuel as [|fuel IH]; intros info r Hd;
    specialize (Hpost PathInfo (enc tt) (env r)); cbn [info_loop]; unfold call, callRaw, on_env, mbind, M_bind, mret, M_ret;
    destruct (post PathInfo (enc tt) (env r)) as [t a]; simpl in *; destruct (answer a (Some info)) as [[e|] i]; simpl; eauto.
  - case_bool_decide; [eauto|lia].
  - case_bool_decide; [eauto|]. specialize (Hpause t). destruct (pause t) as [t' [e'|]]; [eauto|]. apply IH. simpl in *. lia.
Qed.
(** A run ends: on such a clock the loop for /info makes at most 22 attempts in its window of
    ten seconds, and everything after it is bounded by what it has created. *)
Theorem Run_ends cfg t : sane_clock → ∃ t' x, Run pause cfg t = Some (t', x).
Proof.
  intros Hs. unfold Run. destruct (_ || _); [eauto|]. destruct (random_prefix cfg t) as [t1 [prefix|e]]; [|eauto]. unfold run.
  destruct (info_loop_ends 21 (now t1 + info_window) zero (mkRunner t1 [] [] []) Hs) as (r & x & Heq).
  { unfold half_second, info_window. simpl. lia. }
  simpl in *. unfold info_fuel. rewrite Heq. destruct x as [info|e]; eauto.
Qed.
End runs.
End conformancesafety.
