(* ===== verification/ConformanceBench.v ===== *)
(** * Plugins under the conformance suite

    A plugin that keeps its volumes in memory, served by the SDK: its answers are honest, so
    the theorem on quiet runs applies to it.  The LVM plugin on the host of LVMHost.v: the
    suite passes it and leaves the volume group as it was. *)
From Stdlib Require Import Ascii.
From S2P Require Import Prelude GoStrings GoErrors VolumeID Json Protocol Server Metrics Backend Client Host GoOs GoPath Sha256 GoCrypto KMS LVM LVMHost Conformance ConformanceSafety.

Module conformancebench.
Import bardplugin conformance conformancesafety.

(** ** A plugin in memory *)
Record store := mkStore { s_vols : gmap string Z; s_snaps : gset string }.
Definition sop A := (M store perror A).
Definition named_ok (n : string) : sop unit := guard_ (bool_decide (utf8_ok n)) (Errorf CodeInvalidArg "name").
Definition store_create (req : CreateVolumeRequest) : sop CreateVolumeResponse :=
  let n := CreateVolumeRequest_Name req in
  named_ok n;;
  vs ← gets s_vols;
  match vs !! n with
  | Some size => guard_ (bool_decide (size = CreateVolumeRequest_CapacityBytes req)) (Errorf CodeAlreadyExists "size")
  | None => modify (λ s, mkStore (<[n := CreateVolumeRequest_CapacityBytes req]> (s_vols s)) (s_snaps s))
  end;;
  mret (mkCreateVolumeResponse "pool" n 0 ∅ ∅).
Definition store_delete (req : DeleteVolumeRequest) : sop unit :=
  modify (λ s, mkStore (delete (VolumeRef_Name (DeleteVolumeRequest_Volume req)) (s_vols s)) (s_snaps s)).
Definition store_snapshot (req : CreateSnapshotRequest) : sop CreateSnapshotResponse :=
  let n := CreateSnapshotRequest_Name req in
  named_ok n;;
  modify (λ s, mkStore (s_vols s) ({[n]} ∪ s_snaps s));;
  mret (mkCreateSnapshotResponse "pool" n "" 0 0 true).
Definition store_delete_snap (req : DeleteSnapshotRequest) : sop unit :=
  modify (λ s, mkStore (s_vols s) (s_snaps s ∖ {[VolumeRef_Name (DeleteSnapshotRequest_Snapshot req)]})).
Definition store_done {Req Resp} `{Wire Resp} (_ : Req) : sop Resp := mret zero.
Definition store_plugin : Backend store :=
  mkBackend (mkInfo "mem" "" (mkCapabilities false false false true false false false false false false false false false false false false))
    store_create store_delete store_done store_snapshot store_delete_snap store_done store_done store_done store_done store_done
    None None None None None None None None None None None None.

Definition no_file : os_error := mkOsError true "no such file".
Section files.
  Context {S : Type}.
#[local] Instance no_files : Files S := {|
  MkdirTemp _ _ s := (s, Ok "/tmp/bench"); Remove _ s := (s, None); RemoveAll _ s := (s, None); Rename _ _ s := (s, None);
  ReadFile _ s := (s, Err no_file); WriteFile _ _ _ s := (s, None); Stat _ s := (s, Err no_file); ReadDir _ s := (s, Err no_file);
  Chmod _ _ s := (s, None); Statfs _ s := (s, Err no_file) |}.
#[local] Instance no_env : Env S := {|
  readFile _ s := (s, Err ""); getenv _ _ := ""; randRead _ s := (s, Ok "abc"); now _ := 0%Z; httpDo _ s := (s, Err "");
  kmipExchange _ _ s := (s, KDialFailed); pem_certs _ := true; key_pair _ _ s := (s, Ok tt);
  get_token _ _ := ("", 0%Z); put_token _ _ s := s; get_creds _ _ := (mkCreds "" "" "", 0%Z); put_creds _ _ s := s |}.
#[local] Instance sdk_socket (b : Backend S) : Socket S := λ path j s,
  let '(s', r) := server.serve (server.newMux b) path (Some (server.mkBody (json_len j) (Some j))) s in
  (s', Reply (server.r_status r) (server.r_body r)).
Definition waits (s : S) : S * option error := (s, None).
End files.
#[global] Existing Instance no_files.
#[global] Existing Instance no_env.
#[global] Instance store_host : Host store := {|
  Host.Run _ _ s := (s, mkOutput "" (Some "not found")); MkdirAll _ _ s := (s, None); UnixNow _ := 0%Z |}.
#[global] Instance store_socket : Socket store := sdk_socket store_plugin.

Definition store_vols (s : store) (ref : VolumeRef) : Prop :=
  ∃ n, ref = mkVolumeRef "east" "pool" n ∧ utf8_ok n ∧ is_Some (s_vols s !! n).
Definition store_snaps (s : store) (ref : VolumeRef) : Prop :=
  ∃ n, ref = mkVolumeRef "east" "pool" n ∧ utf8_ok n ∧ n ∈ s_snaps s.
Abbreviation same := (grows store_vols store_snaps none none).

Lemma serve_at {P} (R : P → P → Prop) (m : server.mux P) path b p : (∀ q, R q q) →
  (∀ k h, (k, h) ∈ m → k = path → R p (h b p).1) → R p (server.serve m path b p).1.
Proof.
  intros Hrefl Hm. unfold server.serve. induction m as [|[k h] m IH]; simpl; [apply Hrefl|].
  case_bool_decide; [apply (Hm k h); [apply list_elem_of_here|done]|]. apply IH. intros k' h' Hin. apply Hm. by apply list_elem_of_further.
Qed.
Lemma handle_at {Req Resp P} `{Wire Req, Wire Resp} (R : P → P → Prop) (fn : Req → M P perror Resp) b p : (∀ q, R q q) →
  (∀ req, R p (fn req p).1) → R p (server.handle fn b p).1.
Proof.
  intros Hrefl Hfn. unfold server.handle. destruct (server.decode_request b) as [req|]; [|apply Hrefl].
  specialize (Hfn req). by destruct (fn req p) as [p' [r|e]].
Qed.
Lemma same_refl s : same s s.
Proof. split; by left. Qed.
Lemma store_delete_same req s : same s (store_delete req s).1.
Proof.
  split; [|by left]. intros ref (n & -> & Hu & Hn). left. exists n. split_and!; [done..|]. simpl in Hn.
  apply lookup_delete_is_Some in Hn. tauto.
Qed.
Lemma store_delete_snap_same req s : same s (store_delete_snap req s).1.
Proof. split; [by left|]. intros ref (n & -> & Hu & Hn). left. exists n. split_and!; [done..|]. simpl in Hn. set_solver. Qed.
Lemma store_routes : server.newMux store_plugin = server.required_routes store_plugin.
Proof. reflexivity. Qed.
Lemma store_others path j : path ∉ [PathCreateVolume; PathCreateSnapshot] → still store_vols store_snaps (post path j).
Proof.
  intros Hp s. unfold post, store_socket, sdk_socket. set (b := Some _). rewrite store_routes.
  pose proof (serve_at same (server.required_routes store_plugin) path b s same_refl) as Hs.
  destruct (server.serve _ _ _ s) as [s' r]. apply Hs. clear Hs. intros k h Hin ->. unfold server.required_routes in Hin.
  repeat (apply elem_of_cons in Hin as [[= -> ->]|Hin];
    [first [apply same_refl|by destruct Hp; apply (bool_decide_unpack _)
           |apply (handle_at same); [apply same_refl|intros req; first [apply store_delete_same|apply store_delete_snap_same|apply same_refl]]]|]).
  by apply elem_of_nil in Hin.
Qed.
(** The answer of a method, through the socket. *)
Lemma store_post {Req Resp} `{Wire Req, Wire Resp} path (fn : Req → sop Resp) j s :
  server.route (server.required_routes store_plugin) path = Some (server.handle fn) →
  post path j s = (s, Reply 400 (Some (enc (mkError CodeInvalidArg "decode request: ")))) ∨
  ∃ req, server.decode_request (Some (server.mkBody (json_len j) (Some j))) = Some req ∧
    post path j s = ((fn req s).1, match (fn req s).2 with
      | Ok resp => Reply server.StatusOK (Some (enc resp))
      | Err e => Reply (server.r_status (server.writeErr e)) (Some (enc (server.error_body e))) end).
Proof.
  intros Hr. unfold post, store_socket, sdk_socket, server.serve. rewrite store_routes, Hr. unfold server.handle.
  destruct (server.decode_request _) as [req|]; [right|by left]. exists req. split; [done|]. by destruct (fn req s) as [s' [x|e]].
Qed.
Lemma answer_sent {R} `{WireLaws R} (x : R) : wire_ok x → answer (Reply server.StatusOK (Some (enc x))) (Some (zero : R)) = (None, Some x).
Proof. intros Hx. unfold answer. rewrite bool_decide_eq_true_2 by done. unfold plugin.unmarshal. by rewrite dec_enc. Qed.
Lemma created_sent {V} `{WireLaws V} (refOf : V → VolumeRef) (v : V) : wire_ok v → created refOf (Reply server.StatusOK (Some (enc v))) (refOf v).
Proof. intros Hv. unfold created. by rewrite answer_sent. Qed.
Lemma store_create_cases req s : (store_create req s).1 = s ∨
  utf8_ok (CreateVolumeRequest_Name req) ∧
  store_create req s = (mkStore (<[CreateVolumeRequest_Name req := CreateVolumeRequest_CapacityBytes req]> (s_vols s)) (s_snaps s),
    Ok (mkCreateVolumeResponse "pool" (CreateVolumeRequest_Name req) 0 ∅ ∅)).
Proof.
  unfold store_create, named_ok, mbind, M_bind, guard_. case_bool_decide as Hu; [|by left]. simpl.
  destruct (s_vols s !! _) as [size|]; [case_bool_decide; by left|by right].
Qed.
Lemma store_creates j s :
  grows store_vols store_snaps (created (vol_of "east") (post PathCreateVolume j s).2) none s (post PathCreateVolume j s).1.
Proof.
  destruct (store_post PathCreateVolume store_create j s eq_refl) as [->|(req & _ & ->)]; [split; by left|]. cbn [fst snd].
  destruct (store_create_cases req s) as [->|[Hu ->]]; [split; by left|]. cbn [fst snd]. split; [|by left].
  intros ref (n & -> & Hn' & Hs). cbn [s_vols] in Hs. destruct (decide (n = CreateVolumeRequest_Name req)) as [->|Hne].
  - right. apply (created_sent (vol_of "east") (mkCreateVolumeResponse "pool" (CreateVolumeRequest_Name req) 0 ∅ ∅)).
    split_and!; try done; by apply (bool_decide_unpack _).
  - left. exists n. split_and!; [done..|]. by rewrite lookup_insert_ne in Hs.
Qed.
Lemma store_snapshot_cases req s : (store_snapshot req s).1 = s ∨
  utf8_ok (CreateSnapshotRequest_Name req) ∧
  store_snapshot req s = (mkStore (s_vols s) ({[CreateSnapshotRequest_Name req]} ∪ s_snaps s),
    Ok (mkCreateSnapshotResponse "pool" (CreateSnapshotRequest_Name req) "" 0 0 true)).
Proof. unfold store_snapshot, named_ok, mbind, M_bind, guard_. case_bool_decide as Hu; [by right|by left]. Qed.
Lemma store_snapshots j s :
  grows store_vols store_snaps none (created (snap_of "east") (post PathCreateSnapshot j s).2) s (post PathCreateSnapshot j s).1.
Proof.
  destruct (store_post PathCreateSnapshot store_snapshot j s eq_refl) as [->|(req & _ & ->)]; [split; by left|]. cbn [fst snd].
  destruct (store_snapshot_cases req s) as [->|[Hu ->]]; [split; by left|]. cbn [fst snd]. split; [by left|].
  intros ref (n & -> & Hn' & Hs). cbn [s_snaps] in Hs. destruct (decide (n = CreateSnapshotRequest_Name req)) as [->|Hne].
  - right. apply (created_sent (snap_of "east") (mkCreateSnapshotResponse "pool" (CreateSnapshotRequest_Name req) "" 0 0 true)).
    split_and!; try done; by apply (bool_decide_unpack _).
  - left. exists n. split_and!; [done..|]. set_solver.
Qed.
Lemma decoded {Req} `{WireLaws Req} (req req' : Req) : wire_ok req →
  server.decode_request (Some (server.mkBody (json_len (enc req)) (Some (enc req)))) = Some req' → req' = req.
Proof. intros Hw. unfold server.decode_request. simpl. case_bool_decide; [done|]. rewrite dec_enc by done. by intros [= <-]. Qed.
Lemma store_deletes ref s data :
  (post PathDeleteVolume (enc (mkDeleteVolumeRequest ref ∅)) s).2 = Reply server.StatusOK data →
  ¬ store_vols (post PathDeleteVolume (enc (mkDeleteVolumeRequest ref ∅)) s).1 ref.
Proof.
  destruct (store_post PathDeleteVolume store_delete (enc (mkDeleteVolumeRequest ref ∅)) s eq_refl) as [->|(req & Hd & ->)]; [done|].
  intros _ (n & -> & Hu & Hn). apply decoded in Hd; [|split; [split_and!; try done; by apply (bool_decide_unpack _)|done]].
  subst req. simpl in Hn. rewrite lookup_delete_eq in Hn. by destruct Hn.
Qed.
Lemma store_deletes_snap ref s data :
  (post PathDeleteSnapshot (enc (mkDeleteSnapshotRequest ref ∅)) s).2 = Reply server.StatusOK data →
  ¬ store_snaps (post PathDeleteSnapshot (enc (mkDeleteSnapshotRequest ref ∅)) s).1 ref.
Proof.
  destruct (store_post PathDeleteSnapshot store_delete_snap (enc (mkDeleteSnapshotRequest ref ∅)) s eq_refl) as [->|(req & Hd & ->)]; [done|].
  intros _ (n & -> & Hu & Hn). apply decoded in Hd; [|split; [split_and!; try done; by apply (bool_decide_unpack _)|done]].
  subst req. simpl in Hn. set_solver.
Qed.
#[global] Instance store_honest : Honest waits "east" store_vols store_snaps.
Proof.
  split.
  - intros j s _. apply store_creates.
  - intros j s _. apply store_snapshots.
  - apply store_others.
  - apply store_deletes.
  - apply store_deletes_snap.
  - split_and!; intros; intros s; apply same_refl.
Qed.

Definition ex_config : Config := mkConfig "/run/mem.sock" "east" ∅ "" 0 "" false "" "".
Definition ex_held : store := mkStore {["pvc-1" := 4096%Z]} {["snap-1"]}.
(** A run against the plugin in memory is quiet, and leaves what was there. *)
Lemma quiet_run_leaves_nothing_witness :
  ∃ s rs, Run waits ex_config ex_held = Some (s, Ok rs) ∧ quiet rs ∧
    (∀ ref, store_vols s ref → store_vols ex_held ref) ∧ (∀ ref, store_snaps s ref → store_snaps ex_held ref).
Proof.
  destruct (Run waits ex_config ex_held) as [[s [rs|e]]|] eqn:Hrun; [|vm_compute in Hrun; discriminate Hrun..].
  assert (quiet rs) as Hq by (vm_compute in Hrun; injection Hrun as _ <-; apply (bool_decide_unpack _); vm_compute; exact I).
  exists s, rs. split; [done|]. split; [exact Hq|]. exact (quiet_run_leaves_nothing waits store_vols store_snaps ex_config ex_held s rs store_honest Hrun Hq).
Defined.

(** A volume that fails its first check is never deleted: with a plugin that answers a
    smaller capacity than asked, the run ends with a failure and the volume stays. *)
Definition short_create (req : CreateVolumeRequest) : sop CreateVolumeResponse :=
  v ← store_create req;
  mret (mkCreateVolumeResponse (CreateVolumeResponse_Location v) (CreateVolumeResponse_Name v) 1 ∅ ∅).
Definition short_plugin : Backend store :=
  mkBackend (Info_ store_plugin) short_create store_delete store_done store_snapshot store_delete_snap store_done store_done store_done
    store_done store_done None None None None None None None None None None None None.
Lemma rejected_volume_leaks :
  ∃ s rs, @Run store (sdk_socket short_plugin) _ _ _ waits ex_config (mkStore ∅ ∅) = Some (s, Ok rs) ∧ Failed rs = true ∧
    map_to_list (s_vols s) = [("conf-616263-v1", 16777216%Z)].
Proof. eexists _, _. vm_compute. split_and!; reflexivity. Qed.

(** ** The LVM plugin *)
Abbreviation Volumes := (gmap (string * string) lvmhost.LV).
#[local] Instance lvm_host : Host Volumes := {|
  Host.Run name args m := if bool_decide (name = "vgs") then (m, mkOutput "  107374182400" None) else lvmhost.fake_run name args m;
  MkdirAll _ _ m := (m, None); UnixNow _ := 1700000000%Z |}.
#[local] Instance lvm_socket : Socket Volumes := sdk_socket (lvmplugin.New (H := Volumes) lvmhost.ex_instances).
Definition lvm_config : Config := mkConfig "/run/lvm.sock" "east" ∅ "" 0 "" false "" "".
(** The suite runs 21 checks on it, of which 18 pass and three do not apply, and leaves the
    volume group as it was. *)
Lemma lvm_conforms : ∃ rs, Run waits lvm_config (∅ : Volumes) = Some (∅, Ok rs) ∧ quiet rs ∧
  (length rs, length (filter (λ r, rs_Status r = Pass) rs)) = (21, 18).
Proof. eexists. split; [vm_compute; reflexivity|]. split; [apply (bool_decide_unpack _); vm_compute; exact I|vm_compute; reflexivity]. Qed.

(** The largest capacity does not survive the detour through [float64]: the number that
    arrives is no [int64], and a plugin that decodes it refuses the request. *)
Lemma unknown_field_overflows :
  any_number int64_max = 9223372036854776000%Z ∧ ¬ int64_ok (any_number int64_max) ∧
  any_number 9007199254740993 = 9007199254740992%Z.
Proof. split_and!; [vm_compute; reflexivity|by apply (bool_decide_unpack _); vm_compute|vm_compute; reflexivity]. Qed.
End conformancebench.
