(* ===== verification/FakeRun.v ===== *)
(** * The simulated cluster (internal/fakerun)

    An in-memory simulation of the commands the Ceph RBD plugin runs, as the repository's
    tests use it.  An index out of range panics: [None].  A map is visited in the order of an
    instance of [MapIter]; every answer that depends on a visit is sorted. *)
From Stdlib Require Import Ascii.
From S2P Require Import Prelude GoStrings GoPath Json JsonText Protocol Host LVM.

Module fakerun.
Import jsontext.

Record Runner := mkRunner {
  images : gmap string Z; namespaces : gset string; snaps : gset string;
  devBySpec : strmap; specByDev : strmap; formatted : gset string; mounts : strmap;
  luks : gset string; luksOpen : strmap; imageMeta : strmap; parents : strmap;
  trashedSnaps : gset string; nextDev : Z;
}.
Definition New : Runner := mkRunner ∅ ∅ ∅ ∅ ∅ ∅ ∅ ∅ ∅ ∅ ∅ ∅ 0.
Definition set_images (f : gmap string Z → gmap string Z) (r : Runner) : Runner :=
  mkRunner (f (images r)) (namespaces r) (snaps r) (devBySpec r) (specByDev r) (formatted r) (mounts r) (luks r) (luksOpen r)
    (imageMeta r) (parents r) (trashedSnaps r) (nextDev r).
Definition set_namespaces (f : gset string → gset string) (r : Runner) : Runner :=
  mkRunner (images r) (f (namespaces r)) (snaps r) (devBySpec r) (specByDev r) (formatted r) (mounts r) (luks r) (luksOpen r)
    (imageMeta r) (parents r) (trashedSnaps r) (nextDev r).
Definition set_snaps (f : gset string → gset string) (r : Runner) : Runner :=
  mkRunner (images r) (namespaces r) (f (snaps r)) (devBySpec r) (specByDev r) (formatted r) (mounts r) (luks r) (luksOpen r)
    (imageMeta r) (parents r) (trashedSnaps r) (nextDev r).
Definition set_devices (f g : strmap → strmap) (n : Z) (r : Runner) : Runner :=
  mkRunner (images r) (namespaces r) (snaps r) (f (devBySpec r)) (g (specByDev r)) (formatted r) (mounts r) (luks r) (luksOpen r)
    (imageMeta r) (parents r) (trashedSnaps r) n.
Definition set_formatted (f : gset string → gset string) (r : Runner) : Runner :=
  mkRunner (images r) (namespaces r) (snaps r) (devBySpec r) (specByDev r) (f (formatted r)) (mounts r) (luks r) (luksOpen r)
    (imageMeta r) (parents r) (trashedSnaps r) (nextDev r).
Definition set_mounts (f : strmap → strmap) (r : Runner) : Runner :=
  mkRunner (images r) (namespaces r) (snaps r) (devBySpec r) (specByDev r) (formatted r) (f (mounts r)) (luks r) (luksOpen r)
    (imageMeta r) (parents r) (trashedSnaps r) (nextDev r).
Definition set_luks (f : gset string → gset string) (g : strmap → strmap) (r : Runner) : Runner :=
  mkRunner (images r) (namespaces r) (snaps r) (devBySpec r) (specByDev r) (formatted r) (mounts r) (f (luks r)) (g (luksOpen r))
    (imageMeta r) (parents r) (trashedSnaps r) (nextDev r).
Definition set_imageMeta (f : strmap → strmap) (r : Runner) : Runner :=
  mkRunner (images r) (namespaces r) (snaps r) (devBySpec r) (specByDev r) (formatted r) (mounts r) (luks r) (luksOpen r)
    (f (imageMeta r)) (parents r) (trashedSnaps r) (nextDev r).
Definition set_parents (f : strmap → strmap) (r : Runner) : Runner :=
  mkRunner (images r) (namespaces r) (snaps r) (devBySpec r) (specByDev r) (formatted r) (mounts r) (luks r) (luksOpen r)
    (imageMeta r) (f (parents r)) (trashedSnaps r) (nextDev r).
Definition set_trashedSnaps (f : gset string → gset string) (r : Runner) : Runner :=
  mkRunner (images r) (namespaces r) (snaps r) (devBySpec r) (specByDev r) (formatted r) (mounts r) (luks r) (luksOpen r)
    (imageMeta r) (parents r) (f (trashedSnaps r)) (nextDev r).

(** ** Arguments *)
Definition valued : list string :=
  ["-c"; "--conf"; "-m"; "--id"; "--keyfile"; "--key-file"; "--type"; "-t"; "-o"; "--size"; "--namespace"].
(** [positional]: [skip] is whether the argument is a flag's value. *)
Fixpoint positional_go (skip : bool) (args : list string) : list string :=
  match args with
  | [] => []
  | a :: args =>
      if skip then positional_go false args
      else if bool_decide (a ∈ valued) then positional_go true args
      else if has_prefix "-" a then positional_go false args
      else a :: positional_go false args
  end.
Definition positional (args : list string) : list string := positional_go false args.
Fixpoint flagValue (args : list string) (flag : string) : string :=
  match args with
  | a :: ((b :: _) as rest) => if bool_decide (a = flag) then b else flagValue rest flag
  | _ => ""
  end.
(** [strconv.ParseInt]'s value counts, its error does not. *)
Fixpoint flagValueMiB (args : list string) (flag : string) : Z :=
  match args with
  | a :: ((b :: _) as rest) => if bool_decide (a = flag) then lvmplugin.ParseInt_value b else flagValueMiB rest flag
  | _ => 0
  end.
Definition splitSpec (spec : string) : string * string * string :=
  match split_on "/" spec with
  | [pool; ns; image] => (pool, ns, image)
  | [pool; image] => (pool, "", image)
  | _ => ("", "", spec)
  end.
(** The image of a snapshot's spec. *)
Definition snap_image (spec : string) : option string := fst <$> cut_on "@" spec.
Definition nul : ascii := ascii_of_N 0.
Definition meta_key (spec key : string) : string := spec +:+ String nul key.
Definition mib (n : Z) : Z := wrap64 (n * 1048576).

(** A command's result; [None] is a panic. *)
Abbreviation ran := (option (Runner * output)).
Definition says (out : string) (r : Runner) : ran := Some (r, mkOutput out None).
Definition fails (err : string) (r : Runner) : ran := Some (r, mkOutput "" (Some err)).
Definition index {A} (l : list A) (i : nat) (f : A → ran) : ran := match l !! i with Some a => f a | None => None end.
Definition lastArg (l : list string) (f : string → ran) : ran := match last l with Some a => f a | None => None end.

(** ** Clones and the trash of their snapshots *)
Definition hasCloneChildren (img : string) (r : Runner) : bool :=
  existsb (λ kv, bool_decide (kv.2 = img)) (map_to_list (parents r)).
Definition releaseTrashedSnaps (img : string) (r : Runner) : Runner :=
  if bool_decide (img = "") || hasCloneChildren img r then r
  else set_trashedSnaps (filter (λ spec, snap_image spec ≠ Some img)) r.

(** [fmt]'s %q, for printable text: quotes and backslashes are escaped. *)
Fixpoint q_body (s : string) : string :=
  match s with
  | EmptyString => ""
  | String a s => if bool_decide (a = dquote) || bool_decide (a = backslash) then String backslash (String a (q_body s)) else String a (q_body s)
  end.
Definition q (s : string) : string := String dquote (q_body s +:+ of_char dquote).
Definition quoted (s : string) : string := String dquote (s +:+ of_char dquote).
Definition no_image (img : string) : string := "rbd: error opening image " +:+ img +:+ ": (2) No such file or directory".

(** ** [rbd], a subcommand at a time; [pos] are the positional arguments *)
Definition rbd_info (pos : list string) (r : Runner) : ran :=
  index pos 1 (λ img,
    match images r !! img with
    | None => fails (no_image img) r
    | Some size =>
        match parents r !! img with
        | Some parent =>
            let '(pool, ns, name) := splitSpec parent in
            says ("{" +:+ quoted "size" +:+ ":" +:+ Itoa (mib size) +:+ "," +:+ quoted "parent" +:+ ":{" +:+ quoted "pool" +:+ ":" +:+ q pool
              +:+ "," +:+ quoted "pool_namespace" +:+ ":" +:+ q ns +:+ "," +:+ quoted "image" +:+ ":" +:+ q name
              +:+ "," +:+ quoted "snapshot" +:+ ":" +:+ quoted "snap" +:+ "}}") r
        | None => says ("{" +:+ quoted "size" +:+ ":" +:+ Itoa (mib size) +:+ "}") r
        end
    end).
Definition rbd_status (pos : list string) (r : Runner) : ran :=
  index pos 1 (λ img,
    match devBySpec r !! img with
    | Some _ => says ("{" +:+ quoted "watchers" +:+ ":[{" +:+ quoted "address" +:+ ":" +:+ quoted "10.0.0.1:0/1" +:+ "}]}") r
    | None => says ("{" +:+ quoted "watchers" +:+ ":[]}") r
    end).
Definition rbd_size (args pos : list string) (r : Runner) : ran :=
  index pos 1 (λ img, says "" (set_images <[img := flagValueMiB args "--size"]> r)).
(** [clone] and [cp]: the size and the metadata of the source. *)
Definition meta_of (spec : string) (m : strmap) : list (string * string) :=
  omap (λ kv, match cut_on nul kv.1 with
              | Some (s, key) => if bool_decide (s = spec) then Some (key, kv.2) else None
              | None => None
              end) (map_to_list m).
Definition rbd_copy (pos : list string) (r : Runner) : ran :=
  index pos 0 (λ cmd, index pos 1 (λ src, index pos 2 (λ dest,
    let base := match cut_on "@" src with Some (b, _) => b | None => src end in
    let r := set_images (λ m, <[dest := default 0%Z (m !! base)]> m) r in
    let r := set_imageMeta (λ m, foldl (λ m kv, <[meta_key dest kv.1 := kv.2]> m) m (meta_of base m)) r in
    says "" (if bool_decide (cmd = "clone") then set_parents <[dest := base]> r else r)))).
Definition rbd_flatten (pos : list string) (r : Runner) : ran :=
  index pos 1 (λ img, says "" (releaseTrashedSnaps (mget (parents r) img) (set_parents (delete img) r))).
Definition has_snap (img : string) (specs : gset string) : bool :=
  existsb (λ spec, bool_decide (snap_image spec = Some img)) (base.elements specs).
Definition rbd_rm (pos : list string) (r : Runner) : ran :=
  index pos 1 (λ img,
    match images r !! img with
    | None => fails (no_image img) r
    | Some _ =>
        if has_snap img (snaps r) then fails "rbd: image has snapshots - not removing" r
        else if has_snap img (trashedSnaps r)
        then fails "rbd: image has snapshots with linked clones - these must be deleted or flattened before the image can be removed" r
        else says "" (releaseTrashedSnaps (mget (parents r) img) (set_parents (delete img) (set_images (delete img) r)))
    end).
Definition rbd_map (pos : list string) (r : Runner) : ran :=
  index pos 1 (λ spec,
    match devBySpec r !! spec with
    | Some dev => says dev r
    | None =>
        let dev := "/dev/rbd" +:+ Itoa (nextDev r) in
        says dev (set_devices <[spec := dev]> <[dev := spec]> (nextDev r + 1)%Z r)
    end).
Definition rbd_unmap (pos : list string) (r : Runner) : ran :=
  index pos 1 (λ arg,
    match specByDev r !! arg with
    | Some spec => says "" (set_devices (delete spec) (delete arg) (nextDev r) r)
    | None =>
        match devBySpec r !! arg with
        | Some dev => says "" (set_devices (delete arg) (delete dev) (nextDev r) r)
        | None => says "" r
        end
    end).

(** Listings, sorted; a nil slice is null. *)
Definition array (nil_slice : bool) (l : list json) : string :=
  print (match l with [] => if nil_slice then JNull else JArr [] | _ => JArr l end).
Definition by_name {A} (key : A → string) (l : list A) : list A := merge_sort (key_le key) l.
Section listings.
  Context `{MapIter}.
Definition rbd_children (pos : list string) (r : Runner) : ran :=
  index pos 1 (λ img,
    let out := omap (λ kv : string * string, if bool_decide (kv.2 = img) then Some (splitSpec kv.1) else None) (range (parents r)) in
    says (array false (map (λ c, JObj [("pool", enc c.1.1); ("pool_namespace", enc c.1.2); ("image", enc c.2)]) (by_name snd out))) r).
Definition rbd_ls (args pos : list string) (r : Runner) : ran :=
  index pos 1 (λ pool,
    let ns := flagValue args "--namespace" in
    let prefix := if bool_decide (ns = "") then pool +:+ "/" else pool +:+ "/" +:+ ns +:+ "/" in
    let names := omap (λ kv : string * Z, match cut_prefix prefix kv.1 with
                               | Some rest => if contains_char "/" rest then None else Some rest
                               | None => None
                               end) (range (images r)) in
    says (array true (map enc (by_name id names))) r).
Definition rbd_namespace (pos : list string) (r : Runner) : ran :=
  index pos 1 (λ sub,
    if bool_decide (sub = "ls") then
      index pos 2 (λ pool,
        let out := omap (λ ns, match cut_on "/" ns with
                               | Some (p, n) => if bool_decide (p = pool) then Some n else None
                               | None => None
                               end) (base.elements (namespaces r)) in
        says (array true (map (λ n, JObj [("name", enc n)]) (by_name id out))) r)
    else if bool_decide (sub = "create") then index pos 2 (λ ns, says "" (set_namespaces ({[ns]} ∪.) r))
    else says "" r).
Definition rbd_snap_ls (img : string) (r : Runner) : ran :=
  let out := omap (λ spec, match cut_on "@" spec with
                           | Some (base, snap) => if bool_decide (base = img) then Some snap else None
                           | None => None
                           end) (base.elements (snaps r)) in
  let size := mib (default 0%Z (images r !! img)) in
  says (array true (map (λ n, JObj [("name", enc n); ("size", enc size)]) (by_name id out))) r.
Definition rbd_snap_rm (spec : string) (r : Runner) : ran :=
  if bool_decide (spec ∈ snaps r) then
    let r := set_snaps (.∖ {[spec]}) r in
    says "" (match snap_image spec with
             | Some base => if hasCloneChildren base r then set_trashedSnaps ({[spec]} ∪.) r else r
             | None => r
             end)
  else fails "rbd: failed to remove snapshot: (2) No such file or directory" r.
Definition rbd_snap (pos : list string) (r : Runner) : ran :=
  index pos 1 (λ sub,
    if bool_decide (sub = "create") then index pos 2 (λ spec, says "" (set_snaps ({[spec]} ∪.) r))
    else if bool_decide (sub = "rm") then index pos 2 (λ spec, rbd_snap_rm spec r)
    else if bool_decide (sub = "ls") then index pos 2 (λ img, rbd_snap_ls img r)
    else says "" r).
Definition rbd_meta (pos : list string) (r : Runner) : ran :=
  index pos 1 (λ sub,
    if bool_decide (sub = "set") then
      index pos 2 (λ spec, index pos 3 (λ key, index pos 4 (λ v, says "" (set_imageMeta <[meta_key spec key := v]> r))))
    else if bool_decide (sub = "get") then
      index pos 2 (λ spec, index pos 3 (λ key,
        match imageMeta r !! meta_key spec key with
        | Some v => says v r
        | None => fails ("rbd: failed to get metadata " +:+ key +:+ " of image : (2) No such file or directory") r
        end))
    else if bool_decide (sub = "remove") then
      index pos 2 (λ spec, index pos 3 (λ key,
        match imageMeta r !! meta_key spec key with
        | Some _ => says "" (set_imageMeta (delete (meta_key spec key)) r)
        | None => fails "rbd: removing metadata failed: (2) No such file or directory" r
        end))
    else says "" r).

Definition rbd (args : list string) (r : Runner) : ran :=
  let pos := positional args in
  match pos with
  | [] => fails "fakerun: rbd: no subcommand" r
  | cmd :: _ =>
      if bool_decide (cmd = "info") then rbd_info pos r
      else if bool_decide (cmd = "status") then rbd_status pos r
      else if bool_decide (cmd = "create") then rbd_size args pos r
      else if bool_decide (cmd ∈ ["clone"; "cp"]) then rbd_copy pos r
      else if bool_decide (cmd = "flatten") then rbd_flatten pos r
      else if bool_decide (cmd = "rm") then rbd_rm pos r
      else if bool_decide (cmd = "resize") then rbd_size args pos r
      else if bool_decide (cmd = "map") then rbd_map pos r
      else if bool_decide (cmd = "unmap") then rbd_unmap pos r
      else if bool_decide (cmd = "config") then says "" r
      else if bool_decide (cmd = "children") then rbd_children pos r
      else if bool_decide (cmd = "image-meta") then rbd_meta pos r
      else if bool_decide (cmd = "ls") then rbd_ls args pos r
      else if bool_decide (cmd = "namespace") then rbd_namespace pos r
      else if bool_decide (cmd = "snap") then rbd_snap pos r
      else fails ("fakerun: rbd: unhandled subcommand " +:+ q cmd) r
  end.
End listings.

(** ** The other commands *)
Definition newline : string := String (ascii_of_N 10) "".
Definition cryptsetup (args : list string) (r : Runner) : ran :=
  let pos := positional args in
  match pos with
  | [] => fails "fakerun: cryptsetup: no subcommand" r
  | cmd :: _ =>
      if bool_decide (cmd = "isLuks") then
        index pos 1 (λ dev, if bool_decide (dev ∈ luks r) then says "" r else fails ("Device " +:+ dev +:+ " is not a valid LUKS device.") r)
      else if bool_decide (cmd = "luksFormat") then index pos 1 (λ dev, says "" (set_luks ({[dev]} ∪.) id r))
      else if bool_decide (cmd = "open") then index pos 2 (λ m, index pos 1 (λ dev, says "" (set_luks id <[m := dev]> r)))
      else if bool_decide (cmd = "status") then
        index pos 1 (λ m, match luksOpen r !! m with
                          | Some dev => says ("/dev/mapper/" +:+ m +:+ " is active." +:+ newline +:+ "  device: " +:+ dev +:+ newline) r
                          | None => fails ("/dev/mapper/" +:+ m +:+ " is inactive.") r
                          end)
      else if bool_decide (cmd = "close") then index pos 1 (λ m, says "" (set_luks id (delete m) r))
      else fails ("fakerun: cryptsetup: unhandled subcommand " +:+ q cmd) r
  end.
Definition mount (args : list string) (r : Runner) : ran :=
  match reverse (positional args) with
  | dst :: src :: _ => says "" (set_mounts <[dst := src]> r)
  | _ => fails "fakerun: mount: need source and target" r
  end.
Definition umount (args : list string) (r : Runner) : ran :=
  match last (positional args) with
  | None => fails "fakerun: umount: need target" r
  | Some dst =>
      match mounts r !! dst with
      | None => fails ("umount: " +:+ dst +:+ ": not mounted") r
      | Some _ => says "" (set_mounts (delete dst) r)
      end
  end.
Definition blkid (args : list string) (r : Runner) : ran :=
  lastArg args (λ dev, if bool_decide (dev ∈ formatted r) then says ("ext4" +:+ newline) r
                       else fails ("blkid: " +:+ dev +:+ ": not a filesystem") r).
Definition mkfs (args : list string) (r : Runner) : ran :=
  lastArg args (λ dev, says "" (set_formatted ({[dev]} ∪.) r)).
Definition findmnt (args : list string) (r : Runner) : ran :=
  lastArg args (λ target,
    match mounts r !! target with
    | None => fails ("findmnt: " +:+ target +:+ " not found") r
    | Some dev => if bool_decide ("FSTYPE" ∈ args) then says ("ext4" +:+ newline) r
                  else says (default dev (mounts r !! dev) +:+ newline) r
    end).
Definition blockdev (args : list string) (r : Runner) : ran :=
  lastArg args (λ dev, says (match specByDev r !! dev with Some _ => "1073741824" | None => "0" end +:+ newline) r).

(** [Run]. *)
Definition Run `{MapIter} (name : string) (args : list string) (r : Runner) : ran :=
  if bool_decide (name ∈ ["rbd"; "rbd-nbd"]) then rbd args r
  else if bool_decide (name = "cryptsetup") then cryptsetup args r
  else if bool_decide (name = "mount") then mount args r
  else if bool_decide (name = "umount") then umount args r
  else if bool_decide (name = "blkid") then blkid args r
  else if bool_decide (name = "findmnt") then findmnt args r
  else if bool_decide (name ∈ ["mkfs.ext4"; "mkfs.xfs"]) then mkfs args r
  else if bool_decide (name = "blockdev") then blockdev args r
  else if bool_decide (name ∈ ["resize2fs"; "xfs_growfs"]) then says "" r
  else fails ("fakerun: unexpected command " +:+ q name) r.

(** ** The simulated cluster is consistent

    An image and its device find each other, and every device has a number handed out. *)
Definition devices (r : Runner) : strmap * strmap * Z := (devBySpec r, specByDev r, nextDev r).
Definition consistent (r : Runner) : Prop :=
  (∀ spec dev, devBySpec r !! spec = Some dev ↔ specByDev r !! dev = Some spec) ∧
  (∀ dev, is_Some (specByDev r !! dev) → ∃ n, (0 ≤ n < nextDev r)%Z ∧ dev = "/dev/rbd" +:+ Itoa n) ∧ (0 ≤ nextDev r)%Z.
Definition keeps (x : ran) (r : Runner) : Prop := ∀ r' o, x = Some (r', o) → devices r' = devices r.

Lemma keeps_says out r r0 : devices r = devices r0 → keeps (says out r) r0.
Proof. by intros Hd r' o [= <- _]. Qed.
Lemma keeps_fails err r : keeps (fails err r) r.
Proof. by intros r' o [= <- _]. Qed.
Lemma keeps_index {A} (l : list A) i f r : (∀ a, keeps (f a) r) → keeps (index l i f) r.
Proof. intros Hf. unfold index. destruct (l !! i); [apply Hf|done]. Qed.
Lemma keeps_last l f r : (∀ a, keeps (f a) r) → keeps (lastArg l f) r.
Proof. intros Hf. unfold lastArg. destruct (last l); [apply Hf|done]. Qed.
Lemma release_devices img r : devices (releaseTrashedSnaps img r) = devices r.
Proof. unfold releaseTrashedSnaps. by destruct (_ || _). Qed.
Ltac keeps_go :=
  repeat first
  [ apply keeps_fails
  | apply keeps_says; first [reflexivity | by rewrite release_devices]
  | apply keeps_index; intros
  | apply keeps_last; intros
  | lazymatch goal with
    | |- keeps (match ?x with _ => _ end) _ => destruct x
    | |- keeps (let _ := _ in _) _ => cbv zeta
    end ].
Section consistent.
  Context `{MapIter}.
Lemma rbd_info_keeps pos r : keeps (rbd_info pos r) r.
Proof. unfold rbd_info. keeps_go. Qed.
Lemma rbd_status_keeps pos r : keeps (rbd_status pos r) r.
Proof. unfold rbd_status. keeps_go. Qed.
Lemma rbd_size_keeps args pos r : keeps (rbd_size args pos r) r.
Proof. unfold rbd_size. keeps_go. Qed.
Lemma rbd_copy_keeps pos r : keeps (rbd_copy pos r) r.
Proof. unfold rbd_copy. do 3 (apply keeps_index; intros). cbv zeta. apply keeps_says. by case_bool_decide. Qed.
Lemma rbd_flatten_keeps pos r : keeps (rbd_flatten pos r) r.
Proof. unfold rbd_flatten. keeps_go. Qed.
Lemma rbd_rm_keeps pos r : keeps (rbd_rm pos r) r.
Proof. unfold rbd_rm. keeps_go. Qed.
Lemma rbd_children_keeps pos r : keeps (rbd_children pos r) r.
Proof. unfold rbd_children. keeps_go. Qed.
Lemma rbd_ls_keeps args pos r : keeps (rbd_ls args pos r) r.
Proof. unfold rbd_ls. keeps_go. Qed.
Lemma rbd_namespace_keeps pos r : keeps (rbd_namespace pos r) r.
Proof. unfold rbd_namespace. keeps_go. Qed.
Lemma rbd_snap_keeps pos r : keeps (rbd_snap pos r) r.
Proof.
  unfold rbd_snap, rbd_snap_rm, rbd_snap_ls. keeps_go. apply keeps_says. destruct (snap_image _); [|done]. by destruct (hasCloneChildren _ _).
Qed.
Lemma rbd_meta_keeps pos r : keeps (rbd_meta pos r) r.
Proof. unfold rbd_meta. keeps_go. Qed.

Lemma consistent_devices r r' : devices r' = devices r → consistent r → consistent r'.
Proof. unfold devices, consistent. intros [= -> -> ->]. done. Qed.
Lemma rbd_map_consistent pos r r' o : consistent r → rbd_map pos r = Some (r', o) → consistent r'.
Proof.
  intros (Hinv & Hnum & Hnext). unfold rbd_map, index. destruct (pos !! 1) as [spec|]; [|done].
  destruct (devBySpec r !! spec) as [dev|] eqn:Hs; [by intros [= <- _]|]. set (dev := "/dev/rbd" +:+ Itoa (nextDev r)). intros [= <- _].
  assert (specByDev r !! dev = None) as Hd.
  { apply eq_None_not_Some. intros (n & Hn & Heq)%Hnum. unfold dev in Heq. apply (inj (String.app "/dev/rbd")) in Heq. apply (inj pretty) in Heq. lia. }
  split_and!; simpl; [| |lia].
  - intros s d. rewrite !lookup_insert_Some. split.
    + intros [[<- <-]|[Hne Hsd%Hinv]]; [by left|]. right. split; [|done]. intros <-. by rewrite Hd in Hsd.
    + intros [[<- <-]|[Hne Hsd%Hinv]]; [by left|]. right. split; [|done]. intros <-. by rewrite Hs in Hsd.
  - intros d Hd'. apply lookup_insert_is_Some in Hd' as [<-|[_ Hd']].
    + exists (nextDev r). split; [lia|done].
    + destruct (Hnum d Hd') as (n & Hn & ->). exists n. split; [lia|done].
Qed.
Lemma removed_consistent spec dev r : consistent r → devBySpec r !! spec = Some dev →
  consistent (set_devices (delete spec) (delete dev) (nextDev r) r).
Proof.
  intros (Hinv & Hnum & Hnext) Hsd. split_and!; simpl; [| |done].
  - intros s d. rewrite !lookup_delete_Some. split; intros [Hne Hl].
    + split; [|by apply Hinv]. intros <-. apply Hinv in Hl. apply Hinv in Hsd. congruence.
    + split; [|by apply Hinv]. intros <-. apply Hinv in Hl. congruence.
  - intros d Hd. apply lookup_delete_is_Some in Hd as [_ Hd]. by apply Hnum.
Qed.
Lemma rbd_unmap_consistent pos r r' o : consistent r → rbd_unmap pos r = Some (r', o) → consistent r'.
Proof.
  intros Hc. unfold rbd_unmap, index. destruct (pos !! 1) as [arg|]; [|done].
  destruct (specByDev r !! arg) as [spec|] eqn:Hs; [intros [= <- _]; apply removed_consistent; [done|by apply Hc]|].
  destruct (devBySpec r !! arg) as [dev|] eqn:Hd; intros [= <- _]; [by apply removed_consistent|done].
Qed.
Lemma keeps_consistent x r r' o : keeps x r → consistent r → x = Some (r', o) → consistent r'.
Proof. intros Hk Hc Hx. eapply consistent_devices; [by eapply Hk|done]. Qed.
Lemma rbd_consistent args r r' o : consistent r → rbd args r = Some (r', o) → consistent r'.
Proof.
  intros Hc. unfold rbd. destruct (positional args) as [|cmd rest] eqn:Hp; [apply (keeps_consistent _ r); [apply keeps_fails|exact Hc]|]. rewrite <-Hp.
  repeat (case_bool_decide;
    [first [by apply rbd_map_consistent|by apply rbd_unmap_consistent
           |apply (keeps_consistent _ r); [first [apply rbd_info_keeps|apply rbd_status_keeps|apply rbd_size_keeps|apply rbd_copy_keeps|apply rbd_flatten_keeps
             |apply rbd_rm_keeps|apply rbd_children_keeps|apply rbd_ls_keeps|apply rbd_namespace_keeps|apply rbd_snap_keeps|apply rbd_meta_keeps
             |by apply keeps_says]|exact Hc]]|]).
  apply (keeps_consistent _ r); [apply keeps_fails|exact Hc].
Qed.
Lemma Run_consistent name args r r' o : consistent r → Run name args r = Some (r', o) → consistent r'.
Proof.
  intros Hc. unfold Run. case_bool_decide; [by apply rbd_consistent|]. apply (keeps_consistent _ r); [|exact Hc].
  unfold cryptsetup, mount, umount, blkid, findmnt, mkfs, blockdev. keeps_go.
Qed.
(** Whatever commands are run, and in whatever order, the simulated cluster stays consistent,
    so no two mapped images share a device. *)
Theorem simulation_consistent cmds r : foldl (λ x c, r ← x; fst <$> Run c.1 c.2 r) (Some New) cmds = Some r →
  consistent r ∧ ∀ s1 s2 dev, devBySpec r !! s1 = Some dev → devBySpec r !! s2 = Some dev → s1 = s2.
Proof.
  intros Hrun. assert (consistent r) as Hc.
  { revert r Hrun. induction cmds as [|c cmds IH] using rev_ind; intros r; simpl.
    - intros [= <-]. split_and!; simpl; [|by intros ? []|done]. intros s d. by rewrite !lookup_empty.
    - rewrite foldl_app. simpl. destruct (foldl _ _ cmds) as [r0|]; simpl; [|done].
      destruct (Run c.1 c.2 r0) as [[r1 o]|] eqn:Hc; [|done]. intros [= <-]. by eapply Run_consistent; [apply IH|]. }
  split; [done|]. intros s1 s2 dev H1%Hc H2%Hc. congruence.
Qed.
End consistent.
End fakerun.
