(* ===== verification/RBDConformance.v ===== *)
(** * The Ceph RBD plugin under the conformance suite

    The plugin of RBDAddons.v on the simulated cluster of FakeRun.v, served by the SDK, and the
    suite of Conformance.v on its socket, node plane included. *)
From Stdlib Require Import Ascii.
From S2P Require Import Prelude GoStrings GoErrors VolumeID Json JsonText Protocol Server Metrics Backend Client Sha256 Host GoOs GoPath GoCrypto KMS KMSRegistry RBD RBDControl RBDNode RBDAddons Conformance ConformanceSafety FakeRun.

Module rbdconformance.
Import bardplugin cephenc kms cephrbd rbdcontrol rbdnode rbdaddons conformance conformancesafety.

(** ** The host: the simulated cluster, files and a clock

    Commands the simulation does not know are answered by [extra]. *)
Record sim := mkSim { s_cluster : fakerun.Runner; s_files : strmap; s_clock : Z; s_extra : string → list string → option string }.
Definition with_files (f : strmap → strmap) (s : sim) : sim := mkSim (s_cluster s) (f (s_files s)) (s_clock s) (s_extra s).
Definition missing : os_error := mkOsError true "no such file".
Definition sim_run (n : string) (a : list string) (s : sim) : sim * output :=
  match s_extra s n a with
  | Some out => (s, mkOutput out None)
  | None =>
      match fakerun.Run n a (s_cluster s) with
      | Some (c, o) => (mkSim c (s_files s) (s_clock s) (s_extra s), o)
      | None => (s, mkOutput "" (Some "panic"))
      end
  end.
#[global] Instance sim_host : Host sim := {| Host.Run := sim_run; MkdirAll _ _ s := (s, None); UnixNow s := (s_clock s / 1000000000)%Z |}.
#[global] Instance sim_files : Files sim := {|
  MkdirTemp _ p b := (b, Ok ("/tmp/" +:+ p));
  Remove p b := (with_files (delete p) b, None);
  RemoveAll p b := (with_files (delete p) b, None);
  Rename p q b := (with_files (λ f, match f !! p with Some d => <[q := d]> (delete p f) | None => f end) b, None);
  ReadFile p b := (b, match s_files b !! p with Some d => Ok d | None => Err missing end);
  WriteFile p d _ b := (with_files <[p := d]> b, None);
  Stat p b := (b, match s_files b !! p with Some d => Ok 420%Z | None => Err missing end);
  ReadDir _ b := (b, Ok []); Chmod _ _ b := (b, None); Statfs _ b := (b, Err missing) |}.
#[global] Instance sim_temps : TempFiles sim := {|
  IsDir _ b := (b, true);
  CreateTemp d p b := (with_files <[d +:+ "/" +:+ p := ""]> b, Ok (d +:+ "/" +:+ p));
  WriteString p d b := (with_files (alter (λ x, x +:+ d) p) b, None);
  OpenCreate p _ b := (with_files <[p := ""]> b, None) |}.
Definition no_answer : string := "connection refused".
#[global] Instance sim_env : Env sim := {|
  readFile p b := (b, match s_files b !! p with Some d => Ok d | None => Err "no such file" end);
  getenv _ _ := ""; randRead n b := (b, Ok (String.concat "" (replicate n "x"))); now := s_clock; httpDo _ b := (b, Err no_answer);
  kmipExchange _ _ b := (b, KDialFailed); pem_certs _ := true; key_pair _ _ b := (b, Ok tt);
  get_token _ _ := ("", 0%Z); put_token _ _ b := b; get_creds _ _ := (mkCreds "" "" "", 0%Z); put_creds _ _ b := b |}.
#[global] Instance sim_clock : Clock sim := {|
  Sleep d b := mkSim (s_cluster b) (s_files b) (s_clock b + d)%Z (s_extra b); ctx_done _ := false |}.
#[global] Instance sim_fscrypt : FsCrypt sim := {|
  add_encryption_key _ k b := (b, Ok k); mkdir _ _ b := (b, None); set_encryption_policy _ _ b := (b, Ok tt) |}.
#[global] Instance sim_network : Network sim := {| DialUDP _ b := (b, Err no_answer); ParseInLocation _ _ _ := None |}.

(** The plugin process: the suite works on the host inside it. *)
Abbreviation T := (Backend_ sim).
Definition lifted {A} (f : sim → sim * A) (s : T) : T * A := let '(h, a) := f (host s) in (with_host h s, a).
#[global] Instance t_host : Host T := {| Host.Run n a := lifted (Host.Run n a); MkdirAll p m := lifted (MkdirAll p m); UnixNow s := UnixNow (host s) |}.
#[global] Instance t_files : Files T := {|
  MkdirTemp d p := lifted (MkdirTemp d p); Remove p := lifted (Remove p); RemoveAll p := lifted (RemoveAll p); Rename p q := lifted (Rename p q);
  ReadFile p := lifted (ReadFile p); WriteFile p d m := lifted (WriteFile p d m); Stat p := lifted (Stat p); ReadDir p := lifted (ReadDir p);
  Chmod p m := lifted (Chmod p m); Statfs p := lifted (Statfs p) |}.
#[global] Instance t_env : Env T := {|
  readFile p := lifted (readFile p); getenv k s := getenv k (host s); randRead n := lifted (randRead n); now s := now (host s);
  httpDo rq := lifted (httpDo rq); kmipExchange a b := lifted (kmipExchange a b); pem_certs := pem_certs (Env := sim_env); key_pair a b := lifted (key_pair a b);
  get_token i s := get_token i (host s); put_token i v s := with_host (put_token i v (host s)) s;
  get_creds i s := get_creds i (host s); put_creds i v s := with_host (put_creds i v (host s)) s |}.
Definition ex_cluster : ClusterConfig := mkClusterConfig ["10.0.0.1"] "rbd" "" "" "" false "".
Definition ex_config : cephrbd.Config := cephrbd.New {["c1" := ex_cluster]} "" "/state".
#[global] Instance t_socket : Socket T := λ path j s,
  let '(s', r) := server.serve (server.newMux (Serve_ (H := sim) ex_config)) path (Some (server.mkBody (json_len j) (Some j))) s in
  (s', Reply (server.r_status r) (server.r_body r)).

(** ** The run *)
Definition suite : conformance.Config := conformance.mkConfig "/run/rbd.sock" "c1" ∅ "" 0 "" true "" "".
Definition process (extra : string → list string → option string) : T := mkState (mkSim fakerun.New ∅ 0 extra) ∅ ∅ ∅ [].
Definition suite_run (extra : string → list string → option string) : option (T * res error (list Result)) :=
  conformance.Run (λ s, (s, None)) suite (process extra).
Definition idle (s : T) : bool :=
  let c := s_cluster (host s) in
  bool_decide (fakerun.images c = ∅) && bool_decide (fakerun.snaps c = ∅) && bool_decide (fakerun.trashedSnaps c = ∅)
  && bool_decide (fakerun.devBySpec c = ∅) && bool_decide (fakerun.mounts c = ∅).
(** The checks that fail, and whether the cluster is empty again. *)
Definition outcome (x : option (T * res error (list Result))) : option (list string * bool) :=
  match x with
  | Some (s, Ok rs) => Some (map rs_Name (filter (λ r, rs_Status r = Fail ∨ rs_Status r = Warn) rs), idle s)
  | _ => None
  end.
(** The plugin passes every check but those whose commands the simulation does not know (the
    pool's capacity, sparsify and fstrim), and nothing is left on the cluster: no image,
    snapshot, device or mount. *)
Lemma simulated_rbd_conforms : outcome (suite_run (λ _ _, None)) = Some (["capacity"; "volume/reclaimspace"; "node/reclaimspace"], true).
Proof. vm_compute. reflexivity. Qed.
(** With these three answered it passes them all. *)
Definition df : string :=
  jsontext.print (JObj [("pools", JArr [JObj [("name", JStr "rbd"); ("stats", JObj [("max_avail", JNum "1073741824")])]])]).
Definition tools (n : string) (a : list string) : option string :=
  if bool_decide (n = "ceph") then Some df
  else if bool_decide (n = "fstrim") then Some ""
  else if bool_decide (n = "rbd") && bool_decide ("sparsify" ∈ a) then Some "" else None.
Lemma rbd_conforms : outcome (suite_run tools) = Some ([], true).
Proof. vm_compute. reflexivity. Qed.
End rbdconformance.
