(* ===== verification/Tools.v ===== *)
(** * kubectl-bard (cmd/kubectl-bard)

    The kubectl plugin that runs the scanner inside the controller's pod: which kubectl
    commands it runs and the exit code it ends with. *)
From Stdlib Require Import Ascii.
From S2P Require Import Prelude GoStrings.

Module kubectlbard.

(** What [exec.Cmd] gives: the output of a command that succeeded, its exit code with what it
    wrote to stderr, or a command that could not be run. *)
Inductive exec_result := Finished (out : string) | ExitError (code : Z) (stderr : string) | StartError.
Class Exec (H : Type) := exec : string → list string → H → H * exec_result.

Record Flags := mkFlags {
  f_namespace : string; f_context : string; f_kubeconfig : string; f_selector : string;
  f_container : string; f_binary : string; f_output : string;
}.
Definition default_flags : Flags :=
  mkFlags "kube-system" "" "" "app=bard-csi-controller" "bard-csi" "/usr/local/bin/bard-csi" "table".

(** [execStderr]. *)
Definition execStderr (r : exec_result) : string := match r with ExitError _ s => s | _ => "" end.

Section tool.
  Context {H : Type} `{Exec H}.

Definition base (f : Flags) : list string :=
  (if bool_decide (f_context f = "") then [] else ["--context"; f_context f]) ++
  (if bool_decide (f_kubeconfig f = "") then [] else ["--kubeconfig"; f_kubeconfig f]).
Definition getArgs (f : Flags) : list string :=
  base f ++ ["-n"; f_namespace f; "get"; "pods"; "-l"; f_selector f; "--field-selector=status.phase=Running"; "-o"; "name"].
Definition execArgs (f : Flags) (pod : string) : list string :=
  base f ++ ["-n"; f_namespace f; "exec"; pod; "-c"; f_container f; "--"; f_binary f; "--inspect"; "--output=" +:+ f_output f].
Definition trim_prefix (p s : string) : string := default s (cut_prefix p s).

(** [runInspect], after its flags are parsed: the exit code. *)
Definition runInspect (f : Flags) (h : H) : H * Z :=
  match exec "kubectl" (getArgs f) h with
  | (h, Finished out) =>
      match fields (trim_space out) with
      | [] => (h, 2%Z)
      | pod :: _ =>
          match exec "kubectl" (execArgs f (trim_prefix "pod/" pod)) h with
          | (h, Finished _) => (h, 0%Z)
          | (h, ExitError code _) => (h, code)
          | (h, StartError) => (h, 2%Z)
          end
      end
  | (h, _) => (h, 2%Z)
  end.
(** [main]: [parse] is what the flag package makes of the arguments, or the code it exits with. *)
Definition main (parse : list string → res Z Flags) (args : list string) (h : H) : H * Z :=
  match args with
  | _ :: cmd :: rest =>
      if bool_decide (cmd = "inspect") then
        match parse rest with Ok f => runInspect f h | Err code => (h, code) end
      else if bool_decide (cmd ∈ ["version"; "help"; "-h"; "--help"]) then (h, 0%Z)
      else (h, 2%Z)
  | _ => (h, 2%Z)
  end.

(** The scanner's exit code is the tool's: with a running pod, what the command inside it
    exits with. *)
Lemma scanner_code f h h1 h2 out pod rest code stderr : exec "kubectl" (getArgs f) h = (h1, Finished out) →
  fields (trim_space out) = pod :: rest →
  exec "kubectl" (execArgs f (trim_prefix "pod/" pod)) h1 = (h2, ExitError code stderr) → runInspect f h = (h2, code).
Proof. intros Hg Hp He. unfold runInspect. by rewrite Hg, Hp, He. Qed.
End tool.

(** A kubectl that finds a pod and then loses it: its own failure exits with 1, which is the
    code for errors found by a scan. *)
#[local] Instance lost_pod : Exec nat := λ _ args n,
  (S n, if bool_decide ("get" ∈ args) then Finished "pod/bard-csi-controller-0" else ExitError 1 "Error from server (NotFound): pods not found").
Example lost_pod_reported_as_findings : runInspect default_flags 0 = (2, 1%Z).
Proof. vm_compute. reflexivity. Qed.
End kubectlbard.
